(* ===== verification/_CoqProject ===== *)
-Q . S2P
Prelude.v
Bytes.v
Ring.v
Pack.v
PackSpec.v
PackLocal.v
Crypto.v
Fifo.v
Rt.v
RtCodec.v
RtSession.v
RtWire.v
RtInv.v
RtQueue.v
RtWorker.v
RtSpec.v
Accel.v
AccelInv.v
AccelSpec.v
Refcount.v
Conn.v
ConnInv.v
WorldInv.v
AccelLink.v
ConnEx.v
Channel.v
ChannelInv.v
Receive.v
ReceiveInv.v
ChannelSpec.v
Decode.v
Tunnel.v
TunnelInv.v
TunnelSpec.v
Calm.v
Dhcp.v
DhcpSpec.v
DhcpWait.v
Http.v
HttpSpec.v
PackRead.v
LoginPack.v
LoginPackSpec.v
HelloSpec.v
Login.v
LoginInv.v
LoginSpec.v
TcpSocket.v
TcpSocketSpec.v
Dial.v
Additional.v
AdditionalSpec.v
HandshakeSpec.v
NatT.v
NatTInv.v
NatTSpec.v
RtConnect.v
RtConnectSpec.v
Race.v
RaceInv.v
RaceSpec.v
LoginFrame.v
Lifecycle.v
LifecycleInv.v
ConnectInv.v
AccelSession.v
LifecycleSpec.v
