(* ===== verification/Prelude.v ===== *)
(** * The SoftEther VPN client core: a verification library

    The program is the native part of an Android VPN client, the C library
    under src/SoftEtherClient/src/main/cpp/softether-core (file names below are
    relative to its src/ directory). It carries Ethernet frames between a TUN
    device and a SoftEther server over TLS links, over a UDP accelerator, or
    over a reliable-UDP transport that replaces TCP.

    ** Parts and files

    - PACK, the tagged message format (proto/softether_pack.c): [Pack] the
      growable writer and the bounds-checked readers, [PackSpec] the abstract
      element list both are proved against, [PackLocal] the static copies in
      proto/softether_protocol.c, proved to compute the same.
    - Ciphers implemented in C (crypto/aes_wrapper.c): [Crypto], RC4 and SHA-0,
      and the interfaces of zlib (crypto/compress.c).
    - Reliable UDP (proto/rudp_transport.c): [Fifo] the byte ring, [Rt] state,
      [RtCodec] packets, [RtSession] windows and timers and the iteration of
      the worker thread; [RtWire], [RtInv], [RtQueue], [RtWorker] their lemmas,
      [RtSpec] the theorems. [RtConnect] creates, connects and destroys a
      transport over system calls, [RtConnectSpec] has its theorems.
    - The UDP accelerator (proto/softether_rudp.c): [Accel] the context,
      versions 1 and 2 of the packet format and the entry points, [AccelInv]
      the invariant, [AccelSpec] the theorems; [Refcount] its reference counts
      as an interleaving of threads.
    - The connection (softether_protocol.h, packet/packet_handler.c,
      proto/softether_protocol.c): [Conn] the object, link selection and the
      transfer loops over TLS and plain sockets; [Channel] blocks, failover and
      keepalives; [Receive] the receive queue; [Tunnel] packets and frames, ARP,
      link maintenance and teardown. [ConnInv], [WorldInv], [ChannelInv],
      [ReceiveInv] and [TunnelInv] prove that each keeps the connection well
      formed, [Decode] relates the receive path to a reference decoder,
      [ChannelSpec] and [TunnelSpec] hold the theorems.
    - The DHCP client (net/dhcp_client.c): [Dhcp]; [DhcpSpec] and [DhcpWait] its
      theorems, [Calm] the measure that ends its waits.
    - Session establishment: [TcpSocket] (socket/tcp_socket.c), [Dial] the TLS
      objects (crypto/aes_wrapper.c) and the handshake of the primary link,
      [Http] the exchange of messages, [PackRead], [LoginPack] and [Login] the
      login (proto/softether_protocol.c), [Additional] further links; the
      theorems are in [TcpSocketSpec], [HandshakeSpec], [HttpSpec],
      [LoginPackSpec], [HelloSpec], [LoginSpec] over [LoginInv], and
      [AdditionalSpec].
    - Paths around a closed TCP port: [NatT] the rendezvous through the relay
      (proto/softether_nat_t.c) with [NatTInv] and [NatTSpec]; [Race] the race
      of the transports (proto/softether_protocol.c) with [RaceInv] and
      [RaceSpec].
    - [Prelude], [Bytes] and [Ring]: fixed-width integers, C-indexed lists,
      checked memory accesses, the state-and-error monad with its weakest
      preconditions, network-order integers, circular arrays.

    The parts meet at interfaces. [Conn] sees the accelerator only as an
    [Accelerator] with [AcceleratorLaws], the login as an [AccelSetup];
    [AccelLink] proves that the model of [Accel] is one, and [ConnEx] runs the
    connection over it; [AccelSession] does the same for the calls of the login
    and of the connect. The components above [Conn] see sockets, [poll], the
    clock and [rand] only as the event lists and functions of [cworld]. The
    parts that open sockets see the system as a [Kernel] with [KernelLaws], the
    transport as an [RtKernel] with [RtKernelLaws], the handshake OpenSSL as an
    [OpenSSL]. [Lifecycle] sees the race and the NAT-T connect by their outcome
    ([Transports]) and the start of the accelerator as an [AccelStart] with
    [AccelStartLaws].

    ** How the code is represented

    An integer of the code is a [Z], reduced to its width where the code may
    leave it; a buffer is the list of its bytes; a struct is a record with the
    same fields; a function that changes state is a computation of the monad
    [St]. [Ub] is undefined behaviour: an access outside an object, a use of a
    destroyed TLS context, a signed overflow, an overfull local array. [Err] in
    a parser is its error return; in a state computation it means that a loop
    used up its fuel, so a theorem that a call is [Ok] includes termination.

    ** What the theorems show

    - Memory safety and invariants: readers of PACK messages and DHCP answers,
      the worker of the reliable transport, every sequence of calls on the
      accelerator, and every sequence of calls on the data plane stay inside
      their buffers for all inputs and environments and keep their state well
      formed.
    - Refinement and equivalence: PACK against an element list, the byte ring
      against a queue, the accelerator's receive ring against a bounded FIFO,
      the reader of block messages, the batch receive and the DHCP parser
      against reference definitions.
    - End to end: a segment of the reliable transport, a payload of the
      accelerator and a packet of the tunnel arrive as they were sent; the
      reliable transport delivers every payload once and in order; a block is
      not lost while a healthy link is left.
    - Establishing a session: the login against any server keeps the
      connection well formed, against a server that answers it stores what it
      was told; dialling tries the addresses in order; handshakes, additional
      links, transports and the rendezvous return and own exactly what they
      report, or nothing; the race of the transports adopts one winner with
      all its objects in every interleaving of its threads.
    - The life of a session: a connect returns, connected or disconnected, and
      all that is open can be reached from the connection; a disconnect
      releases all of it.
    - Termination, timers and windows: selection rotates, keepalives and
      retransmissions keep their bounds, the DHCP exchange ends when the
      traffic does, the rendezvous when its clock passes the deadline, the race
      after a bounded number of steps.
    - Faults of the code are theorems too: a receive queue that never reorders,
      bytes the pump drops, a keepalive tail read as a header, a DHCP wait
      without a bound, a DATA element whose size wraps, answers searched beyond
      their array, a protector that is bypassed, joins without a bound,
      a descriptor closed twice, a transport a failed connect keeps.

    ** Bounds and fuel

    Loops over lists are structural. The others carry fuel that is shown to be
    enough: the growth of a PACK buffer 34 doublings (32-bit capacities); the
    segmentation loop 66 (window of 64); checksum folding 4; the drain of
    acknowledgements 2; the poll loop of the accelerator one more than the
    datagrams that wait; a transfer loop one more than the socket events that
    wait; skipping a block 1251 passes of 2048 bytes (blocks are at most 2560000
    bytes); the retries of [ssl_read] 5; a batch one more than the queued
    frames; DHCP options one more than the bytes. Waits of the DHCP client take
    a fuel argument; [wait_fuel] is enough without an accelerator. The loop
    that draws cookies has no bound in the code, and its fuel is an argument.
    Headers and bodies of HTTP answers are read with as much fuel as the array
    or the body has bytes; the TLS handshake is attempted 100 times; the
    cancellable wait of a TCP connect needs the interruptions plus one more
    than its slices of 200 ms; the wait for the worker of a transport one more
    than the schedule has entries. Loops over a socket's whole buffer, and the
    loop of the rendezvous, take a fuel argument that is enough when the
    interruptions end and the clock advances. The race is a step relation; a
    measure bounds its steps.

    ** Parameters

    SHA-1, the AEAD of OpenSSL, zlib, RAND_bytes, rand, malloc, the clock and
    everything a socket may do are parameters or event lists; theorems name
    what they assume of them (lengths and byte ranges, decryption inverts
    encryption, compression is inverted, [rand] is not negative). So are the
    results of the system calls and of OpenSSL, the text of a date and of an
    address, the contents of a local array before it is written, the address
    of the arrays answers are read into, and the order in which threads run.

    ** Not modelled

    The unused packet/serializer.c. Mutexes and the threads around the
    connection: a call runs by itself, but for the flag that cancels a connect;
    only [Refcount] and [Race] interleave threads, and [RtConnect] runs the
    worker between the waits of its caller. OpenSSL and its set-up, the JNI
    marshalling, the Kotlin application and the Python tools have no model. Log
    output and null checks of the first argument are left out. *)
From Stdlib Require Export ZArith Lia.
From stdpp Require Export sorting prelude numbers.
From stdpp Require Export base list.

Declare Scope se_scope.
Delimit Scope se_scope with se.
#[global] Open Scope Z_scope.
#[global] Open Scope se_scope.

(** ** Fixed-width unsigned integers

    A C [uintN_t] is a [Z]; every arithmetic operation of the source that may
    leave the range is followed by the reduction below. *)

Definition u8 (z : Z) : Z := z mod 2 ^ 8.
Definition u16 (z : Z) : Z := z mod 2 ^ 16.
Definition u32 (z : Z) : Z := z mod 2 ^ 32.
(** An unsigned value converted to [int32_t]. *)
Definition int32 (z : Z) : Z := (z + 2 ^ 31) mod 2 ^ 32 - 2 ^ 31.
Definition u64 (z : Z) : Z := z mod 2 ^ 64.
Definition UINT32_MAX : Z := 2 ^ 32 - 1.

Definition byte_ok (b : Z) : Prop := 0 <= b < 256.
Definition bytes_ok (l : list Z) : Prop := Forall byte_ok l.

#[global] Instance byte_ok_dec b : Decision (byte_ok b).
Proof. unfold byte_ok. apply _. Defined.
#[global] Instance bytes_ok_dec l : Decision (bytes_ok l).
Proof. unfold bytes_ok. apply _. Defined.

(** ** Lists indexed by C integers *)

Definition len {A} (l : list A) : Z := Z.of_nat (length l).
Definition tk {A} (n : Z) (l : list A) : list A := take (Z.to_nat n) l.
Definition dr {A} (n : Z) (l : list A) : list A := drop (Z.to_nat n) l.
Definition zeros (n : Z) : list Z := replicate (Z.to_nat n) 0.

(** Bytes [off .. off+n) of [l]; meaningful when they are all inside [l]. *)
Definition slice {A} (off n : Z) (l : list A) : list A := tk n (dr off l).

(** ** Record update

    [r <| f := v |>] is the C assignment [r->f = v]. A record type declares
    the [Eta] instance that rebuilds it from its fields; the setter of a field
    is then found by instance search. *)

Class Eta (R : Type) := eta : R -> R.
Class Upd {R T : Type} (proj : R -> T) := upd : (T -> T) -> R -> R.
Arguments upd {R T} proj {_} _ _.

Ltac solve_upd :=
  match goal with
  | |- @Upd ?R ?T ?proj =>
      let e := constr:(_ : Eta R) in
      let b := eval hnf in e in
      let b := eval pattern proj in b in
      match b with ?g _ => exact (fun f r => g (fun r => f (proj r)) r) end
  end.
#[export] Hint Extern 1 (Upd _) => solve_upd : typeclass_instances.

Notation "r <| p := v |>" := (upd p (fun _ => v) r)
  (at level 1, left associativity, p at level 99, v at level 200) : se_scope.

(** ** Outcomes of a C function that parses a buffer

    [Ub]: the code reads or writes outside the object it was given;
    [Err]: the code returns its error value; [Ok]: the code succeeds. *)

Inductive res (A : Type) : Type :=
| Ub
| Err
| Ok (a : A).
Arguments Ub {A}.
Arguments Err {A}.
Arguments Ok {A} _.

#[global] Instance res_ret : MRet res := fun _ => Ok.
#[global] Instance res_bind : MBind res := fun _ _ f m =>
  match m with Ub => Ub | Err => Err | Ok a => f a end.

#[global] Instance res_fmap : FMap res := fun _ _ f m =>
  match m with Ub => Ub | Err => Err | Ok a => Ok (f a) end.

(** An early [return -1] when the condition of the source holds. *)
Definition fail_if (b : bool) : res unit := if b then Err else Ok tt.

(** [safe P r]: [r] is not undefined behaviour, and a returned value has [P]. *)
Definition safe {A} (P : A -> Prop) (r : res A) : Prop :=
  match r with Ub => False | Err => True | Ok a => P a end.

Lemma safe_bind {A B} (P : A -> Prop) (Q : B -> Prop) (r : res A) (f : A -> res B) :
  safe P r -> (forall a, P a -> safe Q (f a)) -> safe Q (r ≫= f).
Proof. destruct r; cbn; auto. Qed.

Lemma safe_mono {A} (P Q : A -> Prop) (r : res A) :
  safe P r -> (forall a, P a -> Q a) -> safe Q r.
Proof. destruct r; cbn; auto. Qed.

(** The early return [if (b) return -1;] in front of the rest of a function. *)
Lemma safe_check {B} (Q : B -> Prop) (b : bool) (r : res B) :
  (b = false -> safe Q r) -> safe Q (fail_if b ≫= fun _ => r).
Proof. destruct b; cbn; auto. Qed.

Lemma safe_not_ub {A} (P : A -> Prop) (r : res A) : safe P r -> r <> Ub.
Proof. by destruct r. Qed.

Lemma bind_ok {A B} (a : A) (f : A -> res B) : (Ok a ≫= f) = f a.
Proof. done. Qed.

(** A check whose condition is false lets the function go on. *)
Lemma check_ok {B} (b : bool) (f : unit -> res B) : b = false -> (fail_if b ≫= f) = f tt.
Proof. by intros ->. Qed.

Create HintDb len.
Create Rewrite HintDb len.
#[export] Hint Constants Opaque : len.

Section lens.
Context {A : Type}.
Implicit Types l a b c : list A.

Lemma len_nonneg l : 0 <= len l.
Proof. unfold len. lia. Qed.
Lemma len_nil : len (@nil A) = 0.
Proof. done. Qed.
Lemma len_cons x l : len (x :: l) = 1 + len l.
Proof. unfold len. cbn [length]. lia. Qed.
Lemma len_app a b : len (a ++ b) = len a + len b.
Proof. unfold len. rewrite length_app. lia. Qed.
Lemma len_tk n l : len (tk n l) = Z.max 0 (Z.min n (len l)).
Proof. unfold len, tk. rewrite length_take. lia. Qed.
Lemma len_dr n l : len (dr n l) = len l - Z.max 0 (Z.min n (len l)).
Proof. unfold len, dr. rewrite length_drop. lia. Qed.
Lemma len_slice o n l :
  len (slice o n l) = Z.max 0 (Z.min n (len l - Z.max 0 (Z.min o (len l)))).
Proof. unfold slice. by rewrite len_tk, len_dr. Qed.
Lemma len_replicate n (x : A) : len (replicate n x) = Z.of_nat n.
Proof. unfold len. by rewrite length_replicate. Qed.
Lemma len_insert l i x : len (<[i:=x]> l) = len l.
Proof. unfold len. by rewrite length_insert. Qed.
Lemma len_map {B} (f : A -> B) l : len (map f l) = len l.
Proof. unfold len. by rewrite length_map. Qed.
Lemma len_rev l : len (rev l) = len l.
Proof. unfold len. by rewrite length_rev. Qed.
Lemma len_0_nil l : len l = 0 -> l = [].
Proof. destruct l; [done|]. rewrite len_cons. pose proof (len_nonneg l). lia. Qed.

Lemma tk_all n l : len l <= n -> tk n l = l.
Proof. intros. unfold tk, len in *. apply take_ge. lia. Qed.
Lemma tk_0 l n : n <= 0 -> tk n l = [].
Proof. intros. unfold tk. replace (Z.to_nat n) with 0%nat by lia. done. Qed.
Lemma dr_0 l n : n <= 0 -> dr n l = l.
Proof. intros. unfold dr. replace (Z.to_nat n) with 0%nat by lia. done. Qed.
Lemma dr_all n l : len l <= n -> dr n l = [].
Proof. intros. unfold dr, len in *. apply drop_ge. lia. Qed.
Lemma tk_dr n l : tk n l ++ dr n l = l.
Proof. apply take_drop. Qed.
Lemma tk_app n a b : tk n (a ++ b) = tk n a ++ tk (n - len a) b.
Proof. unfold tk, len. rewrite take_app. do 2 f_equal. lia. Qed.
Lemma dr_app n a b : dr n (a ++ b) = dr n a ++ dr (n - len a) b.
Proof. unfold dr, len. rewrite drop_app. do 2 f_equal. lia. Qed.
Lemma tk_app_exact n a b : n = len a -> tk n (a ++ b) = a.
Proof. intros ->. rewrite tk_app, tk_all, tk_0 by lia. apply app_nil_r. Qed.
Lemma dr_app_exact n a b : n = len a -> dr n (a ++ b) = b.
Proof. intros ->. rewrite dr_app, dr_all, dr_0 by lia. done. Qed.
Lemma dr_dr m n l : 0 <= m -> 0 <= n -> dr m (dr n l) = dr (n + m) l.
Proof. intros. unfold dr. rewrite drop_drop. f_equal. lia. Qed.
Lemma tk_tk m n l : tk m (tk n l) = tk (Z.min m n) l.
Proof.
  unfold tk. rewrite take_take. f_equal. lia.
Qed.
Lemma slice_app off n a b c :
  off = len a -> n = len b -> slice off n (a ++ b ++ c) = b.
Proof. intros. unfold slice. rewrite dr_app_exact, tk_app_exact by done. done. Qed.
Lemma slice_slice o n o' n' l :
  0 <= o' -> 0 <= o -> o + n <= n' ->
  slice o n (slice o' n' l) = slice (o' + o) n l.
Proof.
  intros. unfold slice, tk, dr. rewrite skipn_firstn_comm, take_take, drop_drop.
  f_equal; [lia|f_equal; lia].
Qed.
Lemma slice_split o n m l :
  0 <= n -> 0 <= m -> 0 <= o -> slice o (n + m) l = slice o n l ++ slice (o + n) m l.
Proof.
  intros. unfold slice, tk, dr.
  replace (Z.to_nat (o + n)) with (Z.to_nat o + Z.to_nat n)%nat by lia.
  rewrite <- drop_drop. rewrite Z2Nat.inj_add by lia.
  generalize (drop (Z.to_nat o) l). intros k.
  rewrite <- (take_drop (Z.to_nat n) k) at 1.
  destruct (decide (Z.to_nat n <= length k)%nat).
  - rewrite take_app_add' by (rewrite length_take; lia). done.
  - rewrite (drop_ge k) by lia. rewrite app_nil_r, take_nil, app_nil_r.
    rewrite (take_ge k (Z.to_nat n)) by lia. apply take_ge. lia.
Qed.
End lens.

Lemma len_zeros n : len (zeros n) = Z.max 0 n.
Proof. unfold zeros. rewrite len_replicate. lia. Qed.

#[export] Hint Rewrite @len_nil @len_cons @len_app @len_tk @len_dr @len_slice
  @len_replicate @len_insert @len_map @len_rev len_zeros : len.

(** [slia]: linear arithmetic after rewriting list lengths. *)
Ltac slia :=
  autorewrite with len in *;
  repeat match goal with
         | |- context [len ?l] =>
             lazymatch goal with
             | _ : 0 <= len l |- _ => fail
             | _ => pose proof (len_nonneg l)
             end
         | _ : context [len ?l] |- _ =>
             lazymatch goal with
             | _ : 0 <= len l |- _ => fail
             | _ => pose proof (len_nonneg l)
             end
         end; lia.

Lemma split_len {A} (n : Z) (l : list A) :
  0 <= n <= len l -> exists a b, l = a ++ b /\ len a = n.
Proof. intros. exists (tk n l), (dr n l). split; [symmetry; apply tk_dr|slia]. Qed.

(** Removes the width reductions [_ mod m] that [lia] can see are vacuous,
    innermost first. *)
Ltac mod_small :=
  repeat match goal with
         | |- context [?a mod ?m] =>
             lazymatch a with
             | context [_ mod _] => fail
             | _ => rewrite (Z.mod_small a m) by lia
             end
         end.

(** ** Bytes *)

Create HintDb bytes.

Lemma bytes_ok_app a b : bytes_ok (a ++ b) <-> bytes_ok a /\ bytes_ok b.
Proof. apply Forall_app. Qed.
Lemma bytes_ok_app_2 a b : bytes_ok a -> bytes_ok b -> bytes_ok (a ++ b).
Proof. intros. by apply bytes_ok_app. Qed.
Lemma bytes_ok_cons x l : byte_ok x -> bytes_ok l -> bytes_ok (x :: l).
Proof. by constructor. Qed.
Lemma bytes_ok_tk n l : bytes_ok l -> bytes_ok (tk n l).
Proof. apply Forall_take. Qed.
Lemma bytes_ok_dr n l : bytes_ok l -> bytes_ok (dr n l).
Proof. apply Forall_drop. Qed.
Lemma bytes_ok_slice o n l : bytes_ok l -> bytes_ok (slice o n l).
Proof. intros. by apply bytes_ok_tk, bytes_ok_dr. Qed.
Lemma bytes_ok_zeros n : bytes_ok (zeros n).
Proof. apply Forall_replicate. unfold byte_ok. lia. Qed.
Lemma bytes_ok_replicate n x : byte_ok x -> bytes_ok (replicate n x).
Proof. apply Forall_replicate. Qed.
Lemma byte_ok_u8 z : byte_ok (u8 z).
Proof. apply (Z.mod_pos_bound z 256). lia. Qed.
Lemma byte_ok_land z : byte_ok (Z.land z 255).
Proof.
  change 255 with (Z.ones 8). rewrite Z.land_ones by lia.
  apply (Z.mod_pos_bound z 256). lia.
Qed.
Lemma byte_ok_lxor a b : byte_ok a -> byte_ok b -> byte_ok (Z.lxor a b).
Proof.
  intros Ha Hb. unfold byte_ok in *.
  assert (Hs : forall x, 0 <= x < 256 -> x = Z.land x (Z.ones 8)).
  { intros x Hx. rewrite Z.land_ones by lia. rewrite Z.mod_small; [done|]. change (2^8) with 256. lia. }
  rewrite (Hs a Ha), (Hs b Hb).
  replace (Z.lxor (Z.land a (Z.ones 8)) (Z.land b (Z.ones 8)))
    with (Z.land (Z.lxor a b) (Z.ones 8)).
  - apply byte_ok_land.
  - apply Z.bits_inj'. intros n Hn. rewrite !Z.lxor_spec, !Z.land_spec, Z.lxor_spec.
    destruct (Z.testbit a n), (Z.testbit b n), (Z.testbit (Z.ones 8) n); done.
Qed.

(** Turns [bytes_ok] facts about literal lists into bounds [lia] can use. *)
Ltac bytes_inv :=
  unfold bytes_ok, byte_ok in *;
  repeat match goal with
         | H : Forall _ (_ :: _) |- _ => apply Forall_cons_1 in H as [? ?]
         | H : Forall _ [] |- _ => clear H
         end.

#[export] Hint Resolve bytes_ok_app_2 bytes_ok_cons bytes_ok_tk bytes_ok_dr
  bytes_ok_slice bytes_ok_zeros bytes_ok_replicate byte_ok_u8 byte_ok_land byte_ok_lxor
  Forall_nil_2 : bytes.

(** ** Checked memory accesses *)

(** [memcpy(blk + off, bs, |bs|)]; a zero-length copy touches nothing. *)
Definition blit (bs : list Z) (off : Z) (blk : list Z) : res (list Z) :=
  if (0 <=? off) && (off + len bs <=? len blk)
  then Ok (tk off blk ++ bs ++ dr (off + len bs) blk)
  else Ub.

(** The [n] bytes at [blk + off]. *)
Definition fetch (off n : Z) (blk : list Z) : res (list Z) :=
  if (0 <=? off) && (off + n <=? len blk) then Ok (slice off n blk) else Ub.

Lemma fetch_at a b c off n : off = len a -> n = len b -> fetch off n (a ++ b ++ c) = Ok b.
Proof. intros. unfold fetch. destruct (_ && _) eqn:E; [|slia]. by rewrite slice_app. Qed.

Lemma fetch_safe off n l : 0 <= off -> off + n <= len l -> exists b, fetch off n l = Ok b.
Proof. intros. unfold fetch. destruct (_ && _) eqn:E; [by eexists|lia]. Qed.

Lemma fetch_len off n l b : fetch off n l = Ok b -> 0 <= n -> len b = n.
Proof. unfold fetch. destruct (_ && _) eqn:E; [|done]. intros [= <-] ?. slia. Qed.

Lemma fetch_bytes off n l b : fetch off n l = Ok b -> bytes_ok l -> bytes_ok b.
Proof. unfold fetch. destruct (_ && _) eqn:E; [|done]. intros [= <-] ?. auto with bytes. Qed.

Lemma fetch_post off n l :
  0 <= off -> 0 <= n -> off + n <= len l -> bytes_ok l ->
  safe (fun b => len b = n /\ bytes_ok b) (fetch off n l).
Proof.
  intros Ho Hn Hl Hb. destruct (fetch_safe off n l Ho Hl) as [b E]. rewrite E. cbn.
  split; [by eapply fetch_len|by eapply fetch_bytes].
Qed.

Lemma blit_at a b c bs off :
  off = len a -> len b = len bs -> blit bs off (a ++ b ++ c) = Ok (a ++ bs ++ c).
Proof.
  intros -> Hl. unfold blit. destruct (_ && _) eqn:E; [|slia].
  rewrite tk_app_exact by done. rewrite (app_assoc a b c), dr_app_exact by slia. done.
Qed.

Lemma blit_nil a off : 0 <= off <= len a -> blit [] off a = Ok a.
Proof.
  intros. unfold blit. change (len (@nil Z)) with 0. destruct (_ && _) eqn:E; [|lia].
  rewrite Z.add_0_r. cbn [app]. by rewrite tk_dr.
Qed.

(** ** Reachability: finite sequences of steps of a transition relation *)

Section star.
Context {S : Type} (step : S -> S -> Prop).

Inductive star : S -> S -> Prop :=
| star_refl s : star s s
| star_step s1 s2 s3 : step s1 s2 -> star s2 s3 -> star s1 s3.

(** A property the initial state has and every step preserves holds of
    every reachable state. *)
Lemma star_invariant (I : S -> Prop) s t :
  (forall a b, I a -> step a b -> I b) -> I s -> star s t -> I t.
Proof. intros Hstep Hs. induction 1; eauto. Qed.

Lemma star_trans s1 s2 s3 : star s1 s2 -> star s2 s3 -> star s1 s3.
Proof. induction 1; eauto using star. Qed.
End star.

(** ** Stateful operations that may misbehave

    [St W A]: from a state of type [W], undefined behaviour or an error, or a
    result and the next state. *)

Definition St (W A : Type) : Type := W -> res (A * W).

#[global] Instance St_ret {W} : MRet (St W) := fun _ a w => Ok (a, w).
#[global] Instance St_bind {W} : MBind (St W) := fun _ _ f m w =>
  match m w with Ub => Ub | Err => Err | Ok (a, w) => f a w end.

Section st.
Context {W : Type}.

Definition gets {A} (f : W -> A) : St W A := fun w => Ok (f w, w).
Definition modify (f : W -> W) : St W unit := fun w => Ok (tt, f w).
(** A buffer operation: its [Ub] is the whole step's. *)
Definition lift {A} (r : res A) : St W A := fun w =>
  match r with Ub => Ub | Err => Err | Ok a => Ok (a, w) end.
Definition when (b : bool) (m : St W unit) : St W unit := if b then m else mret tt.

(** The first operation of a sequence ran: go on with its result. *)
Lemma St_step {A B} (m : St W A) (f : A -> St W B) w a w' :
  m w = Ok (a, w') -> (m ≫= f) w = f a w'.
Proof. intros E. unfold mbind, St_bind. by rewrite E. Qed.

(** [triple P m Q]: from a state with [P], [m] does not misbehave and ends in
    a state with [Q]. *)
Definition triple {A} (P : W -> Prop) (m : St W A) (Q : A -> W -> Prop) : Prop :=
  forall w, P w -> match m w with Ok (a, w') => Q a w' | _ => False end.

Lemma triple_ret {A} (P : W -> Prop) (a : A) (Q : A -> W -> Prop) :
  (forall w, P w -> Q a w) -> triple P (mret a) Q.
Proof. intros H w Hw. cbn. auto. Qed.

Lemma triple_bind {A B} P (m : St W A) (R : A -> W -> Prop) (f : A -> St W B) Q :
  triple P m R -> (forall a, triple (R a) (f a) Q) -> triple P (m ≫= f) Q.
Proof.
  intros Hm Hf w Hw. specialize (Hm w Hw). unfold mbind, St_bind.
  destruct (m w) as [| |[a w']]; [done|done|]. by apply Hf.
Qed.

Lemma triple_conseq {A} (P P' : W -> Prop) (m : St W A) (Q Q' : A -> W -> Prop) :
  triple P' m Q' -> (forall w, P w -> P' w) -> (forall a w, Q' a w -> Q a w) -> triple P m Q.
Proof.
  intros H HP HQ w Hw. specialize (H w (HP w Hw)). destruct (m w) as [| |[a w']]; auto.
Qed.

Lemma triple_gets {A} P (f : W -> A) (Q : A -> W -> Prop) :
  (forall w, P w -> Q (f w) w) -> triple P (gets f) Q.
Proof. intros H w Hw. cbn. auto. Qed.

Lemma triple_modify P (f : W -> W) (Q : unit -> W -> Prop) :
  (forall w, P w -> Q tt (f w)) -> triple P (modify f) Q.
Proof. intros H w Hw. cbn. auto. Qed.

Lemma triple_lift {A} P (r : res A) (Q : A -> W -> Prop) :
  (forall w, P w -> exists a, r = Ok a /\ Q a w) -> triple P (lift r) Q.
Proof. intros H w Hw. destruct (H w Hw) as (a & -> & Hq). done. Qed.

Lemma triple_when P (b : bool) (m : St W unit) Q :
  (b = true -> triple P m Q) -> (b = false -> forall w, P w -> Q tt w) -> triple P (when b m) Q.
Proof. destruct b; intros Ht Hf; [by apply Ht|]. intros w Hw. cbn. by apply Hf. Qed.

Lemma triple_if {A} P (b : bool) (m1 m2 : St W A) Q :
  (b = true -> triple P m1 Q) -> (b = false -> triple P m2 Q) -> triple P (if b then m1 else m2) Q.
Proof. destruct b; auto. Qed.

(** ** Weakest preconditions

    [wp m Q w]: from [w], [m] returns, and its result and next state have [Q]. *)

Definition wp {A} (m : St W A) (Q : A -> W -> Prop) (w : W) : Prop :=
  match m w with Ok (a, w') => Q a w' | _ => False end.

Lemma wp_ret {A} (a : A) (Q : A -> W -> Prop) w : Q a w -> wp (mret a) Q w.
Proof. done. Qed.
Lemma wp_bind {A B} (m : St W A) (f : A -> St W B) Q w :
  wp m (fun a w' => wp (f a) Q w') w -> wp (m ≫= f) Q w.
Proof. unfold wp, mbind, St_bind. by destruct (m w) as [| |[a w']]. Qed.
Lemma wp_bind_inv {A B} (m : St W A) (f : A -> St W B) Q w :
  wp (m ≫= f) Q w -> wp m (fun a w' => wp (f a) Q w') w.
Proof. unfold wp, mbind, St_bind. by destruct (m w) as [| |[a w']]. Qed.
Lemma wp_mono {A} (m : St W A) (P Q : A -> W -> Prop) w :
  wp m P w -> (forall a w', P a w' -> Q a w') -> wp m Q w.
Proof. unfold wp. destruct (m w) as [| |[a w']]; auto. Qed.
Lemma wp_gets {A} (f : W -> A) (Q : A -> W -> Prop) w : Q (f w) w -> wp (gets f) Q w.
Proof. done. Qed.
Lemma wp_modify (f : W -> W) (Q : unit -> W -> Prop) w : Q tt (f w) -> wp (modify f) Q w.
Proof. done. Qed.
Lemma wp_lift {A} (r : res A) (Q : A -> W -> Prop) w a : r = Ok a -> Q a w -> wp (lift r) Q w.
Proof. by intros ->. Qed.
Lemma wp_when (b : bool) (m : St W unit) Q w :
  (b = true -> wp m Q w) -> (b = false -> Q tt w) -> wp (when b m) Q w.
Proof. destruct b; intros H1 H2; [by apply H1|by apply H2]. Qed.
Lemma wp_if {A} (b : bool) (m1 m2 : St W A) Q w :
  (b = true -> wp m1 Q w) -> (b = false -> wp m2 Q w) -> wp (if b then m1 else m2) Q w.
Proof. destruct b; auto. Qed.
Lemma wp_and {A} (m : St W A) (P Q : A -> W -> Prop) w :
  wp m P w -> wp m Q w -> wp m (fun a w' => P a w' /\ Q a w') w.
Proof. unfold wp. destruct (m w) as [| |[a w']]; auto. Qed.
(** The result of a call whose precondition is known. *)
Lemma wp_run {A} (m : St W A) Q w : wp m Q w -> exists a w', m w = Ok (a, w') /\ Q a w'.
Proof. unfold wp. destruct (m w) as [| |[a w']]; [done|done|]. eauto. Qed.
Lemma wp_of_run {A} (m : St W A) Q w a w' : m w = Ok (a, w') -> Q a w' -> wp m Q w.
Proof. unfold wp. by intros ->. Qed.
Lemma triple_wp {A} P (m : St W A) Q : triple P m Q <-> forall w, P w -> wp m Q w.
Proof. done. Qed.
End st.

(** One step of a computation: sequencing, pure steps, guards. *)
Ltac wp_step :=
  lazymatch goal with
  | |- wp (_ ≫= _) _ _ => apply wp_bind
  | |- wp (mret _) _ _ => apply wp_ret
  | |- wp (gets _) _ _ => apply wp_gets
  | |- wp (modify _) _ _ => apply wp_modify
  | |- wp (when _ _) _ _ => apply wp_when; let H := fresh "Hc" in intros H
  | |- wp (if _ then _ else _) _ _ => apply wp_if; let H := fresh "Hc" in intros H
  end.
(** The pure steps a component adds. *)
Ltac wp_hook := fail.
Ltac wp_pure := repeat first [wp_step; []| wp_hook | progress cbv beta].
