(* ===== verification/Bytes.v ===== *)
(** * Network-order integers in byte buffers

    The source writes big-endian integers byte by byte with shifts and masks
    ([pack_write_uint32], [rt_w64], ...) and reads them back with shifts and
    ors. The definitions below are those expressions; [be_enc] and [be_dec] are
    the arithmetic reference they are proved equal to, and carry the
    round-trip lemmas every codec of the development uses. *)
From S2P Require Import Prelude.

(** ** The expressions of the source *)

(** [(v >> s) & 0xFF] *)
Definition byte_of (v s : Z) : Z := Z.land (v ≫ s) 255.

Definition w16 (v : Z) : list Z := [byte_of v 8; byte_of v 0].
Definition w32 (v : Z) : list Z := [byte_of v 24; byte_of v 16; byte_of v 8; byte_of v 0].
Definition w64 (v : Z) : list Z :=
  [byte_of v 56; byte_of v 48; byte_of v 40; byte_of v 32;
   byte_of v 24; byte_of v 16; byte_of v 8; byte_of v 0].

Definition r16 (l : list Z) : Z :=
  match l with
  | [b0; b1] => Z.lor (b0 ≪ 8) b1
  | _ => 0
  end.
Definition r32 (l : list Z) : Z :=
  match l with
  | [b0; b1; b2; b3] => Z.lor (Z.lor (Z.lor (b0 ≪ 24) (b1 ≪ 16)) (b2 ≪ 8)) b3
  | _ => 0
  end.
(** [rt_r64]: one expression over the eight bytes. *)
Definition r64 (l : list Z) : Z :=
  match l with
  | [b0; b1; b2; b3; b4; b5; b6; b7] =>
      Z.lor (Z.lor (Z.lor (Z.lor (Z.lor (Z.lor (Z.lor (b0 ≪ 56) (b1 ≪ 48)) (b2 ≪ 40))
        (b3 ≪ 32)) (b4 ≪ 24)) (b5 ≪ 16)) (b6 ≪ 8)) b7
  | _ => 0
  end.
(** [v = (v << 8) | b] over the bytes, in a [uint64_t]. *)
Definition r64_loop (l : list Z) : Z := fold_left (fun v b => Z.lor (u64 (v ≪ 8)) b) l 0.

(** ** Arithmetic reference *)

Fixpoint be_enc (n : nat) (v : Z) : list Z :=
  match n with
  | O => []
  | S n => u8 (v / 256 ^ Z.of_nat n) :: be_enc n v
  end.

Definition be_dec (l : list Z) : Z := fold_left (fun acc b => acc * 256 + b) l 0.

Lemma len_be_enc n v : len (be_enc n v) = Z.of_nat n.
Proof. induction n; [done|]. cbn [be_enc]. slia. Qed.
#[export] Hint Rewrite len_be_enc : len.

Lemma bytes_ok_be_enc n v : bytes_ok (be_enc n v).
Proof. induction n; cbn; auto with bytes. constructor. Qed.
#[export] Hint Resolve bytes_ok_be_enc : bytes.

Lemma fold_be acc l :
  fold_left (fun acc b => acc * 256 + b) l acc = acc * 256 ^ len l + be_dec l.
Proof.
  unfold be_dec. revert acc. induction l as [|b l IH]; intros acc.
  - rewrite len_nil. cbn. lia.
  - cbn [fold_left]. rewrite IH, (IH (0 * 256 + b)). rewrite len_cons, Z.pow_add_r by slia. lia.
Qed.

Lemma be_dec_cons b l : be_dec (b :: l) = b * 256 ^ len l + be_dec l.
Proof. unfold be_dec at 1. cbn [fold_left]. rewrite fold_be. lia. Qed.

Lemma be_dec_app a b : be_dec (a ++ b) = be_dec a * 256 ^ len b + be_dec b.
Proof. unfold be_dec at 1. rewrite fold_left_app. rewrite fold_be. done. Qed.

Lemma be_dec_bound l : bytes_ok l -> 0 <= be_dec l < 256 ^ len l.
Proof.
  induction 1 as [|b l Hb Hl IH]; [by cbn|].
  rewrite be_dec_cons, len_cons, Z.pow_add_r by slia.
  unfold byte_ok in Hb. nia.
Qed.

Lemma be_dec_enc_mod n v : be_dec (be_enc n v) = v mod 256 ^ Z.of_nat n.
Proof.
  induction n as [|n IH].
  - cbn. by rewrite Z.mod_1_r.
  - cbn [be_enc]. rewrite be_dec_cons, len_be_enc, IH.
    rewrite Nat2Z.inj_succ, <- Z.add_1_r, Z.pow_add_r by lia.
    unfold u8. change (2 ^ 8) with 256. change (256 ^ 1) with 256.
    rewrite Z.rem_mul_r by lia. lia.
Qed.

Lemma be_dec_enc n v : 0 <= v < 256 ^ Z.of_nat n -> be_dec (be_enc n v) = v.
Proof. intros. rewrite be_dec_enc_mod. by apply Z.mod_small. Qed.

Lemma be_enc_mod n v : be_enc n (v mod 256 ^ Z.of_nat n) = be_enc n v.
Proof.
  assert (H : forall m, (m <= n)%nat ->
    be_enc m (v mod 256 ^ Z.of_nat n) = be_enc m v); [|by apply H].
  induction m as [|m IH]; intros Hm; [done|]. cbn [be_enc]. f_equal; [|apply IH; lia].
  unfold u8. change (2 ^ 8) with 256.
  replace (Z.of_nat n) with (Z.of_nat m + (1 + (Z.of_nat n - Z.of_nat m - 1))) by lia.
  rewrite !Z.pow_add_r by lia. change (256 ^ 1) with 256.
  rewrite Z.rem_mul_r, (Z.mul_comm (256 ^ Z.of_nat m)), Z.div_add, Z.div_small by
    (try apply Z.mod_pos_bound; lia).
  rewrite Z.add_0_l, Z.rem_mul_r by lia.
  rewrite (Z.mul_comm 256), Z.mod_add, Z.mod_mod by lia. done.
Qed.

Lemma be_enc_dec l : bytes_ok l -> be_enc (length l) (be_dec l) = l.
Proof.
  induction 1 as [|b l Hb Hl IH]; [done|].
  pose proof (be_dec_bound l Hl) as Hd. fold (len l).
  cbn [length be_enc]. f_equal.
  - rewrite be_dec_cons. fold (len l). rewrite Z.div_add_l, Z.div_small, Z.add_0_r by lia.
    unfold u8, byte_ok in *. apply Z.mod_small. change (2 ^ 8) with 256. lia.
  - rewrite <- be_enc_mod, be_dec_cons. fold (len l).
    rewrite Z.add_comm, Z.mod_add, Z.mod_small by lia. done.
Qed.

(** ** The source's expressions are the reference *)

Lemma byte_of_div v s : 0 <= s -> byte_of v s = u8 (v / 2 ^ s).
Proof.
  intros. unfold byte_of, u8. change 255 with (Z.ones 8).
  rewrite Z.land_ones, Z.shiftr_div_pow2 by lia. done.
Qed.

Lemma byte_of_ok v s : byte_ok (byte_of v s).
Proof. apply byte_ok_land. Qed.
#[export] Hint Resolve byte_of_ok : bytes.

Lemma w16_enc v : w16 v = be_enc 2 v.
Proof. unfold w16. rewrite !byte_of_div by lia. done. Qed.
Lemma w32_enc v : w32 v = be_enc 4 v.
Proof. unfold w32. rewrite !byte_of_div by lia. done. Qed.
Lemma w64_enc v : w64 v = be_enc 8 v.
Proof. unfold w64. rewrite !byte_of_div by lia. done. Qed.

Lemma lor_shift a b k : 0 <= k -> 0 <= b < 2 ^ k -> Z.lor (a ≪ k) b = a * 2 ^ k + b.
Proof.
  intros Hk Hb. rewrite <- Z.shiftl_mul_pow2 by done. symmetry. apply Z.add_nocarry_lor.
  apply Z.bits_inj'. intros n Hn. rewrite Z.land_spec, Z.bits_0.
  destruct (decide (n < k)).
  - by rewrite Z.shiftl_spec_low.
  - rewrite <- (Z.mod_small b (2 ^ k)) by done.
    rewrite Z.mod_pow2_bits_high by lia. apply andb_false_r.
Qed.

Lemma r16_dec b0 b1 : bytes_ok [b0; b1] -> r16 [b0; b1] = be_dec [b0; b1].
Proof. intros H. bytes_inv. cbn [r16]. rewrite lor_shift by lia. unfold be_dec. cbn [fold_left]. lia. Qed.

Lemma lor_shift2 a b i j k :
  i = j + k -> 0 <= k -> 0 <= j -> Z.lor (a ≪ i) (b ≪ k) = Z.lor (a ≪ j) b ≪ k.
Proof. intros ->. intros. rewrite Z.shiftl_lor, Z.shiftl_shiftl by lia. done. Qed.

Lemma r32_dec b0 b1 b2 b3 :
  bytes_ok [b0; b1; b2; b3] -> r32 [b0; b1; b2; b3] = be_dec [b0; b1; b2; b3].
Proof.
  intros H. bytes_inv. cbn [r32].
  rewrite (lor_shift2 b0 b1 24 8 16), (lor_shift2 _ b2 16 8 8), !lor_shift by lia.
  unfold be_dec. cbn [fold_left]. lia.
Qed.

Lemma r64_dec b0 b1 b2 b3 b4 b5 b6 b7 :
  bytes_ok [b0; b1; b2; b3; b4; b5; b6; b7] ->
  r64 [b0; b1; b2; b3; b4; b5; b6; b7] = be_dec [b0; b1; b2; b3; b4; b5; b6; b7].
Proof.
  intros H. bytes_inv. cbn [r64].
  rewrite (lor_shift2 b0 b1 56 8 48), (lor_shift2 _ b2 48 8 40), (lor_shift2 _ b3 40 8 32),
    (lor_shift2 _ b4 32 8 24), (lor_shift2 _ b5 24 8 16), (lor_shift2 _ b6 16 8 8), !lor_shift by lia.
  unfold be_dec. cbn [fold_left]. lia.
Qed.

Lemma r64_loop_dec l : bytes_ok l -> len l <= 8 -> r64_loop l = be_dec l.
Proof.
  intros Hl Hn. unfold r64_loop, be_dec.
  assert (H : forall acc, 0 <= acc < 256 ^ (8 - len l) ->
    fold_left (fun v b => Z.lor (u64 (v ≪ 8)) b) l acc =
    fold_left (fun v b => v * 256 + b) l acc); [|apply H; split; [lia|]; apply Z.pow_pos_nonneg; lia].
  revert Hn. induction Hl as [|b l Hb Hl IH]; intros Hn acc Hacc; [done|].
  rewrite len_cons in *. pose proof (len_nonneg l). cbn [fold_left]. unfold byte_ok in Hb.
  assert (0 <= acc < 2 ^ 56).
  { split; [lia|]. eapply Z.lt_le_trans; [apply Hacc|].
    change (2 ^ 56) with (256 ^ 7). apply Z.pow_le_mono_r; lia. }
  replace (Z.lor (u64 (acc ≪ 8)) b) with (acc * 256 + b).
  - apply IH; [lia|]. replace (8 - len l) with (8 - (1 + len l) + 1) by lia.
    rewrite Z.pow_add_r by lia. lia.
  - unfold u64. rewrite Z.mod_small.
    + rewrite lor_shift by lia. done.
    + rewrite Z.shiftl_mul_pow2 by lia. lia.
Qed.

(** Reading the bytes of one encoded integer. *)
Lemma r32_enc v : 0 <= v < 2 ^ 32 -> r32 (be_enc 4 v) = v.
Proof.
  intros. pose proof (bytes_ok_be_enc 4 v) as Hb. cbn [be_enc] in *.
  rewrite r32_dec by done. by apply (be_dec_enc 4).
Qed.
Lemma r16_enc v : 0 <= v < 2 ^ 16 -> r16 (be_enc 2 v) = v.
Proof.
  intros. pose proof (bytes_ok_be_enc 2 v) as Hb. cbn [be_enc] in *.
  rewrite r16_dec by done. by apply (be_dec_enc 2).
Qed.
Lemma r64_enc v : 0 <= v < 2 ^ 64 -> r64 (be_enc 8 v) = v.
Proof.
  intros. pose proof (bytes_ok_be_enc 8 v) as Hb. cbn [be_enc] in *.
  rewrite r64_dec by done. by apply (be_dec_enc 8).
Qed.
Lemma r64_loop_enc v : 0 <= v < 2 ^ 64 -> r64_loop (be_enc 8 v) = v.
Proof.
  intros. rewrite r64_loop_dec by (auto with bytes; slia). by apply (be_dec_enc 8).
Qed.

Lemma r16_dec' l : bytes_ok l -> len l = 2 -> r16 l = be_dec l.
Proof.
  intros Hb Hl. destruct l as [|a [|b [|? ?]]]; try (by cbn in Hl); [|slia]. by apply r16_dec.
Qed.
Lemma r32_dec' l : bytes_ok l -> len l = 4 -> r32 l = be_dec l.
Proof.
  intros Hb Hl. destruct l as [|? [|? [|? [|? [|]]]]]; try (by cbn in Hl); [|slia].
  by apply r32_dec.
Qed.
Lemma r64_dec' l : bytes_ok l -> len l = 8 -> r64 l = be_dec l.
Proof.
  intros Hb Hl.
  destruct l as [|? [|? [|? [|? [|? [|? [|? [|? [|]]]]]]]]]; try (by cbn in Hl); [|slia].
  by apply r64_dec.
Qed.
Lemma r32_bound l : bytes_ok l -> 0 <= r32 l < 2 ^ 32.
Proof.
  intros Hb. destruct (decide (len l = 4)) as [Hl|Hl].
  - rewrite r32_dec' by done. pose proof (be_dec_bound l Hb) as H. rewrite Hl in H. done.
  - unfold r32. destruct l as [|? [|? [|? [|? [|]]]]]; cbn; try lia. by cbn in Hl.
Qed.

#[export] Hint Rewrite w16_enc w32_enc w64_enc : len.

(** ** Sums of 16-bit words (Internet checksums)

    [words_sum] is the sum of the network-order words, without width. *)
Fixpoint words_sum (l : list Z) : Z :=
  match l with
  | a :: b :: l => a * 256 + b + words_sum l
  | [a] => a * 256
  | [] => 0
  end.

Lemma pair_ind (P : list Z -> Prop) :
  P [] -> (forall a, P [a]) -> (forall a b l, P l -> P (a :: b :: l)) -> forall l, P l.
Proof.
  intros H0 H1 H2. fix IH 1. intros [|a [|b l]]; [exact H0|apply H1|]. apply H2, IH.
Qed.

Lemma words_sum_bound l : bytes_ok l -> 0 <= words_sum l <= 65535 * len l.
Proof.
  induction l as [|a|a b l IH] using pair_ind; intros Hl.
  - unfold len. cbn. lia.
  - bytes_inv. cbn [words_sum]. unfold len; cbn [length]. lia.
  - apply Forall_cons_1 in Hl as [Ha Hl]. apply Forall_cons_1 in Hl as [Hb Hl].
    specialize (IH Hl). unfold byte_ok in *. cbn [words_sum]. rewrite !len_cons. lia.
Qed.

Lemma fold_step s : 0 <= s < 2 ^ 32 ->
  u32 (Z.land s 65535 + s ≫ 16) = s mod 65536 + s / 65536 /\
  (s mod 65536 + s / 65536) mod 65535 = s mod 65535.
Proof.
  intros Hs. change 65535 with (Z.ones 16) at 1. rewrite Z.land_ones, Z.shiftr_div_pow2 by lia.
  change (2 ^ 16) with 65536. pose proof (Z.mod_pos_bound s 65536).
  pose proof (Z.div_mod s 65536). unfold u32. split.
  - apply Z.mod_small. nia.
  - symmetry. replace s with (s mod 65536 + s / 65536 + s / 65536 * 65535) at 1 by lia.
    rewrite Z.mod_add by lia. done.
Qed.

