(* ===== verification/Ring.v ===== *)
(** * Circular arrays

    The receive queues of the UDP accelerator and of the connection are C
    arrays with a head, a tail and a count. [ring_view] is the abstract queue;
    a store at the tail appends to it and a step of the head drops its first
    element. *)
From S2P Require Import Prelude.

Lemma mod_wrap x c : 0 < c -> c <= x < 2 * c -> x mod c = x - c.
Proof. intros. symmetry. apply (Z.mod_unique _ _ 1); lia. Qed.

Section ring.
Context {A : Type}.
Implicit Types l : list A.

(** The [n] elements from index [h] on, wrapping around. *)
Definition ring_view (h n : Z) (l : list A) : list A := tk n (dr h l ++ tk h l).

Lemma len_ring_view h n l : 0 <= h <= len l -> 0 <= n <= len l -> len (ring_view h n l) = n.
Proof. intros. unfold ring_view. slia. Qed.

Lemma ring_lookup h n l i :
  0 <= h < len l -> 0 <= n <= len l -> 0 <= i < n ->
  ring_view h n l !! Z.to_nat i = l !! Z.to_nat ((h + i) mod len l).
Proof.
  intros Hh Hn Hi. unfold ring_view, tk, dr, len in *.
  rewrite lookup_take_lt by lia.
  destruct (decide (h + i < Z.of_nat (length l))).
  - rewrite lookup_app_l by (rewrite length_drop; lia). rewrite lookup_drop.
  rewrite Z.mod_small by lia. f_equal. lia.
  - rewrite lookup_app_r by (rewrite length_drop; lia). rewrite length_drop.
  rewrite lookup_take_lt by lia. rewrite (mod_wrap (h + i)) by lia. f_equal. lia.
Qed.

Lemma ring_push h n l x :
  0 <= h < len l -> 0 <= n < len l ->
  ring_view h (n + 1) (<[Z.to_nat ((h + n) mod len l) := x]> l) = ring_view h n l ++ [x].
Proof.
  intros Hh Hn. apply list_eq. intros i.
  destruct (decide (Z.of_nat i < n + 1)) as [Hi|Hi].
  - rewrite <- (Nat2Z.id i). rewrite ring_lookup by slia.
  rewrite len_insert.
  destruct (decide (Z.of_nat i = n)) as [->|Hne].
  + rewrite list_lookup_insert_eq.
      * rewrite lookup_app_r; pose proof (len_ring_view h n l) as E; unfold len in *; [|lia].
        rewrite Nat2Z.id || idtac.
        replace (Z.to_nat n - length (ring_view h n l))%nat with 0%nat by lia. done.
      * pose proof (Z.mod_pos_bound (h + n) (len l)). unfold len in *. lia.
  + rewrite list_lookup_insert_ne.
      * rewrite lookup_app_l; [by rewrite ring_lookup by lia|].
        pose proof (len_ring_view h n l) as E. unfold len in *. lia.
      * intros E. apply Hne.
        pose proof (Z.mod_pos_bound (h + n) (len l)).
        pose proof (Z.mod_pos_bound (h + Z.of_nat i) (len l)).
        assert (E' : (h + n) mod len l = (h + Z.of_nat i) mod len l) by lia.
        destruct (decide (h + n < len l)), (decide (h + Z.of_nat i < len l));
          rewrite ?(Z.mod_small (h + n)), ?(Z.mod_small (h + Z.of_nat i)),
            ?(mod_wrap (h + n)), ?(mod_wrap (h + Z.of_nat i)) in E' by lia; lia.
  - rewrite !lookup_ge_None_2; [done| |].
  + rewrite length_app. cbn. pose proof (len_ring_view h n l) as E. unfold len in *. lia.
  + pose proof (len_ring_view h (n + 1) (<[Z.to_nat ((h + n) mod len l) := x]> l)) as E.
      rewrite len_insert in E. unfold len in *. lia.
Qed.

Lemma ring_pop h n l :
  0 <= h < len l -> 0 < n <= len l ->
  exists x, l !! Z.to_nat h = Some x /\
  ring_view h n l = x :: ring_view ((h + 1) mod len l) (n - 1) l.
Proof.
  intros Hh Hn. destruct (lookup_lt_is_Some_2 l (Z.to_nat h)) as [x Hx]; [unfold len in *; lia|].
  exists x. split; [done|]. apply list_eq. intros [|i].
  - change 0%nat with (Z.to_nat 0). rewrite ring_lookup by lia. rewrite Z.add_0_r, Z.mod_small by lia.
  by rewrite Hx.
  - pose proof (Z.mod_pos_bound (h + 1) (len l)) as Hb. set (k := ring_view _ (n - 1) l).
  change ((x :: k) !! S i) with (k !! i). subst k.
  destruct (decide (Z.of_nat i < n - 1)).
  + rewrite <- (Nat2Z.id (S i)), ring_lookup by lia.
      rewrite <- (Nat2Z.id i) at 2. rewrite ring_lookup by lia.
      rewrite Zplus_mod_idemp_l. do 2 f_equal. f_equal. lia.
  + pose proof (len_ring_view ((h + 1) mod len l) (n - 1) l) as E1.
      pose proof (len_ring_view h n l) as E2. unfold len in *.
      rewrite !lookup_ge_None_2 by lia. done.
Qed.
End ring.
