(* ===== verification/Pack.v ===== *)
(** * PACK serialisation (softether_pack.c)

    The PACK is the tagged key/value format of the SoftEther login, welcome and
    NAT-T messages: a big-endian element count, then elements made of a name
    (length + 1, bytes), a type, a value count and the values.

    [Module Writer] models the growable writer ([pack_new], [pack_reserve],
    [pack_add_*]) over an explicit heap block, [Module Reader] the
    "bounds-safe" readers over pointers of a given width. The abstract element
    list both are related to is in [PackSpec]: the writer appends elements to
    it, the readers look a field up in it. A writer or reader that leaves its
    buffer yields [Ub]. *)
From S2P Require Import Prelude Bytes.

Definition PACK_TYPE_INT : Z := 0.
Definition PACK_TYPE_DATA : Z := 1.
Definition PACK_TYPE_STR : Z := 2.
Definition PACK_TYPE_UNISTR : Z := 3.
Definition PACK_TYPE_INT64 : Z := 4.

Definition PACK_INITIAL_CAP : Z := 256.
Definition PACK_MAX_ELEMENTS : Z := 4096.
Definition PACK_MAX_VALUES : Z := 65535.

(** A C string is the list of its bytes before the terminating NUL. *)
Definition strlen (s : list Z) : Z := len s.
Definition cstring (s : list Z) : Prop := Forall (fun b => 0 < b < 256) s.
(** The C string held by a byte array: the bytes before the first NUL. *)
Fixpoint cstr (l : list Z) : list Z :=
  match l with
  | [] => []
  | b :: l => if b =? 0 then [] else b :: cstr l
  end.

#[global] Instance cstring_dec s : Decision (cstring s).
Proof. unfold cstring. apply _. Defined.

Module Writer.

(** [softether_pack_t]: [data] is the whole allocated block. *)
Record pack := Pack { p_data : list Z; p_len : Z; p_cap : Z; p_num : Z }.

(** The element-size macros, in [uint32_t] arithmetic. *)
Definition PACK_NAME_SZ (n : list Z) : Z := u32 (4 + u32 (strlen n)).
Definition PACK_ELEM_HDR_SZ (n : list Z) : Z := u32 (PACK_NAME_SZ n + 8).
Definition PACK_INT_SZ (n : list Z) : Z := u32 (PACK_ELEM_HDR_SZ n + 4).
Definition PACK_INT64_SZ (n : list Z) : Z := u32 (PACK_ELEM_HDR_SZ n + 8).
Definition PACK_STR_SZ (n v : list Z) : Z :=
  u32 (u32 (PACK_ELEM_HDR_SZ n + 4) + u32 (strlen v)).
Definition PACK_DATA_SZ (n : list Z) (d : Z) : Z := u32 (u32 (PACK_ELEM_HDR_SZ n + 4) + d).

(** A write cursor [uint8_t** buf] into a heap block: the block and the offset
    of the next byte. Writing past the block is undefined behaviour. *)
Definition cursor : Type := list Z * Z.

Definition wr (bs : list Z) (c : cursor) : res cursor :=
  let '(blk, off) := c in
  if (0 <=? off) && (off + len bs <=? len blk)
  then Ok (tk off blk ++ bs ++ dr (off + len bs) blk, off + len bs)
  else Ub.

Definition pack_write_uint32 (val : Z) (c : cursor) : res cursor := wr (w32 val) c.

(** The byte loop [for (i = 7; i >= 0; i--)]. *)
Definition pack_write_uint64 (val : Z) (c : cursor) : res cursor :=
  wr (map (fun i => byte_of val (i * 8)) [7; 6; 5; 4; 3; 2; 1; 0]) c.

Definition pack_write_elem_name (name : list Z) (c : cursor) : res cursor :=
  let n := u32 (strlen name) in
  pack_write_uint32 (u32 (n + 1)) c ≫= wr (tk n name).

Definition pack_write_str_val (str : list Z) (c : cursor) : res cursor :=
  let n := u32 (strlen str) in
  pack_write_uint32 n c ≫= wr (tk n str).

(** [data] and [len] are separate arguments; [memcpy] reads [len] bytes. *)
Definition pack_write_data_val (data : list Z) (n : Z) (c : cursor) : res cursor :=
  pack_write_uint32 n c ≫= wr (tk n data).

(** The capacity loop of [pack_reserve]; [None] when the fuel runs out. *)
Fixpoint grow (fuel : nat) (new_cap need : Z) : option Z :=
  match fuel with
  | O => None
  | S fuel =>
      if new_cap <? need then
        if new_cap >? UINT32_MAX / 2 then Some need
        else grow fuel (u32 (new_cap * 2)) need
      else Some new_cap
  end.

Section heap.
(** [malloc n]: the contents of a fresh block, or [None] for NULL. *)
Variable malloc : Z -> option (list Z).

Definition realloc (blk : list Z) (n : Z) : option (list Z) :=
  match malloc n with
  | None => None
  | Some fresh => Some (tk n blk ++ dr (len (tk n blk)) fresh)
  end.

Definition pack_reserve (p : pack) (add : Z) : res pack :=
  if add >? UINT32_MAX - p_len p then Err else
  let need := u32 (p_len p + add) in
  if need <=? p_cap p then Ok p else
  match grow 34 (if p_cap p =? 0 then PACK_INITIAL_CAP else p_cap p) need with
  | None => Ub
  | Some new_cap =>
      match realloc (p_data p) new_cap with
      | None => Err
      | Some nd => Ok (Pack nd (p_len p) new_cap (p_num p))
      end
  end.

Definition pack_commit_element (p : pack) (elem_size : Z) : res pack :=
  let num := u32 (p_num p + 1) in
  c ← pack_write_uint32 num (p_data p, 0);
  Ok (Pack c.1 (u32 (p_len p + elem_size)) (p_cap p) num).

Definition pack_new : option pack :=
  match malloc PACK_INITIAL_CAP with
  | None => None
  | Some blk => Some (Pack blk 4 PACK_INITIAL_CAP 0)
  end.

(** The common shape of [pack_add_*]: reserve, write the header and the
    value at [data + len], commit. *)
Definition pack_add (p : pack) (name : list Z) (type elem_size : Z)
    (value : cursor -> res cursor) : res pack :=
  p ← pack_reserve p elem_size;
  c ← pack_write_elem_name name (p_data p, p_len p);
  c ← pack_write_uint32 type c;
  c ← pack_write_uint32 1 c;
  c ← value c;
  pack_commit_element (Pack c.1 (p_len p) (p_cap p) (p_num p)) elem_size.

(** [Err] is the return value -1; the NULL guards are the [None] cases. *)
Definition pack_add_int (p : option pack) (name : option (list Z)) (val : Z) : res pack :=
  match p, name with
  | Some p, Some name =>
      pack_add p name PACK_TYPE_INT (PACK_INT_SZ name) (pack_write_uint32 val)
  | _, _ => Err
  end.

Definition pack_add_int64 (p : option pack) (name : option (list Z)) (val : Z) : res pack :=
  match p, name with
  | Some p, Some name =>
      pack_add p name PACK_TYPE_INT64 (PACK_INT64_SZ name) (pack_write_uint64 val)
  | _, _ => Err
  end.

Definition pack_add_str (p : option pack) (name val : option (list Z)) : res pack :=
  match p, name, val with
  | Some p, Some name, Some val =>
      pack_add p name PACK_TYPE_STR (PACK_STR_SZ name val) (pack_write_str_val val)
  | _, _, _ => Err
  end.

Definition pack_add_data (p : option pack) (name : option (list Z))
    (data : option (list Z)) (dlen : Z) : res pack :=
  match p, name with
  | Some p, Some name =>
      match data with
      | None => if dlen >? 0 then Err
                else pack_add p name PACK_TYPE_DATA (PACK_DATA_SZ name dlen)
                       (pack_write_data_val [] dlen)
      | Some data => pack_add p name PACK_TYPE_DATA (PACK_DATA_SZ name dlen)
                       (pack_write_data_val data dlen)
      end
  | _, _ => Err
  end.

Definition pack_data (p : option pack) : option (list Z) := p_data <$> p.
Definition pack_length (p : option pack) : Z :=
  match p with None => 0 | Some p => p_len p end.

End heap.
End Writer.

Module Reader.

(** The message buffer as the readers see it: [m_bits]-wide pointers, the
    address of the first byte, and the bytes. *)
Record mem := Mem { m_bits : Z; m_base : Z; m_body : list Z }.

Definition padd (m : mem) (p n : Z) : Z := (p + n) mod 2 ^ m_bits m.
Definition m_end (m : mem) : Z := padd m (m_base m) (len (m_body m)).

(** Read [n] bytes at address [p]. *)
Definition load (m : mem) (p n : Z) : res (list Z) :=
  let off := p - m_base m in
  if n =? 0 then Ok []
  else if (0 <=? off) && (off + n <=? len (m_body m)) then Ok (slice off n (m_body m))
  else Ub.

Definition pack_read_uint32_safe (m : mem) (p : Z) : res (Z * Z) :=
  _ ← fail_if (padd m p 4 >? m_end m);
  bs ← load m p 4;
  Ok (r32 bs, padd m p 4).

Definition pack_read_uint64_safe (m : mem) (p : Z) : res (Z * Z) :=
  _ ← fail_if (padd m p 8 >? m_end m);
  bs ← load m p 8;
  Ok (r64_loop bs, padd m p 8).

Definition pack_skip_bytes_safe (m : mem) (p n : Z) : res Z :=
  _ ← fail_if (padd m p n >? m_end m);
  Ok (padd m p n).

(** The bytes stored into [out], NUL included, and the new position. *)
Definition pack_read_string_safe (m : mem) (p out_size : Z) : res (list Z * Z) :=
  '(n, p) ← pack_read_uint32_safe m p;
  _ ← fail_if (padd m p n >? m_end m);
  out ← (if out_size >? 0 then
           let copy_len := if n <? u32 (out_size - 1) then n else out_size - 1 in
           bs ← load m p copy_len;
           Ok (bs ++ [0])
         else Ok []);
  Ok (out, padd m p n).

Definition pack_skip_value_safe (m : mem) (p type : Z) : res Z :=
  if type =? PACK_TYPE_INT then pack_skip_bytes_safe m p 4
  else if type =? PACK_TYPE_INT64 then pack_skip_bytes_safe m p 8
  else if (type =? PACK_TYPE_STR) || (type =? PACK_TYPE_UNISTR) || (type =? PACK_TYPE_DATA) then
    '(n, p) ← pack_read_uint32_safe m p;
    pack_skip_bytes_safe m p n
  else Err.

Fixpoint skip_values (m : mem) (n : nat) (p type : Z) : res Z :=
  match n with
  | O => Ok p
  | S n => p ← pack_skip_value_safe m p type; skip_values m n p type
  end.

(** [(true, p)]: match, [p] at the first value; [(false, p)]: no match, [p]
    after the element. The name is compared through the 64-byte, zeroed
    [elem] array. *)
Definition pack_match_element (m : mem) (p : Z) (field : list Z) (type : Z) : res (bool * Z) :=
  '(name_len_plus1, p) ← pack_read_uint32_safe m p;
  _ ← fail_if (name_len_plus1 =? 0);
  let name_len := name_len_plus1 - 1 in
  _ ← fail_if (padd m p name_len >? m_end m);
  elem ← load m p (if name_len <? 63 then name_len else 63);
  let p := padd m p name_len in
  '(elem_type, p) ← pack_read_uint32_safe m p;
  '(num_values, p) ← pack_read_uint32_safe m p;
  _ ← fail_if (num_values >? PACK_MAX_VALUES);
  if bool_decide (cstr elem = field) && (elem_type =? type) && (num_values >=? 1)
  then Ok (true, p)
  else p ← skip_values m (Z.to_nat num_values) p elem_type; Ok (false, p).

(** The element loop shared by the four getters; [rd] reads the first value. *)
Fixpoint scan {A} (m : mem) (n : nat) (p : Z) (field : list Z) (type : Z)
    (rd : Z -> res A) : res A :=
  match n with
  | O => Err
  | S n =>
      r ← pack_match_element m p field type;
      if fst r : bool then rd (snd r) else scan m n (snd r) field type rd
  end.

Definition pack_get {A} (body : option mem) (field : option (list Z)) (type : Z)
    (rd : mem -> Z -> res A) : res A :=
  match body, field with
  | Some m, Some field =>
      _ ← fail_if (len (m_body m) <? 4);
      '(num_elements, p) ← pack_read_uint32_safe m (m_base m);
      _ ← fail_if (num_elements >? PACK_MAX_ELEMENTS);
      scan m (Z.to_nat num_elements) p field type (rd m)
  | _, _ => Err
  end.

Definition pack_get_int (body : option mem) (field : option (list Z)) : res Z :=
  pack_get body field PACK_TYPE_INT (fun m p =>
    '(v, _) ← pack_read_uint32_safe m p; Ok v).

Definition pack_get_int64 (body : option mem) (field : option (list Z)) : res Z :=
  pack_get body field PACK_TYPE_INT64 (fun m p =>
    '(v, _) ← pack_read_uint64_safe m p; Ok v).

(** The bytes written to [out_str], with the terminating NUL. *)
Definition pack_get_str (body : option mem) (field : option (list Z)) (out_size : Z)
    : res (list Z) :=
  if out_size =? 0 then Err else
  pack_get body field PACK_TYPE_STR (fun m p =>
    '(v, _) ← pack_read_string_safe m p out_size; Ok v).

(** The bytes written to [out_data]; their number is [*out_len]. *)
Definition pack_get_data (body : option mem) (field : option (list Z)) (out_size : Z)
    : res (list Z) :=
  if out_size =? 0 then Err else
  pack_get body field PACK_TYPE_DATA (fun m p =>
    '(data_len, p) ← pack_read_uint32_safe m p;
    _ ← fail_if (padd m p data_len >? m_end m);
    load m p (if data_len <? out_size then data_len else out_size)).

End Reader.
