(* ===== verification/PackSpec.v ===== *)
(** * What PACK promises, and the proofs that softether_pack.c keeps it

    [Spec] is the abstract view: a message is a list of named, typed elements.
    [Reader_correct] proves that the getters never leave the message on
    pointers wide enough not to wrap, and that on an encoded element list they
    compute [lookup]. [Writer_correct] proves that each [pack_add_*] appends
    one element to the list the pack represents. *)
From S2P Require Import Prelude Bytes Pack.
Import Writer Reader.

Module Spec.

Inductive value : Type :=
| VInt (z : Z)
| VInt64 (z : Z)
| VData (l : list Z)
| VStr (l : list Z)
| VUni (l : list Z).

Definition vtype (v : value) : Z :=
  match v with
  | VInt _ => PACK_TYPE_INT
  | VInt64 _ => PACK_TYPE_INT64
  | VData _ => PACK_TYPE_DATA
  | VStr _ => PACK_TYPE_STR
  | VUni _ => PACK_TYPE_UNISTR
  end.

Definition value_ok (v : value) : Prop :=
  match v with
  | VInt z => 0 <= z < 2 ^ 32
  | VInt64 z => 0 <= z < 2 ^ 64
  | VData l | VStr l | VUni l => len l < 2 ^ 32
  end.

Record elem := Elem { e_name : list Z; e_type : Z; e_vals : list value }.

Definition elem_ok (e : elem) : Prop :=
  len (e_name e) + 1 < 2 ^ 32 /\ 0 <= e_type e < 2 ^ 32 /\
  len (e_vals e) <= PACK_MAX_VALUES /\
  Forall (fun v => value_ok v /\ vtype v = e_type e) (e_vals e).

#[global] Instance value_ok_dec v : Decision (value_ok v).
Proof. destruct v; cbn; apply _. Defined.
#[global] Instance elem_ok_dec e : Decision (elem_ok e).
Proof. unfold elem_ok. apply _. Defined.

(** The wire format. *)
Definition enc_value (v : value) : list Z :=
  match v with
  | VInt z => be_enc 4 z
  | VInt64 z => be_enc 8 z
  | VData l | VStr l | VUni l => be_enc 4 (len l) ++ l
  end.

Definition enc_elem (e : elem) : list Z :=
  be_enc 4 (len (e_name e) + 1) ++ e_name e ++ be_enc 4 (e_type e) ++
  be_enc 4 (len (e_vals e)) ++ mjoin (map enc_value (e_vals e)).

Definition encode (es : list elem) : list Z :=
  be_enc 4 (len es) ++ mjoin (map enc_elem es).

(** The abstract lookup: the first value of the first element with this name
    (as the C code sees names: cut at 63 bytes and at a NUL) and type. *)
Definition matches (field : list Z) (type : Z) (e : elem) : bool :=
  bool_decide (cstr (tk 63 (e_name e)) = field) && (e_type e =? type) &&
  (len (e_vals e) >=? 1).

Fixpoint lookup (es : list elem) (field : list Z) (type : Z) : option value :=
  match es with
  | [] => None
  | e :: es => if matches field type e then head (e_vals e) else lookup es field type
  end.

End Spec.
Import Spec.

(** ** The readers *)

Module Reader_correct.

(** Pointers do not wrap: the message ends at least 4 GiB below the top of the
    address space, which every 64-bit user-space allocation satisfies. *)
Definition view_ok (m : mem) : Prop :=
  0 <= m_base m /\ m_base m + len (m_body m) + 2 ^ 32 <= 2 ^ m_bits m.

Definition in_view (m : mem) (p : Z) : Prop :=
  m_base m <= p <= m_base m + len (m_body m).

(** [rest] is what remains of the message at address [p]. *)
Definition at_ (m : mem) (p : Z) (rest : list Z) : Prop :=
  exists pre, m_body m = pre ++ rest /\ p = m_base m + len pre.

Create HintDb pack.

Section view.
Context (m : mem) (Hm : view_ok m).

Lemma m_end_ok : m_end m = m_base m + len (m_body m).
Proof. destruct Hm. unfold m_end, padd. apply Z.mod_small. slia. Qed.

Lemma padd_ok p n : in_view m p -> 0 <= n < 2 ^ 32 -> padd m p n = p + n.
Proof. destruct Hm. unfold in_view, padd. intros. apply Z.mod_small. lia. Qed.

Lemma at_in_view p rest : at_ m p rest -> in_view m p.
Proof. intros (pre & Hb & ->). unfold in_view. rewrite Hb. slia. Qed.

Lemma at_app p a rest : at_ m p (a ++ rest) -> at_ m (p + len a) rest.
Proof.
  intros (pre & Hb & ->). exists (pre ++ a). split; [by rewrite <- app_assoc|slia].
Qed.

Lemma at_end p rest : at_ m p rest -> p + len rest = m_base m + len (m_body m).
Proof. intros (pre & -> & ->). slia. Qed.

(** Reads inside the view never leave the object. *)
Lemma load_safe p n :
  in_view m p -> 0 <= n -> p + n <= m_end m -> exists bs, load m p n = Ok bs /\ len bs = n.
Proof.
  rewrite m_end_ok. unfold in_view, load. intros.
  destruct (n =? 0) eqn:?; [exists []; split; [done|slia]|].
  destruct (_ && _) eqn:E; [|lia].
  eexists. split; [done|]. slia.
Qed.

Lemma load_at p a rest : at_ m p (a ++ rest) -> load m p (len a) = Ok a.
Proof.
  intros (pre & Hb & ->). unfold load.
  destruct (len a =? 0) eqn:E; [rewrite (len_0_nil a); [done|lia]|].
  replace (m_base m + len pre - m_base m) with (len pre) by lia.
  rewrite Hb. destruct (_ && _) eqn:?; [|slia].
  by rewrite slice_app.
Qed.

(** A byte string cut to [k] bytes. *)
Lemma load_cut p l rest k : at_ m p (l ++ rest) -> 0 <= k ->
  load m p (if len l <? k then len l else k) = Ok (tk k l).
Proof.
  intros Hat Hk. destruct (len l <? k) eqn:E.
  - rewrite tk_all by lia. by eapply load_at.
  - rewrite <- (tk_dr k l), <- app_assoc in Hat. apply load_at in Hat.
    rewrite len_tk in Hat. by replace (Z.max 0 (Z.min k (len l))) with k in Hat by lia.
Qed.

(** *** Memory safety on any message *)

Context (Hbytes : bytes_ok (m_body m)).

Lemma load_post p n :
  in_view m p -> 0 <= n -> p + n <= m_end m ->
  safe (fun bs => len bs = n /\ bytes_ok bs) (load m p n).
Proof.
  intros Hp Hn He. destruct (load_safe p n Hp Hn He) as (bs & Hl & Hlen).
  rewrite Hl. cbn. split; [done|]. unfold load in Hl.
  destruct (n =? 0); [injection Hl as <-; constructor|].
  destruct (_ && _); [|done]. injection Hl as <-. auto with bytes.
Qed.

(** The check [*p + n > end] followed by a read or a skip of [n] bytes. *)
Lemma checked_step p n :
  in_view m p -> 0 <= n < 2 ^ 32 -> (padd m p n >? m_end m) = false ->
  p + n <= m_end m /\ padd m p n = p + n /\ in_view m (padd m p n).
Proof.
  intros Hp Hn. rewrite padd_ok, m_end_ok by done. unfold in_view in *. lia.
Qed.

Lemma read_uint32_safe p :
  in_view m p ->
  safe (fun r => 0 <= r.1 < 2 ^ 32 /\ in_view m r.2) (pack_read_uint32_safe m p).
Proof.
  intros Hp. unfold pack_read_uint32_safe.
  apply safe_check. intros Hc.
  destruct (checked_step p 4 Hp ltac:(lia) Hc) as (? & ? & ?).
  eapply safe_bind; [by apply load_post|]. intros bs [_ Hb]. cbn.
  split; [by apply r32_bound|done].
Qed.

Lemma read_uint64_safe p :
  in_view m p -> safe (fun r => 0 <= r.1 < 2 ^ 64 /\ in_view m r.2) (pack_read_uint64_safe m p).
Proof.
  intros Hp. unfold pack_read_uint64_safe.
  apply safe_check. intros Hc.
  destruct (checked_step p 8 Hp ltac:(lia) Hc) as (? & ? & ?).
  eapply safe_bind; [by apply load_post|]. intros bs [Hl Hb]. cbn.
  split; [|done]. rewrite r64_loop_dec by (done || lia). pose proof (be_dec_bound bs Hb) as Hd.
  by rewrite Hl in Hd.
Qed.

Lemma skip_bytes_safe p n :
  in_view m p -> 0 <= n < 2 ^ 32 -> safe (in_view m) (pack_skip_bytes_safe m p n).
Proof.
  intros Hp Hn. unfold pack_skip_bytes_safe.
  apply safe_check. intros Hc. by apply checked_step.
Qed.

Lemma read_string_safe p out_size :
  in_view m p -> 0 <= out_size < 2 ^ 32 ->
  safe (fun r => len r.1 <= out_size /\ in_view m r.2) (pack_read_string_safe m p out_size).
Proof.
  intros Hp Ho. unfold pack_read_string_safe.
  eapply safe_bind; [by apply read_uint32_safe|]. intros [n q] [Hn Hq]. cbn [fst snd] in *.
  apply safe_check. intros Hc.
  destruct (checked_step q n Hq Hn Hc) as (? & ? & ?).
  eapply (safe_bind (fun out => len out <= out_size)); [|by intros; split].
  destruct (out_size >? 0) eqn:Hpos; [|by cbn; slia].
  assert (Hu : u32 (out_size - 1) = out_size - 1) by (apply Z.mod_small; lia).
  rewrite Hu. destruct (n <? out_size - 1) eqn:E;
    (eapply safe_bind; [apply load_post; [done|lia|lia]|]; intros bs [Hl _]; cbn; slia).
Qed.

Lemma skip_value_safe p type : in_view m p -> safe (in_view m) (pack_skip_value_safe m p type).
Proof.
  intros Hp. unfold pack_skip_value_safe.
  repeat case_match; try done; try (apply skip_bytes_safe; [done|lia]).
  eapply safe_bind; [by apply read_uint32_safe|]. intros [n q] [? ?].
  by apply skip_bytes_safe.
Qed.

Lemma skip_values_safe n p type : in_view m p -> safe (in_view m) (skip_values m n p type).
Proof.
  revert p. induction n as [|n IH]; intros p Hp; [done|]. cbn [skip_values].
  eapply safe_bind; [by apply skip_value_safe|]. auto.
Qed.

Lemma match_element_safe p field type :
  in_view m p -> safe (fun r => in_view m r.2) (pack_match_element m p field type).
Proof.
  intros Hp. unfold pack_match_element.
  eapply safe_bind; [by apply read_uint32_safe|]. intros [n1 q] [Hn Hq]. cbn [fst snd] in *.
  apply safe_check. intros Hz. apply safe_check. intros Hc.
  destruct (checked_step q (n1 - 1) Hq ltac:(lia) Hc) as (? & Heq & Hq').
  eapply safe_bind.
  { apply load_post; [done|by destruct (n1 - 1 <? 63) eqn:?; lia|].
    destruct (n1 - 1 <? 63) eqn:?; lia. }
  intros elem _.
  eapply safe_bind; [by apply read_uint32_safe|]. intros [ty q2] [? Hq2]. cbn [fst snd] in *.
  eapply safe_bind; [by apply read_uint32_safe|]. intros [nv q3] [? Hq3]. cbn [fst snd] in *.
  apply safe_check. intros _. case_match; [done|].
  eapply safe_bind; [by apply skip_values_safe|]. done.
Qed.

Lemma scan_safe {A} (P : A -> Prop) n p field type rd :
  in_view m p -> (forall q, in_view m q -> safe P (rd q)) ->
  safe P (scan m n p field type rd).
Proof.
  intros Hp Hrd. revert p Hp. induction n as [|n IH]; intros p Hp; [done|]. cbn [scan].
  eapply safe_bind; [by apply match_element_safe|]. intros [found q] Hq. cbn [fst snd] in *.
  destruct found; auto.
Qed.

Lemma pack_get_safe {A} (P : A -> Prop) field type (rd : mem -> Z -> res A) :
  (forall q, in_view m q -> safe P (rd m q)) ->
  safe P (pack_get (Some m) field type rd).
Proof.
  intros Hrd. unfold pack_get. destruct field as [field|]; [|done].
  apply safe_check. intros _.
  eapply safe_bind; [apply read_uint32_safe|].
  { unfold in_view. pose proof (len_nonneg (m_body m)). lia. }
  intros [n p] [_ Hp]. apply safe_check. intros _. by apply scan_safe.
Qed.

End view.

(** *** The readers on an encoded element list *)

Section encoded.
Context (m : mem) (Hm : view_ok m).

Lemma check_at p a rest :
  at_ m p (a ++ rest) -> len a < 2 ^ 32 ->
  (padd m p (len a) >? m_end m) = false /\ padd m p (len a) = p + len a.
Proof.
  intros Hat Hl. pose proof (at_end _ _ _ Hat). pose proof (at_in_view _ _ _ Hat).
  rewrite padd_ok, m_end_ok by (done || slia). slia.
Qed.

Lemma read_uint32_at p v rest :
  at_ m p (be_enc 4 v ++ rest) -> 0 <= v < 2 ^ 32 ->
  pack_read_uint32_safe m p = Ok (v, p + 4) /\ at_ m (p + 4) rest.
Proof.
  intros Hat Hv. destruct (check_at _ _ _ Hat) as [Hc Hp]; [slia|].
  pose proof (load_at _ _ _ _ Hat) as Hl. rewrite len_be_enc in *.
  change (Z.of_nat 4) with 4 in *.
  unfold pack_read_uint32_safe. rewrite Hc, Hl, Hp. cbn [fail_if].
  rewrite !bind_ok, r32_enc by done. split; [done|].
  apply at_app in Hat. by rewrite len_be_enc in Hat.
Qed.

Lemma read_uint64_at p v rest :
  at_ m p (be_enc 8 v ++ rest) -> 0 <= v < 2 ^ 64 ->
  pack_read_uint64_safe m p = Ok (v, p + 8).
Proof.
  intros Hat Hv. destruct (check_at _ _ _ Hat) as [Hc Hp]; [slia|].
  pose proof (load_at _ _ _ _ Hat) as Hl. rewrite len_be_enc in *.
  change (Z.of_nat 8) with 8 in *.
  unfold pack_read_uint64_safe. rewrite Hc, Hl, Hp. cbn [fail_if].
  by rewrite !bind_ok, r64_loop_enc.
Qed.

Lemma skip_bytes_at p a rest n :
  at_ m p (a ++ rest) -> n = len a -> n < 2 ^ 32 ->
  pack_skip_bytes_safe m p n = Ok (p + n) /\ at_ m (p + n) rest.
Proof.
  intros Hat -> Hl. destruct (check_at _ _ _ Hat Hl) as [Hc Hp].
  unfold pack_skip_bytes_safe. rewrite Hc, Hp. cbn [fail_if]. rewrite bind_ok.
  split; [done|]. by apply at_app in Hat.
Qed.

(** A counted byte string: the shared shape of STR, UNISTR and DATA values. *)
Lemma read_counted_at p l rest :
  at_ m p ((be_enc 4 (len l) ++ l) ++ rest) -> len l < 2 ^ 32 ->
  pack_read_uint32_safe m p = Ok (len l, p + 4) /\ at_ m (p + 4) (l ++ rest).
Proof.
  rewrite <- app_assoc. intros Hat Hl. apply read_uint32_at; [done|slia].
Qed.

Lemma skip_value_at p v rest :
  at_ m p (enc_value v ++ rest) -> value_ok v ->
  exists q, pack_skip_value_safe m p (vtype v) = Ok q /\ at_ m q rest.
Proof.
  intros Hat Hv. unfold pack_skip_value_safe.
  destruct v as [z|z|l|l|l]; cbn [enc_value value_ok vtype] in *; cbn [Z.eqb orb].
  1: destruct (skip_bytes_at p (be_enc 4 z) rest 4 Hat) as [-> ?]; [slia|lia|eauto].
  1: destruct (skip_bytes_at p (be_enc 8 z) rest 8 Hat) as [-> ?]; [slia|lia|eauto].
  all: destruct (read_counted_at p l rest Hat Hv) as [Hr Hat'];
    change (PACK_TYPE_STR =? PACK_TYPE_INT) with false;
    unfold PACK_TYPE_INT, PACK_TYPE_INT64, PACK_TYPE_DATA, PACK_TYPE_STR, PACK_TYPE_UNISTR;
    cbn [Z.eqb Pos.eqb orb]; rewrite Hr, bind_ok;
    destruct (skip_bytes_at (p + 4) l rest (len l) Hat' eq_refl Hv) as [-> ?]; eauto.
Qed.

Lemma skip_values_at type vs p rest :
  at_ m p (mjoin (map enc_value vs) ++ rest) ->
  Forall (fun v => value_ok v /\ vtype v = type) vs ->
  exists q, skip_values m (length vs) p type = Ok q /\ at_ m q rest.
Proof.
  intros Hat Hvs. revert p Hat. induction Hvs as [|v vs [Hv <-] Hvs IH]; intros p Hat.
  - exists p. done.
  - cbn in Hat. rewrite <- app_assoc in Hat.
    destruct (skip_value_at _ _ _ Hat Hv) as (q & Hq & Hatq).
    cbn [length skip_values]. rewrite Hq, bind_ok. auto.
Qed.

(** What the loads of an element's header find. *)
Lemma element_header_at p name ty vs rest :
  at_ m p (enc_elem (Elem name ty vs) ++ rest) -> elem_ok (Elem name ty vs) ->
  let p1 := p + 4 + len name in
  pack_read_uint32_safe m p = Ok (len name + 1, p + 4) /\
  (padd m (p + 4) (len name) >? m_end m) = false /\ padd m (p + 4) (len name) = p1 /\
  load m (p + 4) (if len name <? 63 then len name else 63) = Ok (tk 63 name) /\
  pack_read_uint32_safe m p1 = Ok (ty, p1 + 4) /\
  pack_read_uint32_safe m (p1 + 4) = Ok (len vs, p1 + 4 + 4) /\
  at_ m (p1 + 4 + 4) (mjoin (map enc_value vs) ++ rest).
Proof.
  intros Hat (Hn & Ht & Hc & _); cbn [e_name e_type e_vals] in *.
  unfold enc_elem in Hat. cbn [e_name e_type e_vals] in Hat. rewrite <- !app_assoc in Hat.
  unfold PACK_MAX_VALUES in Hc.
  destruct (read_uint32_at _ _ _ Hat ltac:(slia)) as [Hr1 Hat1].
  destruct (check_at _ _ _ Hat1 ltac:(slia)) as [Hck Hpd].
  pose proof (load_cut m _ _ _ 63 Hat1 ltac:(lia)) as Hld.
  apply at_app in Hat1.
  destruct (read_uint32_at _ _ _ Hat1 Ht) as [Hr2 Hat2].
  destruct (read_uint32_at _ _ _ Hat2 ltac:(slia)) as [Hr3 Hat3].
  by split_and!.
Qed.

Lemma match_element_at p e rest field type :
  at_ m p (enc_elem e ++ rest) -> elem_ok e ->
  exists q, pack_match_element m p field type = Ok (matches field type e, q) /\
    at_ m q (if matches field type e then mjoin (map enc_value (e_vals e)) ++ rest else rest).
Proof.
  intros Hat He. destruct e as [name ty vs].
  destruct (element_header_at _ _ _ _ _ Hat He) as (Hr1 & Hck & Hpd & Hld & Hr2 & Hr3 & Hat3).
  destruct He as (Hn & Ht & Hc & Hvs). cbn [e_name e_type e_vals] in *. unfold PACK_MAX_VALUES in Hc.
  unfold pack_match_element. rewrite Hr1, bind_ok.
  replace (len name + 1 =? 0) with false by slia. cbn [fail_if]. rewrite bind_ok.
  replace (len name + 1 - 1) with (len name) by lia.
  rewrite Hck, Hpd, Hld. cbn [fail_if]. rewrite !bind_ok, Hr2, bind_ok, Hr3, bind_ok.
  unfold PACK_MAX_VALUES. replace (len vs >? 65535) with false by lia. cbn [fail_if].
  rewrite bind_ok. unfold matches. cbn [e_name e_type e_vals].
  destruct (_ && _ && _); [eauto|].
  unfold len at 1. rewrite Nat2Z.id.
  destruct (skip_values_at _ _ _ _ Hat3 Hvs) as (q & -> & ?). rewrite bind_ok. eauto.
Qed.

(** [rd] is correct when, on the value it is meant for, it yields [res_of]. *)
Lemma scan_at {A} field type (rd : Z -> res A) (res_of : value -> res A) es p rest :
  (forall q v r, at_ m q (enc_value v ++ r) -> value_ok v -> vtype v = type ->
     rd q = res_of v) ->
  at_ m p (mjoin (map enc_elem es) ++ rest) -> Forall elem_ok es ->
  scan m (length es) p field type rd =
    match lookup es field type with Some v => res_of v | None => Err end.
Proof.
  intros Hrd Hat Hes. revert p Hat.
  induction Hes as [|e es He Hes IH]; intros p Hat; [done|].
  cbn in Hat. rewrite <- app_assoc in Hat.
  destruct (match_element_at _ _ _ field type Hat He) as (q & Hq & Hatq).
  cbn [length scan lookup]. rewrite Hq, bind_ok. cbn [fst snd].
  destruct (matches field type e) eqn:Hmt; [|auto].
  destruct e as [name ty vs]. destruct He as (_ & _ & _ & Hvs).
  unfold matches in Hmt. cbn [e_name e_type e_vals] in *.
  destruct vs as [|v vs]; [rewrite len_nil, andb_false_r in Hmt; done|].
  cbn in Hatq. rewrite <- app_assoc in Hatq. apply Forall_cons_1 in Hvs as [[? Hty] _].
  cbn [head]. eapply Hrd; [done..|].
  apply andb_true_iff in Hmt as [[_ Hmt]%andb_true_iff _]. rewrite Hty. by apply Z.eqb_eq.
Qed.

Lemma pack_get_at {A} field type (rd : mem -> Z -> res A) (res_of : value -> res A) es rest :
  (forall q v r, at_ m q (enc_value v ++ r) -> value_ok v -> vtype v = type ->
     rd m q = res_of v) ->
  m_body m = encode es ++ rest -> Forall elem_ok es -> len es <= PACK_MAX_ELEMENTS ->
  pack_get (Some m) (Some field) type rd =
    match lookup es field type with Some v => res_of v | None => Err end.
Proof.
  intros Hrd Hb Hes Hn. unfold PACK_MAX_ELEMENTS in Hn.
  assert (Hat : at_ m (m_base m) (be_enc 4 (len es) ++ mjoin (map enc_elem es) ++ rest)).
  { exists []. rewrite Hb. unfold encode. rewrite <- app_assoc. split; [done|slia]. }
  destruct (read_uint32_at _ _ _ Hat ltac:(slia)) as [Hr Hat'].
  unfold pack_get. rewrite Hr. unfold PACK_MAX_ELEMENTS.
  assert (4 <= len (m_body m)) by (rewrite Hb; unfold encode; slia).
  replace (len (m_body m) <? 4) with false by lia.
  cbn [fail_if]. rewrite !bind_ok.
  replace (len es >? 4096) with false by lia. cbn [fail_if]. rewrite bind_ok.
  unfold len. rewrite Nat2Z.id. by eapply scan_at.
Qed.
End encoded.

End Reader_correct.

(** ** The writer *)

Module Writer_correct.

(** The list [es] a pack represents. Before the first element is committed the
    count field at offset 0 is uninitialised heap memory. *)
Definition repr (p : pack) (es : list elem) : Prop :=
  p_num p = len es /\ len (p_data p) = p_cap p /\ p_cap p < 2 ^ 32 /\
  p_len p <= p_cap p /\
  exists hdr, len hdr = 4 /\ (es <> [] -> hdr = be_enc 4 (len es)) /\
    tk (p_len p) (p_data p) = hdr ++ mjoin (map enc_elem es) /\
    p_len p = 4 + len (mjoin (map enc_elem es)).

(** [malloc] returns a block of the size asked for. *)
Definition malloc_ok (malloc : Z -> option (list Z)) : Prop :=
  forall n blk, malloc n = Some blk -> len blk = n.

(** The block after [bs] has been stored at [off]. *)
Definition splice (blk : list Z) (off : Z) (bs : list Z) : list Z :=
  tk off blk ++ bs ++ dr (off + len bs) blk.

Lemma len_splice blk off bs :
  0 <= off -> off + len bs <= len blk -> len (splice blk off bs) = len blk.
Proof. intros. unfold splice. slia. Qed.

Lemma tk_splice blk off bs :
  0 <= off -> off + len bs <= len blk ->
  tk (off + len bs) (splice blk off bs) = tk off blk ++ bs.
Proof. intros. unfold splice. rewrite app_assoc. apply tk_app_exact. slia. Qed.

Lemma splice_app blk off a b :
  0 <= off -> off + len a + len b <= len blk ->
  splice (splice blk off a) (off + len a) b = splice blk off (a ++ b).
Proof.
  intros. unfold splice at 1. rewrite tk_splice by slia. unfold splice.
  rewrite <- !app_assoc, len_app. do 3 f_equal.
  rewrite app_assoc, dr_app, dr_all by slia. cbn.
  rewrite dr_dr by slia. f_equal. slia.
Qed.

Lemma wr_fits bs blk off :
  0 <= off -> off + len bs <= len blk -> wr bs (blk, off) = Ok (splice blk off bs, off + len bs).
Proof. intros. unfold wr. destruct (_ && _) eqn:E; [done|lia]. Qed.

Lemma wr_overflow bs blk off : len blk < off + len bs -> wr bs (blk, off) = Ub.
Proof. intros. unfold wr. destruct (_ && _) eqn:E; [lia|done]. Qed.

Lemma wr_app a b c : (wr a c ≫= wr b) = wr (a ++ b) c.
Proof.
  destruct c as [blk off]. destruct (decide (0 <= off)) as [Ho|Ho].
  - destruct (decide (off + len a <= len blk)) as [Ha|Ha].
    + rewrite (wr_fits a) by done. rewrite bind_ok.
      destruct (decide (off + len a + len b <= len blk)).
      * rewrite !wr_fits by (rewrite ?len_splice; slia).
        rewrite splice_app by done. f_equal. f_equal. slia.
      * rewrite !wr_overflow by (rewrite ?len_splice; slia). done.
    + rewrite !wr_overflow by slia. done.
  - unfold wr. replace (0 <=? off) with false by lia. done.
Qed.

(** Writing a name, a counted string and 64 bits as single block writes. *)
Lemma write_name_wr name c :
  len name + 1 < 2 ^ 32 ->
  pack_write_elem_name name c = wr (be_enc 4 (len name + 1) ++ name) c.
Proof.
  intros. unfold pack_write_elem_name, pack_write_uint32, strlen, u32.
  pose proof (len_nonneg name).
  rewrite (Z.mod_small (len name)), (Z.mod_small (len name + 1)) by lia.
  by rewrite tk_all, w32_enc, wr_app by lia.
Qed.

Lemma write_counted_wr l c :
  len l < 2 ^ 32 -> pack_write_str_val l c = wr (be_enc 4 (len l) ++ l) c.
Proof.
  intros. unfold pack_write_str_val, pack_write_uint32, strlen, u32.
  pose proof (len_nonneg l). rewrite Z.mod_small, tk_all, w32_enc, wr_app by lia. done.
Qed.

Lemma write_uint64_wr v c : pack_write_uint64 v c = wr (be_enc 8 v) c.
Proof. unfold pack_write_uint64. by rewrite <- w64_enc. Qed.

(** The header and the value of an element are one block write. *)
Lemma element_wr {A} name type v value c (k : cursor -> res A) :
  len name + 1 < 2 ^ 32 -> (forall c, value c = wr (enc_value v) c) ->
  (c ← pack_write_elem_name name c; c ← pack_write_uint32 type c;
   c ← pack_write_uint32 1 c; c ← value c; k c) =
  (c ← wr (enc_elem (Elem name type [v])) c; k c).
Proof.
  intros Hn Hv. rewrite write_name_wr by done.
  replace (enc_elem (Elem name type [v])) with
    ((((be_enc 4 (len name + 1) ++ name) ++ be_enc 4 type) ++ be_enc 4 1) ++ enc_value v)
    by (unfold enc_elem; cbn; by rewrite app_nil_r, <- !app_assoc).
  rewrite <- !wr_app. unfold pack_write_uint32. rewrite !w32_enc.
  do 4 (destruct (wr _ _); cbn [mbind res_bind]; try done). by rewrite Hv.
Qed.

(** The capacity loop: 34 rounds of doubling always reach [need]. *)
Lemma grow_enough fuel c need :
  0 < c < 2 ^ 32 -> 0 <= need < 2 ^ 32 -> 2 ^ 32 <= c * 2 ^ (Z.of_nat fuel) ->
  exists c', grow (S fuel) c need = Some c' /\ need <= c' < 2 ^ 32 /\ (c < need \/ c' = c).
Proof.
  revert c. induction fuel as [|fuel IH]; intros c Hc Hn Hf.
  { exfalso. cbn in Hf. lia. }
  change (grow (S (S fuel)) c need) with (if c <? need then
    if c >? UINT32_MAX / 2 then Some need else grow (S fuel) (u32 (c * 2)) need else Some c).
  destruct (c <? need) eqn:E; [|exists c; split; [done|lia]].
  unfold UINT32_MAX. destruct (c >? (2 ^ 32 - 1) / 2) eqn:E2; [exists need; split; [done|lia]|].
  rewrite Nat2Z.inj_succ, (Z.pow_succ_r 2 (Z.of_nat fuel)) in Hf by lia.
  change ((2 ^ 32 - 1) / 2) with 2147483647 in E2.
  assert (Hu : u32 (c * 2) = c * 2) by (apply Z.mod_small; lia).
  rewrite Hu. destruct (IH (c * 2)) as (c' & Hg & Hc' & _); [lia|lia|nia|].
  exists c'. split; [exact Hg|lia].
Qed.

Section writer.
Context (malloc : Z -> option (list Z)) (Hmalloc : malloc_ok malloc).

Lemma reserve_spec p es add :
  repr p es -> 0 <= add < 2 ^ 32 ->
  match pack_reserve malloc p add with
  | Ub => False
  | Err => UINT32_MAX < p_len p + add \/ exists n, 0 <= n /\ malloc n = None
  | Ok p' => repr p' es /\ p_len p' = p_len p /\ p_len p + add <= p_cap p'
  end.
Proof.
  intros (Hnum & Hlen & Hcap & Hle & hdr & Hh & Hhe & Htk & Hp) Hadd.
  unfold pack_reserve. destruct (add >? _) eqn:E; [left; lia|].
  unfold UINT32_MAX in E. pose proof (len_nonneg (mjoin (map enc_elem es))) as Hnn.
  assert (Hu : u32 (p_len p + add) = p_len p + add) by (apply Z.mod_small; lia).
  rewrite Hu. destruct (_ <=? _) eqn:E2.
  { split; [|lia]. repeat split; try done. eauto. }
  replace (p_cap p =? 0) with false by lia.
  destruct (grow_enough 33 (p_cap p) (p_len p + add)) as (c' & -> & Hc' & _);
    [lia|lia|nia|].
  unfold realloc. destruct (malloc c') as [fresh|] eqn:Hm; [|right; exists c'; split; [lia|done]].
  apply Hmalloc in Hm. rewrite (tk_all c') by lia.
  split; [|cbn; lia]. split; [done|]. cbn [p_data p_cap p_len].
  repeat split; [slia|lia|lia|]. exists hdr. repeat split; [done..| |done].
  rewrite <- Htk. rewrite tk_app, (tk_0 (dr _ _)) by lia. by rewrite app_nil_r.
Qed.

(** The shared core of [pack_add_*]: one element appended, or a failure with
    a reason, and never a write outside the block. *)
Lemma add_spec p es name type v elem_size value :
  repr p es -> len es + 1 < 2 ^ 32 -> len name + 1 < 2 ^ 32 ->
  0 <= type < 2 ^ 32 -> vtype v = type ->
  elem_size = len (enc_elem (Elem name type [v])) -> elem_size < 2 ^ 32 ->
  (forall c, value c = wr (enc_value v) c) ->
  match pack_add malloc p name type elem_size value with
  | Ub => False
  | Err => UINT32_MAX < p_len p + elem_size \/ exists n, 0 <= n /\ malloc n = None
  | Ok p' => repr p' (es ++ [Elem name type [v]])
  end.
Proof.
  intros Hrepr Hes Hname Hty Hv Hsz Hsz2 Hval.
  set (e := Elem name type [v]) in *.
  pose proof (reserve_spec p es elem_size Hrepr) as Hr.
  pose proof (len_nonneg (enc_elem e)) as Hnn.
  unfold pack_add. destruct (pack_reserve malloc p elem_size) as [| |q]; [by apply Hr; lia..|].
  destruct Hr as ((Hnum & Hlen & Hcap & Hle & hdr & Hh & Hhe & Htk & Hp) & Hpl & Hfit); [lia|].
  rewrite bind_ok.
  rewrite (element_wr name type v value) by done.
  pose proof (len_nonneg (mjoin (map enc_elem es))) as Hnn2.
  fold e. rewrite wr_fits by lia. rewrite bind_ok. unfold pack_commit_element.
  cbn [p_num p_data p_cap p_len fst]. unfold pack_write_uint32.
  pose proof (len_splice (p_data q) (p_len q) (enc_elem e) ltac:(lia) ltac:(lia)) as Hls.
  rewrite w32_enc, wr_fits by slia. rewrite bind_ok. cbn [fst].
  assert (Hn1 : u32 (p_num q + 1) = len (es ++ [e])).
  { rewrite Hnum. unfold u32. rewrite Z.mod_small; slia. }
  assert (Hn2 : u32 (p_len q + elem_size) = p_len q + elem_size) by (apply Z.mod_small; lia).
  assert (Hbody : mjoin (map enc_elem (es ++ [e])) = mjoin (map enc_elem es) ++ enc_elem e).
  { rewrite map_app. cbn [map]. rewrite join_app. cbn. by rewrite app_nil_r. }
  rewrite Hn1, Hn2. repeat split; cbn [p_num p_len p_data p_cap].
  - rewrite len_splice; slia.
  - lia.
  - lia.
  - exists (be_enc 4 (len (es ++ [e]))). rewrite Hbody. split; [slia|]. split; [done|].
    split; [|slia].
    assert (Hwhole : tk (p_len q + elem_size) (splice (p_data q) (p_len q) (enc_elem e)) =
      hdr ++ mjoin (map enc_elem es) ++ enc_elem e).
    { rewrite Hsz, tk_splice, Htk by lia. by rewrite <- app_assoc. }
    unfold splice at 1. rewrite (tk_0 _ 0) by lia. cbn [app].
    rewrite len_be_enc, Z.add_0_l. change (Z.of_nat 4) with 4.
    rewrite tk_app, tk_all, len_be_enc by slia. f_equal. change (Z.of_nat 4) with 4.
    apply (f_equal (dr 4)) in Hwhole. rewrite dr_app_exact in Hwhole by lia.
    rewrite <- Hwhole. unfold tk, dr. rewrite skipn_firstn_comm. f_equal. lia.
Qed.
End writer.

End Writer_correct.

(** ** Properties *)

Import Reader_correct Writer_correct.

Definition int_of (v : value) : res Z :=
  match v with VInt z | VInt64 z => Ok z | _ => Err end.
(** A string cut to the caller's buffer and terminated. *)
Definition str_of (out_size : Z) (v : value) : res (list Z) :=
  match v with VStr l => Ok (tk (out_size - 1) l ++ [0]) | _ => Err end.
Definition data_of (out_size : Z) (v : value) : res (list Z) :=
  match v with VData l => Ok (tk out_size l) | _ => Err end.

(** What a getter must return for an abstract lookup result. *)
Definition found {A} (f : value -> res A) (v : option value) : res A :=
  match v with Some v => f v | None => Err end.

Lemma get_int_at m es field rest :
  view_ok m -> m_body m = encode es ++ rest -> Forall elem_ok es ->
  len es <= PACK_MAX_ELEMENTS ->
  pack_get_int (Some m) (Some field) = found int_of (lookup es field PACK_TYPE_INT).
Proof.
  intros Hm Hb Hes Hn. eapply pack_get_at; [done| |done..].
  intros q v r Hat Hv Ht. destruct v; try done. cbn in Hat, Hv.
  by destruct (read_uint32_at m Hm _ _ _ Hat Hv) as [-> _].
Qed.

Lemma get_int64_at m es field rest :
  view_ok m -> m_body m = encode es ++ rest -> Forall elem_ok es ->
  len es <= PACK_MAX_ELEMENTS ->
  pack_get_int64 (Some m) (Some field) = found int_of (lookup es field PACK_TYPE_INT64).
Proof.
  intros Hm Hb Hes Hn. eapply pack_get_at; [done| |done..].
  intros q v r Hat Hv Ht. destruct v; try done. cbn in Hat, Hv.
  by rewrite (read_uint64_at m Hm _ _ _ Hat Hv).
Qed.

Lemma get_str_at m es field rest n :
  view_ok m -> m_body m = encode es ++ rest -> Forall elem_ok es ->
  len es <= PACK_MAX_ELEMENTS -> 0 < n < 2 ^ 32 ->
  pack_get_str (Some m) (Some field) n = found (str_of n) (lookup es field PACK_TYPE_STR).
Proof.
  intros Hm Hb Hes Hn Hsz. unfold pack_get_str. replace (n =? 0) with false by lia.
  eapply pack_get_at; [done| |done..].
  intros q v r Hat Hv Ht. destruct v as [|?|?|l|?]; try done. cbn in Hat, Hv.
  destruct (read_counted_at m Hm _ _ _ Hat Hv) as [Hr Hat'].
  destruct (check_at m Hm _ _ _ Hat' Hv) as [Hc _].
  unfold pack_read_string_safe. rewrite Hr, bind_ok, Hc. cbn [fail_if]. rewrite bind_ok.
  replace (n >? 0) with true by lia.
  assert (Hu : u32 (n - 1) = n - 1) by (apply Z.mod_small; lia). rewrite Hu.
  by rewrite (load_cut m _ _ _ _ Hat') by lia.
Qed.

Lemma get_data_at m es field rest n :
  view_ok m -> m_body m = encode es ++ rest -> Forall elem_ok es ->
  len es <= PACK_MAX_ELEMENTS -> 0 < n < 2 ^ 32 ->
  pack_get_data (Some m) (Some field) n = found (data_of n) (lookup es field PACK_TYPE_DATA).
Proof.
  intros Hm Hb Hes Hn Hsz. unfold pack_get_data. replace (n =? 0) with false by lia.
  eapply pack_get_at; [done| |done..].
  intros q v r Hat Hv Ht. destruct v as [|?|l|?|?]; try done. cbn in Hat, Hv.
  destruct (read_counted_at m Hm _ _ _ Hat Hv) as [Hr Hat'].
  destruct (check_at m Hm _ _ _ Hat' Hv) as [Hc _].
  rewrite Hr, bind_ok, Hc. cbn [fail_if data_of]. rewrite bind_ok.
  eapply load_cut; [done|lia].
Qed.

(** C20: on a message that encodes an element list (and may be followed by
    other bytes), the four PACK getters return exactly what the abstract lookup
    of that field name and type returns: the integer, or the string cut to the
    caller's buffer and NUL-terminated, or the data cut to the buffer; and -1
    when the field is absent. *)
Theorem pack_getters_refine_lookup m es field rest n :
  view_ok m -> m_body m = encode es ++ rest -> Forall elem_ok es ->
  len es <= PACK_MAX_ELEMENTS -> 0 < n < 2 ^ 32 ->
  pack_get_int (Some m) (Some field) = found int_of (lookup es field PACK_TYPE_INT) /\
  pack_get_int64 (Some m) (Some field) = found int_of (lookup es field PACK_TYPE_INT64) /\
  pack_get_str (Some m) (Some field) n = found (str_of n) (lookup es field PACK_TYPE_STR) /\
  pack_get_data (Some m) (Some field) n = found (data_of n) (lookup es field PACK_TYPE_DATA).
Proof.
  intros. split; [by eapply get_int_at|split; [by eapply get_int64_at|]].
  split; [by eapply get_str_at|by eapply get_data_at].
Qed.

Definition ex_es : list elem :=
  [Elem [97; 98] PACK_TYPE_INT [VInt 7; VInt 8];
   Elem [99] PACK_TYPE_STR [VStr [104; 105; 33]];
   Elem [100] PACK_TYPE_INT64 [VInt64 5000000000];
   Elem [101] PACK_TYPE_DATA [VData [1; 2; 3]]].
Definition ex_mem : mem := Mem 64 4096 (encode ex_es).

Lemma ex_mem_ok : view_ok ex_mem.
Proof. vm_compute. split; discriminate. Defined.

Lemma ex_es_ok : Forall elem_ok ex_es.
Proof. apply (bool_decide_unpack _). vm_compute. exact I. Defined.

Lemma pack_getters_refine_lookup_witness :
  pack_get_int (Some ex_mem) (Some [97; 98]) = Ok 7 /\
  pack_get_str (Some ex_mem) (Some [99]) 3 = Ok [104; 105; 0].
Proof.
  assert (Hb : m_body ex_mem = encode ex_es ++ []) by (vm_compute; reflexivity).
  assert (Hn : len ex_es <= PACK_MAX_ELEMENTS) by (vm_compute; discriminate).
  assert (H3 : 0 < 3 < 2 ^ 32) by lia.
  split.
  - destruct (pack_getters_refine_lookup ex_mem ex_es [97; 98] [] 3
      ex_mem_ok Hb ex_es_ok Hn H3) as (H & _). rewrite H. vm_compute. reflexivity.
  - destruct (pack_getters_refine_lookup ex_mem ex_es [99] [] 3
      ex_mem_ok Hb ex_es_ok Hn H3) as (_ & _ & H & _). rewrite H. vm_compute. reflexivity.
Defined.

Lemma pack_getters_safe m field n :
  view_ok m -> bytes_ok (m_body m) -> 0 <= n < 2 ^ 32 ->
  pack_get_int (Some m) field <> Ub /\ pack_get_int64 (Some m) field <> Ub /\
  safe (fun out => len out <= n) (pack_get_str (Some m) field n) /\
  safe (fun out => len out <= n) (pack_get_data (Some m) field n).
Proof.
  intros Hm Hb Hn. split; [|split; [|split]].
  - apply (safe_not_ub (fun _ => True)), pack_get_safe; [done..|]. intros q Hq.
    eapply safe_bind; [by apply read_uint32_safe|]. by intros [].
  - apply (safe_not_ub (fun _ => True)), pack_get_safe; [done..|]. intros q Hq.
    eapply safe_bind; [by apply read_uint64_safe|]. by intros [].
  - unfold pack_get_str. destruct (n =? 0); [done|]. apply pack_get_safe; [done..|].
    intros q Hq. eapply safe_bind; [by apply read_string_safe|]. by intros [] [].
  - unfold pack_get_data. destruct (n =? 0) eqn:?; [done|]. apply pack_get_safe; [done..|].
    intros q Hq. eapply safe_bind; [by apply read_uint32_safe|]. intros [d p] [Hd Hp].
    cbn [fst snd] in *. apply safe_check. intros Hc.
    destruct (checked_step m Hm p d Hp Hd Hc) as (? & _ & _).
    eapply safe_mono; [apply load_post; [done..| |]; destruct (d <? n) eqn:?; lia|].
    cbn. intros bs [-> _]. destruct (d <? n) eqn:?; lia.
Qed.

(** C23: whatever bytes a peer sends, no getter reads outside the message when
    pointers cannot wrap (64-bit address space), and a string or data result
    never exceeds the caller's buffer. *)
Theorem pack_getters_memory_safe m field n :
  view_ok m -> bytes_ok (m_body m) -> 0 <= n < 2 ^ 32 ->
  pack_get_int (Some m) field <> Ub /\ pack_get_int64 (Some m) field <> Ub /\
  safe (fun out => len out <= n) (pack_get_str (Some m) field n) /\
  safe (fun out => len out <= n) (pack_get_data (Some m) field n).
Proof. apply pack_getters_safe. Qed.

(** A truncated message whose last length field points far past its end. *)
Definition ex_bad : mem :=
  Mem 64 4096 (be_enc 4 1 ++ be_enc 4 2 ++ [97] ++ be_enc 4 PACK_TYPE_STR ++
               be_enc 4 1 ++ be_enc 4 4294967295).

Lemma pack_getters_memory_safe_witness :
  safe (fun out => len out <= 8) (pack_get_str (Some ex_bad) (Some [97]) 8).
Proof.
  apply (pack_getters_memory_safe ex_bad (Some [97]) 8).
  - vm_compute. split; discriminate.
  - apply (bool_decide_unpack _). vm_compute. exact I.
  - lia.
Defined.

(** The outcome a [pack_add_*] call on [es] must have when it adds [e]. *)
Definition added (malloc : Z -> option (list Z)) (p : pack) (es : list elem) (e : elem)
    (r : res pack) : Prop :=
  match r with
  | Ub => False
  | Err => UINT32_MAX < p_len p + len (enc_elem e) \/ exists n, 0 <= n /\ malloc n = None
  | Ok p' => repr p' (es ++ [e])
  end.

Lemma len_enc_elem1 name type v :
  len (enc_elem (Elem name type [v])) = len name + 12 + len (enc_value v).
Proof. unfold enc_elem. cbn [e_name e_type e_vals map]. cbn. rewrite app_nil_r. slia. Qed.

Ltac pack_sizes :=
  unfold PACK_INT_SZ, PACK_INT64_SZ, PACK_STR_SZ, PACK_DATA_SZ, PACK_ELEM_HDR_SZ, PACK_NAME_SZ,
    strlen, u32;
  rewrite len_enc_elem1; cbn [enc_value];
  repeat match goal with
         | |- context [len ?l] =>
             lazymatch goal with
             | _ : 0 <= len l |- _ => fail
             | _ => pose proof (len_nonneg l)
             end
         end;
  autorewrite with len; mod_small; lia.

Section adds.
Context (malloc : Z -> option (list Z)) (Hmalloc : malloc_ok malloc).
Context (p : pack) (es : list elem) (Hrepr : repr p es) (Hes : len es + 1 < 2 ^ 32).
Context (name : list Z).

Lemma add_int_spec v :
  0 <= v < 2 ^ 32 -> len name + 16 < 2 ^ 32 ->
  added malloc p es (Elem name PACK_TYPE_INT [VInt v]) (pack_add_int malloc (Some p) (Some name) v).
Proof.
  intros Hv Hn. assert (Hs : PACK_INT_SZ name = len (enc_elem (Elem name PACK_TYPE_INT [VInt v])))
    by pack_sizes.
  unfold pack_add_int. rewrite Hs. apply add_spec; [done..|lia| |done|done| |].
  - unfold PACK_TYPE_INT; lia.
  - rewrite <- Hs. apply Z.mod_pos_bound. lia.
  - intros c. unfold pack_write_uint32. by rewrite w32_enc.
Qed.

Lemma add_int64_spec v :
  0 <= v < 2 ^ 64 -> len name + 20 < 2 ^ 32 ->
  added malloc p es (Elem name PACK_TYPE_INT64 [VInt64 v])
    (pack_add_int64 malloc (Some p) (Some name) v).
Proof.
  intros Hv Hn.
  assert (Hs : PACK_INT64_SZ name = len (enc_elem (Elem name PACK_TYPE_INT64 [VInt64 v])))
    by pack_sizes.
  unfold pack_add_int64. rewrite Hs. apply add_spec; [done..|lia| |done|done| |].
  - unfold PACK_TYPE_INT64; lia.
  - rewrite <- Hs. apply Z.mod_pos_bound. lia.
  - apply write_uint64_wr.
Qed.

Lemma add_str_spec v :
  len name + 16 + len v < 2 ^ 32 ->
  added malloc p es (Elem name PACK_TYPE_STR [VStr v])
    (pack_add_str malloc (Some p) (Some name) (Some v)).
Proof.
  intros Hn. assert (Hs : PACK_STR_SZ name v = len (enc_elem (Elem name PACK_TYPE_STR [VStr v])))
    by pack_sizes.
  pose proof (len_nonneg name). pose proof (len_nonneg v).
  unfold pack_add_str. rewrite Hs. apply add_spec; [done..|lia| |done|done| |].
  - unfold PACK_TYPE_STR; lia.
  - rewrite <- Hs. apply Z.mod_pos_bound. lia.
  - intros c. apply write_counted_wr. lia.
Qed.

Lemma add_data_spec v :
  len name + 16 + len v < 2 ^ 32 ->
  added malloc p es (Elem name PACK_TYPE_DATA [VData v])
    (pack_add_data malloc (Some p) (Some name) (Some v) (len v)).
Proof.
  intros Hn.
  assert (Hs : PACK_DATA_SZ name (len v) = len (enc_elem (Elem name PACK_TYPE_DATA [VData v])))
    by pack_sizes.
  pose proof (len_nonneg name). pose proof (len_nonneg v).
  unfold pack_add_data. rewrite Hs. apply add_spec; [done..|lia| |done|done| |].
  - unfold PACK_TYPE_DATA; lia.
  - rewrite <- Hs. apply Z.mod_pos_bound. lia.
  - intros c. unfold pack_write_data_val, pack_write_uint32.
    rewrite tk_all, w32_enc, wr_app by lia. done.
Qed.
End adds.

(** Each [pack_add_*] on a pack representing [es] leaves a pack
    representing [es] plus exactly the new element (buffer, length and patched
    count included), or returns -1 because the 32-bit length is exhausted or
    the allocator returned NULL; it never writes outside the heap block as
    long as the element is smaller than 4 GiB. *)
Theorem pack_add_appends malloc p es name i q s d :
  malloc_ok malloc -> repr p es -> len es + 1 < 2 ^ 32 ->
  0 <= i < 2 ^ 32 -> 0 <= q < 2 ^ 64 ->
  len name + 20 + len s < 2 ^ 32 -> len name + 20 + len d < 2 ^ 32 ->
  added malloc p es (Elem name PACK_TYPE_INT [VInt i])
    (pack_add_int malloc (Some p) (Some name) i) /\
  added malloc p es (Elem name PACK_TYPE_INT64 [VInt64 q])
    (pack_add_int64 malloc (Some p) (Some name) q) /\
  added malloc p es (Elem name PACK_TYPE_STR [VStr s])
    (pack_add_str malloc (Some p) (Some name) (Some s)) /\
  added malloc p es (Elem name PACK_TYPE_DATA [VData d])
    (pack_add_data malloc (Some p) (Some name) (Some d) (len d)).
Proof.
  intros. pose proof (len_nonneg s). pose proof (len_nonneg d).
  split; [|split; [|split]];
    [apply add_int_spec|apply add_int64_spec|apply add_str_spec|apply add_data_spec];
    (assumption || lia).
Qed.

(** A heap that always succeeds, with fresh blocks full of 0xAA. *)
Definition ex_malloc (n : Z) : option (list Z) :=
  if n <? 0 then None else Some (replicate (Z.to_nat n) 170).
Lemma ex_malloc_ok : malloc_ok ex_malloc.
Proof.
  intros n blk. unfold ex_malloc. destruct (n <? 0) eqn:E; [done|].
  intros [= <-]. rewrite len_replicate. lia.
Defined.

Lemma repr_new malloc p :
  malloc_ok malloc -> pack_new malloc = Some p -> repr p [].
Proof.
  intros Hm. unfold pack_new. destruct (malloc _) as [blk|] eqn:E; [|done].
  apply Hm in E. unfold PACK_INITIAL_CAP in *. intros [= <-].
  unfold repr; cbn [p_num p_data p_cap p_len].
  split; [done|]. split; [lia|]. split; [lia|]. split; [lia|].
  exists (tk 4 blk). split; [slia|]. split; [done|]. cbn. by rewrite app_nil_r.
Defined.

Definition ex_pack : pack := default (Pack [] 0 0 0) (pack_new ex_malloc).
Lemma ex_pack_repr : repr ex_pack [].
Proof. apply (repr_new ex_malloc); [apply ex_malloc_ok|reflexivity]. Defined.

Lemma pack_add_appends_witness :
  added ex_malloc ex_pack [] (Elem [97] PACK_TYPE_STR [VStr [104; 105]])
    (pack_add_str ex_malloc (Some ex_pack) (Some [97]) (Some [104; 105])).
Proof.
  destruct (pack_add_appends ex_malloc ex_pack [] [97] 0 0 [104; 105] [] ex_malloc_ok ex_pack_repr)
    as (_ & _ & H & _); [reflexivity|lia|lia|reflexivity|reflexivity|exact H].
Defined.

(** The message a finished pack hands to the socket: [pack_data] cut to
    [pack_length]. *)
Definition message (bits base : Z) (p : pack) : mem :=
  Mem bits base (tk (pack_length (Some p)) (default [] (pack_data (Some p)))).

Lemma message_body bits base p es :
  repr p es -> es <> [] -> m_body (message bits base p) = encode es.
Proof.
  intros (Hn & Hl & Hc & Hle & hdr & Hh & Hhe & Htk & Hp) Hne.
  unfold message. cbn. rewrite Htk, Hhe by done. done.
Qed.

Lemma lookup_app es es' field type :
  lookup (es ++ es') field type =
  match lookup es field type with Some v => Some v | None => lookup es' field type end.
Proof.
  induction es as [|e es IH]; [done|]. cbn. destruct (matches field type e) eqn:E; [|done].
  destruct (e_vals e) eqn:Ev; [|done].
  unfold matches in E. rewrite Ev, len_nil, andb_false_r in E. done.
Qed.

Lemma cstr_cstring l : cstring l -> cstr l = l.
Proof.
  induction 1 as [|b l Hb Hl IH]; [done|]. cbn. replace (b =? 0) with false by lia. by rewrite IH.
Qed.

(** Write/read round trip. Adding a string field to a pack that has no
    such field yet, then reading the message back, gives the string (cut to
    the reader's buffer), for every field name of at most 63 bytes; the other
    fields of the message read as before. *)
Theorem pack_str_roundtrip malloc p es name v p' bits base n field :
  malloc_ok malloc -> repr p es -> Forall elem_ok es -> len es < PACK_MAX_ELEMENTS ->
  cstring name -> len name <= 63 -> len v < 2 ^ 31 -> 0 < n < 2 ^ 32 ->
  lookup es name PACK_TYPE_STR = None ->
  pack_add_str malloc (Some p) (Some name) (Some v) = Ok p' ->
  view_ok (message bits base p') ->
  pack_get_str (Some (message bits base p')) (Some name) n = Ok (tk (n - 1) v ++ [0]) /\
  pack_get_int (Some (message bits base p')) (Some field) =
    found int_of (lookup es field PACK_TYPE_INT).
Proof.
  intros Hm Hr Hes Hlen Hc Hn Hv Hsz Hno Hadd Hview.
  unfold PACK_MAX_ELEMENTS in Hlen.
  pose proof (add_str_spec malloc Hm p es Hr ltac:(lia) name v ltac:(lia)) as Hsp.
  rewrite Hadd in Hsp. cbn [added] in Hsp.
  assert (Hb : m_body (message bits base p') =
    encode (es ++ [Elem name PACK_TYPE_STR [VStr v]]) ++ []).
  { rewrite app_nil_r. apply message_body; [done|]. by destruct es. }
  assert (Hok : Forall elem_ok (es ++ [Elem name PACK_TYPE_STR [VStr v]])).
  { apply Forall_app. split; [done|]. constructor; [|done].
    unfold elem_ok, PACK_MAX_VALUES, PACK_TYPE_STR. cbn [e_name e_type e_vals].
    split; [lia|]. split; [lia|]. split; [done|]. constructor; [|done]. cbn. split; [lia|done]. }
  assert (Hcnt : len (es ++ [Elem name PACK_TYPE_STR [VStr v]]) <= PACK_MAX_ELEMENTS)
    by (unfold PACK_MAX_ELEMENTS; slia).
  split.
  - rewrite (get_str_at _ _ _ _ _ Hview Hb Hok Hcnt Hsz), lookup_app, Hno.
    cbn [lookup]. unfold matches. cbn [e_name e_type e_vals].
    rewrite tk_all, cstr_cstring, bool_decide_eq_true_2 by (done || lia). done.
  - rewrite (get_int_at _ _ _ _ Hview Hb Hok Hcnt), lookup_app.
    destruct (lookup es field PACK_TYPE_INT); [done|].
    cbn [lookup]. unfold matches. cbn [e_type]. by rewrite andb_false_r.
Qed.

Definition ex_pack' : pack :=
  match pack_add_str ex_malloc (Some ex_pack) (Some [97]) (Some [104; 105]) with
  | Ok p => p | _ => ex_pack end.

Lemma pack_str_roundtrip_witness :
  pack_get_str (Some (message 64 4096 ex_pack')) (Some [97]) 64 = Ok [104; 105; 0].
Proof.
  destruct (pack_str_roundtrip ex_malloc ex_pack [] [97] [104; 105] ex_pack' 64 4096 64 [])
    as [H _]; [apply ex_malloc_ok|apply ex_pack_repr|constructor|reflexivity
    |apply (bool_decide_unpack _); vm_compute; exact I|vm_compute; discriminate|reflexivity|lia|reflexivity
    |vm_compute; reflexivity|vm_compute; split; discriminate|exact H].
Defined.

(** The element size of [pack_add_data] is computed in 32 bits. A value
    whose element does not fit 4 GiB wraps the size, the reservation succeeds
    without growing the block, and the copy runs past its end. *)
Theorem pack_add_data_size_wraps malloc p es name d :
  repr p es -> len name + 1 < 2 ^ 31 -> len d < 2 ^ 32 ->
  2 ^ 32 <= len name + 16 + len d ->
  p_len p + (len name + 16 + len d - 2 ^ 32) <= p_cap p ->
  pack_add_data malloc (Some p) (Some name) (Some d) (len d) = Ub.
Proof.
  intros (Hn & Hl & Hc & Hle & hdr & Hh & Hhe & Htk & Hp) Hname Hd Hover Hfit.
  pose proof (len_nonneg name). pose proof (len_nonneg d).
  pose proof (len_nonneg (mjoin (map enc_elem es))).
  assert (Hs : PACK_DATA_SZ name (len d) = len name + 16 + len d - 2 ^ 32).
  { unfold PACK_DATA_SZ, PACK_ELEM_HDR_SZ, PACK_NAME_SZ, strlen, u32. mod_small.
    symmetry. apply (Z.mod_unique _ _ 1); lia. }
  unfold pack_add_data, pack_add, pack_reserve. rewrite Hs. unfold UINT32_MAX.
  replace (_ >? _) with false by lia. unfold u32 at 1.
  rewrite Z.mod_small by lia. replace (_ <=? _) with true by lia. rewrite bind_ok.
  rewrite (element_wr name PACK_TYPE_DATA (VData d)); [|lia|].
  - rewrite wr_overflow by (rewrite len_enc_elem1; cbn [enc_value]; slia). done.
  - intros c. unfold pack_write_data_val, pack_write_uint32.
    rewrite tk_all, w32_enc, wr_app by lia. done.
Qed.

Lemma pack_add_data_size_wraps_witness :
  pack_add_data ex_malloc (Some ex_pack) (Some [97]) (Some (zeros (2 ^ 32 - 16)))
    (len (zeros (2 ^ 32 - 16))) = Ub.
Proof.
  apply (pack_add_data_size_wraps ex_malloc ex_pack [] [97] (zeros (2 ^ 32 - 16)));
    [apply ex_pack_repr|reflexivity|rewrite len_zeros; reflexivity
    |rewrite len_zeros; vm_compute; discriminate|rewrite len_zeros; vm_compute; discriminate].
Defined.

(** With 32-bit pointers the checks [*p + n > end] wrap, and a 23-byte
    message from the peer makes a getter read before the start of the buffer:
    on 32-bit targets the readers are not bounds-safe. *)
Theorem pack_getters_unsafe_on_32bit :
  exists body base, len body < 64 /\ 0 <= base /\ base + len body < 2 ^ 32 /\
    bytes_ok body /\ ~ view_ok (Mem 32 base body) /\
    pack_get_int (Some (Mem 32 base body)) (Some [98]) = Ub.
Proof.
  exists (be_enc 4 2 ++ be_enc 4 2 ++ [97] ++ be_enc 4 PACK_TYPE_STR ++ be_enc 4 1 ++
          be_enc 4 (2 ^ 32 - 100)), 4026531840.
  split; [reflexivity|]. split; [lia|]. split; [reflexivity|].
  split; [apply (bool_decide_unpack _); vm_compute; exact I|].
  split; [by intros [_ H]; vm_compute in H|]. vm_compute. reflexivity.
Qed.
