(* ===== verification/PackLocal.v ===== *)
(** * The copies of the PACK functions in softether_protocol.c

    [softether_protocol.c] does not call [softether_pack.c]: it has static
    functions of the same names, with the element loop written out in each
    getter. They are modelled here as they stand there and proved to compute
    the functions of [Pack], which the models of the login use. *)
From S2P Require Import Prelude Bytes Pack.

Module Local.
Import Writer(cursor, wr) Reader(mem, m_base, m_body, padd, m_end, load).

(** ** Readers *)

Definition pack_read_uint32_safe (m : mem) (p : Z) : res (Z * Z) :=
  _ ← fail_if (padd m p 4 >? m_end m);
  bs ← load m p 4;
  Ok (r32 bs, padd m p 4).

Definition pack_skip_bytes_safe (m : mem) (p n : Z) : res Z :=
  _ ← fail_if (padd m p n >? m_end m);
  Ok (padd m p n).

(** The bytes stored into [out], NUL included, and the new position. *)
Definition pack_read_string_safe (m : mem) (p out_size : Z) : res (list Z * Z) :=
  '(n, p) ← pack_read_uint32_safe m p;
  _ ← fail_if (padd m p n >? m_end m);
  out ← (if out_size >? 0 then
           bs ← load m p (if n <? u32 (out_size - 1) then n else out_size - 1);
           Ok (bs ++ [0])
         else Ok []);
  Ok (out, padd m p n).

Definition pack_skip_value_safe (m : mem) (p type : Z) : res Z :=
  if type =? PACK_TYPE_INT then pack_skip_bytes_safe m p 4
  else if type =? PACK_TYPE_INT64 then pack_skip_bytes_safe m p 8
  else if (type =? PACK_TYPE_STR) || (type =? PACK_TYPE_UNISTR) || (type =? PACK_TYPE_DATA) then
    '(n, p) ← pack_read_uint32_safe m p;
    pack_skip_bytes_safe m p n
  else Err.

Fixpoint skip_values (m : mem) (n : nat) (p type : Z) : res Z :=
  match n with
  | O => Ok p
  | S n => p ← pack_skip_value_safe m p type; skip_values m n p type
  end.

(** The loop of a getter over the elements; [found] reads the first value of
    the element it looks for. *)
Fixpoint elements {A} (m : mem) (n : nat) (p : Z) (field : list Z) (wanted : Z) (found : Z -> res A) : res A :=
  match n with
  | O => Err
  | S n =>
      '(name_len_plus1, p) ← pack_read_uint32_safe m p;
      _ ← fail_if (name_len_plus1 =? 0);
      let name_len := name_len_plus1 - 1 in
      _ ← fail_if (padd m p name_len >? m_end m);
      elem ← load m p (if name_len <? 63 then name_len else 63);
      let p := padd m p name_len in
      '(type, p) ← pack_read_uint32_safe m p;
      '(num_values, p) ← pack_read_uint32_safe m p;
      _ ← fail_if (num_values >? 65535);
      if bool_decide (cstr elem = field) && (type =? wanted) && (num_values >=? 1) then found p else
      p ← skip_values m (Z.to_nat num_values) p type;
      elements m n p field wanted found
  end.

(** The checks in front of it; the first word is the number of elements. *)
Definition open_body (body : option mem) (field : option (list Z)) : res (mem * list Z * Z * Z) :=
  match body, field with
  | Some m, Some field =>
      _ ← fail_if (len (m_body m) <? 4);
      '(num_elements, p) ← pack_read_uint32_safe m (m_base m);
      _ ← fail_if (num_elements >? 4096);
      Ok (m, field, num_elements, p)
  | _, _ => Err
  end.

Definition pack_get_int (body : option mem) (field : option (list Z)) : res Z :=
  '(m, field, num_elements, p) ← open_body body field;
  elements m (Z.to_nat num_elements) p field PACK_TYPE_INT (fun p =>
    '(v, _) ← pack_read_uint32_safe m p; Ok v).

(** The bytes written to [out_str], with the terminating NUL. *)
Definition pack_get_str (body : option mem) (field : option (list Z)) (out_size : Z) : res (list Z) :=
  if out_size =? 0 then Err else
  '(m, field, num_elements, p) ← open_body body field;
  elements m (Z.to_nat num_elements) p field PACK_TYPE_STR (fun p =>
    '(str_len, p) ← pack_read_uint32_safe m p;
    _ ← fail_if (padd m p str_len >? m_end m);
    bs ← load m p (if str_len <? u32 (out_size - 1) then str_len else u32 (out_size - 1));
    Ok (bs ++ [0])).

Definition pack_get_data (body : option mem) (field : option (list Z)) (out_size : Z) : res (list Z) :=
  if out_size =? 0 then Err else
  '(m, field, num_elements, p) ← open_body body field;
  elements m (Z.to_nat num_elements) p field PACK_TYPE_DATA (fun p =>
    '(data_len, p) ← pack_read_uint32_safe m p;
    _ ← fail_if (padd m p data_len >? m_end m);
    load m p (if data_len <? out_size then data_len else out_size)).

(** ** Writers *)

Definition pack_write_uint32 (val : Z) (c : cursor) : res cursor := wr (w32 val) c.

Definition pack_write_elem_name (name : list Z) (c : cursor) : res cursor :=
  let n := u32 (strlen name) in
  c ← pack_write_uint32 (u32 (n + 1)) c;
  wr (tk n name) c.

Definition pack_write_str_val (str : list Z) (c : cursor) : res cursor :=
  let n := u32 (strlen str) in
  c ← pack_write_uint32 n c;
  wr (tk n str) c.

(** The element-size macros, in [uint32_t] arithmetic. *)
Definition PACK_NAME_SZ (n : list Z) : Z := u32 (4 + u32 (strlen n)).
Definition PACK_ELEM_HDR_SZ (n : list Z) : Z := u32 (PACK_NAME_SZ n + 8).
Definition PACK_INT_SZ (n : list Z) : Z := u32 (PACK_ELEM_HDR_SZ n + 4).
Definition PACK_STR_SZ (n v : list Z) : Z := u32 (u32 (PACK_ELEM_HDR_SZ n + 4) + u32 (strlen v)).
Definition PACK_DATA_SZ (n : list Z) (d : Z) : Z := u32 (u32 (PACK_ELEM_HDR_SZ n + 4) + d).
End Local.

(** ** The copies compute the same *)

Import Reader.

Lemma res_assoc {A B C} (r : res A) (f : A -> res B) (g : B -> res C) : (r ≫= f) ≫= g = r ≫= (fun a => f a ≫= g).
Proof. by destruct r. Qed.
Lemma res_ext {A B} (r : res A) (f g : A -> res B) : (forall a, f a = g a) -> r ≫= f = r ≫= g.
Proof. intros H. destruct r; [done..|apply H]. Qed.

Lemma local_skip_values m n p type : Local.skip_values m n p type = skip_values m n p type.
Proof. revert p. induction n as [|n IH]; intros p; [done|]. apply res_ext, IH. Qed.

Ltac next := rewrite ?res_assoc; apply res_ext; (intros [? ?] || intros ?); cbn beta iota zeta.
Lemma local_elements {A} m n p field type (rd rd' : Z -> res A) : (forall p, rd' p = rd p) ->
  Local.elements m n p field type rd' = scan m n p field type rd.
Proof.
  intros Hrd. revert p. induction n as [|n IH]; intros p; [done|]. cbn [Local.elements scan].
  unfold pack_match_element. do 7 next. destruct (_ && _); [apply Hrd|]. rewrite local_skip_values. next. apply IH.
Qed.

Lemma local_get {A} body field type (rd rd' : mem -> Z -> res A) : (forall m p, rd' m p = rd m p) ->
  ('(m, field, n, p) ← Local.open_body body field; Local.elements m (Z.to_nat n) p field type (rd' m)) = pack_get body field type rd.
Proof.
  intros Hrd. unfold Local.open_body, pack_get. destruct body as [m|], field as [f|]; [|done..].
  do 3 next. apply local_elements. intros q. apply Hrd.
Qed.

(** The getters of softether_protocol.c are those of softether_pack.c. *)
Lemma local_getters body field :
  Local.pack_get_int body field = pack_get_int body field /\
  (forall n, 0 <= n < 2 ^ 32 -> Local.pack_get_str body field n = pack_get_str body field n) /\
  (forall n, Local.pack_get_data body field n = pack_get_data body field n).
Proof.
  split; [by apply local_get|]. split; intros n.
  - intros Hn. unfold Local.pack_get_str, pack_get_str. destruct (n =? 0) eqn:E; [done|]. apply local_get. intros m p.
    unfold pack_read_string_safe. replace (n >? 0) with true by lia.
    replace (u32 (n - 1)) with (n - 1) by (unfold u32; rewrite Z.mod_small by lia; done). do 3 next. done.
  - unfold Local.pack_get_data, pack_get_data. destruct (n =? 0); [done|]. by apply local_get.
Qed.

(** So are the writers and the sizes. *)
Lemma local_writers name str val d c :
  Local.pack_write_uint32 val c = Writer.pack_write_uint32 val c /\
  Local.pack_write_elem_name name c = Writer.pack_write_elem_name name c /\
  Local.pack_write_str_val str c = Writer.pack_write_str_val str c /\
  Local.PACK_INT_SZ name = Writer.PACK_INT_SZ name /\ Local.PACK_STR_SZ name str = Writer.PACK_STR_SZ name str /\
  Local.PACK_DATA_SZ name d = Writer.PACK_DATA_SZ name d.
Proof. by split_and!. Qed.
