(* ===== verification/Crypto.v ===== *)
(** * The ciphers and digests the C code implements itself (aes_wrapper.c)

    RC4 ([rc4_crypt], the R-UDP packet cipher) and SHA-0 ([sha0_hash], the
    password digest). SHA-1, SHA-256, AEAD and the CSPRNG are OpenSSL calls:
    they are parameters wherever they are used. *)
From S2P Require Import Prelude Bytes.

(** Array access with a C index. *)
Definition at0 (l : list Z) (i : Z) : Z := nth (Z.to_nat i) l 0.

Lemma at0_byte l i : bytes_ok l -> byte_ok (at0 l i).
Proof.
  intros Hl. unfold at0. destruct (nth_lookup_or_length l (Z.to_nat i) 0) as [E|E].
  - by apply (Forall_lookup_1 _ _ _ _ Hl E).
  - rewrite nth_overflow by done. unfold byte_ok. lia.
Qed.
#[export] Hint Resolve at0_byte : bytes.

(** The three-assignment exchange of [s[i]] and [s[j]]. *)
Definition swap (s : list Z) (i j : Z) : list Z :=
  let tmp := at0 s i in
  let s := <[Z.to_nat i := at0 s j]> s in
  <[Z.to_nat j := tmp]> s.

(** What the code relies on in SHA-1: 20 bytes out. *)
Definition sha1_ok (sha1 : list Z -> list Z) : Prop :=
  forall l, len (sha1 l) = 20 /\ bytes_ok (sha1 l).

(** What the code relies on in OpenSSL's [RAND_bytes]: the buffer it was given
    is filled (its return code is the first component). *)
Definition rand_ok (rand : nat -> Z -> bool * list Z) : Prop :=
  forall k n, 0 <= n -> len (snd (rand k n)) = n /\ bytes_ok (snd (rand k n)).

Module Rc4.

Definition sbox_init : list Z := seqZ 0 256.

(** One step of the key-scheduling loop. *)
Definition ksa_step (key : list Z) (st : list Z * Z) (i : Z) : list Z * Z :=
  let '(sbox, j) := st in
  let j := Z.land (u32 (j + at0 sbox i + at0 key (i mod len key))) 255 in
  (swap sbox i j, j).

Definition ksa (key : list Z) : list Z := (fold_left (ksa_step key) (seqZ 0 256) (sbox_init, 0)).1.

(** The output loop over the bytes of [data]. *)
Fixpoint prga (sbox : list Z) (i j : Z) (data : list Z) : list Z :=
  match data with
  | [] => []
  | d :: data =>
      let i := Z.land (i + 1) 255 in
      let j := Z.land (j + at0 sbox i) 255 in
      let sbox := swap sbox i j in
      Z.lxor d (at0 sbox (Z.land (at0 sbox i + at0 sbox j) 255)) :: prga sbox i j data
  end.

(** [key_len = 0] (or a NULL pointer) leaves the data untouched. *)
Definition rc4_crypt (key data : list Z) : list Z :=
  if len key =? 0 then data else prga (ksa key) 0 0 data.

Definition sbox_ok (s : list Z) : Prop := s ≡ₚ seqZ 0 256.

Lemma sbox_bytes s : sbox_ok s -> bytes_ok s.
Proof.
  intros Hs. unfold sbox_ok in Hs. unfold bytes_ok. rewrite Hs. apply Forall_seqZ. unfold byte_ok. lia.
Qed.

Lemma swap_perm s i j : 0 <= i < len s -> 0 <= j < len s -> swap s i j ≡ₚ s.
Proof.
  intros Hi Hj. unfold len in *.
  assert (H : forall k, 0 <= k < Z.of_nat (length s) -> s !! Z.to_nat k = Some (at0 s k)).
  { intros k Hk. unfold at0. destruct (nth_lookup_or_length s (Z.to_nat k) 0) as [E|E]; [done|lia]. }
  unfold swap. apply Permutation_insert_swap; apply H; lia.
Qed.

Lemma swap_ok s i j :
  sbox_ok s -> byte_ok i -> byte_ok j -> sbox_ok (swap s i j).
Proof.
  intros Hs Hi Hj. assert (len s = 256).
  { unfold sbox_ok in Hs. unfold len. rewrite Hs. by rewrite length_seqZ. }
  unfold sbox_ok, byte_ok in *.
  rewrite swap_perm by lia. done.
Qed.

Lemma ksa_ok key : sbox_ok (ksa key).
Proof.
  unfold ksa.
  assert (H : forall l st, Forall byte_ok l -> sbox_ok st.1 ->
    sbox_ok (fold_left (ksa_step key) l st).1).
  { induction l as [|i l IH]; intros [s j] Hl Hs; [done|].
    apply Forall_cons_1 in Hl as [Hi Hl]. cbn [fold_left]. apply IH; [done|].
    cbn [ksa_step fst]. apply swap_ok; auto with bytes. }
  apply H; [|by unfold sbox_ok, sbox_init; cbn [fst]]. apply Forall_seqZ. unfold byte_ok. lia.
Qed.

Lemma prga_len s i j d : len (prga s i j d) = len d.
Proof. revert s i j. induction d; intros; cbn [prga]; [done|]. rewrite !len_cons, IHd. done. Qed.

Lemma prga_bytes s i j d :
  sbox_ok s -> bytes_ok d -> bytes_ok (prga s i j d).
Proof.
  intros Hs Hd. revert s i j Hs. induction Hd as [|b d Hb Hd IH]; intros s i j Hs; [constructor|].
  cbn [prga]. pose proof (swap_ok s (Z.land (i + 1) 255)
    (Z.land (j + at0 s (Z.land (i + 1) 255)) 255) Hs ltac:(auto with bytes) ltac:(auto with bytes)) as Hs'.
  apply bytes_ok_cons; [|by apply IH].
  apply byte_ok_lxor; [done|]. by apply at0_byte, sbox_bytes.
Qed.

Lemma prga_prga s i j d : prga s i j (prga s i j d) = d.
Proof.
  revert s i j. induction d as [|b d IH]; intros; [done|]. cbn [prga]. f_equal; [|apply IH].
  rewrite Z.lxor_assoc, Z.lxor_nilpotent. apply Z.lxor_0_r.
Qed.

Lemma rc4_len key d : len (rc4_crypt key d) = len d.
Proof. unfold rc4_crypt. destruct (_ =? _); [done|]. apply prga_len. Qed.

Lemma rc4_bytes key d : bytes_ok d -> bytes_ok (rc4_crypt key d).
Proof. intros. unfold rc4_crypt. destruct (_ =? _); [done|]. apply prga_bytes; [apply ksa_ok|done]. Qed.

Lemma rc4_rc4 key d : rc4_crypt key (rc4_crypt key d) = d.
Proof. unfold rc4_crypt. destruct (_ =? _); [done|]. apply prga_prga. Qed.

(** The RC4 test vector "Key"/"Plaintext". *)
Example rc4_vector :
  rc4_crypt [75; 101; 121] [80; 108; 97; 105; 110; 116; 101; 120; 116] =
  [187; 243; 22; 232; 217; 64; 175; 10; 211].
Proof. vm_compute. reflexivity. Qed.

End Rc4.
#[export] Hint Rewrite Rc4.rc4_len : len.
#[export] Hint Resolve Rc4.rc4_bytes : bytes.

Module Sha0.

Definition k0 : Z := 1518500249.
Definition k1 : Z := 1859775393.
Definition k2 : Z := 2400959708.
Definition k3 : Z := 3395469782.
Definition h_init : list Z := [1732584193; 4023233417; 2562383102; 271733878; 3285377520].

Definition padded (mlen : Z) : Z := ((mlen + 8) / 64 + 1) * 64.

(** The [calloc]ed buffer after the copy, the 0x80 marker and the loop that
    stores the bit count from the last byte backwards. *)
Definition pad (data : list Z) : list Z :=
  let mlen := len data in
  let buf := data ++ zeros (padded mlen - mlen) in
  let buf := <[Z.to_nat mlen := 128]> buf in
  let bits := u64 (mlen * 8) in
  fold_left (fun buf i => <[Z.to_nat (padded mlen - 1 - i) := u8 (bits ≫ (8 * i))]> buf)
    (seqZ 0 8) buf.

(** The 80-word message schedule: no rotation, unlike SHA-1. *)
Definition schedule (blk : list Z) : list Z :=
  let w := map (fun i => r32 (slice (i * 4) 4 blk)) (seqZ 0 16) in
  fold_left (fun w i =>
      w ++ [Z.lxor (Z.lxor (Z.lxor (at0 w (i - 3)) (at0 w (i - 8))) (at0 w (i - 14))) (at0 w (i - 16))])
    (seqZ 16 64) w.

Definition not32 (b : Z) : Z := u32 (Z.lnot b).

Definition round (w : list Z) (st : Z * Z * Z * Z * Z) (i : Z) : Z * Z * Z * Z * Z :=
  let '(a, b, c, d, e) := st in
  let '(f, k) :=
    if i <? 20 then (Z.lor (Z.land b c) (Z.land (not32 b) d), k0)
    else if i <? 40 then (Z.lxor (Z.lxor b c) d, k1)
    else if i <? 60 then (Z.lor (Z.lor (Z.land b c) (Z.land b d)) (Z.land c d), k2)
    else (Z.lxor (Z.lxor b c) d, k3) in
  let t := u32 (Z.lor (u32 (a ≪ 5)) (a ≫ 27) + f + e + k + at0 w i) in
  (t, a, Z.lor (u32 (b ≪ 30)) (b ≫ 2), c, d).

Definition block (h : list Z) (blk : list Z) : list Z :=
  let w := schedule blk in
  let '(a, b, c, d, e) :=
    fold_left (round w) (seqZ 0 80) (at0 h 0, at0 h 1, at0 h 2, at0 h 3, at0 h 4) in
  [u32 (at0 h 0 + a); u32 (at0 h 1 + b); u32 (at0 h 2 + c); u32 (at0 h 3 + d); u32 (at0 h 4 + e)].

Definition sha0_hash (data : list Z) : list Z :=
  let buf := pad data in
  let h := fold_left (fun h k => block h (slice (k * 64) 64 buf)) (seqZ 0 (len buf / 64)) h_init in
  mjoin (map w32 h).

(** ** The padding is the standard's *)

Definition fips_pad (data : list Z) : list Z :=
  data ++ [128] ++ zeros (padded (len data) - len data - 9) ++ be_enc 8 (len data * 8).

Lemma insert_at (pre rest : list Z) (i : Z) (x y : Z) :
  i = len pre -> <[Z.to_nat i := x]> (pre ++ y :: rest) = pre ++ x :: rest.
Proof.
  intros ->. unfold len. rewrite Nat2Z.id.
  replace (length pre) with (length pre + 0)%nat at 1 by lia. by rewrite insert_app_r.
Qed.

Lemma padded_bounds n : 0 <= n -> n + 9 <= padded n < n + 73 /\ padded n mod 64 = 0.
Proof.
  intros. unfold padded. rewrite Z.mod_mul by lia.
  pose proof (Z.div_mod (n + 8) 64). pose proof (Z.mod_pos_bound (n + 8) 64). lia.
Qed.

Lemma byte_shift v i : 0 <= i -> u8 (v ≫ (8 * i)) = u8 (v / 256 ^ i).
Proof. intros. rewrite Z.shiftr_div_pow2, Z.pow_mul_r by lia. done. Qed.

(** Stores into the byte after [a] in a buffer [pre ++ a ++ 0 :: _]. *)
Ltac step_at Hstep a :=
  let H := fresh in
  pose proof (fun b x i => Hstep a b x 0 i) as H; cbn [app] in H; rewrite H by (unfold len; cbn [length]; lia); clear H.

Lemma pad_fips data : len data * 8 < 2 ^ 64 -> pad data = fips_pad data.
Proof.
  intros Hl. pose proof (len_nonneg data). destruct (padded_bounds (len data)) as [Hp _]; [done|].
  unfold pad, fips_pad. set (P := padded (len data)) in *.
  set (m := len data) in *.
  assert (Hz : zeros (P - m) = 0 :: zeros (P - m - 9) ++ [0; 0; 0; 0; 0; 0; 0; 0]).
  { unfold zeros. change [0; 0; 0; 0; 0; 0; 0; 0] with (replicate 8 0).
    rewrite <- replicate_add. replace (Z.to_nat (P - m)) with (S (Z.to_nat (P - m - 9) + 8)) by lia.
    done. }
  rewrite Hz, insert_at by done. unfold u64. rewrite Z.mod_small by lia.
  set (pre := data ++ [128] ++ zeros (P - m - 9)).
  replace (data ++ 128 :: zeros (P - m - 9) ++ [0; 0; 0; 0; 0; 0; 0; 0])
    with (pre ++ [0; 0; 0; 0; 0; 0; 0; 0]) by (unfold pre; by rewrite <- !app_assoc).
  assert (Hpre : len pre = P - 8) by (unfold pre, m; slia).
  replace (data ++ [128] ++ zeros (P - m - 9) ++ be_enc 8 (m * 8))
    with (pre ++ be_enc 8 (m * 8)) by (unfold pre; by rewrite <- !app_assoc).
  change (seqZ 0 8) with [0; 1; 2; 3; 4; 5; 6; 7]. cbn [fold_left].
  rewrite !byte_shift by lia. cbn [be_enc].
  assert (Hstep : forall (a b : list Z) x y i, i = P - 8 + len a ->
    <[Z.to_nat i := x]> (pre ++ a ++ y :: b) = pre ++ a ++ x :: b).
  { intros. rewrite !app_assoc. apply insert_at. slia. }
  step_at Hstep [0; 0; 0; 0; 0; 0; 0]. step_at Hstep [0; 0; 0; 0; 0; 0]. step_at Hstep [0; 0; 0; 0; 0].
  step_at Hstep [0; 0; 0; 0]. step_at Hstep [0; 0; 0]. step_at Hstep [0; 0]. step_at Hstep [0].
  step_at Hstep (@nil Z).
  done.
Qed.

(** The digest of "abc". *)
Example sha0_vector :
  sha0_hash [97; 98; 99] =
  [1; 100; 184; 169; 20; 205; 42; 94; 116; 196; 247; 255; 8; 44; 77; 151; 241; 237; 248; 128].
Proof. vm_compute. reflexivity. Qed.

End Sha0.

(** RC4 as implemented is its own inverse for every key and preserves
    length and byte range; the key schedule always yields a permutation of
    0..255, so no index of the output loop leaves the table. *)
Theorem rc4_crypt_involution key data :
  Rc4.rc4_crypt key (Rc4.rc4_crypt key data) = data /\
  len (Rc4.rc4_crypt key data) = len data /\
  Rc4.ksa key ≡ₚ seqZ 0 256 /\
  (bytes_ok data -> bytes_ok (Rc4.rc4_crypt key data)).
Proof.
  split; [apply Rc4.rc4_rc4|]. split; [apply Rc4.rc4_len|].
  split; [apply Rc4.ksa_ok|apply Rc4.rc4_bytes].
Qed.

(** ** compress.c

    [zlib] is [compress2] or [uncompress]: the result that fits the capacity
    [cap], [None] when the call fails. An empty source gives an empty result
    without a call. *)

Definition compress_data (zlib : list Z -> Z -> option (list Z)) (src : list Z) (cap : Z) : option (list Z) :=
  if len src =? 0 then Some [] else zlib src cap.
Definition uncompress_data (zlib : list Z -> Z -> option (list Z)) (src : list Z) (cap : Z) : option (list Z) :=
  if len src =? 0 then Some [] else zlib src cap.

Lemma len_fips_pad data : len (Sha0.fips_pad data) = Sha0.padded (len data).
Proof.
  unfold Sha0.fips_pad. destruct (Sha0.padded_bounds (len data)); [apply len_nonneg|]. slia.
Qed.

Lemma fips_pad_inj d d' :
  len d * 8 < 2 ^ 64 -> len d' * 8 < 2 ^ 64 -> Sha0.fips_pad d = Sha0.fips_pad d' -> d = d'.
Proof.
  intros Hd Hd' E. pose proof (len_nonneg d). pose proof (len_nonneg d').
  assert (Hlast : forall x, len x * 8 < 2 ^ 64 ->
    be_dec (dr (len (Sha0.fips_pad x) - 8) (Sha0.fips_pad x)) = len x * 8).
  { intros x Hx. pose proof (len_nonneg x). destruct (Sha0.padded_bounds (len x)) as [Hp _]; [lia|].
    unfold Sha0.fips_pad at 2. rewrite !app_assoc, dr_app_exact.
    - apply be_dec_enc. change (256 ^ Z.of_nat 8) with (2 ^ 64). lia.
    - rewrite len_fips_pad. slia. }
  assert (Hlen : len d = len d').
  { pose proof (Hlast d Hd) as H1. rewrite E, (Hlast d' Hd') in H1. lia. }
  unfold Sha0.fips_pad in E. apply app_inj_1 in E as [E _]; [done|]. unfold len in Hlen. lia.
Qed.

Lemma len_block h blk : len (Sha0.block h blk) = 5.
Proof. unfold Sha0.block. by destruct (fold_left _ _ _) as [[[[] ] ] ]. Qed.

Lemma len_fold (g : list Z -> Z -> list Z) n l h :
  (forall h k, len (g h k) = n) -> len h = n -> len (fold_left g l h) = n.
Proof.
  intros Hg. revert h. induction l as [|k l IH]; intros h Hh; [done|]. cbn [fold_left]. apply IH, Hg.
Qed.

Lemma len_words h : len (mjoin (map w32 h)) = 4 * len h.
Proof.
  induction h as [|x h IH]; [done|]. cbn [map]. change (mjoin (w32 x :: map w32 h)) with
    (w32 x ++ mjoin (map w32 h)). rewrite w32_enc. slia.
Qed.

Lemma len_sha0 data : len (Sha0.sha0_hash data) = 20.
Proof.
  unfold Sha0.sha0_hash. rewrite len_words, (len_fold _ 5); [done| |done].
  intros h k. apply len_block.
Qed.

(** The SHA-0 input buffer is the standard padding (0x80, zeros, 64-bit
    big-endian bit count) rounded up to whole 64-byte blocks, different
    messages give different buffers, and the digest is always 20 bytes. *)
Theorem sha0_padding_standard data data' :
  len data * 8 < 2 ^ 64 -> len data' * 8 < 2 ^ 64 ->
  Sha0.pad data = Sha0.fips_pad data /\ len (Sha0.pad data) mod 64 = 0 /\
  (Sha0.pad data = Sha0.pad data' -> data = data') /\
  len (Sha0.sha0_hash data) = 20.
Proof.
  intros H H'. rewrite !Sha0.pad_fips by done. split; [done|]. split; [|split].
  - rewrite len_fips_pad. apply Sha0.padded_bounds, len_nonneg.
  - by apply fips_pad_inj.
  - apply len_sha0.
Qed.

Lemma sha0_padding_standard_witness :
  Sha0.pad [97; 98; 99] = Sha0.fips_pad [97; 98; 99].
Proof. apply (sha0_padding_standard [97; 98; 99] []); reflexivity. Defined.
