(* ===== verification/Fifo.v ===== *)
(** * The ring-buffer FIFO of the R-UDP transport (rudp_transport.c)

    [rt_fifo_t] over an explicit heap block: every [memcpy] is checked against
    the block and yields [Ub] outside it. [contents] is the abstract queue of
    bytes; the operations are proved to be append, prefix and drop on it. *)
From S2P Require Import Prelude Ring.

Record rt_fifo := Fifo { f_buf : list Z; f_cap : Z; f_head : Z; f_size : Z }.
#[export] Instance eta_fifo : Eta rt_fifo := fun f => Fifo (f_buf f) (f_cap f) (f_head f) (f_size f).

Definition rt_fifo_init (malloc : Z -> option (list Z)) (cap : Z) : rt_fifo :=
  match malloc cap with
  | Some blk => Fifo blk cap 0 0
  | None => Fifo [] 0 0 0
  end.

Definition rt_fifo_free (f : rt_fifo) : rt_fifo := Fifo [] 0 0 0.

Definition rt_fifo_avail (f : rt_fifo) : Z := u32 (f_cap f - f_size f).

(** The two-part copies at the end and at the start of the block. *)
Definition ring_store (data : list Z) (off cap : Z) (buf : list Z) : res (list Z) :=
  let n := len data in
  let n1 := u32 (cap - off) in
  let n1 := if n1 >? n then n else n1 in
  buf ← blit (tk n1 data) off buf;
  if n >? n1 then blit (dr n1 data) 0 buf else Ok buf.

Definition ring_load (n off cap : Z) (buf : list Z) : res (list Z) :=
  let n1 := u32 (cap - off) in
  let n1 := if n1 >? n then n else n1 in
  a ← fetch off n1 buf;
  b ← (if n >? n1 then fetch 0 (n - n1) buf else Ok []);
  Ok (a ++ b).

(** [Err] is the return value -1; a zero capacity would divide by zero. *)
Definition rt_fifo_write (f : rt_fifo) (data : list Z) : res rt_fifo :=
  if len data >? rt_fifo_avail f then Err else
  if f_cap f =? 0 then Ub else
  let off := u32 (f_head f + f_size f) mod f_cap f in
  buf ← ring_store data off (f_cap f) (f_buf f);
  Ok (f <| f_buf := buf |> <| f_size := u32 (f_size f + len data) |>).

(** The bytes copied to the caller; their number is the return value. *)
Definition rt_fifo_peek (f : rt_fifo) (n : Z) : res (list Z) :=
  let n := if n >? f_size f then f_size f else n in
  ring_load n (f_head f) (f_cap f) (f_buf f).

Definition rt_fifo_advance (f : rt_fifo) (n : Z) : res rt_fifo :=
  let n := if n >? f_size f then f_size f else n in
  if f_cap f =? 0 then Ub else
  Ok (f <| f_head := u32 (f_head f + n) mod f_cap f |> <| f_size := f_size f - n |>).

(** ** The abstract queue *)

Definition fifo_ok (f : rt_fifo) : Prop :=
  len (f_buf f) = f_cap f /\ 0 < f_cap f < 2 ^ 31 /\ 0 <= f_head f < f_cap f /\
  0 <= f_size f <= f_cap f.

Definition contents (f : rt_fifo) : list Z :=
  tk (f_size f) (dr (f_head f) (f_buf f) ++ tk (f_head f) (f_buf f)).

#[global] Instance fifo_ok_dec f : Decision (fifo_ok f).
Proof. unfold fifo_ok. apply _. Defined.

Lemma len_contents f : fifo_ok f -> len (contents f) = f_size f.
Proof. intros (Hb & Hc & Hh & Hs). unfold contents. slia. Qed.

(** The queue seen from the two halves of the block around the head. *)
Lemma contents_halves a b cap h n :
  len a = h -> contents (Fifo (a ++ b) cap h n) = tk n (b ++ a).
Proof.
  intros <-. unfold contents; cbn [f_buf f_head f_size]. by rewrite dr_app_exact, (tk_app_exact _ a).
Qed.

Lemma fifo_write_full f data :
  fifo_ok f -> f_cap f - f_size f < len data -> rt_fifo_write f data = Err.
Proof.
  intros (Hb & Hc & Hh & Hs) Hn. unfold rt_fifo_write, rt_fifo_avail, u32.
  rewrite Z.mod_small by lia. by replace (_ >? _) with true by lia.
Qed.

Lemma ring_store_fit p q s data off cap :
  off = len p -> len q = len data -> len (p ++ q ++ s) = cap -> cap < 2 ^ 31 ->
  ring_store data off cap (p ++ q ++ s) = Ok (p ++ data ++ s).
Proof.
  intros Ho Hq Hc Hb. rewrite !len_app in Hc. pose proof (len_nonneg s). pose proof (len_nonneg p).
  pose proof (len_nonneg q). unfold ring_store, u32. rewrite Z.mod_small by lia.
  assert (Hn1 : (if cap - off >? len data then len data else cap - off) = len data)
    by (destruct (cap - off >? len data) eqn:?; lia).
  rewrite Hn1, tk_all, (blit_at p q s data), bind_ok by lia. by replace (_ >? _) with false by lia.
Qed.

Lemma ring_store_wrap p m s x y off cap :
  off = len (p ++ m) -> len s = len x -> len p = len y -> 0 < len y ->
  len ((p ++ m) ++ s) = cap -> cap < 2 ^ 31 ->
  ring_store (x ++ y) off cap ((p ++ m) ++ s) = Ok ((y ++ m) ++ x).
Proof.
  intros Ho Hs Hp Hy Hc Hb. rewrite !len_app in *. pose proof (len_nonneg s). pose proof (len_nonneg m).
  unfold ring_store, u32. rewrite Z.mod_small by lia. rewrite len_app.
  replace (_ >? len x + len y) with false by lia. replace (len x + len y >? _) with true by lia.
  rewrite (tk_app_exact _ x), (dr_app_exact _ x) by lia.
  rewrite <- (app_nil_r s), (blit_at (p ++ m) s [] x), bind_ok by slia.
  rewrite app_nil_r, <- (app_assoc p m x).
  change (p ++ m ++ x) with ([] ++ p ++ (m ++ x)). rewrite (blit_at [] p) by (done || lia).
  cbn [app]. by rewrite app_assoc.
Qed.

Lemma fifo_write_result a b cap h n data :
  fifo_ok (Fifo (a ++ b) cap h n) -> len a = h -> len data <= cap - n ->
  (exists a' b', ring_store data ((h + n) mod cap) cap (a ++ b) = Ok (a' ++ b') /\
     len a' = h /\ len b' = len b /\ tk (n + len data) (b' ++ a') = tk n (b ++ a) ++ data) ->
  exists f', rt_fifo_write (Fifo (a ++ b) cap h n) data = Ok f' /\ fifo_ok f' /\
    f_cap f' = cap /\ contents f' = contents (Fifo (a ++ b) cap h n) ++ data.
Proof.
  intros (Hb & Hc & Hh & Hs) Ha Hn (a' & b' & Hst & Ha' & Hb' & Heq).
  cbn [f_buf f_cap f_head f_size] in *. rewrite len_app in Hb. pose proof (len_nonneg data).
  exists (Fifo (a' ++ b') cap h (n + len data)).
  split; [|split; [|split; [done|by rewrite !contents_halves]]].
  - unfold rt_fifo_write, rt_fifo_avail, u32. cbn [f_buf f_cap f_head f_size].
    rewrite (Z.mod_small (cap - n)), (Z.mod_small (h + n)) by lia.
    replace (_ >? _) with false by lia. replace (cap =? 0) with false by lia.
    rewrite Hst, bind_ok, Z.mod_small by lia. done.
  - unfold fifo_ok. cbn [f_buf f_cap f_head f_size]. rewrite len_app. lia.
Qed.

Lemma fifo_write_ok f data :
  fifo_ok f -> len data <= f_cap f - f_size f ->
  exists f', rt_fifo_write f data = Ok f' /\ fifo_ok f' /\ f_cap f' = f_cap f /\
    contents f' = contents f ++ data.
Proof.
  intros Hok Hn. pose proof Hok as (Hb & Hc & Hh & Hs). destruct f as [buf cap h n].
  cbn [f_buf f_cap f_head f_size] in *. pose proof (len_nonneg data).
  destruct (split_len h buf) as (a & b & -> & Ha); [lia|].
  apply (fifo_write_result a b cap h n data); [done..|]. rewrite len_app in Hb.
  destruct (decide (h + n < cap)) as [Hlt|Hge].
  - rewrite (Z.mod_small (h + n) cap) by lia.
    destruct (split_len n b) as (c & d & -> & Hcn); [slia|]. rewrite len_app in *.
    destruct (decide (len data <= cap - (h + n))) as [Hfit|Hwrap].
    + destruct (split_len (len data) d) as (d1 & d2 & -> & Hd); [slia|]. rewrite len_app in *.
      exists a, (c ++ data ++ d2). rewrite !(app_assoc a c).
      rewrite (ring_store_fit (a ++ c) d1 d2 data) by slia.
      split; [done|]. split; [done|]. split; [slia|].
      rewrite <- !app_assoc, (tk_app_exact n c), (app_assoc c data), tk_app_exact by slia. done.
    + destruct (split_len (cap - (h + n)) data) as (x & y & -> & Hx); [lia|]. rewrite len_app in *.
      destruct (split_len (len y) a) as (a1 & a2 & -> & Ha1); [slia|]. rewrite len_app in *.
      exists (y ++ a2), (c ++ x). split; [|split; [slia|split; [slia|]]].
      * rewrite (app_assoc (a1 ++ a2) c d), <- (app_assoc a1 a2 c).
        rewrite (ring_store_wrap a1 (a2 ++ c) d x y) by slia. by rewrite <- !app_assoc.
      * rewrite <- (app_assoc c d), (tk_app_exact n c) by done.
        replace ((c ++ x) ++ y ++ a2) with ((c ++ x ++ y) ++ a2) by (by rewrite <- !app_assoc).
        by rewrite tk_app_exact by slia.
  - rewrite (mod_wrap (h + n) cap) by lia.
    destruct (split_len (h + n - cap) a) as (a1 & a2 & -> & Ha1); [lia|]. rewrite len_app in *.
    destruct (split_len (len data) a2) as (e & g & -> & He); [slia|]. rewrite len_app in *.
    exists (a1 ++ data ++ g), b. split; [|split; [slia|split; [done|]]].
    + rewrite <- !app_assoc. apply ring_store_fit; slia.
    + rewrite (app_assoc b a1 (e ++ g)), (tk_app_exact n) by slia.
      replace (b ++ a1 ++ data ++ g) with ((b ++ a1 ++ data) ++ g) by (by rewrite <- !app_assoc).
      rewrite tk_app_exact by slia. by rewrite <- app_assoc.
Qed.

Lemma fifo_peek_ok f n :
  fifo_ok f -> 0 <= n -> rt_fifo_peek f n = Ok (tk n (contents f)).
Proof.
  intros Hok Hn. pose proof (len_contents f Hok) as Hl. pose proof Hok as (Hb & Hc & Hh & Hs).
  destruct f as [buf cap h k]. cbn [f_buf f_cap f_head f_size] in *.
  unfold rt_fifo_peek. cbn [f_buf f_cap f_head f_size].
  set (m := if n >? k then k else n). assert (Hm : 0 <= m <= k) by (unfold m; destruct (_ >? _) eqn:?; lia).
  replace (tk n (contents _)) with (tk m (contents (Fifo buf cap h k))).
  2:{ unfold m. destruct (_ >? _) eqn:?; [|done]. rewrite !tk_all; [done|lia..]. }
  clearbody m.
  destruct (split_len h buf) as (a & b & -> & Ha); [lia|]. rewrite len_app in Hb.
  rewrite contents_halves, tk_tk, Z.min_l by lia.
  unfold ring_load, u32. rewrite Z.mod_small by lia.
  destruct (decide (m <= cap - h)).
  - destruct (split_len m b) as (b1 & b2 & -> & Hb1); [slia|]. rewrite len_app in *.
    assert (Hn1 : (if cap - h >? m then m else cap - h) = m) by (destruct (cap - h >? m) eqn:?; lia).
    rewrite Hn1, (fetch_at a b1 b2 h m), bind_ok by lia. replace (m >? m) with false by lia.
    rewrite bind_ok, app_nil_r, <- app_assoc, tk_app_exact by done. done.
  - replace (cap - h >? m) with false by lia. replace (m >? cap - h) with true by lia.
    destruct (split_len (m - (cap - h)) a) as (a1 & a2 & -> & Ha1); [lia|]. rewrite len_app in *.
    rewrite <- (app_nil_r b) at 1. rewrite (fetch_at (a1 ++ a2) b [] h (cap - h)), bind_ok by slia.
    rewrite <- app_assoc. change (a1 ++ a2 ++ b) with ([] ++ a1 ++ (a2 ++ b)).
    rewrite (fetch_at [] a1 _ 0 _), bind_ok by (done || slia).
    rewrite app_assoc, tk_app_exact by slia. done.
Qed.

Lemma fifo_advance_ok f n :
  fifo_ok f -> 0 <= n -> n <= f_size f ->
  exists f', rt_fifo_advance f n = Ok f' /\ fifo_ok f' /\ f_cap f' = f_cap f /\
    contents f' = dr n (contents f).
Proof.
  intros Hok Hn Hle. pose proof Hok as (Hb & Hc & Hh & Hs). destruct f as [buf cap h k].
  cbn [f_buf f_cap f_head f_size] in *. unfold rt_fifo_advance, u32. cbn [f_buf f_cap f_head f_size].
  replace (n >? k) with false by lia. replace (cap =? 0) with false by lia. rewrite (Z.mod_small (h + n) (2 ^ 32)) by lia.
  destruct (split_len h buf) as (a & b & -> & Ha); [lia|]. rewrite len_app in Hb.
  exists (Fifo (a ++ b) cap ((h + n) mod cap) (k - n)). split; [done|].
  split; [|split; [done|]].
  - unfold fifo_ok. cbn [f_buf f_cap f_head f_size]. pose proof (Z.mod_pos_bound (h + n) cap). slia.
  - rewrite (contents_halves a b cap h k) by done. destruct (decide (h + n < cap)) as [Hlt|Hge].
    + rewrite Z.mod_small by lia. destruct (split_len n b) as (b1 & b2 & -> & Hb1); [lia|].
      rewrite len_app in *. rewrite app_assoc, contents_halves, <- (app_assoc b1) by slia.
      rewrite (tk_app k b1), (tk_all k b1), dr_app_exact by lia.
      by rewrite app_assoc, (tk_app _ (b2 ++ a)), (tk_0 b1), app_nil_r, Hb1 by slia.
    + rewrite mod_wrap by lia. destruct (split_len (h + n - cap) a) as (a1 & a2 & -> & Ha1); [lia|].
      rewrite len_app in *. rewrite <- app_assoc, contents_halves by done.
      replace (b ++ a1 ++ a2) with ((b ++ a1) ++ a2) by (by rewrite app_assoc).
      rewrite (tk_app k (b ++ a1)), (tk_all k), dr_app_exact by slia.
      rewrite <- app_assoc, (tk_app _ a2), (tk_0 (b ++ a1)), app_nil_r by slia. f_equal. slia.
Qed.
