(* ===== verification/Rt.v ===== *)
(** * R-UDP transport: state and environment (rudp_transport.c)

    The worker thread owns a session ([rt_session]) inside a transport
    ([transport]). [world] adds what the code exchanges with its environment:
    clock readings, CSPRNG calls, datagrams handed to [sendto], bytes moved
    over the socket pair. [M] is the state monad over [world]; its [Ub] result
    is an access outside an array. Clock, CSPRNG and SHA-1 are section
    variables of the files that use them. *)
From S2P Require Import Prelude Bytes Fifo.

Definition RT_STATUS_CONNECT_SENT : Z := 0.
Definition RT_STATUS_ESTABLISHED : Z := 1.
Definition RT_STATUS_DISCONNECTED : Z := 2.

Definition RUDP_T_SHA1_SIZE : Z := 20.
Definition RUDP_T_RESEND_TIMER : Z := 200.
Definition RUDP_T_RESEND_TIMER_MAX : Z := 4792.
Definition RUDP_T_KEEPALIVE_MIN : Z := 2500.
Definition RUDP_T_KEEPALIVE_MAX : Z := 4792.
Definition RUDP_T_TIMEOUT_MS : Z := 12000.
Definition RUDP_T_LOOP_WAIT_MS : Z := 100.
Definition RUDP_T_MAX_SEGMENT_SIZE : Z := 512.
Definition RUDP_T_MAX_NUM_ACK : Z := 64.
Definition RUDP_T_ICMP_ECHO_INTERVAL_MIN : Z := 1000.
Definition RUDP_T_ICMP_ECHO_INTERVAL_MAX : Z := 3000.
Definition RUDP_T_MAX_FIFO_SIZE : Z := 512 * 1024.
Definition RUDP_T_MAX_PACKET_SIZE : Z :=
  RUDP_T_MAX_SEGMENT_SIZE + 8 * RUDP_T_MAX_NUM_ACK + RUDP_T_SHA1_SIZE * 2 + 8 * 4 + 4 + 255.

Definition RUDP_T_ERR_OK : Z := 0.
Definition RUDP_T_ERR_UNKNOWN : Z := 1.
Definition RUDP_T_ERR_TIMEOUT : Z := 2.
Definition RUDP_T_MODE_UDP : Z := 0.
Definition RUDP_T_MODE_DNS : Z := 1.
Definition RUDP_T_MODE_ICMP : Z := 2.

(** [s_data] holds the [size] payload bytes; the rest of the C array stays
    zero and is never read. *)
Record rt_segment := Segment {
  s_seq : Z; s_data : list Z; s_next_send_tick : Z; s_num_sent : Z }.
#[export] Instance eta_segment : Eta rt_segment :=
  fun s => Segment (s_seq s) (s_data s) (s_next_send_tick s) (s_num_sent s).

(** The counters [send_count], [recv_count] and [reply_ack_count] are the
    lengths of the lists. *)
Record rt_session := Session {
  status : Z;
  key_init : list Z; key_send : list Z; key_recv : list Z;
  magic_req : list Z; magic_resp : list Z; magic_disconnect : Z; next_iv : list Z;
  next_send_seq : Z; last_recv_complete_seq : Z; your_tick : Z;
  latest_recv_my_tick : Z; latest_recv_my_tick2 : Z; current_rtt : Z;
  last_sent_tick : Z; next_keepalive_interval : Z; created_tick : Z;
  next_icmp_echo_tick : Z; your_ip : Z; your_port : Z;
  send_segments : list rt_segment; recv_segments : list rt_segment; reply_acks : list Z;
  send_fifo : rt_fifo; recv_fifo : rt_fifo }.
#[export] Instance eta_session : Eta rt_session := fun s => Session
  (status s) (key_init s) (key_send s) (key_recv s) (magic_req s) (magic_resp s)
  (magic_disconnect s) (next_iv s) (next_send_seq s) (last_recv_complete_seq s) (your_tick s)
  (latest_recv_my_tick s) (latest_recv_my_tick2 s) (current_rtt s) (last_sent_tick s)
  (next_keepalive_interval s) (created_tick s) (next_icmp_echo_tick s) (your_ip s) (your_port s)
  (send_segments s) (recv_segments s) (reply_acks s) (send_fifo s) (recv_fifo s).

Record transport := Transport {
  udp_fd : Z; app_fd : Z; worker_fd : Z; error_code : Z; halt : bool;
  thread_started : bool; connect_timeout_ms : Z; result_ready : bool; result_ok : bool;
  transport_mode : Z; dns_tran_id : Z; client_icmp_id : list Z; client_icmp_seq : list Z;
  icmp_type : Z; svc_name_hash_valid : bool; svc_name_hash : list Z; se : rt_session }.
#[export] Instance eta_transport : Eta transport := fun t => Transport
  (udp_fd t) (app_fd t) (worker_fd t) (error_code t) (halt t) (thread_started t)
  (connect_timeout_ms t) (result_ready t) (result_ok t) (transport_mode t) (dns_tran_id t)
  (client_icmp_id t) (client_icmp_seq t) (icmp_type t) (svc_name_hash_valid t)
  (svc_name_hash t) (se t).

(** What [recv] and [send] on the worker end of the socket pair return:
    bytes or a count, an orderly close, or a hard error. A list of results
    that is used up stands for EAGAIN. *)
Inductive recv_result : Type := RData (bs : list Z) | RClosed | RError.
Inductive send_result : Type := SCount (n : Z) | SError.

Record world := World {
  w_t : transport;
  w_ticks : nat;                   (** clock readings so far *)
  w_rands : nat;                   (** CSPRNG calls so far *)
  w_udp : list (list Z);           (** datagrams given to [sendto] *)
  w_app : list Z;                  (** bytes delivered to the application *)
  w_app_in : list recv_result;     (** pending input of the worker end *)
  w_app_room : list send_result;   (** coming results of [send] *)
  w_shut : bool }.                 (** [shutdown(worker_fd)] was called *)
#[export] Instance eta_world : Eta world := fun w => World
  (w_t w) (w_ticks w) (w_rands w) (w_udp w) (w_app w) (w_app_in w) (w_app_room w) (w_shut w).

(** ** The monad

    The worker's operations run in [St world] of the prelude. *)

Abbreviation M := (St world).

Definition get_t : M transport := gets w_t.
Definition get_se : M rt_session := gets (fun w => se (w_t w)).
Definition modify_t (f : transport -> transport) : M unit :=
  modify (fun w => w <| w_t := f (w_t w) |>).
Definition modify_se (f : rt_session -> rt_session) : M unit :=
  modify_t (fun t => t <| se := f (se t) |>).
