(* ===== verification/RtCodec.v ===== *)
(** * R-UDP transport: packets out and in (rudp_transport.c)

    [rt_send_udp] (plain, DNS and ICMP framing), [rt_send_segment_now] (sign,
    IV, RC4, acknowledgements, padding), the acknowledgement and receive-queue
    operations, and [rt_handle_udp_packet]. Every array access of the packet
    buffers is checked. *)
From S2P Require Import Prelude Bytes Crypto Fifo Rt.

(** ** Acknowledgements and the receive queue *)

(** Drop the first in-flight segment with this sequence number. *)
Fixpoint remove_seq (seq : Z) (l : list rt_segment) : list rt_segment :=
  match l with
  | [] => []
  | s :: l => if s_seq s =? seq then l else s :: remove_seq seq l
  end.

Definition rt_process_ack (seq : Z) (s : rt_session) : rt_session :=
  s <| send_segments := remove_seq seq (send_segments s) |>.

(** The index loop of the cumulative acknowledgement: at each index either
    the segment is removed and the index kept, or the index advances. *)
Fixpoint remove_upto (max_seq : Z) (l : list rt_segment) : list rt_segment :=
  match l with
  | [] => []
  | s :: l => if s_seq s <=? max_seq then remove_upto max_seq l else s :: remove_upto max_seq l
  end.

Definition rt_process_ack2 (max_seq : Z) (s : rt_session) : rt_session :=
  s <| send_segments := remove_upto max_seq (send_segments s) |>.

Definition rt_add_ack (seq : Z) (s : rt_session) : rt_session :=
  if existsb (Z.eqb seq) (reply_acks s) then s
  else if len (reply_acks s) <? RUDP_T_MAX_NUM_ACK
       then s <| reply_acks := reply_acks s ++ [seq] |> else s.

Definition rt_process_recv_payload (seq : Z) (payload : list Z) (s : rt_session) : rt_session :=
  if seq >? u64 (last_recv_complete_seq s + RUDP_T_MAX_NUM_ACK) then s
  else if seq <=? last_recv_complete_seq s then rt_add_ack seq s
  else if existsb (fun x => s_seq x =? seq) (recv_segments s) then rt_add_ack seq s
  else if len (recv_segments s) >=? RUDP_T_MAX_NUM_ACK then s
  else rt_add_ack seq (s <| recv_segments := recv_segments s ++ [Segment seq payload 0 0] |>).

(** Append to the send queue under the next sequence number; a full queue
    drops the data. [size] is at most the segment array. *)
Definition rt_queue_segment (data : list Z) (s : rt_session) : res rt_session :=
  if len (send_segments s) >=? RUDP_T_MAX_NUM_ACK then Ok s
  else if len data >? RUDP_T_MAX_SEGMENT_SIZE then Ub
  else Ok (s <| send_segments := send_segments s ++ [Segment (next_send_seq s) data 0 0] |>
             <| next_send_seq := u64 (next_send_seq s + 1) |>).

(** ** Datagram framing *)

Definition hex_digit (n : Z) : Z := if n <? 10 then 48 + n else 97 + (n - 10).
Definition hex_str (bs : list Z) : list Z :=
  mjoin (map (fun b => [hex_digit (Z.land (b ≫ 4) 15); hex_digit (Z.land b 15)]) bs).

(** A packet buffer of [cap] bytes that has been filled with [bs]. *)
Definition filled (cap : Z) (bs : list Z) : res (list Z) := if len bs <=? cap then Ok bs else Ub.

Definition dns_frame (tran_id : Z) (rand_data data : list Z) : list Z :=
  [u8 (tran_id ≫ 8); Z.land tran_id 255] ++
  [1; 0; 0; 1; 0; 0; 0; 0; 0; 1; 8] ++
  hex_str rand_data ++
  [0; 0; 48; 0; 1; 0; 41; 16; 0; 0; 0; 128; 0] ++
  [u8 (len data ≫ 8); Z.land (len data) 255] ++ data.

(** The one's-complement sum over 16-bit words; an odd last byte is the high
    half of its word. *)
Fixpoint icmp_sum (sum : Z) (pkt : list Z) : Z :=
  match pkt with
  | a :: b :: pkt => icmp_sum (u32 (sum + Z.lor (a ≪ 8) b)) pkt
  | [a] => u32 (sum + a ≪ 8)
  | [] => sum
  end.

Fixpoint icmp_fold (fuel : nat) (sum : Z) : res Z :=
  match fuel with
  | O => Ub
  | S fuel => if sum ≫ 16 =? 0 then Ok sum
              else icmp_fold fuel (u32 (Z.land sum 65535 + sum ≫ 16))
  end.

Definition icmp_checksum (pkt : list Z) : res Z :=
  sum ← icmp_fold 4 (icmp_sum 0 pkt);
  Ok (u16 (Z.land (Z.lnot sum) 65535)).

Definition xor_bytes (a b : list Z) : list Z := zip_with Z.lxor a b.

Section codec.
Context (sha1 : list Z -> list Z) (tick : nat -> Z) (rand : nat -> Z -> bool * list Z).

Definition rt_tick64 : M Z := fun w =>
  Ok (tick (w_ticks w), w <| w_ticks := S (w_ticks w) |>).
(** Success, and what the buffer holds after the call. *)
Definition generate_random_bytes (n : Z) : M (bool * list Z) := fun w =>
  Ok (rand (w_rands w) n, w <| w_rands := S (w_rands w) |>).
Definition rt_rand_u32 : M Z :=
  r ← generate_random_bytes 4;
  mret (if fst r : bool then r32 (snd r) else 0).

Definition icmp_frame (t : transport) (data : list Z) : res (list Z) :=
  let hd c := [icmp_type t; 0] ++ c ++ tk 2 (client_icmp_id t) ++ tk 2 (client_icmp_seq t) in
  let rest := sha1 data ++ data in
  pkt ← filled (RUDP_T_MAX_PACKET_SIZE + 64) (hd [0; 0] ++ rest);
  cksum ← icmp_checksum pkt;
  Ok (hd [u8 (cksum ≫ 8); Z.land cksum 255] ++ rest).

Definition rt_send_udp (data : list Z) : M unit :=
  t ← get_t;
  let size := len data in
  pkt ← (if transport_mode t =? RUDP_T_MODE_DNS then
           r ← generate_random_bytes 4;
           lift (filled (RUDP_T_MAX_PACKET_SIZE + 64) (dns_frame (dns_tran_id t) (snd r) data))
         else if transport_mode t =? RUDP_T_MODE_ICMP then lift (icmp_frame t data)
         else mret data);
  modify (fun w => w <| w_udp := w_udp w ++ [pkt] |>);;
  when (size >=? 1) (now ← rt_tick64; modify_se (fun s => s <| last_sent_tick := now |>));;
  if transport_mode t =? RUDP_T_MODE_UDP then
    r ← rt_rand_u32;
    let next_iv_pos := r mod (if size >? RUDP_T_SHA1_SIZE then size - RUDP_T_SHA1_SIZE else 1) in
    iv ← lift (fetch next_iv_pos RUDP_T_SHA1_SIZE data);
    modify_se (fun s => s <| next_iv := iv |>)
  else
    r ← generate_random_bytes RUDP_T_SHA1_SIZE;
    modify_se (fun s => s <| next_iv := snd r |>).

(** The packet after SIGN and IV, before encryption. *)
Definition segment_body (now : Z) (s : rt_session) (seq : Z) (data : list Z) (padlen : Z) : list Z :=
  let acks := tk RUDP_T_MAX_NUM_ACK (reply_acks s) in
  w64 now ++ w64 (your_tick s) ++ w64 (last_recv_complete_seq s) ++
  w32 (len acks) ++ mjoin (map w64 acks) ++ w64 seq ++ data ++
  replicate (Z.to_nat padlen) padlen.

Definition xor_hash (t : transport) (sign : list Z) : list Z :=
  if svc_name_hash_valid t then xor_bytes sign (svc_name_hash t) else sign.

(** Encrypt the body under SHA1(iv || Key_Send) and sign the whole packet
    with Key_Send in the SIGN slot. *)
Definition seal (t : transport) (key iv body : list Z) : list Z :=
  let enc := Rc4.rc4_crypt (sha1 (iv ++ key)) body in
  xor_hash t (sha1 (key ++ iv ++ enc)) ++ iv ++ enc.

Definition rt_send_segment_now (seq : Z) (data : list Z) : M unit :=
  t ← get_t;
  let s := se t in
  now ← rt_tick64;
  modify_se (fun s => s <| reply_acks := [] |>);;
  r ← rt_rand_u32;
  let padlen := u8 (u8 (r mod 255) + 1) in
  let body := segment_body now s seq data padlen in
  lift (filled RUDP_T_MAX_PACKET_SIZE (key_send s ++ next_iv s ++ body));;
  let pkt := seal t (key_send s) (next_iv s) body in
  rt_send_udp pkt;;
  when (len data >=? 1) (now ← rt_tick64; modify_se (fun s => s <| last_sent_tick := now |>));;
  r ← rt_rand_u32;
  iv ← lift (fetch (r mod u32 (len pkt - RUDP_T_SHA1_SIZE)) RUDP_T_SHA1_SIZE pkt);
  modify_se (fun s => s <| next_iv := iv |>).

(** ** Results and disconnection *)

Definition rt_signal_result (ok : bool) : M unit :=
  modify_t (fun t => if result_ready t then t
                     else t <| result_ready := true |> <| result_ok := ok |>).

Fixpoint repeat_m (n : nat) (m : M unit) : M unit :=
  match n with O => mret tt | S n => m;; repeat_m n m end.

Definition rt_set_disconnected (by_you : bool) : M unit :=
  s ← get_se;
  if status s =? RT_STATUS_DISCONNECTED then mret tt else
  when (negb by_you && (status s =? RT_STATUS_ESTABLISHED))
    (repeat_m 5 (rt_send_segment_now (magic_disconnect s) []));;
  modify_se (fun s => s <| status := RT_STATUS_DISCONNECTED |>);;
  t ← get_t;
  when (worker_fd t >=? 0) (modify (fun w => w <| w_shut := true |>));;
  rt_signal_result false.

(** ** Receiving a packet *)

Record rt_header := Header {
  h_my_tick : Z; h_your_tick : Z; h_max_ack : Z; h_acks : list Z; h_seq : Z; h_payload : list Z }.

(** Signature check, decryption and padding removal; [Err] is a silent
    return, [Ok] the header and payload bytes. *)
Definition rt_unseal (t : transport) (key : list Z) (buf : list Z) : res (list Z) :=
  let size := len buf in
  let pkt := tk (if size >? RUDP_T_MAX_PACKET_SIZE then RUDP_T_MAX_PACKET_SIZE else size) buf in
  let sign2 := xor_hash t (sha1 (key ++ dr RUDP_T_SHA1_SIZE pkt)) in
  _ ← fail_if (negb (bool_decide (tk RUDP_T_SHA1_SIZE pkt = sign2)));
  _ ← fail_if (len pkt <? RUDP_T_SHA1_SIZE * 2);
  let iv := slice RUDP_T_SHA1_SIZE RUDP_T_SHA1_SIZE pkt in
  let enc := Rc4.rc4_crypt (sha1 (iv ++ key)) (dr (RUDP_T_SHA1_SIZE * 2) pkt) in
  let enc_len := len enc in
  _ ← fail_if (enc_len <? 1);
  last ← fetch (enc_len - 1) 1 enc;
  let padlen := at0 last 0 in
  _ ← fail_if (padlen =? 0);
  _ ← fail_if (enc_len <? padlen);
  Ok (tk (enc_len - padlen) enc).

Fixpoint read_acks (n : nat) (off : Z) (enc : list Z) : res (list Z) :=
  match n with
  | O => Ok []
  | S n => a ← fetch off 8 enc; rest ← read_acks n (off + 8) enc; Ok (r64 a :: rest)
  end.

Definition rt_parse (enc : list Z) : res rt_header :=
  let enc_len := len enc in
  _ ← fail_if (enc_len <? 8 + 8 + 8 + 4 + 8);
  my ← fetch 0 8 enc;
  your ← fetch 8 8 enc;
  maxa ← fetch 16 8 enc;
  n ← fetch 24 4 enc;
  let num_ack := r32 n in
  _ ← fail_if (num_ack >? RUDP_T_MAX_NUM_ACK);
  _ ← fail_if (enc_len <? 8 + 8 + 8 + 4 + num_ack * 8 + 8);
  acks ← read_acks (Z.to_nat num_ack) 28 enc;
  seq ← fetch (28 + num_ack * 8) 8 enc;
  payload ← fetch (36 + num_ack * 8) (enc_len - (36 + num_ack * 8)) enc;
  Ok (Header (r64 my) (r64 your) (r64 maxa) acks (r64 seq) payload).

(** Acknowledgements carried by a packet: cumulative first, then each one. *)
Definition rt_apply_acks (h : rt_header) (s : rt_session) : rt_session :=
  let s := if h_max_ack h >=? 1 then rt_process_ack2 (h_max_ack h) s else s in
  fold_left (fun s a => rt_process_ack a s) (h_acks h) s.

Definition rt_apply_ticks (h : rt_header) (s : rt_session) : rt_session :=
  let my := if h_my_tick h >=? 2 then h_my_tick h - 1 else h_my_tick h in
  let s := if my >? your_tick s then s <| your_tick := my |> else s in
  if h_your_tick h >? latest_recv_my_tick s
  then s <| latest_recv_my_tick := h_your_tick h |> else s.

Definition rt_accept (src_port : Z) (h : rt_header) : M unit :=
  modify_se (fun s => rt_apply_ticks h (rt_apply_acks h s));;
  s ← get_se;
  when (negb (latest_recv_my_tick2 s =? latest_recv_my_tick s))
    (now_ms ← rt_tick64;
     modify_se (fun s =>
       s <| latest_recv_my_tick2 := latest_recv_my_tick s |>
         <| current_rtt := if now_ms >=? latest_recv_my_tick s
                           then u32 (now_ms - latest_recv_my_tick s) else 0 |>));;
  if h_seq h =? 0 then mret tt else
  if h_seq h =? magic_disconnect s then rt_set_disconnected true else
  let payload := if len (h_payload h) >? RUDP_T_MAX_SEGMENT_SIZE then [] else h_payload h in
  when (len payload >=? 1) (modify_se (rt_process_recv_payload (h_seq h) payload));;
  s ← get_se;
  when (status s =? RT_STATUS_CONNECT_SENT)
    (modify_se (fun s => s <| status := RT_STATUS_ESTABLISHED |>);; rt_signal_result true);;
  modify_se (fun s => s <| your_port := src_port |>).

Definition rt_handle_udp_packet (src_ip src_port : Z) (buf : list Z) : M unit :=
  t ← get_t;
  let s := se t in
  let size := len buf in
  if status s =? RT_STATUS_DISCONNECTED then mret tt else
  if size <? RUDP_T_SHA1_SIZE then mret tt else
  if size <? 20 then
    when ((status s =? RT_STATUS_CONNECT_SENT) && (src_ip =? your_ip s))
      (modify_se (fun s => s <| your_port := src_port |>))
  else
    match rt_unseal t (key_recv s) buf with
    | Ub => lift Ub
    | Err => mret tt
    | Ok enc =>
        match rt_parse enc with
        | Ub => lift Ub
        | Err => mret tt
        | Ok h =>
            now ← rt_tick64;
            if h_your_tick h >? now then mret tt else rt_accept src_port h
        end
    end.

End codec.
