(* ===== verification/RtSession.v ===== *)
(** * R-UDP transport: the worker's periodic processing (rudp_transport.c)

    The pumps between the socket pair and the FIFOs, segmentation of the send
    FIFO, [rt_interrupt] with its drain and retransmission loops, the poll
    timeout, key derivation and the worker loop. *)
From S2P Require Import Prelude Bytes Crypto Fifo Rt RtCodec.

Section session.
Context (sha1 : list Z -> list Z) (tick : nat -> Z) (rand : nat -> Z -> bool * list Z).
Abbreviation rt_rand_u32 := (rt_rand_u32 rand).
Abbreviation rt_tick64 := (rt_tick64 tick).
Abbreviation generate_random_bytes := (generate_random_bytes rand).
Abbreviation rt_send_udp := (rt_send_udp sha1 tick rand).
Abbreviation rt_send_segment_now := (rt_send_segment_now sha1 tick rand).
Abbreviation rt_set_disconnected := (rt_set_disconnected sha1 tick rand).

(** ** Socket pair and FIFOs *)

(** One pass of the flush loop per result of [send]; the list of results
    running out is EAGAIN. *)
Fixpoint pump_recv_loop (room : list send_result) : M unit :=
  s ← get_se;
  if f_size (recv_fifo s) >=? 1 then
    let n := if f_size (recv_fifo s) >? RUDP_T_MAX_SEGMENT_SIZE
             then RUDP_T_MAX_SEGMENT_SIZE else f_size (recv_fifo s) in
    tmp ← lift (rt_fifo_peek (recv_fifo s) n);
    match room with
    | [] => mret tt
    | SError :: room =>
        modify (fun w => w <| w_app_room := room |>);; rt_set_disconnected false
    | SCount k :: room =>
        modify (fun w => w <| w_app_room := room |>);;
        if k =? 0 then mret tt else
        modify (fun w => w <| w_app := w_app w ++ tk k tmp |>);;
        f ← lift (rt_fifo_advance (recv_fifo s) k);
        modify_se (fun s => s <| recv_fifo := f |>);;
        pump_recv_loop room
    end
  else mret tt.

Definition rt_pump_recv_to_pair : M unit := room ← gets w_app_room; pump_recv_loop room.

(** [rt_fifo_write]'s result is ignored, as in the source. *)
Definition fifo_put (f : rt_fifo) (data : list Z) : res rt_fifo :=
  match rt_fifo_write f data with Ub => Ub | Err => Ok f | Ok f => Ok f end.

Fixpoint pump_send_loop (inp : list recv_result) : M unit :=
  s ← get_se;
  if f_size (send_fifo s) >=? RUDP_T_MAX_FIFO_SIZE then mret tt else
  match inp with
  | [] => mret tt
  | (RError | RClosed) :: inp =>
      modify (fun w => w <| w_app_in := inp |>);; rt_set_disconnected false
  | RData tmp :: inp =>
      modify (fun w => w <| w_app_in := inp |>);;
      f ← lift (fifo_put (send_fifo s) tmp);
      modify_se (fun s => s <| send_fifo := f |>);;
      pump_send_loop inp
  end.

Definition rt_pump_pair_to_send : M unit := inp ← gets w_app_in; pump_send_loop inp.

(** Cut the send FIFO into segments while the window is open; each pass queues
    one segment, so the window bounds the passes: [fuel] of the caller is one
    more than the window. *)
Definition window_full (s : rt_session) : bool :=
  let seq_min := match send_segments s with [] => 0 | x :: _ => s_seq x end in
  negb (seq_min =? 0) && (u64 (seq_min + RUDP_T_MAX_NUM_ACK - 1) <? next_send_seq s).

Fixpoint segment_loop (fuel : nat) (s : rt_session) : res rt_session :=
  match fuel with
  | O => Ub
  | S fuel =>
      if window_full s then Ok s else
      let size := f_size (send_fifo s) in
      if size =? 0 then Ok s else
      let size := if size >? RUDP_T_MAX_SEGMENT_SIZE then RUDP_T_MAX_SEGMENT_SIZE else size in
      tmp ← rt_fifo_peek (send_fifo s) size;
      s ← rt_queue_segment tmp s;
      f ← rt_fifo_advance (send_fifo s) size;
      segment_loop fuel (s <| send_fifo := f |>)
  end.

Definition rt_segment_send_fifo (s : rt_session) : res rt_session := segment_loop 66 s.

(** ** rt_interrupt *)

Definition rt_send_icmp_echo : M unit :=
  r ← rt_rand_u32;
  b ← generate_random_bytes (r mod 64 + 64);
  rt_send_udp (tk (r mod 64 + 64) (snd b)).

Definition echo_again (now : Z) : M unit :=
  r ← rt_rand_u32;
  modify_se (fun s => s <| next_icmp_echo_tick :=
    u64 (now + RUDP_T_ICMP_ECHO_INTERVAL_MIN +
         r mod (RUDP_T_ICMP_ECHO_INTERVAL_MAX - RUDP_T_ICMP_ECHO_INTERVAL_MIN)) |>).

Definition icmp_echo_due (now : Z) : M unit :=
  t ← get_t;
  when ((transport_mode t =? RUDP_T_MODE_ICMP) && (now >=? next_icmp_echo_tick (se t)))
    (rt_send_icmp_echo;; echo_again now).

Definition interrupt_connect_sent (now : Z) : M unit :=
  t ← get_t;
  let s := se t in
  when ((last_sent_tick s =? 0) || (u64 (now - last_sent_tick s) >=? RUDP_T_RESEND_TIMER))
    (r ← generate_random_bytes 19;
     let tmp := tk 20 (key_init s) ++ tk 19 (snd r) in
     (if transport_mode t =? RUDP_T_MODE_ICMP then
        rt_send_icmp_echo;; echo_again now;; rt_send_udp tmp;;
        modify_t (fun t => t <| icmp_type := 7 |>)
      else rt_send_udp tmp);;
     modify_se (fun s => s <| last_sent_tick := now |>));;
  when (u64 (now - created_tick s) >=? connect_timeout_ms t)
    (modify_t (fun t => t <| error_code := RUDP_T_ERR_TIMEOUT |>);; rt_set_disconnected false);;
  icmp_echo_due now.

(** Deliver segments while the one at the front has the next sequence number.
    [None] in the second component: stop here, the segment stays queued. *)
Definition drain_one (x : rt_segment) (s : rt_session) : res (option rt_session) :=
  if (len (s_data x) =? RUDP_T_SHA1_SIZE) && bool_decide (s_data x = magic_req s) then
    match send_segments s with
    | [] => s ← rt_queue_segment (magic_resp s) s; Ok (Some s)
    | _ => Ok (Some s)
    end
  else if (len (s_data x) =? RUDP_T_SHA1_SIZE) && bool_decide (s_data x = magic_resp s) then
    Ok (Some s)
  else
    match rt_fifo_write (recv_fifo s) (s_data x) with
    | Ub => Ub
    | Err => Ok None
    | Ok f => Ok (Some (s <| recv_fifo := f |>))
    end.

Fixpoint drain_loop (l : list rt_segment) (cur : Z) (s : rt_session) : res rt_session :=
  match l with
  | [] => Ok (s <| recv_segments := [] |>)
  | x :: l' =>
      let cur := u64 (cur + 1) in
      if negb (s_seq x =? cur) then Ok (s <| recv_segments := l |>) else
      r ← drain_one x s;
      match r with
      | None => Ok (s <| recv_segments := l |>)
      | Some s => drain_loop l' cur (s <| last_recv_complete_seq := s_seq x |>)
      end
  end.

Definition rt_drain (s : rt_session) : res rt_session :=
  drain_loop (recv_segments s) (last_recv_complete_seq s) s.

Definition keepalive (now : Z) : M unit :=
  s ← get_se;
  when ((last_sent_tick s =? 0) || (now >=? u64 (last_sent_tick s + next_keepalive_interval s)))
    ((if len (send_segments s) =? 0
      then s ← lift (rt_queue_segment (magic_req s) s); modify_se (fun _ => s)
      else mret tt);;
     r ← rt_rand_u32;
     modify_se (fun s => s <| next_keepalive_interval :=
       RUDP_T_KEEPALIVE_MIN + r mod (RUDP_T_KEEPALIVE_MAX - RUDP_T_KEEPALIVE_MIN) |>)).

(** The retransmission interval, in [uint32_t]. *)
Definition resend_interval (rtt num_sent : Z) : Z :=
  let shift := if num_sent <? 10 then num_sent else 10 in
  let interval := if negb (rtt =? 0) then u32 (u32 (rtt * 120) / 100 * 2 ^ shift)
                  else u32 (RUDP_T_RESEND_TIMER * 2 ^ shift) in
  if interval >? RUDP_T_RESEND_TIMER_MAX then RUDP_T_RESEND_TIMER_MAX else interval.

Definition resend_one (now seq_min : Z) (j : nat) : M unit :=
  s ← get_se;
  match send_segments s !! j with
  | None => lift Ub
  | Some x =>
      if s_seq x >? u64 (seq_min + RUDP_T_MAX_NUM_ACK - 1) then mret tt else
      if negb (s_next_send_tick x =? 0) && (now <? s_next_send_tick x) then mret tt else
      let interval := resend_interval (current_rtt s) (s_num_sent x) in
      let x := x <| s_num_sent := u32 (s_num_sent x + 1) |>
                 <| s_next_send_tick := u64 (now + interval) |> in
      modify_se (fun s => s <| send_segments := <[j := x]> (send_segments s) |>);;
      rt_send_segment_now (s_seq x) (s_data x)
  end.

Fixpoint for_each (js : list nat) (f : nat -> M unit) : M unit :=
  match js with [] => mret tt | j :: js => f j;; for_each js f end.

Definition retransmit (now : Z) : M unit :=
  s ← get_se;
  let seq_min := match send_segments s with [] => 0 | x :: _ => s_seq x end in
  for_each (seq 0 (length (send_segments s))) (resend_one now seq_min).

(** [while (reply_ack_count >= 1)]: sending empties the list, so the second
    test ends the loop. *)
Fixpoint drain_acks (fuel : nat) : M unit :=
  match fuel with
  | O => lift Ub
  | S fuel =>
      s ← get_se;
      when (len (reply_acks s) >=? 1)
        (rt_send_segment_now (next_send_seq s) [];; drain_acks fuel)
  end.

Definition rt_interrupt (now : Z) : M unit :=
  s ← get_se;
  if status s =? RT_STATUS_CONNECT_SENT then interrupt_connect_sent now else
  if negb (status s =? RT_STATUS_ESTABLISHED) then mret tt else
  if now >=? u64 (latest_recv_my_tick s + RUDP_T_TIMEOUT_MS) then
    modify_t (fun t => t <| error_code := RUDP_T_ERR_TIMEOUT |>);; rt_set_disconnected false
  else
    s ← lift (rt_drain s);
    modify_se (fun _ => s);;
    rt_pump_recv_to_pair;;
    rt_pump_pair_to_send;;
    s ← get_se;
    s ← lift (rt_segment_send_fifo s);
    modify_se (fun _ => s);;
    keepalive now;;
    icmp_echo_due now;;
    retransmit now;;
    drain_acks 2.

(** ** The worker loop *)

Definition min_if (b : bool) (x d : Z) : Z := if b && (x <? d) then x else d.

Definition rt_compute_poll_timeout (t : transport) (now : Z) : Z :=
  let s := se t in
  let deadline := u64 (now + RUDP_T_LOOP_WAIT_MS) in
  let deadline :=
    if status s =? RT_STATUS_CONNECT_SENT then
      min_if true (u64 (created_tick s + connect_timeout_ms t))
        (min_if true (u64 (last_sent_tick s + RUDP_T_RESEND_TIMER)) deadline)
    else if status s =? RT_STATUS_ESTABLISHED then
      let d := min_if true (u64 (last_sent_tick s + next_keepalive_interval s)) deadline in
      let d := fold_left (fun d x => min_if (negb (s_next_send_tick x =? 0)) (s_next_send_tick x) d)
                 (send_segments s) d in
      let d := min_if true (u64 (latest_recv_my_tick s + RUDP_T_TIMEOUT_MS)) d in
      if (len (reply_acks s) >=? 1) || (f_size (recv_fifo s) >=? 1) || (f_size (send_fifo s) >=? 1)
      then now else d
    else deadline in
  if now >=? deadline then 0 else
  let diff := u64 (deadline - now) in
  if diff >? 1000 then 1000 else diff.

(** Strip the transport framing of a received datagram; [None] is [continue]. *)
Definition rt_strip (t : transport) (buf : list Z) : option (transport * list Z) :=
  let n := len buf in
  if transport_mode t =? RUDP_T_MODE_DNS then
    if n >? 42 then
      Some (t <| dns_tran_id := u16 (Z.lor (at0 buf 0 ≪ 8) (at0 buf 1)) |>, dr 42 buf)
    else None
  else if transport_mode t =? RUDP_T_MODE_ICMP then
    let ip_header_size :=
      if (n >=? 20) && (at0 buf 0 ≫ 4 =? 4) then Z.land (at0 buf 0) 15 * 4 else 0 in
    if n >=? ip_header_size + 28 then
      let type := at0 buf ip_header_size in
      if (type =? 0) || (type =? 7) || (type =? 15) || (type =? 8)
      then Some (t, dr (ip_header_size + 8 + RUDP_T_SHA1_SIZE) buf)
      else None
    else None
  else Some (t, buf).

(** The receive loop over the datagrams waiting on the UDP socket; [recvfrom]
    truncates each to the buffer, and an empty one ends the loop. *)
Fixpoint recv_loop (grams : list (Z * Z * list Z)) : M unit :=
  match grams with
  | [] => mret tt
  | (ip, port, dg) :: grams =>
      let buf := tk RUDP_T_MAX_PACKET_SIZE dg in
      if len buf =? 0 then mret tt else
      t ← get_t;
      match rt_strip t buf with
      | None => recv_loop grams
      | Some (t, payload) =>
          modify_t (fun _ => t);;
          rt_handle_udp_packet sha1 tick rand ip port payload;;
          recv_loop grams
      end
  end.

(** One iteration of the worker; [true] when the loop goes on to poll. The
    returned timeout is for the coming [poll]. *)
Definition worker_iter (grams : list (Z * Z * list Z)) : M (option Z) :=
  _ ← rt_tick64;
  recv_loop grams;;
  s ← get_se;
  when (negb (status s =? RT_STATUS_DISCONNECTED)) (now ← rt_tick64; rt_interrupt now);;
  t ← get_t;
  if halt t then mret None else
  if (status (se t) =? RT_STATUS_DISCONNECTED) && result_ready t then mret None else
  now ← rt_tick64;
  mret (Some (rt_compute_poll_timeout t now)).

(** The worker over the datagrams each iteration finds; the [halt] flag set by
    another thread is observed as the end of the list. *)
Fixpoint rt_worker (rounds : list (list (Z * Z * list Z))) : M unit :=
  match rounds with
  | [] => rt_set_disconnected false
  | grams :: rounds =>
      t ← get_t;
      if halt t then rt_set_disconnected false else
      r ← worker_iter grams;
      match r with
      | None => rt_set_disconnected false
      | Some _ => rt_worker rounds
      end
  end.

(** ** Keys *)

(** [s] is a C string; it is appended with a big-endian (length + 1) prefix
    in a buffer of 20 + 4 + 64 bytes. *)
Definition rt_derive_key (init_key s : list Z) : res (list Z) :=
  buf ← filled (RUDP_T_SHA1_SIZE + 4 + 64) (init_key ++ w32 (u32 (len s + 1)) ++ s);
  Ok (sha1 buf).

Definition str_zurukko : list Z := [122; 117; 114; 117; 107; 107; 111].
Definition str_yasushineko : list Z := [121; 97; 115; 117; 115; 104; 105; 110; 101; 107; 111].
Definition str_magic_req : list Z :=
  [77; 97; 103; 105; 99; 95; 75; 101; 101; 112; 65; 108; 105; 118; 101; 82; 101; 113; 117; 101; 115; 116].
Definition str_magic_resp : list Z :=
  [77; 97; 103; 105; 99; 95; 75; 101; 101; 112; 65; 108; 105; 118; 101; 82; 101; 115; 112; 111; 110; 115; 101].

Definition rt_derive_keys (rnd : bool * list Z) (s : rt_session) : res rt_session :=
  key1 ← rt_derive_key (key_init s) str_zurukko;
  buf ← filled (RUDP_T_SHA1_SIZE * 2 + 4 + 64)
          (key_init s ++ key1 ++ w32 (len str_yasushineko + 1) ++ str_yasushineko);
  let key2 := sha1 buf in
  req ← rt_derive_key (key_init s) str_magic_req;
  resp ← rt_derive_key (key_init s) str_magic_resp;
  let low := if fst rnd : bool then r32 (tk 4 (snd rnd)) else r32 (tk 4 (key_init s)) in
  Ok (s <| key_send := key2 |> <| key_recv := key1 |> <| magic_req := req |>
        <| magic_resp := resp |> <| magic_disconnect := Z.lor 18446744069414584320 low |>).

Definition to_lower (c : Z) : Z := if (c >=? 65) && (c <=? 90) then c + 32 else c.
(** At most 127 characters of the name are hashed. *)
Definition rt_compute_svc_name_hash (name : list Z) : list Z := sha1 (map to_lower (tk 127 name)).

End session.
