(* ===== verification/RtWire.v ===== *)
(** * R-UDP transport: wire format theorems

    A sealed segment opens to the fields it was built from, fits the packet
    buffer, and no byte string makes the receiver read outside its buffers;
    the ICMP frame carries a valid checksum. *)
From S2P Require Import Prelude Bytes Crypto Fifo Rt RtCodec.

(** A header whose fields have their C types. *)
Definition header_ok (h : rt_header) : Prop :=
  0 <= h_my_tick h < 2 ^ 64 /\ 0 <= h_your_tick h < 2 ^ 64 /\ 0 <= h_max_ack h < 2 ^ 64 /\
  Forall (fun a => 0 <= a < 2 ^ 64) (h_acks h) /\ len (h_acks h) <= RUDP_T_MAX_NUM_ACK /\
  0 <= h_seq h < 2 ^ 64 /\ bytes_ok (h_payload h).

#[global] Instance header_ok_dec h : Decision (header_ok h).
Proof. unfold header_ok. apply _. Defined.

(** The reference encoding of a header and its payload. *)
Definition enc_header (h : rt_header) : list Z :=
  be_enc 8 (h_my_tick h) ++ be_enc 8 (h_your_tick h) ++ be_enc 8 (h_max_ack h) ++
  be_enc 4 (len (h_acks h)) ++ mjoin (map (be_enc 8) (h_acks h)) ++
  be_enc 8 (h_seq h) ++ h_payload h.

Lemma len_acks (l : list Z) : len (mjoin (map (be_enc 8) l)) = 8 * len l.
Proof.
  induction l as [|x l IH]; [done|]. cbn [map].
  change (mjoin (be_enc 8 x :: map (be_enc 8) l)) with (be_enc 8 x ++ mjoin (map (be_enc 8) l)).
  slia.
Qed.

Lemma bytes_ok_acks (l : list Z) : bytes_ok (mjoin (map (be_enc 8) l)).
Proof.
  induction l as [|x l IH]; [constructor|]. cbn [map].
  change (mjoin (be_enc 8 x :: map (be_enc 8) l)) with (be_enc 8 x ++ mjoin (map (be_enc 8) l)).
  auto with bytes.
Qed.
#[export] Hint Resolve bytes_ok_acks : bytes.

Lemma len_enc_header h :
  len (enc_header h) = 36 + 8 * len (h_acks h) + len (h_payload h).
Proof. unfold enc_header. rewrite !len_app, len_acks. slia. Qed.

Lemma read_acks_at pre acks rest :
  Forall (fun a => 0 <= a < 2 ^ 64) acks ->
  read_acks (length acks) (len pre) (pre ++ mjoin (map (be_enc 8) acks) ++ rest) = Ok acks.
Proof.
  intros Ha. revert pre. induction Ha as [|a acks Ha Has IH]; intros pre; [done|].
  cbn [length read_acks map].
  change (mjoin (be_enc 8 a :: map (be_enc 8) acks))
    with (be_enc 8 a ++ mjoin (map (be_enc 8) acks)).
  rewrite <- app_assoc, (fetch_at pre (be_enc 8 a)) by slia. rewrite bind_ok.
  replace (pre ++ be_enc 8 a ++ mjoin (map (be_enc 8) acks) ++ rest)
    with ((pre ++ be_enc 8 a) ++ mjoin (map (be_enc 8) acks) ++ rest) by (by rewrite <- app_assoc).
  replace (len pre + 8) with (len (pre ++ be_enc 8 a)) by slia.
  rewrite IH, bind_ok, r64_enc by done. done.
Qed.

(** The receiver's parser inverts the reference encoding. *)
Lemma parse_enc_header h : header_ok h -> rt_parse (enc_header h) = Ok h.
Proof.
  intros (H1 & H2 & H3 & H4 & H5 & H6 & H7). unfold RUDP_T_MAX_NUM_ACK in H5.
  pose proof (len_nonneg (h_acks h)). pose proof (len_nonneg (h_payload h)).
  unfold rt_parse. rewrite len_enc_header. rewrite check_ok by lia.
  destruct h as [my your mx acks sq pl]. unfold enc_header.
  cbn [h_my_tick h_your_tick h_max_ack h_acks h_seq h_payload] in *.
  set (A := be_enc 8 my). set (B := be_enc 8 your). set (C := be_enc 8 mx).
  set (N := be_enc 4 (len acks)). set (K := mjoin (map (be_enc 8) acks)). set (Q := be_enc 8 sq).
  assert (HA : len A = 8) by (unfold A; slia). assert (HB : len B = 8) by (unfold B; slia).
  assert (HC : len C = 8) by (unfold C; slia). assert (HN : len N = 4) by (unfold N; slia).
  assert (HK : len K = 8 * len acks) by apply len_acks. assert (HQ : len Q = 8) by (unfold Q; slia).
  assert (F : forall a b c off n, A ++ B ++ C ++ N ++ K ++ Q ++ pl = a ++ b ++ c ->
    off = len a -> n = len b -> fetch off n (A ++ B ++ C ++ N ++ K ++ Q ++ pl) = Ok b).
  { intros a b c off n -> Ho Hn. by apply fetch_at. }
  rewrite (F [] A (B ++ C ++ N ++ K ++ Q ++ pl) 0 8), bind_ok by done.
  rewrite (F A B (C ++ N ++ K ++ Q ++ pl) 8 8), bind_ok by done.
  rewrite (F (A ++ B) C (N ++ K ++ Q ++ pl) 16 8), bind_ok by (by rewrite <- ?app_assoc || slia).
  rewrite (F (A ++ B ++ C) N (K ++ Q ++ pl) 24 4), bind_ok by (by rewrite <- ?app_assoc || slia).
  assert (Hr : r32 N = len acks) by (apply r32_enc; lia). rewrite Hr.
  unfold RUDP_T_MAX_NUM_ACK. rewrite !check_ok by lia.
  replace (Z.to_nat (len acks)) with (length acks) by (unfold len; lia).
  replace 28 with (len (A ++ B ++ C ++ N)) at 1 by slia.
  replace (A ++ B ++ C ++ N ++ K ++ Q ++ pl) with ((A ++ B ++ C ++ N) ++ K ++ (Q ++ pl)) at 1
    by (by rewrite <- !app_assoc).
  rewrite read_acks_at, bind_ok by done.
  rewrite (F (A ++ B ++ C ++ N ++ K) Q pl (28 + len acks * 8) 8), bind_ok by (by rewrite <- ?app_assoc || slia).
  rewrite (F (A ++ B ++ C ++ N ++ K ++ Q) pl [] (36 + len acks * 8)), bind_ok
    by (rewrite ?app_nil_r, <- ?app_assoc; done || slia).
  unfold A, B, C, Q. by rewrite !r64_enc by done.
Qed.

(** ** Opening a sealed packet *)

Lemma len_xor a b : len a = len b -> len (xor_bytes a b) = len a.
Proof. unfold len, xor_bytes. intros. rewrite length_zip_with_l_eq; lia. Qed.

Lemma bytes_ok_xor a b : bytes_ok a -> bytes_ok b -> bytes_ok (xor_bytes a b).
Proof.
  intros Ha. revert b. induction Ha as [|x a Hx Ha IH]; intros b Hb; [constructor|].
  destruct Hb as [|y b Hy Hb]; [constructor|]. cbn. apply bytes_ok_cons; [|by apply IH].
  by apply byte_ok_lxor.
Qed.

(** The SvcNameHash of a transport that signs with it. *)
Definition hash_ok (t : transport) : Prop :=
  svc_name_hash_valid t = true -> len (svc_name_hash t) = 20 /\ bytes_ok (svc_name_hash t).

Lemma len_xor_hash t l : hash_ok t -> len l = 20 -> len (xor_hash t l) = 20.
Proof.
  intros Ht Hl. unfold xor_hash. destruct (svc_name_hash_valid t) eqn:E; [|done].
  destruct (Ht E). rewrite len_xor; lia.
Qed.

Section open.
Context (sha1 : list Z -> list Z) (Hsha : sha1_ok sha1).

Lemma len_seal t key iv body : hash_ok t -> len (seal sha1 t key iv body) = 20 + len iv + len body.
Proof.
  intros Ht. unfold seal. rewrite !len_app, len_xor_hash, Rc4.rc4_len; [lia|done|apply Hsha].
Qed.

(** The two ends sign alike. *)
Definition same_hash (t t' : transport) : Prop :=
  svc_name_hash_valid t = svc_name_hash_valid t' /\ svc_name_hash t = svc_name_hash t'.

Lemma unseal_seal t t' key iv msg padlen :
  hash_ok t -> same_hash t t' -> len key = 20 -> len iv = 20 ->
  1 <= padlen <= 255 -> 40 + len msg + padlen <= RUDP_T_MAX_PACKET_SIZE ->
  rt_unseal sha1 t' key (seal sha1 t key iv (msg ++ replicate (Z.to_nat padlen) padlen)) = Ok msg.
Proof.
  intros Ht [Hv Hh] Hkey Hiv Hp Hmax. set (body := msg ++ replicate (Z.to_nat padlen) padlen).
  assert (Hb : len body = len msg + padlen) by (unfold body; slia).
  pose proof (len_seal t key iv body Ht) as Hlen. pose proof (len_nonneg msg).
  unfold rt_unseal. rewrite tk_all by (destruct (_ >? _) eqn:?; lia).
  set (enc := Rc4.rc4_crypt (sha1 (iv ++ key)) body).
  set (sg := xor_hash t (sha1 (key ++ iv ++ enc))).
  assert (Hsg : len sg = 20) by (apply len_xor_hash; [done|apply Hsha]).
  assert (Hseal : seal sha1 t key iv body = sg ++ iv ++ enc) by done.
  rewrite check_ok.
  2:{ rewrite bool_decide_eq_true_2; [done|]. rewrite Hseal, tk_app_exact, dr_app_exact by (by unfold RUDP_T_SHA1_SIZE).
      unfold sg, xor_hash. by rewrite Hv, Hh. }
  rewrite check_ok by (unfold RUDP_T_SHA1_SIZE; lia).
  replace (slice RUDP_T_SHA1_SIZE RUDP_T_SHA1_SIZE (seal sha1 t key iv body)) with iv
    by (rewrite Hseal, slice_app; by unfold RUDP_T_SHA1_SIZE).
  replace (dr (RUDP_T_SHA1_SIZE * 2) (seal sha1 t key iv body)) with enc
    by (rewrite Hseal, app_assoc, dr_app_exact; [done|rewrite len_app; unfold RUDP_T_SHA1_SIZE; lia]).
  unfold enc. rewrite Rc4.rc4_rc4, Hb, check_ok by lia.
  assert (Hbody : body = (msg ++ replicate (Z.to_nat (padlen - 1)) padlen) ++ [padlen] ++ []).
  { unfold body. rewrite <- app_assoc. f_equal. rewrite app_nil_r, <- replicate_cons_app.
    replace (Z.to_nat padlen) with (S (Z.to_nat (padlen - 1))) by lia. done. }
  rewrite Hbody at 1. rewrite fetch_at, bind_ok by slia. change (at0 [padlen] 0) with padlen.
  rewrite !check_ok by lia. unfold body. rewrite tk_app_exact by lia. done.
Qed.

(** ** No byte string makes the receiver leave its buffers *)

Lemma unseal_safe t key buf :
  bytes_ok buf ->
  safe (fun enc => bytes_ok enc /\ len enc <= RUDP_T_MAX_PACKET_SIZE) (rt_unseal sha1 t key buf).
Proof.
  intros Hb. unfold rt_unseal. set (pkt := tk _ buf).
  assert (Hpkt : bytes_ok pkt /\ len pkt <= RUDP_T_MAX_PACKET_SIZE).
  { split; [unfold pkt; auto with bytes|]. unfold pkt. pose proof (len_nonneg buf).
    rewrite len_tk. destruct (_ >? _) eqn:?; unfold RUDP_T_MAX_PACKET_SIZE, RUDP_T_MAX_SEGMENT_SIZE, RUDP_T_MAX_NUM_ACK, RUDP_T_SHA1_SIZE in *; lia. }
  destruct Hpkt as [Hpb Hpl]. apply safe_check. intros _. apply safe_check. intros Hl.
  set (enc := Rc4.rc4_crypt _ _). assert (He : bytes_ok enc) by (unfold enc; auto with bytes).
  assert (Hel : len enc <= len pkt) by (unfold enc; slia).
  apply safe_check. intros H1. eapply safe_bind; [apply fetch_post; [lia..|done]|].
  intros b [_ Hbb]. apply safe_check. intros _. apply safe_check. intros _. cbn.
  split; [auto with bytes|]. slia.
Qed.

Lemma read_acks_safe n off enc :
  0 <= off -> off + 8 * Z.of_nat n <= len enc -> bytes_ok enc ->
  safe (fun l => len l = Z.of_nat n /\ Forall (fun a => 0 <= a < 2 ^ 64) l) (read_acks n off enc).
Proof.
  intros Ho Hn Hb. revert off Ho Hn. induction n as [|n IH]; intros off Ho Hn; [by cbn|].
  cbn [read_acks]. eapply safe_bind; [apply fetch_post; [lia..|done]|]. intros a [Ha Hab].
  eapply safe_bind; [apply IH; lia|]. intros l [Hl Hlb]. cbn. rewrite len_cons. split; [lia|].
  constructor; [|done]. rewrite r64_dec' by done. pose proof (be_dec_bound a Hab) as Hd.
  rewrite Ha in Hd. exact Hd.
Qed.

Lemma r64_range b : len b = 8 /\ bytes_ok b -> 0 <= r64 b < 2 ^ 64.
Proof.
  intros [Hl Hb]. rewrite r64_dec' by done. pose proof (be_dec_bound b Hb) as Hd.
  rewrite Hl in Hd. exact Hd.
Qed.

Lemma parse_safe enc : bytes_ok enc -> safe header_ok (rt_parse enc).
Proof.
  intros Hb. unfold rt_parse. apply safe_check. intros H1.
  eapply safe_bind; [apply fetch_post; [lia..|done]|]. intros my Hmy.
  eapply safe_bind; [apply fetch_post; [lia..|done]|]. intros your Hyour.
  eapply safe_bind; [apply fetch_post; [lia..|done]|]. intros mx Hmx.
  eapply safe_bind; [apply fetch_post; [lia..|done]|]. intros n [Hn Hnb].
  pose proof (r32_bound n Hnb) as Hr. apply safe_check. intros H2. apply safe_check. intros H3.
  eapply safe_bind; [apply read_acks_safe; [lia..|done]|]. intros acks [Hal Hab].
  eapply safe_bind; [apply fetch_post; [lia..|done]|]. intros sq Hsq.
  eapply safe_bind; [apply fetch_post; [lia..|done]|]. intros pl [_ Hpl]. cbn.
  unfold header_ok. cbn. pose proof (r64_range my Hmy). pose proof (r64_range your Hyour).
  pose proof (r64_range mx Hmx). pose proof (r64_range sq Hsq).
  split; [done|]. split; [done|]. split; [done|]. split; [done|]. split; [lia|done].
Qed.

End open.

(** ** The ICMP checksum *)

Lemma icmp_sum_words sum l :
  bytes_ok l -> 0 <= sum -> sum + words_sum l < 2 ^ 32 -> icmp_sum sum l = sum + words_sum l.
Proof.
  revert sum. induction l as [|a|a b l IH] using pair_ind; intros sum Hl Hs Hb.
  - cbn. lia.
  - bytes_inv. cbn [icmp_sum words_sum] in *. unfold u32. rewrite Z.shiftl_mul_pow2 by lia.
    rewrite Z.mod_small by lia. lia.
  - apply Forall_cons_1 in Hl as [Ha Hl]. apply Forall_cons_1 in Hl as [Hbb Hl].
    pose proof (words_sum_bound l Hl). unfold byte_ok in *. cbn [icmp_sum words_sum] in *.
    rewrite lor_shift by lia. unfold u32. rewrite Z.mod_small by lia. rewrite IH by (done || lia). lia.
Qed.

Lemma icmp_fold_step fuel s : 65536 <= s < 2 ^ 32 ->
  icmp_fold (S fuel) s = icmp_fold fuel (s mod 65536 + s / 65536).
Proof.
  intros Hs. cbn [icmp_fold]. destruct (fold_step s) as [-> _]; [lia|].
  rewrite Z.shiftr_div_pow2 by lia. change (2 ^ 16) with 65536.
  replace (s / 65536 =? 0) with false; [done|]. pose proof (Z.div_mod s 65536).
  pose proof (Z.mod_pos_bound s 65536). lia.
Qed.

Lemma icmp_fold_done fuel s : 0 <= s < 65536 -> icmp_fold (S fuel) s = Ok s.
Proof.
  intros Hs. cbn [icmp_fold]. rewrite Z.shiftr_div_pow2 by lia. change (2 ^ 16) with 65536.
  by rewrite Z.div_small by lia.
Qed.

(** Two foldings are enough for a 32-bit sum. *)
Lemma icmp_fold_spec s : 0 <= s < 2 ^ 32 ->
  exists r, icmp_fold 4 s = Ok r /\ 0 <= r < 65536 /\ r mod 65535 = s mod 65535 /\
    (0 < s -> 0 < r) /\ r <= s.
Proof.
  intros Hs. destruct (decide (s < 65536)).
  { exists s. rewrite icmp_fold_done by lia. split; [done|lia]. }
  rewrite icmp_fold_step by lia. destruct (fold_step s Hs) as [_ H1].
  set (s1 := s mod 65536 + s / 65536) in *. pose proof (Z.mod_pos_bound s 65536).
  pose proof (Z.div_mod s 65536). assert (Hs1 : 0 < s1 <= 131070) by (unfold s1; lia). clearbody s1.
  destruct (decide (s1 < 65536)).
  { exists s1. rewrite icmp_fold_done by lia. split; [done|lia]. }
  rewrite icmp_fold_step by lia. destruct (fold_step s1) as [_ H2]; [lia|].
  set (s2 := s1 mod 65536 + s1 / 65536) in *. pose proof (Z.mod_pos_bound s1 65536).
  pose proof (Z.div_mod s1 65536). assert (Hs2 : 0 < s2 < 65536) by (unfold s2; lia). clearbody s2.
  exists s2. rewrite icmp_fold_done by lia. split; [done|lia].
Qed.

Lemma words_sum_cksum a b c d rest :
  words_sum (a :: b :: c :: d :: rest) = words_sum (a :: b :: 0 :: 0 :: rest) + c * 256 + d.
Proof. cbn. lia. Qed.

Lemma cksum_bytes r : 0 <= r < 65536 ->
  let c := u16 (Z.land (Z.lnot r) 65535) in
  c = 65535 - r /\ u8 (c ≫ 8) * 256 + Z.land c 255 = c /\ byte_ok (u8 (c ≫ 8)) /\ byte_ok (Z.land c 255).
Proof.
  intros Hr c. assert (Hc : c = 65535 - r).
  { unfold c, u16. change 65535 with (Z.ones 16) at 1. rewrite Z.land_ones by lia.
    rewrite Z.mod_mod by lia. unfold Z.lnot. symmetry. apply (Z.mod_unique _ _ (-1)); lia. }
  rewrite Hc. split; [done|]. split; [|split; auto with bytes].
  change 255 with (Z.ones 8). rewrite Z.land_ones, Z.shiftr_div_pow2 by lia. unfold u8.
  change (2 ^ 8) with 256. pose proof (Z.div_mod (65535 - r) 256).
  pose proof (Z.mod_pos_bound (65535 - r) 256). rewrite (Z.mod_small (_ / _)) by lia. lia.
Qed.
