(* ===== verification/RtInv.v ===== *)
(** * R-UDP transport: the session invariant

    [session_ok] is the well-formedness of a session: key sizes, the send
    window, the bounds of the receive and acknowledgement arrays, the FIFOs.
    Every entry point of the worker is proved to preserve it without leaving
    an array, whatever the clock, the CSPRNG, the socket pair and the peer do. *)
From S2P Require Import Prelude Bytes Crypto Fifo Rt RtCodec RtSession RtWire.

(** In-flight segments carry increasing sequence numbers below the next one,
    at most one window apart. *)
Definition segs_ok (l : list rt_segment) (next : Z) : Prop :=
  1 <= next /\ Forall (fun x => 1 <= s_seq x < next /\ len (s_data x) <= 512) l /\
  StronglySorted (fun a b => s_seq a < s_seq b) l /\
  match l with [] => True | x :: _ => next <= s_seq x + 64 end.

Definition session_ok (s : rt_session) : Prop :=
  len (key_init s) = 20 /\ len (key_send s) = 20 /\ len (next_iv s) = 20 /\
  len (magic_req s) = 20 /\ len (magic_resp s) = 20 /\
  segs_ok (send_segments s) (next_send_seq s) /\
  Forall (fun x => len (s_data x) <= 512) (recv_segments s) /\ len (recv_segments s) <= 64 /\
  len (reply_acks s) <= 64 /\
  fifo_ok (send_fifo s) /\ f_cap (send_fifo s) = RUDP_T_MAX_FIFO_SIZE /\
  fifo_ok (recv_fifo s) /\ f_cap (recv_fifo s) = RUDP_T_MAX_FIFO_SIZE.

Definition inv (w : world) : Prop := session_ok (se (w_t w)) /\ hash_ok (w_t w).

Ltac rt_consts :=
  unfold RUDP_T_MAX_PACKET_SIZE, RUDP_T_MAX_SEGMENT_SIZE, RUDP_T_MAX_NUM_ACK, RUDP_T_SHA1_SIZE,
    RUDP_T_MAX_FIFO_SIZE in *.

(** The session without the fields that sending a packet touches. *)
Definition core (s : rt_session) : rt_session :=
  s <| next_iv := [] |> <| last_sent_tick := 0 |> <| reply_acks := [] |>.

(** The transport without its session. *)
Definition shell (t : transport) (s : rt_session) : transport := t <| se := s |>.

(** *** Consequences of the window *)

Lemma sorted_count l next lo :
  StronglySorted (fun a b => s_seq a < s_seq b) l ->
  Forall (fun x => lo <= s_seq x < next) l -> lo <= next -> len l <= next - lo.
Proof.
  intros Hs. revert lo. induction Hs as [|x l Hs IH Hx]; intros lo Hl Hlo; [slia|].
  apply Forall_cons_1 in Hl as [Hx0 Hl]. rewrite len_cons.
  assert (len l <= next - (s_seq x + 1)); [|lia]. apply IH; [|lia].
  rewrite Forall_forall in *. intros y Hy. specialize (Hx y Hy). specialize (Hl y Hy). cbn in *. lia.
Qed.

Lemma segs_window x l next :
  segs_ok (x :: l) next -> len (x :: l) <= next - s_seq x.
Proof.
  intros (Hn & Hf & Hs & Hw). apply sorted_count; [done| |].
  - inversion Hs as [|? ? Hs' Hx]; subst. apply Forall_cons_1 in Hf as [Hx0 Hf].
    constructor; [lia|]. rewrite Forall_forall in *. intros y Hy.
    specialize (Hx y Hy). specialize (Hf y Hy). cbn in *. lia.
  - apply Forall_cons_1 in Hf as [? _]. lia.
Qed.

Lemma segs_len l next : segs_ok l next -> len l <= 64.
Proof.
  destruct l as [|x l]; intros H; [slia|]. pose proof (segs_window x l next H).
  destruct H as (_ & _ & _ & Hw). lia.
Qed.

Lemma segs_app l next d :
  segs_ok l next -> len d <= 512 ->
  (forall x l', l = x :: l' -> next + 1 <= s_seq x + 64) ->
  segs_ok (l ++ [Segment next d 0 0]) (next + 1).
Proof.
  intros (Hn & Hf & Hs & Hw) Hd Hroom. split; [lia|]. split; [|split].
  - apply Forall_app. split.
    + eapply Forall_impl; [exact Hf|]. cbn. intros; lia.
    + constructor; [|done]. cbn. lia.
  - induction Hs as [|x l Hs IH Hx]; [by repeat constructor|]. cbn [app].
    apply Forall_cons_1 in Hf as [Hx0 Hf]. constructor.
    + apply IH; [done| |]; destruct l as [|y l]; try done.
      * apply Forall_cons_1 in Hx as [Hxy _]. specialize (Hroom x _ eq_refl). lia.
      * intros ? ? [= <- <-]. apply Forall_cons_1 in Hx as [Hxy _]. specialize (Hroom x _ eq_refl). lia.
    + apply Forall_app. split; [done|]. constructor; [|done]. cbn. lia.
  - destruct l as [|x l]; cbn; [lia|]. by apply (Hroom x l).
Qed.

Lemma Forall_sublist {A} (P : A -> Prop) (l l' : list A) :
  l' `sublist_of` l -> Forall P l -> Forall P l'.
Proof. rewrite !Forall_forall. intros Hs H x Hx. by eapply H, elem_of_sublist. Qed.

(** Acknowledgements only take elements out. *)
Lemma segs_sublist l l' next : l' `sublist_of` l -> segs_ok l next -> segs_ok l' next.
Proof.
  intros Hsub H. pose proof H as (Hn & Hf & Hs & Hw).
  assert (Hsub' : StronglySorted (fun a b => s_seq a < s_seq b) l').
  { clear -Hsub Hs. induction Hsub as [|x l1 l2 Hsub IH|x l1 l2 Hsub IH]; [constructor| |].
    - inversion Hs as [|? ? Hs' Hx]; subst. constructor; [by apply IH|]. by eapply Forall_sublist.
    - inversion Hs; subst. by apply IH. }
  split; [done|]. split; [by eapply Forall_sublist|]. split; [done|].
  destruct l' as [|y l']; [done|]. destruct l as [|x l]; [by inversion Hsub|].
  inversion Hs as [|? ? Hs' Hx]; subst.
  assert (y ∈ x :: l) as Hy by (eapply elem_of_sublist; [left|done]).
  apply elem_of_cons in Hy as [->|Hy]; [done|]. rewrite Forall_forall in Hx. specialize (Hx y Hy). lia.
Qed.

(** ** What sending a packet leaves alone *)

(** The world without the clock and CSPRNG positions, the datagrams sent and
    the session fields that sending touches. *)
Definition frame (w : world) : world :=
  w <| w_t := (w_t w) <| se := core (se (w_t w)) |> |>
    <| w_ticks := 0%nat |> <| w_rands := 0%nat |> <| w_udp := [] |>.

(** [sends R c w]: [w] is well formed, agrees with [c] outside the sending
    state, and its pending acknowledgements satisfy [R]. *)
Definition sends (R : list Z -> Prop) (c : world) (w : world) : Prop :=
  inv w /\ frame w = c /\ R (reply_acks (se (w_t w))).

Lemma session_ok_iv s iv : session_ok s -> len iv = 20 -> session_ok (s <| next_iv := iv |>).
Proof. unfold session_ok. cbn. tauto. Qed.
Lemma session_ok_sent s t : session_ok s -> session_ok (s <| last_sent_tick := t |>).
Proof. done. Qed.
Lemma session_ok_acks s l : session_ok s -> len l <= 64 -> session_ok (s <| reply_acks := l |>).
Proof. unfold session_ok. cbn. tauto. Qed.

Lemma sends_se R c w f :
  sends R c w -> session_ok (f (se (w_t w))) -> core (f (se (w_t w))) = core (se (w_t w)) ->
  R (reply_acks (f (se (w_t w)))) ->
  sends R c (w <| w_t := (w_t w) <| se := f (se (w_t w)) |> |>).
Proof.
  intros ([_ Hh] & Hf & _) Hok Hc HR. split; [split; [exact Hok|exact Hh]|]. split; [|exact HR].
  rewrite <- Hf. destruct w as [t ? ? ? ? ? ? ?]. unfold frame in *. cbn -[core] in *. by rewrite Hc.
Qed.

(** The part of [inv] about a transport. *)
Definition inv_t (t : transport) : Prop := session_ok (se t) /\ hash_ok t.

Lemma triple_pure {A} (P : world -> Prop) (phi : Prop) (m : M A) Q :
  (phi -> triple P m Q) -> triple (fun w => P w /\ phi) m Q.
Proof. intros H w [Hw Hphi]. by apply H. Qed.

Section send.
Context (sha1 : list Z -> list Z) (tick : nat -> Z) (rand : nat -> Z -> bool * list Z).
Context (Hsha : sha1_ok sha1) (Hrand : rand_ok rand).

Lemma sends_tick R c : triple (sends R c) (rt_tick64 tick) (fun _ => sends R c).
Proof. intros w H. exact H. Qed.

Lemma sends_bytes R c n :
  0 <= n -> triple (sends R c) (generate_random_bytes rand n)
    (fun r w => sends R c w /\ len (snd r) = n /\ bytes_ok (snd r)).
Proof. intros Hn w H. split; [exact H|by apply Hrand]. Qed.

Lemma sends_rand R c : triple (sends R c) (rt_rand_u32 rand) (fun _ => sends R c).
Proof. intros w H. exact H. Qed.

Lemma sends_modify_se R c f :
  (forall s, session_ok s -> R (reply_acks s) ->
    session_ok (f s) /\ core (f s) = core s /\ R (reply_acks (f s))) ->
  triple (sends R c) (modify_se f) (fun _ => sends R c).
Proof.
  intros Hf w H. pose proof H as ([Hok _] & _ & HR). destruct (Hf _ Hok HR) as (H1 & H2 & H3).
  by apply (sends_se R c w f).
Qed.

Lemma sends_lift {A} R c (r : res A) (a : A) : r = Ok a ->
  triple (sends R c) (lift r) (fun x w => sends R c w /\ x = a).
Proof. intros -> w H. done. Qed.

Lemma filled_ok cap bs : len bs <= cap -> filled cap bs = Ok bs.
Proof. intros. unfold filled. by replace (_ <=? _) with true by lia. Qed.

Lemma len_hex_str bs : len (hex_str bs) = 2 * len bs.
Proof.
  induction bs as [|b bs IH]; [done|]. unfold hex_str in *. cbn [map].
  change (mjoin (?a :: ?b)) with (a ++ mjoin b). rewrite len_app, IH. slia.
Qed.

Lemma len_dns_frame id rd data : len (dns_frame id rd data) = 28 + 2 * len rd + len data.
Proof. unfold dns_frame. rewrite !len_app, len_hex_str. slia. Qed.

Lemma icmp_sum_range sum l : 0 <= sum < 2 ^ 32 -> 0 <= icmp_sum sum l < 2 ^ 32.
Proof.
  revert sum. induction l as [|a|a b l IH] using pair_ind; intros sum Hs; [done| |].
  - apply Z.mod_pos_bound. lia.
  - cbn [icmp_sum]. apply IH. apply Z.mod_pos_bound. lia.
Qed.

Lemma icmp_frame_ok t data :
  len data <= RUDP_T_MAX_PACKET_SIZE -> exists pkt, icmp_frame sha1 t data = Ok pkt.
Proof.
  intros Hd. unfold icmp_frame. destruct (Hsha data) as [Hl _].
  rewrite filled_ok, bind_ok by (rt_consts; slia).
  unfold icmp_checksum.
  match goal with |- context [icmp_sum 0 ?p] => destruct (icmp_fold_spec (icmp_sum 0 p)) as (r & Hr & _) end.
  - apply icmp_sum_range. lia.
  - rewrite Hr, !bind_ok. by eexists.
Qed.

Lemma fetch_mod_ok r n l :
  0 < n -> n + 20 <= len l + 1 -> exists b, fetch (r mod n) 20 l = Ok b /\ len b = 20.
Proof.
  intros Hn Hl. pose proof (Z.mod_pos_bound r n Hn).
  destruct (fetch_safe (r mod n) 20 l) as [b Hb]; [lia..|]. exists b. split; [done|].
  eapply fetch_len; [exact Hb|lia].
Qed.

Lemma send_udp_ok R c data :
  20 <= len data <= RUDP_T_MAX_PACKET_SIZE ->
  triple (sends R c) (rt_send_udp sha1 tick rand data) (fun _ => sends R c).
Proof.
  intros Hd. unfold rt_send_udp. eapply triple_bind with (R := fun _ => sends R c); [by apply triple_gets|].
  intros t. eapply triple_bind with (R := fun _ => sends R c).
  { apply triple_if; intros _; [|apply triple_if; intros _].
    - eapply triple_bind; [by apply sends_bytes|]. intros r. apply triple_lift.
      intros w (H & Hl & _). rewrite filled_ok; [by eexists|]. rewrite len_dns_frame. rt_consts. lia.
    - apply triple_lift. intros w H. destruct (icmp_frame_ok t data) as [pkt ->]; [lia|]. by eexists.
    - by apply triple_ret. }
  intros pkt. eapply triple_bind; [apply triple_modify with (Q := fun _ => sends R c); by intros w H|].
  intros ?. eapply triple_bind with (R := fun _ => sends R c).
  { apply triple_when; [intros _|done]. eapply triple_bind; [apply sends_tick|]. intros now.
    apply sends_modify_se. intros s Hs HR. done. }
  intros ?. apply triple_if; intros _.
  - eapply triple_bind; [apply sends_rand|]. intros r.
    destruct (fetch_mod_ok r (if len data >? RUDP_T_SHA1_SIZE then len data - RUDP_T_SHA1_SIZE else 1) data)
      as (iv & Hiv & Hl); [rt_consts; destruct (_ >? _) eqn:?; lia..|].
    eapply triple_bind; [by apply sends_lift|]. intros x w [H ->].
    apply (sends_modify_se R c); [|done]. intros s Hs HR. split; [by apply session_ok_iv|done].
  - eapply triple_bind; [apply sends_bytes; rt_consts; lia|]. intros r w (H & Hl & _).
    apply (sends_modify_se R c); [|done]. intros s Hs HR. split; [by apply session_ok_iv|done].
Qed.

Lemma len_segment_body now s sq data padlen :
  0 <= padlen -> len (reply_acks s) <= 64 ->
  len (segment_body now s sq data padlen) = 36 + 8 * len (reply_acks s) + len data + padlen.
Proof.
  intros Hp Ha. unfold segment_body. rewrite tk_all by (rt_consts; lia).
  rewrite (map_ext w64 (be_enc 8)) by apply w64_enc.
  rewrite !w64_enc, w32_enc, !len_app, len_acks. slia.
Qed.

Lemma padlen_range r : 1 <= u8 (u8 (r mod 255) + 1) <= 255.
Proof.
  unfold u8. pose proof (Z.mod_pos_bound r 255). rewrite (Z.mod_small (r mod 255)) by lia.
  rewrite Z.mod_small by lia. lia.
Qed.

Lemma send_segment_ok R c sq data :
  len data <= 512 ->
  triple (sends R c) (rt_send_segment_now sha1 tick rand sq data) (fun _ => sends (fun l => l = []) c).
Proof.
  intros Hd. unfold rt_send_segment_now.
  eapply triple_bind with (R := fun t w => sends R c w /\ inv_t t); [by apply triple_gets; intros w [[]]|].
  intros t. apply triple_pure. intros [Hok Hh].
  pose proof Hok as (_ & Hks & Hiv & _ & _ & _ & _ & _ & Hacks & _).
  eapply triple_bind; [apply sends_tick|]. intros now.
  eapply triple_bind with (R := fun _ => sends (fun l => l = []) c).
  { intros w H. destruct (sends_modify_se (fun _ => True) c (fun s => s <| reply_acks := [] |>)) with w
      as (H1 & H2 & _); [|destruct H as (? & ? & _); by split_and!|by split_and!].
    intros s Hs _. split; [|done]. by apply session_ok_acks. }
  intros ?. eapply triple_bind; [apply sends_rand|]. intros r. cbv zeta.
  pose proof (padlen_range r) as Hp. set (padlen := u8 (u8 (r mod 255) + 1)) in *. clearbody padlen.
  set (body := segment_body now (se t) sq data padlen).
  assert (Hb : len body = 36 + 8 * len (reply_acks (se t)) + len data + padlen)
    by (apply len_segment_body; lia).
  clearbody body. pose proof (len_nonneg (reply_acks (se t))). pose proof (len_nonneg data).
  eapply triple_bind; [apply sends_lift, filled_ok; rt_consts; slia|]. intros ?.
  apply (triple_conseq _ (sends (fun l => l = []) c) _ _ (fun _ => sends (fun l => l = []) c)); [|by intros w []|done].
  pose proof (len_seal sha1 Hsha t (key_send (se t)) (next_iv (se t)) body Hh) as Hlen.
  set (pkt := seal sha1 t (key_send (se t)) (next_iv (se t)) body) in *. clearbody pkt.
  eapply triple_bind; [apply send_udp_ok; rt_consts; lia|]. intros ?.
  eapply triple_bind with (R := fun _ => sends (fun l => l = []) c).
  { apply triple_when; [intros _|done]. eapply triple_bind; [apply sends_tick|]. intros now'.
    by apply sends_modify_se. }
  intros ?. eapply triple_bind; [apply sends_rand|]. intros r'.
  destruct (fetch_mod_ok r' (u32 (len pkt - RUDP_T_SHA1_SIZE)) pkt) as (iv & Hf & Hl).
  { unfold u32. rewrite Z.mod_small; rt_consts; lia. }
  { unfold u32. rewrite Z.mod_small; rt_consts; lia. }
  eapply triple_bind; [by apply sends_lift|]. intros x w [Hx ->].
  apply (sends_modify_se (fun l => l = []) c); [|done].
  intros s Hs HR. split; [by apply session_ok_iv|done].
Qed.

End send.
