(* ===== verification/RtQueue.v ===== *)
(** * R-UDP transport: the byte streams over the segment queues

    Send side: cutting the send FIFO into segments loses nothing and stays in
    the window. Receive side: draining delivers consecutive sequence numbers
    only; over every interleaving of arrivals, drains and flushes the stream
    handed to the application is the concatenation of the peer's payloads in
    sequence order. *)
From S2P Require Import Prelude Bytes Crypto Fifo Rt RtCodec RtSession RtWire RtInv.

(** The payload bytes of a list of segments. *)
Definition payloads (l : list rt_segment) : list Z := mjoin (map s_data l).

Lemma payloads_app a b : payloads (a ++ b) = payloads a ++ payloads b.
Proof. unfold payloads. rewrite map_app. apply join_app. Qed.

Lemma payloads_one n d t k : payloads [Segment n d t k] = d.
Proof. unfold payloads. cbn. apply app_nil_r. Qed.

(** ** Sending *)

Lemma queue_segment_ok s d :
  segs_ok (send_segments s) (next_send_seq s) -> len d <= 512 -> next_send_seq s < 2 ^ 63 ->
  len (send_segments s) < 64 ->
  rt_queue_segment d s =
    Ok (s <| send_segments := send_segments s ++ [Segment (next_send_seq s) d 0 0] |>
          <| next_send_seq := next_send_seq s + 1 |>).
Proof.
  intros (Hn & _) Hd Hb Hl. unfold rt_queue_segment. rt_consts.
  replace (_ >=? _) with false by lia. replace (_ >? _) with false by lia.
  unfold u64. by rewrite Z.mod_small by lia.
Qed.

Lemma window_full_spec s :
  segs_ok (send_segments s) (next_send_seq s) -> next_send_seq s < 2 ^ 63 ->
  window_full s = match send_segments s with [] => false | x :: _ => next_send_seq s >? s_seq x + 63 end.
Proof.
  intros (Hn & Hf & _) Hb. unfold window_full. rt_consts.
  destruct (send_segments s) as [|x l]; [done|]. apply Forall_cons_1 in Hf as [Hx _].
  unfold u64. rewrite Z.mod_small by lia. lia.
Qed.

(** Sequence numbers still available in the window. *)
Definition room (s : rt_session) : Z :=
  match send_segments s with [] => 64 | x :: _ => s_seq x + 64 - next_send_seq s end.

Definition with_send (s : rt_session) (segs : list rt_segment) (f : rt_fifo) : rt_session :=
  s <| send_segments := send_segments s ++ segs |>
    <| next_send_seq := next_send_seq s + len segs |> <| send_fifo := f |>.

(** What cutting the FIFO into [segs] does to [s]. *)
Definition segmented (s s' : rt_session) (segs : list rt_segment) : Prop :=
  s' = with_send s segs (send_fifo s') /\
  contents (send_fifo s) = payloads segs ++ contents (send_fifo s') /\
  map s_seq segs = seqZ (next_send_seq s) (len segs) /\
  (contents (send_fifo s') = [] \/ window_full s' = true).

Definition send_ok (s : rt_session) : Prop :=
  segs_ok (send_segments s) (next_send_seq s) /\ fifo_ok (send_fifo s).

Lemma with_send_nil s : with_send s [] (send_fifo s) = s.
Proof. destruct s. unfold with_send. cbn. by rewrite app_nil_r, Z.add_0_r. Qed.

Lemma contents_nil f : fifo_ok f -> f_size f = 0 -> contents f = [].
Proof. intros Hf Hz. apply len_0_nil. by rewrite len_contents. Qed.

(** One pass of the loop. *)
Lemma segment_one s :
  send_ok s -> next_send_seq s < 2 ^ 63 -> window_full s = false -> f_size (send_fifo s) <> 0 ->
  let size := if f_size (send_fifo s) >? 512 then 512 else f_size (send_fifo s) in
  exists d f, rt_fifo_peek (send_fifo s) size = Ok d /\ len d <= 512 /\
    rt_queue_segment d s = Ok (with_send s [Segment (next_send_seq s) d 0 0] (send_fifo s)) /\
    rt_fifo_advance (send_fifo s) size = Ok f /\ fifo_ok f /\ f_cap f = f_cap (send_fifo s) /\
    contents (send_fifo s) = d ++ contents f /\
    send_ok (with_send s [Segment (next_send_seq s) d 0 0] f) /\
    room (with_send s [Segment (next_send_seq s) d 0 0] f) = room s - 1.
Proof.
  intros [Hs Hf] Hb Hw Hz size. pose proof (len_contents _ Hf) as Hlc.
  assert (Hsz : 0 < size <= 512 /\ size <= f_size (send_fifo s)).
  { destruct Hf as (_ & _ & _ & ?). unfold size. destruct (_ >? _) eqn:?; lia. }
  clearbody size. destruct (fifo_advance_ok (send_fifo s) size) as (f & Hadv & Hfo & Hcap & Hco); [done|lia..|].
  exists (tk size (contents (send_fifo s))), f. rewrite window_full_spec in Hw by done.
  assert (Hroom : forall x l', send_segments s = x :: l' -> next_send_seq s + 1 <= s_seq x + 64).
  { intros x l' E. rewrite E in Hw. lia. }
  assert (Hlen : len (send_segments s) < 64).
  { destruct (send_segments s) as [|x l]; [slia|]. pose proof (segs_window x l _ Hs).
    specialize (Hroom x l eq_refl). lia. }
  assert (Hd : len (tk size (contents (send_fifo s))) <= 512) by slia.
  split; [apply fifo_peek_ok; [done|lia]|]. split; [done|].
  split; [by apply queue_segment_ok|]. split; [done|]. split; [done|]. split; [done|].
  split; [by rewrite Hco, tk_dr|]. split.
  - split; [|done]. apply segs_app; done.
  - unfold room, with_send, len. cbn. destruct (send_segments s) as [|x l]; cbn; lia.
Qed.

Lemma with_send_app s a b f f' :
  with_send (with_send s a f) b f' = with_send s (a ++ b) f'.
Proof.
  unfold with_send. cbn. rewrite <- app_assoc, len_app, Z.add_assoc. done.
Qed.

(** The window bounds the passes of the loop. *)
Lemma segment_loop_ok fuel s :
  send_ok s -> next_send_seq s + room s < 2 ^ 63 -> 0 <= room s -> room s < Z.of_nat fuel ->
  exists s' segs, segment_loop fuel s = Ok s' /\ segmented s s' segs /\ send_ok s' /\
    f_cap (send_fifo s') = f_cap (send_fifo s) /\ len segs <= room s.
Proof.
  revert s. induction fuel as [|fuel IH]; intros s Hok Hb Hr Hfuel; [lia|].
  assert (Hnow : (window_full s = true \/ f_size (send_fifo s) = 0) ->
    exists s' segs, Ok s = Ok s' /\ segmented s s' segs /\ send_ok s' /\
      f_cap (send_fifo s') = f_cap (send_fifo s) /\ len segs <= room s).
  { intros Hw. exists s, []. split; [done|]. split; [|split; [done|split; [done|slia]]].
    split; [by rewrite with_send_nil|]. split; [done|]. split; [done|].
    destruct Hw as [Hw|Hw]; [by right|left]. apply contents_nil; [apply Hok|done]. }
  cbn [segment_loop]. destruct (window_full s) eqn:Ew; [by auto|].
  destruct (f_size (send_fifo s) =? 0) eqn:Ez; [apply Hnow; lia|]. clear Hnow.
  destruct (segment_one s Hok) as (d & f & Hpk & Hd & Hq & Hadv & Hfo & Hcap & Hco & Hok1 & Hr1);
    [lia|done|lia|].
  unfold RUDP_T_MAX_SEGMENT_SIZE. rewrite Hpk, bind_ok, Hq, bind_ok.
  replace (send_fifo (with_send _ _ _)) with (send_fifo s) by done. rewrite Hadv, bind_ok.
  set (s1 := with_send s [Segment (next_send_seq s) d 0 0] f) in *.
  change (_ <| send_fifo := f |>) with s1.
  assert (Hn1 : next_send_seq s1 = next_send_seq s + 1) by done.
  assert (Hr0 : 0 <= room s1).
  { rewrite window_full_spec in Ew by (lia || apply Hok). rewrite Hr1. unfold room in *.
    destruct (send_segments s); lia. }
  destruct (IH s1) as (s' & segs & Hl & (Hs' & Hc' & Hq' & Hend) & Hok' & Hcap' & Hlen'); [done|lia..|].
  exists s', (Segment (next_send_seq s) d 0 0 :: segs). split; [done|].
  split; [|split; [done|split; [by rewrite Hcap'|rewrite len_cons; lia]]].
  split; [|split; [|split; [|done]]].
  - rewrite Hs' at 1. unfold s1. by rewrite with_send_app.
  - rewrite Hco. change (contents f) with (contents (send_fifo s1)). rewrite Hc', app_assoc. done.
  - cbn [map]. rewrite Hq', Hn1, len_cons, (seqZ_cons (next_send_seq s)) by slia.
    f_equal. f_equal; lia.
Qed.

(** ** Receiving *)

(** The application bytes of a received segment: none for the two keep-alive
    magics. *)
Definition app_bytes (s : rt_session) (d : list Z) : list Z :=
  if (len d =? 20) && (bool_decide (d = magic_req s) || bool_decide (d = magic_resp s)) then [] else d.

Definition app_payloads (s : rt_session) (l : list rt_segment) : list Z :=
  mjoin (map (fun x => app_bytes s (s_data x)) l).

(** [s] with the parts that a drain may change taken from [s']. *)
Definition drain_frame (s s' : rt_session) : rt_session :=
  s <| send_segments := send_segments s' |> <| next_send_seq := next_send_seq s' |>
    <| recv_segments := recv_segments s' |>
    <| last_recv_complete_seq := last_recv_complete_seq s' |> <| recv_fifo := recv_fifo s' |>.

Definition recv_ok (s : rt_session) : Prop := send_ok s /\ fifo_ok (recv_fifo s).

(** Draining the first [k] segments of [l]. *)
Definition drained (l : list rt_segment) (s s' : rt_session) (k : nat) : Prop :=
  s' = drain_frame s s' /\ (k <= length l)%nat /\
  recv_segments s' = drop k l /\
  last_recv_complete_seq s' = last_recv_complete_seq s + Z.of_nat k /\
  map s_seq (take k l) = seqZ (last_recv_complete_seq s + 1) (Z.of_nat k) /\
  contents (recv_fifo s') = contents (recv_fifo s) ++ app_payloads s (take k l) /\
  f_cap (recv_fifo s') = f_cap (recv_fifo s) /\
  next_send_seq s <= next_send_seq s' <= next_send_seq s + Z.of_nat k /\
  match drop k l with
  | [] => True
  | x :: _ => s_seq x <> last_recv_complete_seq s' + 1 \/
              f_cap (recv_fifo s') - f_size (recv_fifo s') < len (s_data x)
  end.

Lemma drain_one_ok x s :
  recv_ok s -> next_send_seq s < 2 ^ 63 -> len (magic_resp s) <= 512 ->
  (drain_one x s = Ok None /\ f_cap (recv_fifo s) - f_size (recv_fifo s) < len (s_data x)) \/
  exists s', drain_one x s = Ok (Some s') /\ recv_ok s' /\ s' = drain_frame s s' /\
    recv_segments s' = recv_segments s /\ last_recv_complete_seq s' = last_recv_complete_seq s /\
    contents (recv_fifo s') = contents (recv_fifo s) ++ app_bytes s (s_data x) /\
    f_cap (recv_fifo s') = f_cap (recv_fifo s) /\
    next_send_seq s <= next_send_seq s' <= next_send_seq s + 1.
Proof.
  intros [[Hs Hsf] Hrf] Hb Hm. unfold drain_one, app_bytes, RUDP_T_SHA1_SIZE.
  assert (Hid : exists s', Ok (Some s) = Ok (Some s') /\ recv_ok s' /\ s' = drain_frame s s' /\
    recv_segments s' = recv_segments s /\ last_recv_complete_seq s' = last_recv_complete_seq s /\
    contents (recv_fifo s') = contents (recv_fifo s) ++ [] /\
    f_cap (recv_fifo s') = f_cap (recv_fifo s) /\
    next_send_seq s <= next_send_seq s' <= next_send_seq s + 1).
  { exists s. split_and!; rewrite ?app_nil_r; first [done|lia|by destruct s]. }
  destruct (len (s_data x) =? 20) eqn:El; cbn [andb].
  - destruct (bool_decide (s_data x = magic_req s)) eqn:Er; cbn [orb].
    { right. destruct (send_segments s) as [|y l] eqn:Ess; [|exact Hid].
      rewrite queue_segment_ok, bind_ok by (rewrite ?Ess; done || slia).
      eexists. split; [done|]. split; [|split_and!; cbn; rewrite ?app_nil_r; first [done|lia]].
      split; [|done]. split; [|done]. cbn. rewrite Ess. apply (segs_app [] (next_send_seq s)); [|done|done].
      done. }
    destruct (bool_decide (s_data x = magic_resp s)); [by right|]. 
    destruct (decide (len (s_data x) <= f_cap (recv_fifo s) - f_size (recv_fifo s))) as [Hfit|Hno].
    + right. destruct (fifo_write_ok _ _ Hrf Hfit) as (f & -> & Hfo & Hcap & Hco).
      eexists. split; [done|]. split; [done|]. split_and!; cbn; first [done|lia].
    + left. rewrite fifo_write_full by (done || lia). split; [done|lia].
  - destruct (decide (len (s_data x) <= f_cap (recv_fifo s) - f_size (recv_fifo s))) as [Hfit|Hno].
    + right. destruct (fifo_write_ok _ _ Hrf Hfit) as (f & -> & Hfo & Hcap & Hco).
      eexists. split; [done|]. split; [done|]. split_and!; cbn; first [done|lia].
    + left. rewrite fifo_write_full by (done || lia). split; [done|lia].
Qed.

Lemma drain_frame_trans s s1 s2 s3 :
  s1 = drain_frame s s1 -> s2 = s1 <| last_recv_complete_seq := last_recv_complete_seq s2 |> ->
  s3 = drain_frame s2 s3 -> s3 = drain_frame s s3.
Proof. intros -> -> ->. reflexivity. Qed.

Lemma drain_loop_ok l s :
  recv_ok s -> next_send_seq s + len l < 2 ^ 63 -> len (magic_resp s) <= 512 ->
  0 <= last_recv_complete_seq s -> last_recv_complete_seq s + len l < 2 ^ 64 ->
  exists s' k, drain_loop l (last_recv_complete_seq s) s = Ok s' /\ recv_ok s' /\ drained l s s' k.
Proof.
  revert s. induction l as [|x l IH]; intros s Hok Hb Hm Hlast Hl; rewrite ?len_cons in *.
  { exists (s <| recv_segments := [] |>), 0%nat. split; [done|]. split; [done|].
    unfold drained. split_and!; cbn; rewrite ?app_nil_r; first [done|lia]. }
  assert (Hstop : s_seq x <> last_recv_complete_seq s + 1 \/
      f_cap (recv_fifo s) - f_size (recv_fifo s) < len (s_data x) ->
    exists s' k, Ok (s <| recv_segments := x :: l |>) = Ok s' /\ recv_ok s' /\ drained (x :: l) s s' k).
  { intros Hst. exists (s <| recv_segments := x :: l |>), 0%nat. split; [done|]. split; [done|].
    unfold drained. split_and!; cbn; rewrite ?app_nil_r; first [done|lia]. }
  pose proof (len_nonneg l). cbn [drain_loop]. unfold u64. rewrite Z.mod_small by lia.
  destruct (s_seq x =? last_recv_complete_seq s + 1) eqn:Eq; cbn [negb]; [|apply Hstop; lia].
  destruct (drain_one_ok x s Hok) as [[-> Hfull]|(s1 & -> & Hok1 & Hf1 & Hr1 & Hl1 & Hc1 & Hcap1 & Hn1)];
    [lia|done|rewrite bind_ok; apply Hstop; by right|].
  rewrite bind_ok. clear Hstop. set (s2 := s1 <| last_recv_complete_seq := s_seq x |>).
  assert (Hl2 : last_recv_complete_seq s2 = last_recv_complete_seq s + 1) by (cbn; lia).
  assert (Hmag : magic_req s2 = magic_req s /\ magic_resp s2 = magic_resp s) by (unfold s2; by rewrite Hf1).
  destruct Hmag as [Hmq Hmp].
  destruct (IH s2) as (s' & k & Hd & Hok' & Hdr); [done|cbn; lia|by rewrite Hmp|lia|lia|].
  rewrite <- Hl2. exists s', (S k). split; [exact Hd|]. split; [done|].
  destruct Hdr as (D1 & D2 & D3 & D4 & D5 & D6 & D7 & D8 & D9).
  unfold drained. cbn [length take drop map app_payloads]. split_and!.
  - by apply (drain_frame_trans s s1 s2 s').
  - lia.
  - done.
  - lia.
  - rewrite D5, Hl2, Nat2Z.inj_succ, (seqZ_cons (last_recv_complete_seq s + 1)) by lia.
    f_equal; [lia|]. f_equal; lia.
  - rewrite D6. cbn [s2 upd recv_fifo]. change (recv_fifo s2) with (recv_fifo s1). rewrite Hc1, <- app_assoc.
    do 2 f_equal. unfold app_payloads, app_bytes. by rewrite Hmq, Hmp.
  - by rewrite D7.
  - change (next_send_seq s2) with (next_send_seq s1) in D8. lia.
  - change (next_send_seq s2) with (next_send_seq s1) in D8. lia.
  - done.
Qed.

Lemma drain_ok s :
  recv_ok s -> next_send_seq s + len (recv_segments s) < 2 ^ 63 -> len (magic_resp s) <= 512 ->
  0 <= last_recv_complete_seq s -> last_recv_complete_seq s + len (recv_segments s) < 2 ^ 64 ->
  exists s' k, rt_drain s = Ok s' /\ recv_ok s' /\ drained (recv_segments s) s s' k.
Proof. intros. by apply drain_loop_ok. Qed.

(** ** The receive side over time *)

Section stream.
(** [msg n]: the payload the peer sends under sequence number [n]. *)
Context (msg : Z -> list Z).

(** Whatever the send side does between two receive events. *)
Definition same_recv (s s' : rt_session) : Prop :=
  recv_segments s' = recv_segments s /\ last_recv_complete_seq s' = last_recv_complete_seq s /\
  recv_fifo s' = recv_fifo s /\ magic_req s' = magic_req s /\ magic_resp s' = magic_resp s /\
  send_ok s'.

(** Sessions far from the end of the 64-bit sequence space. *)
Definition young (s : rt_session) : Prop :=
  next_send_seq s < 2 ^ 62 /\ 0 <= last_recv_complete_seq s < 2 ^ 62.

(** The second component is what the application has received so far. *)
Inductive recv_step : rt_session * list Z -> rt_session * list Z -> Prop :=
| rs_arrive s out sq : young s -> recv_step (s, out) (rt_process_recv_payload sq (msg sq) s, out)
| rs_drain s s' out : young s -> rt_drain s = Ok s' -> recv_step (s, out) (s', out)
| rs_flush s f out n b :
    0 <= n <= f_size (recv_fifo s) ->
    rt_fifo_peek (recv_fifo s) n = Ok b -> rt_fifo_advance (recv_fifo s) n = Ok f ->
    recv_step (s, out) (s <| recv_fifo := f |>, out ++ b)
| rs_other s s' out : same_recv s s' -> recv_step (s, out) (s', out).

(** The peer's stream up to a sequence number, without keep-alives. *)
Definition stream (s : rt_session) (n : Z) : list Z :=
  mjoin (map (fun i => app_bytes s (msg i)) (seqZ 1 n)).

Definition fresh (s : rt_session) : Prop :=
  recv_ok s /\ recv_segments s = [] /\ last_recv_complete_seq s = 0 /\
  contents (recv_fifo s) = [] /\ len (magic_resp s) <= 512.

Definition stream_inv (st : rt_session * list Z) : Prop :=
  let '(s, out) := st in
  recv_ok s /\ Forall (fun x => s_data x = msg (s_seq x)) (recv_segments s) /\
  len (recv_segments s) <= 64 /\ 0 <= last_recv_complete_seq s /\ len (magic_resp s) <= 512 /\
  out ++ contents (recv_fifo s) = stream s (last_recv_complete_seq s).

Lemma add_ack_frame n s : exists l, rt_add_ack n s = s <| reply_acks := l |>.
Proof.
  unfold rt_add_ack. destruct (existsb _ _); [exists (reply_acks s); by destruct s|].
  destruct (_ <? _); [by eexists|exists (reply_acks s); by destruct s].
Qed.

(** An arrival changes only the acknowledgements, and at most appends one new
    segment beyond the delivered ones. *)
Lemma process_recv_cases sq d s :
  exists l, rt_process_recv_payload sq d s = s <| reply_acks := l |> \/
    (len (recv_segments s) < 64 /\
     rt_process_recv_payload sq d s =
       s <| recv_segments := recv_segments s ++ [Segment sq d 0 0] |> <| reply_acks := l |>).
Proof.
  assert (Hs : exists l, s = s <| reply_acks := l |>) by (exists (reply_acks s); by destruct s).
  unfold rt_process_recv_payload, RUDP_T_MAX_NUM_ACK.
  destruct (_ >? _); [destruct Hs as [l Hl]; exists l; by left|].
  destruct (_ <=? _); [destruct (add_ack_frame sq s) as [l Hl]; exists l; by left|].
  destruct (existsb _ _); [destruct (add_ack_frame sq s) as [l Hl]; exists l; by left|].
  destruct (_ >=? _) eqn:E; [destruct Hs as [l Hl]; exists l; by left|].
  match goal with |- context [rt_add_ack sq ?s'] => destruct (add_ack_frame sq s') as [l Hl] end.
  exists l. right. split; [lia|done].
Qed.

Lemma stream_of_app s k : forall n l,
  0 <= n -> Forall (fun x => s_data x = msg (s_seq x)) l ->
  map s_seq (take k l) = seqZ (n + 1) (Z.of_nat k) ->
  stream s (n + Z.of_nat k) = stream s n ++ app_payloads s (take k l).
Proof.
  intros n l Hn Hl Hseq. unfold stream. rewrite seqZ_app by lia. rewrite map_app, join_app.
  f_equal. replace (1 + n) with (n + 1) by lia. rewrite <- Hseq, map_map. unfold app_payloads. f_equal.
  apply map_ext_Forall. eapply Forall_impl; [apply Forall_take, Hl|]. cbn. intros x ->. done.
Qed.

Lemma stream_inv_step st st' : stream_inv st -> recv_step st st' -> stream_inv st'.
Proof.
  intros HI Hstep. destruct Hstep as [s out sq Hy|s s' out Hy Hd|s f out n b Hn Hp Ha|s s' out Hsame];
    destruct HI as (Hok & Hmsg & Hlen & Hlast & Hm & Hst).
  - destruct (process_recv_cases sq (msg sq) s) as [l [->|[Hlt ->]]]; [done|].
    split; [done|]. cbn. split; [|split; [slia|done]].
    apply Forall_app. split; [done|]. by constructor.
  - destruct (drain_ok s) as (s1 & k & E & Hok1 & D1 & D2 & D3 & D4 & D5 & D6 & D7 & D8 & _);
      [done|destruct Hy; lia|done|done|destruct Hy; lia|].
    rewrite E in Hd. injection Hd as ->.
    assert (Hmag : magic_req s' = magic_req s /\ magic_resp s' = magic_resp s) by (by rewrite D1).
    destruct Hmag as [Hmq Hmp]. split; [done|]. rewrite D3. split; [by apply Forall_drop|].
    split; [unfold len in *; rewrite length_drop; lia|]. split; [lia|]. split; [by rewrite Hmp|].
    rewrite D6, app_assoc, Hst, D4. unfold stream, app_bytes. rewrite Hmq, Hmp.
    symmetry. by apply stream_of_app.
  - destruct Hok as [Hs Hf]. pose proof (len_contents _ Hf) as Hlc.
    destruct (fifo_advance_ok (recv_fifo s) n) as (f' & Ea & Hfo & _ & Hco); [done|lia..|].
    rewrite Ea in Ha. injection Ha as ->.
    rewrite fifo_peek_ok in Hp by (done || lia). injection Hp as <-.
    split; [split; [done|exact Hfo]|]. cbn. split_and!; try done.
    rewrite Hco, <- app_assoc, tk_dr. done.
  - destruct Hsame as (H1 & H2 & H3 & H4 & H5 & H6).
    split; [split; [done|rewrite H3; apply Hok]|]. rewrite H1, H2, H3, H5. split_and!; try done.
    rewrite Hst. unfold stream, app_bytes. by rewrite H4, H5.
Qed.

End stream.
