(* ===== verification/RtWorker.v ===== *)
(** * R-UDP transport: the worker never leaves its arrays

    [safe_upto b] is the session invariant together with a bound on the
    sequence numbers used so far. Receiving any datagram, the periodic
    processing and a whole worker iteration preserve it, with the bound
    growing by at most 200 per call. *)
From S2P Require Import Prelude Bytes Crypto Fifo Rt RtCodec RtSession RtWire RtInv RtQueue.

Definition upto (b : Z) (s : rt_session) : Prop :=
  session_ok s /\ next_send_seq s <= b /\ 0 <= last_recv_complete_seq s <= b.

Definition safe_upto (b : Z) (w : world) : Prop := upto b (se (w_t w)) /\ hash_ok (w_t w).

Lemma upto_mono b b' s : b <= b' -> upto b s -> upto b' s.
Proof. unfold upto. intros ? (? & ? & ?). split_and!; (done || lia). Qed.

Lemma triple_mono {A} b b' (m : M A) Q :
  b <= b' -> triple (safe_upto b') m Q -> triple (safe_upto b) m Q.
Proof.
  intros Hb H. eapply triple_conseq; [exact H| |done]. intros w [Hu Hh].
  split; [by apply (upto_mono b)|done].
Qed.

(** Session updates, lifted to the world. *)
Lemma upto_modify_se b b' f :
  (forall s, upto b s -> upto b' (f s)) ->
  triple (safe_upto b) (modify_se f) (fun _ => safe_upto b').
Proof. intros Hf w [Hu Hh]. split; [by apply Hf|done]. Qed.

Lemma upto_modify_t b f :
  (forall t, se (f t) = se t /\ (hash_ok t -> hash_ok (f t))) ->
  triple (safe_upto b) (modify_t f) (fun _ => safe_upto b).
Proof.
  intros Hf w [Hu Hh]. destruct (Hf (w_t w)) as [H1 H2].
  split; [change (upto b (se (f (w_t w)))); by rewrite H1|by apply H2].
Qed.

Lemma upto_modify b f :
  (forall w, w_t (f w) = w_t w) -> triple (safe_upto b) (modify f) (fun _ => safe_upto b).
Proof. intros Hf w H. change (safe_upto b (f w)). unfold safe_upto. by rewrite Hf. Qed.

Lemma upto_gets {A} b (f : world -> A) :
  triple (safe_upto b) (gets f) (fun a w => safe_upto b w /\ a = f w).
Proof. by apply triple_gets. Qed.

Lemma upto_get_se b : triple (safe_upto b) get_se (fun s w => safe_upto b w /\ upto b s).
Proof. apply triple_gets. by intros w [Hu Hh]. Qed.

Lemma upto_get_t b : triple (safe_upto b) get_t (fun t w => safe_upto b w /\ upto b (se t) /\ hash_ok t).
Proof. apply triple_gets. by intros w [Hu Hh]. Qed.

Lemma upto_set_se b s : upto b s -> forall b', triple (safe_upto b') (modify_se (fun _ => s)) (fun _ => safe_upto b).
Proof. intros Hs b' w [_ Hh]. by split. Qed.

(** Whatever preserves [sends] preserves [safe_upto]. *)
Lemma upto_of_sends {A} b (m : M A) R' :
  (forall c, triple (sends (fun _ => True) c) m (fun _ => sends R' c)) ->
  triple (safe_upto b) m (fun _ w => safe_upto b w /\ R' (reply_acks (se (w_t w)))).
Proof.
  intros H w [(Hok & Hn & Hl) Hh].
  specialize (H (frame w) w). destruct (m w) as [| |[a w']]; [apply H; by split_and!..|].
  destruct H as ([Hok' Hh'] & Hf & HR); [by split_and!|].
  split; [|done]. split; [|done]. split; [done|].
  pose proof (f_equal (fun w => next_send_seq (se (w_t w))) Hf) as H1.
  pose proof (f_equal (fun w => last_recv_complete_seq (se (w_t w))) Hf) as H2. cbn in H1, H2. lia.
Qed.

Lemma upto_of_sends' {A} b (m : M A) R' :
  (forall c, triple (sends (fun _ => True) c) m (fun _ => sends R' c)) ->
  triple (safe_upto b) m (fun _ => safe_upto b).
Proof. intros H. eapply triple_conseq; [by apply upto_of_sends|done|]. by intros a w []. Qed.

(** [m] does not change what [f] shows of the state. *)
Definition keeps {T A} (f : world -> T) (m : M A) : Prop :=
  forall w, match m w with Ok (_, w') => f w' = f w | _ => True end.

Section keeps.
Context {T : Type} (g : world -> T).
Abbreviation keeps := (keeps g).

Lemma keeps_bind {A B} (m : M A) (f : A -> M B) : keeps m -> (forall a, keeps (f a)) -> keeps (m ≫= f).
Proof.
  intros Hm Hf w. specialize (Hm w). unfold mbind, St_bind. destruct (m w) as [| |[a w']]; [done..|].
  specialize (Hf a w'). destruct (f a w') as [| |[c w'']]; [done..|]. by rewrite Hf.
Qed.
Lemma keeps_lift {A} (r : res A) : keeps (lift r).
Proof. intros w. by destruct r. Qed.
Lemma keeps_if {A} (b : bool) (m1 m2 : M A) : keeps m1 -> keeps m2 -> keeps (if b then m1 else m2).
Proof. by destruct b. Qed.
Lemma keeps_when b m : keeps m -> keeps (when b m).
Proof. by destruct b. Qed.
Lemma keeps_repeat n m : keeps m -> keeps (repeat_m n m).
Proof. intros Hm. induction n; [done|]. by apply keeps_bind. Qed.
Lemma keeps_for_each js f : (forall j, keeps (f j)) -> keeps (for_each js f).
Proof. intros Hf. induction js; [done|]. by apply keeps_bind. Qed.
End keeps.

Create HintDb keeps.
Ltac keeps_step :=
  first [ done | apply keeps_bind; [|intros ?] | apply keeps_lift | apply keeps_if | apply keeps_when
        | apply keeps_repeat | progress cbv zeta ].
Ltac keeps_tac := repeat keeps_step.

(** The descriptors and flags the owner of the thread set, with the coming
    results of [send]. *)
Definition ends (w : world) : Z * Z * Z * bool * bool :=
  let t := w_t w in (udp_fd t, app_fd t, worker_fd t, thread_started t, halt t).
Definition outside (w : world) : list send_result * (Z * Z * Z * bool * bool) := (w_app_room w, ends w).

Section worker.
Context (sha1 : list Z -> list Z) (tick : nat -> Z) (rand : nat -> Z -> bool * list Z).
Context (Hsha : sha1_ok sha1) (Hrand : rand_ok rand).

Lemma upto_tick b : triple (safe_upto b) (rt_tick64 tick) (fun _ => safe_upto b).
Proof. by intros w H. Qed.

Lemma upto_bytes b n : 0 <= n ->
  triple (safe_upto b) (generate_random_bytes rand n) (fun r w => safe_upto b w /\ len (snd r) = n).
Proof. intros Hn w H. split; [done|by apply Hrand]. Qed.

Lemma upto_rand b : triple (safe_upto b) (rt_rand_u32 rand) (fun _ => safe_upto b).
Proof. by intros w H. Qed.

Lemma upto_send_udp b data :
  20 <= len data <= RUDP_T_MAX_PACKET_SIZE ->
  triple (safe_upto b) (rt_send_udp sha1 tick rand data) (fun _ => safe_upto b).
Proof. intros Hd. apply (upto_of_sends' b _ (fun _ => True)). intros c. by apply send_udp_ok. Qed.

Lemma upto_send_segment b sq data :
  len data <= 512 ->
  triple (safe_upto b) (rt_send_segment_now sha1 tick rand sq data)
    (fun _ w => safe_upto b w /\ reply_acks (se (w_t w)) = []).
Proof.
  intros Hd. apply (upto_of_sends b _ (fun l => l = [])). intros c. by apply send_segment_ok.
Qed.

Lemma upto_send_segment' b sq data :
  len data <= 512 ->
  triple (safe_upto b) (rt_send_segment_now sha1 tick rand sq data) (fun _ => safe_upto b).
Proof.
  intros Hd. eapply triple_conseq; [by apply upto_send_segment|done|]. by intros ? w [].
Qed.

Lemma upto_repeat b n m :
  triple (safe_upto b) m (fun _ => safe_upto b) ->
  triple (safe_upto b) (repeat_m n m) (fun _ => safe_upto b).
Proof.
  intros Hm. induction n as [|n IH]; [by apply triple_ret|]. cbn [repeat_m].
  eapply triple_bind; [exact Hm|]. intros ?. exact IH.
Qed.

Lemma upto_signal b ok : triple (safe_upto b) (rt_signal_result ok) (fun _ => safe_upto b).
Proof. apply upto_modify_t. intros t. by destruct (result_ready t). Qed.

Lemma upto_disconnected b by_you :
  triple (safe_upto b) (rt_set_disconnected sha1 tick rand by_you) (fun _ => safe_upto b).
Proof.
  unfold rt_set_disconnected. eapply triple_bind; [apply upto_get_se|]. intros s.
  apply triple_pure. intros Hs. apply triple_if; intros _; [by apply triple_ret|].
  eapply triple_bind.
  { apply triple_when with (Q := fun _ => safe_upto b); [intros _|done].
    apply upto_repeat, upto_send_segment'. rewrite len_nil. lia. }
  intros ?. eapply triple_bind; [by apply (upto_modify_se b b)|].
  intros ?. eapply triple_bind; [apply upto_get_t|]. intros t. apply triple_pure. intros _.
  eapply triple_bind.
  { apply triple_when with (Q := fun _ => safe_upto b); [intros _|done]. by apply upto_modify. }
  intros ?. apply upto_signal.
Qed.

(** ** Receiving *)

Lemma remove_seq_sublist n l : remove_seq n l `sublist_of` l.
Proof.
  induction l as [|x l IH]; [done|]. cbn. destruct (_ =? _); [by apply sublist_cons|].
  by apply sublist_skip.
Qed.
Lemma remove_upto_sublist n l : remove_upto n l `sublist_of` l.
Proof.
  induction l as [|x l IH]; [done|]. cbn. destruct (_ <=? _); [by apply sublist_cons|].
  by apply sublist_skip.
Qed.

Lemma upto_send_segments b s l :
  l `sublist_of` send_segments s -> upto b s -> upto b (s <| send_segments := l |>).
Proof.
  intros Hl [Hok Hb]. split; [|done]. unfold session_ok in *. cbn. destruct Hok as (?&?&?&?&?&Hseg&?).
  split_and!; try tauto. by eapply segs_sublist.
Qed.

Lemma upto_acks b h s : upto b s -> upto b (rt_apply_acks h s).
Proof.
  intros Hs. unfold rt_apply_acks.
  assert (H1 : upto b (if h_max_ack h >=? 1 then rt_process_ack2 (h_max_ack h) s else s)).
  { destruct (_ >=? _); [|done]. apply upto_send_segments; [apply remove_upto_sublist|done]. }
  revert H1. generalize (if h_max_ack h >=? 1 then rt_process_ack2 (h_max_ack h) s else s).
  induction (h_acks h) as [|a l IH]; intros s' Hs'; [done|]. cbn [fold_left]. apply IH.
  apply upto_send_segments; [apply remove_seq_sublist|done].
Qed.

Lemma upto_ticks b h s : upto b s -> upto b (rt_apply_ticks h s).
Proof. intros Hs. unfold rt_apply_ticks. by repeat destruct (_ >? _). Qed.

Lemma upto_add_ack b n s : upto b s -> upto b (rt_add_ack n s).
Proof.
  intros [Hok Hb]. unfold rt_add_ack, RUDP_T_MAX_NUM_ACK. destruct (existsb _ _); [done|].
  destruct (_ <? _) eqn:E; [|done]. split; [|done]. apply session_ok_acks; [done|slia].
Qed.

Lemma upto_recv_payload b n d s : len d <= 512 -> upto b s -> upto b (rt_process_recv_payload n d s).
Proof.
  intros Hd Hs. unfold rt_process_recv_payload. rt_consts.
  destruct (_ >? _); [done|]. destruct (_ <=? _); [by apply upto_add_ack|].
  destruct (existsb _ _); [by apply upto_add_ack|]. destruct (_ >=? _) eqn:E; [done|].
  apply upto_add_ack. destruct Hs as [Hok Hb]. split; [|done]. unfold session_ok in *. cbn.
  destruct Hok as (?&?&?&?&?&?&Hr&Hl&?). split_and!; try tauto.
  - apply Forall_app. split; [done|]. by constructor.
  - slia.
Qed.

Lemma upto_accept b port h :
  triple (safe_upto b) (rt_accept sha1 tick rand port h) (fun _ => safe_upto b).
Proof.
  unfold rt_accept. eapply triple_bind.
  { apply (upto_modify_se b b). intros s Hs. by apply upto_ticks, upto_acks. }
  intros ?. eapply triple_bind; [apply upto_get_se|]. intros s. apply triple_pure. intros Hs.
  eapply triple_bind.
  { apply triple_when with (Q := fun _ => safe_upto b); [intros _|done].
    eapply triple_bind; [apply upto_tick|]. intros now. by apply (upto_modify_se b b). }
  intros ?. apply triple_if; intros _; [by apply triple_ret|].
  apply triple_if; intros _; [apply upto_disconnected|]. cbv zeta.
  set (d := if _ >? _ then [] else _).
  assert (Hd : len d <= 512) by (unfold d; rt_consts; destruct (_ >? _) eqn:?; [by rewrite len_nil|lia]).
  clearbody d. eapply triple_bind.
  { apply triple_when with (Q := fun _ => safe_upto b); [intros _|done].
    apply (upto_modify_se b b). intros s' Hs'. by apply upto_recv_payload. }
  intros ?. eapply triple_bind; [apply upto_get_se|]. intros s'. apply triple_pure. intros Hs'.
  eapply triple_bind.
  { apply triple_when with (Q := fun _ => safe_upto b); [intros _|done].
    eapply triple_bind; [by apply (upto_modify_se b b)|]. intros ?. apply upto_signal. }
  intros ?. by apply (upto_modify_se b b).
Qed.

Lemma upto_handle b ip port buf :
  bytes_ok buf ->
  triple (safe_upto b) (rt_handle_udp_packet sha1 tick rand ip port buf) (fun _ => safe_upto b).
Proof.
  intros Hb. unfold rt_handle_udp_packet. eapply triple_bind; [apply upto_get_t|]. intros t.
  apply triple_pure. intros [Hs Hh].
  apply triple_if; intros _; [by apply triple_ret|].
  apply triple_if; intros Hn; [by apply triple_ret|].
  apply triple_if; intros Hn'; [unfold RUDP_T_SHA1_SIZE in Hn; congruence|].
  pose proof (unseal_safe sha1 t (key_recv (se t)) buf Hb) as Hu.
  destruct (rt_unseal _ _ _ _) as [| |enc]; [done|by apply triple_ret|]. destruct Hu as [Heb _].
  pose proof (parse_safe enc Heb) as Hp. destruct (rt_parse enc) as [| |h]; [done|by apply triple_ret|].
  eapply triple_bind; [apply upto_tick|]. intros now.
  apply triple_if; intros _; [by apply triple_ret|]. apply upto_accept.
Qed.

(** ** Periodic processing *)

Lemma upto_recv_fifo b s f :
  fifo_ok f -> f_cap f = RUDP_T_MAX_FIFO_SIZE -> upto b s -> upto b (s <| recv_fifo := f |>).
Proof. intros Hf Hc [Hok Hb]. split; [|done]. unfold session_ok in *. cbn. tauto. Qed.

Lemma upto_send_fifo b s f :
  fifo_ok f -> f_cap f = RUDP_T_MAX_FIFO_SIZE -> upto b s -> upto b (s <| send_fifo := f |>).
Proof. intros Hf Hc [Hok Hb]. split; [|done]. unfold session_ok in *. cbn. tauto. Qed.

Lemma fifo_advance_clip f n :
  fifo_ok f -> 0 <= n -> exists f', rt_fifo_advance f n = Ok f' /\ fifo_ok f' /\ f_cap f' = f_cap f.
Proof.
  intros Hf Hn. pose proof Hf as (_ & _ & _ & Hs). destruct (decide (n <= f_size f)).
  - destruct (fifo_advance_ok f n) as (f' & ? & ? & ? & _); [done..|]. by exists f'.
  - destruct (fifo_advance_ok f (f_size f)) as (f' & E & ? & ? & _); [done|lia..|]. exists f'.
    split; [|done]. rewrite <- E. unfold rt_fifo_advance.
    replace (n >? f_size f) with true by lia. by replace (f_size f >? f_size f) with false by lia.
Qed.

(** [send] returns a byte count that is not negative. *)
Definition room_ok (l : list send_result) : Prop :=
  Forall (fun r => match r with SCount n => 0 <= n | SError => True end) l.

Lemma upto_pump_recv b room :
  room_ok room ->
  triple (safe_upto b) (pump_recv_loop sha1 tick rand room) (fun _ => safe_upto b).
Proof.
  induction 1 as [|r room Hr Hroom IH]; cbn [pump_recv_loop].
  all: eapply triple_bind; [apply upto_get_se|]; intros s; apply triple_pure; intros Hs.
  all: apply triple_if; intros Hn; [|by apply triple_ret].
  all: pose proof Hs as ((_&_&_&_&_&_&_&_&_&_&_&Hrf&Hrc) & _).
  all: set (n := if _ >? _ then _ else _);
    assert (Hn0 : 0 <= n) by (unfold n; rt_consts; destruct (_ >? _) eqn:?; lia).
  all: eapply triple_bind; [apply (triple_lift _ _ (fun _ => safe_upto b)); intros w Hw;
    rewrite fifo_peek_ok by done; by eexists|]; intros tmp.
  - by apply triple_ret.
  - destruct r as [k|].
    + eapply triple_bind; [by apply upto_modify|]. intros ?.
      apply triple_if; intros Hk; [by apply triple_ret|].
      eapply triple_bind; [by apply upto_modify|]. intros ?.
      destruct (fifo_advance_clip _ k Hrf Hr) as (f & -> & Hf & Hc).
      eapply triple_bind; [apply (triple_lift _ _ (fun x w => safe_upto b w /\ x = f)); by eexists|].
      intros x. apply triple_pure. intros ->. eapply triple_bind; [|intros ?; exact IH].
      apply (upto_modify_se b b). intros s'. apply upto_recv_fifo; [done|by rewrite Hc].
    + eapply triple_bind; [by apply upto_modify|]. intros ?. by apply upto_disconnected.
Qed.

Lemma fifo_put_ok f d : fifo_ok f -> exists f', fifo_put f d = Ok f' /\ fifo_ok f' /\ f_cap f' = f_cap f.
Proof.
  intros Hf. unfold fifo_put. destruct (decide (len d <= f_cap f - f_size f)).
  - destruct (fifo_write_ok f d) as (f' & -> & ? & ? & _); [done..|]. by exists f'.
  - rewrite fifo_write_full by (done || lia). by exists f.
Qed.

Lemma upto_pump_send b inp :
  triple (safe_upto b) (pump_send_loop sha1 tick rand inp) (fun _ => safe_upto b).
Proof.
  induction inp as [|r inp IH]; cbn [pump_send_loop].
  all: eapply triple_bind; [apply upto_get_se|]; intros s; apply triple_pure; intros Hs.
  all: apply triple_if; intros _; [by apply triple_ret|].
  - by apply triple_ret.
  - destruct r as [d| |]; eapply triple_bind; try (by apply upto_modify); intros ?;
      [|by apply upto_disconnected..].
    pose proof Hs as ((_&_&_&_&_&_&_&_&_&Hsf&Hsc&_) & _).
    destruct (fifo_put_ok (send_fifo s) d Hsf) as (f & -> & Hf & Hc).
    eapply triple_bind; [apply (triple_lift _ _ (fun x w => safe_upto b w /\ x = f)); by eexists|].
    intros x. apply triple_pure. intros ->. eapply triple_bind; [|intros ?; exact IH].
    apply (upto_modify_se b b). intros s'. apply upto_send_fifo; [done|by rewrite Hc].
Qed.

Lemma upto_queue b d s :
  upto b s -> b + 64 < 2 ^ 63 -> len d <= 512 -> send_segments s = [] ->
  exists s', rt_queue_segment d s = Ok s' /\ upto (b + 1) s'.
Proof.
  intros [Hok Hb] Hbb Hd Hnil. pose proof Hok as (?&?&?&?&?&Hseg&?).
  rewrite queue_segment_ok by (done || lia || (rewrite Hnil, len_nil; lia)).
  eexists. split; [done|]. split; [|cbn; lia]. unfold session_ok in *. cbn. split_and!; try tauto.
  apply segs_app; [done|done|]. by rewrite Hnil.
Qed.

Lemma upto_icmp_echo b : triple (safe_upto b) (rt_send_icmp_echo sha1 tick rand) (fun _ => safe_upto b).
Proof.
  unfold rt_send_icmp_echo. eapply triple_bind; [apply upto_rand|]. intros r.
  pose proof (Z.mod_pos_bound r 64 ltac:(lia)).
  eapply triple_bind; [apply upto_bytes; lia|]. intros x. apply triple_pure. intros Hl.
  apply upto_send_udp. rt_consts. slia.
Qed.

Lemma upto_echo_again b now : triple (safe_upto b) (echo_again rand now) (fun _ => safe_upto b).
Proof.
  unfold echo_again. eapply triple_bind; [apply upto_rand|]. intros r. by apply (upto_modify_se b b).
Qed.

Lemma upto_echo_due b now : triple (safe_upto b) (icmp_echo_due sha1 tick rand now) (fun _ => safe_upto b).
Proof.
  unfold icmp_echo_due. eapply triple_bind; [apply upto_get_t|]. intros t. apply triple_pure. intros _.
  apply triple_when; [intros _|done]. eapply triple_bind; [apply upto_icmp_echo|]. intros ?.
  apply upto_echo_again.
Qed.

Lemma upto_connect_sent b now :
  triple (safe_upto b) (interrupt_connect_sent sha1 tick rand now) (fun _ => safe_upto b).
Proof.
  unfold interrupt_connect_sent. eapply triple_bind; [apply upto_get_t|]. intros t.
  apply triple_pure. intros [Hs Hh]. pose proof Hs as ((Hk & _) & _).
  eapply triple_bind.
  { apply triple_when with (Q := fun _ => safe_upto b); [intros _|done].
    eapply triple_bind; [apply upto_bytes; lia|]. intros r. apply triple_pure. intros Hr. cbv zeta.
    assert (Hprobe : triple (safe_upto b) (rt_send_udp sha1 tick rand
      (tk 20 (key_init (se t)) ++ tk 19 (snd r))) (fun _ => safe_upto b))
      by (apply upto_send_udp; rt_consts; slia).
    eapply triple_bind with (R := fun _ => safe_upto b).
    - apply triple_if; intros _; [|exact Hprobe].
      eapply triple_bind; [apply upto_icmp_echo|]. intros ?.
      eapply triple_bind; [apply upto_echo_again|]. intros ?.
      eapply triple_bind; [exact Hprobe|]. intros ?. by apply upto_modify_t.
    - intros ?. by apply (upto_modify_se b b). }
  intros ?. eapply triple_bind.
  { apply triple_when with (Q := fun _ => safe_upto b); [intros _|done].
    eapply triple_bind; [by apply upto_modify_t|]. intros ?. apply upto_disconnected. }
  intros ?. apply upto_echo_due.
Qed.

Lemma upto_keepalive b now :
  b + 65 < 2 ^ 63 -> triple (safe_upto b) (keepalive rand now) (fun _ => safe_upto (b + 1)).
Proof.
  intros Hb. unfold keepalive. eapply triple_bind; [apply upto_get_se|]. intros s. apply triple_pure. intros Hs.
  apply triple_when; [intros _|intros _ w [Hu Hh]; split; [eapply upto_mono; [|exact Hu]; lia|done]].
  eapply triple_bind with (R := fun _ => safe_upto (b + 1)).
  - apply triple_if; intros E.
    + pose proof Hs as ((_&_&_&Hm&_) & _).
      destruct (upto_queue b (magic_req s) s Hs) as (s' & -> & Hs'); [lia|lia|apply len_0_nil; lia|].
      eapply triple_bind; [apply (triple_lift _ _ (fun x w => safe_upto b w /\ x = s')); by eexists|].
      intros x. apply triple_pure. intros ->. by apply upto_set_se.
    + apply triple_ret. intros w [Hu Hh]. split; [eapply upto_mono; [|exact Hu]; lia|done].
  - intros ?. eapply triple_bind; [apply upto_rand|]. intros r. by apply (upto_modify_se (b + 1) (b + 1)).
Qed.

Lemma segs_insert l next j x y :
  l !! j = Some x -> s_seq y = s_seq x -> s_data y = s_data x -> segs_ok l next ->
  segs_ok (<[j := y]> l) next.
Proof.
  intros Hj Hs Hd (Hn & Hf & Hso & Hw).
  assert (Hmap : map (fun z => (s_seq z, s_data z)) (<[j := y]> l) = map (fun z => (s_seq z, s_data z)) l).
  { apply list_eq. intros i. rewrite !list_lookup_fmap.
    destruct (decide (i = j)) as [->|Hne].
    - rewrite list_lookup_insert_eq by (by eapply lookup_lt_Some). rewrite Hj. cbn. by rewrite Hs, Hd.
    - by rewrite list_lookup_insert_ne by congruence. }
  revert Hmap. generalize (<[j := y]> l). clear Hj. revert Hf Hso Hw. clear -Hn.
  intros Hf Hso Hw l' Hmap. split; [done|].
  assert (Hgen : Forall (fun z => 1 <= s_seq z < next /\ len (s_data z) <= 512) l' /\
    StronglySorted (fun a b => s_seq a < s_seq b) l').
  { clear Hw. revert l' Hmap. induction Hso as [|z l Hso IH Hz]; intros [|z' l'] Hmap; try done.
    { split; constructor. }
    cbn in Hmap. injection Hmap as H1 H2 H3. apply Forall_cons_1 in Hf as [Hz0 Hf].
    destruct (IH Hf l' H3) as [IH1 IH2]. split; [constructor; [by rewrite H1, H2|done]|].
    constructor; [done|]. rewrite H1. clear -Hz H3. revert l' H3.
    induction Hz as [|u l Hu Hz IH]; intros [|u' l'] H3; try done. cbn in H3. injection H3 as H4 H5 H6.
    constructor; [by rewrite H4|by apply IH]. }
  destruct Hgen. split; [done|]. split; [done|]. destruct l', l; try done. cbn in Hmap.
  injection Hmap as H1 _ _. by rewrite H1.
Qed.

Lemma upto_send_frame b c sq data :
  len data <= 512 ->
  triple (fun w => safe_upto b w /\ frame w = c) (rt_send_segment_now sha1 tick rand sq data)
    (fun _ w => safe_upto b w /\ frame w = c).
Proof.
  intros Hd w [[(Hok & Hb) Hh] Hc].
  pose proof (send_segment_ok sha1 tick rand Hsha Hrand (fun _ => True) c sq data Hd w) as H.
  destruct (rt_send_segment_now _ _ _ _ _ w) as [| |[a w']]; [apply H; by split_and!..|].
  destruct H as ([Hok' Hh'] & Hf & _); [by split_and!|]. split; [|done]. split; [|done]. split; [done|].
  rewrite <- Hc in Hf.
  pose proof (f_equal (fun w => next_send_seq (se (w_t w))) Hf) as H1.
  pose proof (f_equal (fun w => last_recv_complete_seq (se (w_t w))) Hf) as H2. cbn in H1, H2. lia.
Qed.

(** [n] segments are in flight. *)
Definition inflight (n : nat) (w : world) : Prop := length (send_segments (se (w_t w))) = n.

Lemma upto_resend_one b n now sm j :
  (j < n)%nat ->
  triple (fun w => safe_upto b w /\ inflight n w) (resend_one sha1 tick rand now sm j)
    (fun _ w => safe_upto b w /\ inflight n w).
Proof.
  intros Hj. unfold resend_one.
  eapply triple_bind with (R := fun s w => (safe_upto b w /\ inflight n w) /\
    (upto b s /\ length (send_segments s) = n /\ s = se (w_t w))).
  { apply triple_gets. intros w [[Hu Hh] Hn]. by split_and!. }
  intros s w [[Hw Hn] (Hs & Hns & ->)]. set (s := se (w_t w)) in *.
  destruct (send_segments s !! j) as [x|] eqn:Ej; [|apply lookup_ge_None in Ej; lia].
  destruct (_ >? _); [done|]. destruct (_ && _); [done|]. cbv zeta.
  match goal with |- context [<[j := ?y]>] => set (x' := y) end.
  assert (Hs' : upto b (s <| send_segments := <[j := x']> (send_segments s) |>)).
  { destruct Hs as [Hok Hb]. split; [|done]. unfold session_ok in *. cbn. split_and!; try tauto.
    by eapply segs_insert; [exact Ej|..|apply Hok]. }
  set (w1 := w <| w_t := (w_t w) <| se := s <| send_segments := <[j := x']> (send_segments s) |> |> |>).
  assert (Hw1 : safe_upto b w1) by (split; [exact Hs'|apply Hw]).
  pose proof Hs as ((_&_&_&_&_&(_&Hf&_)&_) & _).
  assert (Hd : len (s_data x') <= 512) by (apply (Forall_lookup_1 _ _ _ _ Hf Ej)).
  pose proof (upto_send_frame b (frame w1) (s_seq x') (s_data x') Hd w1 (conj Hw1 eq_refl)) as H.
  change (match rt_send_segment_now sha1 tick rand (s_seq x') (s_data x') w1 with
    Ok (a, w') => safe_upto b w' /\ inflight n w' | _ => False end).
  destruct (rt_send_segment_now _ _ _ _ _ w1) as [| |[a w']]; [done..|]. destruct H as [H1 H2].
  split; [done|]. pose proof (f_equal (fun w => length (send_segments (se (w_t w)))) H2) as H3.
  cbn in H3. rewrite length_insert in H3. unfold inflight. by rewrite H3.
Qed.

Lemma upto_retransmit b now :
  triple (safe_upto b) (retransmit sha1 tick rand now) (fun _ => safe_upto b).
Proof.
  intros w Hw. unfold retransmit, mbind, St_bind, get_se, gets. set (s := se (w_t w)).
  set (sm := match send_segments s with [] => 0 | x :: _ => s_seq x end).
  assert (H : forall js, Forall (fun j => j < length (send_segments s))%nat js ->
    triple (fun w => safe_upto b w /\ inflight (length (send_segments s)) w)
      (for_each js (resend_one sha1 tick rand now sm))
      (fun _ w => safe_upto b w /\ inflight (length (send_segments s)) w)).
  { induction 1 as [|j js Hj Hjs IH]; [by apply triple_ret|]. cbn [for_each].
    eapply triple_bind; [by apply upto_resend_one|]. intros ?. exact IH. }
  assert (Hjs : Forall (fun j => j < length (send_segments s))%nat (seq 0 (length (send_segments s))))
    by (apply Forall_seq; lia).
  specialize (H _ Hjs w (conj Hw eq_refl)).
  destruct (for_each _ _ w) as [| |[a w']]; [done..|]. by destruct H.
Qed.

Lemma upto_drain_acks b : triple (safe_upto b) (drain_acks sha1 tick rand 2) (fun _ => safe_upto b).
Proof.
  cbn [drain_acks]. eapply triple_bind; [apply upto_get_se|]. intros s. apply triple_pure. intros Hs.
  apply triple_when; [intros _|done].
  eapply triple_bind; [apply upto_send_segment; rewrite len_nil; lia|]. intros ? w [Hw Ha].
  unfold mbind, St_bind, get_se, gets. by rewrite Ha.
Qed.

Lemma upto_drain b s :
  upto b s -> b + 64 < 2 ^ 63 -> exists s', rt_drain s = Ok s' /\ upto (b + 64) s'.
Proof.
  intros [Hok Hb] Hbb. pose proof Hok as (H1 & H2 & H3 & H4 & H5 & H6 & H7 & H8 & H9 & H10 & H11 & H12 & H13).
  destruct (drain_ok s) as (s' & k & E & [[Hseg Hsf] Hrf] & D1 & D2 & D3 & D4 & D5 & D6 & D7 & D8 & _);
    [done|lia..|]. exists s'. split; [done|].
  assert (Hk : 0 <= Z.of_nat k <= 64) by (unfold len in H8; lia).
  split; [|lia]. unfold session_ok.
  assert (Hkeep : key_init s' = key_init s /\ key_send s' = key_send s /\ next_iv s' = next_iv s /\
    magic_req s' = magic_req s /\ magic_resp s' = magic_resp s /\ reply_acks s' = reply_acks s /\
    send_fifo s' = send_fifo s) by (by rewrite D1).
  destruct Hkeep as (-> & -> & -> & -> & -> & -> & ->). split_and!; try (done || lia).
  - rewrite D3. by apply Forall_drop.
  - rewrite D3. unfold len in *. rewrite length_drop. lia.
Qed.

Lemma upto_segment b s :
  upto b s -> b + 64 < 2 ^ 63 -> exists s', rt_segment_send_fifo s = Ok s' /\ upto (b + 64) s'.
Proof.
  intros [Hok Hb] Hbb. pose proof Hok as (H1 & H2 & H3 & H4 & H5 & H6 & H7 & H8 & H9 & H10 & H11 & H12 & H13).
  assert (Hr : 0 <= room s <= 64).
  { destruct H6 as (Hn & Hf & _ & Hw). unfold room. destruct (send_segments s); [lia|].
    apply Forall_cons_1 in Hf as [? _]. lia. }
  destruct (segment_loop_ok 66 s) as (s' & segs & E & (Hs' & _ & Hq & _) & [Hseg Hsf] & Hcap & Hl);
    [done|lia..|]. exists s'. split; [done|].
  assert (Hkeep : key_init s' = key_init s /\ key_send s' = key_send s /\ next_iv s' = next_iv s /\
    magic_req s' = magic_req s /\ magic_resp s' = magic_resp s /\ reply_acks s' = reply_acks s /\
    recv_segments s' = recv_segments s /\ recv_fifo s' = recv_fifo s /\
    last_recv_complete_seq s' = last_recv_complete_seq s /\
    next_send_seq s' = next_send_seq s + len segs) by (by rewrite Hs').
  destruct Hkeep as (K1 & K2 & K3 & K4 & K5 & K6 & K7 & K8 & K9 & K10).
  split; [|rewrite K9, K10; lia]. unfold session_ok. rewrite K1, K2, K3, K4, K5, K6, K7, K8.
  split_and!; (done || lia).
Qed.

Lemma upto_interrupt b now :
  b + 200 < 2 ^ 63 ->
  triple (fun w => safe_upto b w /\ room_ok (w_app_room w)) (rt_interrupt sha1 tick rand now)
    (fun _ => safe_upto (b + 200)).
Proof.
  intros Hb. unfold rt_interrupt. set (P := fun b w => safe_upto b w /\ room_ok (w_app_room w)).
  assert (Hup : forall A (m : M A), triple (safe_upto b) m (fun _ => safe_upto b) ->
    triple (P b) m (fun _ => safe_upto (b + 200))).
  { intros A m Hm. eapply triple_conseq; [exact Hm|by intros w []|].
    intros ? w [Hu Hh]. split; [eapply upto_mono; [|exact Hu]; lia|done]. }
  eapply triple_bind with (R := fun s w => P b w /\ upto b s);
    [by apply triple_gets; intros w [[] ?]|]. intros s. apply triple_pure. intros Hs.
  apply triple_if; intros _; [apply Hup, upto_connect_sent; done|].
  apply triple_if; intros _; [apply Hup; by apply triple_ret|].
  apply triple_if; intros _.
  { apply Hup. eapply triple_bind; [by apply upto_modify_t|]. intros ?. by apply upto_disconnected. }
  destruct (upto_drain b s Hs) as (s1 & -> & Hs1); [lia|].
  eapply triple_bind; [apply (triple_lift _ _ (fun x w => P b w /\ x = s1)); by eexists|].
  intros x. apply triple_pure. intros ->.
  eapply triple_bind with (R := fun _ => P (b + 64)); [by intros w [[_ Hh] Hr]|].
  intros ?. eapply triple_bind with (R := fun _ => safe_upto (b + 64)).
  { unfold rt_pump_recv_to_pair.
    eapply triple_bind with (R := fun room w => safe_upto (b + 64) w /\ room_ok room);
      [by apply triple_gets; intros w []|].
    intros room. apply triple_pure. intros Hr. by apply upto_pump_recv. }
  intros ?.
  eapply triple_bind.
  { unfold rt_pump_pair_to_send. eapply triple_bind; [apply upto_gets|]. intros inp.
    eapply triple_conseq; [apply (upto_pump_send (b + 64) inp)|by intros w []|by intros ? w Hw; exact Hw]. }
  intros ?. eapply triple_bind; [apply upto_get_se|]. intros s2. apply triple_pure. intros Hs2.
  destruct (upto_segment (b + 64) s2 Hs2) as (s3 & -> & Hs3); [lia|].
  eapply triple_bind; [apply (triple_lift _ _ (fun x w => safe_upto (b + 64) w /\ x = s3)); by eexists|].
  intros x. apply triple_pure. intros ->. eapply triple_bind; [by apply (upto_set_se (b + 64 + 64))|].
  intros ?. eapply triple_bind; [apply upto_keepalive; lia|].
  intros ?. eapply triple_bind; [apply upto_echo_due|].
  intros ?. eapply triple_bind; [apply upto_retransmit|].
  intros ?. eapply triple_conseq; [apply upto_drain_acks|done|].
  intros ? w [Hu Hh]. split; [eapply upto_mono; [|exact Hu]; lia|done].
Qed.

(** ** The worker loop *)

Lemma keeps_send_udp d : keeps outside (rt_send_udp sha1 tick rand d).
Proof. unfold rt_send_udp, rt_rand_u32. keeps_tac. Qed.
Lemma keeps_send n d : keeps outside (rt_send_segment_now sha1 tick rand n d).
Proof. unfold rt_send_segment_now, rt_rand_u32. keeps_tac; apply keeps_send_udp. Qed.
Lemma keeps_signal ok : keeps outside (rt_signal_result ok).
Proof. intros w. cbn. by destruct (result_ready (w_t w)). Qed.
Lemma keeps_disconnected b : keeps outside (rt_set_disconnected sha1 tick rand b).
Proof. unfold rt_set_disconnected. keeps_tac; (apply keeps_send || apply keeps_signal). Qed.
Lemma keeps_handle ip port buf : keeps outside (rt_handle_udp_packet sha1 tick rand ip port buf).
Proof.
  unfold rt_handle_udp_packet. apply keeps_bind; [done|]. intros t. keeps_tac.
  destruct (rt_unseal _ _ _ _); [done..|]. destruct (rt_parse _); [done..|].
  unfold rt_accept. keeps_tac; (apply keeps_disconnected || apply keeps_signal).
Qed.

(** The state of the worker between two steps. *)
Definition worker_ok (b : Z) (w : world) : Prop := safe_upto b w /\ room_ok (w_app_room w).

Lemma worker_of_keeps {A} b (m : M A) :
  keeps outside m -> triple (safe_upto b) m (fun _ => safe_upto b) ->
  triple (worker_ok b) m (fun _ => worker_ok b).
Proof.
  intros Hk Hm w [Hw Hr]. specialize (Hk w). specialize (Hm w Hw).
  destruct (m w) as [| |[a w']]; [done..|]. split; [done|]. injection Hk as -> _. done.
Qed.

Lemma strip_ok t buf t' d :
  rt_strip t buf = Some (t', d) -> bytes_ok buf ->
  se t' = se t /\ (hash_ok t -> hash_ok t') /\ bytes_ok d.
Proof.
  unfold rt_strip. intros H Hb. repeat case_match; simplify_eq; split_and!; auto with bytes.
Qed.

Lemma recv_loop_ok b grams :
  Forall (fun g => bytes_ok (snd g)) grams ->
  triple (worker_ok b) (recv_loop sha1 tick rand grams) (fun _ => worker_ok b).
Proof.
  induction 1 as [|[[ip port] dg] grams Hg Hgs IH]; [by apply triple_ret|]. cbn [recv_loop]. cbv zeta.
  apply triple_if; intros _; [by apply triple_ret|].
  eapply triple_bind with (R := fun t w => worker_ok b w /\ t = w_t w); [by apply triple_gets|].
  intros t w [Hw ->]. destruct (rt_strip _ _) as [[t' d]|] eqn:Es; [|by apply IH].
  apply strip_ok in Es as (Hse & Hh & Hd); [|by apply bytes_ok_tk].
  assert (Hm : triple (worker_ok b) (rt_handle_udp_packet sha1 tick rand ip port d;; recv_loop sha1 tick rand grams)
    (fun _ => worker_ok b)).
  { eapply triple_bind; [|intros ?; exact IH].
    apply worker_of_keeps; [apply keeps_handle|by apply upto_handle]. }
  apply (Hm (w <| w_t := t' |>)). destruct Hw as [[Hu Hho] Hr].
  split; [|done]. split; [change (upto b (se t')); by rewrite Hse|by apply Hh].
Qed.

Lemma worker_ok_safe b w : worker_ok b w -> safe_upto b w.
Proof. by intros []. Qed.

(** Whatever bytes, clock readings and socket results the worker sees, one
    iteration stays inside its arrays. *)
Lemma worker_iter_ok b grams :
  b + 200 < 2 ^ 63 -> Forall (fun g => bytes_ok (snd g)) grams ->
  triple (worker_ok b) (worker_iter sha1 tick rand grams) (fun _ => safe_upto (b + 200)).
Proof.
  intros Hb Hg. unfold worker_iter.
  eapply triple_bind with (R := fun _ => worker_ok b); [by intros w H|]. intros ?.
  eapply triple_bind; [by apply recv_loop_ok|]. intros ?.
  eapply triple_bind with (R := fun _ => worker_ok b); [by apply triple_gets|]. intros s.
  eapply triple_bind with (R := fun _ => safe_upto (b + 200)).
  { apply triple_when; [intros _|].
    - eapply triple_bind with (R := fun _ => worker_ok b); [by intros w H|]. intros now.
      by apply upto_interrupt.
    - intros _ w [[Hu Hh] _]. split; [eapply upto_mono; [|exact Hu]; lia|done]. }
  intros ?. eapply triple_bind with (R := fun _ => safe_upto (b + 200)); [by apply triple_gets|].
  intros t. apply triple_if; intros _; [by apply triple_ret|].
  apply triple_if; intros _; [by apply triple_ret|].
  eapply triple_bind with (R := fun _ => safe_upto (b + 200)); [by intros w H|]. intros now.
  by apply triple_ret.
Qed.

End worker.
