(* ===== verification/RtSpec.v ===== *)
(** * R-UDP transport: properties

    The theorems about rudp_transport.c, with a concrete session as witness
    wherever they have hypotheses. *)
From S2P Require Import Prelude Bytes Crypto Fifo Rt RtCodec RtSession RtWire RtInv RtQueue RtWorker.

(** ** A concrete environment *)

Definition ex_sha1 (l : list Z) : list Z := replicate 20 (u8 (fold_left Z.add l 7)).
Definition ex_tick (n : nat) : Z := 1000 + 10 * Z.of_nat n.
Definition ex_rand (k : nat) (n : Z) : bool * list Z := (true, replicate (Z.to_nat n) 5).

Lemma ex_sha1_ok : sha1_ok ex_sha1.
Proof. intros l. split; [done|]. apply bytes_ok_replicate, byte_ok_u8. Qed.
Lemma ex_rand_ok : rand_ok ex_rand.
Proof.
  intros k n Hn. cbn. rewrite len_replicate. split; [lia|].
  apply bytes_ok_replicate. unfold byte_ok. lia.
Qed.

Definition ex_key (b : Z) : list Z := replicate 20 b.
Definition ex_fifo : rt_fifo := Fifo (zeros RUDP_T_MAX_FIFO_SIZE) RUDP_T_MAX_FIFO_SIZE 0 0.
Definition ex_session (st : Z) (sent recvd : list rt_segment) (next last : Z) : rt_session :=
  Session st (ex_key 1) (ex_key 2) (ex_key 3) (ex_key 4) (ex_key 5) 18446744069414584321 (ex_key 6)
    next last 0 1000 0 0 1000 3000 1000 0 16777343 5555 sent recvd [] ex_fifo ex_fifo.
Definition ex_transport (mode : Z) (s : rt_session) : transport :=
  Transport 3 5 4 0 false true 12000 false false mode 7 [1; 2] [3; 4] 0 false [] s.
Definition ex_world (mode : Z) (s : rt_session) : world :=
  World (ex_transport mode s) 0 0 [] [] [] [] false.

Lemma ex_fifo_ok : fifo_ok ex_fifo.
Proof.
  unfold fifo_ok, ex_fifo. cbn [f_buf f_cap f_head f_size]. rewrite len_zeros.
  unfold RUDP_T_MAX_FIFO_SIZE. lia.
Qed.

Lemma ex_session_ok st : session_ok (ex_session st [] [] 1 0).
Proof.
  unfold session_ok, ex_session. cbn -[fifo_ok ex_fifo]. pose proof ex_fifo_ok.
  split_and!; try done. split_and!; done || constructor.
Qed.

Lemma ex_worker_ok mode st b : 1 <= b -> worker_ok b (ex_world mode (ex_session st [] [] 1 0)).
Proof.
  intros Hb. split; [split|]; [|done|constructor]. split; [apply ex_session_ok|cbn; lia].
Qed.

(** ** The ring buffer *)

(** C9: the ring FIFO is a byte queue: a write that fits appends, one that
    does not fit returns -1 and changes nothing, a peek returns the front, an
    advance drops it; no copy ever leaves the heap block. *)
Theorem rt_fifo_refines_queue f data n :
  fifo_ok f -> 0 <= n ->
  (if bool_decide (len data <= f_cap f - f_size f)
   then exists f', rt_fifo_write f data = Ok f' /\ fifo_ok f' /\ contents f' = contents f ++ data
   else rt_fifo_write f data = Err) /\
  rt_fifo_peek f n = Ok (tk n (contents f)) /\
  exists f', rt_fifo_advance f n = Ok f' /\ fifo_ok f' /\ contents f' = dr n (contents f).
Proof.
  intros Hf Hn. pose proof Hf as (_ & _ & _ & Hs). split; [|split].
  - case_bool_decide.
    + destruct (fifo_write_ok f data) as (f' & ? & ? & _ & ?); [done..|]. by exists f'.
    + apply fifo_write_full; [done|lia].
  - by apply fifo_peek_ok.
  - destruct (decide (n <= f_size f)).
    + destruct (fifo_advance_ok f n) as (f' & ? & ? & _ & ?); [done..|]. by exists f'.
    + destruct (fifo_advance_ok f (f_size f)) as (f' & E & ? & _ & Hc); [done|lia..|]. exists f'.
      split; [|split; [done|]].
      * rewrite <- E. unfold rt_fifo_advance. replace (n >? f_size f) with true by lia.
        by replace (f_size f >? f_size f) with false by lia.
      * rewrite Hc, !dr_all; [done|..]; rewrite len_contents by done; lia.
Qed.

(** A block of 8 bytes holding "bcd" across its end. *)
Definition ex_ring : rt_fifo := Fifo [100; 0; 0; 0; 0; 0; 98; 99] 8 6 3.
Lemma rt_fifo_refines_queue_witness :
  rt_fifo_write ex_ring [1; 2; 3; 4; 5; 6] = Err /\ rt_fifo_peek ex_ring 9 = Ok [98; 99; 100].
Proof.
  assert (Hf : fifo_ok ex_ring) by (apply (bool_decide_unpack _); vm_compute; exact I).
  destruct (rt_fifo_refines_queue ex_ring [1; 2; 3; 4; 5; 6] 9 Hf ltac:(lia)) as (H1 & H2 & _).
  split; [exact H1|exact H2].
Defined.

(** ** Packets *)

(** The session fields a packet carries have their C types. *)
Definition wire_ok (s : rt_session) : Prop :=
  0 <= your_tick s < 2 ^ 64 /\ 0 <= last_recv_complete_seq s < 2 ^ 64 /\
  Forall (fun a => 0 <= a < 2 ^ 64) (reply_acks s).
#[global] Instance wire_ok_dec s : Decision (wire_ok s).
Proof. unfold wire_ok. apply _. Defined.

Lemma segment_body_enc now s sq data padlen :
  len (reply_acks s) <= 64 ->
  segment_body now s sq data padlen =
  enc_header (Header now (your_tick s) (last_recv_complete_seq s) (reply_acks s) sq data) ++
  replicate (Z.to_nat padlen) padlen.
Proof.
  intros Ha. unfold segment_body, enc_header. rewrite tk_all by (rt_consts; lia).
  rewrite (map_ext w64 (be_enc 8)) by apply w64_enc. rewrite !w64_enc, w32_enc.
  cbn [h_my_tick h_your_tick h_max_ack h_acks h_seq h_payload]. by rewrite <- !app_assoc.
Qed.

Section run.
Context (sha1 : list Z -> list Z) (tick : nat -> Z) (rand : nat -> Z -> bool * list Z).
Context (Hsha : sha1_ok sha1).

(** Plain UDP: the datagram is the packet. *)
Lemma send_udp_run w data :
  transport_mode (w_t w) = RUDP_T_MODE_UDP -> 20 <= len data ->
  exists w', rt_send_udp sha1 tick rand data w = Ok (tt, w') /\ w_udp w' = w_udp w ++ [data] /\
    reply_acks (se (w_t w')) = reply_acks (se (w_t w)).
Proof.
  intros Hm Hd. unfold rt_send_udp, get_t, gets, rt_rand_u32, generate_random_bytes.
  unfold mbind, St_bind. rewrite Hm. change (RUDP_T_MODE_UDP =? RUDP_T_MODE_DNS) with false.
  change (RUDP_T_MODE_UDP =? RUDP_T_MODE_ICMP) with false.
  change (RUDP_T_MODE_UDP =? RUDP_T_MODE_UDP) with true. cbv iota.
  replace (len data >=? 1) with true by lia. cbn -[fetch RUDP_T_SHA1_SIZE]. change RUDP_T_SHA1_SIZE with 20.
  match goal with |- context [fetch (?r mod ?n) _ _] =>
    destruct (fetch_mod_ok r n data) as (iv & -> & _) end.
  { destruct (_ >? _) eqn:?; lia. }
  { destruct (_ >? _) eqn:?; lia. }
  by eexists.
Qed.

Lemma send_segment_run w sq data :
  inv w -> transport_mode (w_t w) = RUDP_T_MODE_UDP -> len data <= 512 ->
  let s := se (w_t w) in
  exists w' padlen, rt_send_segment_now sha1 tick rand sq data w = Ok (tt, w') /\
    1 <= padlen <= 255 /\ reply_acks (se (w_t w')) = [] /\
    w_udp w' = w_udp w ++
      [seal sha1 (w_t w) (key_send s) (next_iv s) (segment_body (tick (w_ticks w)) s sq data padlen)].
Proof.
  intros [Hok Hh] Hm Hd s. pose proof Hok as (_ & Hks & Hiv & _ & _ & _ & _ & _ & Hacks & _).
  unfold rt_send_segment_now, get_t, gets, rt_tick64, rt_rand_u32, generate_random_bytes.
  unfold mbind, St_bind, mret, St_ret, modify_se, modify_t, modify. cbv beta iota zeta.
  match goal with |- context [u8 (u8 (?x mod 255) + 1)] => set (r := x) end. pose proof (padlen_range r) as Hp.
  set (padlen := u8 (u8 (r mod 255) + 1)) in *. clearbody padlen. fold s.
  set (body := segment_body (tick (w_ticks w)) s sq data padlen).
  assert (Hb : len body = 36 + 8 * len (reply_acks s) + len data + padlen)
    by (apply len_segment_body; [lia|exact Hacks]).
  fold s in Hks, Hiv, Hacks. pose proof (len_nonneg (reply_acks s)). pose proof (len_nonneg data).
  rewrite filled_ok by (rt_consts; slia). unfold lift at 1.
  pose proof (len_seal sha1 Hsha (w_t w) (key_send s) (next_iv s) body Hh) as Hlen.
  set (pkt := seal sha1 (w_t w) (key_send s) (next_iv s) body) in *.
  match goal with |- exists w' p, ?run = _ /\ _ =>
    enough (exists w', run = Ok (tt, w') /\ reply_acks (se (w_t w')) = [] /\
      w_udp w' = w_udp w ++ [pkt]) as (w' & ? & ? & ?) by (exists w', padlen; split; [done|split; [lia|by split]]) end.
  clearbody pkt body.
  match goal with |- context [rt_send_udp sha1 tick rand pkt ?w1] =>
    destruct (send_udp_run w1 pkt) as (w2 & -> & Hu & Ha); [exact Hm|lia|] end.
  cbv beta iota. destruct (len data >=? 1); cbn -[fetch Z.modulo u32 RUDP_T_SHA1_SIZE]; change RUDP_T_SHA1_SIZE with 20.
  all: match goal with |- context [fetch (?r' mod ?n) _ _] =>
    destruct (fetch_mod_ok r' n pkt) as (iv & -> & _);
      [unfold u32; rewrite Z.mod_small; rt_consts; lia..|] end.
  all: eexists; split; [done|]; split; [exact Ha|exact Hu].
Qed.

End run.

(** C3: packet round trip. In plain UDP mode, sending a segment emits exactly
    one datagram, no longer than the packet buffer, that a peer holding our
    sending key (as its receiving key, with the same SvcNameHash setting)
    opens to the clock value, the pending acknowledgements, the sequence
    number and the payload of the call; the pending list is left empty. *)
Theorem rt_segment_roundtrip sha1 tick rand w sq data :
  sha1_ok sha1 -> 0 <= tick (w_ticks w) < 2 ^ 64 ->
  inv w -> transport_mode (w_t w) = RUDP_T_MODE_UDP -> wire_ok (se (w_t w)) ->
  0 <= sq < 2 ^ 64 -> bytes_ok data -> len data <= RUDP_T_MAX_SEGMENT_SIZE ->
  let s := se (w_t w) in
  exists w' pkt, rt_send_segment_now sha1 tick rand sq data w = Ok (tt, w') /\
    w_udp w' = w_udp w ++ [pkt] /\ len pkt <= RUDP_T_MAX_PACKET_SIZE /\
    reply_acks (se (w_t w')) = [] /\
    forall t', same_hash (w_t w) t' ->
      (enc ← rt_unseal sha1 t' (key_send s) pkt; rt_parse enc) =
      Ok (Header (tick (w_ticks w)) (your_tick s) (last_recv_complete_seq s) (reply_acks s) sq data).
Proof.
  intros Hsha Htick Hinv Hm (Hyt & Hlr & Hacks) Hsq Hdb Hd s.
  destruct (send_segment_run sha1 tick rand Hsha w sq data Hinv Hm Hd) as (w' & padlen & Hrun & Hp & Ha & Hu).
  destruct Hinv as [(_ & Hks & Hiv & _ & _ & _ & _ & _ & Hal & _) Hh].
  fold s in Hks, Hiv, Hal, Hu, Hyt, Hlr, Hacks. eexists w', _. split; [exact Hrun|]. split; [exact Hu|].
  pose proof (len_nonneg (reply_acks s)). rt_consts.
  assert (Hlen : len (enc_header (Header (tick (w_ticks w)) (your_tick s) (last_recv_complete_seq s)
    (reply_acks s) sq data)) = 36 + 8 * len (reply_acks s) + len data) by apply len_enc_header.
  split; [|split; [done|]].
  - rewrite len_seal by done. rewrite len_segment_body by lia. lia.
  - intros t' Ht'. rewrite segment_body_enc by done.
    rewrite (unseal_seal sha1 Hsha (w_t w) t'), bind_ok by (done || rt_consts; lia).
    apply parse_enc_header. unfold header_ok. cbn. split_and!; rt_consts; first [done|lia].
Qed.

Definition ex_est : rt_session := ex_session RT_STATUS_ESTABLISHED [] [] 1 0.
Lemma rt_segment_roundtrip_witness :
  exists w' pkt, w_udp w' = [pkt] /\
    forall t', same_hash (ex_transport 0 ex_est) t' ->
      (enc ← rt_unseal ex_sha1 t' (ex_key 2) pkt; rt_parse enc) =
      Ok (Header 1000 0 0 [] 1 [104; 105]).
Proof.
  assert (Hi : inv (ex_world 0 ex_est)) by (split; [apply ex_session_ok|discriminate]).
  assert (Hw : wire_ok ex_est) by (apply (bool_decide_unpack _); vm_compute; exact I).
  assert (Hb : bytes_ok [104; 105]) by (apply (bool_decide_unpack _); vm_compute; exact I).
  destruct (rt_segment_roundtrip ex_sha1 ex_tick ex_rand (ex_world 0 ex_est) 1 [104; 105]
    ex_sha1_ok ltac:(vm_compute; split; [discriminate|reflexivity]) Hi eq_refl Hw
    ltac:(lia) Hb ltac:(vm_compute; discriminate)) as (w' & pkt & _ & Hu & _ & _ & Hr).
  exists w', pkt. split; [exact Hu|exact Hr].
Defined.

(** C2: the worker never accesses memory outside its packet buffers, queues
    and FIFOs: from a well-formed transport, one iteration over any datagrams
    (of any bytes), any clock, any CSPRNG output and any socket-pair results
    ends in a well-formed transport, with at most 200 new sequence numbers. *)
Theorem rt_worker_iter_safe sha1 tick rand b w grams :
  sha1_ok sha1 -> rand_ok rand -> worker_ok b w -> b + 200 < 2 ^ 63 ->
  Forall (fun g => bytes_ok (snd g)) grams ->
  exists r w', worker_iter sha1 tick rand grams w = Ok (r, w') /\ safe_upto (b + 200) w'.
Proof.
  intros Hs Hr Hw Hb Hg. pose proof (worker_iter_ok sha1 tick rand Hs Hr b grams Hb Hg w Hw) as H.
  destruct (worker_iter _ _ _ _ w) as [| |[r w']]; [done..|]. by exists r, w'.
Qed.

Lemma rt_worker_iter_safe_witness :
  exists r w', worker_iter ex_sha1 ex_tick ex_rand [(16777343, 53, [1; 2; 3])] (ex_world 1 ex_est) = Ok (r, w') /\
    safe_upto (1 + 200) w'.
Proof.
  apply (rt_worker_iter_safe ex_sha1 ex_tick ex_rand 1 (ex_world 1 ex_est) [(16777343, 53, [1; 2; 3])]
    ex_sha1_ok ex_rand_ok (ex_worker_ok 1 RT_STATUS_ESTABLISHED 1 ltac:(lia)) ltac:(lia)).
  apply Forall_cons. split; [apply (bool_decide_unpack _); vm_compute; exact I|constructor].
Defined.

Lemma len_2 {A} (l : list A) : len l = 2 -> exists a b, l = [a; b].
Proof.
  destruct l as [|a [|b [|c l]]]; intros H; [by cbn in H|by cbn in H|by exists a, b|].
  rewrite !len_cons in H. pose proof (len_nonneg l). lia.
Qed.

Lemma at0_app_l a b i : 0 <= i < len a -> at0 (a ++ b) i = at0 a i.
Proof. intros. unfold at0, len in *. apply app_nth1. lia. Qed.
Lemma at0_app_r a x b : at0 (a ++ x :: b) (len a) = x.
Proof. unfold at0, len. rewrite Nat2Z.id. by rewrite nth_middle. Qed.

(** A frame written out: eight header bytes and the rest. *)
Lemma icmp_frame_checksum ty i0 i1 s0 s1 rest :
  byte_ok ty -> bytes_ok [i0; i1; s0; s1] -> bytes_ok rest -> len rest <= 1375 ->
  exists c, icmp_checksum (ty :: 0 :: 0 :: 0 :: i0 :: i1 :: s0 :: s1 :: rest) = Ok c /\
    icmp_fold 4 (icmp_sum 0 (ty :: 0 :: u8 (c ≫ 8) :: Z.land c 255 :: i0 :: i1 :: s0 :: s1 :: rest)) = Ok 65535.
Proof.
  intros Hty Hi Hr Hl. bytes_inv. fold (bytes_ok rest) in Hr.
  pose proof (words_sum_bound rest Hr) as Hws.
  set (z := ty :: 0 :: 0 :: 0 :: i0 :: i1 :: s0 :: s1 :: rest).
  assert (Hz : bytes_ok z) by (unfold z; repeat apply bytes_ok_cons; done || (unfold byte_ok; lia)).
  assert (Hzs : 0 <= words_sum z <= 65535 * 1383) by (unfold z; cbn [words_sum]; lia).
  assert (Hsum : icmp_sum 0 z = words_sum z) by (rewrite icmp_sum_words; [lia|done|lia|lia]).
  destruct (icmp_fold_spec (words_sum z)) as (r & Hf & Hrb & Hmod & _ & Hrle); [lia|].
  destruct (cksum_bytes r Hrb) as (Hc1 & Hc2 & Hc3 & Hc4).
  unfold icmp_checksum. rewrite Hsum, Hf, bind_ok. eexists. split; [done|].
  set (c := u16 _) in *.
  assert (Hws2 : words_sum (ty :: 0 :: u8 (c ≫ 8) :: Z.land c 255 :: i0 :: i1 :: s0 :: s1 :: rest) =
    words_sum z + (65535 - r)) by (rewrite words_sum_cksum; unfold z; lia).
  rewrite icmp_sum_words; [|repeat apply bytes_ok_cons; done || (unfold byte_ok; lia)|lia|lia].
  rewrite Hws2, Z.add_0_l.
  destruct (icmp_fold_spec (words_sum z + (65535 - r))) as (r' & -> & Hrb' & Hmod' & Hrp' & _); [lia|].
  f_equal. assert (r' mod 65535 = 0).
  { rewrite Hmod'. replace (words_sum z + (65535 - r)) with (words_sum z - r + 1 * 65535) by lia.
    rewrite Z.mod_add, Zminus_mod, Hmod, Z.sub_diag by lia. done. }
  pose proof (Z.div_mod r' 65535). lia.
Qed.

(** An ICMP frame always carries a valid Internet checksum (the folded
    one's-complement sum of all its words is 0xFFFF), and a peer in ICMP mode
    that receives it behind an IP header strips it back to the R-UDP packet. *)
Theorem rt_icmp_frame_valid sha1 t t' ip data :
  sha1_ok sha1 -> bytes_ok data -> len data <= RUDP_T_MAX_PACKET_SIZE ->
  len (client_icmp_id t) = 2 -> bytes_ok (client_icmp_id t) ->
  len (client_icmp_seq t) = 2 -> bytes_ok (client_icmp_seq t) ->
  icmp_type t = 0 \/ icmp_type t = 7 ->
  transport_mode t' = RUDP_T_MODE_ICMP -> len ip = 20 -> at0 ip 0 = 69 ->
  exists pkt, icmp_frame sha1 t data = Ok pkt /\ len pkt = 28 + len data /\
    icmp_fold 4 (icmp_sum 0 pkt) = Ok 65535 /\ rt_strip t' (ip ++ pkt) = Some (t', data).
Proof.
  intros Hs Hd Hdl Hid Hidb Hsq Hsqb Hty Hm Hip Hip0. destruct (Hs data) as [Hsl Hsb].
  destruct (len_2 _ Hid) as (i0 & i1 & Ei). destruct (len_2 _ Hsq) as (s0 & s1 & Es).
  rewrite Ei in Hidb. rewrite Es in Hsqb. unfold icmp_frame. rewrite Ei, Es.
  change (tk 2 [i0; i1]) with [i0; i1]. change (tk 2 [s0; s1]) with [s0; s1]. cbn [app].
  assert (Hrl : len (sha1 data ++ data) <= 1375) by (rewrite len_app; rt_consts; lia).
  destruct (icmp_frame_checksum (icmp_type t) i0 i1 s0 s1 (sha1 data ++ data)) as (c & Hc & Hck);
    [unfold byte_ok; lia|change (bytes_ok ([i0; i1] ++ [s0; s1])); auto with bytes|auto with bytes|done|].
  rewrite filled_ok by (rt_consts; rewrite !len_cons; slia). rewrite bind_ok, Hc, bind_ok.
  eexists. split; [done|]. split; [rewrite !len_cons, len_app; lia|]. split; [exact Hck|].
  clear Hc Hck. set (pkt := icmp_type t :: _).
  assert (Hpl : len pkt = 28 + len data) by (unfold pkt; rewrite !len_cons, len_app; lia).
  pose proof (len_nonneg data). unfold rt_strip. rewrite Hm, len_app, Hpl, Hip.
  change (RUDP_T_MODE_ICMP =? RUDP_T_MODE_DNS) with false.
  change (RUDP_T_MODE_ICMP =? RUDP_T_MODE_ICMP) with true. cbv iota.
  rewrite at0_app_l, Hip0 by lia. change (69 ≫ 4 =? 4) with true. change (Z.land 69 15 * 4) with 20.
  replace (20 + (28 + len data) >=? 20) with true by lia. cbn [andb].
  replace (_ >=? 20 + 28) with true by lia.
  replace (at0 (ip ++ pkt) 20) with (icmp_type t) by (rewrite <- Hip; symmetry; apply at0_app_r).
  replace ((icmp_type t =? 0) || (icmp_type t =? 7) || (icmp_type t =? 15) || (icmp_type t =? 8))
    with true by (destruct Hty as [-> | ->]; done).
  do 2 f_equal. unfold pkt.
  match goal with |- dr _ (ip ++ ?a :: ?b :: ?x :: ?y :: ?d :: ?e :: ?f :: ?g :: sha1 data ++ data) = _ =>
    replace (ip ++ a :: b :: x :: y :: d :: e :: f :: g :: sha1 data ++ data)
      with ((ip ++ [a; b; x; y; d; e; f; g] ++ sha1 data) ++ data) by (by rewrite <- !app_assoc) end.
  apply dr_app_exact. rt_consts. slia.
Qed.

Definition ex_ip : list Z := 69 :: zeros 19.
Lemma rt_icmp_frame_valid_witness :
  exists pkt, icmp_frame ex_sha1 (ex_transport 2 ex_est) [9; 8; 7] = Ok pkt /\ len pkt = 28 + len [9; 8; 7] /\
    icmp_fold 4 (icmp_sum 0 pkt) = Ok 65535 /\
    rt_strip (ex_transport 2 ex_est) (ex_ip ++ pkt) = Some (ex_transport 2 ex_est, [9; 8; 7]).
Proof.
  apply (rt_icmp_frame_valid ex_sha1 (ex_transport 2 ex_est) (ex_transport 2 ex_est) ex_ip [9; 8; 7]);
    first [exact ex_sha1_ok|reflexivity|left; reflexivity|vm_compute; discriminate
          |apply (bool_decide_unpack _); vm_compute; exact I].
Defined.

(** ** The send window *)

(** C6: cutting the send FIFO into segments terminates, never overflows the
    64-segment queue and loses nothing: the queued payloads followed by what is
    left in the FIFO are the old contents, the new segments carry the next
    sequence numbers in order, and the loop stops only when the FIFO is empty
    or the window is full. *)
Theorem rt_segment_send_fifo_lossless s :
  send_ok s -> next_send_seq s + 64 < 2 ^ 63 ->
  exists s' segs, rt_segment_send_fifo s = Ok s' /\
    send_segments s' = send_segments s ++ segs /\ len (send_segments s') <= RUDP_T_MAX_NUM_ACK /\
    payloads segs ++ contents (send_fifo s') = contents (send_fifo s) /\
    map s_seq segs = seqZ (next_send_seq s) (len segs) /\
    next_send_seq s' = next_send_seq s + len segs /\
    (contents (send_fifo s') = [] \/ window_full s' = true).
Proof.
  intros Hok Hb. assert (Hr : 0 <= room s <= 64).
  { destruct Hok as [(Hn & Hf & _ & Hw) _]. unfold room. destruct (send_segments s); [lia|].
    apply Forall_cons_1 in Hf as [? _]. lia. }
  destruct (segment_loop_ok 66 s Hok) as (s' & segs & E & (Hs' & Hc & Hq & Hend) & Hok' & _ & _); [lia..|].
  exists s', segs. split; [done|]. split; [by rewrite Hs'|].
  split; [eapply segs_len; apply Hok'|]. split; [done|]. split; [done|]. split; [by rewrite Hs'|done].
Qed.

(** A session with three bytes queued behind an in-flight segment. *)
Definition ex_sending : rt_session :=
  (ex_session RT_STATUS_ESTABLISHED [Segment 5 [1] 0 0] [] 6 0)
    <| send_fifo := Fifo [100; 0; 0; 0; 0; 0; 98; 99] 8 6 3 |>.
Lemma rt_segment_send_fifo_lossless_witness :
  exists s' segs, rt_segment_send_fifo ex_sending = Ok s' /\
    send_segments s' = [Segment 5 [1] 0 0] ++ segs /\
    payloads segs ++ contents (send_fifo s') = [98; 99; 100].
Proof.
  assert (Hok : send_ok ex_sending).
  { split; [|apply (bool_decide_unpack _); vm_compute; exact I].
    split; [vm_compute; discriminate|]. split; [|split; [|vm_compute; discriminate]].
    - constructor; [|constructor]. split; [vm_compute; split; [discriminate|reflexivity]|vm_compute; discriminate].
    - repeat constructor. }
  destruct (rt_segment_send_fifo_lossless ex_sending Hok ltac:(reflexivity))
    as (s' & segs & H1 & H2 & _ & H3 & _).
  exists s', segs. split; [exact H1|]. split; [exact H2|]. rewrite H3. vm_compute. reflexivity.
Defined.

Lemma list_filter_all (P : rt_segment -> Prop) `{!forall x, Decision (P x)} l :
  Forall P l -> base.filter P l = l.
Proof. induction 1 as [|x l Hx Hl IH]; [done|]. by rewrite filter_cons_True, IH. Qed.

Lemma remove_upto_filter m l : remove_upto m l = base.filter (fun x => m < s_seq x) l.
Proof.
  induction l as [|x l IH]; [done|]. rewrite filter_cons. cbn [remove_upto]. rewrite IH.
  destruct (s_seq x <=? m) eqn:E; case_decide; done || lia.
Qed.

Lemma remove_seq_filter a l :
  StronglySorted (fun x y => s_seq x < s_seq y) l ->
  remove_seq a l = base.filter (fun x => s_seq x <> a) l.
Proof.
  induction 1 as [|x l Hs IH Hx]; [done|]. rewrite filter_cons. cbn [remove_seq].
  destruct (s_seq x =? a) eqn:E; case_decide; try lia; [|by rewrite IH].
  symmetry. apply list_filter_all. eapply Forall_impl; [exact Hx|]. cbn. intros; lia.
Qed.

Lemma sorted_filter (P : rt_segment -> Prop) `{!forall x, Decision (P x)} l :
  StronglySorted (fun x y => s_seq x < s_seq y) l ->
  StronglySorted (fun x y => s_seq x < s_seq y) (base.filter P l).
Proof.
  induction 1 as [|x l Hs IH Hx]; [constructor|]. rewrite filter_cons. case_decide; [|done].
  constructor; [done|]. apply Forall_forall. intros y Hy. apply list_elem_of_filter in Hy as [_ Hy].
  rewrite Forall_forall in Hx. by apply Hx.
Qed.

Lemma fold_acks_filter acks s :
  StronglySorted (fun x y => s_seq x < s_seq y) (send_segments s) ->
  send_segments (fold_left (fun s a => rt_process_ack a s) acks s) =
  base.filter (fun x => s_seq x ∉ acks) (send_segments s).
Proof.
  revert s. induction acks as [|a acks IH]; intros s Hs; cbn [fold_left].
  - symmetry. apply list_filter_all. apply Forall_forall. intros x _. apply not_elem_of_nil.
  - assert (Hsl : send_segments (rt_process_ack a s) = base.filter (fun x => s_seq x <> a) (send_segments s))
      by (apply remove_seq_filter; done).
    rewrite IH by (rewrite Hsl; by apply sorted_filter). rewrite Hsl, list_filter_filter.
    apply list_filter_iff. intros x. rewrite not_elem_of_cons. tauto.
Qed.

(** Acknowledgements remove exactly the acknowledged segments: after a
    packet with cumulative acknowledgement [m] and selective list [acks], the
    send queue is the old queue without the sequence numbers up to [m] and
    without those in [acks], in the same order. *)
Theorem rt_acks_remove_exactly h s :
  segs_ok (send_segments s) (next_send_seq s) ->
  send_segments (rt_apply_acks h s) =
  base.filter (fun x => h_max_ack h < s_seq x /\ s_seq x ∉ h_acks h) (send_segments s).
Proof.
  intros (_ & Hf & Hs & _). unfold rt_apply_acks.
  assert (Hsl : send_segments (if h_max_ack h >=? 1 then rt_process_ack2 (h_max_ack h) s else s) =
    base.filter (fun x => h_max_ack h < s_seq x) (send_segments s)).
  { destruct (_ >=? _) eqn:E; [apply remove_upto_filter|]. symmetry. apply list_filter_all.
    eapply Forall_impl; [exact Hf|]. cbn. intros; lia. }
  rewrite fold_acks_filter by (rewrite Hsl; by apply sorted_filter).
  rewrite Hsl, list_filter_filter. apply list_filter_iff. intros x. tauto.
Qed.

Lemma rt_acks_remove_exactly_witness :
  send_segments (rt_apply_acks (Header 0 0 2 [4; 9] 0 [])
    (ex_session 1 [Segment 2 [1] 0 0; Segment 3 [2] 0 0; Segment 4 [3] 0 0] [] 5 0)) = [Segment 3 [2] 0 0].
Proof.
  rewrite rt_acks_remove_exactly; [vm_compute; reflexivity|].
  split; [vm_compute; discriminate|]. split; [|split; [|vm_compute; discriminate]].
  - repeat constructor; vm_compute; first [discriminate|reflexivity].
  - repeat constructor.
Defined.

(** ** The received stream *)

(** C1: exactly-once, in-order delivery. Over every interleaving of arriving
    segments (any order, any duplicates), drains, flushes to the application
    and send-side activity, what the application has received followed by what
    waits in the receive FIFO is the peer's stream, keep-alives left out, from
    sequence number 1 up to the last one completed: no gap, no repetition, no
    reordering. *)
Theorem rt_stream_exactly_once msg s0 s out :
  fresh s0 -> star (recv_step msg) (s0, []) (s, out) ->
  out ++ contents (recv_fifo s) = stream msg s (last_recv_complete_seq s).
Proof.
  intros (Hok & Hnil & Hl & Hc & Hm) Hstar.
  assert (HI : stream_inv msg (s, out)).
  { eapply star_invariant; [| |exact Hstar]; [intros a b; apply stream_inv_step|].
    split; [done|]. rewrite Hnil, Hl, Hc. split_and!; try done. }
  apply HI.
Qed.

Definition ex_msg (n : Z) : list Z := [100 + n; 200].
Lemma ex_fresh : fresh (ex_session 1 [] [] 1 0).
Proof.
  destruct (ex_session_ok 1) as (?&?&?&?&?&?&?&?&?&?&?&?&?).
  split; [split; [split|]; done|]. split; [done|]. split; [done|].
  split; [apply contents_nil; [apply ex_fifo_ok|done]|vm_compute; discriminate].
Defined.

(** Segment 1 arrives twice. *)
Definition ex_recv1 : rt_session := rt_process_recv_payload 1 (ex_msg 1) (ex_session 1 [] [] 1 0).
Lemma ex_young : young (ex_session 1 [] [] 1 0).
Proof. split; [reflexivity|split; [discriminate|reflexivity]]. Defined.
Lemma rt_stream_exactly_once_witness :
  [] ++ contents (recv_fifo ex_recv1) = stream ex_msg ex_recv1 (last_recv_complete_seq ex_recv1).
Proof.
  apply (rt_stream_exactly_once ex_msg (ex_session 1 [] [] 1 0) ex_recv1 [] ex_fresh).
  eapply star_step; [apply rs_arrive; apply ex_young|apply star_refl].
Defined.

(** The receive queue is not a reorder buffer. Once its front segment is
    not the next one expected (two segments arrived out of order), no later
    event ever delivers anything: the missing segment is appended behind the
    front, every drain stops at the front, and the last completed sequence
    number never advances again. *)
Theorem rt_receive_stalls msg s out s' out' x l :
  fifo_ok (recv_fifo s) -> recv_segments s = x :: l ->
  s_seq x <> u64 (last_recv_complete_seq s + 1) ->
  star (recv_step msg) (s, out) (s', out') ->
  last_recv_complete_seq s' = last_recv_complete_seq s /\
  (exists l', recv_segments s' = x :: l') /\
  out' ++ contents (recv_fifo s') = out ++ contents (recv_fifo s).
Proof.
  intros Hf Hr Hx Hstar.
  set (I := fun st : rt_session * list Z =>
    fifo_ok (recv_fifo st.1) /\ last_recv_complete_seq st.1 = last_recv_complete_seq s /\
    (exists l', recv_segments st.1 = x :: l') /\
    st.2 ++ contents (recv_fifo st.1) = out ++ contents (recv_fifo s)).
  assert (HI : I (s', out')).
  { apply (star_invariant (recv_step msg) I (s, out) (s', out')); [|exact (conj Hf (conj eq_refl (conj (ex_intro _ l Hr) eq_refl)))|exact Hstar].
    clear s' out' Hstar. intros a b (Hfa & Hla & [l' Hra] & Hoa) Hstep.
    destruct Hstep as [s1 o sq _|s1 s2 o _ Hd|s1 f o n c Hn Hp Ha|s1 s2 o Hsame];
      cbn [fst snd] in *.
    - destruct (process_recv_cases sq (msg sq) s1) as [k [->|[_ ->]]]; (split; [done|split; [done|split; [|done]]]).
      + by exists l'.
      + cbn. rewrite Hra. by eexists.
    - unfold rt_drain in Hd. rewrite Hra in Hd. cbn [drain_loop] in Hd. rewrite Hla in Hd.
      replace (s_seq x =? u64 (last_recv_complete_seq s + 1)) with false in Hd by lia.
      cbn [negb] in Hd. injection Hd as <-.
      split; [done|split; [done|split; [by exists l'|done]]].
    - pose proof (len_contents _ Hfa) as Hlc.
      destruct (fifo_advance_ok (recv_fifo s1) n) as (f' & Ea & Hfo & _ & Hco); [done|lia..|].
      rewrite Ea in Ha. injection Ha as ->. rewrite fifo_peek_ok in Hp by (done || lia). injection Hp as <-.
      split; [done|split; [done|split; [by exists l'|]]]. cbn. by rewrite Hco, <- app_assoc, tk_dr.
    - destruct Hsame as (H1 & H2 & H3 & _). unfold I; cbn. rewrite H1, H2, H3.
      split; [done|split; [done|split; [by exists l'|done]]]. }
  destruct HI as (_ & H1 & H2 & H3). by split_and!.
Qed.

(** Segment 2 arrives, then segment 1, then the queue is drained. *)
Definition ex_swapped : rt_session := rt_process_recv_payload 2 (ex_msg 2) (ex_session 1 [] [] 1 0).
Definition ex_stuck : rt_session := rt_process_recv_payload 1 (ex_msg 1) ex_swapped.
Lemma rt_receive_stalls_witness :
  last_recv_complete_seq ex_stuck = 0 /\ (exists l', recv_segments ex_stuck = Segment 2 (ex_msg 2) 0 0 :: l').
Proof.
  destruct (rt_receive_stalls ex_msg ex_swapped [] ex_stuck [] (Segment 2 (ex_msg 2) 0 0) [] ex_fifo_ok
    eq_refl ltac:(vm_compute; discriminate)) as (H1 & H2 & _).
  - eapply star_step; [apply rs_arrive; apply ex_young|apply star_refl].
  - split; [exact H1|exact H2].
Defined.

(** ** Losing application data *)

(** Full reads that fit are appended one by one. *)
Lemma pump_chunks sha1 tick rand chunks rest w :
  Forall (fun d => len d = 512) chunks ->
  fifo_ok (send_fifo (se (w_t w))) -> f_cap (send_fifo (se (w_t w))) = RUDP_T_MAX_FIFO_SIZE ->
  f_size (send_fifo (se (w_t w))) + 512 * len chunks < RUDP_T_MAX_FIFO_SIZE ->
  exists w', pump_send_loop sha1 tick rand (map RData chunks ++ rest) w = pump_send_loop sha1 tick rand rest w' /\
    fifo_ok (send_fifo (se (w_t w'))) /\ f_cap (send_fifo (se (w_t w'))) = RUDP_T_MAX_FIFO_SIZE /\
    f_size (send_fifo (se (w_t w'))) = f_size (send_fifo (se (w_t w))) + 512 * len chunks /\
    contents (send_fifo (se (w_t w'))) = contents (send_fifo (se (w_t w))) ++ mjoin chunks.
Proof.
  intros Hc. revert w. induction Hc as [|d chunks Hd Hc IH]; intros w Hf Hcap Hsz.
  { exists w. rewrite (@len_nil (list Z)), Z.mul_0_r, Z.add_0_r.
    split; [done|split; [done|split; [done|split; [done|by rewrite app_nil_r]]]]. }
  rewrite len_cons in Hsz. pose proof (len_nonneg chunks).
  destruct (fifo_write_ok (send_fifo (se (w_t w))) d) as (f & E & Hfo & Hfc & Hco); [done|lia|].
  set (w1 := (w <| w_app_in := map RData chunks ++ rest |>) <| w_t := (w_t w) <| se := (se (w_t w)) <| send_fifo := f |> |> |>).
  assert (Hsf : f_size f = f_size (send_fifo (se (w_t w))) + 512).
  { rewrite <- (len_contents f), Hco, len_app, (len_contents (send_fifo _)) by done. lia. }
  destruct (IH w1) as (w' & H1 & H2 & H3 & H4 & H5); [exact Hfo|by rewrite <- Hcap|cbn; lia|].
  exists w'. split; [|split; [done|split; [done|split]]].
  - rewrite <- H1. cbn [map app pump_send_loop]. unfold mbind at 1, St_bind at 1. unfold get_se, gets.
    replace (f_size (send_fifo (se (w_t w))) >=? RUDP_T_MAX_FIFO_SIZE) with false by lia.
    unfold fifo_put. rewrite E. done.
  - rewrite H4. cbn. rewrite len_cons. lia.
  - rewrite H5. cbn [w1 w_t se send_fifo upd]. change (send_fifo (se (w_t w1))) with f. rewrite Hco, <- app_assoc. done.
Qed.

(** [rt_pump_pair_to_send] drops application bytes. It reads up to 512
    bytes whenever the send FIFO is not completely full and ignores a failed
    write; with the FIFO holding the 8-byte connection preamble and 1024 full
    reads pending, all input is consumed but the last 512 bytes are gone. *)
Theorem rt_pump_loses_bytes sha1 tick rand w chunks d :
  fifo_ok (send_fifo (se (w_t w))) -> f_cap (send_fifo (se (w_t w))) = RUDP_T_MAX_FIFO_SIZE ->
  f_size (send_fifo (se (w_t w))) = 8 ->
  Forall (fun d => len d = 512) (chunks ++ [d]) -> len chunks = 1023 ->
  w_app_in w = map RData (chunks ++ [d]) ->
  exists w', rt_pump_pair_to_send sha1 tick rand w = Ok (tt, w') /\ w_app_in w' = [] /\
    contents (send_fifo (se (w_t w'))) = contents (send_fifo (se (w_t w))) ++ mjoin chunks.
Proof.
  intros Hf Hcap Hsz Hc Hl Hin. apply Forall_app in Hc as [Hc Hd]. apply Forall_cons_1 in Hd as [Hd _].
  destruct (pump_chunks sha1 tick rand chunks [RData d] w Hc Hf Hcap) as (w1 & E & H1 & H2 & H3 & H4).
  { rewrite Hsz, Hl. unfold RUDP_T_MAX_FIFO_SIZE. lia. }
  unfold rt_pump_pair_to_send, mbind, St_bind, gets. rewrite Hin, map_app. cbn [map].
  change (fun (w0 : world) => ?x) with (fun (w0 : world) => x). rewrite E.
  cbn [pump_send_loop]. unfold mbind, St_bind, get_se, gets.
  replace (_ >=? RUDP_T_MAX_FIFO_SIZE) with false by (rewrite H3, Hsz, Hl; reflexivity).
  unfold fifo_put. rewrite fifo_write_full by (done || (rewrite H2, H3, Hsz, Hl, Hd; reflexivity)).
  cbn -[contents RUDP_T_MAX_FIFO_SIZE Z.geb]. destruct (_ >=? _); eexists; (split; [done|split; [done|exact H4]]).
Qed.

Definition ex_fifo8 : rt_fifo := Fifo (zeros RUDP_T_MAX_FIFO_SIZE) RUDP_T_MAX_FIFO_SIZE 0 8.
Lemma ex_fifo8_ok : fifo_ok ex_fifo8.
Proof.
  unfold fifo_ok, ex_fifo8. cbn [f_buf f_cap f_head f_size]. rewrite len_zeros.
  unfold RUDP_T_MAX_FIFO_SIZE. lia.
Qed.
Definition ex_full : world :=
  (ex_world 0 (ex_est <| send_fifo := ex_fifo8 |>))
    <| w_app_in := map RData (replicate 1023 (zeros 512) ++ [zeros 512]) |>.
Lemma rt_pump_loses_bytes_witness :
  exists w', rt_pump_pair_to_send ex_sha1 ex_tick ex_rand ex_full = Ok (tt, w') /\ w_app_in w' = [].
Proof.
  destruct (rt_pump_loses_bytes ex_sha1 ex_tick ex_rand ex_full (replicate 1023 (zeros 512)) (zeros 512))
    as (w' & H1 & H2 & _).
  - exact ex_fifo8_ok.
  - reflexivity.
  - reflexivity.
  - apply Forall_app. split; [apply Forall_replicate; apply len_zeros|constructor; [apply len_zeros|constructor]].
  - apply len_replicate.
  - reflexivity.
  - exists w'. split; [exact H1|exact H2].
Defined.

(** ** Timers *)

(** Retransmission backoff: with any round-trip time below the session
    timeout the interval doubles from 1.2 RTT (or 200 ms) per transmission, is
    capped at 4792 ms, never zero, and no 32-bit product wraps. *)
Theorem rt_resend_interval_bounds rtt n :
  0 <= rtt <= RUDP_T_TIMEOUT_MS -> 0 <= n ->
  resend_interval rtt n =
    Z.min RUDP_T_RESEND_TIMER_MAX ((if rtt =? 0 then RUDP_T_RESEND_TIMER else rtt * 120 / 100) * 2 ^ Z.min n 10) /\
  0 < resend_interval rtt n <= RUDP_T_RESEND_TIMER_MAX /\
  resend_interval rtt n <= resend_interval rtt (n + 1).
Proof.
  intros Hr Hn. unfold RUDP_T_TIMEOUT_MS in Hr.
  assert (Hpow : forall k, 0 <= k <= 10 -> 1 <= 2 ^ k <= 1024).
  { intros k Hk. split; [apply (Z.pow_le_mono_r 2 0 k); lia|].
    etrans; [apply (Z.pow_le_mono_r 2 k 10); lia|done]. }
  set (base := if rtt =? 0 then RUDP_T_RESEND_TIMER else rtt * 120 / 100).
  assert (Hb : 1 <= base <= 14400).
  { unfold base, RUDP_T_RESEND_TIMER. destruct (rtt =? 0) eqn:E; [lia|].
    pose proof (Z.div_mod (rtt * 120) 100). pose proof (Z.mod_pos_bound (rtt * 120) 100). lia. }
  assert (Heq : forall m, 0 <= m ->
    resend_interval rtt m = Z.min RUDP_T_RESEND_TIMER_MAX (base * 2 ^ Z.min m 10)).
  { intros m Hm. specialize (Hpow (Z.min m 10) ltac:(lia)). unfold resend_interval.
    replace (if m <? 10 then m else 10) with (Z.min m 10) by (destruct (m <? 10) eqn:?; lia).
    assert (Hi : (if negb (rtt =? 0) then u32 (u32 (rtt * 120) / 100 * 2 ^ Z.min m 10)
                  else u32 (RUDP_T_RESEND_TIMER * 2 ^ Z.min m 10)) = base * 2 ^ Z.min m 10).
    { unfold base, u32 in *. destruct (rtt =? 0); cbn [negb].
      - apply Z.mod_small. unfold RUDP_T_RESEND_TIMER in *. nia.
      - rewrite (Z.mod_small (rtt * 120)) by lia. apply Z.mod_small. nia. }
    rewrite Hi. unfold RUDP_T_RESEND_TIMER_MAX. destruct (_ >? _) eqn:?; lia. }
  rewrite !Heq by lia. split; [done|].
  pose proof (Hpow (Z.min n 10) ltac:(lia)). unfold RUDP_T_RESEND_TIMER_MAX.
  assert (2 ^ Z.min n 10 <= 2 ^ Z.min (n + 1) 10) by (apply Z.pow_le_mono_r; lia).
  split; [nia|]. apply Z.min_le_compat_l. nia.
Qed.

Lemma rt_resend_interval_bounds_witness :
  resend_interval 50 3 = 480 /\ resend_interval 50 3 <= resend_interval 50 (3 + 1).
Proof.
  destruct (rt_resend_interval_bounds 50 3 ltac:(vm_compute; split; discriminate) ltac:(lia)) as (H1 & _ & H2).
  split; [rewrite H1; vm_compute; reflexivity|exact H2].
Defined.

(** The worker never sleeps more than 100 ms, and not at all while
    acknowledgements or FIFO bytes are pending on an established session. *)
Theorem rt_poll_timeout_bounds t now :
  0 <= now -> now + RUDP_T_LOOP_WAIT_MS < 2 ^ 64 ->
  0 <= rt_compute_poll_timeout t now <= RUDP_T_LOOP_WAIT_MS /\
  (status (se t) = RT_STATUS_ESTABLISHED ->
   reply_acks (se t) <> [] \/ 1 <= f_size (recv_fifo (se t)) \/ 1 <= f_size (send_fifo (se t)) ->
   rt_compute_poll_timeout t now = 0).
Proof.
  intros Hn Hb. unfold RUDP_T_LOOP_WAIT_MS in *. unfold rt_compute_poll_timeout.
  set (d := if status (se t) =? RT_STATUS_CONNECT_SENT then _ else _).
  assert (Hmin : forall b x y, min_if b x y <= y).
  { intros b x y. unfold min_if. destruct (_ && _) eqn:E; [|lia]. lia. }
  assert (Hd0 : u64 (now + RUDP_T_LOOP_WAIT_MS) = now + 100)
    by (unfold u64, RUDP_T_LOOP_WAIT_MS; apply Z.mod_small; lia).
  assert (Hfold : forall l y, fold_left (fun d x => min_if (negb (s_next_send_tick x =? 0)) (s_next_send_tick x) d) l y <= y).
  { induction l as [|x l IH]; intros y; [done|]. cbn [fold_left]. etrans; [apply IH|apply Hmin]. }
  assert (Hd : d <= now + 100).
  { unfold d. rewrite Hd0. destruct (_ =? _); [etrans; [apply Hmin|apply Hmin]|].
    destruct (_ =? _); [|lia]. destruct (_ || _); [lia|].
    etrans; [apply Hmin|]. etrans; [apply Hfold|apply Hmin]. }
  split.
  - clearbody d. destruct (now >=? d) eqn:E; [lia|]. unfold u64. rewrite Z.mod_small by lia.
    destruct (_ >? _) eqn:?; lia.
  - intros Hst Hp. assert (d = now) as ->; [|by replace (now >=? now) with true by lia].
    unfold d. rewrite Hst. change (RT_STATUS_ESTABLISHED =? RT_STATUS_CONNECT_SENT) with false.
    change (RT_STATUS_ESTABLISHED =? RT_STATUS_ESTABLISHED) with true. cbv iota.
    replace (_ || _ || _) with true; [done|]. symmetry. rewrite !orb_true_iff.
    destruct Hp as [Hp|[Hp|Hp]]; [|left; right; lia|right; lia].
    left; left. destruct (reply_acks (se t)); [done|]. rewrite len_cons. pose proof (len_nonneg l). lia.
Qed.

Lemma rt_poll_timeout_bounds_witness :
  0 <= rt_compute_poll_timeout (ex_transport 0 ex_est) 2000 <= 100.
Proof.
  apply (rt_poll_timeout_bounds (ex_transport 0 ex_est) 2000); [lia|vm_compute; reflexivity].
Defined.

(** The branch that should learn the server's source port from packets
    shorter than 20 bytes is dead code: an earlier guard returns on exactly
    those sizes, so such a packet never changes anything. *)
Theorem rt_small_packet_ignored sha1 tick rand ip port buf w :
  len buf < 20 -> rt_handle_udp_packet sha1 tick rand ip port buf w = Ok (tt, w).
Proof.
  intros Hl. unfold rt_handle_udp_packet, mbind, St_bind, get_t, gets.
  destruct (_ =? _); [done|]. unfold RUDP_T_SHA1_SIZE. by replace (len buf <? 20) with true by lia.
Qed.

Definition ex_connecting : world := ex_world 0 (ex_session RT_STATUS_CONNECT_SENT [] [] 1 0).
Lemma rt_small_packet_ignored_witness :
  rt_handle_udp_packet ex_sha1 ex_tick ex_rand 16777343 4444 [0] ex_connecting = Ok (tt, ex_connecting).
Proof. apply (rt_small_packet_ignored ex_sha1 ex_tick ex_rand 16777343 4444 [0] ex_connecting). reflexivity. Defined.
