(* ===== verification/Accel.v ===== *)
(** * UDP acceleration: context and operations (softether_rudp.c)

    [rudp_context] is the heap object of one accelerated session. The public
    entry points run in [St aworld]: the context, the datagrams that wait in
    the socket, the datagrams sent, and the positions of the clock and of the
    CSPRNG. Every access to a packet buffer, to the receive queue or to a freed
    context is checked and yields [Ub] when it is out of bounds.

    Parameters (code outside the repository): SHA-1, the ChaCha20-Poly1305
    functions of OpenSSL, zlib's [compress2]/[uncompress], [inet_pton], the
    clock, [RAND_bytes] and the results of the socket calls. *)
From S2P Require Import Prelude Bytes Crypto Fifo.

Definition AF_INET : Z := 2.
Definition AF_INET6 : Z := 10.

Definition RUDP_COMMON_KEY_SIZE_V1 : Z := 20.
Definition RUDP_PACKET_KEY_SIZE_V1 : Z := 20.
Definition RUDP_PACKET_IV_SIZE_V1 : Z := 20.
Definition RUDP_COMMON_KEY_SIZE_V2 : Z := 128.
Definition RUDP_PACKET_IV_SIZE_V2 : Z := 12.
Definition RUDP_PACKET_MAC_SIZE_V2 : Z := 16.
Definition RUDP_TMP_BUF_SIZE : Z := 2048.
Definition RUDP_WINDOW_SIZE_MSEC : Z := 30 * 1000.
Definition RUDP_MAX_PAYLOAD_SIZE : Z := 1600.
Definition RUDP_MAX_PADDING_SIZE : Z := 32.
Definition RUDP_REQUIRE_CONTINUOUS : Z := 10 * 1000.
Definition RUDP_KA_INTERVAL_MIN : Z := 1000.
Definition RUDP_KA_INTERVAL_MAX : Z := 3000.
Definition RUDP_KA_TIMEOUT : Z := 9000.
Definition RUDP_KA_INTERVAL_MIN_FAST : Z := 500.
Definition RUDP_KA_INTERVAL_MAX_FAST : Z := 1000.
Definition RUDP_KA_TIMEOUT_FAST : Z := 2100.
Definition RUDP_DEFAULT_MSS : Z := 1355.
Definition RUDP_DEFAULT_MSS_V2 : Z := 1363.
Definition RUDP_DEFAULT_MSS_IPV6 : Z := 1335.
Definition RUDP_DEFAULT_MSS_V2_IPV6 : Z := 1343.
Definition RUDP_MAX_UDP_PACKET_IPV4 : Z := 1472.
Definition RUDP_MAX_UDP_PACKET_IPV6 : Z := 1452.
Definition RUDP_FLAG_COMPRESSED : Z := 1.
Definition RUDP_RECV_QUEUE_SIZE : Z := 256.
Definition RUDP_OVERFLOW_SUSPEND_THRESHOLD : Z := 8.
Definition RUDP_UDP_SUSPEND_MS : Z := 30 * 1000.
Definition RUDP_PEER_TICK_LOSS_GAP : Z := 10 * 1000.
Definition RUDP_CWIN_START : Z := 256 * 1024.
Definition RUDP_CWIN_MIN : Z := 32 * 1024.
Definition RUDP_CWIN_MAX : Z := 8 * 1024 * 1024.
Definition RUDP_CWIN_GROW_BPS : Z := 4 * 1024 * 1024.
Definition RUDP_SUSPEND_BACKOFF_MAX_SHIFT : Z := 3.
Definition RUDP_CLEAN_RESET_MS : Z := 5 * 60 * 1000.

(** The part of a [sockaddr_storage] the code reads and writes. *)
Record sockaddr := Sockaddr { ss_family : Z; sin_port : Z; sin_addr : list Z }.

(** [rudp_queued_block_t]: the 1600-byte array and its used length. *)
Record queued_block := Block { q_data : list Z; q_len : Z }.

(** [rudp_context_t]. An OpenSSL cipher context is the key it was given,
    [None] for the null pointer. *)
Record rudp_context := Ctx {
  refcount : Z; destroying : bool; udp_fd : Z; is_client_mode : bool; inited : bool; version : Z;
  my_key : list Z; your_key : list Z; my_key_v2 : list Z; your_key_v2 : list Z;
  next_iv : list Z; next_iv_v2 : list Z;
  evp_encrypt_ctx : option (list Z); evp_decrypt_ctx : option (list Z); v2_cipher_inited : bool;
  my_cookie : Z; your_cookie : Z; my_port : Z;
  peer_addr : sockaddr; peer_addr_len : Z; peer_addr_set : bool; is_ipv6 : bool;
  now : Z; last_recv_tick : Z; last_recv_your_tick : Z; last_recv_my_tick : Z;
  next_send_keepalive : Z; first_stable_receive_tick : Z;
  mss : Z; max_udp_packet_size : Z; use_compress : bool;
  recv_queue : list queued_block; recv_queue_head : Z; recv_queue_tail : Z; recv_queue_count : Z;
  fatal_error : bool;
  recv_queue_overflow_count : Z; udp_rx_packets : Z; peer_tick_gap_events : Z;
  last_peer_tick_seen : Z; recent_overflows : Z; udp_data_suspended : bool;
  udp_data_resume_tick : Z; suspension_count : Z; last_loss_event_tick : Z;
  cwin_bytes : Z; cwin_last_refill_tick : Z; cwin_inited : bool }.
#[export] Instance eta_ctx : Eta rudp_context := fun c => Ctx
  (refcount c) (destroying c) (udp_fd c) (is_client_mode c) (inited c) (version c)
  (my_key c) (your_key c) (my_key_v2 c) (your_key_v2 c) (next_iv c) (next_iv_v2 c)
  (evp_encrypt_ctx c) (evp_decrypt_ctx c) (v2_cipher_inited c)
  (my_cookie c) (your_cookie c) (my_port c)
  (peer_addr c) (peer_addr_len c) (peer_addr_set c) (is_ipv6 c)
  (now c) (last_recv_tick c) (last_recv_your_tick c) (last_recv_my_tick c)
  (next_send_keepalive c) (first_stable_receive_tick c)
  (mss c) (max_udp_packet_size c) (use_compress c)
  (recv_queue c) (recv_queue_head c) (recv_queue_tail c) (recv_queue_count c)
  (fatal_error c)
  (recv_queue_overflow_count c) (udp_rx_packets c) (peer_tick_gap_events c)
  (last_peer_tick_seen c) (recent_overflows c) (udp_data_suspended c)
  (udp_data_resume_tick c) (suspension_count c) (last_loss_event_tick c)
  (cwin_bytes c) (cwin_last_refill_tick c) (cwin_inited c).

(** [rudp_stats_t]. *)
Record rudp_stats := Stats {
  st_recv_queue_overflow_count : Z; st_udp_rx_packets : Z; st_peer_tick_gap_events : Z;
  st_udp_data_suspended : bool }.

(** What [calloc] leaves in the object. *)
Definition ctx_calloc : rudp_context := Ctx
  0 false 0 false false 0
  (zeros 20) (zeros 20) (zeros 128) (zeros 128) (zeros 20) (zeros 12)
  None None false 0 0 0 (Sockaddr 0 0 []) 0 false false
  0 0 0 0 0 0 0 0 false
  (replicate 256 (Block (zeros RUDP_MAX_PAYLOAD_SIZE) 0)) 0 0 0 false
  0 0 0 0 0 false 0 0 0 0 0 false.

(** ** The loss-adaptive send window *)

Definition rudp_cwin_refill (c : rudp_context) : rudp_context :=
  if negb (cwin_inited c) then
    c <| cwin_bytes := RUDP_CWIN_START |> <| cwin_last_refill_tick := now c |>
      <| cwin_inited := true |>
  else if now c <=? cwin_last_refill_tick c then c
  else
    let dt := now c - cwin_last_refill_tick c in
    let c := c <| cwin_last_refill_tick := now c |> in
    let c := c <| cwin_bytes := u64 (cwin_bytes c + u64 (RUDP_CWIN_GROW_BPS * dt) / 1000) |> in
    if cwin_bytes c >? RUDP_CWIN_MAX then c <| cwin_bytes := RUDP_CWIN_MAX |> else c.

Definition rudp_cwin_on_loss (c : rudp_context) : rudp_context :=
  let c := c <| last_loss_event_tick := now c |> in
  let c := c <| cwin_bytes := cwin_bytes c / 2 |> in
  if cwin_bytes c <? RUDP_CWIN_MIN then c <| cwin_bytes := RUDP_CWIN_MIN |> else c.

(** The budget a data send takes. *)
Definition cwin_consume (data_size : Z) (c : rudp_context) : rudp_context :=
  if cwin_bytes c >=? data_size then c <| cwin_bytes := cwin_bytes c - data_size |>
  else c <| cwin_bytes := 0 |>.

(** ** Send readiness, suspension and back-off *)

Definition fast_detect (c : rudp_context) : bool := negb (Z.land (mss c) 2147483648 =? 0).
Definition ka_timeout (c : rudp_context) : Z :=
  if fast_detect c then RUDP_KA_TIMEOUT_FAST else RUDP_KA_TIMEOUT.

(** A long clean stretch resets the back-off. *)
Definition clean_reset (c : rudp_context) : rudp_context :=
  if negb (udp_data_suspended c) && negb (last_loss_event_tick c =? 0) &&
     (now c >? last_loss_event_tick c) &&
     (now c - last_loss_event_tick c >=? RUDP_CLEAN_RESET_MS)
  then c <| suspension_count := 0 |> <| recent_overflows := 0 |> else c.

(** [shift] is an [int]: a count of 2^31 or more would be negative in C. *)
Definition suspend_ms (c : rudp_context) : Z :=
  let shift := suspension_count c in
  let shift := if shift >? RUDP_SUSPEND_BACKOFF_MAX_SHIFT then RUDP_SUSPEND_BACKOFF_MAX_SHIFT else shift in
  u64 (RUDP_UDP_SUSPEND_MS ≪ shift).

Definition suspend (c : rudp_context) : rudp_context :=
  let ms := suspend_ms c in
  c <| suspension_count := u32 (suspension_count c + 1) |>
    <| udp_data_suspended := true |> <| udp_data_resume_tick := u64 (now c + ms) |>.

(** The liveness test behind the suspension logic. *)
Definition path_ready (check_keepalive : bool) (c : rudp_context) : bool * rudp_context :=
  if check_keepalive then
    if (last_recv_tick c =? 0) || (u64 (last_recv_tick c + ka_timeout c) <? now c)
    then (false, c <| first_stable_receive_tick := 0 |>)
    else if u64 (first_stable_receive_tick c + RUDP_REQUIRE_CONTINUOUS) <=? now c
         then (negb (cwin_bytes c =? 0), c) else (false, c)
  else (true, c).

Definition rudp_is_send_ready_nolock (check_keepalive : bool) (c : rudp_context) : bool * rudp_context :=
  let c := clean_reset (rudp_cwin_refill c) in
  if udp_data_suspended c && (now c <? udp_data_resume_tick c) then (false, c) else
  let c := if udp_data_suspended c
           then c <| udp_data_suspended := false |> <| recent_overflows := 0 |> else c in
  if recent_overflows c >=? RUDP_OVERFLOW_SUSPEND_THRESHOLD then (false, suspend c)
  else path_ready check_keepalive c.

(** ** Accessors and setters *)

Definition rudp_set_tick (tick : Z) (c : rudp_context) : rudp_context := c <| now := tick |>.
Definition rudp_set_version (v : Z) (c : rudp_context) : rudp_context :=
  c <| version := if (v >=? 2) && v2_cipher_inited c then 2 else 1 |>.
Definition rudp_set_compress (enable : bool) (c : rudp_context) : rudp_context :=
  c <| use_compress := enable |>.
Definition rudp_set_fast_detect (fast : bool) (c : rudp_context) : rudp_context :=
  c <| mss := if fast then Z.lor (mss c) 2147483648 else Z.land (mss c) 2147483647 |>.
Definition rudp_calc_mss (c : rudp_context) : Z :=
  if is_ipv6 c then (if version c >=? 2 then RUDP_DEFAULT_MSS_V2_IPV6 else RUDP_DEFAULT_MSS_IPV6)
  else (if version c >=? 2 then RUDP_DEFAULT_MSS_V2 else RUDP_DEFAULT_MSS).
Definition rudp_get_stats (c : option rudp_context) : rudp_stats :=
  match c with
  | None => Stats 0 0 0 false
  | Some c => Stats (recv_queue_overflow_count c) (udp_rx_packets c) (peer_tick_gap_events c)
                    (udp_data_suspended c)
  end.

(** ** Receiving: the inner packet *)

Section accel.
Context (sha1 : list Z -> list Z)
        (aead_seal : list Z -> list Z -> list Z -> list Z * list Z)
        (aead_open : list Z -> list Z -> list Z -> list Z -> option (list Z))
        (zlib_compress zlib_uncompress : list Z -> Z -> option (list Z))
        (inet_pton6 inet_pton4 : list Z -> option (list Z))
        (tick : nat -> Z) (rand : nat -> Z -> bool * list Z)
        (sys_socket : nat -> Z -> Z) (sys_bind : nat -> bool) (sys_getsockname : nat -> option Z)
        (sys_sendto : nat -> bool).

Definition calc_key (common_key iv : list Z) : res (list Z) :=
  k ← fetch 0 RUDP_COMMON_KEY_SIZE_V1 common_key;
  v ← fetch 0 RUDP_PACKET_IV_SIZE_V1 iv;
  Ok (sha1 (k ++ v)).

Record inner := Inner { in_my_tick : Z; in_your_tick : Z; in_flag : Z; in_data : list Z }.

(** The field checks at the head of [rudp_process_inner]: [Err] is an early
    [return -1], before any field of the context is written. [buf] is the
    memory from the current position on and [size] the count of bytes that
    belong to the packet. *)
Definition parse_inner (cookie0 : Z) (verify_padding : bool) (buf : list Z) (size : Z) : res inner :=
  _ ← fail_if (size <? 4);
  v ← fetch 0 4 buf;
  let buf := dr 4 buf in let size := size - 4 in
  _ ← fail_if (negb (r32 v =? cookie0));
  _ ← fail_if (size <? 8);
  my_tick ← fetch 0 8 buf;
  let buf := dr 8 buf in let size := size - 8 in
  _ ← fail_if (size <? 8);
  your_tick ← fetch 0 8 buf;
  let buf := dr 8 buf in let size := size - 8 in
  _ ← fail_if (size <? 2);
  n ← fetch 0 2 buf;
  let inner_size := r16 n in
  let buf := dr 2 buf in let size := size - 2 in
  _ ← fail_if (size <? 1);
  flag ← fetch 0 1 buf;
  let buf := dr 1 buf in let size := size - 1 in
  _ ← fail_if (size <? inner_size);
  data ← fetch 0 inner_size buf;
  let buf := dr inner_size buf in let size := size - inner_size in
  _ ← (if verify_padding then
         _ ← fail_if (size <? RUDP_PACKET_IV_SIZE_V1);
         verify ← fetch (size - RUDP_PACKET_IV_SIZE_V1) RUDP_PACKET_IV_SIZE_V1 buf;
         fail_if (existsb (fun z => negb (z =? 0)) verify)
       else Ok tt);
  Ok (Inner (r64 my_tick) (r64 your_tick) (at0 flag 0) data).

Definition outside_window (my_tick : Z) (c : rudp_context) : bool :=
  (my_tick <? last_recv_your_tick c) && (last_recv_your_tick c - my_tick >=? RUDP_WINDOW_SIZE_MSEC).

(** The tick maxima. *)
Definition note_ticks (p : inner) (c : rudp_context) : rudp_context :=
  let c := c <| last_recv_my_tick :=
    if in_your_tick p >? last_recv_my_tick c then in_your_tick p else last_recv_my_tick c |> in
  c <| last_recv_your_tick :=
    if in_my_tick p >? last_recv_your_tick c then in_my_tick p else last_recv_your_tick c |>.

(** A large forward jump of the peer's clock is a loss event. *)
Definition note_gap (p : inner) (c : rudp_context) : rudp_context :=
  let c := if negb (last_peer_tick_seen c =? 0) &&
              (in_my_tick p >? u64 (last_peer_tick_seen c + RUDP_PEER_TICK_LOSS_GAP))
           then rudp_cwin_on_loss (c <| peer_tick_gap_events := u64 (peer_tick_gap_events c + 1) |>)
           else c in
  c <| last_peer_tick_seen := in_my_tick p |> <| udp_rx_packets := u64 (udp_rx_packets c + 1) |>.

(** The peer address follows the packets that are accepted. *)
Definition note_peer (from : sockaddr) (from_len : Z) (c : rudp_context) : rudp_context :=
  c <| peer_addr := from |> <| peer_addr_len := from_len |> <| peer_addr_set := true |>
    <| is_ipv6 := ss_family from =? AF_INET6 |>.

Definition note_timing (c : rudp_context) : rudp_context :=
  if negb (last_recv_my_tick c =? 0) &&
     (u64 (last_recv_my_tick c + RUDP_WINDOW_SIZE_MSEC) >=? now c)
  then let c := c <| last_recv_tick := now c |> in
       if first_stable_receive_tick c =? 0 then c <| first_stable_receive_tick := now c |> else c
  else c.

Definition note_packet (p : inner) (from : sockaddr) (from_len : Z) (c : rudp_context) : rudp_context :=
  note_timing (note_peer from from_len (note_gap p (note_ticks p c))).

(** [recv_queue[i]] with a C index. *)
Definition queue_get (i : Z) (q : list queued_block) : res queued_block :=
  if i <? 0 then Ub else match q !! Z.to_nat i with Some b => Ok b | None => Ub end.

(** Store at the tail, or count the overflow; a block over 1600 bytes is
    dropped without a trace. *)
Definition queue_block (data : list Z) (c : rudp_context) : res rudp_context :=
  if (len data <=? RUDP_MAX_PAYLOAD_SIZE) && (recv_queue_count c <? RUDP_RECV_QUEUE_SIZE) then
  e ← queue_get (recv_queue_tail c) (recv_queue c);
  d ← blit data 0 (q_data e);
  let q := <[Z.to_nat (recv_queue_tail c) := Block d (len data)]> (recv_queue c) in
  Ok (c <| recv_queue := q |>
          <| recv_queue_tail := (recv_queue_tail c + 1) mod RUDP_RECV_QUEUE_SIZE |>
          <| recv_queue_count := recv_queue_count c + 1 |>)
  else if len data <=? RUDP_MAX_PAYLOAD_SIZE then
  let c := c <| recv_queue_overflow_count := u64 (recv_queue_overflow_count c + 1) |>
               <| recent_overflows := u32 (recent_overflows c + 1) |> in
  Ok (rudp_cwin_on_loss c)
  else Ok c.

(** The payload as it will be queued; [None] when decompression fails. *)
Definition payload_of (p : inner) : option (list Z) :=
  if negb (Z.land (in_flag p) RUDP_FLAG_COMPRESSED =? 0)
  then uncompress_data zlib_uncompress (in_data p) (RUDP_MAX_PAYLOAD_SIZE + 256)
  else Some (in_data p).

(** The return value (0 accepted, -1 dropped) and the context. *)
Definition rudp_process_inner (buf : list Z) (size : Z) (from : sockaddr) (from_len : Z)
  (verify_padding : bool) (c : rudp_context) : res (Z * rudp_context) :=
  match parse_inner (my_cookie c) verify_padding buf size with
  | Ub => Ub
  | Err => Ok (-1, c)
  | Ok p =>
      if outside_window (in_my_tick p) c then Ok (-1, c) else
      let c := note_packet p from from_len c in
      if len (in_data p) >? 0 then
        match payload_of p with
        | None => Ok (-1, c)
        | Some data => c ← queue_block data c; Ok (0, c)
        end
      else Ok (0, c)
  end.

(** ** One received datagram, after the clock has been read *)

Definition recv_v1 (pkt : list Z) (from : sockaddr) (from_len : Z) (c : rudp_context) : res rudp_context :=
  key ← calc_key (your_key c) pkt;
  let buf := Rc4.rc4_crypt key (dr RUDP_PACKET_IV_SIZE_V1 pkt) in
  r ← rudp_process_inner buf (len pkt - RUDP_PACKET_IV_SIZE_V1) from from_len true c;
  Ok r.2.

Definition recv_v2 (pkt : list Z) (from : sockaddr) (from_len : Z) (c : rudp_context) : res rudp_context :=
  if len pkt <? RUDP_PACKET_IV_SIZE_V2 + RUDP_PACKET_MAC_SIZE_V2 + 4 + 1 then Ok c else
  iv ← fetch 0 RUDP_PACKET_IV_SIZE_V2 pkt;
  let size := len pkt - RUDP_PACKET_IV_SIZE_V2 in
  tag ← fetch (len pkt - RUDP_PACKET_MAC_SIZE_V2) RUDP_PACKET_MAC_SIZE_V2 pkt;
  body ← fetch RUDP_PACKET_IV_SIZE_V2 (size - RUDP_PACKET_MAC_SIZE_V2) pkt;
  match evp_decrypt_ctx c with
  | None => Ub
  | Some key =>
      match aead_open key iv body tag with
      | None => Ok c
      | Some plain =>
          r ← rudp_process_inner plain (size - RUDP_PACKET_MAC_SIZE_V2) from from_len false c;
          Ok r.2
      end
  end.

Definition rudp_process_packet (pkt : list Z) (from : sockaddr) (from_len : Z) (c : rudp_context) : res rudp_context :=
  if version c =? 1 then recv_v1 pkt from from_len c
  else if version c =? 2 then recv_v2 pkt from from_len c
  else Ok c.

(** ** Building a packet *)

(** Write at the cursor of the 2048-byte buffer. *)
Definition put (bs pkt : list Z) : res (list Z) :=
  if len pkt + len bs <=? RUDP_TMP_BUF_SIZE then Ok (pkt ++ bs) else Ub.

(** The payload sent and its flag byte: compressed when the session
    negotiated it and zlib succeeds. *)
Definition send_form (data : list Z) (flag : Z) (c : rudp_context) : list Z * Z :=
  if use_compress c && (len data >? 1) then
  match compress_data zlib_compress data (RUDP_MAX_PAYLOAD_SIZE + 256) with
  | Some d => (d, Z.lor flag RUDP_FLAG_COMPRESSED)
  | None => (data, flag)
  end
  else (data, flag).

(** IV, cookie, ticks, size, flag and data; [Err] is "data too large". *)
Definition send_head (iv data : list Z) (flag : Z) (c : rudp_context) : res (list Z) :=
  pkt ← put iv [];
  pkt ← put (w32 (your_cookie c)) pkt;
  pkt ← put (w64 (if now c =? 0 then 1 else now c)) pkt;
  pkt ← put (w64 (last_recv_your_tick c)) pkt;
  pkt ← put (w16 (u16 (len data))) pkt;
  pkt ← put [flag] pkt;
  if len data >? 0 then
  _ ← fail_if (u32 (len pkt + len data) >? RUDP_TMP_BUF_SIZE - RUDP_PACKET_IV_SIZE_V1 - 8);
  put data pkt
  else Ok pkt.

(** The padding length for [current_size] when the CSPRNG gives [r]; [None]
    when the packet already fills the MTU and no number is drawn. *)
Definition pad_room (current_size : Z) (c : rudp_context) : option Z :=
  if current_size <? max_udp_packet_size c then
  let pad_size := max_udp_packet_size c - current_size in
  Some (if pad_size >? RUDP_MAX_PADDING_SIZE then RUDP_MAX_PADDING_SIZE else pad_size)
  else None.

(** Padding, verify field and RC4: the packet and the next IV. *)
Definition seal_v1 (head : list Z) (pad : Z) (c : rudp_context) : res (list Z * list Z) :=
  pkt ← put (zeros pad) head;
  pkt ← put (zeros RUDP_PACKET_IV_SIZE_V1) pkt;
  key ← calc_key (my_key c) (next_iv c);
  iv ← fetch 0 RUDP_PACKET_IV_SIZE_V1 pkt;
  let pkt := iv ++ Rc4.rc4_crypt key (dr RUDP_PACKET_IV_SIZE_V1 pkt) in
  next ← fetch (len pkt - RUDP_PACKET_IV_SIZE_V1) RUDP_PACKET_IV_SIZE_V1 pkt;
  Ok (pkt, next).

(** Padding, size guard and AEAD: the packet and the next IV. *)
Definition seal_v2 (head : list Z) (current_size pad : Z) (c : rudp_context) : res (list Z * list Z) :=
  pkt ← put (zeros pad) head;
  _ ← fail_if (current_size + pad >? RUDP_TMP_BUF_SIZE);
  match evp_encrypt_ctx c with
  | None => Ub
  | Some key =>
      iv ← fetch 0 RUDP_PACKET_IV_SIZE_V2 pkt;
      let '(cipher, tag) := aead_seal key (next_iv_v2 c) (dr RUDP_PACKET_IV_SIZE_V2 pkt) in
      pkt ← put tag (iv ++ cipher);
      next ← fetch RUDP_PACKET_IV_SIZE_V2 RUDP_PACKET_IV_SIZE_V2 pkt;
      Ok (pkt, next)
  end.

(** ** The world of the entry points *)

Record datagram := Datagram { d_bytes : list Z; d_from : sockaddr; d_from_len : Z }.

Record aworld := AWorld {
  a_ctx : rudp_context;
  a_freed : bool;              (** [free(ctx)] has run *)
  a_ticks : nat;               (** clock readings *)
  a_rands : nat;               (** CSPRNG calls *)
  a_sys : nat;                 (** socket system calls *)
  a_in : list datagram;        (** datagrams waiting in the socket *)
  a_out : list datagram;       (** datagrams given to [sendto] that it took *)
  a_closed : list Z }.         (** descriptors closed *)
#[export] Instance eta_aworld : Eta aworld := fun w => AWorld
  (a_ctx w) (a_freed w) (a_ticks w) (a_rands w) (a_sys w) (a_in w) (a_out w) (a_closed w).

(** Reading or writing the context needs it to be alive. *)
Definition get_c : St aworld rudp_context := fun w => if a_freed w then Ub else Ok (a_ctx w, w).
Definition modify_c (f : rudp_context -> rudp_context) : St aworld unit := fun w =>
  if a_freed w then Ub else Ok (tt, w <| a_ctx := f (a_ctx w) |>).
Definition upd_c (f : rudp_context -> res rudp_context) : St aworld unit :=
  c ← get_c; c ← lift (f c); modify_c (fun _ => c).

Definition tick64 : St aworld Z := fun w =>
  Ok (u64 (tick (a_ticks w)), w <| a_ticks := S (a_ticks w) |>).
(** The return code is 0 on success; the bytes are what the buffer holds. *)
Definition generate_random_bytes (n : Z) : St aworld (bool * list Z) := fun w =>
  Ok (rand (a_rands w) n, w <| a_rands := S (a_rands w) |>).
Definition rudp_rand_u32 : St aworld Z :=
  b ← generate_random_bytes 4;
  mret (if negb b.1 then 0 else r32 b.2).
Definition sys {A} (f : nat -> A) : St aworld A := fun w =>
  Ok (f (a_sys w), w <| a_sys := S (a_sys w) |>).
Definition close_fd : St aworld unit := fun w =>
  if a_freed w then Ub else
  if udp_fd (a_ctx w) >=? 0 then
  Ok (tt, w <| a_closed := udp_fd (a_ctx w) :: a_closed w |>
              <| a_ctx := (a_ctx w) <| udp_fd := -1 |> |>)
  else Ok (tt, w).

(** ** Lifetime, as one thread sees it

    The interleavings of several threads are in [Refcount]. *)

Definition rudp_destroy_final : St aworld unit :=
  close_fd ;; modify (fun w => w <| a_freed := true |>).

Definition rudp_ref_release : St aworld unit :=
  modify_c (fun c => c <| refcount := refcount c - 1 |>) ;;
  c ← get_c;
  when (refcount c =? 0) rudp_destroy_final.

Definition rudp_ref_acquire : St aworld bool :=
  c ← get_c;
  if refcount c <=? 0 then mret false else
  if destroying c then mret false else
  modify_c (fun c => c <| refcount := refcount c + 1 |>) ;;
  c ← get_c;
  if destroying c then rudp_ref_release ;; mret false else mret true.

Definition rudp_destroy : St aworld unit :=
  modify_c (fun c => c <| destroying := true |>) ;; rudp_ref_release.

(** The frame of every guarded entry point: [fail] when the context is being
    destroyed. *)
Definition with_ref {A} (fail : A) (body : St aworld A) : St aworld A :=
  ok ← rudp_ref_acquire;
  if negb ok then mret fail else
  r ← body;
  rudp_ref_release ;; mret r.

(** ** Sockets, creation, keys *)

Definition rudp_create_udp_socket (family : Z) : St aworld Z :=
  if negb (family =? AF_INET) && negb (family =? AF_INET6) then mret (-1) else
  close_fd ;;
  fd ← sys (fun n => sys_socket n family);
  modify_c (fun c => c <| udp_fd := fd |>) ;;
  if fd <? 0 then mret (-1) else
  bound ← sys sys_bind;
  if negb bound then close_fd ;; modify_c (fun c => c <| udp_fd := -1 |>) ;; mret (-1) else
  port ← sys sys_getsockname;
  modify_c (fun c => c <| my_port := match port with Some p => p | None => my_port c end |>
                       <| is_ipv6 := family =? AF_INET6 |>) ;;
  mret 0.

(** The two [do ... while] loops that draw the cookies. *)
Fixpoint draw_cookie (fuel : nat) (bad : Z -> bool) : St aworld Z :=
  match fuel with
  | O => fun _ => Err
  | S fuel => v ← rudp_rand_u32; if bad v then draw_cookie fuel bad else mret v
  end.

Definition fill (n : Z) (set : list Z -> rudp_context -> rudp_context) : St aworld unit :=
  b ← generate_random_bytes n; modify_c (set b.2).

(** The zeroed object, its socket, and the random keys and IVs; [false] is the
    [return NULL] after the socket failed and the object was freed. *)
Definition create_setup (is_client : bool) : St aworld bool :=
  modify_c (fun _ => ctx_calloc <| refcount := 1 |> <| destroying := false |>
                       <| is_client_mode := is_client |> <| version := 1 |>
                       <| mss := RUDP_DEFAULT_MSS |>
                       <| max_udp_packet_size := RUDP_MAX_UDP_PACKET_IPV4 |>
                       <| udp_fd := -1 |>) ;;
  r ← rudp_create_udp_socket AF_INET;
  if negb (r =? 0) then modify (fun w => w <| a_freed := true |>) ;; mret false else
  fill 20 (fun b c => c <| my_key := b |>) ;;
  fill 20 (fun b c => c <| your_key := b |>) ;;
  fill 128 (fun b c => c <| my_key_v2 := b |>) ;;
  fill 128 (fun b c => c <| your_key_v2 := b |>) ;;
  fill 20 (fun b c => c <| next_iv := b |>) ;;
  fill 12 (fun b c => c <| next_iv_v2 := b |>) ;;
  mret true.

(** [true] when the call returns a context, [false] when it returns NULL;
    [Err] is a cookie loop that has not ended within [fuel] draws. *)
Definition rudp_create (fuel : nat) (is_client : bool) : St aworld bool :=
  ok ← create_setup is_client;
  if negb ok then mret false else
  mine ← draw_cookie fuel (fun v => v =? 0);
  modify_c (fun c => c <| my_cookie := mine |>) ;;
  yours ← draw_cookie fuel (fun v => (v =? 0) || (v =? mine));
  modify_c (fun c => c <| your_cookie := yours |>) ;;
  t ← tick64;
  modify_c (fun c => c <| now := t |>) ;;
  mret true.

(** Both cipher contexts, with the keys as they are now; [alloc] is whether
    OpenSSL could allocate them. ChaCha20-Poly1305 takes the first 32 bytes. *)
Definition rudp_init_v2_cipher (alloc : bool) (c : rudp_context) : rudp_context :=
  if negb alloc then c <| evp_encrypt_ctx := None |> <| evp_decrypt_ctx := None |>
                       <| v2_cipher_inited := false |>
  else c <| evp_encrypt_ctx := Some (tk 32 (my_key_v2 c)) |>
         <| evp_decrypt_ctx := Some (tk 32 (your_key_v2 c)) |> <| v2_cipher_inited := true |>.

(** The peer's address parsed as IPv6 first, then as IPv4. *)
Definition peer_of (ip : list Z) (port : Z) : option sockaddr :=
  match inet_pton6 ip with
  | Some a => Some (Sockaddr AF_INET6 port a)
  | None => match inet_pton4 ip with Some a => Some (Sockaddr AF_INET port a) | None => None end
  end.

Definition set_peer (a : sockaddr) (c : rudp_context) : rudp_context :=
  let v6 := ss_family a =? AF_INET6 in
  c <| peer_addr := a |> <| peer_addr_len := if v6 then 28 else 16 |> <| peer_addr_set := true |>
  <| mss := if v6 then RUDP_DEFAULT_MSS_IPV6 else RUDP_DEFAULT_MSS |>
  <| max_udp_packet_size := if v6 then RUDP_MAX_UDP_PACKET_IPV6 else RUDP_MAX_UDP_PACKET_IPV4 |>.

(** [memcpy] of the peer's keys out of [key], of which [key_size] bytes are
    readable. *)
Definition set_peer_key (key : list Z) (key_size : Z) (c : rudp_context) : res rudp_context :=
  if key_size >=? RUDP_COMMON_KEY_SIZE_V1 then
  k ← fetch 0 RUDP_COMMON_KEY_SIZE_V1 key;
  let c := c <| your_key := k |> in
  if key_size >=? RUDP_COMMON_KEY_SIZE_V2 then
      k ← fetch 0 RUDP_COMMON_KEY_SIZE_V2 key; Ok (c <| your_key_v2 := k |>)
  else Ok c
  else Ok c.

(** What the two [rudp_init_*] functions share. *)
Definition init_peer (alloc : bool) (key : list Z) (key_size : Z) (ip : list Z) (port : Z)
  (finish : rudp_context -> rudp_context) : St aworld Z :=
  match peer_of ip port with
  | None => mret (-1)
  | Some a =>
      c ← get_c;
      r ← (if bool_decide ((ss_family a =? AF_INET6) = is_ipv6 c) then mret 0
           else rudp_create_udp_socket (ss_family a));
      if negb (r =? 0) then mret (-1) else
      modify_c (set_peer a) ;;
      upd_c (set_peer_key key key_size) ;;
      modify_c (fun c => if key_size >=? RUDP_COMMON_KEY_SIZE_V2 then rudp_init_v2_cipher alloc c else c) ;;
      modify_c finish ;;
      t ← tick64;
      modify_c (fun c => c <| inited := true |> <| now := t |>) ;;
      mret 0
  end.

Definition rudp_init_client (alloc : bool) (key : list Z) (key_size : Z) (ip : list Z) (port : Z)
  (server_cookie client_cookie : Z) : St aworld Z :=
  init_peer alloc key key_size ip port
  (fun c => c <| your_cookie := server_cookie |> <| my_cookie := client_cookie |>).

Definition rudp_init_server (alloc : bool) (key : list Z) (key_size : Z) (ip : list Z) (port : Z) : St aworld Z :=
  init_peer alloc key key_size ip port (fun c => c).

Definition rudp_set_udp_family (family : Z) : St aworld Z :=
  if negb (family =? AF_INET) && negb (family =? AF_INET6) then mret (-1) else
  c ← get_c;
  if bool_decide (is_ipv6 c = (family =? AF_INET6)) then mret 0 else rudp_create_udp_socket family.

(** ** Sending *)

(** A C function that may [return -1] in the middle: [None] is that return. *)
Definition try {A} (r : res A) : St aworld (option A) := fun w =>
  match r with Ub => Ub | Err => Ok (None, w) | Ok a => Ok (Some a, w) end.

(** The padding length: drawn only when the packet does not fill the MTU. *)
Definition draw_pad (current_size : Z) : St aworld Z :=
  c ← get_c;
  match pad_room current_size c with
  | Some room => r ← rudp_rand_u32; mret (r mod u32 (room + 1))
  | None => mret 0
  end.

(** Pad and encrypt [head] for the version in use, and chain the IV. *)
Definition send_seal (head data : list Z) : St aworld (option (list Z)) :=
  c ← get_c;
  if version c =? 1 then
  pad ← draw_pad (u32 (63 + len data));
  c ← get_c;
  p ← lift (seal_v1 head pad c);
  modify_c (fun c => c <| next_iv := p.2 |>) ;; mret (Some p.1)
  else
  let current_size := u32 (51 + len data) in
  pad ← draw_pad current_size;
  c ← get_c;
  p ← try (seal_v2 head current_size pad c);
  match p with
  | None => mret None
  | Some p => modify_c (fun c => c <| next_iv_v2 := p.2 |>) ;; mret (Some p.1)
  end.

(** [sendto] to the peer and the budget the payload takes. *)
Definition send_out (pkt : list Z) (data_size : Z) : St aworld Z :=
  c ← get_c;
  sent ← sys sys_sendto;
  if negb sent then mret (-1) else
  modify (fun w => w <| a_out := a_out w ++ [Datagram pkt (peer_addr c) (peer_addr_len c)] |>) ;;
  when (data_size >? 0) (modify_c (fun c => cwin_consume data_size (rudp_cwin_refill c))) ;;
  mret (len pkt).

Definition rudp_send_nolock (data0 : list Z) (flag0 : Z) : St aworld Z :=
  t ← tick64;
  modify_c (fun c => c <| now := t |>) ;;
  c ← get_c;
  let '(data, flag) := send_form data0 flag0 c in
  head ← try (send_head (if version c =? 1 then next_iv c else next_iv_v2 c) data flag c);
  match head with
  | None => mret (-1)
  | Some head =>
      pkt ← send_seal head data;
      match pkt with
      | None => mret (-1)
      | Some pkt => send_out pkt (len data0)
      end
  end.

(** [data] is [None] for a null pointer, otherwise the memory it points to,
    of which the call reads [data_size] bytes. *)
Definition rudp_send (data : option (list Z)) (data_size flag : Z) : St aworld Z :=
  with_ref (-1)
  (c ← get_c;
     if negb (inited c) || negb (peer_addr_set c) then mret (-1) else
     match data with
     | None => if data_size >? 0 then mret (-1) else rudp_send_nolock [] flag
     | Some buf => d ← lift (fetch 0 data_size buf); rudp_send_nolock d flag
     end).

Definition rudp_send_keepalive : St aworld Z := rudp_send None 0 0.

Definition rudp_is_send_ready (check_keepalive : bool) : St aworld bool :=
  c ← get_c;
  if negb (inited c) || negb (peer_addr_set c) then mret false else
  with_ref false
  (c ← get_c;
     let r := rudp_is_send_ready_nolock check_keepalive c in
     modify_c (fun _ => r.2) ;; mret r.1).

(** ** Polling *)

(** No valid packet for the timeout: the path is no longer stable. *)
Definition poll_timeout (c : rudp_context) : rudp_context :=
  if negb (last_recv_tick c =? 0) && (u64 (last_recv_tick c + ka_timeout c) <? now c)
  then c <| first_stable_receive_tick := 0 |> <| last_loss_event_tick := now c |> else c.

Definition poll_keepalive : St aworld unit :=
  c ← get_c;
  when ((next_send_keepalive c =? 0) || (next_send_keepalive c <=? now c))
  (when (peer_addr_set c) (_ ← rudp_send_keepalive; mret tt) ;;
     c ← get_c;
     let ka_min := if fast_detect c then RUDP_KA_INTERVAL_MIN_FAST else RUDP_KA_INTERVAL_MIN in
     let ka_max := if fast_detect c then RUDP_KA_INTERVAL_MAX_FAST else RUDP_KA_INTERVAL_MAX in
     r ← rudp_rand_u32;
     modify_c (fun c => c <| next_send_keepalive := u64 (now c + (ka_min + r mod (ka_max - ka_min))) |>)).

(** [recvfrom] into the 2048-byte buffer: [None] is a return value <= 0 (no
    datagram, or an empty one). *)
Definition recv_datagram : St aworld (option datagram) := fun w =>
  match a_in w with
  | [] => Ok (None, w)
  | d :: rest =>
      let w := w <| a_in := rest |> in
      let b := tk RUDP_TMP_BUF_SIZE (d_bytes d) in
      if len b =? 0 then Ok (None, w) else Ok (Some (Datagram b (d_from d) (d_from_len d)), w)
  end.

Definition poll_packet (d : datagram) : St aworld unit :=
  if len (d_bytes d) <? RUDP_PACKET_IV_SIZE_V1 + 4 + 1 then mret tt else
  t ← tick64;
  modify_c (fun c => c <| now := t |>) ;;
  upd_c (rudp_process_packet (d_bytes d) (d_from d) (d_from_len d)).

(** One pass of the read loop per waiting datagram; the bound on the passes
    is the number of datagrams that wait when the loop is entered. *)
Fixpoint poll_loop (fuel : nat) : St aworld unit :=
  match fuel with
  | O => fun _ => Err
  | S fuel =>
      d ← recv_datagram;
      match d with
      | None => mret tt
      | Some d => poll_packet d ;; poll_loop fuel
      end
  end.

Definition rudp_poll_nolock : St aworld unit :=
  t ← tick64;
  modify_c (fun c => poll_timeout (c <| now := t |>)) ;;
  poll_keepalive ;;
  n ← gets (fun w => length (a_in w));
  poll_loop (S n).

Definition rudp_poll : St aworld unit :=
  with_ref tt (c ← get_c; if negb (inited c) then mret tt else rudp_poll_nolock).

(** ** The application's receive *)

(** The return value and the bytes stored in [buffer] (their number is what
    [*len] is set to, when it is set). *)
Definition recv_pop (max_len : Z) (c : rudp_context) : res (Z * list Z * rudp_context) :=
  if recv_queue_count c <=? 0 then Ok (0, [], c) else
  e ← queue_get (recv_queue_head c) (recv_queue c);
  if q_len e >? max_len then Ok (-1, [], c) else
  d ← fetch 0 (q_len e) (q_data e);
  Ok (q_len e, d, c <| recv_queue_head := (recv_queue_head c + 1) mod RUDP_RECV_QUEUE_SIZE |>
                    <| recv_queue_count := recv_queue_count c - 1 |>).

Definition rudp_recv (max_len : Z) : St aworld (Z * list Z) :=
  with_ref (-1, [])
  (c ← get_c;
     r ← lift (recv_pop max_len c);
     modify_c (fun _ => r.2) ;; mret r.1).

Definition rudp_get_udp_fd : St aworld Z := with_ref (-1) (c ← get_c; mret (udp_fd c)).

Definition rudp_is_active : St aworld bool :=
  with_ref false
  (c ← get_c;
     mret (inited c && peer_addr_set c && negb (fatal_error c) &&
           negb (first_stable_receive_tick c =? 0))).
End accel.
