(* ===== verification/AccelInv.v ===== *)
(** * UDP acceleration: the context invariant

    [ctx_ok] is the well-formedness of a context. Every operation of [Accel] is proved to
    preserve it without leaving a buffer, whatever arrives. *)
From S2P Require Import Prelude Bytes Ring Crypto Fifo Accel.

(** ** The context invariant *)

Definition block_ok (b : queued_block) : Prop :=
  len (q_data b) = RUDP_MAX_PAYLOAD_SIZE /\ 0 <= q_len b <= RUDP_MAX_PAYLOAD_SIZE /\ bytes_ok (q_data b).

Definition queue_ok (c : rudp_context) : Prop :=
  len (recv_queue c) = RUDP_RECV_QUEUE_SIZE /\ Forall block_ok (recv_queue c) /\
  0 <= recv_queue_head c < RUDP_RECV_QUEUE_SIZE /\
  0 <= recv_queue_count c <= RUDP_RECV_QUEUE_SIZE /\
  recv_queue_tail c = (recv_queue_head c + recv_queue_count c) mod RUDP_RECV_QUEUE_SIZE.

Definition keys_ok (c : rudp_context) : Prop :=
  len (my_key c) = 20 /\ len (your_key c) = 20 /\ len (next_iv c) = 20 /\
  (len (next_iv_v2 c) = 12 /\ len (my_key_v2 c) = 128 /\ 0 <= my_cookie c < 2 ^ 32 /\ 0 <= my_port c < 2 ^ 32 /\
   (v2_cipher_inited c = true -> is_Some (evp_encrypt_ctx c) /\ is_Some (evp_decrypt_ctx c))).

Ltac keys_reduce :=
  cbn [my_key your_key next_iv next_iv_v2 my_key_v2 my_cookie my_port v2_cipher_inited evp_encrypt_ctx evp_decrypt_ctx].

(** Version 2 is only in force with both cipher contexts. *)
Definition version_ok (c : rudp_context) : Prop :=
  version c = 1 \/
  version c = 2 /\ is_Some (evp_encrypt_ctx c) /\ is_Some (evp_decrypt_ctx c).

Definition ctx_ok (c : rudp_context) : Prop :=
  queue_ok c /\ keys_ok c /\ version_ok c /\
  (max_udp_packet_size c = RUDP_MAX_UDP_PACKET_IPV4 \/ max_udp_packet_size c = RUDP_MAX_UDP_PACKET_IPV6) /\
  0 <= cwin_bytes c <= RUDP_CWIN_MAX.

(** The blocks that wait for [rudp_recv], oldest first. *)
Definition block_bytes (b : queued_block) : list Z := tk (q_len b) (q_data b).
Definition queue (c : rudp_context) : list (list Z) :=
  map block_bytes (ring_view (recv_queue_head c) (recv_queue_count c) (recv_queue c)).

Lemma len_queue c : queue_ok c -> len (queue c) = recv_queue_count c.
Proof.
  intros (Hl & _ & Hh & Hc & _). unfold queue, RUDP_RECV_QUEUE_SIZE in *.
  rewrite len_map, len_ring_view by lia. done.
Qed.

(** Everything [ctx_ok] looks at except the window. *)
Definition kernel (c : rudp_context) :=
  (recv_queue c, recv_queue_head c, recv_queue_count c, recv_queue_tail c,
   (my_key c, your_key c, next_iv c, next_iv_v2 c), (my_key_v2 c, my_cookie c, my_port c, v2_cipher_inited c),
   (version c, evp_encrypt_ctx c, evp_decrypt_ctx c, max_udp_packet_size c), refcount c).

Lemma ctx_ok_same c c' :
  ctx_ok c -> kernel c' = kernel c -> 0 <= cwin_bytes c' <= RUDP_CWIN_MAX -> ctx_ok c'.
Proof.
  unfold kernel, ctx_ok, queue_ok, keys_ok, version_ok. intros H E Hw.
  injection E as -> -> -> -> -> -> -> -> -> -> -> -> -> -> -> -> _. tauto.
Qed.

(** ** The window *)

Lemma refill_bound c : 0 <= cwin_bytes c <= RUDP_CWIN_MAX ->
  0 <= cwin_bytes (rudp_cwin_refill c) <= RUDP_CWIN_MAX.
Proof.
  intros H. unfold rudp_cwin_refill, RUDP_CWIN_MAX, RUDP_CWIN_START, u64 in *.
  destruct (negb _); [cbn; lia|]. destruct (_ <=? _); [done|]. cbv zeta.
  pose proof (Z.mod_pos_bound (cwin_bytes c +
    (RUDP_CWIN_GROW_BPS * (now c - cwin_last_refill_tick c)) mod 2 ^ 64 / 1000) (2 ^ 64) ltac:(lia)).
  destruct (_ >? _) eqn:E; cbn in *; lia.
Qed.

Lemma on_loss_bound c : 0 <= cwin_bytes c <= RUDP_CWIN_MAX ->
  RUDP_CWIN_MIN <= cwin_bytes (rudp_cwin_on_loss c) <= RUDP_CWIN_MAX.
Proof.
  intros H. unfold rudp_cwin_on_loss, RUDP_CWIN_MAX, RUDP_CWIN_MIN in *. cbv zeta.
  assert (0 <= cwin_bytes c / 2 <= cwin_bytes c).
  { split; [apply Z.div_pos; lia|apply Z.div_le_upper_bound; lia]. }
  destruct (_ <? _) eqn:E; cbn in *; lia.
Qed.

Lemma consume_bound n c : 0 <= n -> 0 <= cwin_bytes c <= RUDP_CWIN_MAX ->
  0 <= cwin_bytes (cwin_consume n c) <= RUDP_CWIN_MAX.
Proof.
  intros Hn H. unfold cwin_consume, RUDP_CWIN_MAX in *. destruct (_ >=? _) eqn:E; cbn; lia.
Qed.

Lemma refill_kernel c : kernel (rudp_cwin_refill c) = kernel c.
Proof. unfold rudp_cwin_refill. by repeat case_match. Qed.
Lemma on_loss_kernel c : kernel (rudp_cwin_on_loss c) = kernel c.
Proof. unfold rudp_cwin_on_loss. by repeat case_match. Qed.
Lemma consume_kernel n c : kernel (cwin_consume n c) = kernel c.
Proof. unfold cwin_consume. by repeat case_match. Qed.

Lemma ctx_ok_cwin c : ctx_ok c -> 0 <= cwin_bytes c <= RUDP_CWIN_MAX.
Proof. unfold ctx_ok. tauto. Qed.

Lemma refill_ok c : ctx_ok c -> ctx_ok (rudp_cwin_refill c).
Proof.
  intros H. apply (ctx_ok_same c); [done|apply refill_kernel|by apply refill_bound, ctx_ok_cwin].
Qed.
Lemma on_loss_ok c : ctx_ok c -> ctx_ok (rudp_cwin_on_loss c).
Proof.
  intros H. apply (ctx_ok_same c); [done|apply on_loss_kernel|].
  pose proof (on_loss_bound c (ctx_ok_cwin c H)). unfold RUDP_CWIN_MIN in *. lia.
Qed.
Lemma consume_ok n c : 0 <= n -> ctx_ok c -> ctx_ok (cwin_consume n c).
Proof.
  intros Hn H. apply (ctx_ok_same c); [done|apply consume_kernel|by apply consume_bound, ctx_ok_cwin].
Qed.

Lemma clean_reset_ok c : ctx_ok c -> ctx_ok (clean_reset c).
Proof. unfold clean_reset. by case_match. Qed.

Lemma path_ready_ok k c : ctx_ok c -> ctx_ok (path_ready k c).2.
Proof. unfold path_ready. by repeat case_match. Qed.

Lemma send_ready_ok k c : ctx_ok c -> ctx_ok (rudp_is_send_ready_nolock k c).2.
Proof.
  intros H. unfold rudp_is_send_ready_nolock. cbv zeta. apply refill_ok, clean_reset_ok in H.
  revert H. generalize (clean_reset (rudp_cwin_refill c)). clear c. intros c H.
  destruct (udp_data_suspended c), (now c <? udp_data_resume_tick c); cbn [andb];
    repeat (done || case_match || apply path_ready_ok).
Qed.

(** ** Receiving *)

(** The fields of an inner packet in wire order. *)
Definition inner_frame (cookie : Z) (p : inner) (rest : list Z) : list Z :=
  be_enc 4 cookie ++ be_enc 8 (in_my_tick p) ++ be_enc 8 (in_your_tick p) ++
  be_enc 2 (len (in_data p)) ++ [in_flag p] ++ in_data p ++ rest.

Definition inner_ok (p : inner) : Prop :=
  0 <= in_my_tick p < 2 ^ 64 /\ 0 <= in_your_tick p < 2 ^ 64 /\ byte_ok (in_flag p) /\
  bytes_ok (in_data p) /\ len (in_data p) < 65536.

#[global] Instance inner_ok_dec p : Decision (inner_ok p).
Proof. unfold inner_ok. apply _. Defined.

(** One guarded field read: too short, or the buffer splits. *)
Lemma parse_field {B} (G : res B -> Prop) n size buf (k : list Z -> res B) :
  size = len buf -> 0 <= n -> bytes_ok buf -> G Err ->
  (forall a b, buf = a ++ b -> len a = n -> bytes_ok a -> bytes_ok b -> G (k a)) ->
  G (fail_if (size <? n) ≫= (fun _ => fetch 0 n buf ≫= k)).
Proof.
  intros -> Hn Hb He Hk. destruct (len buf <? n) eqn:E; [done|]. cbn [fail_if]. rewrite bind_ok.
  destruct (split_len n buf) as (a & b & -> & Ha); [lia|]. apply bytes_ok_app in Hb as [? ?].
  rewrite (fetch_at [] a b 0 n eq_refl (eq_sym Ha) : fetch 0 n (a ++ b) = Ok a). by apply (Hk a b).
Qed.

(** The trailing verify field is 20 zero bytes. *)
Lemma verify_zeros l : existsb (fun z => negb (z =? 0)) l = false <-> l = zeros (len l).
Proof.
  unfold zeros, len. rewrite Nat2Z.id.
  induction l as [|x l IH]; [done|]. cbn [existsb length replicate].
  rewrite orb_false_iff, negb_false_iff, Z.eqb_eq. split.
  - intros [-> H]. f_equal. by apply IH.
  - intros [= -> H]. split; [done|]. by apply IH.
Qed.

Lemma verify_step size buf :
  size = len buf ->
  let e := (fail_if (size <? 20) ≫= fun _ => fetch (size - 20) 20 buf ≫= fun v =>
    fail_if (existsb (fun z => negb (z =? 0)) v)) in
  e = Err \/ e = Ok tt /\ exists pad, buf = pad ++ zeros 20.
Proof.
  intros -> e. subst e. destruct (len buf <? 20) eqn:E; [by left|]. cbn [fail_if]. rewrite bind_ok.
  destruct (split_len (len buf - 20) buf) as (a & b & -> & Ha); [slia|].
  rewrite <- (app_nil_r b), (fetch_at a b []) by slia. rewrite bind_ok, app_nil_r.
  assert (Hb : len b = 20) by slia. destruct (existsb _ b) eqn:Ev; [by left|]. right. split; [done|].
  exists a. f_equal. rewrite <- Hb. by apply verify_zeros.
Qed.

Lemma be_enc_read n l v : bytes_ok l -> len l = Z.of_nat n -> be_dec l = v -> l = be_enc n v.
Proof.
  intros Hb Hl <-. rewrite <- (be_enc_dec l Hb) at 1. f_equal. unfold len in Hl. lia.
Qed.


(** What the checks of [rudp_process_inner] accept: never out of bounds;
    rejected, or the buffer is exactly a frame with our cookie (and the zero
    field). *)
Definition accepts (cookie : Z) (v : bool) (buf : list Z) (r : res inner) : Prop :=
  r = Err \/
  exists p rest, r = Ok p /\ inner_ok p /\
    buf = inner_frame cookie p rest /\ (v = true -> exists pad, rest = pad ++ zeros 20).

Lemma parse_inner_cases cookie v buf :
  bytes_ok buf -> accepts cookie v buf (parse_inner cookie v buf (len buf)).
Proof.
  intros Hb. unfold parse_inner, RUDP_PACKET_IV_SIZE_V1.
  apply parse_field; [done|lia|done|by left|]. intros a b1 -> Ha Hab Hb1.
  rewrite (dr_app_exact 4) by lia. rewrite len_app, Ha, Z.add_simpl_l.
  destruct (r32 a =? cookie) eqn:Ec; cbn [negb fail_if]; [rewrite bind_ok|by left].
  apply parse_field; [done|lia|done|by left|]. intros mt b2 -> Hmt Hmtb Hb2.
  rewrite (dr_app_exact 8) by lia. rewrite len_app, Hmt, Z.add_simpl_l.
  apply parse_field; [done|lia|done|by left|]. intros yt b3 -> Hyt Hytb Hb3.
  rewrite (dr_app_exact 8) by lia. rewrite len_app, Hyt, Z.add_simpl_l.
  apply parse_field; [done|lia|done|by left|]. intros n b4 -> Hn Hnb Hb4.
  rewrite (dr_app_exact 2) by lia. rewrite len_app, Hn, Z.add_simpl_l.
  apply parse_field; [done|lia|done|by left|]. intros fl b5 -> Hfl Hflb Hb5.
  rewrite (dr_app_exact 1) by lia. rewrite len_app, Hfl, Z.add_simpl_l.
  pose proof (be_dec_bound n Hnb) as Hr. rewrite Hn in Hr. change (256 ^ 2) with 65536 in Hr.
  rewrite r16_dec' by done.
  apply parse_field; [done|lia|done|by left|]. intros d b6 -> Hd Hdb Hb6.
  rewrite (dr_app_exact (be_dec n)) by lia. rewrite len_app, Hd, Z.add_simpl_l.
  destruct fl as [|f [|]]; [slia| |slia].
  assert (Hok : inner_ok (Inner (r64 mt) (r64 yt) (at0 [f] 0) d)).
  { unfold inner_ok; cbn [in_my_tick in_your_tick in_flag in_data].
    rewrite !r64_dec' by done. pose proof (be_dec_bound mt Hmtb) as H1.
    pose proof (be_dec_bound yt Hytb) as H2. rewrite Hmt in H1. rewrite Hyt in H2.
    change (256 ^ 8) with (2 ^ 64) in *. split_and!; try done; try lia. by inversion Hflb. }
  assert (Hfr : a ++ mt ++ yt ++ n ++ [f] ++ d ++ b6 =
    inner_frame cookie (Inner (r64 mt) (r64 yt) (at0 [f] 0) d) b6).
  { unfold inner_frame; cbn [in_my_tick in_your_tick in_flag in_data].
    apply Z.eqb_eq in Ec. rewrite r32_dec' in Ec by done. rewrite !r64_dec' by done. rewrite Hd.
    change (at0 [f] 0) with f.
    by rewrite <- (be_enc_read 4 a _ Hab Ha Ec), <- (be_enc_read 8 mt _ Hmtb Hmt eq_refl),
      <- (be_enc_read 8 yt _ Hytb Hyt eq_refl), <- (be_enc_read 2 n _ Hnb Hn eq_refl). }
  rewrite Hfr. destruct v.
  - destruct (verify_step (len b6) b6 eq_refl) as [E|[E Hp]]; [left; by rewrite E|].
    right. eexists _, b6. split; [by rewrite E|]. by split_and!.
  - right. eexists _, b6. split; [done|]. by split_and!.
Qed.

(** A frame with our cookie is accepted, and its fields are read back. *)
Lemma parse_inner_frame cookie v p rest :
  0 <= cookie < 2 ^ 32 -> inner_ok p -> (v = true -> exists pad, rest = pad ++ zeros 20) ->
  parse_inner cookie v (inner_frame cookie p rest) (len (inner_frame cookie p rest)) = Ok p.
Proof.
  intros Hc (Hmt & Hyt & Hf & Hd & Hl) Hv. destruct p as [mt yt f d]; cbn in Hmt, Hyt, Hf, Hd, Hl.
  unfold parse_inner, RUDP_PACKET_IV_SIZE_V1, inner_frame; cbn [in_my_tick in_your_tick in_flag in_data].
  assert (Hfield : forall {B} n a b (k : list Z -> res B), n = len a ->
    (fail_if (len (a ++ b) <? n) ≫= (fun _ => fetch 0 n (a ++ b) ≫= k)) = k a).
  { intros B n a b k ->. rewrite check_ok by slia. rewrite (fetch_at [] a b 0 (len a) eq_refl eq_refl : fetch 0 (len a) (a ++ b) = Ok a). done. }
  rewrite Hfield by slia. rewrite (dr_app_exact 4), (len_app (be_enc 4 cookie)), len_be_enc by slia.
  change (Z.of_nat 4) with 4. rewrite Z.add_simpl_l.
  rewrite r32_enc, Z.eqb_refl by done. rewrite check_ok by done.
  rewrite Hfield by slia. rewrite (dr_app_exact 8), (len_app (be_enc 8 mt)), len_be_enc by slia.
  change (Z.of_nat 8) with 8. rewrite Z.add_simpl_l.
  rewrite Hfield by slia. rewrite (dr_app_exact 8), (len_app (be_enc 8 yt)), len_be_enc by slia.
  change (Z.of_nat 8) with 8. rewrite Z.add_simpl_l.
  rewrite Hfield by slia. rewrite (dr_app_exact 2), (len_app (be_enc 2 (len d))), len_be_enc by slia.
  change (Z.of_nat 2) with 2. rewrite Z.add_simpl_l.
  rewrite Hfield by slia. rewrite (dr_app_exact 1), (len_app [f]) by slia.
  change (len [f]) with 1. rewrite Z.add_simpl_l.
  rewrite r16_enc by (pose proof (len_nonneg d); lia). rewrite Hfield by done.
  rewrite (dr_app_exact (len d)), (len_app d), Z.add_simpl_l by done.
  rewrite !r64_enc by done. change (at0 [f] 0) with f.
  destruct v; [|done]. destruct (Hv eq_refl) as [pad ->].
  rewrite check_ok by slia. rewrite <- (app_nil_r (zeros 20)) at 2.
  rewrite (fetch_at pad (zeros 20) []) by slia. rewrite bind_ok.
  by rewrite (proj2 (verify_zeros (zeros 20))).
Qed.

(** ** The receive queue *)

Lemma queue_get_ok i q : 0 <= i < len q -> exists b, queue_get i q = Ok b /\ q !! Z.to_nat i = Some b.
Proof.
  intros Hi. unfold queue_get. destruct (i <? 0) eqn:E; [lia|].
  destruct (lookup_lt_is_Some_2 q (Z.to_nat i)) as [b Hb]; [unfold len in *; lia|].
  exists b. by rewrite Hb.
Qed.

Lemma block_ok_at c i b : queue_ok c -> recv_queue c !! i = Some b -> block_ok b.
Proof. intros (_ & Hf & _) Hb. by apply (Forall_lookup_1 _ _ _ _ Hf Hb). Qed.

(** The copy of a payload into a queue entry. *)
Lemma fill_block b d : block_ok b -> len d <= RUDP_MAX_PAYLOAD_SIZE -> bytes_ok d ->
  exists a, blit d 0 (q_data b) = Ok a /\ block_ok (Block a (len d)) /\ block_bytes (Block a (len d)) = d.
Proof.
  intros (Hl & _ & Hb) Hd Hdb. destruct (split_len (len d) (q_data b)) as (x & y & E & Hx); [slia|].
  rewrite E in *. rewrite (blit_at [] x y d 0 eq_refl Hx : blit d 0 (x ++ y) = Ok (d ++ y)).
  exists (d ++ y). split; [done|]. unfold block_ok, block_bytes; cbn [q_data q_len].
  rewrite tk_app_exact by done. split; [|done]. split; [slia|]. split; [slia|].
  apply bytes_ok_app in Hb as [_ Hb]. by apply bytes_ok_app_2.
Qed.

Lemma queue_block_room d c :
  ctx_ok c -> bytes_ok d -> len d <= RUDP_MAX_PAYLOAD_SIZE -> recv_queue_count c < RUDP_RECV_QUEUE_SIZE ->
  exists c', queue_block d c = Ok c' /\ ctx_ok c' /\ queue c' = queue c ++ [d].
Proof.
  intros Hc Hdb Hd Hroom. pose proof Hc as [Hq Hrest]. pose proof Hq as (Hl & Hf & Hh & Hn & Ht).
  pose proof (Z.mod_pos_bound (recv_queue_head c + recv_queue_count c) RUDP_RECV_QUEUE_SIZE ltac:(done)).
  unfold queue_block. destruct (_ && _) eqn:E; [|lia].
  destruct (queue_get_ok (recv_queue_tail c) (recv_queue c)) as (b & -> & Hb); [lia|].
  rewrite bind_ok. destruct (fill_block b d) as (a & -> & Hok & Hbytes); [by eapply block_ok_at|done|done|].
  rewrite bind_ok. eexists. split; [reflexivity|]. split.
  - split; [|exact Hrest]. unfold queue_ok; cbn. rewrite len_insert. split_and!; try done; try lia.
    + by apply Forall_insert.
    + rewrite Ht, Zplus_mod_idemp_l. f_equal. lia.
  - unfold queue; cbn. rewrite Ht, <- Hl, ring_push by lia. rewrite map_app. cbn [map]. by rewrite Hbytes.
Qed.

(** Full, or a block too large: the queue is unchanged. *)
Lemma queue_block_drop d c :
  ctx_ok c -> RUDP_MAX_PAYLOAD_SIZE < len d \/ RUDP_RECV_QUEUE_SIZE <= recv_queue_count c ->
  exists c', queue_block d c = Ok c' /\ ctx_ok c' /\ queue c' = queue c /\
    recent_overflows c' = (if len d <=? RUDP_MAX_PAYLOAD_SIZE then u32 (recent_overflows c + 1)
                           else recent_overflows c).
Proof.
  intros Hc Hd. unfold queue_block. destruct (_ && _) eqn:E; [lia|].
  destruct (len d <=? _) eqn:E'; eexists; (split; [reflexivity|]); [|done].
  split; [by apply on_loss_ok|]. unfold rudp_cwin_on_loss. by case_match.
Qed.

Lemma queue_block_refcount d c c' : queue_block d c = Ok c' -> refcount c' = refcount c.
Proof.
  unfold queue_block. destruct (_ && _).
  - destruct (queue_get _ _) as [| |e]; [done|done|]. rewrite bind_ok.
    destruct (blit _ _ _) as [| |a]; [done|done|]. by intros [= <-].
  - destruct (_ <=? _); intros [= <-]; [|done]. unfold rudp_cwin_on_loss. by case_match.
Qed.

Lemma queue_block_ok d c : ctx_ok c -> bytes_ok d -> exists c', queue_block d c = Ok c' /\ ctx_ok c'.
Proof.
  intros Hc Hb. destruct (decide (len d <= RUDP_MAX_PAYLOAD_SIZE /\ recv_queue_count c < RUDP_RECV_QUEUE_SIZE))
    as [[? ?]|?].
  - edestruct queue_block_room as (c' & ? & ? & _); eauto.
  - edestruct (queue_block_drop d c) as (c' & ? & ? & _); eauto. lia.
Qed.

(** [recv_pop] takes the oldest block, when it fits. *)
Lemma recv_pop_empty max c : recv_queue_count c = 0 -> recv_pop max c = Ok (0, [], c).
Proof. intros E. unfold recv_pop. by rewrite E. Qed.

Lemma recv_pop_block max c :
  ctx_ok c -> 0 < recv_queue_count c ->
  exists d rest, queue c = d :: rest /\ len d <= RUDP_MAX_PAYLOAD_SIZE /\ bytes_ok d /\
    if len d >? max then recv_pop max c = Ok (-1, [], c)
    else exists c', recv_pop max c = Ok (len d, d, c') /\ ctx_ok c' /\ queue c' = rest.
Proof.
  intros Hc Hpos. pose proof Hc as [Hq Hrest]. pose proof Hq as (Hl & Hf & Hh & Hn & Ht).
  destruct (ring_pop (recv_queue_head c) (recv_queue_count c) (recv_queue c)) as (b & Hb & Hv); [lia..|].
  pose proof (block_ok_at c _ b Hq Hb) as (Hbl & Hbn & Hbb).
  assert (Hlen : len (block_bytes b) = q_len b) by (unfold block_bytes; slia).
  exists (block_bytes b), (map block_bytes
    (ring_view ((recv_queue_head c + 1) mod len (recv_queue c)) (recv_queue_count c - 1) (recv_queue c))).
  split; [unfold queue; by rewrite Hv|]. rewrite Hlen. split; [lia|]. split; [unfold block_bytes; auto with bytes|].
  unfold recv_pop. destruct (_ <=? 0) eqn:E0; [lia|].
  unfold queue_get. destruct (_ <? 0) eqn:E1; [lia|]. rewrite Hb, bind_ok.
  destruct (q_len b >? max) eqn:E; [done|].
  unfold fetch. destruct (_ && _) eqn:E2; [|lia]. rewrite bind_ok.
  eexists. split; [unfold slice; by rewrite dr_0 by done|]. split.
  - split; [|exact Hrest]. unfold queue_ok; cbn.
    pose proof (Z.mod_pos_bound (recv_queue_head c + 1) RUDP_RECV_QUEUE_SIZE ltac:(done)).
    split_and!; try done; try lia. rewrite Zplus_mod_idemp_l, Ht. f_equal. lia.
  - unfold queue; cbn. by rewrite Hl.
Qed.

(** ** Received packets *)

Lemma note_gap_ok p c : ctx_ok c -> ctx_ok (note_gap p c).
Proof.
  intros H. unfold note_gap. cbv zeta.
  assert (H' : ctx_ok (if negb (last_peer_tick_seen c =? 0) &&
      (in_my_tick p >? u64 (last_peer_tick_seen c + RUDP_PEER_TICK_LOSS_GAP))
    then rudp_cwin_on_loss (c <| peer_tick_gap_events := u64 (peer_tick_gap_events c + 1) |>) else c));
    [|exact H'].
  case_match; [|done]. by apply on_loss_ok.
Qed.

Lemma note_timing_kernel c : kernel (note_timing c) = kernel c /\ cwin_bytes (note_timing c) = cwin_bytes c.
Proof. unfold note_timing. cbv zeta. destruct (_ && _); [|done]. by destruct (_ =? 0). Qed.

Lemma note_packet_ok p a n c : ctx_ok c -> ctx_ok (note_packet p a n c).
Proof.
  intros H. unfold note_packet. assert (H' : ctx_ok (note_gap p (note_ticks p c))) by (by apply note_gap_ok).
  revert H'. generalize (note_gap p (note_ticks p c)). intros c' H'.
  destruct (note_timing_kernel (note_peer a n c')) as [E Ew].
  apply (ctx_ok_same c'); [done|exact E|]. rewrite Ew. exact (ctx_ok_cwin c' H').
Qed.

Lemma queue_kernel c c' : kernel c' = kernel c -> queue c' = queue c.
Proof. unfold kernel, queue. intros E. by injection E as -> -> -> _ _ _ _ _ _ _ _ _ _. Qed.
Lemma kernel_refcount c c' : kernel c' = kernel c -> refcount c' = refcount c.
Proof. unfold kernel. intros E. by injection E. Qed.

Lemma note_gap_kernel p c : kernel (note_gap p c) = kernel c.
Proof.
  unfold note_gap. cbv zeta. destruct (_ && _); [|done].
  exact (on_loss_kernel (c <| peer_tick_gap_events := u64 (peer_tick_gap_events c + 1) |>)).
Qed.

Lemma note_packet_kernel p a n c : kernel (note_packet p a n c) = kernel c.
Proof.
  unfold note_packet. pose proof (note_gap_kernel p (note_ticks p c)) as E0.
  revert E0. generalize (note_gap p (note_ticks p c)). intros c' E0.
  destruct (note_timing_kernel (note_peer a n c')) as [E _]. exact (eq_trans E E0).
Qed.

Lemma note_packet_queue p a n c : queue (note_packet p a n c) = queue c.
Proof. apply queue_kernel, note_packet_kernel. Qed.

(** What the bookkeeping writes, step by step. *)
Lemma note_timing_fields c :
  peer_addr (note_timing c) = peer_addr c /\ last_peer_tick_seen (note_timing c) = last_peer_tick_seen c /\
  last_recv_your_tick (note_timing c) = last_recv_your_tick c /\ udp_rx_packets (note_timing c) = udp_rx_packets c.
Proof. unfold note_timing. cbv zeta. destruct (_ && _); [|done]. by destruct (_ =? 0). Qed.

Lemma on_loss_fields c :
  last_recv_your_tick (rudp_cwin_on_loss c) = last_recv_your_tick c /\
  udp_rx_packets (rudp_cwin_on_loss c) = udp_rx_packets c.
Proof. unfold rudp_cwin_on_loss. cbv zeta. by destruct (_ <? _). Qed.

Lemma note_gap_fields p c :
  last_peer_tick_seen (note_gap p c) = in_my_tick p /\
  last_recv_your_tick (note_gap p c) = last_recv_your_tick c /\
  udp_rx_packets (note_gap p c) = u64 (udp_rx_packets c + 1).
Proof.
  unfold note_gap. cbv zeta. destruct (_ && _); [|done].
  destruct (on_loss_fields (c <| peer_tick_gap_events := u64 (peer_tick_gap_events c + 1) |>)) as [E1 E2].
  revert E1 E2. generalize (rudp_cwin_on_loss (c <| peer_tick_gap_events := u64 (peer_tick_gap_events c + 1) |>)).
  intros c' E1 E2. split; [done|]. split; [exact E1|]. cbn. f_equal. f_equal. exact E2.
Qed.

Lemma note_ticks_fields p c :
  last_recv_your_tick (note_ticks p c) = Z.max (in_my_tick p) (last_recv_your_tick c) /\
  udp_rx_packets (note_ticks p c) = udp_rx_packets c.
Proof.
  split; [|done]. transitivity (if in_my_tick p >? last_recv_your_tick c then in_my_tick p else last_recv_your_tick c);
    [done|]. destruct (_ >? _) eqn:?; lia.
Qed.

Lemma note_packet_fields p a n c :
  peer_addr (note_packet p a n c) = a /\ last_peer_tick_seen (note_packet p a n c) = in_my_tick p /\
  last_recv_your_tick (note_packet p a n c) = Z.max (in_my_tick p) (last_recv_your_tick c) /\
  udp_rx_packets (note_packet p a n c) = u64 (udp_rx_packets c + 1).
Proof.
  unfold note_packet. destruct (note_ticks_fields p c) as [<- <-].
  destruct (note_gap_fields p (note_ticks p c)) as (<- & <- & <-).
  generalize (note_gap p (note_ticks p c)). clear. intros c.
  destruct (note_timing_fields (note_peer a n c)) as (-> & -> & -> & ->). done.
Qed.

Lemma queue_block_fields d c c' : queue_block d c = Ok c' ->
  peer_addr c' = peer_addr c /\ last_peer_tick_seen c' = last_peer_tick_seen c /\
  last_recv_your_tick c' = last_recv_your_tick c /\ udp_rx_packets c' = udp_rx_packets c.
Proof.
  unfold queue_block. destruct (_ && _).
  - destruct (queue_get _ _) as [| |e]; [done|done|]. rewrite bind_ok.
    destruct (blit _ _ _) as [| |a]; [done|done|]. by intros [= <-].
  - destruct (_ <=? _); intros [= <-]; [|done]. unfold rudp_cwin_on_loss. by case_match.
Qed.

Section receive.
Context (zlib_uncompress : list Z -> Z -> option (list Z)).
Hypothesis uncompress_bytes : forall l cap d, bytes_ok l -> zlib_uncompress l cap = Some d -> bytes_ok d.

Lemma payload_bytes p d : bytes_ok (in_data p) -> payload_of zlib_uncompress p = Some d -> bytes_ok d.
Proof.
  intros Hb. unfold payload_of, uncompress_data. destruct (negb _); [|by intros [= <-]].
  destruct (_ =? 0); [intros [= <-]; constructor|]. by apply uncompress_bytes.
Qed.

(** What a packet from the network can do to a well-formed context: no access
    outside the packet or the queue, and the context stays well formed. *)
Lemma process_inner_ok buf from n v c :
  ctx_ok c -> bytes_ok buf ->
  exists r c', rudp_process_inner zlib_uncompress buf (len buf) from n v c = Ok (r, c') /\ ctx_ok c' /\
  refcount c' = refcount c.
Proof.
  intros Hc Hb. unfold rudp_process_inner.
  destruct (parse_inner_cases (my_cookie c) v buf Hb) as [->|(p & rest & -> & Hp & _ & _)]; [eauto|].
  destruct (outside_window _ _); [eauto|]. cbv zeta.
  pose proof (note_packet_ok p from n c Hc) as Hc'.
  pose proof (kernel_refcount _ _ (note_packet_kernel p from n c)) as Er.
  destruct (_ >? 0); [|eauto]. destruct (payload_of _ p) as [d|] eqn:Ep; [|eauto].
  apply payload_bytes in Ep; [|by apply Hp].
  destruct (queue_block_ok d _ Hc' Ep) as (c' & E & Hok). rewrite E.
  exists 0, c'. split; [done|]. split; [done|]. rewrite <- Er. by apply (queue_block_refcount d).
Qed.
End receive.

(** ** Packets sent *)

(** What the code relies on in ChaCha20-Poly1305 (RFC 8439): the ciphertext
    has the length of the plaintext, the tag 16 bytes, and opening under the
    same key and nonce gives the plaintext back. *)
Definition aead_ok (seal : list Z -> list Z -> list Z -> list Z * list Z)
    (open : list Z -> list Z -> list Z -> list Z -> option (list Z)) : Prop :=
  (forall key iv m, bytes_ok m ->
     len (seal key iv m).1 = len m /\ len (seal key iv m).2 = 16 /\
     bytes_ok (seal key iv m).1 /\ bytes_ok (seal key iv m).2 /\
     open key iv (seal key iv m).1 (seal key iv m).2 = Some m) /\
  (forall key iv c t m, bytes_ok c -> open key iv c t = Some m -> len m = len c /\ bytes_ok m).

(** What the code relies on in zlib: no more than the capacity is written, a
    compressed stream is never empty (it has a header), and decompressing into a buffer that is large enough gives the data back. *)
Definition zlib_ok (comp uncomp : list Z -> Z -> option (list Z)) : Prop :=
  (forall l cap d, bytes_ok l -> comp l cap = Some d -> 0 < len d <= cap /\ bytes_ok d) /\
  (forall l cap d, comp l cap = Some d -> forall cap', len l <= cap' -> uncomp d cap' = Some l) /\
  (forall l cap d, bytes_ok l -> uncomp l cap = Some d -> bytes_ok d).

Lemma put_ok bs pkt : len pkt + len bs <= RUDP_TMP_BUF_SIZE -> put bs pkt = Ok (pkt ++ bs).
Proof. intros. unfold put. destruct (_ <=? _) eqn:E; [done|lia]. Qed.

(** The fields [send_head] writes, as a frame. *)
Definition sent_inner (flag : Z) (data : list Z) (c : rudp_context) : inner :=
  Inner (if now c =? 0 then 1 else now c) (last_recv_your_tick c) flag data.

Lemma send_head_eq iv data flag c :
  12 <= len iv <= 20 -> len data < 2 ^ 31 ->
  send_head iv data flag c =
    if (0 <? len data) && (len iv + 23 + len data >? 2020) then Err
    else Ok (iv ++ inner_frame (your_cookie c) (sent_inner flag data c) []).
Proof.
  intros Hiv Hd. unfold send_head, inner_frame, sent_inner; cbn [in_my_tick in_your_tick in_flag in_data].
  unfold RUDP_TMP_BUF_SIZE, RUDP_PACKET_IV_SIZE_V1. pose proof (len_nonneg data) as Hd0.
  rewrite w16_enc, w32_enc, !w64_enc. unfold u16.
  rewrite (be_enc_mod 2 (len data) : be_enc 2 (len data mod 2 ^ 16) = _).
  rewrite !put_ok, !bind_ok by (unfold RUDP_TMP_BUF_SIZE; slia).
  rewrite (put_ok (be_enc 4 _)), bind_ok by (unfold RUDP_TMP_BUF_SIZE; slia).
  rewrite (put_ok (be_enc 8 _)), bind_ok by (unfold RUDP_TMP_BUF_SIZE; slia).
  rewrite (put_ok (be_enc 8 _)), bind_ok by (unfold RUDP_TMP_BUF_SIZE; slia).
  rewrite (put_ok (be_enc 2 _)), bind_ok by (unfold RUDP_TMP_BUF_SIZE; slia).
  rewrite (put_ok [_]), bind_ok by (unfold RUDP_TMP_BUF_SIZE; slia).
  set (pkt := (((((([] ++ iv) ++ _) ++ _) ++ _) ++ _) ++ [flag])).
  assert (Hl : len pkt = len iv + 23) by (subst pkt; slia).
  assert (Hp : pkt ++ data = iv ++ be_enc 4 (your_cookie c) ++ be_enc 8 (if now c =? 0 then 1 else now c) ++
    be_enc 8 (last_recv_your_tick c) ++ be_enc 2 (len data) ++ [flag] ++ data ++ []).
  { subst pkt. rewrite app_nil_r. cbn [app]. by rewrite <- !app_assoc. }
  rewrite <- Hp. clearbody pkt. rewrite Hl. unfold u32. rewrite Z.gtb_ltb.
  destruct (0 <? len data) eqn:E; cbn [andb].
  - rewrite Z.mod_small by lia. destruct (_ >? 2020) eqn:E'.
    + replace (_ >? _) with true by lia. done.
    + rewrite check_ok by lia. apply put_ok. unfold RUDP_TMP_BUF_SIZE. lia.
  - by rewrite (len_0_nil data), app_nil_r by lia.
Qed.

Lemma calc_key_eq sha1 key iv rest :
  len key = 20 -> len iv = 20 -> calc_key sha1 key (iv ++ rest) = Ok (sha1 (key ++ iv)).
Proof.
  intros Hk Hi. unfold calc_key, RUDP_COMMON_KEY_SIZE_V1, RUDP_PACKET_IV_SIZE_V1.
  rewrite <- (app_nil_r key) at 1.
  rewrite (fetch_at [] key [] 0 20 eq_refl (eq_sym Hk) : fetch 0 20 (key ++ []) = Ok key), bind_ok.
  rewrite (fetch_at [] iv rest 0 20 eq_refl (eq_sym Hi) : fetch 0 20 (iv ++ rest) = Ok iv). done.
Qed.

Lemma fetch_end n l : 0 <= n <= len l -> exists d, fetch (len l - n) n l = Ok d /\ len d = n.
Proof.
  intros Hn. exists (slice (len l - n) n l). unfold fetch. destruct (_ && _) eqn:E; [|lia].
  split; [done|slia].
Qed.

(** The version 1 packet with a given IV, inner packet and padding. *)
Definition packet_v1 (sha1 : list Z -> list Z) (key iv body : list Z) (pad : Z) : list Z :=
  iv ++ Rc4.rc4_crypt (sha1 (key ++ iv)) (body ++ zeros pad ++ zeros 20).

Lemma seal_v1_eq sha1 body pad c :
  len (my_key c) = 20 -> len (next_iv c) = 20 -> 0 <= pad -> 40 + len body + pad <= 2048 ->
  exists next, len next = 20 /\
    seal_v1 sha1 (next_iv c ++ body) pad c = Ok (packet_v1 sha1 (my_key c) (next_iv c) body pad, next).
Proof.
  intros Hk Hi Hp Hl. unfold seal_v1, packet_v1, RUDP_PACKET_IV_SIZE_V1.
  rewrite put_ok, bind_ok by (unfold RUDP_TMP_BUF_SIZE; slia).
  rewrite put_ok, bind_ok by (unfold RUDP_TMP_BUF_SIZE; slia).
  pose proof (calc_key_eq sha1 (my_key c) (next_iv c) [] Hk Hi) as E. rewrite app_nil_r in E.
  rewrite E, bind_ok.
  rewrite <- !app_assoc. set (m := body ++ zeros pad ++ zeros 20).
  rewrite (fetch_at [] (next_iv c) m 0 20 eq_refl (eq_sym Hi) : fetch 0 20 (next_iv c ++ m) = Ok (next_iv c)), bind_ok.
  rewrite dr_app_exact by done. set (e := Rc4.rc4_crypt _ m).
  destruct (fetch_end 20 (next_iv c ++ e)) as (d & -> & Hd); [slia|]. by exists d.
Qed.

(** The version 2 packet. *)
Definition packet_v2 (seal : list Z -> list Z -> list Z -> list Z * list Z) (key iv body : list Z) (pad : Z) : list Z :=
  let e := seal key iv (body ++ zeros pad) in iv ++ e.1 ++ e.2.

Lemma seal_v2_eq seal open key body current pad c :
  aead_ok seal open -> bytes_ok body -> evp_encrypt_ctx c = Some key ->
  len (next_iv_v2 c) = 12 -> 0 <= pad -> 28 + len body + pad <= 2048 -> 12 <= len body ->
  current + pad <= 2048 ->
  exists next, len next = 12 /\
    seal_v2 seal (next_iv_v2 c ++ body) current pad c =
      Ok (packet_v2 seal key (next_iv_v2 c) body pad, next).
Proof.
  intros [Hs _] Hb Hk Hi Hp Hl Hl' Hc. unfold seal_v2, packet_v2, RUDP_PACKET_IV_SIZE_V2.
  rewrite put_ok, bind_ok by (unfold RUDP_TMP_BUF_SIZE; slia).
  rewrite check_ok by (unfold RUDP_TMP_BUF_SIZE; lia). rewrite Hk, <- !app_assoc.
  set (m := body ++ zeros pad).
  rewrite (fetch_at [] (next_iv_v2 c) m 0 12 eq_refl (eq_sym Hi) : fetch 0 12 (next_iv_v2 c ++ m) = Ok (next_iv_v2 c)), bind_ok.
  rewrite dr_app_exact by done.
  assert (Hm : bytes_ok m) by (subst m; auto with bytes).
  destruct (Hs key (next_iv_v2 c) m Hm) as (H1 & H2 & _).
  destruct (seal key (next_iv_v2 c) m) as [e t]; cbn [fst snd] in *.
  rewrite put_ok, bind_ok by (unfold RUDP_TMP_BUF_SIZE; subst m; slia).
  destruct (split_len 12 e) as (e1 & e2 & -> & He); [subst m; slia|].
  rewrite <- !app_assoc, fetch_at, bind_ok by done. by exists e1.
Qed.

(** *** The send path on the world *)

Lemma get_c_ok w : a_freed w = false -> get_c w = Ok (a_ctx w, w).
Proof. unfold get_c. by intros ->. Qed.
Lemma modify_c_ok f w : a_freed w = false -> modify_c f w = Ok (tt, w <| a_ctx := f (a_ctx w) |>).
Proof. unfold modify_c. by intros ->. Qed.

(** Runs the next operation of a sequence when it only touches a context
    that is alive. *)
Ltac run :=
  erewrite St_step by first
    [ apply modify_c_ok; eassumption | apply get_c_ok; eassumption
    | apply modify_c_ok; match goal with H : a_freed _ = false |- _ => exact H end
    | apply get_c_ok; match goal with H : a_freed _ = false |- _ => exact H end
    | reflexivity ].

Section sending.
Context (sha1 : list Z -> list Z)
        (aead_seal : list Z -> list Z -> list Z -> list Z * list Z)
        (aead_open : list Z -> list Z -> list Z -> list Z -> option (list Z))
        (zlib_compress zlib_uncompress : list Z -> Z -> option (list Z))
        (tick : nat -> Z) (rand : nat -> Z -> bool * list Z) (sys_sendto : nat -> bool).
Context (Hrand : rand_ok rand) (Haead : aead_ok aead_seal aead_open)
        (Hzlib : zlib_ok zlib_compress zlib_uncompress).

(** The world without the positions of the oracles, the context and the
    datagrams sent. *)
Definition same_io (w w' : aworld) : Prop :=
  a_freed w' = a_freed w /\ a_in w' = a_in w /\ a_closed w' = a_closed w.

Lemma draw_pad_ok current w :
  a_freed w = false -> ctx_ok (a_ctx w) -> 0 <= current ->
  exists pad w', draw_pad rand current w = Ok (pad, w') /\ same_io w w' /\
  a_ctx w' = a_ctx w /\ a_out w' = a_out w /\ 0 <= pad <= 32 /\ (pad = 0 \/ current + pad <= 1472).
Proof.
  intros Hf (_ & _ & _ & Hmax & _) Hcur. unfold draw_pad, mbind, St_bind, get_c. rewrite Hf.
  unfold pad_room, RUDP_MAX_PADDING_SIZE, RUDP_MAX_UDP_PACKET_IPV4, RUDP_MAX_UDP_PACKET_IPV6 in *.
  destruct (current <? _) eqn:E; [|eexists 0, w; split; [done|]; split_and!; try done; try lia].
  unfold rudp_rand_u32, mbind, St_bind, generate_random_bytes, mret, St_ret.
  set (r := if negb _ then _ else _). cbv beta iota zeta.
  set (room := if _ >? 32 then _ else _).
  assert (Hroom : 1 <= room <= 32 /\ current + room <= 1472) by (subst room; destruct (_ >? 32) eqn:?; lia).
  eexists _, _. split; [reflexivity|]. cbn [same_io a_freed a_in a_closed a_ctx a_out].
  pose proof (Z.mod_pos_bound r (u32 (room + 1))) as Hm. unfold u32 in *.
  rewrite (Z.mod_small (room + 1)) in * by lia. split_and!; try done; lia.
Qed.

(** [pkt] carries [body] in the clear format of the version in use, within
    the temporary buffer. *)
Definition sealed (c : rudp_context) (body pkt : list Z) : Prop :=
  exists pad, 0 <= pad <= 32 /\ len pkt <= 2040 /\
  if version c =? 1 then pkt = packet_v1 sha1 (my_key c) (next_iv c) body pad
  else exists key, evp_encrypt_ctx c = Some key /\ pkt = packet_v2 aead_seal key (next_iv_v2 c) body pad.

(** The context after a send: only the IVs differ. *)
Definition chained (c c' : rudp_context) : Prop :=
  exists iv1 iv2, len iv1 = 20 /\ len iv2 = 12 /\ c' = c <| next_iv := iv1 |> <| next_iv_v2 := iv2 |>.

Lemma chained_ok c c' : ctx_ok c -> chained c c' -> ctx_ok c'.
Proof.
  intros (Hq & (Hm & Hy & _ & _ & Hm2 & Hck & Hp) & Hr) (i1 & i2 & H1 & H2 & ->). split; [exact Hq|]. split; [|exact Hr].
  unfold keys_ok. keys_reduce. tauto.
Qed.

Definition send_iv (c : rudp_context) : list Z := if version c =? 1 then next_iv c else next_iv_v2 c.
Definition max_data (c : rudp_context) : Z := if version c =? 1 then 1977 else 1985.

Lemma send_seal_ok body data w :
  a_freed w = false -> ctx_ok (a_ctx w) -> bytes_ok body -> len body = 23 + len data ->
  len data <= max_data (a_ctx w) ->
  exists pkt w', send_seal sha1 aead_seal rand (send_iv (a_ctx w) ++ body) data w = Ok (Some pkt, w') /\
  same_io w w' /\ a_out w' = a_out w /\ chained (a_ctx w) (a_ctx w') /\ sealed (a_ctx w) body pkt.
Proof.
  intros Hf Hc Hb Hl Hd. pose proof Hc as (_ & (Hmk & _ & Hi1 & Hi2 & _) & Hv & _).
  unfold send_seal, send_iv, max_data, sealed, mbind, St_bind, get_c in *. rewrite Hf.
  pose proof (len_nonneg data) as Hd0. unfold u32.
  destruct (version (a_ctx w) =? 1) eqn:Ev.
  - destruct (draw_pad_ok ((63 + len data) mod 2 ^ 32) w) as (pad & w1 & -> & (S1 & S2 & S3) & Ec & Eo & Hp & Hp');
      [done|done|apply Z.mod_pos_bound; lia|]. rewrite Z.mod_small in Hp' by lia.
  rewrite S1, Hf, Ec. destruct (seal_v1_eq sha1 body pad (a_ctx w)) as (next & Hn & E); [done|done|lia|lia|].
  unfold lift. rewrite E. unfold modify_c. rewrite S1, Hf. cbn [fst snd].
  eexists _, _. split; [reflexivity|]. split; [by split_and!|]. split; [done|]. split.
  + exists next, (next_iv_v2 (a_ctx w)). cbn. rewrite Ec. split_and!; try done.
  + exists pad. split; [lia|]. split; [|done]. unfold packet_v1. slia.
  - destruct Hv as [Hv|(Hv & [key Hk] & _)]; [lia|].
  destruct (draw_pad_ok ((51 + len data) mod 2 ^ 32) w) as (pad & w1 & -> & (S1 & S2 & S3) & Ec & Eo & Hp & Hp');
      [done|done|apply Z.mod_pos_bound; lia|]. rewrite Z.mod_small in * by lia.
  rewrite S1, Hf, Ec.
  destruct (seal_v2_eq aead_seal aead_open key body (51 + len data) pad (a_ctx w)) as (next & Hn & E);
      [done|done|done|done|lia..|].
  unfold try. rewrite E. unfold modify_c. rewrite S1, Hf. cbn [fst snd].
  eexists _, _. split; [reflexivity|]. split; [by split_and!|]. split; [done|]. split.
  + exists (next_iv (a_ctx w)), next. cbn. rewrite Ec. split_and!; try done.
  + exists pad. split; [lia|]. split; [|by exists key]. unfold packet_v2.
      destruct (proj1 Haead key (next_iv_v2 (a_ctx w)) (body ++ zeros pad)) as (H1 & H2 & _); [auto with bytes|].
      slia.
Qed.

Definition alive (n : Z) (w : aworld) : Prop :=
  a_freed w = false /\ ctx_ok (a_ctx w) /\ refcount (a_ctx w) = n.

Lemma byte_ok_flag f : byte_ok f -> byte_ok (Z.lor f RUDP_FLAG_COMPRESSED).
Proof.
  intros H. assert (HF : Forall (fun x => byte_ok (Z.lor x RUDP_FLAG_COMPRESSED)) (seqZ 0 256))
  by (apply (bool_decide_unpack _); vm_compute; done).
  rewrite Forall_forall in HF. apply HF, elem_of_seqZ. unfold byte_ok in H. lia.
Qed.

Lemma send_form_ok data flag c d f :
  bytes_ok data -> byte_ok flag -> len data < 2 ^ 31 ->
  send_form zlib_compress data flag c = (d, f) -> bytes_ok d /\ byte_ok f /\ len d < 2 ^ 31.
Proof.
  intros Hb Hf Hl. unfold send_form, compress_data. destruct (_ && _) eqn:E; [|by intros [= <- <-]].
  destruct (len data =? 0) eqn:E0; [lia|].
  destruct (zlib_compress data _) as [x|] eqn:Ez; [|by intros [= <- <-]].
  intros [= <- <-]. destruct (proj1 Hzlib _ _ _ Hb Ez). split_and!; [done|by apply byte_ok_flag|].
  unfold RUDP_MAX_PAYLOAD_SIZE in *. lia.
Qed.

Lemma inner_frame_bytes cookie p rest :
  byte_ok (in_flag p) -> bytes_ok (in_data p) -> bytes_ok rest -> bytes_ok (inner_frame cookie p rest).
Proof.
  intros ? ? ?. unfold inner_frame.
  repeat apply bytes_ok_app_2; try apply bytes_ok_be_enc; try done. by constructor.
Qed.

Lemma len_inner_frame cookie p rest : len (inner_frame cookie p rest) = 23 + len (in_data p) + len rest.
Proof. unfold inner_frame. slia. Qed.

(** The context at the moment the packet is built. *)
Definition sending_ctx (w : aworld) : rudp_context := (a_ctx w) <| now := u64 (tick (a_ticks w)) |>.

(** The datagram one call sends: the payload form, its frame and its seal. *)
Definition sent_packet (data : list Z) (flag : Z) (c : rudp_context) (pkt : list Z) : Prop :=
  let '(d, f) := send_form zlib_compress data flag c in
  len d <= max_data c /\ sealed c (inner_frame (your_cookie c) (sent_inner f d c) []) pkt.

Definition send_post (data : list Z) (flag : Z) (w : aworld) (r : Z) (w' : aworld) : Prop :=
  a_in w' = a_in w /\ a_closed w' = a_closed w /\
  (r = -1 /\ a_out w' = a_out w \/
     exists pkt, r = len pkt /\ sent_packet data flag (sending_ctx w) pkt /\
     a_out w' = a_out w ++ [Datagram pkt (peer_addr (a_ctx w)) (peer_addr_len (a_ctx w))]).

Lemma send_out_ok pkt n0 n w :
  alive n w -> 0 <= n0 ->
  exists r w', send_out sys_sendto pkt n0 w = Ok (r, w') /\ alive n w' /\ a_in w' = a_in w /\
  a_closed w' = a_closed w /\
  (r = -1 /\ a_out w' = a_out w \/
     r = len pkt /\ a_out w' = a_out w ++ [Datagram pkt (peer_addr (a_ctx w)) (peer_addr_len (a_ctx w))]).
Proof.
  intros (Hf & Hc & Hn) Hn0. unfold send_out. run. run. destruct (sys_sendto _); cbn [negb].
  - run. unfold when. destruct (n0 >? 0).
  + run. eexists _, _. split; [reflexivity|].
      split; [|split; [done|split; [done|right; done]]]. split; [done|]. split.
      * apply consume_ok; [done|]. by apply refill_ok.
      * cbn. unfold cwin_consume, rudp_cwin_refill. by repeat case_match.
  + eexists _, _. split; [reflexivity|]. split; [done|]. split; [done|]. split; [done|]. by right.
  - eexists _, _. split; [reflexivity|]. split; [done|]. split; [done|]. split; [done|]. by left.
Qed.

Lemma send_nolock_ok data flag n w :
  alive n w -> bytes_ok data -> byte_ok flag -> len data < 2 ^ 31 ->
  exists r w', rudp_send_nolock sha1 aead_seal zlib_compress tick rand sys_sendto data flag w = Ok (r, w') /\
  alive n w' /\ send_post data flag w r w'.
Proof.
  intros (Hf & Hc & Hn) Hb Hfl Hl.
  set (w1 := w <| a_ticks := S (a_ticks w) |> <| a_ctx := sending_ctx w |>).
  assert (Ew : rudp_send_nolock sha1 aead_seal zlib_compress tick rand sys_sendto data flag w =
  (let '(d, f) := send_form zlib_compress data flag (sending_ctx w) in
     (head ← try (send_head (send_iv (sending_ctx w)) d f (sending_ctx w));
      match head with
      | None => mret (-1)
      | Some head =>
          pkt ← send_seal sha1 aead_seal rand head d;
          match pkt with
          | None => mret (-1)
          | Some pkt => send_out sys_sendto pkt (len data)
          end
      end) w1)).
  { unfold rudp_send_nolock. run. run. run.
  unfold sending_ctx. by destruct (send_form _ _ _ _). }
  rewrite Ew. clear Ew. unfold send_post, sent_packet.
  assert (Hc1 : ctx_ok (sending_ctx w)) by exact Hc. pose proof Hc1 as (_ & (_ & _ & Hi1 & Hi2) & Hv & _).
  destruct (send_form _ _ _ _) as [d f] eqn:Es.
  destruct (send_form_ok _ _ _ _ _ Hb Hfl Hl Es) as (Hdb & Hfb & Hdl).
  assert (Hiv : 12 <= len (send_iv (sending_ctx w)) <= 20) by (unfold send_iv; case_match; lia).
  unfold mbind at 1, St_bind at 1, try. rewrite send_head_eq by done.
  destruct (_ && _) eqn:Efit.
  { eexists _, w1. split; [reflexivity|]. split; [done|]. split; [done|]. split; [done|]. by left. }
  destruct (send_seal_ok (inner_frame (your_cookie (sending_ctx w)) (sent_inner f d (sending_ctx w)) []) d w1)
  as (pkt & w2 & E & (S1 & S2 & S3) & So & Hch & Hseal).
  { done. } { exact Hc1. } { by apply inner_frame_bytes; [..|constructor]. }
  { rewrite len_inner_frame. cbn [in_data sent_inner]. slia. }
  { change (a_ctx w1) with (sending_ctx w). revert Efit Hiv. unfold send_iv, max_data.
  pose proof (len_nonneg d). case_match; lia. }
  change (a_ctx w1) with (sending_ctx w) in *. rewrite (St_step _ _ _ _ _ E).
  pose proof (chained_ok _ _ Hc1 Hch) as Hc2.
  assert (Ha2 : alive n w2).
  { split; [by rewrite S1|]. split; [done|]. destruct Hch as (? & ? & _ & _ & ->). exact Hn. }
  destruct (send_out_ok pkt (len data) n w2 Ha2 (len_nonneg _)) as (r & w3 & -> & Ha3 & I3 & C3 & Hr).
  exists r, w3. split; [done|]. split; [done|]. split; [by rewrite I3, S2|]. split; [by rewrite C3, S3|].
  rewrite So in Hr. destruct Hr as [[-> Ho]|[-> Ho]]; [by left|]. right. exists pkt. split; [done|].
  split; [split; [|done]|].
  - revert Efit Hiv. unfold send_iv, max_data. pose proof (len_nonneg d). case_match; lia.
  - rewrite Ho. by destruct Hch as (? & ? & _ & _ & ->).
Qed.

(** ** The entry points *)

(** A context that is alive with [n] references, and bytes in the socket. *)
Definition good (n : Z) (w : aworld) : Prop :=
  alive n w /\ Forall (fun d => bytes_ok (d_bytes d)) (a_in w).

(** [m] ends without undefined behaviour or error and gives the references
    back. *)
Definition total {A} (m : St aworld A) : Prop :=
  forall n, 1 <= n -> triple (good n) m (fun _ => good n).

Lemma total_ret {A} (a : A) : total (mret a).
Proof. intros n Hn. by apply triple_ret. Qed.
Lemma total_bind {A B} (m : St aworld A) (f : A -> St aworld B) :
  total m -> (forall a, total (f a)) -> total (m ≫= f).
Proof. intros Hm Hf n Hn. eapply triple_bind; [by apply Hm|]. intros a. by apply Hf. Qed.
Lemma total_when b m : (b = true -> total m) -> total (when b m).
Proof. intros H. unfold when. destruct b; [by apply H|apply total_ret]. Qed.
Lemma total_get {B} (f : rudp_context -> St aworld B) :
  (forall c, ctx_ok c -> total (f c)) -> total (get_c ≫= f).
Proof.
  intros H n Hn w Hw. pose proof Hw as ((Hf & Hc & Hr) & Hi). run. by apply H.
Qed.
Lemma total_modify f :
  (forall c, ctx_ok c -> ctx_ok (f c) /\ refcount (f c) = refcount c) -> total (modify_c f).
Proof.
  intros H n Hn w ((Hf & Hc & Hr) & Hi). rewrite modify_c_ok by done. destruct (H _ Hc) as [H1 H2].
  split; [|done]. split; [done|]. split; [done|]. cbn. by rewrite H2.
Qed.
Lemma total_upd f :
  (forall c, ctx_ok c -> exists c', f c = Ok c' /\ ctx_ok c' /\ refcount c' = refcount c) -> total (upd_c f).
Proof.
  intros H n Hn w ((Hf & Hc & Hr) & Hi). unfold upd_c. run. destruct (H _ Hc) as (c' & E & H1 & H2).
  rewrite (St_step (lift _) _ w c' w) by (unfold lift; by rewrite E). rewrite modify_c_ok by done.
  split; [|done]. split; [done|]. split; [done|]. cbn. by rewrite H2.
Qed.
Lemma total_tick : total (tick64 tick).
Proof. intros n Hn w Hw. exact Hw. Qed.
Lemma total_rand : total (rudp_rand_u32 rand).
Proof. intros n Hn w Hw. exact Hw. Qed.

(** A reference is taken and given back; the body runs with one more. *)
Lemma with_ref_post {A} (P : A -> Prop) (fail : A) body :
  P fail -> (forall n, 1 <= n -> triple (good n) body (fun a w => P a /\ good n w)) ->
  forall n, 1 <= n -> triple (good n) (with_ref fail body) (fun a w => P a /\ good n w).
Proof.
  intros Hfail H n Hn w ((Hf & Hc & Hr) & Hi). unfold with_ref, rudp_ref_acquire.
  assert (Hg : good n w) by done.
  destruct (destroying (a_ctx w)) eqn:Ed.
  { rewrite (St_step _ _ w false w); [by split|]. run. destruct (_ <=? 0) eqn:E; [done|]. by rewrite Ed. }
  set (w1 := w <| a_ctx := (a_ctx w) <| refcount := refcount (a_ctx w) + 1 |> |>).
  rewrite (St_step _ _ w true w1).
  2: { run. destruct (_ <=? 0) eqn:E; [lia|]. rewrite Ed. run. run. cbn. by rewrite Ed. }
  cbn [negb]. assert (Hg1 : good (n + 1) w1).
  { split; [|done]. split; [done|]. split; [done|]. cbn. by rewrite Hr. }
  specialize (H (n + 1) ltac:(lia) w1 Hg1).
  destruct (body w1) as [| |[r w2]] eqn:Eb; [done|done|]. rewrite (St_step _ _ _ _ _ Eb).
  destruct H as (HP & (Hf2 & Hc2 & Hr2) & Hi2). unfold rudp_ref_release.
  assert (Erel : (modify_c (fun c => c <| refcount := refcount c - 1 |>) ;;
      c ← get_c; when (refcount c =? 0) rudp_destroy_final) w2 =
  Ok (tt, w2 <| a_ctx := (a_ctx w2) <| refcount := refcount (a_ctx w2) - 1 |> |>)).
  { run. run. unfold when. cbn. rewrite Hr2. destruct (_ =? 0) eqn:E; [lia|done]. }
  rewrite (St_step _ _ _ _ _ Erel). split; [done|]. split; [|done]. split; [done|]. split; [done|]. cbn. lia.
Qed.
Lemma with_ref_total {A} (fail : A) body : total body -> total (with_ref fail body).
Proof.
  intros H n Hn w Hw. pose proof (with_ref_post (fun _ => True) fail body I) as T.
  assert (Hb : forall k, 1 <= k -> triple (good k) body (fun _ w => True /\ good k w)).
  { intros k Hk v Hv. specialize (H k Hk v Hv). by destruct (body v) as [| |[a v']]. }
  specialize (T Hb n Hn w Hw). by destruct (with_ref fail body w) as [| |[a w']]; [..|destruct T].
Qed.

(** A datagram of at least 25 bytes, in whatever version is in use. *)
Lemma process_packet_ok pkt from n c :
  ctx_ok c -> bytes_ok pkt -> 25 <= len pkt ->
  exists c', rudp_process_packet sha1 aead_open zlib_uncompress pkt from n c = Ok c' /\ ctx_ok c' /\
  refcount c' = refcount c.
Proof.
  intros Hc Hb Hl. pose proof Hc as (_ & (_ & Hyk & _ & _) & Hv & _). unfold rudp_process_packet.
  destruct (version c =? 1) eqn:E1.
  - unfold recv_v1. destruct (split_len 20 pkt) as (iv & b & -> & Hiv); [slia|].
  apply bytes_ok_app in Hb as [_ Hb]. rewrite calc_key_eq, bind_ok by done.
  unfold RUDP_PACKET_IV_SIZE_V1. rewrite dr_app_exact by done.
  replace (len (iv ++ b) - 20) with (len (Rc4.rc4_crypt (sha1 (your_key c ++ iv)) b)) by slia.
  edestruct process_inner_ok as (r & c' & E & Hok & Hr); [apply Hzlib|exact Hc|by apply Rc4.rc4_bytes|].
  rewrite E, bind_ok. by exists c'.
  - destruct (version c =? 2) eqn:E2; [|by exists c].
  destruct Hv as [Hv|(_ & _ & [key Hk])]; [lia|]. unfold recv_v2.
  unfold RUDP_PACKET_IV_SIZE_V2, RUDP_PACKET_MAC_SIZE_V2. destruct (_ <? _) eqn:Es; [by exists c|].
  destruct (split_len 12 pkt) as (iv & b & -> & Hiv); [slia|].
  destruct (split_len (len b - 16) b) as (body & tag & -> & Hbody); [slia|].
  assert (Ht : len tag = 16) by slia.
  rewrite (fetch_at [] iv (body ++ tag) 0 12 eq_refl (eq_sym Hiv) : fetch 0 12 (iv ++ body ++ tag) = Ok iv), bind_ok.
  assert (E3 : fetch (len (iv ++ body ++ tag) - 16) 16 (iv ++ body ++ tag) = Ok tag).
  { pose proof (fetch_at (iv ++ body) tag [] (len (iv ++ body ++ tag) - 16) 16) as E3.
      rewrite app_nil_r, <- app_assoc in E3. apply E3; slia. }
  rewrite E3, bind_ok, (fetch_at iv body tag), bind_ok, Hk by slia.
  destruct (aead_open _ _ _ _) as [m|] eqn:Eo; [|by exists c].
  apply bytes_ok_app in Hb as [_ Hb]. apply bytes_ok_app in Hb as [Hb _].
  destruct (proj2 Haead _ _ _ _ _ Hb Eo) as [Hm Hmb].
  replace (len (iv ++ body ++ tag) - 12 - 16) with (len m) by slia.
  edestruct process_inner_ok as (r & c' & E & Hok & Hr); [apply Hzlib|exact Hc|exact Hmb|].
  rewrite E, bind_ok. by exists c'.
Qed.

Lemma total_send data data_size flag :
  bytes_ok (default [] data) -> 0 <= data_size < 2 ^ 31 -> byte_ok flag ->
  match data with Some buf => data_size <= len buf | None => True end ->
  total (rudp_send sha1 aead_seal zlib_compress tick rand sys_sendto data data_size flag).
Proof.
  intros Hb Hs Hfl Hbuf. unfold rudp_send. apply with_ref_total, total_get. intros c Hc.
  destruct (_ || _); [apply total_ret|].
  assert (Hsend : forall d, bytes_ok d -> len d < 2 ^ 31 ->
  total (rudp_send_nolock sha1 aead_seal zlib_compress tick rand sys_sendto d flag)).
  { intros d Hd Hl n Hn w [Ha Hi].
  destruct (send_nolock_ok d flag n w Ha Hd Hfl Hl) as (r & w' & -> & Ha' & I & _).
  split; [done|]. by rewrite I. }
  destruct data as [buf|]; cbn in Hb.
  - intros n Hn w Hw. unfold fetch. destruct (_ && _) eqn:E; [|lia].
  rewrite (St_step _ _ w (slice 0 data_size buf) w eq_refl). apply Hsend; [auto with bytes|slia|done|done].
  - destruct (_ >? 0); [apply total_ret|]. apply Hsend; [done|by rewrite len_nil].
Qed.

Lemma total_poll_packet d : bytes_ok (d_bytes d) ->
  total (poll_packet sha1 aead_open zlib_uncompress tick d).
Proof.
  intros Hb. unfold poll_packet, RUDP_PACKET_IV_SIZE_V1.
  destruct (_ <? _) eqn:E; [apply total_ret|]. apply total_bind; [apply total_tick|]. intros t.
  apply total_bind; [by apply total_modify|]. intros ?. apply total_upd. intros c Hc.
  apply process_packet_ok; [done|done|lia].
Qed.

(** The read loop ends: each pass takes a datagram out of the socket. *)
Lemma total_poll_loop fuel n w :
  1 <= n -> good n w -> (length (a_in w) < fuel)%nat ->
  exists w', poll_loop sha1 aead_open zlib_uncompress tick fuel w = Ok (tt, w') /\ good n w'.
Proof.
  intros Hn. revert w. induction fuel as [|fuel IH]; intros w Hw Hl; [lia|].
  cbn [poll_loop]. pose proof Hw as (Ha & Hi).
  destruct (a_in w) as [|d rest] eqn:Ei.
  - rewrite (St_step _ _ w None w) by (unfold recv_datagram; by rewrite Ei). by exists w.
  - apply Forall_cons_1 in Hi as [Hd Hi]. set (w1 := w <| a_in := rest |>).
  assert (Hw1 : good n w1) by done. unfold RUDP_TMP_BUF_SIZE.
  destruct (len (tk RUDP_TMP_BUF_SIZE (d_bytes d)) =? 0) eqn:E0.
  { rewrite (St_step _ _ w None w1) by (unfold recv_datagram; rewrite Ei; cbv zeta; by rewrite E0).
      by exists w1. }
  set (d' := Datagram (tk RUDP_TMP_BUF_SIZE (d_bytes d)) (d_from d) (d_from_len d)).
  rewrite (St_step _ _ w (Some d') w1) by (unfold recv_datagram; rewrite Ei; cbv zeta; by rewrite E0).
  pose proof (total_poll_packet d' ltac:(cbn; auto with bytes) n Hn w1 Hw1) as Hp.
  destruct (poll_packet _ _ _ _ _ w1) as [| |[[] w2]] eqn:Ep; [done|done|].
  rewrite (St_step _ _ _ _ _ Ep). apply IH; [done|].
  assert (length (a_in w2) <= length rest)%nat; [|cbn in Hl; lia].
  revert Ep. unfold poll_packet. destruct (_ <? _); [by intros [= <-]|]. run.
  unfold modify_c at 1, upd_c, get_c, lift, modify_c, mbind, St_bind. cbn [a_freed].
  destruct Hw1 as ((Hf & _) & _).
  repeat case_match; intros; simplify_eq; cbn; done.
Qed.

Lemma total_keepalive : total (poll_keepalive sha1 aead_seal zlib_compress tick rand sys_sendto).
Proof.
  unfold poll_keepalive. apply total_get. intros c Hc. apply total_when. intros _.
  apply total_bind.
  { apply total_when. intros _. apply total_bind; [|intros ?; apply total_ret].
  apply (total_send None 0 0); [apply Forall_nil_2|lia|unfold byte_ok; lia|done]. }
  intros ?. apply total_get. intros c2 Hc2. cbv zeta. apply total_bind; [apply total_rand|].
  intros r. by apply total_modify.
Qed.

Lemma poll_timeout_kernel c :
  kernel (poll_timeout c) = kernel c /\ cwin_bytes (poll_timeout c) = cwin_bytes c.
Proof. unfold poll_timeout. by destruct (_ && _). Qed.

Lemma total_poll :
  total (rudp_poll sha1 aead_seal aead_open zlib_compress zlib_uncompress tick rand sys_sendto).
Proof.
  unfold rudp_poll. apply with_ref_total, total_get. intros c Hc. destruct (negb _); [apply total_ret|].
  unfold rudp_poll_nolock. apply total_bind; [apply total_tick|]. intros t. apply total_bind.
  { apply total_modify. intros c1 H1. destruct (poll_timeout_kernel (c1 <| now := t |>)) as [E Ew]. split.
  - apply (ctx_ok_same c1); [done|exact E|]. rewrite Ew. by apply (ctx_ok_cwin c1).
  - exact (kernel_refcount _ _ E). }
  intros ?. apply total_bind; [apply total_keepalive|]. intros ? n Hn w Hw. run.
  destruct (total_poll_loop (S (length (a_in w))) n w Hn Hw) as (w' & -> & H); [lia|done].
Qed.

(** One computation on the context whose result is written back. *)
Lemma total_step {A} (f : rudp_context -> res (A * rudp_context)) :
  (forall c, ctx_ok c -> exists a c', f c = Ok (a, c') /\ ctx_ok c' /\ refcount c' = refcount c) ->
  total (c ← get_c; r ← lift (f c); modify_c (fun _ => r.2) ;; mret r.1).
Proof.
  intros H n Hn w ((Hf & Hc & Hr) & Hi). run. destruct (H _ Hc) as (a & c' & E & H1 & H2).
  rewrite (St_step (lift _) _ w (a, c') w) by (unfold lift; by rewrite E). run.
  split; [|done]. split; [done|]. split; [done|]. cbn. by rewrite H2.
Qed.

Lemma recv_pop_refcount max c r : recv_pop max c = Ok r -> refcount r.2 = refcount c.
Proof.
  unfold recv_pop. destruct (_ <=? 0); [by intros [= <-]|].
  destruct (queue_get _ _) as [| |e]; [done..|]. rewrite bind_ok. destruct (_ >? _); [by intros [= <-]|].
  destruct (fetch _ _ _) as [| |b]; [done..|]. rewrite bind_ok. by intros [= <-].
Qed.

(** A positive result of [rudp_recv] is the length of the block it stored. *)
Definition block_fits (max_len : Z) (r : Z * list Z) : Prop :=
  0 < r.1 -> r.1 = len r.2 /\ r.1 <= max_len /\ bytes_ok r.2.

Lemma recv_pop_fits max_len c : ctx_ok c ->
  exists a c', recv_pop max_len c = Ok (a, c') /\ ctx_ok c' /\ block_fits max_len a.
Proof.
  intros Hc. pose proof Hc as ((_ & _ & _ & Hn & _) & _). destruct (decide (recv_queue_count c = 0)) as [E|E].
  - rewrite recv_pop_empty by done. exists (0, []), c. split_and!; [done..|]. unfold block_fits. cbn. lia.
  - destruct (recv_pop_block max_len c Hc ltac:(lia)) as (d & rest & _ & _ & Hb & H).
    destruct (_ >? _) eqn:El; [exists (-1, []), c; split_and!; [done..|]; unfold block_fits; cbn; lia|].
    destruct H as (c' & Ep & H & _). exists (len d, d), c'. split_and!; [done..|]. intros _. cbn. split; [done|]. split; [lia|done].
Qed.

Lemma recv_post max_len n : 1 <= n ->
  triple (good n) (rudp_recv max_len) (fun r w => block_fits max_len r /\ good n w).
Proof.
  apply with_ref_post; [unfold block_fits; cbn; lia|]. intros k Hk w Hw. pose proof Hw as ((Hf & Hc & Hr) & Hi). run.
  destruct (recv_pop_fits max_len (a_ctx w) Hc) as (a & c' & E & Hc' & Hfit).
  rewrite (St_step (lift _) _ w (a, c') w) by (unfold lift; by rewrite E). run.
  split; [done|]. split; [|done]. split; [done|]. split; [done|]. rewrite <- Hr. exact (recv_pop_refcount _ _ _ E).
Qed.

Lemma total_recv max_len : total (rudp_recv max_len).
Proof.
  intros n Hn w Hw. pose proof (recv_post max_len n Hn w Hw) as T.
  by destruct (rudp_recv max_len w) as [| |[a w']]; [..|destruct T].
Qed.

Lemma send_ready_refcount k c : refcount (rudp_is_send_ready_nolock k c).2 = refcount c.
Proof.
  unfold rudp_is_send_ready_nolock. cbv zeta.
  assert (E : refcount (clean_reset (rudp_cwin_refill c)) = refcount c).
  { unfold clean_reset. etransitivity; [|apply (kernel_refcount _ _ (refill_kernel c))]. by case_match. }
  rewrite <- E. generalize (clean_reset (rudp_cwin_refill c)). intros c'. unfold path_ready, suspend.
  destruct (udp_data_suspended c'), (now c' <? udp_data_resume_tick c'); cbn [andb];
  repeat (done || case_match).
Qed.

Lemma total_send_ready k : total (rudp_is_send_ready k).
Proof.
  unfold rudp_is_send_ready. apply total_get. intros c Hc. destruct (_ || _); [apply total_ret|].
  apply with_ref_total. intros n Hn w ((Hf & Hc' & Hr) & Hi). run. run.
  split; [|done]. split; [done|]. split; [by apply send_ready_ok|]. cbn. by rewrite send_ready_refcount.
Qed.
End sending.
