(* ===== verification/AccelSpec.v ===== *)
(** * UDP acceleration: what the code guarantees

    Safety of every entry point, delivery of what a peer sends, rejection of
    everything else, the receive queue as a bounded queue of blocks, the send
    budget, the suspension back-off, and the cookies. *)
From S2P Require Import Prelude Bytes Ring Crypto Fifo Accel AccelInv.

(** ** A concrete environment for the witnesses *)

Definition ex_sha1 (l : list Z) : list Z := replicate 20 (u8 (foldr Z.add 7 l)).
Definition ex_seal (key iv m : list Z) : list Z * list Z := (m, replicate 16 (u8 (foldr Z.add 3 key))).
Definition ex_open (key iv m t : list Z) : option (list Z) := Some m.
Definition ex_zlib (l : list Z) (cap : Z) : option (list Z) := if len l <? cap then Some (0 :: l) else None.
Definition ex_unzlib (l : list Z) (cap : Z) : option (list Z) :=
  match l with _ :: l => if len l <=? cap then Some l else None | [] => None end.
Definition ex_tick (n : nat) : Z := 5000 + Z.of_nat n.
Definition ex_rand (n : nat) (k : Z) : bool * list Z := (true, replicate (Z.to_nat k) (u8 (Z.of_nat n + 1))).

Lemma ax_rand_ok : rand_ok ex_rand.
Proof.
  intros k n Hn. unfold ex_rand; cbn [snd]. split; [slia|]. auto with bytes.
Qed.
Lemma ex_aead_ok : aead_ok ex_seal ex_open.
Proof.
  split.
  - intros key iv m Hm. unfold ex_seal, ex_open; cbn [fst snd]. split_and!; auto with bytes.
  - intros key iv c t m Hc [= <-]. done.
Qed.
Lemma ex_zlib_ok : zlib_ok ex_zlib ex_unzlib.
Proof.
  split_and!.
  - intros l cap d Hl. unfold ex_zlib. destruct (_ <? _) eqn:E; [|done]. intros [= <-].
    split; [slia|]. apply bytes_ok_cons; [|done]. unfold byte_ok. lia.
  - intros l cap d. unfold ex_zlib. destruct (_ <? _) eqn:E; [|done]. intros [= <-] cap' Hc.
    unfold ex_unzlib. destruct (_ <=? _) eqn:E'; [done|lia].
  - intros l cap d Hl. unfold ex_unzlib. destruct l as [|x l]; [done|]. apply Forall_cons in Hl as [_ Hl].
    repeat case_match; by intros [= <-].
Qed.

Definition ex_peer : sockaddr := Sockaddr AF_INET 40000 [192; 168; 1; 1].
(** A connected context of the given version. *)
Definition ex_ctx (v : Z) : rudp_context :=
  ctx_calloc <| refcount := 1 |> <| version := v |> <| inited := true |> <| peer_addr_set := true |>
    <| peer_addr := ex_peer |> <| my_cookie := 11 |> <| your_cookie := 11 |>
    <| evp_encrypt_ctx := Some [] |> <| evp_decrypt_ctx := Some [] |>
    <| max_udp_packet_size := RUDP_MAX_UDP_PACKET_IPV4 |> <| mss := RUDP_DEFAULT_MSS |>.
Definition ex_world (v : Z) (i : list datagram) : aworld := AWorld (ex_ctx v) false 0 0 0 i [] [].

Lemma ex_ctx_ok v : v = 1 \/ v = 2 -> ctx_ok (ex_ctx v).
Proof.
  intros Hv. unfold ctx_ok, queue_ok, keys_ok, version_ok. split_and!; try (vm_compute; by split); try done.
  - apply Forall_replicate. split; [done|]. split; [done|]. by apply bytes_ok_replicate.
  - destruct Hv as [->| ->]; [by left|right; by split_and!].
  - by left.
Qed.

(** ** Safety *)

Section accel.
Context (sha1 : list Z -> list Z)
        (aead_seal : list Z -> list Z -> list Z -> list Z * list Z)
        (aead_open : list Z -> list Z -> list Z -> list Z -> option (list Z))
        (zlib_compress zlib_uncompress : list Z -> Z -> option (list Z))
        (tick : nat -> Z) (rand : nat -> Z -> bool * list Z) (sys_sendto : nat -> bool).

Abbreviation rudp_poll := (rudp_poll sha1 aead_seal aead_open zlib_compress zlib_uncompress tick rand sys_sendto).
Abbreviation rudp_send := (rudp_send sha1 aead_seal zlib_compress tick rand sys_sendto).
Abbreviation rudp_send_nolock := (rudp_send_nolock sha1 aead_seal zlib_compress tick rand sys_sendto).
Abbreviation rudp_process_packet := (rudp_process_packet sha1 aead_open zlib_uncompress).
Abbreviation rudp_process_inner := (rudp_process_inner zlib_uncompress).

(** The entry points a session runs, in any order. *)
Inductive call : Type :=
  | CPoll
  | CSend (data : option (list Z)) (data_size flag : Z)
  | CRecv (max_len : Z)
  | CReady (check_keepalive : bool)
  | CActive
  | CFd.

(** The caller's side: the buffer holds [data_size] bytes, under 2 GiB. *)
Definition call_ok (c : call) : Prop :=
  match c with
  | CSend data n flag =>
      bytes_ok (default [] data) /\ 0 <= n < 2 ^ 31 /\ byte_ok flag /\
      match data with Some buf => n <= len buf | None => True end
  | _ => True
  end.

Definition run_call (c : call) : St aworld unit :=
  match c with
  | CPoll => rudp_poll
  | CSend data n flag => _ ← rudp_send data n flag; mret tt
  | CRecv max_len => _ ← rudp_recv max_len; mret tt
  | CReady k => _ ← rudp_is_send_ready k; mret tt
  | CActive => _ ← rudp_is_active; mret tt
  | CFd => _ ← rudp_get_udp_fd; mret tt
  end.

Fixpoint run_calls (cs : list call) : St aworld unit :=
  match cs with
  | [] => mret tt
  | c :: cs => run_call c ;; run_calls cs
  end.

(** C11: Whatever datagrams wait in the socket, and whatever the clock, the
    CSPRNG and [sendto] answer, no sequence of poll, send, receive and
    readiness calls on a live context reads or writes outside the packet
    buffers, the receive queue or a freed context; every call returns, the
    context stays well formed and each reference taken is given back. *)
Theorem accel_calls_safe (cs : list call) (n : Z) (w : aworld) :
  rand_ok rand -> aead_ok aead_seal aead_open -> zlib_ok zlib_compress zlib_uncompress ->
  Forall call_ok cs -> 1 <= n -> good n w ->
  exists w', run_calls cs w = Ok (tt, w') /\ good n w'.
Proof.
  intros Hr Ha Hz Hcs Hn. revert w. induction Hcs as [|c cs Hc _ IH]; intros w Hw; [by exists w|].
  assert (Ht : total (run_call c)).
  { destruct c as [|data k flag|m|k| |]; cbn [run_call].
    - eapply total_poll; eassumption.
    - destruct Hc as (H1 & H2 & H3 & H4).
      apply total_bind; [eapply total_send; eassumption|intros ?; apply total_ret].
    - apply total_bind; [apply total_recv|intros ?; apply total_ret].
    - apply total_bind; [apply total_send_ready|intros ?; apply total_ret].
    - apply total_bind; [|intros ?; apply total_ret].
      apply with_ref_total, total_get. intros; apply total_ret.
    - apply total_bind; [|intros ?; apply total_ret].
      apply with_ref_total, total_get. intros; apply total_ret. }
  specialize (Ht n Hn w Hw). cbn [run_calls].
  destruct (run_call c w) as [| |[[] w1]] eqn:E; [done..|]. rewrite (St_step _ _ _ _ _ E). by apply IH.
Qed.

(** ** Delivery between two contexts *)

(** The receiver has the sender's keys and the cookie the sender writes. *)
Definition paired (snd rcv : rudp_context) : Prop :=
  version rcv = version snd /\ my_cookie rcv = your_cookie snd /\ 0 <= your_cookie snd < 2 ^ 32 /\
  your_key rcv = my_key snd /\ evp_decrypt_ctx rcv = evp_encrypt_ctx snd.

(** What follows the field checks. *)
Definition accept (p : inner) (from : sockaddr) (from_len : Z) (c : rudp_context) : res (Z * rudp_context) :=
  if outside_window (in_my_tick p) c then Ok (-1, c) else
  let c := note_packet p from from_len c in
  if len (in_data p) >? 0 then
    match payload_of zlib_uncompress p with
    | None => Ok (-1, c)
    | Some data => c ← queue_block data c; Ok (0, c)
    end
  else Ok (0, c).

Lemma sealed_received cs c p pkt from n :
  aead_ok aead_seal aead_open -> ctx_ok cs -> ctx_ok c -> paired cs c -> inner_ok p ->
  sealed sha1 aead_seal cs (inner_frame (your_cookie cs) p []) pkt ->
  rudp_process_packet pkt from n c = (r ← accept p from n c; Ok r.2).
Proof.
  intros Ha Hs Hc (Ev & Ecook & Hcook & Ekey & Eevp) Hp (pad & Hpad & Hlen & Hpkt).
  pose proof Hs as (_ & (Hmk & _ & Hi1 & Hi2 & _) & Hv & _).
  assert (Hparse : forall v rest, (v = true -> exists pd, rest = pd ++ zeros 20) ->
    rudp_process_inner (inner_frame (your_cookie cs) p rest)
      (len (inner_frame (your_cookie cs) p rest)) from n v c = accept p from n c).
  { intros v rest Hrest. unfold Accel.rudp_process_inner. rewrite Ecook.
    by rewrite parse_inner_frame. }
  unfold Accel.rudp_process_packet. rewrite Ev. destruct (version cs =? 1) eqn:E1.
  - subst pkt. unfold recv_v1, packet_v1, RUDP_PACKET_IV_SIZE_V1.
    set (m := inner_frame _ _ _ ++ _). rewrite calc_key_eq, bind_ok by congruence.
    rewrite dr_app_exact, Ekey, Rc4.rc4_rc4 by done.
    replace (len (next_iv cs ++ Rc4.rc4_crypt (sha1 (my_key cs ++ next_iv cs)) m) - 20) with (len m) by slia.
    replace m with (inner_frame (your_cookie cs) p (zeros pad ++ zeros 20)).
    + by rewrite Hparse by eauto.
    + subst m. unfold inner_frame. by rewrite app_nil_r, <- !app_assoc.
  - destruct Hv as [Hv|(Hv & _)]; [lia|]. rewrite Hv. destruct Hpkt as (key & Hk & ->).
    change (2 =? 2) with true. cbv iota.
    set (m := inner_frame (your_cookie cs) p [] ++ zeros pad) in *. unfold packet_v2 in *. fold m.
    assert (Hmb : bytes_ok m).
    { destruct Hp as (_ & _ & ? & ? & _). apply bytes_ok_app_2; [|apply bytes_ok_zeros].
      apply inner_frame_bytes; [done|done|constructor]. }
    destruct (proj1 Ha key (next_iv_v2 cs) m Hmb) as (H1 & H2 & H3 & H4 & H5).
    destruct (aead_seal key (next_iv_v2 cs) m) as [e tag]; cbn [fst snd] in *.
    assert (Hm : len m = 23 + len (in_data p) + pad) by (subst m; rewrite len_app, len_inner_frame; slia).
    pose proof (len_nonneg (in_data p)) as Hd0.
    unfold recv_v2, RUDP_PACKET_IV_SIZE_V2, RUDP_PACKET_MAC_SIZE_V2.
    destruct (_ <? _) eqn:Es; [slia|].
    rewrite (fetch_at [] (next_iv_v2 cs) (e ++ tag) 0 12 eq_refl (eq_sym Hi2) :
      fetch 0 12 (next_iv_v2 cs ++ e ++ tag) = Ok (next_iv_v2 cs)), bind_ok.
    assert (E3 : fetch (len (next_iv_v2 cs ++ e ++ tag) - 16) 16 (next_iv_v2 cs ++ e ++ tag) = Ok tag).
    { pose proof (fetch_at (next_iv_v2 cs ++ e) tag [] (len (next_iv_v2 cs ++ e ++ tag) - 16) 16) as E3.
      rewrite app_nil_r, <- app_assoc in E3. apply E3; slia. }
    rewrite E3, bind_ok, (fetch_at (next_iv_v2 cs) e tag), bind_ok, Eevp, Hk, H5 by slia.
    replace (len (next_iv_v2 cs ++ e ++ tag) - 12 - 16) with (len m) by slia.
    replace m with (inner_frame (your_cookie cs) p (zeros pad)).
    + by rewrite Hparse.
    + subst m. unfold inner_frame. by rewrite app_nil_r, <- !app_assoc.
Qed.

(** The payload form a call sends decodes to the data, or is too large for a
    queue entry. *)
Lemma send_form_payload data d f mt yt cs :
  zlib_ok zlib_compress zlib_uncompress -> bytes_ok data -> len data < 2 ^ 31 ->
  send_form zlib_compress data 0 cs = (d, f) ->
  (0 <? len d) = (0 <? len data) /\
  (len data <= RUDP_MAX_PAYLOAD_SIZE -> payload_of zlib_uncompress (Inner mt yt f d) = Some data) /\
  (use_compress cs = false -> d = data /\ payload_of zlib_uncompress (Inner mt yt f d) = Some data).
Proof.
  intros (Hz1 & Hz2 & _) Hb Hl. unfold send_form, compress_data, payload_of, uncompress_data; cbn [in_flag in_data].
  destruct (use_compress cs && (len data >? 1)) eqn:E; [|by intros [= <- <-]].
  destruct (len data =? 0) eqn:E0; [lia|].
  destruct (zlib_compress data _) as [x|] eqn:Ez; [|by intros [= <- <-]].
  intros [= <- <-]. destruct (Hz1 _ _ _ Hb Ez) as [Hx _].
  change (negb (Z.land (Z.lor 0 RUDP_FLAG_COMPRESSED) RUDP_FLAG_COMPRESSED =? 0)) with true. cbv iota.
  split; [lia|]. split; [|intros Hu; rewrite Hu in E; done].
  intros Hd. destruct (len x =? 0) eqn:Ex; [lia|]. apply (Hz2 _ _ _ Ez). unfold RUDP_MAX_PAYLOAD_SIZE in *. lia.
Qed.

(** The datagram of a successful call, at a paired receiver whose window it
    is in: the fields are noted, and the decoded payload is queued. *)
Lemma delivery (data : list Z) (n m : Z) (w w' : aworld) (rcv : rudp_context) (from : sockaddr) (r : Z) :
  aead_ok aead_seal aead_open -> zlib_ok zlib_compress zlib_uncompress ->
  alive n w -> bytes_ok data -> len data < 2 ^ 31 -> 0 <= last_recv_your_tick (a_ctx w) < 2 ^ 64 ->
  rudp_send_nolock data 0 w = Ok (r, w') -> r <> -1 ->
  ctx_ok rcv -> paired (a_ctx w) rcv ->
  last_recv_your_tick rcv < u64 (tick (a_ticks w)) + RUDP_WINDOW_SIZE_MSEC ->
  exists pkt p, a_out w' = a_out w ++ [Datagram pkt (peer_addr (a_ctx w)) (peer_addr_len (a_ctx w))] /\
    rudp_process_packet pkt from m rcv =
      (let c := note_packet p from m rcv in
       if 0 <? len data then
         match payload_of zlib_uncompress p with None => Ok c | Some x => queue_block x c end
       else Ok c) /\
    (len data <= RUDP_MAX_PAYLOAD_SIZE \/ use_compress (a_ctx w) = false ->
     payload_of zlib_uncompress p = Some data).
Proof.
  intros Ha Hz Hw Hb Hl Hyt Hsend Hr1 Hc Hpair Hwin.
  edestruct (send_nolock_ok sha1 aead_seal aead_open zlib_compress zlib_uncompress tick rand sys_sendto
    Ha Hz data 0 n w Hw Hb) as (r' & w2 & E & _ & (_ & _ & Hpost)); [unfold byte_ok; lia|done|].
  rewrite Hsend in E. injection E as <- <-.
  destruct Hpost as [[? _]|(pkt & -> & Hpkt & Ho)]; [done|].
  revert Hpkt. unfold sent_packet. destruct (send_form _ _ _ _) as [d f] eqn:Es. intros [Hmax Hseal].
  set (cs := sending_ctx tick w) in *. exists pkt, (sent_inner f d cs).
  assert (Hmt : 0 <= u64 (tick (a_ticks w)) < 2 ^ 64) by (apply Z.mod_pos_bound; lia).
  assert (Hp : inner_ok (sent_inner f d cs)).
  { edestruct (send_form_ok zlib_compress zlib_uncompress Hz data 0) as (H1 & H2 & _);
      [done|unfold byte_ok; lia|done|exact Es|].
    unfold inner_ok, sent_inner; cbn [in_my_tick in_your_tick in_flag in_data].
    split; [change (now cs) with (u64 (tick (a_ticks w))); case_match; lia|].
    split; [exact Hyt|]. split; [done|]. split; [done|]. revert Hmax. unfold max_data. case_match; lia. }
  assert (Hcs : ctx_ok cs) by exact (proj1 (proj2 Hw)).
  destruct (send_form_payload data d f (in_my_tick (sent_inner f d cs)) (in_your_tick (sent_inner f d cs))
    cs Hz Hb Hl Es) as (E0 & Epay & Epay').
  split; [done|]. split; [|intros [H|H]; [by apply Epay|by apply (Epay' H)]].
  rewrite (sealed_received cs rcv (sent_inner f d cs) pkt from m Ha Hcs Hc Hpair Hp Hseal).
  unfold accept, outside_window. destruct (_ && _) eqn:Ew.
  { exfalso. revert Ew. unfold sent_inner; cbn [in_my_tick]. change (now cs) with (u64 (tick (a_ticks w))).
    unfold RUDP_WINDOW_SIZE_MSEC in *. case_match; lia. }
  cbv zeta. change (len (in_data (sent_inner f d cs))) with (len d). rewrite Z.gtb_ltb, E0.
  destruct (0 <? len data); [|done]. destruct (payload_of _ _) as [x|]; [|done].
  by destruct (queue_block _ _).
Qed.


(** A payload of 1601 to 1977 bytes is reported as sent (the size check of
    [rudp_send] allows it), but the paired receiver drops it without counting
    an overflow: the receive queue and the overflow counters are unchanged. *)
Theorem accel_oversize_lost (data : list Z) (n m : Z) (w w' : aworld) (rcv : rudp_context) (from : sockaddr) (r : Z) :
  aead_ok aead_seal aead_open -> zlib_ok zlib_compress zlib_uncompress ->
  alive n w -> bytes_ok data -> RUDP_MAX_PAYLOAD_SIZE < len data < 2 ^ 31 ->
  use_compress (a_ctx w) = false -> 0 <= last_recv_your_tick (a_ctx w) < 2 ^ 64 ->
  rudp_send_nolock data 0 w = Ok (r, w') -> r <> -1 ->
  ctx_ok rcv -> paired (a_ctx w) rcv ->
  last_recv_your_tick rcv < u64 (tick (a_ticks w)) + RUDP_WINDOW_SIZE_MSEC ->
  exists pkt p, a_out w' = a_out w ++ [Datagram pkt (peer_addr (a_ctx w)) (peer_addr_len (a_ctx w))] /\
    rudp_process_packet pkt from m rcv = Ok (note_packet p from m rcv) /\
    queue (note_packet p from m rcv) = queue rcv.
Proof.
  intros Ha Hz Hw Hb Hl Hu Hyt Hsend Hr1 Hc Hpair Hwin.
  destruct (delivery data n m w w' rcv from r) as (pkt & p & Ho & E & Epay); try done; [lia|].
  exists pkt, p. split; [done|]. split; [|apply note_packet_queue]. rewrite E. cbv zeta.
  unfold RUDP_MAX_PAYLOAD_SIZE in Hl. destruct (0 <? len data) eqn:?; [|lia].
  rewrite (Epay (or_intror Hu)). unfold queue_block, RUDP_MAX_PAYLOAD_SIZE.
  destruct (len data <=? 1600) eqn:?; [lia|done].
Qed.
End accel.

(** The end of a successful send in the example environment. *)
Definition ex_send (v : Z) (data : list Z) : res (Z * aworld) :=
  rudp_send_nolock ex_sha1 ex_seal ex_zlib ex_tick ex_rand (fun _ => true) data 0 (ex_world v []).

Lemma ex_alive v : v = 1 \/ v = 2 -> alive 1 (ex_world v []).
Proof. intros Hv. split; [done|]. split; [by apply ex_ctx_ok|done]. Qed.

Lemma ex_paired v : paired (ex_ctx v) (ex_ctx v).
Proof. split_and!; try done. Qed.

Definition ex_sent (v : Z) (data : list Z) : aworld :=
  match ex_send v data with Ok (_, w) => w | _ => ex_world v [] end.

Definition ex_ret (v : Z) (data : list Z) : Z :=
  match ex_send v data with Ok (r, _) => r | _ => -1 end.

Lemma ex_send_ok v data : ex_ret v data <> -1 ->
  rudp_send_nolock ex_sha1 ex_seal ex_zlib ex_tick ex_rand (fun _ => true) data 0 (ex_world v []) =
  Ok (ex_ret v data, ex_sent v data).
Proof. unfold ex_ret, ex_sent, ex_send. by destruct (rudp_send_nolock _ _ _ _ _ _ _ _ _) as [| |[r w]]. Qed.

Lemma accel_calls_safe_witness : exists w',
  run_calls ex_sha1 ex_seal ex_open ex_zlib ex_unzlib ex_tick ex_rand (fun _ => true)
    [CSend (Some [1; 2; 3]) 3 0; CPoll; CRecv 100; CReady true]
    (ex_world 1 [Datagram (replicate 30 5) ex_peer 16]) = Ok (tt, w') /\ good 1 w'.
Proof.
  apply (accel_calls_safe _ _ _ _ _ _ _ _ _ 1 _ ax_rand_ok ex_aead_ok ex_zlib_ok); [|lia|].
  - assert (byte_ok 0 /\ bytes_ok [1; 2; 3]) as [? ?] by (split; unfold bytes_ok, byte_ok; [lia|repeat constructor; lia]).
    apply Forall_cons_2; [cbn; split; [done|split; [lia|done]]|].
    repeat (apply Forall_cons_2; [done|]). apply Forall_nil_2.
  - split; [split; [done|]; split; [by apply ex_ctx_ok; left|done]|].
    repeat constructor; cbn; lia.
Defined.

Lemma ex_sent_nonneg : ex_ret 1 [9; 8; 7] <> -1 /\ ex_ret 1 (replicate 1700 3) <> -1.
Proof. split; vm_compute; discriminate. Qed.


Lemma accel_oversize_lost_witness : exists pkt p,
  a_out (ex_sent 1 (replicate 1700 3)) = a_out (ex_world 1 []) ++
    [Datagram pkt (peer_addr (a_ctx (ex_world 1 []))) (peer_addr_len (a_ctx (ex_world 1 [])))] /\
  rudp_process_packet ex_sha1 ex_open ex_unzlib pkt ex_peer 16 (ex_ctx 1) =
    Ok (note_packet p ex_peer 16 (ex_ctx 1)) /\
  queue (note_packet p ex_peer 16 (ex_ctx 1)) = queue (ex_ctx 1).
Proof.
  destruct ex_sent_nonneg as [_ Hr].
  apply (accel_oversize_lost ex_sha1 ex_seal ex_open ex_zlib ex_unzlib ex_tick ex_rand (fun _ => true)
    (replicate 1700 3) 1 16 (ex_world 1 []) (ex_sent 1 (replicate 1700 3)) (ex_ctx 1) ex_peer
    (ex_ret 1 (replicate 1700 3)) ex_aead_ok ex_zlib_ok (ex_alive 1 (or_introl eq_refl))).
  - apply bytes_ok_replicate. unfold byte_ok. lia.
  - rewrite len_replicate. unfold RUDP_MAX_PAYLOAD_SIZE. lia.
  - reflexivity.
  - cbn. lia.
  - exact (ex_send_ok 1 (replicate 1700 3) Hr).
  - exact Hr.
  - apply ex_ctx_ok. by left.
  - apply (ex_paired 1).
  - vm_compute. reflexivity.
Defined.

(** ** The receive queue is a bounded queue of blocks *)

(** The specification: blocks of at most 1600 bytes, at most 256 of them;
    a read takes the oldest block, if it fits. *)
Definition fifo_put (d : list Z) (q : list (list Z)) : list (list Z) :=
  if (len d <=? RUDP_MAX_PAYLOAD_SIZE) && (len q <? RUDP_RECV_QUEUE_SIZE) then q ++ [d] else q.
Definition fifo_get (max_len : Z) (q : list (list Z)) : Z * list Z * list (list Z) :=
  match q with
  | [] => (0, [], [])
  | d :: rest => if len d >? max_len then (-1, [], q) else (len d, d, rest)
  end.

(** C24: The circular receive queue refines a bounded FIFO of blocks: storing
    and [rudp_recv]'s pop never leave the arrays, preserve the context
    invariant, and act on the abstract queue as [fifo_put] and [fifo_get]. In
    particular a block larger than the caller's buffer stays at the head, so
    the same call fails again and nothing behind it can be read. *)
Theorem recv_queue_refines (c : rudp_context) (d : list Z) (max_len : Z) :
  ctx_ok c -> bytes_ok d ->
  (exists c', queue_block d c = Ok c' /\ ctx_ok c' /\ queue c' = fifo_put d (queue c)) /\
  (exists c', recv_pop max_len c = Ok ((fifo_get max_len (queue c)).1, c') /\ ctx_ok c' /\
     queue c' = (fifo_get max_len (queue c)).2).
Proof.
  intros Hc Hb. pose proof (len_queue c (proj1 Hc)) as Hlen. split.
  - unfold fifo_put. rewrite Hlen. destruct (_ && _) eqn:E.
    + apply queue_block_room; [done|done|lia|lia].
    + destruct (queue_block_drop d c Hc) as (c' & ? & ? & ? & _); [|by exists c'].
      unfold RUDP_MAX_PAYLOAD_SIZE, RUDP_RECV_QUEUE_SIZE in *. lia.
  - pose proof Hc as ((_ & _ & _ & Hn & _) & _). destruct (decide (recv_queue_count c = 0)) as [E|E].
    + exists c. rewrite recv_pop_empty by done. rewrite E in Hlen. by rewrite (len_0_nil _ Hlen).
    + destruct (recv_pop_block max_len c Hc ltac:(lia)) as (b & rest & Eq & _ & _ & H). rewrite Eq. cbn [fifo_get].
      destruct (len b >? max_len) eqn:Eb; cbn [fst snd]; [by exists c|].
      destruct H as (c' & ? & ? & ?). by exists c'.
Qed.

Lemma recv_queue_refines_witness :
  (exists c', queue_block [1; 2] (ex_ctx 1) = Ok c' /\ ctx_ok c' /\ queue c' = fifo_put [1; 2] (queue (ex_ctx 1))) /\
  (exists c', recv_pop 9 (ex_ctx 1) = Ok ((fifo_get 9 (queue (ex_ctx 1))).1, c') /\ ctx_ok c' /\
     queue c' = (fifo_get 9 (queue (ex_ctx 1))).2).
Proof. apply (recv_queue_refines (ex_ctx 1) [1; 2] 9); [apply ex_ctx_ok; by left|apply (bool_decide_unpack _); vm_compute; exact I]. Defined.

(** ** Everything else is dropped *)

(** C21: A decrypted packet is either dropped with the context untouched, or
    it is bit for bit a frame with this session's cookie, in version 1 with
    the 20 zero bytes at its end, inside the 30 s tick window; only then are
    the ticks, the peer address and the queue updated. *)
Theorem process_inner_authentic (unzip : list Z -> Z -> option (list Z)) (buf : list Z) (from : sockaddr) (n : Z)
    (v : bool) (c : rudp_context) :
  (forall l cap d, bytes_ok l -> unzip l cap = Some d -> bytes_ok d) -> bytes_ok buf -> ctx_ok c ->
  rudp_process_inner unzip buf (len buf) from n v c = Ok (-1, c) \/
  exists p rest r c', buf = inner_frame (my_cookie c) p rest /\ inner_ok p /\
    (v = true -> exists pad, rest = pad ++ zeros 20) /\ outside_window (in_my_tick p) c = false /\
    rudp_process_inner unzip buf (len buf) from n v c = Ok (r, c') /\
    peer_addr c' = from /\ last_peer_tick_seen c' = in_my_tick p /\
    last_recv_your_tick c' = Z.max (in_my_tick p) (last_recv_your_tick c) /\
    udp_rx_packets c' = u64 (udp_rx_packets c + 1).
Proof.
  intros Hz Hb Hc. unfold rudp_process_inner.
  destruct (parse_inner_cases (my_cookie c) v buf Hb) as [->|(p & rest & -> & Hp & Hf & Hv)]; [by left|].
  destruct (outside_window _ _) eqn:Ew; [by left|]. right. cbv zeta.
  pose proof (note_packet_fields p from n c) as Hn. pose proof (note_packet_ok p from n c Hc) as Hok.
  exists p, rest. revert Hn Hok. generalize (note_packet p from n c). intros c1 (N1 & N2 & N3 & N4) Hok.
  destruct (_ >? 0); [destruct (payload_of _ p) as [d|] eqn:Ep|].
  - apply (payload_bytes _ Hz) in Ep; [|by apply Hp]. destruct (queue_block_ok d c1 Hok Ep) as (c2 & E & _). destruct (queue_block_fields d c1 c2 E) as (D1 & D2 & D3 & D4). rewrite E. exists 0, c2. rewrite D1, D2, D3, D4. by split_and!.
  - exists (-1), c1. by split_and!.
  - exists 0, c1. by split_and!.
Qed.

Lemma process_inner_authentic_witness :
  let buf := inner_frame 11 (Inner 5 6 0 [1; 2; 3]) (zeros 20) in
  rudp_process_inner ex_unzlib buf (len buf) ex_peer 16 true (ex_ctx 1) = Ok (-1, ex_ctx 1) \/
  exists p rest r c', buf = inner_frame (my_cookie (ex_ctx 1)) p rest /\ inner_ok p /\
    (true = true -> exists pad, rest = pad ++ zeros 20) /\ outside_window (in_my_tick p) (ex_ctx 1) = false /\
    rudp_process_inner ex_unzlib buf (len buf) ex_peer 16 true (ex_ctx 1) = Ok (r, c') /\
    peer_addr c' = ex_peer /\ last_peer_tick_seen c' = in_my_tick p /\
    last_recv_your_tick c' = Z.max (in_my_tick p) (last_recv_your_tick (ex_ctx 1)) /\
    udp_rx_packets c' = u64 (udp_rx_packets (ex_ctx 1) + 1).
Proof.
  cbv zeta. apply (process_inner_authentic ex_unzlib _ ex_peer 16 true (ex_ctx 1)).
  - apply ex_zlib_ok.
  - apply (bool_decide_unpack _). vm_compute. exact I.
  - apply ex_ctx_ok. by left.
Defined.

(** ** The send budget *)

(** The arithmetic of the send window, for clocks that do not wrap: it
    starts at 256 KiB, grows by 4 MiB per second up to 8 MiB, a loss halves it
    down to 32 KiB (and raises a smaller window to 32 KiB), a data send takes
    its size or all that is left, and a path that passes the keep-alive check
    is only reported ready while some budget is left. *)
Theorem send_window_arithmetic (c : rudp_context) (n : Z) :
  0 <= cwin_bytes c <= RUDP_CWIN_MAX -> 0 <= cwin_last_refill_tick c -> 0 <= now c < 2 ^ 40 -> 0 <= n ->
  cwin_bytes (rudp_cwin_refill c) =
    (if cwin_inited c
     then Z.min RUDP_CWIN_MAX (cwin_bytes c +
            RUDP_CWIN_GROW_BPS * Z.max 0 (now c - cwin_last_refill_tick c) / 1000)
     else RUDP_CWIN_START) /\
  cwin_bytes (rudp_cwin_on_loss c) = Z.max RUDP_CWIN_MIN (cwin_bytes c / 2) /\
  cwin_bytes (cwin_consume n c) = Z.max 0 (cwin_bytes c - n) /\
  ((rudp_is_send_ready_nolock true c).1 = true -> 0 < cwin_bytes (rudp_is_send_ready_nolock true c).2).
Proof.
  intros Hw Hl Hn Hn0. split_and!.
  - unfold rudp_cwin_refill. destruct (cwin_inited c); cbn [negb]; [|done].
    unfold u64, RUDP_CWIN_GROW_BPS, RUDP_CWIN_MAX in *. destruct (_ <=? _) eqn:E.
    + rewrite Z.max_l by lia. rewrite Z.mul_0_r. change (0 / 1000) with 0. lia.
    + rewrite Z.max_r by lia. cbv zeta. rewrite (Z.mod_small (_ * _)) by lia.
      set (g := _ * _ / 1000). assert (0 <= g <= 2 ^ 62).
      { subst g. split; [apply Z.div_pos; lia|]. apply Z.div_le_upper_bound; lia. }
      destruct (_ >? _) eqn:E'; cbn in *; rewrite Z.mod_small in * by lia; lia.
  - unfold rudp_cwin_on_loss, RUDP_CWIN_MIN. cbv zeta. destruct (_ <? _) eqn:E; cbn in *; lia.
  - unfold cwin_consume. destruct (_ >=? _) eqn:E; cbn; lia.
  - unfold rudp_is_send_ready_nolock. cbv zeta. pose proof (refill_bound c Hw) as Hb.
    assert (Hb2 : 0 <= cwin_bytes (clean_reset (rudp_cwin_refill c)))
      by (unfold clean_reset; case_match; cbn; lia).
    revert Hb2. generalize (clean_reset (rudp_cwin_refill c)). clear. intros c Hb.
    unfold path_ready. destruct (udp_data_suspended c), (now c <? udp_data_resume_tick c); cbn [andb];
      repeat (done || case_match || cbn); lia.
Qed.

Lemma send_window_arithmetic_witness :
  let c := (ex_ctx 1) <| now := 7000 |> <| cwin_inited := true |> <| cwin_bytes := 40000 |>
             <| cwin_last_refill_tick := 6000 |> in
  cwin_bytes (rudp_cwin_refill c) = 40000 + 4194304 /\ cwin_bytes (rudp_cwin_on_loss c) = 32768.
Proof.
  cbv zeta.
  destruct (send_window_arithmetic ((ex_ctx 1) <| now := 7000 |> <| cwin_inited := true |>
    <| cwin_bytes := 40000 |> <| cwin_last_refill_tick := 6000 |>) 5) as (-> & -> & _); [vm_compute; split; discriminate|vm_compute; discriminate|vm_compute; split; [discriminate|reflexivity]|lia|].
  split; reflexivity.
Defined.

(** ** Suspension of data over UDP *)

(** The fields the suspension logic reads and writes. *)
Definition susp (c : rudp_context) :=
  (now c, last_loss_event_tick c, udp_data_suspended c, udp_data_resume_tick c, suspension_count c,
   recent_overflows c).

Lemma refill_susp c : susp (rudp_cwin_refill c) = susp c.
Proof. unfold rudp_cwin_refill. cbv zeta. destruct (negb _); [done|]. destruct (_ <=? _); [done|]. by destruct (_ >? _). Qed.

Lemma clean_reset_suspended c : udp_data_suspended c = true -> clean_reset c = c.
Proof. unfold clean_reset. by intros ->. Qed.

Lemma ready_suspends k c :
  udp_data_suspended c = false -> RUDP_OVERFLOW_SUSPEND_THRESHOLD <= recent_overflows c ->
  now c < last_loss_event_tick c + RUDP_CLEAN_RESET_MS ->
  exists c1, rudp_is_send_ready_nolock k c = (false, suspend c1) /\ susp c1 = susp c.
Proof.
  intros Hs Ho Hl. exists (rudp_cwin_refill c). pose proof (refill_susp c) as E. split; [|done].
  unfold rudp_is_send_ready_nolock. cbv zeta. revert E. generalize (rudp_cwin_refill c). intros c1 E.
  injection E as E1 E2 E3 E4 E5 E6.
  assert (clean_reset c1 = c1) as ->.
  { unfold clean_reset. rewrite E1, E2. destruct (_ && _) eqn:Eb; [lia|done]. }
  rewrite E3, Hs, E6. cbn [andb]. destruct (_ >=? _) eqn:Eo; [done|lia].
Qed.

Lemma ready_while_suspended k c :
  udp_data_suspended c = true -> now c < udp_data_resume_tick c ->
  let r := rudp_is_send_ready_nolock k c in
  r.1 = false /\ udp_data_suspended r.2 = true /\ udp_data_resume_tick r.2 = udp_data_resume_tick c.
Proof.
  intros Hs Hn. unfold rudp_is_send_ready_nolock. cbv zeta. pose proof (refill_susp c) as E.
  revert E. generalize (rudp_cwin_refill c). intros c1 E. injection E as E1 E2 E3 E4 E5 E6.
  rewrite clean_reset_suspended by congruence. rewrite E3, Hs, E1, E4. cbn [andb].
  destruct (_ <? _) eqn:Et; [|lia]. cbn. by rewrite E3, E4.
Qed.

Lemma ready_after_suspension k c :
  udp_data_suspended c = true -> udp_data_resume_tick c <= now c ->
  let r := rudp_is_send_ready_nolock k c in
  udp_data_suspended r.2 = false /\ recent_overflows r.2 = 0 /\ suspension_count r.2 = suspension_count c.
Proof.
  intros Hs Hn. unfold rudp_is_send_ready_nolock. cbv zeta. pose proof (refill_susp c) as E.
  revert E. generalize (rudp_cwin_refill c). intros c1 E. injection E as E1 E2 E3 E4 E5 E6.
  rewrite clean_reset_suspended by congruence. rewrite E3, Hs, E1, E4. cbn [andb].
  destruct (_ <? _) eqn:Et; [lia|].
  change (recent_overflows (c1 <| udp_data_suspended := false |> <| recent_overflows := 0 |>) >=?
    RUDP_OVERFLOW_SUSPEND_THRESHOLD) with false. cbv iota. rewrite <- E5.
  unfold path_ready. by repeat case_match.
Qed.

(** With eight receive overflows since the last probe, readiness is denied
    and data over UDP is suspended for 30 s x 2^min(n,3), [n] the suspensions
    so far; every query before the deadline is denied and leaves it in place;
    the first query at or after it lifts the suspension with a clean overflow
    count and one suspension more on record. *)
Theorem suspension_backoff (c : rudp_context) (k : bool) :
  udp_data_suspended c = false -> RUDP_OVERFLOW_SUSPEND_THRESHOLD <= recent_overflows c ->
  now c < last_loss_event_tick c + RUDP_CLEAN_RESET_MS ->
  0 <= suspension_count c < 2 ^ 31 -> 0 <= now c < 2 ^ 63 ->
  let d := 30000 * 2 ^ Z.min (suspension_count c) 3 in
  exists c', rudp_is_send_ready_nolock k c = (false, c') /\
    udp_data_suspended c' = true /\ udp_data_resume_tick c' = now c + d /\
    suspension_count c' = suspension_count c + 1 /\
    (forall t k', t < now c + d ->
       let r := rudp_is_send_ready_nolock k' (c' <| now := t |>) in
       r.1 = false /\ udp_data_suspended r.2 = true /\ udp_data_resume_tick r.2 = now c + d) /\
    (forall t k', now c + d <= t ->
       let r := rudp_is_send_ready_nolock k' (c' <| now := t |>) in
       udp_data_suspended r.2 = false /\ recent_overflows r.2 = 0 /\
       suspension_count r.2 = suspension_count c + 1).
Proof.
  intros Hs Ho Hl Hn Ht d.
  assert (Hd : suspend_ms c = d /\ 0 <= d <= 240000).
  { unfold suspend_ms, RUDP_SUSPEND_BACKOFF_MAX_SHIFT, RUDP_UDP_SUSPEND_MS, u64, d.
    assert (Hm : Z.min (suspension_count c) 3 = 0 \/ Z.min (suspension_count c) 3 = 1 \/
      Z.min (suspension_count c) 3 = 2 \/ Z.min (suspension_count c) 3 = 3) by lia.
    replace (if suspension_count c >? 3 then 3 else suspension_count c) with (Z.min (suspension_count c) 3)
      by (destruct (_ >? 3) eqn:?; lia).
    destruct Hm as [->|[->|[->| ->]]]; (split; [reflexivity|lia]). }
  destruct Hd as [Hd Hd0].
  destruct (ready_suspends k c Hs Ho Hl) as (c1 & E & F).
  exists (suspend c1). injection F as F1 F2 F3 F4 F5 F6.
  assert (Hres : udp_data_resume_tick (suspend c1) = now c + d).
  { unfold suspend; cbn. unfold suspend_ms in *. rewrite F1, F5, Hd. unfold u64. apply Z.mod_small. lia. }
  assert (Hcnt : suspension_count (suspend c1) = suspension_count c + 1).
  { unfold suspend; cbn. rewrite F5. unfold u32. apply Z.mod_small. lia. }
  split; [done|]. split; [done|]. split; [done|]. split; [done|]. split.
  - intros t k' Hlt r. subst r.
    destruct (ready_while_suspended k' ((suspend c1) <| now := t |>)) as (A & B & C); [done|change (t < udp_data_resume_tick (suspend c1)); lia|].
    split; [done|]. split; [done|]. rewrite C. exact Hres.
  - intros t k' Hge r. subst r.
    destruct (ready_after_suspension k' ((suspend c1) <| now := t |>)) as (A & B & C); [done|change (udp_data_resume_tick (suspend c1) <= t); lia|].
    split; [done|]. split; [done|]. rewrite C. exact Hcnt.
Qed.

Definition ex_lossy : rudp_context :=
  (ex_ctx 1) <| now := 50000 |> <| recent_overflows := 8 |> <| last_loss_event_tick := 49000 |>
    <| suspension_count := 2 |>.

Lemma suspension_backoff_witness :
  exists c', rudp_is_send_ready_nolock true ex_lossy = (false, c') /\ udp_data_resume_tick c' = 170000.
Proof.
  destruct (suspension_backoff ex_lossy true) as (c' & E & _ & H & _); [reflexivity|vm_compute; discriminate|
    vm_compute; reflexivity|vm_compute; split; [discriminate|reflexivity]|
    vm_compute; split; [discriminate|reflexivity]|].
  exists c'. split; [exact E|]. rewrite H. reflexivity.
Defined.

(** ** Creation *)

Section create.
Context (tick : nat -> Z) (rand : nat -> Z -> bool * list Z) (sys_socket : nat -> Z -> Z)
        (sys_bind : nat -> bool) (sys_getsockname : nat -> option Z).

Abbreviation rudp_create := (rudp_create tick rand sys_socket sys_bind sys_getsockname).

(** The cookie value the [k]-th CSPRNG call gives. *)
Definition cookie_draw (k : nat) : Z := if negb (rand k 4).1 then 0 else r32 (rand k 4).2.

Lemma cookie_draw_range k : rand_ok rand -> 0 <= cookie_draw k < 2 ^ 32.
Proof. intros Hr. unfold cookie_draw. destruct (negb _); [lia|]. apply r32_bound. by apply Hr. Qed.

Lemma draw_cookie_S fuel bad w :
  draw_cookie rand (S fuel) bad w =
    let w' := w <| a_rands := S (a_rands w) |> in
    if bad (cookie_draw (a_rands w)) then draw_cookie rand fuel bad w' else Ok (cookie_draw (a_rands w), w').
Proof.
  cbn [draw_cookie]. rewrite (St_step _ _ w (cookie_draw (a_rands w)) (w <| a_rands := S (a_rands w) |>) eq_refl).
  cbv zeta. by destruct (bad _).
Qed.

(** The loop ends at the first good value. *)
Lemma draw_cookie_ok fuel bad w j :
  (j < fuel)%nat -> rand_ok rand -> bad (cookie_draw (a_rands w + j)) = false ->
  exists v k, draw_cookie rand fuel bad w = Ok (v, w <| a_rands := k |>) /\ bad v = false /\ 0 <= v < 2 ^ 32.
Proof.
  intros Hj Hr. revert w j Hj. induction fuel as [|fuel IH]; intros w j Hj Hb; [lia|]. rewrite draw_cookie_S. cbv zeta.
  destruct (bad (cookie_draw (a_rands w))) eqn:E; [|eexists _, _; split; [done|]; split; [done|by apply cookie_draw_range]].
  destruct j as [|j]; [rewrite Nat.add_0_r in Hb; congruence|].
  destruct (IH (w <| a_rands := S (a_rands w) |>) j) as (v & k & Ed & Hv); [lia| |].
  - cbn. rewrite <- Hb. do 2 f_equal. lia.
  - exists v, k. split; [exact Ed|done].
Qed.

Lemma draw_cookie_fail fuel w : (forall k, (rand k 4).1 = false) -> draw_cookie rand fuel (fun v => v =? 0) w = Err.
Proof.
  intros H. revert w. induction fuel as [|fuel IH]; intros w; [done|]. rewrite draw_cookie_S. cbv zeta.
  unfold cookie_draw at 1. rewrite H. cbn [negb]. apply IH.
Qed.
(** What the objects of a successful creation have in common. *)
Definition fresh (c : rudp_context) : Prop :=
  ctx_ok c /\ queue c = [] /\ refcount c = 1 /\ destroying c = false /\ inited c = false.

(** Every socket call succeeds. *)
Definition sockets_ok : Prop := (forall n f, 0 <= sys_socket n f) /\ (forall n, sys_bind n = true).
Definition ports_ok : Prop := forall n p, sys_getsockname n = Some p -> 0 <= p < 2 ^ 32.

(** The object is fresh, or a socket call failed; what waits in the socket is
    left there. *)
Definition made (i : list datagram) (r : res (bool * aworld)) : Prop :=
  match r with
  | Ok (true, w') => a_freed w' = false /\ fresh (a_ctx w') /\ a_in w' = i
  | Ok (false, _) => ~ sockets_ok
  | _ => False
  end.

(** Filling a key array keeps a fresh context fresh. *)
Lemma fill_fresh n set w i (f : unit -> St aworld bool) :
  rand_ok rand -> 0 <= n -> a_freed w = false -> fresh (a_ctx w) -> a_in w = i ->
  (forall c l, fresh c -> len l = n -> fresh (set l c)) ->
  (forall w', a_freed w' = false -> fresh (a_ctx w') -> a_in w' = i -> made i (f tt w')) -> made i ((fill rand n set ≫= f) w).
Proof.
  intros Hr Hn Hf Hc Hi Hset HQ.
  set (w' := w <| a_rands := S (a_rands w) |> <| a_ctx := set (rand (a_rands w) n).2 (a_ctx w) |>).
  rewrite (St_step _ _ w tt w'); [|unfold fill; run; by rewrite modify_c_ok].
  apply HQ; [exact Hf| |exact Hi]. apply Hset; [done|]. by apply Hr.
Qed.

Lemma queue_calloc c : recv_queue_count c = 0 -> queue c = [].
Proof. unfold queue, ring_view. intros ->. by rewrite tk_0. Qed.

Lemma fresh_calloc cl fd port : 0 <= port < 2 ^ 32 ->
  fresh (ctx_calloc <| refcount := 1 |> <| destroying := false |> <| is_client_mode := cl |> <| version := 1 |>
    <| mss := RUDP_DEFAULT_MSS |> <| max_udp_packet_size := RUDP_MAX_UDP_PACKET_IPV4 |> <| udp_fd := -1 |>
    <| udp_fd := fd |> <| my_port := port |> <| is_ipv6 := false |>).
Proof.
  intros Hp. split; [|by split_and!]. split; [|split; [|split; [by left|split; [by left|]]]].
  3: { cbn. unfold RUDP_CWIN_MAX. lia. }
  2: { split_and!; try reflexivity; try apply Hp; by vm_compute. }
  - split; [reflexivity|]. split; [|by split_and!].
    apply Forall_replicate. split; [done|]. split; [done|]. apply bytes_ok_zeros.
Qed.

(** Setting a key, an IV or a cookie. *)
Ltac set_keys :=
  intros c l [(Hq & Hk & Hrest) Hf'] Hl; split;
    [split; [exact Hq|split; [unfold keys_ok in *;
      keys_reduce; tauto|exact Hrest]]|exact Hf'].

Lemma fresh_cookies c a b : fresh c -> 0 <= a < 2 ^ 32 -> fresh (c <| my_cookie := a |> <| your_cookie := b |>).
Proof. intros Hf Ha. revert c a Hf Ha. set_keys. Qed.

Lemma close_fd_ok w : a_freed w = false ->
  exists w' fd, close_fd w = Ok (tt, w') /\ a_freed w' = false /\ a_in w' = a_in w /\ a_sys w' = a_sys w /\
    a_ctx w' = (a_ctx w) <| udp_fd := fd |>.
Proof.
  intros Hf. unfold close_fd. rewrite Hf. destruct (_ >=? 0); [by eexists _, (-1)|].
  exists w, (udp_fd (a_ctx w)). split_and!; try done. by destruct (a_ctx w).
Qed.

(** A socket call fails or gives the context a socket, with the port and the
    family that belong to it; nothing else changes. *)
Lemma create_socket_ok family w : ports_ok -> a_freed w = false ->
  exists r w' fd port v6, rudp_create_udp_socket sys_socket sys_bind sys_getsockname family w = Ok (r, w') /\
    a_freed w' = false /\ a_in w' = a_in w /\ (port = my_port (a_ctx w) \/ 0 <= port < 2 ^ 32) /\
    a_ctx w' = (a_ctx w) <| udp_fd := fd |> <| my_port := port |> <| is_ipv6 := v6 |> /\
    (r = 0 /\ v6 = (family =? AF_INET6) \/ r = -1 /\ (sockets_ok -> family <> AF_INET /\ family <> AF_INET6)).
Proof.
  intros Hports Hf. unfold rudp_create_udp_socket.
  assert (Hfail : forall w1 fd, a_freed w1 = false -> a_in w1 = a_in w -> a_ctx w1 = (a_ctx w) <| udp_fd := fd |> ->
    (sockets_ok -> family <> AF_INET /\ family <> AF_INET6) ->
    exists r w' fd port v6, Ok (-1, w1) = Ok (r, w') /\ a_freed w' = false /\ a_in w' = a_in w /\
      (port = my_port (a_ctx w) \/ 0 <= port < 2 ^ 32) /\
      a_ctx w' = (a_ctx w) <| udp_fd := fd |> <| my_port := port |> <| is_ipv6 := v6 |> /\
      (r = 0 /\ v6 = (family =? AF_INET6) \/ r = -1 /\ (sockets_ok -> family <> AF_INET /\ family <> AF_INET6))).
  { intros w1 fd Hf1 Hi1 Hc1 Hn. exists (-1), w1, fd, (my_port (a_ctx w)), (is_ipv6 (a_ctx w)). split_and!; try done; [by left|by right]. }
  destruct (negb _ && _) eqn:Efam.
  { apply (Hfail w (udp_fd (a_ctx w))); [done|done|by destruct (a_ctx w)|]. intros _. split; intros ->; discriminate Efam. }
  destruct (close_fd_ok w Hf) as (w1 & fd1 & E1 & Hf1 & Hi1 & Hs1 & Hc1). rewrite (St_step _ _ _ _ _ E1).
  run. run. destruct (_ <? 0) eqn:E.
  { eapply Hfail; [exact Hf1|exact Hi1|cbn; by rewrite Hc1|]. intros [Hs _]. pose proof (Hs (a_sys w1) family). lia. }
  run. destruct (sys_bind _) eqn:Eb; cbn [negb].
  - run. run. set (w2 := _ <| a_ctx := _ |>).
    exists 0, w2, (sys_socket (a_sys w1) family), (match sys_getsockname (S (S (a_sys w1))) with Some p => p | None => my_port (a_ctx w) end),
      (family =? AF_INET6).
    split_and!; [done|exact Hf1|exact Hi1| |cbn; by rewrite Hc1|by left].
    destruct (sys_getsockname _) eqn:Ep; [right; by eapply Hports|by left].
  - match goal with |- context [(close_fd ≫= _) ?v] => destruct (close_fd_ok v Hf1) as (w3 & fd3 & E3 & Hf3 & Hi3 & _ & Hc3) end.
    rewrite (St_step _ _ _ _ _ E3). run.
    eapply Hfail; [exact Hf3|cbn; by rewrite Hi3|cbn; rewrite Hc3; cbn; by rewrite Hc1|].
    intros [_ Hb]. rewrite Hb in Eb. discriminate Eb.
Qed.

(** [fresh] but for the keys, which are arrays of the right size. *)
Lemma create_setup_ok b w :
  rand_ok rand -> ports_ok -> a_freed w = false -> made (a_in w) (create_setup rand sys_socket sys_bind sys_getsockname b w).
Proof.
  intros Hr Hports Hf. unfold create_setup. run.
  set (w1 := w <| a_ctx := _ |>). assert (Hf1 : a_freed w1 = false) by exact Hf.
  change (a_in w) with (a_in w1).
  destruct (create_socket_ok AF_INET w1 Hports Hf1) as (r & w2 & fd & port & v6 & E & Hf2 & <- & Hp & Hc2 & Hres).
  rewrite (St_step _ _ _ _ _ E). destruct Hres as [[-> ->]|[-> Hn]].
  - change (negb (0 =? 0)) with false. cbv iota.
    assert (Hfr : fresh (a_ctx w2)) by (rewrite Hc2; apply fresh_calloc; destruct Hp as [-> |]; [vm_compute; by split|done]).
    remember (a_in w2) as i eqn:Hi. apply symmetry in Hi. clear dependent w1 w.
    do 6 (apply fill_fresh; [done|lia|done|done|done|set_keys|clear dependent w2; intros w2 Hf2 Hfr Hi]).
    by split_and!.
  - change (negb (-1 =? 0)) with true. cbv iota. run. intros Hs. by destruct (Hn Hs).
Qed.

Lemma draw_cookie_inv fuel bad w v w' : rand_ok rand -> draw_cookie rand fuel bad w = Ok (v, w') ->
  0 <= v < 2 ^ 32 /\ exists k, w' = w <| a_rands := k |>.
Proof.
  intros Hr. revert w. induction fuel as [|fuel IH]; intros w; [discriminate|]. rewrite draw_cookie_S. cbv zeta.
  destruct (bad _); [|intros [= <- <-]; split; [by apply cookie_draw_range|by eexists]].
  intros E. apply IH in E as [Hv [k ->]]. split; [exact Hv|by exists k].
Qed.

(** A context that was created is fresh, and what waits in its socket stays. *)
Lemma create_keeps fuel b w w' : rand_ok rand -> ports_ok -> a_freed w = false -> rudp_create fuel b w = Ok (true, w') ->
  a_freed w' = false /\ fresh (a_ctx w') /\ a_in w' = a_in w.
Proof.
  intros Hr Hp Hf. pose proof (create_setup_ok b w Hr Hp Hf) as Hm. unfold Accel.rudp_create.
  destruct (create_setup _ _ _ _ b w) as [| |[[] w1]] eqn:E; [done..| |rewrite (St_step _ _ _ _ _ E); discriminate].
  destruct Hm as (Hf1 & Hc1 & Hi1). rewrite (St_step _ _ _ _ _ E). cbn [negb].
  unfold mbind at 1, St_bind at 1. destruct (draw_cookie rand fuel _ w1) as [| |[mine w2]] eqn:E1; try discriminate.
  apply draw_cookie_inv in E1 as [Hv [k ->]]; [|done]. run.
  unfold mbind at 1, St_bind at 1. destruct (draw_cookie rand fuel _ _) as [| |[yours w3]] eqn:E2; try discriminate.
  apply draw_cookie_inv in E2 as [_ [k2 ->]]; [|done]. run. run. run. intros [= <-].
  split; [exact Hf1|]. split; [exact (fresh_cookies _ mine yours Hc1 Hv)|exact Hi1].
Qed.

(** When the CSPRNG gives, within [fuel] draws from anywhere, a value
    other than zero and any given cookie, creation returns a well-formed,
    unshared context whose two cookies are non-zero and distinct, with an
    empty receive queue; a packet cannot be accepted before the keys are set
    because the context is not initialised. *)
Theorem create_cookies (fuel : nat) (b : bool) (w : aworld) :
  rand_ok rand -> ports_ok -> sockets_ok -> a_freed w = false ->
  (forall k x, exists j, (j < fuel)%nat /\ cookie_draw (k + j) <> 0 /\ cookie_draw (k + j) <> x) ->
  exists w', rudp_create fuel b w = Ok (true, w') /\ a_freed w' = false /\ fresh (a_ctx w') /\
    my_cookie (a_ctx w') <> 0 /\ your_cookie (a_ctx w') <> 0 /\ my_cookie (a_ctx w') <> your_cookie (a_ctx w').
Proof.
  intros Hr Hp Hs Hf Hd. unfold Accel.rudp_create.
  pose proof (create_setup_ok b w Hr Hp Hf) as Hm. destruct (create_setup _ _ _ _ b w) as [| |[[] w1]] eqn:E; [done..| |by destruct Hm].
  destruct Hm as (Hf1 & Hc1 & _). rewrite (St_step _ _ _ _ _ E). cbn [negb].
  destruct (Hd (a_rands w1) 0) as (j & Hj & Hj0 & _).
  destruct (draw_cookie_ok fuel (fun v => v =? 0) w1 j Hj) as (mine & k1 & E1 & Hm & Hmr); [done|lia|].
  rewrite (St_step _ _ _ _ _ E1). run.
  set (w2 := _ <| a_ctx := _ |>). assert (Hf2 : a_freed w2 = false) by exact Hf1.
  destruct (Hd (a_rands w2) mine) as (j2 & Hj2 & Hj20 & Hj2m).
  destruct (draw_cookie_ok fuel (fun v => (v =? 0) || (v =? mine)) w2 j2 Hj2) as (yours & k2 & E2 & Hy & _); [done|lia|].
  rewrite (St_step _ _ _ _ _ E2). run. run. run.
  eexists. split; [reflexivity|]. split; [exact Hf1|]. split; [exact (fresh_cookies _ mine yours Hc1 Hmr)|]. cbn. lia.
Qed.

(** When the CSPRNG keeps failing, [rudp_create] never returns: no number
    of draws ends its first cookie loop. *)
Theorem create_hangs (fuel : nat) (b : bool) (w : aworld) :
  rand_ok rand -> ports_ok -> sockets_ok -> a_freed w = false ->
  (forall k, (rand k 4).1 = false) -> rudp_create fuel b w = Err.
Proof.
  intros Hr Hp Hs Hf Hfail. unfold Accel.rudp_create.
  pose proof (create_setup_ok b w Hr Hp Hf) as Hm. destruct (create_setup _ _ _ _ b w) as [| |[[] w1]] eqn:E; [done..| |by destruct Hm].
  rewrite (St_step _ _ _ _ _ E). cbn [negb].
  unfold mbind at 1, St_bind at 1. by rewrite draw_cookie_fail.
Qed.
End create.

Lemma create_cookies_witness : exists w',
  rudp_create ex_tick ex_rand (fun _ _ => 5) (fun _ => true) (fun _ => Some 1000) 3 true (ex_world 1 []) = Ok (true, w') /\
  a_freed w' = false /\ fresh (a_ctx w') /\
  my_cookie (a_ctx w') <> 0 /\ your_cookie (a_ctx w') <> 0 /\ my_cookie (a_ctx w') <> your_cookie (a_ctx w').
Proof.
  apply (create_cookies ex_tick ex_rand (fun _ _ => 5) (fun _ => true) (fun _ => Some 1000) 3 true (ex_world 1 []) ax_rand_ok);
    [by intros n p [= <-]|by split; intros; lia|done|].
  intros k x. assert (Hv : forall k, cookie_draw ex_rand k = u8 (Z.of_nat k + 1) * 16843009).
  { intros k'. unfold cookie_draw. cbn [ex_rand fst snd negb].
    change (replicate (Z.to_nat 4) (u8 (Z.of_nat k' + 1))) with (replicate 4 (u8 (Z.of_nat k' + 1))).
    cbn [replicate]. rewrite r32_dec by (repeat constructor; apply byte_ok_u8). cbn [be_dec fold_left]. lia. }
  pose proof (Z.div_mod (Z.of_nat k + 1) 256) as D1. pose proof (Z.mod_pos_bound (Z.of_nat k + 1) 256) as B1.
  assert (H : forall j, 0 <= j <= 2 -> u8 (Z.of_nat k + j + 1) =
    (if (Z.of_nat k + 1) mod 256 + j <? 256 then (Z.of_nat k + 1) mod 256 + j else (Z.of_nat k + 1) mod 256 + j - 256)).
  { intros j Hj. unfold u8. change (2 ^ 8) with 256. destruct (_ <? _) eqn:E; symmetry.
    - apply (Z.mod_unique _ _ ((Z.of_nat k + 1) / 256)); lia.
    - apply (Z.mod_unique _ _ ((Z.of_nat k + 1) / 256 + 1)); lia. }
  pose proof (H 0 ltac:(lia)) as H0. pose proof (H 1 ltac:(lia)) as H1. pose proof (H 2 ltac:(lia)) as H2.
  assert (E : forall j : nat, cookie_draw ex_rand (k + j) = u8 (Z.of_nat k + Z.of_nat j + 1) * 16843009)
    by (intros j; rewrite Hv; do 2 f_equal; lia).
  pose proof (E 0%nat) as E0. pose proof (E 1%nat) as E1. pose proof (E 2%nat) as E2. change (Z.of_nat 0) with 0 in E0. change (Z.of_nat 1) with 1 in E1. change (Z.of_nat 2) with 2 in E2.
  rewrite H0 in E0. rewrite H1 in E1. rewrite H2 in E2. clear H0 H1 H2.
  clear E H Hv. set (m := (Z.of_nat k + 1) mod 256) in *.
  destruct (decide (cookie_draw ex_rand (k + 0) <> 0 /\ cookie_draw ex_rand (k + 0) <> x)); [by exists 0%nat; split; [lia|]|].
  destruct (decide (cookie_draw ex_rand (k + 1) <> 0 /\ cookie_draw ex_rand (k + 1) <> x)); [by exists 1%nat; split; [lia|]|].
  exists 2%nat. split; [lia|].
  rewrite E0 in *. rewrite E1 in *. rewrite E2 in *. clear E0 E1 E2.
  destruct (m + 0 <? 256) eqn:?, (m + 1 <? 256) eqn:?, (m + 2 <? 256) eqn:?; lia.
Defined.

Definition bad_rand (n : nat) (k : Z) : bool * list Z := (false, zeros k).

Lemma create_hangs_witness :
  rudp_create ex_tick bad_rand (fun _ _ => 5) (fun _ => true) (fun _ => None) 1000 true (ex_world 1 []) = Err.
Proof.
  apply (create_hangs ex_tick bad_rand (fun _ _ => 5) (fun _ => true) (fun _ => None)); [|done|by split; intros; lia|done|done].
  intros k n Hn. split; [cbn; slia|apply bytes_ok_zeros].
Defined.
