(* ===== verification/Refcount.v ===== *)
(** * UDP acceleration: the lifetime of the context across threads
    (softether_rudp.c)

    [rudp_ref_acquire], [rudp_ref_release], [rudp_destroy] and
    [rudp_destroy_final] as a step relation on a shared counter and any number
    of threads: one step per read, compare-and-swap or subtraction of the C
    code, interleaved in every way. Nested entry (a poll that sends a
    keep-alive) is a second acquisition by a thread that already holds one. *)
From S2P Require Import Prelude.

(** Where a thread is; the argument is the local [old]. *)
Inductive pc : Type :=
| Out                   (** outside every entry point *)
| AcqLoad               (** [int old = ctx->refcount] *)
| AcqFlag (old : Z)     (** [if (ctx->destroying) return 0] *)
| AcqCas (old : Z)      (** the compare-and-swap *)
| AcqRecheck            (** the second look at [destroying] *)
| Body                  (** inside the call, holding a reference *)
| RelSub                (** [__sync_sub_and_fetch] of a release *)
| DesSet                (** [rudp_destroy]: [destroying = 1] *)
| DesSub                (** [rudp_destroy]: drop the owner's reference *)
| Final.                (** [rudp_destroy_final] *)

Record thread := Thread { t_held : Z; t_pc : pc }.

Record shared := Shared {
  rc_count : Z; rc_destroying : bool;
  rc_frees : Z;           (** times [free(ctx)] has run *)
  rc_owner : bool;        (** the creator's reference is outstanding *)
  rc_called : bool;       (** [rudp_destroy] has been called *)
  rc_threads : list thread }.
#[export] Instance eta_shared : Eta shared := fun s => Shared
  (rc_count s) (rc_destroying s) (rc_frees s) (rc_owner s) (rc_called s) (rc_threads s).

(** What a thread may choose to do; [Go] runs the next atomic access. *)
Inductive act : Type := Enter | Leave | Destroy | Go.

Definition acquiring (t : thread) : bool :=
  match t_pc t with AcqLoad | AcqFlag _ | AcqCas _ => true | _ => false end.
(** Acquiring its first reference: nothing protects the context for it yet. *)
Definition exposed (t : thread) : bool := acquiring t && (t_held t =? 0).

(** The call returns: to the enclosing call when one is active. *)
Definition back (t : thread) : thread :=
  Thread (t_held t) (if t_held t =? 0 then Out else Body).
Definition at_pc (p : pc) (t : thread) : thread := Thread (t_held t) p.

Definition put_t (i : nat) (t : thread) (s : shared) : shared :=
  s <| rc_threads := <[i := t]> (rc_threads s) |>.

(** [rudp_ref_acquire], one access at a time. *)
Definition acquire_step (i : nat) (t : thread) (s : shared) : option shared :=
  match t_pc t with
  | AcqLoad => Some (put_t i (if rc_count s <=? 0 then back t else at_pc (AcqFlag (rc_count s)) t) s)
  | AcqFlag old => Some (put_t i (if rc_destroying s then back t else at_pc (AcqCas old) t) s)
  | AcqCas old =>
      if rc_count s =? old
      then Some (put_t i (Thread (t_held t + 1) AcqRecheck) (s <| rc_count := old + 1 |>))
      else Some (put_t i (at_pc AcqLoad t) s)
  | AcqRecheck => Some (put_t i (at_pc (if rc_destroying s then RelSub else Body) t) s)
  | _ => None
  end.

(** [rudp_ref_release], [rudp_destroy], [rudp_destroy_final]. *)
Definition release_step (i : nat) (t : thread) (s : shared) : option shared :=
  match t_pc t with
  | RelSub =>
      let n := rc_count s - 1 in
      let t := Thread (t_held t - 1) RelSub in
      Some (put_t i (if n =? 0 then at_pc Final t else back t) (s <| rc_count := n |>))
  | DesSet => Some (put_t i (at_pc DesSub t) (s <| rc_destroying := true |>))
  | DesSub =>
      let n := rc_count s - 1 in
      Some (put_t i (at_pc (if n =? 0 then Final else Out) t) (s <| rc_count := n |> <| rc_owner := false |>))
  | Final => Some (put_t i (at_pc Out t) (s <| rc_frees := rc_frees s + 1 |>))
  | _ => None
  end.

(** One step of thread [i]. With [serialized], the callers keep the documented
    convention: [rudp_destroy] is called when no thread is between the start
    of an entry point and its first reference, and no entry point is started
    afterwards. *)
Definition rstep (serialized : bool) (a : act) (i : nat) (s : shared) : option shared :=
  match rc_threads s !! i with
  | None => None
  | Some t =>
      match a with
      | Enter =>
          match t_pc t with
          | Out => if serialized && rc_called s then None else Some (put_t i (at_pc AcqLoad t) s)
          | Body => Some (put_t i (at_pc AcqLoad t) s)
          | _ => None
          end
      | Leave => match t_pc t with Body => Some (put_t i (at_pc RelSub t) s) | _ => None end
      | Destroy =>
          match t_pc t with
          | Out =>
              if rc_called s || (serialized && existsb exposed (rc_threads s)) then None
              else Some (put_t i (at_pc DesSet t) (s <| rc_called := true |>))
          | _ => None
          end
      | Go => match acquire_step i t s with Some s' => Some s' | None => release_step i t s end
      end
  end.

Definition steps_to (serialized : bool) (s s' : shared) : Prop :=
  exists a i, rstep serialized a i s = Some s'.

(** [rudp_create] has returned and [n] threads share the pointer. *)
Definition created (n : nat) : shared := Shared 1 false 0 true false (replicate n (Thread 0 Out)).

(** The next step of the thread reads or writes the context. *)
Definition touches (t : thread) : bool := match t_pc t with Out => false | _ => true end.
Definition use_after_free (s : shared) : Prop := 0 < rc_frees s /\ Exists touches (rc_threads s).

(** ** The invariant *)

Definition sumz (f : thread -> Z) (l : list thread) : Z := foldr (fun t n => f t + n) 0 l.

Lemma sumz_insert f l i t t' :
  l !! i = Some t -> sumz f (<[i := t']> l) = sumz f l - f t + f t'.
Proof.
  revert i. induction l as [|x l IH]; intros [|i] Hi; try done.
  - injection Hi as ->. change (f t' + sumz f l = f t + sumz f l - f t + f t'). lia.
  - specialize (IH i Hi). change (f x + sumz f (<[i:=t']> l) = f x + sumz f l - f t + f t'). lia.
Qed.

Lemma sumz_nonneg f l : (forall t, 0 <= f t) -> 0 <= sumz f l.
Proof. intros H. unfold sumz. induction l as [|x l IH]; cbn; [lia|]. specialize (H x). lia. Qed.

Lemma sumz_pos f l : (forall t, 0 <= f t) -> forall i t, l !! i = Some t -> f t <= sumz f l.
Proof.
  intros H. induction l as [|x l IH]; intros [|i] t Hi; try done; unfold sumz in *; cbn.
  - injection Hi as ->. pose proof (sumz_nonneg f l H). unfold sumz in *. lia.
  - specialize (IH i t Hi). specialize (H x). lia.
Qed.

Lemma sumz_replicate f n t : f t = 0 -> sumz f (replicate n t) = 0.
Proof. intros H. unfold sumz. induction n; cbn; [done|]. rewrite H. lia. Qed.

Definition finals (t : thread) : Z := match t_pc t with Final => 1 | _ => 0 end.
Definition destroyers (t : thread) : Z := match t_pc t with DesSet | DesSub => 1 | _ => 0 end.
Definition exposure (t : thread) : Z := if exposed t then 1 else 0.
Definition held (t : thread) : Z := Z.max 0 (t_held t).

(** Where a thread may be with the references it holds. *)
Definition thread_ok (t : thread) : Prop :=
  match t_pc t with
  | Out | DesSet | DesSub | Final => t_held t = 0
  | AcqLoad | AcqFlag _ | AcqCas _ => 0 <= t_held t
  | AcqRecheck | Body | RelSub => 1 <= t_held t
  end.

Definition b2z (b : bool) : Z := if b then 1 else 0.

Definition rc_inv (s : shared) : Prop :=
  let l := rc_threads s in
  Forall thread_ok l /\
  rc_count s = b2z (rc_owner s) + sumz held l /\
  (rc_called s = true -> sumz exposure l = 0) /\
  (rc_called s = false -> rc_owner s = true) /\
  sumz destroyers l = (if rc_called s then b2z (rc_owner s) else 0) /\
  rc_frees s + sumz finals l = (if rc_count s =? 0 then 1 else 0) /\ 0 <= rc_frees s.

Lemma exposed_none l : existsb exposed l = false -> sumz exposure l = 0.
Proof.
  induction l as [|t l IH]; [done|]. cbn [existsb]. intros H. apply orb_false_iff in H as [H1 H2].
  unfold sumz in *; cbn. rewrite (IH H2). unfold exposure. by rewrite H1.
Qed.

(** Replacing one thread moves the three counts and the sum by its share. *)
Lemma rc_counts i t t' s :
  rc_threads s !! i = Some t ->
  let l := rc_threads s in let l' := <[i := t']> l in
  sumz held l' = sumz held l - held t + held t' /\
  sumz exposure l' = sumz exposure l - exposure t + exposure t' /\
  sumz destroyers l' = sumz destroyers l - destroyers t + destroyers t' /\
  sumz finals l' = sumz finals l - finals t + finals t' /\
  0 <= sumz held l /\ 0 <= sumz exposure l /\ 0 <= sumz finals l /\
  held t <= sumz held l /\ exposure t <= sumz exposure l /\ finals t <= sumz finals l /\
  destroyers t <= sumz destroyers l.
Proof.
  intros Hi l l'. subst l l'. rewrite !(sumz_insert _ _ _ _ _ Hi).
  assert (H1 : forall t, 0 <= held t) by (unfold held; lia).
  assert (H2 : forall t, 0 <= exposure t) by (intros x; unfold exposure; case_match; lia).
  assert (H3 : forall t, 0 <= finals t) by (intros x; unfold finals; case_match; lia).
  assert (H4 : forall t, 0 <= destroyers t) by (intros x; unfold destroyers; case_match; lia).
  split_and!; eauto using sumz_nonneg, sumz_pos.
Qed.

(** Closes one case of the step: the counts of the replaced thread, then
    arithmetic. *)
Ltac rc_close :=
  unfold rc_inv, put_t;
  cbn [rc_count rc_destroying rc_frees rc_owner rc_called rc_threads upd eta_shared];
  match goal with
  | Hn : forall _, _, Hins : forall _, thread_ok _ -> _ |- context [<[?i := ?t']> ?l] =>
      let Ha := fresh in pose proof (Hn t') as Ha; clear Hn;
      split; [apply Hins|clear Hins; revert Ha; generalize (<[i := t']> l); intros ? Ha];
      repeat match goal with
             | H : context [sumz ?f ?k] |- _ => let x := fresh in set (x := sumz f k) in *; clearbody x
             | |- context [sumz ?f ?k] => let x := fresh in set (x := sumz f k) in *; clearbody x
             end;
      unfold thread_ok, back, at_pc, held, exposure, exposed, acquiring, destroyers, finals, b2z in *;
      cbn [t_held t_pc andb] in *
  end;
  repeat match goal with
         | |- context [?x =? 0] => destruct (Z.eqb_spec x 0)
         | H : context [?x =? 0] |- _ => destruct (Z.eqb_spec x 0)
         end; cbn [t_held t_pc andb] in *; try lia; split_and!; intros; try done; try lia.

Lemma rc_inv_step s s' : rc_inv s -> steps_to true s s' -> rc_inv s'.
Proof.
  intros (Hf & Hc & He & Ho & Hd & Hz & Hz0) (a & i & Hs). unfold rstep in Hs.
  destruct (rc_threads s !! i) as [t|] eqn:Hi; [|done].
  pose proof (Forall_lookup_1 _ _ _ _ Hf Hi) as Ht.
  pose proof (fun t' => rc_counts i t t' s Hi) as Hn. cbv zeta in Hn.
  assert (Hins : forall t', thread_ok t' -> Forall thread_ok (<[i := t']> (rc_threads s)))
    by (intros; by apply Forall_insert).
  destruct s as [n ds fr ow ca l]; cbn [rc_count rc_destroying rc_frees rc_owner rc_called rc_threads] in *.
  destruct t as [h p]. unfold thread_ok in Ht; cbn [t_pc t_held] in *.
  assert (Hflags : (ca = true /\ ow = true) \/ (ca = true /\ ow = false) \/ (ca = false /\ ow = true))
    by (destruct ca, ow; auto).
  assert (Hwin : ca = false -> existsb exposed l = false -> sumz exposure l = 0) by (intros _; apply exposed_none).
  destruct Hflags as [[-> ->]|[[-> ->]|[-> ->]]]; try specialize (He eq_refl); clear Ho;
    destruct a; destruct p; cbn [acquire_step release_step t_pc rc_count rc_destroying andb orb negb] in Hs;
    repeat (discriminate || (progress case_match)); simplify_eq; try specialize (Hwin eq_refl eq_refl); rc_close.
Qed.

Lemma created_inv n : rc_inv (created n).
Proof.
  unfold rc_inv, created; cbn [rc_count rc_destroying rc_frees rc_owner rc_called rc_threads].
  rewrite !sumz_replicate by done. split; [by apply Forall_replicate|]. by split_and!.
Qed.

Lemma quiet_sums l : Forall thread_ok l -> Forall (fun t => t_pc t = Out) l ->
  sumz held l = 0 /\ sumz finals l = 0 /\ sumz destroyers l = 0.
Proof.
  intros Hok. induction Hok as [|[h p] l Ht Hl IH]; intros Hq; [done|].
  apply Forall_cons_1 in Hq as [Hp Hq]. cbn in Hp; subst p. unfold thread_ok in Ht; cbn in Ht.
  destruct (IH Hq) as (H1 & H2 & H3). subst h.
  change (held (Thread 0 Out) + sumz held l = 0 /\ finals (Thread 0 Out) + sumz finals l = 0 /\
    destroyers (Thread 0 Out) + sumz destroyers l = 0). by rewrite H1, H2, H3.
Qed.

(** When nothing is counted, no thread can touch the object. *)
Lemma dead_quiet s t : rc_inv s -> 0 < rc_frees s -> t ∈ rc_threads s -> touches t = false.
Proof.
  intros (Hf & Hc & He & Ho & Hd & Hz & Hz0) Hfr Ht.
  apply list_elem_of_lookup_1 in Ht as [i Hi]. pose proof (rc_counts i t t s Hi) as Hn. cbv zeta in Hn.
  pose proof (Forall_lookup_1 _ _ _ _ Hf Hi) as Hok. destruct t as [h p].
  assert (rc_count s = 0 /\ rc_owner s = false) as [Hc0 Ho0].
  { destruct (Z.eqb_spec (rc_count s) 0) as [E|E]; [|lia]. split; [done|].
    destruct (rc_owner s); [|done]. unfold b2z in Hc. lia. }
  rewrite Ho0 in Hd, Hc. rewrite Hc0 in Hz, Hc. change (b2z false) with 0 in Hd, Hc. cbn [Z.eqb] in Hz.
  assert (Hcall : rc_called s = true) by (destruct (rc_called s); [done|by specialize (Ho eq_refl); congruence]).
  specialize (He Hcall). rewrite Hcall in Hd.
  revert Hn Hok Hz Hc He Hd. generalize (sumz finals (rc_threads s)) (sumz held (rc_threads s))
    (sumz destroyers (rc_threads s)) (sumz exposure (rc_threads s)). intros k1 k2 k3 k4.
  unfold thread_ok, touches, held, finals, destroyers, exposure, exposed, acquiring; cbn [t_pc t_held].
  destruct p; intros Hn Hok Hz Hc He Hd; try done; cbn [andb] in Hn; try lia; destruct (Z.eqb_spec h 0); lia.
Qed.

(** C16: For any number of threads polling, sending, receiving (nested or not)
    and destroying, interleaved access by access under the documented calling
    convention: the counter is exactly the outstanding references, the context
    is freed at most once, no thread's next step ever touches it after that,
    and once [rudp_destroy] was called and every call has returned it has been
    freed. *)
Theorem refcount_lifetime (n : nat) (s : shared) :
  star (steps_to true) (created n) s ->
  rc_count s = b2z (rc_owner s) + sumz held (rc_threads s) /\ rc_frees s <= 1 /\ ~ use_after_free s /\
  (rc_called s = true -> Forall (fun t => t_pc t = Out) (rc_threads s) -> rc_frees s = 1).
Proof.
  intros Hs. assert (Hi : rc_inv s)
    by (exact (star_invariant _ rc_inv _ _ rc_inv_step (created_inv n) Hs)).
  pose proof Hi as (Hf & Hc & He & Ho & Hd & Hz & Hz0). split; [done|]. split; [|split].
  - assert (0 <= sumz finals (rc_threads s)).
    { apply sumz_nonneg. intros x. unfold finals. by destruct (t_pc x). }
    clear - Hz H. destruct (rc_count s =? 0); lia.
  - intros [Hfr Hex]. apply Exists_exists in Hex as (t & Ht & Htouch).
    pose proof (dead_quiet s t Hi Hfr Ht) as E. by rewrite E in Htouch.
  - intros Hcall Hq. destruct (quiet_sums _ Hf Hq) as (H1 & H2 & H3). rewrite Hcall in Hd.
    destruct (rc_owner s); [rewrite H3 in Hd; done|]. rewrite Hc, H1, H2 in Hz.
    change (rc_frees s + 0 = 1) in Hz. clear - Hz. lia.
Qed.

(** Runs a schedule of steps. *)
Fixpoint schedule (serialized : bool) (l : list (act * nat)) (s : shared) : option shared :=
  match l with
  | [] => Some s
  | (a, i) :: l => match rstep serialized a i s with Some s => schedule serialized l s | None => None end
  end.

Lemma schedule_star b l s s' : schedule b l s = Some s' -> star (steps_to b) s s'.
Proof.
  revert s. induction l as [|[a i] l IH]; intros s; cbn [schedule]; [intros [= ->]; constructor|].
  destruct (rstep b a i s) as [s1|] eqn:E; [|done]. intros H. econstructor; [by exists a, i|]. by apply IH.
Qed.

(** A poll overtaken by the teardown: the last reference is the poll's. *)
Definition teardown_race : list (act * nat) :=
  [(Enter, 0%nat); (Go, 0%nat); (Go, 0%nat); (Go, 0%nat); (Go, 0%nat);
   (Destroy, 1%nat); (Go, 1%nat); (Go, 1%nat);
   (Enter, 0%nat); (Go, 0%nat); (Go, 0%nat); (Leave, 0%nat); (Go, 0%nat); (Go, 0%nat)].

Definition race_end : shared := default (created 2) (schedule true teardown_race (created 2)).

Lemma refcount_lifetime_witness :
  rc_frees race_end = 1 /\ rc_frees race_end <= 1 /\ ~ use_after_free race_end.
Proof.
  split; [vm_compute; reflexivity|].
  destruct (refcount_lifetime 2 race_end) as (_ & H1 & H2 & _); [|by split].
  apply (schedule_star true teardown_race). vm_compute. reflexivity.
Defined.

(** A reader stopped between its load and its swap. *)
Definition late_reader : list (act * nat) :=
  [(Enter, 0%nat); (Go, 0%nat); (Go, 0%nat); (Destroy, 1%nat); (Go, 1%nat); (Go, 1%nat); (Go, 1%nat)].

(** Without the calling convention the counter does not protect the
    context: a thread that has read a positive counter but not yet swapped it
    still touches the context after another thread's [rudp_destroy] freed it. *)
Theorem refcount_needs_serialization :
  exists s, star (steps_to false) (created 2) s /\ use_after_free s.
Proof.
  exists (default (created 2) (schedule false late_reader (created 2))). split.
  - apply (schedule_star false late_reader). vm_compute. reflexivity.
  - split; [vm_compute; reflexivity|]. vm_compute. left. exact I.
Qed.
