(* ===== verification/Conn.v ===== *)
(** * The connection object and its sockets (softether_protocol.h)

    [connection] is the part of [softether_connection_t] the data plane uses:
    the primary link, 32 slots for additional links, the receive queue, the
    staging buffer and the counters. [cworld] adds what surrounds it: for
    every socket the events the next reads and writes will meet, the bytes
    written so far, the coming results of [poll] and [ssl_has_pending], the
    clock and [rand] positions, and the TLS contexts and descriptors released.
    Using a released TLS context is [Ub].

    The UDP accelerator is reached through the interface [Accelerator]; its
    laws are in [AcceleratorLaws]. The null checks on the arguments and the
    mutexes have no counterpart here: one thread runs at a time. *)
From stdpp Require Import functions.
From S2P Require Import Prelude Bytes Ring Crypto.

Definition KEEP_ALIVE_MAGIC : Z := 0xFFFFFFFF.
Definition MAX_BLOCK_SIZE : Z := 1600 * 1600.
Definition COMPRESS_MAGIC : Z := 0xDEADBEEFCAFEFACE.
Definition MAX_SE_CONNECTIONS : Z := 32.
Definition ADDITIONAL_CONNECT_INTERVAL_MS : Z := 1000.
Definition TCP_DIRECTION_BOTH : Z := 0.
Definition TCP_DIRECTION_SERVER_TO_CLIENT : Z := 1.
Definition TCP_DIRECTION_CLIENT_TO_SERVER : Z := 2.
Definition CMD_DATA : Z := 12.
Definition CMD_KEEPALIVE : Z := 13.
Definition CMD_KEEPALIVE_ACK : Z := 14.
Definition RECV_QUEUE_SIZE : Z := 64.
Definition MAX_QUEUED_FRAME : Z := 2048.
Definition ETH_HEADER_SIZE : Z := 14.

(** [poll] event bits. *)
Definition POLLIN : Z := 1.
Definition POLLERR : Z := 8.
Definition POLLHUP : Z := 16.
Definition POLLNVAL : Z := 32.
Definition has (flag revents : Z) : bool := negb (Z.land revents flag =? 0).

Inductive softether_state : Type :=
| STATE_DISCONNECTED | STATE_CONNECTING | STATE_TLS_HANDSHAKE | STATE_PROTOCOL_HANDSHAKE
| STATE_AUTHENTICATING | STATE_SESSION_SETUP | STATE_CONNECTED | STATE_DISCONNECTING.
#[global] Instance state_eq_dec : EqDecision softether_state.
Proof. solve_decision. Defined.

(** [queued_frame_t]: the 2048-byte array and its used length. *)
Record queued_frame := Frame { qf_data : list Z; qf_len : Z }.

(** [softether_tcp_sock_t]. A TLS context pointer is a number, 0 for NULL. *)
Record tcp_sock := Sock {
  ts_fd : Z; ts_ssl_ctx : Z; ts_ssl : Z; ts_direction : Z; ts_last_recv : Z;
  ts_late_count : Z; ts_active : bool }.
#[export] Instance eta_sock : Eta tcp_sock := fun s => Sock
  (ts_fd s) (ts_ssl_ctx s) (ts_ssl s) (ts_direction s) (ts_last_recv s) (ts_late_count s) (ts_active s).

Record connection := Conn {
  c_socket_fd : Z; c_ssl_ctx : Z; c_ssl : Z; c_state : softether_state; c_abort_connect : bool;
  c_server_use_compress : bool; c_server_timeout : Z; c_use_ssl_data : bool;
  c_session_established : bool; c_client_mac : list Z;
  c_gateway_mac : list Z; c_gateway_mac_resolved : bool; c_gateway_ip : Z; c_assigned_ip : Z;
  c_recv_queue : list queued_frame; c_recv_queue_head : Z; c_recv_queue_tail : Z;
  c_recv_queue_count : Z; c_rx_skipped_blocks : Z; c_rudp_enabled : bool;
  c_additional : list tcp_sock; c_num_additional : Z; c_max_connection : Z;
  c_primary_direction : Z; c_next_connect_time : Z; c_additional_failed_count : Z;
  c_additional_connecting : bool; c_additional_connect_slot : Z; c_additional_connect_result : Z;
  c_send_rr_idx : Z; c_next_tcp_keepalive_time : Z; c_send_block : option (list Z);
  c_send_block_cap : Z; c_stats_tx_packets : Z; c_stats_tx_bytes : Z;
  c_stats_rx_packets : Z; c_stats_rx_bytes : Z }.
#[export] Instance eta_connection : Eta connection := fun c => Conn
  (c_socket_fd c) (c_ssl_ctx c) (c_ssl c) (c_state c) (c_abort_connect c)
  (c_server_use_compress c) (c_server_timeout c) (c_use_ssl_data c)
  (c_session_established c) (c_client_mac c)
  (c_gateway_mac c) (c_gateway_mac_resolved c) (c_gateway_ip c) (c_assigned_ip c)
  (c_recv_queue c) (c_recv_queue_head c) (c_recv_queue_tail c)
  (c_recv_queue_count c) (c_rx_skipped_blocks c) (c_rudp_enabled c)
  (c_additional c) (c_num_additional c) (c_max_connection c)
  (c_primary_direction c) (c_next_connect_time c) (c_additional_failed_count c)
  (c_additional_connecting c) (c_additional_connect_slot c) (c_additional_connect_result c)
  (c_send_rr_idx c) (c_next_tcp_keepalive_time c) (c_send_block c)
  (c_send_block_cap c) (c_stats_tx_packets c) (c_stats_tx_bytes c)
  (c_stats_rx_packets c) (c_stats_rx_bytes c).

(** ** Directions and selection *)

Definition can_send (d : Z) : bool :=
  (d =? TCP_DIRECTION_BOTH) || (d =? TCP_DIRECTION_CLIENT_TO_SERVER).
Definition can_receive (d : Z) : bool :=
  (d =? TCP_DIRECTION_BOTH) || (d =? TCP_DIRECTION_SERVER_TO_CLIENT).

(** The primary link is open and may send. *)
Definition primary_sends (c : connection) : bool :=
  (c_socket_fd c >=? 0) && negb (c_ssl c =? 0) && can_send (c_primary_direction c).

(** The slots that pass [p], by increasing index. *)
Definition slots (p : tcp_sock -> bool) (c : connection) : list Z :=
  omap (fun '(i, ts) => if p ts then Some (Z.of_nat i) else None) (imap pair (c_additional c)).

Definition slot_sends (ts : tcp_sock) : bool := ts_active ts && can_send (ts_direction ts).

(** The send-capable sockets: 0 is the primary link, [i + 1] slot [i]. *)
Definition send_candidates (c : connection) : list Z :=
  (if primary_sends c then [0] else []) ++ map (Z.add 1) (slots slot_sends c).

(** The socket the next block goes to and the connection with the round-robin
    index advanced. *)
Definition softether_select_send_socket (c : connection) : res (Z * connection) :=
  let candidates := send_candidates c in
  let count := len candidates in
  if count =? 0 then Ok (0, c) else
  let idx := Z.rem (c_send_rr_idx c) count in
  if idx <? 0 then Ub else
  Ok (nth (Z.to_nat idx) candidates 0,
      c <| c_send_rr_idx := Z.rem (c_send_rr_idx c + 1) count |>).

Definition softether_get_num_connections (c : connection) : Z :=
  (if c_socket_fd c >=? 0 then 1 else 0) + c_num_additional c.

Definition softether_get_active_socket_fds (c : connection) (max_fds : Z) : list Z :=
  tk max_fds ((if c_socket_fd c >=? 0 then [c_socket_fd c] else []) ++
    omap (fun ts => if ts_active ts && (ts_fd ts >=? 0) then Some (ts_fd ts) else None)
         (c_additional c)).

(** ** The object [softether_create] returns

    [mac] are the five [rand] bytes, [malloc_ok] whether the staging buffer
    could be allocated, [junk] its uninitialised contents. *)

Definition sock_zero : tcp_sock := Sock 0 0 0 0 0 0 false.

Definition SEND_BLOCK_CAP : Z := 8 + ETH_HEADER_SIZE + 65535.

Definition softether_create (mac : list Z) (malloc_ok : bool) (junk : list Z) : connection :=
  Conn (-1) 0 0 STATE_DISCONNECTED false
    false 0 false false (0x5E :: map (fun r => Z.land r 255) mac)
    (zeros 6) false 0 0
    (replicate 64 (Frame (zeros MAX_QUEUED_FRAME) 0)) 0 0 0 0 false
    (replicate 32 sock_zero) 0 8 TCP_DIRECTION_BOTH 0 0 false (-1) (-1) 0 0
    (if malloc_ok then Some (tk SEND_BLOCK_CAP junk) else None)
    (if malloc_ok then SEND_BLOCK_CAP else 0) 0 0 0 0.

Definition softether_set_client_mac (mac : list Z) (c : connection) : connection :=
  c <| c_client_mac := mac |>.

(** ** The accelerator as the connection sees it *)

Class Accelerator (U : Type) := {
  ac_poll : St U unit;
  ac_recv : Z -> St U (Z * list Z);
  ac_send : list Z -> St U Z;
  ac_ready : bool -> St U bool;
  ac_fd : St U Z }.

(** What its users rely on: in a good state every call returns, in a good
    state again, and a positive result of [ac_recv] is the length of a block
    that fits the caller's buffer. *)
Class AcceleratorLaws (U : Type) `{Accelerator U} (good : U -> Prop) := {
  ac_poll_good u : good u -> exists u', ac_poll u = Ok (tt, u') /\ good u';
  ac_recv_good n u : good u -> exists r bs u',
    ac_recv n u = Ok ((r, bs), u') /\ good u' /\ (0 < r -> r = len bs /\ r <= n /\ bytes_ok bs);
  ac_send_good bs u : good u -> bytes_ok bs -> len bs < 2 ^ 31 -> exists r u', ac_send bs u = Ok (r, u') /\ good u';
  ac_ready_good b u : good u -> exists r u', ac_ready b u = Ok (r, u') /\ good u';
  ac_fd_good u : good u -> exists fd u', ac_fd u = Ok (fd, u') /\ good u' }.

(** ** The surroundings *)

(** A byte stream endpoint: a TLS context, or a descriptor used without TLS. *)
Inductive chan : Type := Tls (p : Z) | Raw (fd : Z).
#[global] Instance chan_eq_dec : EqDecision chan.
Proof. solve_decision. Defined.

(** What one read meets. No data is an orderly close; a used-up list too. *)
Inductive rd_event : Type := RdData (bs : list Z) | RdAgain | RdIntr | RdErr.
(** What one write meets: room for [n] bytes, or an error. A used-up list
    takes everything. *)
Inductive wr_event : Type := WrRoom (n : Z) | WrAgain | WrErr.
(** One [poll]: an error, or the [revents] of the descriptors that have any.
    No event among the descriptors polled is a timeout. *)
Inductive poll_event : Type := PollErr | PollReady (ev : list (Z * Z)).

Record cworld {U : Type} := CWorld {
  w_conn : connection;
  w_rudp : option U;
  w_in : chan -> list rd_event;
  w_room : chan -> list wr_event;
  w_out : chan -> list Z;
  w_polls : list poll_event;
  w_pending : list bool;
  w_ticks : nat;
  w_rands : nat;
  w_freed : list Z;
  w_closed : list Z }.
Arguments cworld : clear implicits.
Arguments CWorld {U}.
#[export] Instance eta_cworld {U} : Eta (cworld U) := fun w => CWorld
  (w_conn w) (w_rudp w) (w_in w) (w_room w) (w_out w) (w_polls w) (w_pending w)
  (w_ticks w) (w_rands w) (w_freed w) (w_closed w).

Section env.
Context {U : Type} `{Accelerator U}.
(** [tick n] is the [n]-th clock reading, [crand n] the [n]-th [rand]. *)
Context (tick crand : nat -> Z).
Abbreviation M := (St (cworld U)).

Definition get_conn : M connection := gets w_conn.
Definition modify_conn (f : connection -> connection) : M unit :=
  modify (fun w => w <| w_conn := f (w_conn w) |>).

Definition softether_tick_ms : M Z := fun w =>
  Ok (u64 (tick (w_ticks w)), w <| w_ticks := S (w_ticks w) |>).
Definition c_rand : M Z := fun w => Ok (crand (w_rands w), w <| w_rands := S (w_rands w) |>).

(** A local array of [cap] bytes is handed out to be filled with [n] bytes. *)
Definition room (cap n : Z) : M unit := lift (if n <=? cap then Ok tt else Ub).

(** [additional[i]] with a C index. *)
Definition get_slot (i : Z) : M tcp_sock := fun w =>
  if i <? 0 then Ub else
  match c_additional (w_conn w) !! Z.to_nat i with Some ts => Ok (ts, w) | None => Ub end.
Definition set_slot (i : Z) (ts : tcp_sock) : M unit :=
  modify_conn (fun c => c <| c_additional := <[Z.to_nat i := ts]> (c_additional c) |>).

(** ** System calls *)

Definition rd_next (n : Z) (s : list rd_event) : rd_event * list rd_event :=
  match s with
  | [] => (RdData [], [])
  | RdData bs :: s => (RdData (tk n bs), if n <? len bs then RdData (dr n bs) :: s else s)
  | e :: s => (e, s)
  end.

Definition sys_read (ch : chan) (n : Z) : M rd_event := fun w =>
  let r := rd_next n (w_in w ch) in Ok (r.1, w <| w_in := <[ch := r.2]> (w_in w) |>).

(** How many bytes of [bs] the write takes, or its failure. *)
Definition wr_next (bs : list Z) (s : list wr_event) : wr_event * list wr_event :=
  match s with
  | [] => (WrRoom (len bs), [])
  | WrRoom n :: s => (WrRoom (Z.min n (len bs)), s)
  | e :: s => (e, s)
  end.

Definition sys_write (ch : chan) (bs : list Z) : M wr_event := fun w =>
  let r := wr_next bs (w_room w ch) in
  let out := match r.1 with WrRoom n => tk n bs | _ => [] end in
  Ok (r.1, w <| w_room := <[ch := r.2]> (w_room w) |>
             <| w_out := <[ch := w_out w ch ++ out]> (w_out w) |>).

(** The number of descriptors with events ([-1] for an error) and their
    [revents]. *)
Definition sys_poll (fds : list Z) : M (Z * (Z -> Z)) := fun w =>
  let revents ev fd := from_option snd 0 (find (fun p : Z * Z => p.1 =? fd) ev) in
  match w_polls w with
  | [] => Ok ((0, fun _ => 0), w)
  | PollErr :: rest => Ok ((-1, fun _ => 0), w <| w_polls := rest |>)
  | PollReady ev :: rest =>
      Ok ((len (filter (fun fd => revents ev fd <> 0) fds), revents ev), w <| w_polls := rest |>)
  end.

Definition sys_close (fd : Z) : M unit :=
  when (fd >=? 0) (modify (fun w => w <| w_closed := fd :: w_closed w |>)).

(** Using a TLS context that was destroyed is [Ub]. *)
Definition deref_ssl (p : Z) : M unit := fun w =>
  if decide (p ∈ w_freed w) then Ub else Ok (tt, w).

(** [ssl_shutdown] and [ssl_destroy]. *)
Definition ssl_destroy (p : Z) : M unit :=
  deref_ssl p ;; modify (fun w => w <| w_freed := p :: w_freed w |>).

(** The next [SSL_pending] result; a used-up list has nothing buffered. *)
Definition sys_pending : M bool := fun w =>
  match w_pending w with
  | [] => Ok (false, w)
  | b :: rest => Ok (b, w <| w_pending := rest |>)
  end.

Definition ssl_has_pending (p : Z) : M bool :=
  if p =? 0 then mret false else deref_ssl p ;; sys_pending.

(** ** [ssl_read] and [ssl_write] (aes_wrapper.c)

    A read is repeated after a transient interruption, five times in all; an
    expired socket timeout and an error end it. *)
Fixpoint ssl_read_ladder (retries : nat) (p n : Z) : M rd_event :=
  match retries with
  | O => mret RdErr
  | S retries =>
      e ← sys_read (Tls p) n;
      match e with
      | RdData bs => mret (RdData bs)
      | RdIntr => ssl_read_ladder retries p n
      | _ => mret RdErr
      end
  end.

Definition ssl_read (p n : Z) : M rd_event :=
  if p =? 0 then mret RdErr else deref_ssl p ;; ssl_read_ladder 5 p n.

Definition ssl_write (p : Z) (bs : list Z) : M wr_event :=
  if p =? 0 then mret WrErr else deref_ssl p ;; sys_write (Tls p) bs.

(** ** The transfer loops

    [guard] is the test at the head of the loop, [call] one read or write,
    [again] the errors after which the loop goes on. Every pass uses up an
    event of the channel, which bounds the passes. *)
Fixpoint read_loop (guard : cworld U -> bool) (call : Z -> M rd_event) (again : rd_event -> bool)
  (fuel : nat) (n : Z) (acc : list Z) : M (option (list Z)) :=
  if n <=? len acc then mret (Some acc) else
  match fuel with
  | O => fun _ => Err
  | S fuel =>
      ok ← gets guard;
      if negb ok then mret None else
      e ← call (n - len acc);
      match e with
      | RdData bs => if len bs =? 0 then mret None else read_loop guard call again fuel n (acc ++ bs)
      | e => if again e then read_loop guard call again fuel n acc else mret None
      end
  end.

Definition read_fuel (ch : chan) : M nat := gets (fun w => S (length (w_in w ch))).

Fixpoint write_loop (guard : cworld U -> bool) (call : list Z -> M wr_event) (again : wr_event -> bool)
  (fuel : nat) (bs : list Z) : M bool :=
  if len bs <=? 0 then mret true else
  match fuel with
  | O => fun _ => Err
  | S fuel =>
      ok ← gets guard;
      if negb ok then mret false else
      e ← call bs;
      match e with
      | WrRoom n => if n <=? 0 then mret false else write_loop guard call again fuel (dr n bs)
      | e => if again e then write_loop guard call again fuel bs else mret false
      end
  end.

Definition write_fuel (ch : chan) : M nat := gets (fun w => S (length (w_room w ch))).

Definition is_again (e : rd_event) : bool := match e with RdAgain => true | _ => false end.
Definition is_again_intr (e : rd_event) : bool := match e with RdAgain | RdIntr => true | _ => false end.
Definition is_wr_again (e : wr_event) : bool := match e with WrAgain => true | _ => false end.
Definition never {A} (_ : A) : bool := false.

(** The connection has not been torn down. *)
Definition running (w : cworld U) : bool :=
  bool_decide (c_state (w_conn w) <> STATE_DISCONNECTED) &&
  bool_decide (c_state (w_conn w) <> STATE_DISCONNECTING).

Definition ssl_read_all (n : Z) : M (option (list Z)) :=
  c ← get_conn;
  fuel ← read_fuel (Tls (c_ssl c));
  read_loop running (ssl_read (c_ssl c)) never fuel n [].

Definition raw_read_all (n : Z) : M (option (list Z)) :=
  c ← get_conn;
  fuel ← read_fuel (Raw (c_socket_fd c));
  read_loop running (sys_read (Raw (c_socket_fd c))) is_again fuel n [].

Definition ssl_read_all_ctx (ssl n : Z) : M (option (list Z)) :=
  fuel ← read_fuel (Tls ssl);
  read_loop (fun _ => true) (ssl_read ssl) never fuel n [].

Definition raw_read_all_fd (fd n : Z) : M (option (list Z)) :=
  fuel ← read_fuel (Raw fd);
  read_loop (fun _ => true) (sys_read (Raw fd)) is_again_intr fuel n [].

Definition ssl_write_all (bs : list Z) : M bool :=
  c ← get_conn;
  fuel ← write_fuel (Tls (c_ssl c));
  write_loop running (ssl_write (c_ssl c)) never fuel bs.

Definition raw_write_all (bs : list Z) : M bool :=
  c ← get_conn;
  fuel ← write_fuel (Raw (c_socket_fd c));
  write_loop running (sys_write (Raw (c_socket_fd c))) is_wr_again fuel bs.

(** ** Per-link access *)

(** The slot the pair belongs to ([-1] the primary link), if any. *)
Definition link_io_resolve (ssl fd : Z) (c : connection) : option Z :=
  if (ssl =? c_ssl c) && (fd =? c_socket_fd c) then Some (-1) else
  head (slots (fun ts => (ts_ssl ts =? ssl) && (ts_fd ts =? fd)) c).

Definition link_io_live (slot ssl fd : Z) : M bool :=
  if slot <? 0 then c ← get_conn; mret ((c_ssl c =? ssl) && (c_socket_fd c =? fd)) else
  ts ← get_slot slot; mret ((ts_ssl ts =? ssl) && (ts_fd ts =? fd)).

Definition data_read_all_sock (ssl fd n : Z) : M (option (list Z)) :=
  c ← get_conn;
  if negb (c_use_ssl_data c) then raw_read_all_fd fd n else
  match link_io_resolve ssl fd c with
  | None => mret None
  | Some slot =>
      live ← link_io_live slot ssl fd;
      if negb live then mret None else ssl_read_all_ctx ssl n
  end.

Definition read_uint32_sock (ssl fd : Z) : M (option Z) :=
  b ← data_read_all_sock ssl fd 4; mret (r32 <$> b).

Definition data_write_all_sock (ssl fd : Z) (bs : list Z) : M bool :=
  c ← get_conn;
  if negb (c_use_ssl_data c) then
    fuel ← write_fuel (Raw fd);
    write_loop (fun _ => true) (sys_write (Raw fd)) is_wr_again fuel bs
  else
  match link_io_resolve ssl fd c with
  | None => mret false
  | Some slot =>
      live ← link_io_live slot ssl fd;
      if negb live then mret false else
      fuel ← write_fuel (Tls ssl);
      write_loop (fun _ => true) (ssl_write ssl) never fuel bs
  end.

Definition data_read_all (n : Z) : M (option (list Z)) :=
  c ← get_conn; if negb (c_use_ssl_data c) then raw_read_all n else ssl_read_all n.

Definition data_write_all (bs : list Z) : M bool :=
  c ← get_conn; if negb (c_use_ssl_data c) then raw_write_all bs else ssl_write_all bs.

Definition read_uint32 : M (option Z) := b ← data_read_all 4; mret (r32 <$> b).
End env.
