(* ===== verification/ConnInv.v ===== *)
(** * The connection: transfer loops and the invariant

    What the read and write loops do on a byte stream cut into arbitrary
    pieces, and the well-formedness [world_ok] that every operation of the
    data plane keeps. *)
From stdpp Require Import functions.
From S2P Require Import Prelude Bytes Ring Crypto Conn.

Definition rd_ok (e : rd_event) : Prop := match e with RdData bs => bytes_ok bs | _ => True end.

(** The bytes a reader gets before an error, an expired timeout or the end. *)
Fixpoint stream (s : list rd_event) : list Z :=
  match s with
  | RdData [] :: _ => []
  | RdData bs :: s => bs ++ stream s
  | _ => []
  end.

Lemma stream_data bs s : stream (RdData bs :: s) = if decide (bs = []) then [] else bs ++ stream s.
Proof. by destruct bs. Qed.

Lemma stream_app chunks rest :
  Forall (fun c => c <> []) chunks -> stream (map RdData chunks ++ rest) = mjoin chunks ++ stream rest.
Proof.
  induction 1 as [|c cs Hc Hcs IH]; [done|]. cbn [map app]. rewrite stream_data, decide_False by done.
  rewrite IH. change (mjoin (c :: cs)) with (c ++ mjoin cs). by rewrite <- app_assoc.
Qed.

Lemma wp_get_conn {U} (Q : connection -> cworld U -> Prop) w : Q (w_conn w) w -> wp get_conn Q w.
Proof. done. Qed.
Lemma wp_modify_conn {U} f (Q : unit -> cworld U -> Prop) w :
  Q tt (w <| w_conn := f (w_conn w) |>) -> wp (modify_conn f) Q w.
Proof. done. Qed.
Ltac wp_hook ::=
  lazymatch goal with
  | |- wp get_conn _ _ => apply wp_get_conn
  | |- wp (modify_conn _) _ _ => apply wp_modify_conn
  end.

Section loops.
Context {U : Type}.
Implicit Types w : cworld U.

(** [w'] is [w] after reads from [ch] only, resp. writes to [ch] only. *)
Definition after_read (ch : chan) w w' : Prop :=
  w' = w <| w_in := w_in w' |> /\ (forall ch', ch' <> ch -> w_in w' ch' = w_in w ch') /\
  ((forall c, Forall rd_ok (w_in w c)) -> forall c, Forall rd_ok (w_in w' c)).
Definition after_write (ch : chan) w w' : Prop :=
  w' = w <| w_room := w_room w' |> <| w_out := w_out w' |> /\
  (forall ch', ch' <> ch -> w_out w' ch' = w_out w ch' /\ w_room w' ch' = w_room w ch').

Lemma after_read_refl ch w : after_read ch w w.
Proof. split; [by destruct w|]. done. Qed.
Lemma after_read_trans ch w1 w2 w3 : after_read ch w1 w2 -> after_read ch w2 w3 -> after_read ch w1 w3.
Proof.
  intros (E1 & H1 & K1) (E2 & H2 & K2). split; [|split; [|auto]].
  - rewrite E2, E1. by destruct w1.
  - intros ch' Hne. by rewrite H2, H1.
Qed.
Lemma after_write_refl ch w : after_write ch w w.
Proof. split; [by destruct w|]. done. Qed.
Lemma after_write_trans ch w1 w2 w3 : after_write ch w1 w2 -> after_write ch w2 w3 -> after_write ch w1 w3.
Proof.
  intros (E1 & H1) (E2 & H2). split.
  - rewrite E2, E1. by destruct w1.
  - intros ch' Hne. destruct (H1 ch' Hne) as [<- <-]. by apply H2.
Qed.
Lemma after_read_conn ch w w' : after_read ch w w' -> w_conn w' = w_conn w /\ w_freed w' = w_freed w /\ w_rudp w' = w_rudp w.
Proof. intros [-> _]. by destruct w. Qed.
Lemma after_write_conn ch w w' : after_write ch w w' ->
  w_conn w' = w_conn w /\ w_freed w' = w_freed w /\ w_rudp w' = w_rudp w /\ w_in w' = w_in w.
Proof. intros [-> _]. by destruct w. Qed.

(** ** One read *)

Definition shorter ch w w' : Prop := (length (w_in w' ch) < length (w_in w ch))%nat.

Definition read_call_post (again : rd_event -> bool) (ch : chan) (n : Z) w (e : rd_event) w' : Prop :=
  after_read ch w w' /\ (length (w_in w' ch) <= length (w_in w ch))%nat /\
  (again e = true -> shorter ch w w') /\
  (forall bs, e = RdData bs -> len bs <= n /\ (bs <> [] -> len bs = n \/ shorter ch w w')) /\
  ((forall c, Forall rd_ok (w_in w c)) -> rd_ok e).

(** The call takes the next bytes of a stream that has some. *)
Definition read_call_stream (ch : chan) (n : Z) w (e : rd_event) w' : Prop :=
  stream (w_in w ch) <> [] ->
  exists k, 0 < k <= n /\ k <= len (stream (w_in w ch)) /\
    e = RdData (tk k (stream (w_in w ch))) /\ stream (w_in w' ch) = dr k (stream (w_in w ch)).

Lemma rd_next_ok n s : Forall rd_ok s -> rd_ok (rd_next n s).1 /\ Forall rd_ok (rd_next n s).2.
Proof.
  destruct s as [|[bs| | |] s]; intros Hs; cbn; try (split; by constructor || apply Forall_nil_2);
    try (apply Forall_cons_1 in Hs as [? Hs]; done).
  apply Forall_cons_1 in Hs as [Hb Hs]. cbn in Hb. split; [auto with bytes|].
  destruct (n <? len bs); [|done]. constructor; [cbn; auto with bytes|done].
Qed.

Lemma rd_next_data n s bs : 0 < n -> (rd_next n s).1 = RdData bs ->
  len bs <= n /\ (bs <> [] -> len bs = n \/ (length (rd_next n s).2 < length s)%nat).
Proof.
  intros Hn. destruct s as [|[b| | |] s]; cbn; try done.
  - intros [= <-]. split; [by rewrite len_nil; lia|done].
  - intros [= <-]. split; [slia|]. intros _. destruct (n <? len b) eqn:E; cbn; [left; slia|right; lia].
Qed.

Lemma rd_next_stream n s : 0 < n -> stream s <> [] ->
  exists k, 0 < k <= n /\ k <= len (stream s) /\
    (rd_next n s).1 = RdData (tk k (stream s)) /\ stream (rd_next n s).2 = dr k (stream s).
Proof.
  intros Hn. destruct s as [|[bs| | |] s]; try done. rewrite stream_data.
  destruct (decide (bs = [])) as [->|Hb]; [done|]. intros _. cbn [rd_next fst snd].
  assert (0 < len bs). { destruct bs; [done|]. slia. }
  pose proof (len_nonneg (stream s)). exists (Z.min n (len bs)). split; [lia|]. split; [slia|].
  destruct (n <? len bs) eqn:E.
  - rewrite Z.min_l by lia. rewrite tk_app, dr_app, (tk_0 _ (n - len bs)), (dr_0 (stream s)), app_nil_r by lia.
    split; [done|]. rewrite stream_data, decide_False; [done|].
    intros Hd. apply (f_equal len) in Hd. rewrite len_dr in Hd. change (len (@nil Z)) with 0 in Hd. lia.
  - rewrite Z.min_r by lia. rewrite tk_app_exact, dr_app_exact, tk_all by lia. done.
Qed.

Lemma sys_read_wp again ch n w : 0 < n ->
  (forall bs, again (RdData bs) = false) ->
  wp (sys_read ch n) (fun e w' => read_call_post again ch n w e w' /\ read_call_stream ch n w e w') w.
Proof.
  intros Hn Hag. unfold wp, sys_read.
  set (r := rd_next n (w_in w ch)). set (w' := w <| w_in := _ |>).
  assert (Hin : w_in w' ch = r.2). { unfold w'. cbn. apply fn_lookup_insert. }
  assert (Hne : forall ch', ch' <> ch -> w_in w' ch' = w_in w ch').
  { intros ch' Hne. unfold w'. cbn. by rewrite fn_lookup_insert_ne. }
  split; [split; [|split; [|split; [|split]]]|].
  - split; [done|]. split; [done|]. intros Hok c. destruct (decide (c = ch)) as [->|Hc].
    + rewrite Hin. by apply rd_next_ok.
    + by rewrite Hne.
  - rewrite Hin. unfold r. destruct (w_in w ch) as [|[bs| | |] s]; cbn; try lia. destruct (n <? len bs); cbn; lia.
  - unfold shorter. rewrite Hin. unfold r. destruct (w_in w ch) as [|[bs| | |] s]; cbn; rewrite ?Hag; done || lia.
  - intros bs Hbs. unfold shorter. rewrite Hin. by apply rd_next_data.
  - intros Hok. by apply rd_next_ok.
  - unfold read_call_stream. rewrite Hin. apply rd_next_stream, Hn.
Qed.

Lemma deref_ssl_wp p w (Q : unit -> cworld U -> Prop) : p ∉ w_freed w -> Q tt w -> wp (deref_ssl p) Q w.
Proof. intros Hp Hq. unfold wp, deref_ssl. by rewrite decide_False. Qed.

Lemma read_call_err ch n w w' :
  after_read ch w w' -> (length (w_in w' ch) <= length (w_in w ch))%nat ->
  read_call_post never ch n w RdErr w'.
Proof. intros Ha Hl. by repeat split; try apply Ha. Qed.

Lemma ssl_ladder_wp retries p n w : 0 < n ->
  wp (ssl_read_ladder retries p n) (fun e w' => read_call_post never (Tls p) n w e w' /\
    (retries <> O -> read_call_stream (Tls p) n w e w')) w.
Proof.
  intros Hn. revert w. induction retries as [|k IH]; intros w.
  - cbn. split; [|done]. by apply read_call_err; [apply after_read_refl|].
  - cbn [ssl_read_ladder]. wp_step. eapply wp_mono; [by apply (sys_read_wp never)|].
    intros e w1 [H1 Hs1]. pose proof H1 as (Ha & Hl & _ & Hd & Hb).
    assert (Hno : e = RdAgain \/ e = RdIntr \/ e = RdErr ->
      read_call_stream (Tls p) n w RdErr w1 /\ stream (w_in w (Tls p)) = []).
    { intros He. destruct (decide (stream (w_in w (Tls p)) = [])) as [E|Hne]; [by split; [intros ?|]|].
      destruct (Hs1 Hne) as (? & ? & ? & -> & ?). by destruct He as [|[|]]. }
    destruct e as [bs| | |].
    + wp_step. by split.
    + wp_step. split; [by apply read_call_err|]. intros _. by apply Hno; auto.
    + eapply wp_mono; [apply IH|]. intros e w2 [(Ha2 & Hl2 & _ & Hd2 & Hb2) _].
      split; [|intros _ Hne; exfalso; apply Hne, Hno; auto].
      split; [by eapply after_read_trans|]. split; [lia|]. split; [done|]. split.
      * intros bs ->. destruct (Hd2 bs eq_refl) as [? Hs]. split; [done|]. intros Hbs.
        destruct (Hs Hbs) as [?|?]; [by left|right]. unfold shorter in *. lia.
      * intros Hok. apply Hb2. by apply Ha.
    + wp_step. split; [by apply read_call_err|]. intros _. by apply Hno; auto.
Qed.

Lemma ssl_read_wp p n w : 0 < n -> p ∉ w_freed w ->
  wp (ssl_read p n) (fun e w' => read_call_post never (Tls p) n w e w' /\
    (p <> 0 -> read_call_stream (Tls p) n w e w')) w.
Proof.
  intros Hn Hp. unfold ssl_read. wp_step; wp_pure.
  - split; [|lia]. by apply read_call_err; [apply after_read_refl|].
  - apply deref_ssl_wp; [done|]. eapply wp_mono; [by apply ssl_ladder_wp|].
    intros e w' [H1 H2]. split; [done|]. intros _. by apply H2.
Qed.

(** ** The read loop *)

Definition read_post ch n acc w (r : option (list Z)) w' : Prop :=
  after_read ch w w' /\
  forall b, r = Some b -> len b = n /\ exists d, b = acc ++ d /\
    ((forall c, Forall rd_ok (w_in w c)) -> bytes_ok d).

Definition read_all_stream ch n acc w (r : option (list Z)) w' : Prop :=
  r = Some (acc ++ tk (n - len acc) (stream (w_in w ch))) /\ after_read ch w w' /\
  stream (w_in w' ch) = dr (n - len acc) (stream (w_in w ch)).

Section read_loop.
Context (guard : cworld U -> bool) (call : Z -> St (cworld U) rd_event) (again : rd_event -> bool)
        (ch : chan) (good : cworld U -> Prop) (live : Prop).
Hypothesis again_data : forall bs, again (RdData bs) = false.
Hypothesis good_after : forall w w', good w -> after_read ch w w' -> good w'.
Hypothesis call_ok : forall n w, 0 < n -> good w ->
  wp (call n) (fun e w' => read_call_post again ch n w e w' /\ (live -> read_call_stream ch n w e w')) w.

(** The loop returns; it stores exactly [n] bytes or fails. *)
Lemma read_loop_wp fuel n acc w :
  good w -> len acc <= n -> (length (w_in w ch) < fuel)%nat \/ n <= len acc ->
  wp (read_loop guard call again fuel n acc) (read_post ch n acc w) w.
Proof.
  revert acc w. induction fuel as [|fuel IH]; intros acc w Hg Hacc Hf; cbn [read_loop]; wp_step.
  1,3: apply wp_ret; split; [apply after_read_refl|]; intros b [= <-]; split; [lia|]; exists [];
    rewrite app_nil_r; split; [done|intros _; constructor].
  - lia.
  - wp_pure. wp_step; [wp_step; split; [apply after_read_refl|done]|].
    wp_step. eapply wp_mono; [apply call_ok; [lia|done]|].
    intros e w1 [(Ha & Hl & Hag & Hd & Hb) _].
    assert (Hgo : forall acc', (exists d, acc' = acc ++ d /\ ((forall c, Forall rd_ok (w_in w c)) -> bytes_ok d)) ->
      len acc' <= n -> (length (w_in w1 ch) < fuel)%nat \/ n <= len acc' ->
      wp (read_loop guard call again fuel n acc') (read_post ch n acc w) w1).
    { intros acc' (d & -> & Hd') Hle Hf'. eapply wp_mono; [apply IH; eauto|].
      intros r w2 [Ha2 Hr]. split; [by eapply after_read_trans|]. intros b Hb'.
      destruct (Hr b Hb') as (? & d2 & -> & Hd2). split; [done|]. exists (d ++ d2).
      split; [by rewrite app_assoc|]. intros Hok. apply bytes_ok_app_2; [auto|]. apply Hd2, Ha, Hok. }
    assert (Hfail : wp (mret None) (read_post ch n acc w) w1) by (wp_step; by split).
    assert (Hretry : again e = true -> wp (read_loop guard call again fuel n acc) (read_post ch n acc w) w1).
    { intros He. specialize (Hag He). unfold shorter in Hag. apply Hgo; [|done|lia].
      exists []. rewrite app_nil_r. split; [done|intros _; constructor]. }
    destruct e as [bs| | |]; try (wp_step; auto).
    destruct (Hd bs eq_refl) as [Hle Hsh].
    assert (Hne : bs <> []). { intros ->. rewrite len_nil in *. lia. }
    specialize (Hsh Hne). apply Hgo; [by exists bs|slia|]. unfold shorter in Hsh. slia.
Qed.

(** On a stream with enough bytes the loop takes exactly the next [n]. *)
Lemma read_loop_stream fuel n acc w :
  live -> good w -> (forall w', after_read ch w w' -> guard w' = true) ->
  len acc <= n -> n - len acc <= len (stream (w_in w ch)) ->
  (length (w_in w ch) < fuel)%nat \/ n <= len acc ->
  wp (read_loop guard call again fuel n acc) (read_all_stream ch n acc w) w.
Proof.
  intros Hlive. revert acc w. induction fuel as [|fuel IH]; intros acc w Hg Hgu Hacc Hen Hf; cbn [read_loop]; wp_step.
  1,3: apply wp_ret; split; [|split]; [by rewrite tk_0, app_nil_r by lia|apply after_read_refl|by rewrite dr_0 by lia].
  - lia.
  - wp_pure. rewrite Hgu by apply after_read_refl. cbn [negb].
    wp_step. eapply wp_mono; [apply call_ok; [lia|done]|].
    intros e w1 [(Ha & Hl & Hag & Hd & _) Hs]. destruct (Hs Hlive) as (k & Hk & Hk2 & -> & Hst).
    { intros E. rewrite E, len_nil in Hen. lia. }
    destruct (Hd _ eq_refl) as [Hle Hsh]. assert (Hlk : len (tk k (stream (w_in w ch))) = k) by slia.
    assert (Hne : tk k (stream (w_in w ch)) <> []). { intros E. rewrite E, len_nil in Hlk. lia. }
    specialize (Hsh Hne). rewrite Hlk in *. unfold shorter in Hsh.
    wp_step; [lia|]. eapply wp_mono.
    { apply IH; [by eapply good_after|intros w' Hw'; apply Hgu; by eapply after_read_trans|..];
        rewrite ?Hst; slia. }
    intros r w2 (-> & Ha2 & Hst2). split; [|split].
    + rewrite Hst, len_app, Hlk, <- app_assoc. do 2 f_equal.
      rewrite <- (tk_dr k (tk (n - len acc) _)), tk_tk, Z.min_l by lia. f_equal.
      unfold tk, dr. rewrite skipn_firstn_comm. f_equal. lia.
    + by eapply after_read_trans.
    + rewrite Hst2, Hst, len_app, Hlk, dr_dr by lia. f_equal. lia.
Qed.
End read_loop.

(** ** The write loop *)

Definition shorter_room ch w w' : Prop := (length (w_room w' ch) < length (w_room w ch))%nat.

Definition write_call_post (again : wr_event -> bool) (ch : chan) (bs : list Z) w (e : wr_event) w' : Prop :=
  after_write ch w w' /\ (length (w_room w' ch) <= length (w_room w ch))%nat /\
  (again e = true -> shorter_room ch w w') /\
  w_out w' ch = w_out w ch ++ match e with WrRoom n => tk n bs | _ => [] end /\
  (forall n, e = WrRoom n -> n <= len bs /\ (n = len bs \/ shorter_room ch w w')).

Lemma sys_write_wp again ch bs w : (forall n, again (WrRoom n) = false) ->
  wp (sys_write ch bs) (write_call_post again ch bs w) w.
Proof.
  intros Hag. unfold wp, sys_write. set (r := wr_next bs (w_room w ch)).
  set (out := match r.1 with WrRoom n => tk n bs | _ => [] end). set (w' := w <| w_room := _ |> <| w_out := _ |>).
  assert (Hin : w_room w' ch = r.2). { unfold w'. cbn. apply fn_lookup_insert. }
  assert (Hout : w_out w' ch = w_out w ch ++ out). { unfold w'. cbn. apply fn_lookup_insert. }
  split; [split|].
  - by destruct w.
  - intros ch' Hne. unfold w'. cbn. by rewrite !fn_lookup_insert_ne.
  - unfold shorter_room. rewrite Hin. split; [|split; [|split; [done|]]].
    + unfold r. destruct (w_room w ch) as [|[n| |] s]; cbn; lia.
    + unfold r. destruct (w_room w ch) as [|[n| |] s]; cbn; rewrite ?Hag; done || lia.
    + unfold r. destruct (w_room w ch) as [|[n| |] s]; cbn; try done.
      * intros n [= <-]. lia.
      * intros m [= <-]. lia.
Qed.

Lemma sys_write_room ch bs w : w_room w ch = [] -> wp (sys_write ch bs) (fun e _ => e = WrRoom (len bs)) w.
Proof. intros Hr. unfold wp, sys_write. by rewrite Hr. Qed.

Lemma write_call_err ch bs w : write_call_post never ch bs w WrErr w.
Proof. split; [apply after_write_refl|]. by rewrite app_nil_r. Qed.

Lemma ssl_write_wp p bs w : p ∉ w_freed w -> wp (ssl_write p bs) (write_call_post never (Tls p) bs w) w.
Proof.
  intros Hp. unfold ssl_write. wp_step; wp_pure; [apply write_call_err|].
  apply deref_ssl_wp; [done|]. by apply sys_write_wp.
Qed.

(** What a write leaves behind: a prefix of the bytes, all of them on success. *)
Definition write_post ch bs w (ok : bool) w' : Prop :=
  after_write ch w w' /\ exists k, w_out w' ch = w_out w ch ++ tk k bs /\ (ok = true -> tk k bs = bs).

Section write_loop.
Context (guard : cworld U -> bool) (call : list Z -> St (cworld U) wr_event) (again : wr_event -> bool)
        (ch : chan) (good : cworld U -> Prop).
Hypothesis good_after : forall w w', good w -> after_write ch w w' -> good w'.
Hypothesis call_ok : forall bs w, good w -> wp (call bs) (write_call_post again ch bs w) w.

Lemma write_loop_wp fuel bs w :
  good w -> (length (w_room w ch) < fuel)%nat \/ bs = [] ->
  wp (write_loop guard call again fuel bs) (write_post ch bs w) w.
Proof.
  revert bs w. induction fuel as [|fuel IH]; intros bs w Hg Hf; cbn [write_loop]; wp_step.
  1,3: apply wp_ret; split; [apply after_write_refl|]; exists 0; rewrite (len_0_nil bs) by slia;
    by rewrite app_nil_r.
  - destruct Hf as [?| ->]; [lia|]. done.
  - assert (Hlen : (length (w_room w ch) < S fuel)%nat) by (by destruct Hf as [?| ->]).
    assert (Hfail : forall w1 k, after_write ch w w1 -> w_out w1 ch = w_out w ch ++ tk k bs ->
      wp (mret false) (write_post ch bs w) w1).
    { intros w1 k Ha Ho. wp_step. split; [done|]. by exists k. }
    wp_pure. wp_step.
    { apply (Hfail w 0); [apply after_write_refl|]. by rewrite tk_0, app_nil_r. }
    wp_step. eapply wp_mono; [by apply call_ok|]. intros e w1 (Ha & Hl & Hag & Ho & Hr).
    assert (Hgo : forall k, w_out w1 ch = w_out w ch ++ tk k bs -> 0 <= k <= len bs ->
      (length (w_room w1 ch) < fuel)%nat \/ dr k bs = [] ->
      wp (write_loop guard call again fuel (dr k bs)) (write_post ch bs w) w1).
    { intros k Hk Hk0 Hf'. eapply wp_mono; [apply IH; [by eapply good_after|done]|].
      intros ok w2 [Ha2 (j & Hj & Hok)]. split; [by eapply after_write_trans|].
      exists (k + Z.max 0 j). rewrite Hj, Hk, <- app_assoc.
      assert (E : tk (k + Z.max 0 j) bs = tk k bs ++ tk j (dr k bs)).
      { rewrite <- (tk_dr k bs) at 1. rewrite tk_app.
        rewrite (tk_all (k + Z.max 0 j)), len_tk by slia. f_equal. unfold tk. f_equal. lia. }
      rewrite E. split; [done|]. intros H. rewrite (Hok H). apply tk_dr. }
    destruct e as [n| |].
    + destruct (Hr n eq_refl) as [Hle Hsh]. wp_step; [by apply (Hfail w1 n)|].
      apply Hgo; [done|lia|]. unfold shorter_room in Hsh. destruct Hsh as [->|?]; [right; by apply dr_all|left; lia].
    + wp_step; [|apply (Hfail w1 0); [done|by rewrite tk_0]].
      specialize (Hag Hc1). unfold shorter_room in Hag. rewrite <- (dr_0 bs 0) at 1 by lia.
      apply Hgo; [by rewrite tk_0|slia|lia].
    + wp_step; [|apply (Hfail w1 0); [done|by rewrite tk_0]].
      specialize (Hag Hc1). unfold shorter_room in Hag. rewrite <- (dr_0 bs 0) at 1 by lia.
      apply Hgo; [by rewrite tk_0|slia|lia].
Qed.

(** With no event in the way the bytes are all taken. *)
Lemma write_loop_clear fuel bs w :
  good w -> w_room w ch = [] -> (forall w', after_write ch w w' -> guard w' = true) ->
  (forall bs w, good w -> w_room w ch = [] -> wp (call bs) (fun e w' => e = WrRoom (len bs) /\
     after_write ch w w') w) -> (0 < fuel)%nat ->
  wp (write_loop guard call again fuel bs) (fun ok w' => ok = true) w.
Proof.
  intros Hg Hroom Hgu Hcall Hf. destruct fuel as [|fuel]; [lia|]. cbn [write_loop]. wp_step; [by apply wp_ret|].
  wp_pure. rewrite Hgu by apply after_write_refl. cbn [negb]. wp_step.
  eapply wp_mono; [by apply Hcall|]. intros e w1 [-> Ha].
  wp_step; [slia|]. rewrite dr_all by lia. by destruct fuel.
Qed.
End write_loop.
End loops.
