(* ===== verification/WorldInv.v ===== *)
(** * The well-formed connection

    [world_ok] is the invariant of the data plane: the shape of the receive
    queue, of the slots and of the staging buffer, and the ownership of the
    TLS contexts, none of which is used after it was destroyed. This file
    proves it for the transfer functions of [Conn] and for the operations on
    one slot. *)
From stdpp Require Import functions.
From S2P Require Import Prelude Bytes Ring Crypto Conn ConnInv.

Definition frame_ok (e : queued_frame) : Prop :=
  len (qf_data e) = MAX_QUEUED_FRAME /\ 0 <= qf_len e <= MAX_QUEUED_FRAME /\ bytes_ok (qf_data e).

Definition recv_queue_ok (c : connection) : Prop :=
  len (c_recv_queue c) = RECV_QUEUE_SIZE /\ Forall frame_ok (c_recv_queue c) /\
  0 <= c_recv_queue_head c < RECV_QUEUE_SIZE /\ 0 <= c_recv_queue_count c <= RECV_QUEUE_SIZE /\
  c_recv_queue_tail c = (c_recv_queue_head c + c_recv_queue_count c) mod RECV_QUEUE_SIZE.

(** The frames that wait, oldest first. *)
Definition frame_bytes (e : queued_frame) : list Z := tk (qf_len e) (qf_data e).
Definition frames (c : connection) : list (list Z) :=
  map frame_bytes (ring_view (c_recv_queue_head c) (c_recv_queue_count c) (c_recv_queue c)).

(** A slot uses the context it owns, or none; a free slot uses none. *)
Definition slot_ok (ts : tcp_sock) : Prop :=
  (ts_ssl ts = 0 \/ ts_ssl ts = ts_ssl_ctx ts) /\ (ts_active ts = false -> ts_ssl ts = 0).

(** The contexts the connection owns. *)
Definition owners (c : connection) : list Z :=
  filter (fun p => p <> 0) (c_ssl c :: map ts_ssl_ctx (c_additional c)).

Definition active_count (l : list tcp_sock) : Z := len (filter (fun ts => ts_active ts = true) l).

Definition links_core (freed : list Z) (c : connection) : Prop :=
  len (c_additional c) = MAX_SE_CONNECTIONS /\ Forall slot_ok (c_additional c) /\
  NoDup (owners c) /\ Forall (fun p => p ∉ freed) (owners c) /\ 0 ∉ freed.

(** The counter of additional links counts the active slots. *)
Definition links_ok (freed : list Z) (c : connection) : Prop :=
  links_core freed c /\ c_num_additional c = active_count (c_additional c).

Definition stage_ok (c : connection) : Prop :=
  match c_send_block c with
  | Some b => len b = c_send_block_cap c
  | None => c_send_block_cap c = 0
  end /\ 0 <= c_send_block_cap c <= SEND_BLOCK_CAP /\
  (c_send_block c <> None -> c_send_block_cap c = SEND_BLOCK_CAP).

Definition fields_ok (c : connection) : Prop :=
  0 <= c_send_rr_idx c /\ len (c_client_mac c) = 6 /\ bytes_ok (c_client_mac c) /\
  len (c_gateway_mac c) = 6 /\ bytes_ok (c_gateway_mac c) /\ 0 <= c_assigned_ip c < 2 ^ 32.

Definition conn_ok (freed : list Z) (c : connection) : Prop :=
  recv_queue_ok c /\ links_ok freed c /\ stage_ok c /\ fields_ok c.

Section world.
Context {U : Type} (good : U -> Prop).
Implicit Types w : cworld U.

Definition world_ok w : Prop :=
  conn_ok (w_freed w) (w_conn w) /\ (forall ch, Forall rd_ok (w_in w ch)) /\
  (forall u, w_rudp w = Some u -> good u).

(** A step that moves bytes only. *)
Definition io_step w w' : Prop :=
  world_ok w' /\ w_conn w' = w_conn w /\ w_freed w' = w_freed w /\ w_rudp w' = w_rudp w.

Lemma io_refl w : world_ok w -> io_step w w.
Proof. done. Qed.
Lemma io_trans w1 w2 w3 : io_step w1 w2 -> io_step w2 w3 -> io_step w1 w3.
Proof. intros (? & ? & ? & ?) (? & ? & ? & ?). repeat split; try apply H3; congruence. Qed.

Lemma io_read ch w w' : world_ok w -> after_read ch w w' -> io_step w w'.
Proof.
  intros (Hc & Hi & Hg) Ha. destruct (after_read_conn ch w w' Ha) as (E1 & E2 & E3).
  split; [|done]. split; [by rewrite E1, E2|]. split; [by apply Ha|]. by rewrite E3.
Qed.
Lemma io_write ch w w' : world_ok w -> after_write ch w w' -> io_step w w'.
Proof.
  intros (Hc & Hi & Hg) Ha. destruct (after_write_conn ch w w' Ha) as (E1 & E2 & E3 & E4).
  split; [|done]. split; [by rewrite E1, E2|]. split; [by rewrite E4|]. by rewrite E3.
Qed.

(** ** Contexts in use are alive *)

Lemma owners_alive w p : world_ok w -> p ∈ owners (w_conn w) -> p ∉ w_freed w.
Proof. intros ((_ & ((_ & _ & _ & Hf & _) & _) & _) & _) Hp. by eapply Forall_forall in Hf. Qed.

Lemma primary_alive w : world_ok w -> c_ssl (w_conn w) ∉ w_freed w.
Proof.
  intros Hw. destruct (decide (c_ssl (w_conn w) = 0)) as [->|Hne]; [by apply Hw|].
  apply owners_alive; [done|]. unfold owners. apply list_elem_of_filter.
  split; [done|apply list_elem_of_here].
Qed.

Lemma slot_alive w i ts : world_ok w -> c_additional (w_conn w) !! i = Some ts ->
  (ts_ssl ts ∉ w_freed w) /\ (ts_ssl_ctx ts ∉ w_freed w).
Proof.
  intros Hw Hi. pose proof Hw as ((_ & ((_ & Hs & _ & _ & H0) & _) & _) & _).
  assert (Hctx : ts_ssl_ctx ts ∉ w_freed w).
  { destruct (decide (ts_ssl_ctx ts = 0)) as [->|Hne]; [done|]. apply owners_alive; [done|].
    apply list_elem_of_filter. split; [done|]. apply list_elem_of_further.
    apply (list_elem_of_fmap_2 ts_ssl_ctx). by eapply list_elem_of_lookup_2. }
  split; [|done]. by apply (Forall_lookup_1 _ _ _ _ Hs) in Hi as [[->| ->] _].
Qed.

Lemma get_slot_wp i w (Q : tcp_sock -> cworld U -> Prop) :
  0 <= i < MAX_SE_CONNECTIONS -> len (c_additional (w_conn w)) = MAX_SE_CONNECTIONS ->
  (forall ts, c_additional (w_conn w) !! Z.to_nat i = Some ts -> Q ts w) -> wp (get_slot i) Q w.
Proof.
  intros Hi Hl HQ. unfold wp, get_slot. destruct (i <? 0) eqn:E; [lia|].
  destruct (_ !! _) as [ts|] eqn:El; [by apply HQ|]. apply lookup_ge_None in El. unfold len in Hl. lia.
Qed.

Lemma world_slots w : world_ok w -> len (c_additional (w_conn w)) = MAX_SE_CONNECTIONS.
Proof. intros ((_ & ((Hl & _) & _) & _) & _). done. Qed.

(** The slots a predicate selects are slots. *)
Lemma slots_range p c i : i ∈ slots p c ->
  0 <= i < len (c_additional c) /\ exists ts, c_additional c !! Z.to_nat i = Some ts /\ p ts = true.
Proof.
  unfold slots. intros Hi. apply list_elem_of_omap in Hi as ([k ts] & Hk & Hsome).
  apply elem_of_lookup_imap in Hk as (j & t & [= -> ->] & Hj).
  destruct (p t) eqn:E; [|done]. injection Hsome as <-. rewrite Nat2Z.id.
  pose proof (lookup_lt_Some _ _ _ Hj). unfold len. split; [lia|eauto].
Qed.

Lemma resolve_range ssl fd c slot : link_io_resolve ssl fd c = Some slot ->
  slot = -1 \/ 0 <= slot < len (c_additional c).
Proof.
  unfold link_io_resolve. destruct (_ && _); [intros [= <-]; by left|].
  intros Hh. right. apply (slots_range (fun ts => (ts_ssl ts =? ssl) && (ts_fd ts =? fd))).
  destruct (slots _ c); [done|]. injection Hh as ->. apply list_elem_of_here.
Qed.

(** A link that is still live may be used. *)
Lemma link_io_live_wp slot ssl fd w :
  world_ok w -> slot < MAX_SE_CONNECTIONS ->
  wp (link_io_live slot ssl fd) (fun b w' => w' = w /\ (b = true -> ssl ∉ w_freed w)) w.
Proof.
  intros Hw Hs. unfold link_io_live. wp_step; wp_pure.
  - split; [done|]. intros Hb. replace ssl with (c_ssl (w_conn w)) by lia. by apply primary_alive.
  - apply get_slot_wp; [lia|by apply world_slots|]. intros ts Hts. wp_step. split; [done|]. intros Hb.
    replace ssl with (ts_ssl ts) by lia. by eapply slot_alive.
Qed.

(** ** The transfer functions *)

Definition read_ok n w (r : option (list Z)) w' : Prop :=
  io_step w w' /\ forall b, r = Some b -> len b = n /\ bytes_ok b.

Lemma read_post_ok ch n w r w' : world_ok w -> read_post ch n [] w r w' -> read_ok n w r w'.
Proof.
  intros Hw [Ha Hr]. split; [by eapply io_read|]. intros b Hb.
  destruct (Hr b Hb) as (? & d & -> & Hd). split; [done|]. apply Hd, Hw.
Qed.

Definition alive (p : Z) w : Prop := p ∉ w_freed w.
Lemma alive_read p ch w w' : alive p w -> after_read ch w w' -> alive p w'.
Proof. unfold alive. intros H Ha. by destruct (after_read_conn ch w w' Ha) as (_ & -> & _). Qed.
Lemma alive_write p ch w w' : alive p w -> after_write ch w w' -> alive p w'.
Proof. unfold alive. intros H Ha. by destruct (after_write_conn ch w w' Ha) as (_ & -> & _). Qed.

Lemma ssl_read_loop guard p n w : world_ok w -> 0 <= n -> p ∉ w_freed w ->
  wp (read_fuel (Tls p) ≫= (fun fuel => read_loop guard (ssl_read p) never fuel n [])) (read_ok n w) w.
Proof.
  intros Hw Hn Hp. unfold read_fuel. wp_pure. eapply wp_mono.
  - eapply (read_loop_wp _ _ _ (Tls p) (alive p) (p <> 0)); [intros; by eapply alive_read|
      intros; by apply ssl_read_wp|done|done|lia].
  - intros r w' H. by eapply read_post_ok.
Qed.

Lemma raw_read_loop guard again fd n w : world_ok w -> 0 <= n -> (forall bs, again (RdData bs) = false) ->
  wp (read_fuel (Raw fd) ≫= (fun fuel => read_loop guard (sys_read (Raw fd)) again fuel n [])) (read_ok n w) w.
Proof.
  intros Hw Hn Hag. unfold read_fuel. wp_pure. eapply wp_mono.
  - eapply (read_loop_wp _ _ _ (Raw fd) (fun _ => True) True); [done| |done|done|lia].
    intros m w1 Hm _. eapply wp_mono; [by apply (sys_read_wp again)|]. intros e w2 [? ?]. split; done.
  - intros r w' H. by eapply read_post_ok.
Qed.

Lemma data_read_all_sock_ok ssl fd n w : world_ok w -> 0 <= n ->
  wp (data_read_all_sock ssl fd n) (read_ok n w) w.
Proof.
  intros Hw Hn. unfold data_read_all_sock. wp_pure. wp_step; [by apply raw_read_loop|].
  destruct (link_io_resolve ssl fd (w_conn w)) as [slot|] eqn:E; [|by wp_step].
  apply resolve_range in E. rewrite world_slots in E by done.
  wp_step. eapply wp_mono; [apply link_io_live_wp; [done|unfold MAX_SE_CONNECTIONS in *; lia]|].
  intros live w' [-> Hl]. wp_step; [by wp_step|]. apply ssl_read_loop; [done..|]. apply Hl. by destruct live.
Qed.

Lemma data_read_all_ok n w : world_ok w -> 0 <= n -> wp (data_read_all n) (read_ok n w) w.
Proof.
  intros Hw Hn. unfold data_read_all, raw_read_all, ssl_read_all. wp_pure. wp_step; wp_pure.
  - by apply raw_read_loop.
  - apply ssl_read_loop; [done..|]. by apply primary_alive.
Qed.

Definition u32_ok w (r : option Z) w' : Prop := io_step w w' /\ forall v, r = Some v -> 0 <= v < 2 ^ 32.

Lemma read_u32_post w r w' : read_ok 4 w r w' -> u32_ok w (r32 <$> r) w'.
Proof.
  intros [Hs Hr]. split; [done|]. intros v Hv. apply fmap_Some in Hv as (b & -> & ->).
  destruct (Hr b eq_refl). by apply r32_bound.
Qed.

Lemma read_uint32_sock_ok ssl fd w : world_ok w -> wp (read_uint32_sock ssl fd) (u32_ok w) w.
Proof.
  intros Hw. unfold read_uint32_sock. wp_step. eapply wp_mono; [by apply data_read_all_sock_ok|].
  intros r w' H. wp_step. by apply read_u32_post.
Qed.
Lemma read_uint32_ok w : world_ok w -> wp read_uint32 (u32_ok w) w.
Proof.
  intros Hw. unfold read_uint32. wp_step. eapply wp_mono; [by apply data_read_all_ok|].
  intros r w' H. wp_step. by apply read_u32_post.
Qed.

(** A write moves bytes to one channel and says whether it moved all. *)
Definition write_ok ch bs w (ok : bool) w' : Prop := io_step w w' /\ write_post ch bs w ok w'.

Lemma ssl_write_loop guard p bs w : world_ok w -> p ∉ w_freed w ->
  wp (write_fuel (Tls p) ≫= (fun fuel => write_loop guard (ssl_write p) never fuel bs)) (write_ok (Tls p) bs w) w.
Proof.
  intros Hw Hp. unfold write_fuel. wp_pure. eapply wp_mono.
  - eapply (write_loop_wp _ _ _ (Tls p) (alive p)); [intros; by eapply alive_write|
      intros; by apply ssl_write_wp|done|lia].
  - intros ok w' H. split; [|done]. eapply io_write; [done|apply H].
Qed.

Lemma raw_write_loop guard fd bs w : world_ok w ->
  wp (write_fuel (Raw fd) ≫= (fun fuel => write_loop guard (sys_write (Raw fd)) is_wr_again fuel bs))
     (write_ok (Raw fd) bs w) w.
Proof.
  intros Hw. unfold write_fuel. wp_pure. eapply wp_mono.
  - eapply (write_loop_wp _ _ _ (Raw fd) (fun _ => True)); [done|intros; by apply sys_write_wp|done|lia].
  - intros ok w' H. split; [|done]. eapply io_write; [done|apply H].
Qed.

(** The channel the data of a link travels on. *)
Definition chan_of (c : connection) (ssl fd : Z) : chan := if c_use_ssl_data c then Tls ssl else Raw fd.

Lemma data_write_all_sock_ok ssl fd bs w : world_ok w ->
  wp (data_write_all_sock ssl fd bs) (write_ok (chan_of (w_conn w) ssl fd) bs w) w.
Proof.
  intros Hw. unfold data_write_all_sock, chan_of. wp_pure.
  destruct (c_use_ssl_data (w_conn w)); cbn [negb]; [|by apply raw_write_loop].
  assert (Hno : write_ok (Tls ssl) bs w false w).
  { split; [by apply io_refl|]. split; [apply after_write_refl|]. exists 0. by rewrite tk_0, app_nil_r. }
  destruct (link_io_resolve ssl fd (w_conn w)) as [slot|] eqn:E; [|by wp_step].
  apply resolve_range in E. rewrite world_slots in E by done.
  wp_step. eapply wp_mono; [apply link_io_live_wp; [done|unfold MAX_SE_CONNECTIONS in *; lia]|].
  intros live w' [-> Hl]. wp_step; [by wp_step|]. apply ssl_write_loop; [done..|]. apply Hl. by destruct live.
Qed.

Lemma data_write_all_ok bs w : world_ok w ->
  wp (data_write_all bs) (write_ok (chan_of (w_conn w) (c_ssl (w_conn w)) (c_socket_fd (w_conn w))) bs w) w.
Proof.
  intros Hw. unfold data_write_all, raw_write_all, ssl_write_all, chan_of. wp_pure.
  destruct (c_use_ssl_data (w_conn w)); cbn [negb]; wp_pure.
  - apply ssl_write_loop; [done..|]. by apply primary_alive.
  - by apply raw_write_loop.
Qed.
End world.
