(* ===== verification/AccelLink.v ===== *)
(** * The accelerator behind the connection's interface

    The context of [Accel] with its entry points is an [Accelerator], and its
    theorems discharge the laws the tunnel relies on: the tunnel's theorems
    hold for the real accelerator. *)
From S2P Require Import Prelude Bytes Ring Crypto Fifo Accel AccelInv Conn.

Section link.
Context (sha1 : list Z -> list Z)
        (aead_seal : list Z -> list Z -> list Z -> list Z * list Z)
        (aead_open : list Z -> list Z -> list Z -> list Z -> option (list Z))
        (zlib_compress zlib_uncompress : list Z -> Z -> option (list Z))
        (tick : nat -> Z) (rand : nat -> Z -> bool * list Z) (sys_sendto : nat -> bool).

(** The calls the connection makes on [conn->rudp]. *)
Definition accel_ops : Accelerator aworld := {|
  ac_poll := rudp_poll sha1 aead_seal aead_open zlib_compress zlib_uncompress tick rand sys_sendto;
  ac_recv := rudp_recv;
  ac_send frame := rudp_send sha1 aead_seal zlib_compress tick rand sys_sendto (Some frame) (len frame) 0;
  ac_ready := rudp_is_send_ready;
  ac_fd := rudp_get_udp_fd |}.

Lemma accel_laws :
  rand_ok rand -> aead_ok aead_seal aead_open -> zlib_ok zlib_compress zlib_uncompress ->
  @AcceleratorLaws aworld accel_ops (good 1).
Proof.
  intros Hr Ha Hz. split; cbn [ac_poll ac_recv ac_send ac_ready ac_fd accel_ops].
  - intros w Hw. assert (T : total (rudp_poll sha1 aead_seal aead_open zlib_compress zlib_uncompress tick rand sys_sendto))
      by (eapply total_poll; eassumption).
    specialize (T 1 ltac:(lia) w Hw). destruct (rudp_poll _ _ _ _ _ _ _ _ w) as [| |[[] w']]; [done..|]. by exists w'.
  - intros n w Hw. pose proof (recv_post n 1 ltac:(lia) w Hw) as T.
    destruct (rudp_recv n w) as [| |[[r bs] w']]; [done..|]. destruct T as [Hf Hg]. exists r, bs, w'. by split_and!.
  - intros bs w Hw Hb Hl. pose proof (len_nonneg bs).
    assert (T : total (rudp_send sha1 aead_seal zlib_compress tick rand sys_sendto (Some bs) (len bs) 0)).
    { eapply total_send; [eassumption..|exact Hb|lia|unfold byte_ok; lia|cbn; lia]. }
    specialize (T 1 ltac:(lia) w Hw).
    destruct (rudp_send _ _ _ _ _ _ _ _ _ w) as [| |[r w']]; [done..|]. by exists r, w'.
  - intros k w Hw. pose proof (total_send_ready k 1 ltac:(lia) w Hw) as T.
    destruct (rudp_is_send_ready k w) as [| |[r w']]; [done..|]. by exists r, w'.
  - intros w Hw. assert (T : total rudp_get_udp_fd).
    { apply with_ref_total, total_get. intros. apply total_ret. }
    specialize (T 1 ltac:(lia) w Hw). destruct (rudp_get_udp_fd w) as [| |[r w']]; [done..|]. by exists r, w'.
Qed.
End link.
