(* ===== verification/ConnEx.v ===== *)
(** * A concrete connection for the witnesses

    A connected session with the primary link over TLS, one more TLS link in
    slot 0 and the real accelerator of [AccelLink] in the environment of
    [AccelSpec]. *)
From stdpp Require Import functions.
From S2P Require Import Prelude Bytes Ring Crypto Fifo Accel AccelInv AccelSpec Conn ConnInv WorldInv AccelLink.

(** The object [softether_create] returns is well formed. *)
Lemma create_ok freed mac malloc_ok junk :
  len mac = 5 -> SEND_BLOCK_CAP <= len junk -> 0 ∉ freed -> conn_ok freed (softether_create mac malloc_ok junk).
Proof.
  intros Hm Hj Hf. split; [|split; [|split]].
  - split; [done|]. split; [|by split_and!]. apply Forall_replicate. split; [done|]. split; [done|]. apply bytes_ok_zeros.
  - split; [|done]. split; [done|]. split; [apply Forall_replicate; split; [by left|done]|].
    assert (Eo : owners (softether_create mac malloc_ok junk) = []) by done. rewrite Eo.
    split; [constructor|]. split; [constructor|done].
  - unfold stage_ok, softether_create. cbn [c_send_block c_send_block_cap]. destruct malloc_ok; [|by split_and!].
    split; [unfold SEND_BLOCK_CAP, ETH_HEADER_SIZE in *; slia|]. by split_and!.
  - split; [done|]. cbn [c_client_mac softether_create]. split; [rewrite len_cons, len_map; lia|].
    split; [|split; [done|split; [apply bytes_ok_zeros|done]]].
    apply bytes_ok_cons; [unfold byte_ok; lia|]. apply Forall_map, Forall_forall. intros r _.
    unfold byte_ok. change 255 with (Z.ones 8). rewrite Z.land_ones by lia. apply Z.mod_pos_bound. lia.
Qed.

#[export] Instance ex_accel : Accelerator aworld :=
  accel_ops ex_sha1 ex_seal ex_open ex_zlib ex_unzlib ex_tick ex_rand (fun _ => true).
#[export] Instance ex_laws : AcceleratorLaws aworld (good 1).
Proof. apply accel_laws; [apply ax_rand_ok|apply ex_aead_ok|apply ex_zlib_ok]. Qed.

Lemma ex_unzlib_fits src cap d : bytes_ok src -> ex_unzlib src cap = Some d -> len d <= cap /\ bytes_ok d.
Proof.
  intros Hb. unfold ex_unzlib. destruct src as [|x l]; [done|]. apply Forall_cons in Hb as [_ Hb].
  destruct (_ <=? _) eqn:E; [|done]. intros [= <-]. split; [lia|done].
Qed.

Definition ex_created : connection := softether_create [17; 34; 51; 68; 85] true (zeros SEND_BLOCK_CAP).
Definition ex_links : list tcp_sock := Sock 5 8 8 TCP_DIRECTION_BOTH 0 0 true :: replicate 31 sock_zero.
Definition ex_conn : connection :=
  ex_created <| c_socket_fd := 3 |> <| c_ssl_ctx := 7 |> <| c_ssl := 7 |> <| c_state := STATE_CONNECTED |>
    <| c_use_ssl_data := true |> <| c_session_established := true |> <| c_assigned_ip := 0x0A000005 |>
    <| c_additional := ex_links |> <| c_num_additional := 1 |> <| c_max_connection := 2 |>.

Definition ex_cworld (rudp : option aworld) (i : chan -> list rd_event) (room : chan -> list wr_event) : cworld aworld :=
  CWorld ex_conn rudp i room (fun _ => []) [] [] 0 0 [] [].
Definition quiet {A} (_ : chan) : list A := [].

Lemma ex_conn_ok : conn_ok [] ex_conn.
Proof.
  assert (Hc : conn_ok [] ex_created).
  { apply create_ok; [done| |by intros ?%elem_of_nil]. unfold len, zeros. rewrite length_replicate. done. }
  destruct Hc as (Hq & _ & Hs & Hf). split; [exact Hq|]. split; [|split; [exact Hs|]].
  - split; [|done]. split; [done|]. split.
    + cbn. constructor; [split; [by right|done]|]. apply (Forall_replicate slot_ok 31). split; [by left|done].
    + assert (Eo : owners ex_conn = [7; 8]) by done. rewrite Eo.
      split; [apply (bool_decide_unpack _); vm_compute; exact I|].
      split; [repeat constructor; by intros ?%elem_of_nil|by intros ?%elem_of_nil].
  - destruct Hf as (? & ? & ? & ? & ? & _). by split_and!.
Qed.

Lemma ex_cworld_ok rudp i room :
  (forall ch, Forall rd_ok (i ch)) -> (forall u, rudp = Some u -> good 1 u) -> world_ok (good 1) (ex_cworld rudp i room).
Proof. intros Hi Hr. split; [exact ex_conn_ok|]. by split. Qed.
