(* ===== verification/Channel.v ===== *)
(** * The data channel: blocks over TLS links (packet_handler.c)

    Sending a block with failover, receiving messages of blocks into the
    connection's queue, keepalives. A message is a block count followed by
    length-prefixed blocks; the count [0xFFFFFFFF] announces a keepalive.

    Functions that return a C [int] return that number; a [bool] stands for
    the 0 / -1 of the transfer helpers. *)
From stdpp Require Import functions.
From S2P Require Import Prelude Bytes Ring Crypto Conn.

Definition INT_MAX : Z := 2 ^ 31 - 1.
Definition SEND_CAPACITY : Z := MAX_SE_CONNECTIONS + 1.
Definition KEEPALIVE_CAP : Z := 512.
Definition SKIP_CHUNK : Z := 2048.
(** Passes that skip the largest block. *)
Definition SKIP_FUEL : nat := 1251.

(** [a += b] on an [int]. *)
Definition add_int (a b : Z) : res Z := if a + b <=? INT_MAX then Ok (a + b) else Ub.

Section channel.
Context {U : Type} `{Accelerator U}.
Context (tick crand : nat -> Z) (malloc_ok : Z -> bool)
        (zlib_compress zlib_uncompress : list Z -> Z -> option (list Z)) (zlib_bound : Z -> Z).
Abbreviation M := (St (cworld U)).

(** ** Retiring an additional link *)

(** The owner of the slot's context; the slot is left without one. *)
Definition take_ssl_ctx_slot (i : Z) : M Z :=
  ts ← get_slot i;
  set_slot i (ts <| ts_ssl_ctx := 0 |>) ;;
  mret (ts_ssl_ctx ts).

(** The slot is emptied before its descriptor and its context are released. *)
Definition retire_slot (i : Z) : M unit :=
  ts ← get_slot i;
  set_slot i (ts <| ts_active := false |> <| ts_ssl := 0 |> <| ts_fd := -1 |>) ;;
  sys_close (ts_fd ts) ;;
  doomed ← take_ssl_ctx_slot i;
  when (negb (doomed =? 0)) (ssl_destroy doomed) ;;
  modify_conn (fun c => c <| c_num_additional := c_num_additional c - 1 |>).

(** ** Sending a block *)

(** The selected socket, then every other that can send. *)
Definition transmit_candidates (best : Z) (c : connection) : list Z :=
  (if best =? 0 then [] else [best]) ++
  (if primary_sends c then [0] else []) ++
  filter (fun idx => idx <> best) (map (Z.add 1) (slots slot_sends c)).

(** The failed slot is retired unless someone else already did. *)
Definition retire_failed (i ssl fd : Z) : M unit :=
  ts ← get_slot i;
  when ((ts_ssl ts =? ssl) && (ts_fd ts =? fd)) (retire_slot i).

Fixpoint transmit_loop (candidates : list Z) (block : list Z) : M bool :=
  match candidates with
  | [] => mret false
  | 0 :: rest =>
      c ← get_conn;
      if (c_ssl c =? 0) || (c_socket_fd c <? 0) then transmit_loop rest block else
      ok ← data_write_all block;
      if (ok : bool) then mret true else transmit_loop rest block
  | idx :: rest =>
      ts ← get_slot (idx - 1);
      if negb (ts_active ts) || (ts_ssl ts =? 0) || (ts_fd ts <? 0) then transmit_loop rest block else
      ok ← data_write_all_sock (ts_ssl ts) (ts_fd ts) block;
      if (ok : bool) then mret true else
      retire_failed (idx - 1) (ts_ssl ts) (ts_fd ts) ;;
      transmit_loop rest block
  end.

Definition select_socket : M Z :=
  c ← get_conn;
  r ← lift (softether_select_send_socket c);
  modify_conn (fun _ => r.2) ;; mret r.1.

Definition softether_transmit_block_nolock (block : list Z) : M bool :=
  if len block <? 8 then mret false else
  c ← get_conn;
  if bool_decide (c_state c = STATE_DISCONNECTING) || (c_ssl c =? 0) then mret false else
  best ← select_socket;
  c ← get_conn;
  let candidates := transmit_candidates best c in
  room SEND_CAPACITY (len candidates) ;;
  transmit_loop candidates block.

(** The write mutex around it is not modelled. *)
Definition softether_transmit_block : list Z -> M bool := softether_transmit_block_nolock.

(** ** Keepalives *)

Fixpoint rand_bytes (n : nat) : M (list Z) :=
  match n with
  | O => mret []
  | S n => r ← c_rand crand; rest ← rand_bytes n; mret (Z.land r 255 :: rest)
  end.

Definition softether_send_keepalive_sock (ssl fd : Z) : M Z :=
  if ssl =? 0 then mret (-1) else
  c ← get_conn;
  if negb (bool_decide (c_state c = STATE_CONNECTED)) then mret (-1) else
  r ← c_rand crand;
  let ka_size := u32 (Z.rem r 64) in
  room 136 (8 + ka_size) ;;
  payload ← rand_bytes (Z.to_nat ka_size);
  ok ← data_write_all_sock ssl fd (w32 KEEP_ALIVE_MAGIC ++ w32 ka_size ++ payload);
  mret (if (ok : bool) then 8 + ka_size else -1).

Definition softether_send_keepalive : M Z :=
  c ← get_conn;
  if c_ssl c =? 0 then mret (-1) else softether_send_keepalive_sock (c_ssl c) (c_socket_fd c).

Definition keepalive_interval (server_timeout : Z) : Z :=
  let timeout := if negb (server_timeout =? 0) then server_timeout else 30000 in
  let interval := timeout / 3 in
  let interval := if interval <? 2000 then 2000 else interval in
  if interval >? 12000 then 12000 else interval.

(** The keepalives over the slots [i], [i + 1], ... *)
Fixpoint keepalive_slots (n : nat) (i : Z) : M unit :=
  match n with
  | O => mret tt
  | S n =>
      ts ← get_slot i;
      when (ts_active ts && can_send (ts_direction ts) && negb (ts_ssl ts =? 0) && (ts_fd ts >=? 0))
        (_ ← softether_send_keepalive_sock (ts_ssl ts) (ts_fd ts); mret tt) ;;
      keepalive_slots n (i + 1)
  end.

Definition softether_send_keepalive_all : M Z :=
  c ← get_conn;
  if c_ssl c =? 0 then mret (-1) else
  if negb (bool_decide (c_state c = STATE_CONNECTED)) then mret (-1) else
  now ← softether_tick_ms tick;
  if c_next_tcp_keepalive_time c =? 0 then
    modify_conn (fun c => c <| c_next_tcp_keepalive_time := now |>) ;; mret 0
  else if now <? c_next_tcp_keepalive_time c then mret 0 else
  modify_conn (fun c =>
    c <| c_next_tcp_keepalive_time := u64 (now + keepalive_interval (c_server_timeout c)) |>) ;;
  when (primary_sends c)
    (_ ← softether_send_keepalive_sock (c_ssl c) (c_socket_fd c); mret tt) ;;
  keepalive_slots (Z.to_nat MAX_SE_CONNECTIONS) 0 ;;
  mret 0.

(** ** Sending one frame *)

(** The payload as it goes on the wire. *)
Definition wire_payload (payload : list Z) (c : connection) : list Z :=
  if c_server_use_compress c && (len payload >? 1) && malloc_ok (zlib_bound (len payload)) then
    match compress_data zlib_compress payload (zlib_bound (len payload)) with
    | Some d => d
    | None => payload
    end
  else payload.

(** [block_count = 1], the size and the data into the staging buffer. *)
Definition stage_block (data : list Z) (buf : list Z) : res (list Z) :=
  buf ← blit (w32 1) 0 buf;
  buf ← blit (w32 (len data)) 4 buf;
  if len data >? 0 then blit data 8 buf else Ok buf.

Definition softether_send_packet (command : Z) (payload : list Z) : M Z :=
  c ← get_conn;
  if bool_decide (c_state c = STATE_DISCONNECTED) || bool_decide (c_state c = STATE_DISCONNECTING)
  then mret (-1) else
  if (command =? CMD_KEEPALIVE) || (command =? CMD_KEEPALIVE_ACK) then softether_send_keepalive else
  if c_ssl c =? 0 then mret (-1) else
  let data := wire_payload payload c in
  let total_size := u32 (8 + len data) in
  match c_send_block c with
  | None => mret (-1)
  | Some buf =>
      if total_size >? c_send_block_cap c then mret (-1) else
      buf ← lift (stage_block data buf);
      modify_conn (fun c => c <| c_send_block := Some buf |>) ;;
      send_idx ← select_socket;
      block ← lift (fetch 0 total_size buf);
      ok ← (if send_idx >? 0 then
              ts ← get_slot (send_idx - 1);
              if negb (ts_active ts) || (ts_ssl ts =? 0) then mret false
              else data_write_all_sock (ts_ssl ts) (ts_fd ts) block
            else data_write_all block);
      mret (if (ok : bool) then total_size else -1)
  end.

(** ** Receiving one message into a buffer *)

(** The eight-byte compression signature in front of a block. *)
Definition has_magic (block : list Z) : bool :=
  (len block >? 8) && (r64_loop (tk 8 block) =? COMPRESS_MAGIC).

(** A block of a compressed session, for a destination of [cap] bytes: zlib
    data, zlib data behind the signature, or the bytes as they are. *)
Definition unpack_block (cap : Z) (block : list Z) : list Z :=
  match uncompress_data zlib_uncompress block cap with
  | Some d => d
  | None =>
      if has_magic block then
        match uncompress_data zlib_uncompress (dr 8 block) cap with Some d => d | None => block end
      else block
  end.

(** Read and drop [remaining] bytes, 2048 at a time. *)
Fixpoint skip_loop (read : Z -> M (option (list Z))) (fuel : nat) (remaining : Z) : M bool :=
  if remaining <=? 0 then mret true else
  match fuel with
  | O => fun _ => Err
  | S fuel =>
      let chunk := if remaining >? SKIP_CHUNK then SKIP_CHUNK else remaining in
      r ← read chunk;
      match r with
      | None => mret false
      | Some _ => skip_loop read fuel (remaining - chunk)
      end
  end.

(** What [softether_receive_packet] stores through its pointers: nothing when
    [None]. The payload is the first [*payload_len] bytes of the buffer. *)
Record received := Received { rcv_ret : Z; rcv_command : option Z; rcv_payload : option (list Z) }.

Definition receive_error (payload : option (list Z)) : received := Received (-1) None payload.

Fixpoint receive_blocks (n : nat) (max_payload total_read : Z) (stored : option (list Z)) : M received :=
  match n with
  | O => mret (Received total_read (Some CMD_DATA) stored)
  | S n =>
      sz ← read_uint32;
      match sz with
      | None => mret (receive_error stored)
      | Some block_size =>
          total_read ← lift (add_int total_read 4);
          if block_size >? MAX_BLOCK_SIZE then mret (receive_error stored) else
          if bool_decide (stored = None) && (block_size <=? max_payload) then
            if block_size =? 0 then receive_blocks n max_payload total_read (Some []) else
            if negb (malloc_ok block_size) then mret (receive_error stored) else
            b ← data_read_all block_size;
            match b with
            | None => mret (receive_error stored)
            | Some block =>
                c ← get_conn;
                let data := if c_server_use_compress c then unpack_block max_payload block else block in
                room max_payload (len data) ;;
                total_read ← lift (add_int total_read block_size);
                receive_blocks n max_payload total_read (Some data)
            end
          else
            ok ← skip_loop data_read_all SKIP_FUEL block_size;
            if negb ok then mret (receive_error stored) else
            total_read ← lift (add_int total_read block_size);
            receive_blocks n max_payload total_read stored
      end
  end.

Definition softether_receive_packet (max_payload : Z) : M received :=
  c ← get_conn;
  if (c_ssl c =? 0) || (c_socket_fd c <? 0) then mret (receive_error None) else
  if bool_decide (c_state c = STATE_DISCONNECTED) || bool_decide (c_state c = STATE_DISCONNECTING)
  then mret (receive_error None) else
  bc ← read_uint32;
  match bc with
  | None => mret (receive_error None)
  | Some block_count =>
      if block_count =? KEEP_ALIVE_MAGIC then
        sz ← read_uint32;
        match sz with
        | None => mret (receive_error None)
        | Some ka_size =>
            let ka_size := if ka_size >? KEEPALIVE_CAP then KEEPALIVE_CAP else ka_size in
            room KEEPALIVE_CAP ka_size ;;
            b ← data_read_all ka_size;
            match b with
            | None => mret (receive_error None)
            | Some _ => mret (Received (8 + ka_size) (Some CMD_KEEPALIVE) (Some []))
            end
        end
      else if block_count =? 0 then mret (Received 4 (Some CMD_DATA) (Some []))
      else receive_blocks (Z.to_nat block_count) max_payload 4 None
  end.

Definition softether_process_keepalive : M Z :=
  r ← softether_receive_packet 256;
  if rcv_ret r <? 0 then mret (-1) else
  when (bool_decide (rcv_command r = Some CMD_KEEPALIVE)) (_ ← softether_send_keepalive; mret tt) ;;
  mret 0.
End channel.
