(* ===== verification/ChannelInv.v ===== *)
(** * The data channel keeps the connection well formed

    [softether_transmit_block], [softether_send_packet],
    [softether_receive_packet] and the keepalives return from every
    well-formed world in a well-formed world, whatever the links do. *)
From stdpp Require Import functions.
From S2P Require Import Prelude Bytes Ring Crypto Conn Channel ConnInv WorldInv.

(** ** Retiring a slot *)

Definition retired (ts : tcp_sock) : tcp_sock :=
  ts <| ts_active := false |> <| ts_ssl := 0 |> <| ts_fd := -1 |> <| ts_ssl_ctx := 0 |>.

(** The connection without slot [i]. *)
Definition retire_conn (i : Z) (ts : tcp_sock) (c : connection) : connection :=
  c <| c_additional := <[Z.to_nat i := retired ts]> (c_additional c) |>
    <| c_num_additional := c_num_additional c - 1 |>.

Lemma owners_split c i ts : c_additional c !! i = Some ts ->
  exists a b, owners c = a ++ filter (fun p => p <> 0) [ts_ssl_ctx ts] ++ b /\
    forall ts', ts_ssl_ctx ts' = 0 ->
    owners (c <| c_additional := <[i := ts']> (c_additional c) |>) = a ++ b.
Proof.
  intros Hi. exists (filter (fun p => p <> 0) (c_ssl c :: map ts_ssl_ctx (take i (c_additional c)))),
    (filter (fun p => p <> 0) (map ts_ssl_ctx (drop (S i) (c_additional c)))).
  split.
  - unfold owners. rewrite <- (take_drop_middle (c_additional c) i ts) at 1 by done.
    rewrite map_app, app_comm_cons, filter_app. f_equal.
    change (map ts_ssl_ctx (ts :: ?l)) with ([ts_ssl_ctx ts] ++ map ts_ssl_ctx l). by rewrite filter_app.
  - intros ts' H0. unfold owners. change (c_ssl (c <| c_additional := _ |>)) with (c_ssl c).
    change (c_additional (c <| c_additional := ?l |>)) with l.
    pose proof (lookup_lt_Some _ _ _ Hi). rewrite insert_take_drop by done.
    rewrite map_app, app_comm_cons, filter_app. f_equal.
    change (map ts_ssl_ctx (ts' :: ?l)) with (ts_ssl_ctx ts' :: map ts_ssl_ctx l).
    by rewrite H0, filter_cons_False by auto.
Qed.

Lemma active_retire l i ts ts' : l !! i = Some ts -> ts_active ts = true -> ts_active ts' = false ->
  active_count (<[i := ts']> l) = active_count l - 1.
Proof.
  intros Hi Ha Ha'. pose proof (lookup_lt_Some _ _ _ Hi). unfold active_count.
  rewrite <- (take_drop_middle l i ts) at 2 by done. rewrite insert_take_drop by done.
  rewrite !filter_app, filter_cons_False, filter_cons_True by congruence. slia.
Qed.

Lemma active_same l i ts ts' : l !! i = Some ts -> ts_active ts' = ts_active ts ->
  active_count (<[i := ts']> l) = active_count l.
Proof.
  intros Hi Ha. pose proof (lookup_lt_Some _ _ _ Hi). unfold active_count.
  rewrite <- (take_drop_middle l i ts) at 2 by done. rewrite insert_take_drop by done.
  rewrite !filter_app, !filter_cons, Ha. destruct (decide _); slia.
Qed.

(** A slot whose context was taken and destroyed. *)
Lemma core_drop freed c i ts ts' :
  links_core freed c -> c_additional c !! i = Some ts -> slot_ok ts' -> ts_ssl_ctx ts' = 0 ->
  links_core (if ts_ssl_ctx ts =? 0 then freed else ts_ssl_ctx ts :: freed)
    (c <| c_additional := <[i := ts']> (c_additional c) |>).
Proof.
  intros (Hl & Hs & Hnd & Hf & H0) Hi Hok Hctx. destruct (owners_split c _ _ Hi) as (a & b & Ho & Ho').
  specialize (Ho' ts' Hctx). unfold links_core. rewrite Ho'.
  split; [cbn; by rewrite len_insert|]. split; [cbn; by apply Forall_insert|].
  rewrite Ho in Hnd, Hf. apply NoDup_app in Hnd as (Ha & Hab & Hb).
  apply NoDup_app in Hb as (Hc & Hcb & Hb). apply Forall_app in Hf as [Hfa Hf]. apply Forall_app in Hf as [Hfc Hfb].
  split; [apply NoDup_app; split; [done|split; [|done]]; intros x Hx Hxb; eapply Hab; [done|apply elem_of_app; by right]|].
  destruct (ts_ssl_ctx ts =? 0) eqn:E; [split; [by apply Forall_app|done]|].
  rewrite filter_cons_True in Hab, Hcb by lia. cbn [filter list_filter] in Hab, Hcb.
  assert (Hfr : forall x l, Forall (fun p => p ∉ freed) l -> x ∈ l -> x <> ts_ssl_ctx ts -> x ∉ ts_ssl_ctx ts :: freed).
  { intros x l Hl' Hx Hne Hin. apply elem_of_cons in Hin as [?|Hin]; [done|]. by eapply Forall_forall in Hl'. }
  split.
  - apply Forall_app. split; apply Forall_forall; intros x Hx; (eapply Hfr; [|exact Hx|]); try done; intros ->.
    + eapply Hab; [done|apply list_elem_of_here].
    + eapply Hcb; [apply list_elem_of_here|done].
  - intros Hin. apply elem_of_cons in Hin as [Hx|Hin]; [lia|done].
Qed.

Lemma links_retire freed c i ts :
  links_ok freed c -> c_additional c !! Z.to_nat i = Some ts -> ts_active ts = true ->
  links_ok (if ts_ssl_ctx ts =? 0 then freed else ts_ssl_ctx ts :: freed) (retire_conn i ts c).
Proof.
  intros [Hc Hn] Hi Hact. split.
  - apply (core_drop freed c _ ts (retired ts)); [done..| |done]. by split; [left|].
  - unfold retire_conn. cbn. by rewrite Hn, (active_retire _ _ ts).
Qed.

(** Replacing a slot without touching its contexts. *)
Lemma links_set_slot freed c i ts ts' :
  links_ok freed c -> c_additional c !! i = Some ts -> ts_ssl_ctx ts' = ts_ssl_ctx ts -> slot_ok ts' ->
  ts_active ts' = ts_active ts ->
  links_ok freed (c <| c_additional := <[i := ts']> (c_additional c) |>).
Proof.
  intros [(Hl & Hs & Hnd & Hf & H0) Hn] Hi Hctx Hok Hact.
  assert (Eo : owners (c <| c_additional := <[i := ts']> (c_additional c) |>) = owners c).
  { assert (Em : map ts_ssl_ctx (<[i := ts']> (c_additional c)) = map ts_ssl_ctx (c_additional c)).
    { change (map ts_ssl_ctx) with (fmap (M := list) ts_ssl_ctx). rewrite list_fmap_insert, Hctx.
      apply list_insert_id. by rewrite list_lookup_fmap, Hi. }
    unfold owners. change (c_additional (c <| c_additional := ?l |>)) with l. by rewrite Em. }
  unfold links_ok, links_core. rewrite Eo. cbn. rewrite len_insert. split_and!; try done; [by apply Forall_insert|].
  by rewrite Hn, (active_same _ _ ts).
Qed.

(** What retiring a slot leaves alone. *)
Lemma conn_retire freed c i ts :
  conn_ok freed c -> c_additional c !! Z.to_nat i = Some ts -> ts_active ts = true ->
  conn_ok (if ts_ssl_ctx ts =? 0 then freed else ts_ssl_ctx ts :: freed) (retire_conn i ts c).
Proof.
  intros (Hq & Hl & Hs & Hf) Hi Ha. split; [exact Hq|]. split; [by apply links_retire|]. split; [exact Hs|exact Hf].
Qed.

Section channel.
Context {U : Type} `{Accelerator U} (good : U -> Prop).
Context (tick crand : nat -> Z) (malloc_ok : Z -> bool)
        (zlib_compress zlib_uncompress : list Z -> Z -> option (list Z)) (zlib_bound : Z -> Z).
Implicit Types w : cworld U.
Abbreviation wok := (world_ok good).

Definition slot_at w (i : Z) (ts : tcp_sock) : Prop := c_additional (w_conn w) !! Z.to_nat i = Some ts.

Lemma get_slot_ok i w (Q : tcp_sock -> cworld U -> Prop) :
  wok w -> 0 <= i < MAX_SE_CONNECTIONS -> (forall ts, slot_at w i ts -> Q ts w) -> wp (get_slot i) Q w.
Proof. intros Hw Hi HQ. apply get_slot_wp; [done|by eapply world_slots|done]. Qed.

(** The effect of retiring slot [i]: the slot is emptied, its context is
    destroyed and its descriptor closed. *)
Definition retire_post i ts w w' : Prop :=
  w' = w <| w_conn := retire_conn i ts (w_conn w) |>
         <| w_freed := if ts_ssl_ctx ts =? 0 then w_freed w else ts_ssl_ctx ts :: w_freed w |>
         <| w_closed := if ts_fd ts >=? 0 then ts_fd ts :: w_closed w else w_closed w |>.

Lemma retire_slot_wp i ts w : wok w -> 0 <= i < MAX_SE_CONNECTIONS -> slot_at w i ts -> ts_active ts = true ->
  wp (retire_slot i) (fun _ w' => wok w' /\ retire_post i ts w w') w.
Proof.
  intros Hw Hi Hts Hact. unfold retire_slot. wp_step. apply get_slot_ok; [done..|]. intros ts0 Hts0.
  assert (ts0 = ts) as -> by (unfold slot_at in *; congruence).
  unfold set_slot. wp_pure. unfold sys_close.
  set (w1 := w <| w_conn := _ |>).
  assert (Hl : (Z.to_nat i < length (c_additional (w_conn w)))%nat) by (by eapply lookup_lt_Some).
  assert (Hgo : forall w2, w2 = w1 <| w_closed := if ts_fd ts >=? 0 then ts_fd ts :: w_closed w else w_closed w |> ->
    wp (take_ssl_ctx_slot i ≫= fun doomed => when (negb (doomed =? 0)) (ssl_destroy doomed) ;;
        modify_conn (fun c => c <| c_num_additional := c_num_additional c - 1 |>))
       (fun _ w' => wok w' /\ retire_post i ts w w') w2).
  { intros w2 ->. wp_step. unfold take_ssl_ctx_slot. wp_step.
    apply get_slot_wp; [done|cbn; rewrite len_insert; by eapply world_slots|].
    intros ts1 Hts1. cbn in Hts1. rewrite list_lookup_insert_eq in Hts1 by done. injection Hts1 as <-.
    unfold set_slot. wp_pure. cbn [ts_ssl_ctx upd].
    assert (Hfin : forall w3, retire_post i ts w w3 -> wok w3 /\ retire_post i ts w w3).
    { intros w3 E. split; [|done]. rewrite E. destruct Hw as (Hcn & Hi' & Hg).
      split; [by apply conn_retire|]. by split. }
    wp_step.
    - unfold ssl_destroy. wp_step. apply deref_ssl_wp.
      { cbn. eapply slot_alive; [done|exact Hts]. }
      wp_pure. apply Hfin. unfold retire_post. rewrite (proj2 (Z.eqb_neq _ _)) by lia.
      unfold retire_conn, retired. cbn. rewrite list_insert_insert_eq. done.
    - wp_pure. apply Hfin. unfold retire_post. rewrite (proj2 (Z.eqb_eq _ _)) by lia.
      unfold retire_conn, retired. cbn. rewrite list_insert_insert_eq. by destruct w. }
  wp_step.
  - apply wp_modify, Hgo. by rewrite Hc.
  - apply Hgo. rewrite Hc. by destruct w.
Qed.

(** ** Failover *)

(** Sockets by candidate number: 0 the primary link, [idx] slot [idx - 1]. *)
Definition cand_ok (idx : Z) : Prop := 0 <= idx <= MAX_SE_CONNECTIONS.
Definition cand_chan (c : connection) (idx : Z) : chan :=
  if idx =? 0 then chan_of c (c_ssl c) (c_socket_fd c) else
  match c_additional c !! Z.to_nat (idx - 1) with
  | Some ts => chan_of c (ts_ssl ts) (ts_fd ts)
  | None => Raw (-1)
  end.
Definition ts_usable (ts : tcp_sock) : bool := ts_active ts && negb (ts_ssl ts =? 0) && (ts_fd ts >=? 0).
Definition cand_usable (c : connection) (idx : Z) : bool :=
  if idx =? 0 then negb (c_ssl c =? 0) && (c_socket_fd c >=? 0) else
  match c_additional c !! Z.to_nat (idx - 1) with Some ts => ts_usable ts | None => false end.

(** [c'] is [c] with some active slots retired. *)
Definition slot_shrinks (ts ts' : tcp_sock) : Prop :=
  ts' = ts \/ ts_active ts = true /\ ts' = retired ts.
Definition shrinks (c c' : connection) : Prop :=
  c' = c <| c_additional := c_additional c' |> <| c_num_additional := c_num_additional c' |> /\
  Forall2 slot_shrinks (c_additional c) (c_additional c').

#[export] Instance slot_shrinks_preorder : PreOrder slot_shrinks.
Proof.
  split; [by left|]. intros x y z [->|[Ha ->]] [->|[Hb ->]]; first [by left|by right].
Qed.
#[export] Instance shrinks_preorder : PreOrder shrinks.
Proof.
  split; [intros c; split; [by destruct c|done]|].
  intros c1 c2 c3 [E1 H1] [E2 H2]. split; [rewrite E2, E1; by destruct c1|]. by etrans.
Qed.

Lemma shrinks_retire c i ts : c_additional c !! Z.to_nat i = Some ts -> ts_active ts = true ->
  shrinks c (retire_conn i ts c).
Proof.
  intros Hi Ha. split; [by destruct c|]. unfold retire_conn. cbn.
  rewrite <- (list_insert_id (c_additional c) (Z.to_nat i) ts) at 1 by done.
  apply Forall2_insert; [done|]. by right.
Qed.

Lemma shrinks_use_ssl c c' : shrinks c c' -> c_use_ssl_data c' = c_use_ssl_data c /\
  c_ssl c' = c_ssl c /\ c_socket_fd c' = c_socket_fd c /\ c_state c' = c_state c.
Proof. intros [-> _]. by destruct c. Qed.

Lemma cand_retire c i ts idx :
  c_additional c !! Z.to_nat i = Some ts -> cand_ok idx -> 0 <= i -> idx <> i + 1 ->
  cand_chan (retire_conn i ts c) idx = cand_chan c idx /\
  cand_usable (retire_conn i ts c) idx = cand_usable c idx.
Proof.
  intros Hi [Hx _] Hi0 Hne. unfold cand_chan, cand_usable. destruct (idx =? 0) eqn:E; [by destruct c|].
  unfold retire_conn. cbn. rewrite !list_lookup_insert_ne by lia. by destruct c.
Qed.

Definition healthy w (idx : Z) : Prop :=
  cand_usable (w_conn w) idx = true /\ w_room w (cand_chan (w_conn w) idx) = [] /\
  running w = true.

#[export] Instance healthy_dec w idx : Decision (healthy w idx).
Proof. unfold healthy. apply _. Defined.

(** Distinct slots of a TLS session have distinct channels. *)
Lemma resolve_live w ssl fd i ts :
  wok w -> 0 <= i < MAX_SE_CONNECTIONS -> slot_at w i ts -> ts_ssl ts = ssl -> ts_fd ts = fd ->
  exists slot, link_io_resolve ssl fd (w_conn w) = Some slot /\
    slot < MAX_SE_CONNECTIONS /\ link_io_live slot ssl fd w = Ok (true, w).
Proof.
  intros Hw Hi Hts <- <-. unfold link_io_resolve. destruct (_ && _) eqn:E.
  - exists (-1). split; [done|]. split; [done|]. 
    change (Ok ((c_ssl (w_conn w) =? ts_ssl ts) && (c_socket_fd (w_conn w) =? ts_fd ts), w) = Ok (true, w)).
    do 2 f_equal. lia.
  - set (p := fun t : tcp_sock => _).
    assert (Hp : Z.of_nat (Z.to_nat i) ∈ slots p (w_conn w)).
    { unfold slots. apply list_elem_of_omap. exists (Z.to_nat i, ts). split.
      - apply elem_of_lookup_imap. eauto.
      - unfold p. by rewrite !Z.eqb_refl. }
    destruct (slots p (w_conn w)) as [|s l] eqn:Es; [by apply elem_of_nil in Hp|].
    exists s. split; [done|].
    destruct (slots_range p (w_conn w) s) as [Hr (t & Ht & Hpt)]; [rewrite Es; apply list_elem_of_here|].
    rewrite (world_slots good) in Hr by done. split; [lia|].
    unfold link_io_live. destruct (s <? 0) eqn:E0; [lia|]. unfold get_slot, mbind, St_bind.
    rewrite E0, Ht. unfold p in Hpt. cbn. by rewrite Hpt.
Qed.

(** A write that meets no event is taken whole. *)
Lemma sys_write_clear ch bs w : w_room w ch = [] ->
  wp (sys_write ch bs) (fun e w' => e = WrRoom (len bs) /\ after_write ch w w') w.
Proof.
  intros Hr. eapply wp_mono; [apply wp_and; [apply (sys_write_wp (fun _ => false)); done|]|].
  - exact (sys_write_room ch bs w Hr).
  - intros e w' [(Ha & _) ->]. done.
Qed.

Lemma clear_ssl_write guard p bs w : p <> 0 -> p ∉ w_freed w -> w_room w (Tls p) = [] ->
  (forall w', after_write (Tls p) w w' -> guard w' = true) ->
  wp (write_fuel (Tls p) ≫= (fun fuel => write_loop guard (ssl_write p) never fuel bs)) (fun ok _ => ok = true) w.
Proof.
  intros Hp Hf Hr Hg. unfold write_fuel. wp_pure.
  apply (write_loop_clear guard (ssl_write p) never (Tls p) (alive p)); [done..| |lia].
  intros b w1 Ha Hroom. unfold ssl_write. wp_step; [lia|]. wp_step. apply deref_ssl_wp; [done|].
  by apply sys_write_clear.
Qed.

Lemma clear_raw_write guard fd bs w : w_room w (Raw fd) = [] ->
  (forall w', after_write (Raw fd) w w' -> guard w' = true) ->
  wp (write_fuel (Raw fd) ≫= (fun fuel => write_loop guard (sys_write (Raw fd)) is_wr_again fuel bs)) (fun ok _ => ok = true) w.
Proof.
  intros Hr Hg. unfold write_fuel. wp_pure.
  apply (write_loop_clear guard (sys_write (Raw fd)) is_wr_again (Raw fd) (fun _ => True)); [done..| |lia].
  intros b w1 _ Hroom. by apply sys_write_clear.
Qed.

(** A healthy candidate takes the block. *)
Lemma healthy_slot_write block w i ts : wok w -> 0 <= i < MAX_SE_CONNECTIONS -> slot_at w i ts ->
  healthy w (i + 1) -> wp (data_write_all_sock (ts_ssl ts) (ts_fd ts) block) (fun ok _ => ok = true) w.
Proof.
  intros Hw Hi Hts (Hu & Hroom & _). unfold cand_usable, cand_chan in *.
  replace (i + 1 =? 0) with false in * by lia. replace (i + 1 - 1) with i in * by lia.
  unfold slot_at in Hts. rewrite Hts in Hu, Hroom. unfold chan_of in Hroom. unfold ts_usable in Hu.
  unfold data_write_all_sock. wp_pure. destruct (c_use_ssl_data (w_conn w)); cbn [negb].
  - destruct (resolve_live w (ts_ssl ts) (ts_fd ts) i ts) as (slot & -> & Hs & Hl); [done..|].
    wp_step. eapply wp_of_run; [exact Hl|]. cbn [negb]. apply clear_ssl_write; [lia| |done|done].
    by eapply slot_alive.
  - by apply clear_raw_write.
Qed.

Lemma healthy_primary_write block w : wok w -> healthy w 0 ->
  wp (data_write_all block) (fun ok _ => ok = true) w.
Proof.
  intros Hw (Hu & Hroom & Hrun). unfold cand_usable, cand_chan in *. cbn in Hu, Hroom.
  assert (Hg : forall ch w', after_write ch w w' -> running w' = true).
  { intros ch w' Ha. unfold running. by destruct (after_write_conn ch w w' Ha) as (-> & _). }
  unfold data_write_all, ssl_write_all, raw_write_all, chan_of in *. wp_pure.
  destruct (c_use_ssl_data (w_conn w)); cbn [negb]; wp_pure.
  - apply clear_ssl_write; [lia| |done|eauto]. by eapply primary_alive.
  - apply clear_raw_write; [done|eauto].
Qed.

(** What the loop over the candidates does: the links that refuse the block
    are retired, the block goes whole to one link, and it is only refused when
    no candidate is usable any more. *)
Definition transmit_post (cands : list Z) (block : list Z) w (ok : bool) w' : Prop :=
  wok w' /\ shrinks (w_conn w) (w_conn w') /\ w_rudp w' = w_rudp w /\
  (forall ch, ch ∉ map (cand_chan (w_conn w)) cands -> w_out w' ch = w_out w ch) /\
  (ok = true -> NoDup (map (cand_chan (w_conn w)) cands) -> exists idx, idx ∈ cands /\
     w_out w' (cand_chan (w_conn w) idx) = w_out w (cand_chan (w_conn w) idx) ++ block) /\
  (ok = false -> forall idx, idx ∈ cands -> 0 < idx -> cand_usable (w_conn w') idx = false) /\
  (ok = false -> forall idx, idx ∈ cands -> ~ healthy w idx).

Lemma shrinks_usable c c' idx : shrinks c c' -> cand_usable c' idx = true -> cand_usable c idx = true.
Proof.
  intros [E Hs]. unfold cand_usable. destruct (idx =? 0).
  - rewrite E. by destruct c.
  - destruct (c_additional c' !! Z.to_nat (idx - 1)) as [ts'|] eqn:E'; [|done].
    destruct (Forall2_lookup_r _ _ _ _ _ Hs E') as (ts & -> & [->|[_ ->]]); done.
Qed.

Lemma running_shrinks w w' : shrinks (w_conn w) (w_conn w') -> running w' = running w.
Proof. intros Hs. unfold running. by destruct (shrinks_use_ssl _ _ Hs) as (_ & _ & _ & ->). Qed.

(** A candidate was passed over or refused the block: [w1] is the world after it. *)
Lemma transmit_post_next idx rest block w w1 ok w' :
  wok w1 -> NoDup (idx :: rest) ->
  shrinks (w_conn w) (w_conn w1) -> w_rudp w1 = w_rudp w ->
  (forall ch, ch <> cand_chan (w_conn w) idx -> w_out w1 ch = w_out w ch /\ w_room w1 ch = w_room w ch) ->
  (forall j, j ∈ rest -> cand_chan (w_conn w1) j = cand_chan (w_conn w) j /\
     cand_usable (w_conn w1) j = cand_usable (w_conn w) j) ->
  (0 < idx -> cand_usable (w_conn w1) idx = false) -> ~ healthy w idx ->
  (cand_usable (w_conn w) idx = true \/ w_room w1 = w_room w) ->
  transmit_post rest block w1 ok w' -> transmit_post (idx :: rest) block w ok w'.
Proof.
  intros Hw1 Hnd Hsh Hru Hch Hrest Hun Hnh Htry (Hw' & Hsh' & Hru' & Hout & Hok & Hno & Hhe).
  apply NoDup_cons in Hnd as [Hni Hnd].
  assert (Hmap : map (cand_chan (w_conn w1)) rest = map (cand_chan (w_conn w)) rest).
  { apply map_ext_in. intros j Hj. apply Hrest. by apply list_elem_of_In. }
  split; [done|]. split; [by etrans|]. split; [congruence|]. split; [|split; [|split]].
  - intros ch Hni'. cbn [map] in Hni'. apply not_elem_of_cons in Hni' as [Hne Hni'].
    rewrite Hout by (by rewrite Hmap). by apply Hch.
  - intros -> Hndc. cbn [map] in Hndc. apply NoDup_cons in Hndc as [Hnc Hndc].
    destruct (Hok eq_refl) as (j & Hj & Ho); [by rewrite Hmap|]. exists j.
    split; [by apply list_elem_of_further|]. destruct (Hrest j Hj) as [Ec _]. rewrite Ec in Ho. rewrite Ho.
    destruct (Hch (cand_chan (w_conn w) j)) as [-> _]; [|done].
    intros E. apply Hnc. rewrite <- E. by apply (list_elem_of_fmap_2 (cand_chan (w_conn w))).
  - intros -> j Hj H0. apply elem_of_cons in Hj as [->|Hj]; [|by apply Hno].
    destruct (cand_usable (w_conn w') idx) eqn:E; [|done].
    specialize (Hun H0). by rewrite (shrinks_usable _ _ _ Hsh' E) in Hun.
  - intros -> j Hj. apply elem_of_cons in Hj as [->|Hj]; [done|]. intros (Hu & Hr & Hrun).
    destruct (Hrest j Hj) as [Ec Eu]. apply (Hhe eq_refl j Hj).
    split; [by rewrite Eu|]. split; [|by rewrite (running_shrinks w)].
    rewrite Ec. destruct Htry as [Hidx| ->]; [|done].
    destruct (Hch (cand_chan (w_conn w) j)) as [_ ->]; [|done].
    intros E. apply Hnh. split; [done|]. split; [by rewrite <- E|done].
Qed.

(** The block went to the first candidate. *)
Lemma transmit_done idx rest block w w' :
  write_ok good (cand_chan (w_conn w) idx) block w true w' -> transmit_post (idx :: rest) block w true w'.
Proof.
  intros [(Hw' & Ec & Ef & Eu) [[_ Ha] (k & Hk & Hfull)]].
  split; [done|]. split; [by rewrite Ec|]. split; [done|]. split; [|split; [|done]].
  - intros ch Hch. cbn [map] in Hch. apply not_elem_of_cons in Hch as [? _]. by apply Ha.
  - intros _ _. exists idx. split; [apply list_elem_of_here|]. by rewrite Hk, Hfull.
Qed.

(** A write to a candidate, with what a healthy one guarantees. *)
Lemma try_write idx m block w : wok w ->
  wp m (write_ok good (cand_chan (w_conn w) idx) block w) w ->
  (healthy w idx -> wp m (fun ok _ => ok = true) w) ->
  wp m (fun ok w' => write_ok good (cand_chan (w_conn w) idx) block w ok w' /\
    (ok = true \/ ~ healthy w idx)) w.
Proof.
  intros Hw Hm Hh. apply wp_and; [done|]. destruct (decide (healthy w idx)) as [Hd|Hd].
  - eapply wp_mono; [by apply Hh|]. by left.
  - eapply wp_mono; [exact Hm|]. by right.
Qed.

Section candidates.
Context (rest : list Z) (block : list Z).
Hypothesis IH : forall w, wok w -> wp (transmit_loop rest block) (transmit_post rest block w) w.

Lemma transmit_skip idx w : wok w -> NoDup (idx :: rest) -> cand_usable (w_conn w) idx = false ->
  wp (transmit_loop rest block) (transmit_post (idx :: rest) block w) w.
Proof using IH.
  intros Hw Hnd Hu. eapply wp_mono; [by apply IH|]. intros ok w' Hp.
  apply (transmit_post_next idx rest block w w); try done; [|by right]. intros (Hu' & _). congruence.
Qed.

Lemma transmit_primary w : wok w -> NoDup (0 :: rest) ->
  wp (transmit_loop (0 :: rest) block) (transmit_post (0 :: rest) block w) w.
Proof using IH.
  intros Hw Hnd. cbn [transmit_loop]. wp_pure. wp_step.
  { apply transmit_skip; [done..|]. unfold cand_usable. cbn. lia. }
  wp_step. eapply wp_mono; [apply (try_write 0 _ block); [done|by eapply data_write_all_ok|]|].
  { by apply healthy_primary_write. }
  intros ok w1 [Hwr Hh]. wp_step; [wp_step; subst ok; by apply transmit_done|]. subst ok.
  destruct Hh as [?|Hh]; [done|]. destruct Hwr as [(Hw1 & Ec & Ef & Eu) [[_ Ha] _]].
  eapply wp_mono; [by apply IH|]. intros ok w' Hp.
  eapply (transmit_post_next 0 rest block w w1); try done; rewrite ?Ec; try done.
  left. unfold cand_usable. cbn. lia.
Qed.

(** A slot that refused the block is retired. *)
Lemma transmit_retire idx ts w w1 : wok w -> Forall cand_ok rest -> cand_ok idx -> idx <> 0 -> NoDup (idx :: rest) ->
  slot_at w (idx - 1) ts -> ts_usable ts = true -> ~ healthy w idx ->
  write_ok good (cand_chan (w_conn w) idx) block w false w1 ->
  wp (retire_failed (idx - 1) (ts_ssl ts) (ts_fd ts) ;; transmit_loop rest block)
     (transmit_post (idx :: rest) block w) w1.
Proof using IH.
  intros Hw Hr Hi Hne Hnd Hts Hu Hh [(Hw1 & Ec & Ef & Er) [[_ Ha] _]]. unfold slot_at in Hts.
  pose proof Hnd as [Hni _]%NoDup_cons. unfold cand_ok in Hi.
  assert (Hact : ts_active ts = true) by (unfold ts_usable in Hu; by destruct (ts_active ts)).
  wp_step. unfold retire_failed. wp_step. apply get_slot_ok; [done|lia|]. intros ts1 Hts1.
  assert (ts1 = ts) as -> by (unfold slot_at in *; congruence).
  wp_step; [|lia]. eapply wp_mono; [apply (retire_slot_wp (idx - 1) ts); [done|lia|done|done]|].
  intros _ w2 [Hw2 E2]. eapply wp_mono; [by apply IH|]. intros ok w' Hp.
  assert (Ec2 : w_conn w2 = retire_conn (idx - 1) ts (w_conn w)) by (rewrite E2; cbn; by rewrite Ec).
  eapply (transmit_post_next idx rest block w w2); try done; rewrite ?Ec2.
  - by apply shrinks_retire.
  - rewrite E2. by cbn.
  - intros ch Hch. rewrite E2. cbn. by apply Ha.
  - intros j Hj. apply cand_retire; [done|by eapply Forall_forall in Hr|lia|].
    intros ->. apply Hni. by replace (idx - 1 + 1) with idx in Hj by lia.
  - intros _. unfold cand_usable. replace (idx =? 0) with false by lia. unfold retire_conn. cbn.
    rewrite list_lookup_insert_eq; [done|]. by eapply lookup_lt_Some.
  - left. unfold cand_usable. rewrite Hts. by replace (idx =? 0) with false by lia.
Qed.

Lemma transmit_slot idx w : wok w -> Forall cand_ok rest -> cand_ok idx -> idx <> 0 -> NoDup (idx :: rest) ->
  wp (transmit_loop (idx :: rest) block) (transmit_post (idx :: rest) block w) w.
Proof using IH.
  intros Hw Hr Hi Hne Hnd.
  assert (Hcase : transmit_loop (U:=U) (idx :: rest) block =
    (ts ← get_slot (idx - 1);
     if negb (ts_active ts) || (ts_ssl ts =? 0) || (ts_fd ts <? 0) then transmit_loop rest block else
     ok ← data_write_all_sock (ts_ssl ts) (ts_fd ts) block;
     if (ok : bool) then mret true else
     retire_failed (idx - 1) (ts_ssl ts) (ts_fd ts) ;; transmit_loop rest block)) by (by destruct idx).
  rewrite Hcase. clear Hcase. pose proof Hi as [Hi1 Hi2]. wp_step. apply get_slot_ok; [done|lia|].
  intros ts Hts. pose proof Hts as Hts'. unfold slot_at in Hts'.
  assert (Eu : cand_usable (w_conn w) idx = ts_usable ts).
  { unfold cand_usable. rewrite Hts'. by replace (idx =? 0) with false by lia. }
  assert (Ech : cand_chan (w_conn w) idx = chan_of (w_conn w) (ts_ssl ts) (ts_fd ts)).
  { unfold cand_chan. rewrite Hts'. by replace (idx =? 0) with false by lia. }
  wp_step; [apply transmit_skip; [done..|]; rewrite Eu; unfold ts_usable; destruct (ts_active ts); lia|].
  wp_step. eapply wp_mono; [apply (try_write idx _ block); [done|rewrite Ech; by eapply data_write_all_sock_ok|]|].
  { intros Hh. apply (healthy_slot_write block w (idx - 1)); [done|lia|done|]. by replace (idx - 1 + 1) with idx by lia. }
  intros ok w1 [Hwr Hh]. wp_step; [wp_step; subst ok; by apply transmit_done|]. subst ok.
  destruct Hh as [?|Hh]; [done|]. apply transmit_retire; [done..| |done|done].
  unfold ts_usable. destruct (ts_active ts); lia.
Qed.
End candidates.

Lemma transmit_loop_wp cands block w : wok w -> Forall cand_ok cands -> NoDup cands ->
  wp (transmit_loop cands block) (transmit_post cands block w) w.
Proof.
  revert w. induction cands as [|idx rest IH]; intros w Hw Hr Hnd.
  - cbn [transmit_loop]. wp_step. split; [done|]. split; [done|]. split; [done|]. split; [done|].
    split; [done|]. split; intros _ j Hj; by apply elem_of_nil in Hj.
  - apply Forall_cons_1 in Hr as [Hi Hr]. pose proof Hnd as [_ Hnd']%NoDup_cons.
    assert (IH' : forall w, wok w -> wp (transmit_loop rest block) (transmit_post rest block w) w) by auto.
    destruct (decide (idx = 0)) as [->|Hne]; [by apply transmit_primary|by apply transmit_slot].
Qed.

(** ** Selecting a link *)

Lemma slot_numbers_ok p c : len (c_additional c) = MAX_SE_CONNECTIONS ->
  Forall (fun idx => 1 <= idx <= MAX_SE_CONNECTIONS) (map (Z.add 1) (slots p c)).
Proof.
  intros Hl. apply Forall_forall. intros idx Hi. apply list_elem_of_fmap in Hi as (i & -> & Hi).
  apply slots_range in Hi as [? _]. lia.
Qed.

Lemma slots_nodup p c : NoDup (slots p c).
Proof.
  unfold slots. assert (H' : forall k (l : list tcp_sock),
    NoDup (omap (fun '(i, ts) => if p ts then Some (Z.of_nat i) else None) (imap (fun i => pair (k + i)%nat) l)) /\
    Forall (fun z => Z.of_nat k <= z) (omap (fun '(i, ts) => if p ts then Some (Z.of_nat i) else None) (imap (fun i => pair (k + i)%nat) l))).
  { intros k l. revert k. induction l as [|ts l IH]; intros k; [split; constructor|].
    rewrite imap_cons. rewrite (imap_ext _ (fun i => pair (S k + i)%nat)) by (intros; unfold compose; f_equal; lia).
    destruct (IH (S k)) as [Hn Hf]. rewrite Nat.add_0_r. cbn [omap list_omap]. destruct (p ts).
    - split.
      + constructor; [|done]. intros Hin. eapply Forall_forall in Hf; [|exact Hin]. cbn in Hf. lia.
      + constructor; [lia|]. eapply Forall_impl; [exact Hf|]. cbn. lia.
    - split; [done|]. eapply Forall_impl; [exact Hf|]. cbn. lia. }
  destruct (H' 0%nat (c_additional c)) as [Hn _]. done.
Qed.

Lemma len_slots p c : len (slots p c) <= len (c_additional c).
Proof.
  unfold slots. assert (H' : forall l : list (nat * tcp_sock),
    len (omap (fun '(i, ts) => if p ts then Some (Z.of_nat i) else None) l) <= len l).
  { induction l as [|[i ts] l IH]; [done|]. cbn [omap list_omap]. destruct (p ts); rewrite ?len_cons; lia. }
  etrans; [apply H'|]. unfold len. by rewrite length_imap.
Qed.

Lemma send_candidates_ok c : len (c_additional c) = MAX_SE_CONNECTIONS ->
  Forall cand_ok (send_candidates c).
Proof.
  intros Hl. unfold send_candidates. apply Forall_app. split.
  - destruct (primary_sends c); [|constructor]. constructor; [by split|constructor].
  - eapply Forall_impl; [by apply slot_numbers_ok|]. unfold cand_ok. cbn. lia.
Qed.

Lemma select_ok c : len (c_additional c) = MAX_SE_CONNECTIONS -> 0 <= c_send_rr_idx c ->
  exists best rr, softether_select_send_socket c = Ok (best, c <| c_send_rr_idx := rr |>) /\ 0 <= rr /\
    (best = 0 \/ best ∈ send_candidates c) /\ cand_ok best.
Proof.
  intros Hl Hrr. unfold softether_select_send_socket. set (cs := send_candidates c).
  pose proof (len_nonneg cs). destruct (len cs =? 0) eqn:E.
  - exists 0, (c_send_rr_idx c). split; [by destruct c|]. split; [done|]. split; [by left|by split].
  - rewrite !Z.rem_mod_nonneg by lia. pose proof (Z.mod_pos_bound (c_send_rr_idx c) (len cs)).
    pose proof (Z.mod_pos_bound (c_send_rr_idx c + 1) (len cs)).
    destruct (_ <? 0) eqn:E2; [lia|]. do 2 eexists. split; [done|]. split; [lia|].
    assert (Hin : nth (Z.to_nat (c_send_rr_idx c mod len cs)) cs 0 ∈ cs).
    { apply list_elem_of_In, nth_In. unfold len in *. lia. }
    split; [by right|]. by eapply Forall_forall in Hin; [|by apply send_candidates_ok].
Qed.

Lemma send_candidates_nodup c : len (c_additional c) = MAX_SE_CONNECTIONS -> NoDup (send_candidates c).
Proof.
  intros Hl. unfold send_candidates. pose proof (slot_numbers_ok slot_sends c Hl) as Hn.
  apply NoDup_app. split; [destruct (primary_sends c); [apply NoDup_singleton|constructor]|]. split.
  - intros x Hx Hx'. eapply Forall_forall in Hx'; [|exact Hn]. cbv beta in Hx'.
    destruct (primary_sends c); [apply list_elem_of_singleton in Hx; lia|by apply elem_of_nil in Hx].
  - apply NoDup_fmap_2; [intros ? ? ?; lia|apply slots_nodup].
Qed.

Lemma filter_ne_perm (x : Z) l : NoDup l -> x ∈ l -> x :: filter (fun y => y <> x) l ≡ₚ l.
Proof.
  intros Hnd Hx. apply NoDup_Permutation; [|done|].
  - constructor; [|by apply NoDup_filter]. intros Hin. by apply (list_elem_of_filter (fun y => y <> x)) in Hin as [? _].
  - intros y. rewrite elem_of_cons, (list_elem_of_filter (fun y => y <> x)).
    split; [intros [->|[_ ?]]; auto|]. intros Hy. destruct (decide (y = x)); auto.
Qed.

(** The failover order is a reordering of the send-capable links. *)
Lemma transmit_candidates_perm best c : len (c_additional c) = MAX_SE_CONNECTIONS ->
  best = 0 \/ best ∈ send_candidates c -> transmit_candidates best c ≡ₚ send_candidates c.
Proof.
  intros Hl Hb. unfold transmit_candidates. pose proof (slot_numbers_ok slot_sends c Hl) as Hn.
  unfold send_candidates in *. set (ss := map (Z.add 1) (slots slot_sends c)) in *.
  set (ps := if primary_sends c then [0] else []) in *.
  assert (Hps : 0 < best -> best ∉ ps).
  { intros Hpos Hin. unfold ps in Hin. destruct (primary_sends c); [apply list_elem_of_singleton in Hin; lia|by apply elem_of_nil in Hin]. }
  destruct (best =? 0) eqn:E.
  - cbn [app]. f_equiv. apply Z.eqb_eq in E as ->. clear -Hn. induction Hn as [|x ss Hx Hn IH]; [done|].
    rewrite filter_cons_True by lia. by f_equiv.
  - assert (Hss : best ∈ ss).
    { destruct Hb as [?|Hb]; [lia|]. apply elem_of_app in Hb as [Hb|Hb]; [|done].
      unfold ps in Hb. destruct (primary_sends c); [apply list_elem_of_singleton in Hb; lia|by apply elem_of_nil in Hb]. }
    cbn [app]. rewrite Permutation_middle. f_equiv. apply filter_ne_perm; [|done].
    apply NoDup_fmap_2; [intros ? ? ?; lia|apply slots_nodup].
Qed.

Lemma len_send_candidates c : len (c_additional c) = MAX_SE_CONNECTIONS -> len (send_candidates c) <= SEND_CAPACITY.
Proof.
  intros Hl. unfold send_candidates, SEND_CAPACITY. rewrite len_app, len_map. pose proof (len_slots slot_sends c).
  destruct (primary_sends c); rewrite ?len_cons, len_nil; lia.
Qed.

(** ** Operations that only send *)

(** [c'] is [c] up to the fields the sending side owns. *)
Definition tx_step (c c' : connection) : Prop :=
  c' = c <| c_additional := c_additional c' |> <| c_num_additional := c_num_additional c' |>
         <| c_send_rr_idx := c_send_rr_idx c' |> <| c_send_block := c_send_block c' |>
         <| c_next_tcp_keepalive_time := c_next_tcp_keepalive_time c' |>
         <| c_next_connect_time := c_next_connect_time c' |>
         <| c_additional_connecting := c_additional_connecting c' |>
         <| c_additional_connect_slot := c_additional_connect_slot c' |>
         <| c_additional_connect_result := c_additional_connect_result c' |>
         <| c_stats_tx_packets := c_stats_tx_packets c' |> <| c_stats_tx_bytes := c_stats_tx_bytes c' |>.

#[export] Instance tx_step_preorder : PreOrder tx_step.
Proof.
  split; [intros c; by destruct c|]. intros c1 c2 c3 E1 E2. unfold tx_step in *.
  rewrite E2, E1. by destruct c1.
Qed.

Lemma tx_shrinks c c' : shrinks c c' -> tx_step c c'.
Proof. intros [E _]. unfold tx_step. rewrite E. by destruct c. Qed.

Definition sent_step w w' : Prop := wok w' /\ tx_step (w_conn w) (w_conn w').
Lemma sent_refl w : wok w -> sent_step w w.
Proof. done. Qed.
Lemma sent_trans w1 w2 w3 : sent_step w1 w2 -> sent_step w2 w3 -> sent_step w1 w3.
Proof. intros [_ H1] [? H2]. split; [done|]. by etrans. Qed.
Lemma io_sent w w' : io_step good w w' -> sent_step w w'.
Proof. intros (? & E & _). split; [done|]. by rewrite E. Qed.

(** Changing a field the invariant does not read. *)
Lemma wok_conn w c : wok w -> conn_ok (w_freed w) c -> wok (w <| w_conn := c |>).
Proof. intros (_ & ? & ?) ?. done. Qed.

Lemma wok_fields w : wok w -> fields_ok (w_conn w).
Proof. intros ((_ & _ & _ & Hf) & _). done. Qed.
Lemma wok_stage w : wok w -> stage_ok (w_conn w).
Proof. intros ((_ & _ & Hs & _) & _). done. Qed.

Lemma select_socket_wp w : wok w ->
  wp select_socket (fun best w' => wok w' /\ cand_ok best /\
    (best = 0 \/ best ∈ send_candidates (w_conn w)) /\
    exists rr, w' = w <| w_conn := (w_conn w) <| c_send_rr_idx := rr |> |>) w.
Proof.
  intros Hw. unfold select_socket. wp_pure.
  destruct (select_ok (w_conn w)) as (best & rr & E & Hrr & Hb & Hok).
  { by eapply world_slots. } { by apply wok_fields. }
  eapply wp_lift; [exact E|]. wp_pure. cbn [fst snd]. split; [|split; [done|split; [done|by exists rr]]].
  apply wok_conn; [done|]. destruct Hw as ((Hq & Hl & Hs & Hf) & _).
  split; [exact Hq|]. split; [exact Hl|]. split; [exact Hs|]. split; [exact Hrr|]. apply Hf.
Qed.

(** Transmitting: [transmit_post] over every send-capable link. *)
Lemma transmit_wp block w : wok w ->
  wp (softether_transmit_block_nolock block) (fun ok w' => sent_step w w' /\ w_rudp w' = w_rudp w /\
    (8 <= len block -> c_state (w_conn w) <> STATE_DISCONNECTING -> c_ssl (w_conn w) <> 0 ->
     exists cands w1, (exists rr, w1 = w <| w_conn := (w_conn w) <| c_send_rr_idx := rr |> |>) /\
       cands ≡ₚ send_candidates (w_conn w) /\ transmit_post cands block w1 ok w')) w.
Proof.
  intros Hw. unfold softether_transmit_block_nolock. wp_step; wp_pure.
  { split; [by apply sent_refl|]. split; [done|lia]. }
  wp_step; wp_pure.
  { split; [by apply sent_refl|]. split; [done|]. intros _ Hst Hssl.
    rewrite bool_decide_eq_false_2 in Hc0 by done. lia. }
  eapply wp_mono; [by apply select_socket_wp|]. intros best w1 (Hw1 & Hbo & Hb & rr & E1). wp_pure.
  assert (Hc1 : send_candidates (w_conn w1) = send_candidates (w_conn w)) by (rewrite E1; by destruct (w_conn w)).
  assert (Hl1 : len (c_additional (w_conn w1)) = MAX_SE_CONNECTIONS) by (by eapply world_slots).
  pose proof (transmit_candidates_perm best (w_conn w1) Hl1 ltac:(by rewrite Hc1)) as Hp.
  assert (Hlen : len (transmit_candidates best (w_conn w1)) <= SEND_CAPACITY).
  { unfold len at 1. rewrite Hp. by apply len_send_candidates. }
  unfold room. eapply wp_lift; [by rewrite (proj2 (Z.leb_le _ _) Hlen)|].
  eapply wp_mono; [apply transmit_loop_wp; [done| |]|].
  { rewrite Hp. by apply send_candidates_ok. } { rewrite Hp. by apply send_candidates_nodup. }
  intros ok w' Hpost.
  assert (Ht1 : tx_step (w_conn w) (w_conn w1)) by (rewrite E1; by destruct (w_conn w)).
  pose proof Hpost as (Hw' & Hsh & Hru & _). split; [|split].
  - split; [done|]. etrans; [exact Ht1|]. by apply tx_shrinks.
  - rewrite Hru, E1. done.
  - intros _ _ _. exists (transmit_candidates best (w_conn w1)), w1. split; [by exists rr|].
    split; [|done]. by rewrite <- Hc1.
Qed.

Lemma rand_bytes_wp n w : wok w ->
  wp (rand_bytes crand n) (fun bs w' => len bs = Z.of_nat n /\ bytes_ok bs /\ exists k, w' = w <| w_rands := k |>) w.
Proof.
  revert w. induction n as [|n IH]; intros w Hw; cbn [rand_bytes].
  - wp_step. split; [done|]. split; [constructor|]. exists (w_rands w). by destruct w.
  - wp_step. unfold wp at 1, c_rand. wp_step. eapply wp_mono; [by apply IH|].
    intros bs w' (Hl & Hb & k & ->). wp_step. split; [slia|]. split; [|by exists k].
    auto with bytes.
Qed.

Lemma wok_rands w k : wok w -> io_step good w (w <| w_rands := k |>).
Proof. done. Qed.

(** [rand] never returns a negative number. *)
Hypothesis crand_nonneg : forall n, 0 <= crand n.

(** Sending a keepalive moves no byte of the incoming streams. *)
Lemma keepalive_sock_io ssl fd w : wok w ->
  wp (softether_send_keepalive_sock crand ssl fd) (fun _ w' => io_step good w w' /\ w_in w' = w_in w) w.
Proof.
  intros Hw. unfold softether_send_keepalive_sock. wp_step; [by wp_step|]. wp_pure. wp_step; [by wp_step|].
  wp_step. unfold wp at 1, c_rand. set (w1 := w <| w_rands := _ |>). pose proof (crand_nonneg (w_rands w)).
  assert (Hs : 0 <= u32 (Z.rem (crand (w_rands w)) 64) < 64).
  { rewrite Z.rem_mod_nonneg by lia. pose proof (Z.mod_pos_bound (crand (w_rands w)) 64).
    unfold u32. rewrite Z.mod_small; lia. }
  wp_pure. unfold room. eapply wp_lift; [by rewrite (proj2 (Z.leb_le _ _)) by lia|]. wp_pure.
  eapply wp_mono; [by apply (rand_bytes_wp _ w1)|]. intros bs w2 (_ & _ & k & ->). wp_pure.
  eapply wp_mono; [by eapply data_write_all_sock_ok|]. intros ok w3 [Hio [Ha _]]. wp_step.
  split; [eapply io_trans; [|exact Hio]; done|].
  by destruct (after_write_conn _ _ _ Ha) as (_ & _ & _ & ->).
Qed.

Lemma send_keepalive_io w : wok w ->
  wp (softether_send_keepalive crand) (fun _ w' => io_step good w w' /\ w_in w' = w_in w) w.
Proof.
  intros Hw. unfold softether_send_keepalive. wp_pure. wp_step; [by wp_step|]. by apply keepalive_sock_io.
Qed.
Lemma keepalive_sock_wp ssl fd w : wok w ->
  wp (softether_send_keepalive_sock crand ssl fd) (fun _ w' => io_step good w w') w.
Proof. intros Hw. eapply wp_mono; [by apply keepalive_sock_io|]. by intros r w' [? _]. Qed.
Lemma send_keepalive_wp w : wok w -> wp (softether_send_keepalive crand) (fun _ w' => io_step good w w') w.
Proof. intros Hw. eapply wp_mono; [by apply send_keepalive_io|]. by intros r w' [? _]. Qed.

Lemma keepalive_slots_wp n i w : wok w -> 0 <= i -> i + Z.of_nat n <= MAX_SE_CONNECTIONS ->
  wp (keepalive_slots crand n i) (fun _ w' => io_step good w w') w.
Proof.
  revert i w. induction n as [|n IH]; intros i w Hw Hi Hn; cbn [keepalive_slots]; [by wp_step|].
  wp_step. apply get_slot_ok; [done|lia|]. intros ts Hts. wp_step. wp_step.
  - wp_step. eapply wp_mono; [by apply keepalive_sock_wp|]. cbv beta; intros _ w1 H1. wp_step.
    eapply wp_mono; [apply IH; [apply H1|lia..]|]. cbv beta; intros _ w2 H2. by eapply io_trans.
  - apply IH; [done|lia..].
Qed.

Lemma tx_conn w c : wok w -> conn_ok (w_freed w) c -> tx_step (w_conn w) c -> sent_step w (w <| w_conn := c |>).
Proof. intros Hw Hc Ht. split; [by apply wok_conn|done]. Qed.

Lemma keepalive_all_wp w : wok w ->
  wp (softether_send_keepalive_all tick crand) (fun _ w' => sent_step w w' /\ w_rudp w' = w_rudp w) w.
Proof.
  intros Hw. unfold softether_send_keepalive_all. wp_pure. wp_step; [by wp_step|]. wp_step; [by wp_step|].
  wp_step. unfold wp at 1, softether_tick_ms. set (w1 := w <| w_ticks := _ |>).
  assert (Hset : forall t, sent_step w (w1 <| w_conn := (w_conn w) <| c_next_tcp_keepalive_time := t |> |>)).
  { intros t. split; [|by destruct (w_conn w)]. apply wok_conn; [done|]. apply Hw. }
  wp_step; wp_pure; [by split|]. wp_step; [by wp_step|]. wp_pure.
  set (w2 := w1 <| w_conn := _ |>). specialize (Hset (u64 (u64 (tick (w_ticks w)) + keepalive_interval (c_server_timeout (w_conn w))))).
  assert (Hgo : forall w3, io_step good w2 w3 ->
    wp (keepalive_slots crand (Z.to_nat MAX_SE_CONNECTIONS) 0 ;; mret 0) (fun _ w' => sent_step w w' /\ w_rudp w' = w_rudp w) w3).
  { intros w3 H3. wp_step. eapply wp_mono; [apply keepalive_slots_wp; [apply H3|done|done]|].
    cbv beta; intros _ w4 H4. wp_step. pose proof (io_trans _ _ _ _ H3 H4) as H5. split.
    - eapply sent_trans; [exact Hset|]. by apply io_sent.
    - destruct H5 as (_ & _ & _ & ->). done. }
  wp_step.
  - wp_step. eapply wp_mono; [apply keepalive_sock_wp; apply Hset|]. cbv beta; intros _ w3 H3. wp_step.
    by apply Hgo.
  - apply Hgo, io_refl, Hset.
Qed.

(** ** Sending one frame *)

Lemma stage_block_ok data buf : len data + 8 <= len buf ->
  exists b, stage_block data buf = Ok (w32 1 ++ w32 (len data) ++ data ++ b) /\
    len (w32 1 ++ w32 (len data) ++ data ++ b) = len buf.
Proof.
  intros Hl. pose proof (len_nonneg data). unfold stage_block.
  exists (dr (8 + len data) buf). rewrite !w32_enc.
  rewrite <- (tk_dr 4 buf) at 1.
  pose proof (blit_at [] (tk 4 buf) (dr 4 buf) (be_enc 4 1) 0 eq_refl) as E1. cbn [app] in E1.
  rewrite E1 by slia. rewrite bind_ok. rewrite <- (tk_dr 4 (dr 4 buf)) at 1.
  rewrite (blit_at (be_enc 4 1) (tk 4 (dr 4 buf))) by slia. rewrite bind_ok, dr_dr by lia. change (4 + 4) with 8.
  assert (Hb : forall x, len x = 8 -> blit data 8 (x ++ dr 8 buf) = Ok (x ++ data ++ dr (8 + len data) buf)).
  { intros x Hx. rewrite <- (tk_dr (len data) (dr 8 buf)) at 1. rewrite dr_dr by lia. rewrite blit_at by slia. done. }
  split; [|slia]. destruct (len data >? 0) eqn:E.
  - rewrite app_assoc, Hb by slia. by rewrite <- !app_assoc.
  - rewrite (len_0_nil data) by lia. cbn [app]. rewrite len_nil, Z.add_0_r. done.
Qed.

(** The frame fits a 32-bit length. *)
Definition sendable (data : list Z) : Prop := len data + 8 < 2 ^ 32.

Lemma send_packet_wp command payload w : wok w -> sendable (wire_payload malloc_ok zlib_compress zlib_bound payload (w_conn w)) ->
  wp (softether_send_packet crand malloc_ok zlib_compress zlib_bound command payload)
     (fun _ w' => sent_step w w' /\ w_rudp w' = w_rudp w) w.
Proof.
  intros Hw Hd. unfold softether_send_packet. wp_pure.
  assert (Hno : forall r : Z, wp (mret r) (fun _ w' => sent_step w w' /\ w_rudp w' = w_rudp w) w) by done.
  wp_step; [apply Hno|]. wp_step.
  { eapply wp_mono; [by apply send_keepalive_wp|]. cbv beta; intros _ w' Hio. split; [by apply io_sent|apply Hio]. }
  wp_step; [apply Hno|]. set (data := wire_payload _ _ _ _ _) in *. unfold sendable in Hd. pose proof (len_nonneg data).
  destruct (wok_stage w Hw) as (Hst & Hcap & Hcap2).
  destruct (c_send_block (w_conn w)) as [buf|] eqn:Eb; [|apply Hno]. cbv zeta.
  wp_step; [apply Hno|]. unfold u32 in *. rewrite Z.mod_small in * by lia.
  destruct (stage_block_ok data buf) as (tl & E1 & El); [lia|]. wp_step. eapply wp_lift; [exact E1|]. wp_pure.
  set (blk := w32 1 ++ _) in *. clearbody blk. set (w1 := w <| w_conn := _ |>).
  assert (H1 : sent_step w w1).
  { apply tx_conn; [done| |by destruct (w_conn w)]. destruct Hw as ((Hq & Hlk & _ & Hf) & _).
    split; [exact Hq|]. split; [exact Hlk|]. split; [|exact Hf]. unfold stage_ok. cbn. split; [lia|]. split; [done|].
    intros _. by apply Hcap2. }
  eapply wp_mono; [apply select_socket_wp, H1|]. intros idx w2 (Hw2 & Hidx & _ & rr & E2). wp_pure.
  assert (H2 : sent_step w w2).
  { split; [done|]. etrans; [apply H1|]. rewrite E2. by destruct (w_conn w1). }
  assert (Hru2 : w_rudp w2 = w_rudp w) by (by rewrite E2).
  destruct (fetch_safe 0 (8 + len data) blk) as [b E3]; [lia|lia|]. eapply wp_lift; [exact E3|]. wp_pure.
  assert (Hfin : forall ok w', io_step good w2 w' ->
    wp (mret (if (ok : bool) then 8 + len data else -1)) (fun _ w' => sent_step w w' /\ w_rudp w' = w_rudp w) w').
  { intros ok w' Hio. wp_step. split; [|destruct Hio as (_ & _ & _ & ->); done].
    eapply sent_trans; [exact H2|]. by apply io_sent. }
  wp_step.
  - wp_step. destruct Hidx. apply get_slot_ok; [done|lia|]. intros ts Hts. wp_step; [wp_step; by apply (Hfin false), io_refl|].
    eapply wp_mono; [by eapply data_write_all_sock_ok|]. intros ok w3 [Hio _]. by apply Hfin.
  - eapply wp_mono; [by eapply data_write_all_ok|]. intros ok w3 [Hio _]. by apply Hfin.
Qed.
End channel.
