(* ===== verification/Receive.v ===== *)
(** * The receive queue of the connection (packet_handler.c)

    [softether_fill_recv_queue] waits on the UDP accelerator and on every link
    that can receive, reads one message from one link and stores its blocks in
    the circular queue of 64 frames. *)
From stdpp Require Import functions.
From S2P Require Import Prelude Bytes Ring Crypto Conn Channel.

(** [tcp_sock_info_t]; the index is -1 for the primary link. *)
Record tcp_sock_info := Info { ti_ssl : Z; ti_fd : Z; ti_idx : Z }.
Definition ti_is_additional (t : tcp_sock_info) : bool := ti_idx t >=? 0.

(** [recv_queue[i]] with a C index. *)
Definition frame_at (i : Z) (q : list queued_frame) : res queued_frame :=
  if i <? 0 then Ub else match q !! Z.to_nat i with Some e => Ok e | None => Ub end.

(** Store at the tail: the bytes into the slot's array, its length, and the
    tail and the count. *)
Definition queue_push (bs : list Z) (c : connection) : res connection :=
  e ← frame_at (c_recv_queue_tail c) (c_recv_queue c);
  d ← blit bs 0 (qf_data e);
  Ok (c <| c_recv_queue := <[Z.to_nat (c_recv_queue_tail c) := Frame d (len bs)]> (c_recv_queue c) |>
        <| c_recv_queue_tail := Z.rem (c_recv_queue_tail c + 1) RECV_QUEUE_SIZE |>
        <| c_recv_queue_count := c_recv_queue_count c + 1 |>).

(** The step of the head every consumer takes. *)
Definition queue_advance (c : connection) : connection :=
  c <| c_recv_queue_head := Z.rem (c_recv_queue_head c + 1) RECV_QUEUE_SIZE |>
    <| c_recv_queue_count := c_recv_queue_count c - 1 |>.

(** The slots a receive pass listens on. *)
Definition slot_receives (ts : tcp_sock) : bool :=
  ts_active ts && (ts_fd ts >=? 0) && can_receive (ts_direction ts) && negb (ts_ssl ts =? 0).

Definition tcp_infos (c : connection) : list tcp_sock_info :=
  (if (c_socket_fd c >=? 0) && can_receive (c_primary_direction c)
   then [Info (c_ssl c) (c_socket_fd c) (-1)] else []) ++
  omap (fun '(i, ts) => if slot_receives ts then Some (Info (ts_ssl ts) (ts_fd ts) (Z.of_nat i)) else None)
       (imap pair (c_additional c)).

(** What the [revents] of one descriptor say: the pass fails, or goes on. *)
Definition revents_fatal (infos : list tcp_sock_info) (fd revents : Z) : bool :=
  has POLLNVAL revents ||
  (has (Z.lor POLLERR POLLHUP) revents && negb (has POLLIN revents) &&
   negb (existsb (fun t => (ti_fd t =? fd) && ti_is_additional t) infos)).

Section receive.
Context {U : Type} `{Accelerator U}.
Context (tick crand : nat -> Z) (malloc_ok : Z -> bool)
        (zlib_uncompress : list Z -> Z -> option (list Z)).
Abbreviation M := (St (cworld U)).

(** ** The accelerator's frames *)

Definition rudp_on (w : cworld U) : bool :=
  bool_decide (is_Some (w_rudp w)) && c_rudp_enabled (w_conn w).

(** A call on [conn->rudp]; the null pointer is [Ub]. *)
Definition with_rudp {A} (m : St U A) : M A := fun w =>
  match w_rudp w with
  | None => Ub
  | Some u => match m u with Ub => Ub | Err => Err | Ok (a, u) => Ok (a, w <| w_rudp := Some u |>) end
  end.

Definition push (bs : list Z) : M unit :=
  c ← get_conn; c ← lift (queue_push bs c); modify_conn (fun _ => c).

Fixpoint drain_loop (n : nat) (moved : Z) : M Z :=
  match n with
  | O => mret moved
  | S n =>
      c ← get_conn;
      if c_recv_queue_count c >=? RECV_QUEUE_SIZE then mret moved else
      r ← with_rudp (ac_recv MAX_QUEUED_FRAME);
      if (r.1 <=? 0) || (len r.2 =? 0) then mret moved else
      push (tk MAX_QUEUED_FRAME r.2) ;; drain_loop n (moved + 1)
  end.

(** The number of frames moved. *)
Definition drain_rudp_into_recv_queue (max_frames : Z) : M Z :=
  on ← gets rudp_on;
  if negb on then mret 0 else with_rudp ac_poll ;; drain_loop (Z.to_nat max_frames) 0.

(** ** Choosing a link *)

Fixpoint find_pending (infos : list tcp_sock_info) : M (option tcp_sock_info) :=
  match infos with
  | [] => mret None
  | t :: rest =>
      live ← link_io_live (ti_idx t) (ti_ssl t) (ti_fd t);
      pending ← (if (live : bool) then ssl_has_pending (ti_ssl t) else mret false);
      if (pending : bool) then mret (Some t) else find_pending rest
  end.

(** For every readable descriptor of the accelerator: frames were moved. *)
Fixpoint drain_ready (udp_fd : Z) (fds : list Z) (revents : Z -> Z) : M bool :=
  match fds with
  | [] => mret false
  | fd :: rest =>
      if (fd =? udp_fd) && has POLLIN (revents fd) then
        moved ← drain_rudp_into_recv_queue RECV_QUEUE_SIZE;
        if moved >? 0 then mret true else drain_ready udp_fd rest revents
      else drain_ready udp_fd rest revents
  end.

(** The outcome of the wait: a link to read, or the result of the pass. *)
Inductive choice : Type := Read (t : tcp_sock_info) | Return (rc : Z).

Definition wait_link (udp_fd : Z) (infos : list tcp_sock_info) : M choice :=
  let fds := (if udp_fd >=? 0 then [udp_fd] else []) ++ map ti_fd infos in
  p ← sys_poll fds;
  if p.1 =? 0 then mret (Return 0) else
  if p.1 <? 0 then mret (Return (-1)) else
  c ← get_conn;
  if bool_decide (c_state c = STATE_DISCONNECTING) then mret (Return (-1)) else
  if existsb (fun fd => revents_fatal infos fd (p.2 fd)) fds then mret (Return (-1)) else
  on ← gets rudp_on;
  moved ← (if (on : bool) && (udp_fd >=? 0) then drain_ready udp_fd fds p.2 else mret false);
  if (moved : bool) then mret (Return 1) else
  match find (fun t => has POLLIN (p.2 (ti_fd t))) infos with
  | None => mret (Return 0)
  | Some t => mret (Read t)
  end.

(** ** Reading a message *)

(** A failed additional link is retired and the connection goes on; a failed
    primary link ends the pass with an error. *)
Definition close_failed (t : tcp_sock_info) : M Z :=
  if ti_is_additional t then retire_slot (ti_idx t) ;; mret 0 else mret (-1).

Definition or_close {A} (t : tcp_sock_info) (m : M (option A)) (k : A -> M Z) : M Z :=
  r ← m; match r with None => close_failed t | Some a => k a end.

Definition read_link (t : tcp_sock_info) (n : Z) : M (option (list Z)) :=
  data_read_all_sock (ti_ssl t) (ti_fd t) n.

Definition skip_block (t : tcp_sock_info) (n : Z) : M (option unit) :=
  ok ← skip_loop (read_link t) SKIP_FUEL n;
  mret (if (ok : bool) then Some tt else None).

Fixpoint recv_blocks (t : tcp_sock_info) (n : nat) : M Z :=
  match n with
  | O => c ← get_conn; mret (if c_recv_queue_count c >? 0 then 1 else 0)
  | S n =>
      or_close t (read_uint32_sock (ti_ssl t) (ti_fd t)) (fun block_size =>
      if block_size >? MAX_BLOCK_SIZE then mret (-1) else
      if block_size =? 0 then recv_blocks t n else
      c ← get_conn;
      if (block_size <=? MAX_QUEUED_FRAME) && (c_recv_queue_count c <? RECV_QUEUE_SIZE) then
        if negb (c_server_use_compress c) then
          or_close t (read_link t block_size) (fun block => push block ;; recv_blocks t n)
        else if negb (malloc_ok block_size) then mret (-1) else
          or_close t (read_link t block_size) (fun block =>
            push (unpack_block zlib_uncompress MAX_QUEUED_FRAME block) ;; recv_blocks t n)
      else
        or_close t (skip_block t block_size) (fun _ =>
          modify_conn (fun c => c <| c_rx_skipped_blocks := u32 (c_rx_skipped_blocks c + 1) |>) ;;
          recv_blocks t n))
  end.

Definition recv_message (t : tcp_sock_info) : M Z :=
  or_close t (read_uint32_sock (ti_ssl t) (ti_fd t)) (fun block_count =>
  if block_count =? KEEP_ALIVE_MAGIC then
    or_close t (read_uint32_sock (ti_ssl t) (ti_fd t)) (fun ka_size =>
    let ka_size := if ka_size >? KEEPALIVE_CAP then KEEPALIVE_CAP else ka_size in
    room KEEPALIVE_CAP ka_size ;;
    or_close t (if ka_size >? 0 then read_link t ka_size else mret (Some [])) (fun _ =>
    _ ← softether_send_keepalive crand; mret 0))
  else if block_count =? 0 then mret 0
  else recv_blocks t (Z.to_nat block_count)).

(** The chosen link is still the one that was captured. *)
Definition revalidate (t : tcp_sock_info) : M bool :=
  c ← get_conn;
  if negb (ti_is_additional t) then mret ((c_ssl c =? ti_ssl t) && (c_socket_fd c =? ti_fd t)) else
  ts ← get_slot (ti_idx t);
  mret (ts_active ts && (ts_ssl ts =? ti_ssl t)).

Definition read_selected (t : tcp_sock_info) : M Z :=
  if ti_ssl t =? 0 then mret 0 else
  ok ← revalidate t;
  if negb ok then mret 0 else
  c ← get_conn;
  if bool_decide (c_state c = STATE_DISCONNECTING) then mret (-1) else
  (if ti_is_additional t then
     now ← softether_tick_ms tick;
     ts ← get_slot (ti_idx t);
     set_slot (ti_idx t) (ts <| ts_last_recv := now |>)
   else mret tt) ;;
  recv_message t.

Definition softether_fill_recv_queue_locked : M Z :=
  c ← get_conn;
  if c_ssl c =? 0 then mret (-1) else
  if bool_decide (c_state c = STATE_DISCONNECTED) || bool_decide (c_state c = STATE_DISCONNECTING)
  then mret (-1) else
  moved ← drain_rudp_into_recv_queue RECV_QUEUE_SIZE;
  if moved >? 0 then mret 1 else
  on ← gets rudp_on;
  udp_fd ← (if (on : bool) then with_rudp ac_fd else mret (-1));
  c ← get_conn;
  let infos := tcp_infos c in
  room (1 + MAX_SE_CONNECTIONS) (len infos) ;;
  if (udp_fd <? 0) && (len infos =? 0) then mret (-1) else
  pending ← (if c_use_ssl_data c then find_pending infos else mret None);
  match pending with
  | Some t => read_selected t
  | None =>
      ch ← wait_link udp_fd infos;
      match ch with Return rc => mret rc | Read t => read_selected t end
  end.

(** The read lock around it, which excludes teardown, is not modelled. *)
Definition softether_fill_recv_queue : M Z := softether_fill_recv_queue_locked.

(** What the queue gives to its consumers: the oldest frame. *)
Definition queue_peek : M (list Z) :=
  c ← get_conn;
  e ← lift (frame_at (c_recv_queue_head c) (c_recv_queue c));
  lift (fetch 0 (qf_len e) (qf_data e)).
Definition queue_drop : M unit := modify_conn queue_advance.
End receive.
