(* ===== verification/ReceiveInv.v ===== *)
(** * The receive queue: refinement and invariant

    [queue_push] and [queue_advance] are append and drop on the list [frames];
    a receive pass returns from every well-formed world, keeps it well formed
    and only appends to that list. *)
From stdpp Require Import functions.
From S2P Require Import Prelude Bytes Ring Crypto Conn Channel Receive ConnInv WorldInv ChannelInv.

(** ** The queue operations *)

Definition with_queue (c : connection) (q : list queued_frame) (t n : Z) : connection :=
  c <| c_recv_queue := q |> <| c_recv_queue_tail := t |> <| c_recv_queue_count := n |>.

Lemma frame_at_ok i c : recv_queue_ok c -> 0 <= i < RECV_QUEUE_SIZE ->
  exists e, frame_at i (c_recv_queue c) = Ok e /\ c_recv_queue c !! Z.to_nat i = Some e /\ frame_ok e.
Proof.
  intros (Hl & Hf & _) Hi. unfold frame_at. destruct (i <? 0) eqn:E; [lia|].
  destruct (lookup_lt_is_Some_2 (c_recv_queue c) (Z.to_nat i)) as [e He]; [unfold len in Hl; lia|].
  rewrite He. exists e. split; [done|]. split; [done|]. by eapply Forall_lookup_1 in He.
Qed.

Lemma tail_step c : recv_queue_ok c ->
  Z.rem (c_recv_queue_tail c + 1) RECV_QUEUE_SIZE =
  (c_recv_queue_head c + (c_recv_queue_count c + 1)) mod RECV_QUEUE_SIZE.
Proof.
  intros (_ & _ & Hh & Hn & ->). unfold RECV_QUEUE_SIZE in *.
  pose proof (Z.mod_pos_bound (c_recv_queue_head c + c_recv_queue_count c) 64).
  rewrite Z.rem_mod_nonneg, Zplus_mod_idemp_l by lia. f_equal. lia.
Qed.

(** Storing a frame that fits appends it. *)
Lemma queue_push_ok bs c :
  recv_queue_ok c -> c_recv_queue_count c < RECV_QUEUE_SIZE -> len bs <= MAX_QUEUED_FRAME -> bytes_ok bs ->
  exists q t n, queue_push bs c = Ok (with_queue c q t n) /\ n = c_recv_queue_count c + 1 /\
    recv_queue_ok (with_queue c q t n) /\ frames (with_queue c q t n) = frames c ++ [bs].
Proof.
  intros Hq Hn Hb Hok. pose proof Hq as (Hl & Hf & Hh & Hc & Ht).
  assert (Htr : 0 <= c_recv_queue_tail c < RECV_QUEUE_SIZE) by (rewrite Ht; by apply Z.mod_pos_bound).
  destruct (frame_at_ok _ c Hq Htr) as (e & Ee & Hlk & (Hel & _ & Heb)).
  unfold queue_push. rewrite Ee, bind_ok. pose proof (len_nonneg bs).
  assert (E : blit bs 0 (qf_data e) = Ok (bs ++ dr (len bs) (qf_data e))).
  { rewrite <- (tk_dr (len bs) (qf_data e)) at 1. apply (blit_at [] (tk (len bs) (qf_data e))); [done|slia]. }
  rewrite E, bind_ok. set (d := bs ++ _). do 3 eexists. split; [reflexivity|]. split; [done|]. split.
  - split; [by cbn; rewrite len_insert|]. split; [|split; [done|split; [cbn; lia|by apply tail_step]]].
    apply Forall_insert; [done|]. split; [cbn; unfold d; slia|]. split; [cbn; lia|]. cbn. unfold d. auto with bytes.
  - unfold frames. cbn. rewrite Ht, <- Hl at 1. rewrite ring_push by lia. rewrite map_app. f_equal. cbn.
    f_equal. unfold frame_bytes, d. cbn. by apply tk_app_exact.
Qed.

(** Taking the oldest frame drops it. *)
Lemma queue_advance_ok c :
  recv_queue_ok c -> 0 < c_recv_queue_count c ->
  exists e rest, c_recv_queue c !! Z.to_nat (c_recv_queue_head c) = Some e /\ frame_ok e /\
    frames c = frame_bytes e :: rest /\
    recv_queue_ok (queue_advance c) /\ frames (queue_advance c) = rest.
Proof.
  intros (Hl & Hf & Hh & Hc & Ht) Hn.
  destruct (ring_pop (c_recv_queue_head c) (c_recv_queue_count c) (c_recv_queue c)) as (e & He & Hv); [lia..|].
  exists e, (map frame_bytes (ring_view ((c_recv_queue_head c + 1) mod RECV_QUEUE_SIZE)
    (c_recv_queue_count c - 1) (c_recv_queue c))).
  split; [done|]. split; [by eapply Forall_lookup_1 in He|]. split; [unfold frames; by rewrite Hv, Hl|].
  assert (Hrem : Z.rem (c_recv_queue_head c + 1) RECV_QUEUE_SIZE = (c_recv_queue_head c + 1) mod RECV_QUEUE_SIZE).
  { unfold RECV_QUEUE_SIZE in *. apply Z.rem_mod_nonneg; lia. }
  split; [|unfold frames, queue_advance; cbn; by rewrite Hrem].
  unfold recv_queue_ok, queue_advance. cbn. rewrite Hrem. split; [done|]. split; [done|].
  split; [by apply Z.mod_pos_bound|]. split; [lia|].
  rewrite Ht, Zplus_mod_idemp_l. f_equal. lia.
Qed.

Lemma len_frames c : recv_queue_ok c -> len (frames c) = c_recv_queue_count c.
Proof. intros (Hl & _ & Hh & Hc & _). unfold frames. rewrite len_map. apply len_ring_view; lia. Qed.

Section receive.
Context {U : Type} (good : U -> Prop) `{AcceleratorLaws U good}.
Context (tick crand : nat -> Z) (malloc_ok : Z -> bool)
        (zlib_uncompress : list Z -> Z -> option (list Z)).
(** [rand] is never negative; what zlib stores fits the buffer it was given. *)
Hypothesis crand_nonneg : forall n, 0 <= crand n.
Hypothesis zlib_fits : forall src cap d, bytes_ok src -> zlib_uncompress src cap = Some d ->
  len d <= cap /\ bytes_ok d.
Implicit Types w : cworld U.
Abbreviation wok := (world_ok good).

(** ** Steps *)

(** [c'] is [c] up to the queue and the counter of skipped blocks. *)
Definition rx_fields (c c' : connection) : Prop :=
  c' = c <| c_recv_queue := c_recv_queue c' |> <| c_recv_queue_tail := c_recv_queue_tail c' |>
         <| c_recv_queue_count := c_recv_queue_count c' |> <| c_rx_skipped_blocks := c_rx_skipped_blocks c' |>.
#[export] Instance rx_fields_preorder : PreOrder rx_fields.
Proof.
  split; [intros c; by destruct c|]. intros c1 c2 c3 E1 E2. unfold rx_fields in *.
  rewrite E2, E1. by destruct c1.
Qed.

(** While a message is read: frames are appended, nothing else changes. *)
Definition mid_step w w' : Prop :=
  wok w' /\ rx_fields (w_conn w) (w_conn w') /\ (exists new, frames (w_conn w') = frames (w_conn w) ++ new).

Lemma mid_refl w : wok w -> mid_step w w.
Proof. intros Hw. split; [done|]. split; [done|]. exists []. by rewrite app_nil_r. Qed.
Lemma mid_trans w1 w2 w3 : mid_step w1 w2 -> mid_step w2 w3 -> mid_step w1 w3.
Proof.
  intros (_ & F1 & n1 & E1) (W2 & F2 & n2 & E2). split; [done|]. split; [by etrans|].
  exists (n1 ++ n2). by rewrite E2, E1, <- app_assoc.
Qed.
Lemma io_mid w w' : io_step good w w' -> mid_step w w'.
Proof.
  intros (Hw & E & _). split; [done|]. rewrite E. split; [done|]. exists []. by rewrite app_nil_r.
Qed.

Lemma rx_additional c c' : rx_fields c c' -> c_additional c' = c_additional c.
Proof. intros ->. by destruct c. Qed.

(** The whole pass: links may have been retired as well. *)
Definition pass_fields (c c' : connection) : Prop :=
  c' = c <| c_recv_queue := c_recv_queue c' |> <| c_recv_queue_tail := c_recv_queue_tail c' |>
         <| c_recv_queue_count := c_recv_queue_count c' |> <| c_rx_skipped_blocks := c_rx_skipped_blocks c' |>
         <| c_additional := c_additional c' |> <| c_num_additional := c_num_additional c' |>.
#[export] Instance pass_fields_preorder : PreOrder pass_fields.
Proof.
  split; [intros c; by destruct c|]. intros c1 c2 c3 E1 E2. unfold pass_fields in *.
  rewrite E2, E1. by destruct c1.
Qed.
Lemma rx_pass c c' : rx_fields c c' -> pass_fields c c'.
Proof. intros E. unfold pass_fields. rewrite E. by destruct c. Qed.

Definition pass_step w w' : Prop :=
  wok w' /\ pass_fields (w_conn w) (w_conn w') /\ (exists new, frames (w_conn w') = frames (w_conn w) ++ new).
Lemma pass_trans w1 w2 w3 : pass_step w1 w2 -> pass_step w2 w3 -> pass_step w1 w3.
Proof.
  intros (_ & F1 & n1 & E1) (W2 & F2 & n2 & E2). split; [done|]. split; [by etrans|].
  exists (n1 ++ n2). by rewrite E2, E1, <- app_assoc.
Qed.
Lemma mid_pass w w' : mid_step w w' -> pass_step w w'.
Proof. intros (Hw & F & Hf). split; [done|]. split; [by apply rx_pass|done]. Qed.

(** ** Storing *)

Lemma push_wp bs w : wok w -> c_recv_queue_count (w_conn w) < RECV_QUEUE_SIZE ->
  len bs <= MAX_QUEUED_FRAME -> bytes_ok bs ->
  wp (push bs) (fun _ w' => mid_step w w' /\ frames (w_conn w') = frames (w_conn w) ++ [bs] /\
    c_recv_queue_count (w_conn w') = c_recv_queue_count (w_conn w) + 1 /\
    (exists q t n, w' = w <| w_conn := with_queue (w_conn w) q t n |>)) w.
Proof.
  intros Hw Hn Hl Hb. unfold push. wp_pure. destruct Hw as ((Hq & Hlk & Hs & Hf) & Hi & Hg).
  destruct (queue_push_ok bs (w_conn w)) as (q & t & n & E & -> & Hq' & Hfr); [done..|].
  eapply wp_lift; [exact E|]. wp_pure. split; [|split; [done|split; [done|by do 3 eexists]]].
  split; [|split; [by destruct (w_conn w)|by exists [bs]]].
  split; [|done]. split; [exact Hq'|]. split; [exact Hlk|]. split; [exact Hs|exact Hf].
Qed.

Lemma unpack_ok cap block : len block <= cap -> bytes_ok block ->
  len (unpack_block zlib_uncompress cap block) <= cap /\ bytes_ok (unpack_block zlib_uncompress cap block).
Proof.
  intros Hl Hb. unfold unpack_block, uncompress_data.
  assert (Hz : forall src d, bytes_ok src -> (if len src =? 0 then Some [] else zlib_uncompress src cap) = Some d ->
    len d <= cap /\ bytes_ok d).
  { intros src d Hs. destruct (len src =? 0); [|by apply zlib_fits]. intros [= <-].
    split; [pose proof (len_nonneg block); rewrite len_nil; lia|constructor]. }
  destruct (if len block =? 0 then _ else _) as [d|] eqn:E; [by eapply Hz|].
  destruct (has_magic block); [|done].
  destruct (if len (dr 8 block) =? 0 then _ else _) as [d|] eqn:E'; [|done].
  eapply Hz; [|exact E']; auto with bytes.
Qed.

(** ** The accelerator *)

Lemma with_rudp_wp {A} (m : St U A) (P : A -> U -> Prop) w :
  wok w -> is_Some (w_rudp w) ->
  (forall u, good u -> exists a u', m u = Ok (a, u') /\ good u' /\ P a u') ->
  wp (with_rudp m) (fun a w' => mid_step w w' /\ w_conn w' = w_conn w /\ is_Some (w_rudp w') /\
     exists u', w_rudp w' = Some u' /\ P a u') w.
Proof.
  intros (Hc & Hi & Hg) [u Hu] Hm. unfold wp, with_rudp. rewrite Hu.
  destruct (Hm u (Hg u Hu)) as (a & u' & -> & Hu' & Hp).
  split; [|split; [done|split; [by eexists|by exists u']]].
  split; [|split; [done|exists []; by rewrite app_nil_r]]. split; [done|]. split; [done|]. by intros ? [= <-].
Qed.

Lemma drain_loop_wp n moved w : wok w -> is_Some (w_rudp w) -> 0 <= moved ->
  wp (drain_loop n moved) (fun r w' => mid_step w w' /\ is_Some (w_rudp w') /\ moved <= r /\
    (moved < r -> 0 < c_recv_queue_count (w_conn w'))) w.
Proof.
  assert (Hstop : forall m w, wok w -> is_Some (w_rudp w) -> wp (mret m) (fun r w' => mid_step w w' /\
    is_Some (w_rudp w') /\ m <= r /\ (m < r -> 0 < c_recv_queue_count (w_conn w'))) w).
  { intros m w0 Hw0 Hr0. wp_step. split; [by apply mid_refl|]. split; [done|]. lia. }
  revert moved w. induction n as [|n IH]; intros moved w Hw Hr Hm; cbn [drain_loop]; [by apply Hstop|].
  wp_pure. wp_step; [by apply Hstop|]. wp_step.
  eapply wp_mono; [apply (with_rudp_wp _ (fun r u' => 0 < r.1 -> r.1 = len r.2 /\ r.1 <= MAX_QUEUED_FRAME /\ bytes_ok r.2)); [done|done|]|].
  { intros u Hu. destruct (ac_recv_good MAX_QUEUED_FRAME u Hu) as (r & bs & u' & E & Hg & Hb).
    exists (r, bs), u'. done. }
  cbv beta. intros r w1 (H1 & Ec & Hr1 & u' & _ & Hp). wp_step.
  { wp_step. split; [done|]. split; [done|]. lia. }
  destruct Hp as (E1 & E2 & Hb); [lia|]. wp_step. eapply wp_mono; [apply push_wp|].
  - apply H1.
  - rewrite Ec. lia.
  - slia.
  - auto with bytes.
  - cbv beta. intros _ w2 (H2 & _ & Hcnt & q2 & t2 & n2 & E). eapply wp_mono; [apply IH; [apply H2|by rewrite E|lia]|].
    cbv beta. intros k w3 (H3 & Hr3 & Hle & Hpos). split; [by eapply mid_trans; [|eapply mid_trans]|].
    split; [done|]. split; [lia|]. intros _. destruct (decide (moved + 1 < k)); [by apply Hpos|].
    destruct H3 as (Hw3 & _ & new & Hf3). destruct Hw as ((Hq & _) & _).
    assert (Hq2 : recv_queue_ok (w_conn w2)) by apply H2. assert (Hq3 : recv_queue_ok (w_conn w3)) by apply Hw3.
    rewrite <- len_frames by done. rewrite Hf3, len_app, len_frames by done. rewrite Hcnt, Ec.
    destruct Hq as (_ & _ & _ & ? & _). pose proof (len_nonneg new). lia.
Qed.

Lemma rudp_on_some w : rudp_on w = true -> is_Some (w_rudp w).
Proof. unfold rudp_on. intros [Hs _]%andb_true_iff. by apply bool_decide_eq_true in Hs. Qed.

(** A positive count of moved frames means that the queue has some. *)
Definition drained w (r : Z) w' : Prop :=
  mid_step w w' /\ (is_Some (w_rudp w) -> is_Some (w_rudp w')) /\ 0 <= r /\
  (0 < r -> 0 < c_recv_queue_count (w_conn w')).

Lemma drain_wp n w : wok w -> wp (drain_rudp_into_recv_queue n) (drained w) w.
Proof.
  intros Hw. unfold drain_rudp_into_recv_queue. wp_pure. wp_step.
  - wp_step. split; [by apply mid_refl|]. split; [done|lia].
  - assert (Hr : is_Some (w_rudp w)) by (apply rudp_on_some; by destruct (rudp_on w)).
    wp_step. eapply wp_mono; [apply (with_rudp_wp _ (fun _ _ => True)); [done|done|]|].
    { intros u Hu. destruct (ac_poll_good u Hu) as (u' & E & Hg). by exists tt, u'. }
    cbv beta. intros _ w1 (H1 & Ec & Hr1 & _). eapply wp_mono; [apply drain_loop_wp; [apply H1|done|done]|].
    cbv beta. intros r w2 (H2 & Hr2 & Hle & Hpos). split; [by eapply mid_trans|]. split; [done|].
    split; [lia|]. intros. apply Hpos. lia.
Qed.

(** ** Choosing a link *)

(** The entries a pass collects name slots. *)
Definition info_ok (t : tcp_sock_info) : Prop := ti_idx t = -1 \/ 0 <= ti_idx t < MAX_SE_CONNECTIONS.

Lemma infos_ok c : len (c_additional c) = MAX_SE_CONNECTIONS -> Forall info_ok (tcp_infos c).
Proof.
  intros Hl. unfold tcp_infos. apply Forall_app. split.
  - destruct (_ && _); [|constructor]. constructor; [by left|constructor].
  - apply Forall_forall. intros t Ht. apply list_elem_of_omap in Ht as ([k ts] & Hk & Hs).
    apply elem_of_lookup_imap in Hk as (j & ts' & [= -> ->] & Hj). destruct (slot_receives ts'); [|done].
    injection Hs as <-. right. cbn. apply lookup_lt_Some in Hj. unfold len in Hl. lia.
Qed.

Lemma len_infos c : len (c_additional c) = MAX_SE_CONNECTIONS -> len (tcp_infos c) <= 1 + MAX_SE_CONNECTIONS.
Proof.
  intros Hl. unfold tcp_infos. rewrite len_app. assert (H' : forall l : list (nat * tcp_sock),
    len (omap (fun '(i, ts) => if slot_receives ts then Some (Info (ts_ssl ts) (ts_fd ts) (Z.of_nat i)) else None) l) <= len l).
  { induction l as [|[i ts] l IH]; [done|]. cbn [omap list_omap]. destruct (slot_receives ts); rewrite ?len_cons; lia. }
  specialize (H' (imap pair (c_additional c))).
  assert (E : len (imap pair (c_additional c)) = len (c_additional c)) by (unfold len; by rewrite length_imap).
  destruct (_ && _); rewrite ?len_cons, ?len_nil; lia.
Qed.

Lemma pending_wp p w : wok w -> p ∉ w_freed w -> wp (ssl_has_pending p) (fun _ w' => io_step good w w') w.
Proof.
  intros Hw Hp. unfold ssl_has_pending. wp_step; [by wp_step|]. wp_step. apply deref_ssl_wp; [done|].
  unfold wp, sys_pending. by destruct (w_pending w).
Qed.

Lemma find_pending_wp infos w : wok w -> Forall info_ok infos ->
  wp (find_pending infos) (fun r w' => io_step good w w' /\ forall t, r = Some t -> info_ok t) w.
Proof.
  intros Hw Hi. revert w Hw. induction Hi as [|t rest Ht Hr IH]; intros w Hw; cbn [find_pending]; [by wp_step|].
  wp_step. eapply wp_mono; [apply (link_io_live_wp good); [done|]|].
  { destruct Ht as [->|[? ?]]; [done|lia]. }
  cbv beta. intros live w' [-> Hl]. wp_step.
  assert (Hgo : forall b w1, io_step good w w1 ->
    wp (if (b : bool) then mret (Some t) else find_pending rest)
       (fun r w' => io_step good w w' /\ forall t, r = Some t -> info_ok t) w1).
  { intros b w1 H1. wp_step; [wp_step; split; [done|by intros ? [= <-]]|].
    eapply wp_mono; [apply IH, H1|]. cbv beta. intros r w2 [H2 Hok]. split; [by eapply io_trans|done]. }
  wp_step; [|wp_step; by apply (Hgo false), io_refl].
  eapply wp_mono; [apply pending_wp; [done|by apply Hl]|]. cbv beta. intros b w1 H1. by apply Hgo.
Qed.

Lemma drain_ready_wp fd fds revents w : wok w ->
  wp (drain_ready fd fds revents) (fun b w' => mid_step w w' /\ (b = true -> 0 < c_recv_queue_count (w_conn w'))) w.
Proof.
  revert w. induction fds as [|f rest IH]; intros w Hw; cbn [drain_ready]; [by wp_step; split; [apply mid_refl|]|].
  wp_step; [|by apply IH]. wp_step. eapply wp_mono; [by apply drain_wp|].
  intros r w1 (H1 & _ & _ & Hpos). wp_step; [wp_step; split; [done|lia]|].
  eapply wp_mono; [apply IH, H1|]. cbv beta. intros b w2 [H2 Hb]. split; [by eapply mid_trans|done].
Qed.

Lemma sys_poll_wp fds w (Q : Z * (Z -> Z) -> cworld U -> Prop) :
  (forall r p, Q r (w <| w_polls := p |>)) -> wp (sys_poll fds) Q w.
Proof.
  intros HQ. unfold wp, sys_poll. destruct (w_polls w) as [|[|ev] rest] eqn:E.
  - specialize (HQ (0, fun _ => 0) (w_polls w)). by destruct w.
  - apply HQ.
  - apply HQ.
Qed.

(** The result of a pass: 1 only with a frame in the queue. *)
Definition result_ok (rc : Z) w' : Prop := -1 <= rc <= 1 /\ (rc = 1 -> 0 < c_recv_queue_count (w_conn w')).

Lemma wait_link_wp fd infos w : wok w -> Forall info_ok infos ->
  wp (wait_link fd infos) (fun ch w' => mid_step w w' /\
    match ch with Return rc => result_ok rc w' | Read t => info_ok t end) w.
Proof.
  intros Hw Hi. unfold wait_link. wp_pure. apply sys_poll_wp. intros r p. set (w1 := w <| w_polls := p |>).
  assert (H1 : mid_step w w1) by (by apply io_mid).
  assert (Hret : forall rc w', mid_step w w' -> result_ok rc w' ->
    wp (mret (Return rc)) (fun ch w' => mid_step w w' /\
      match ch with Return rc => result_ok rc w' | Read t => info_ok t end) w') by done.
  assert (Hz : result_ok 0 w1) by (unfold result_ok; lia).
  assert (Hm1 : forall w', result_ok (-1) w') by (intros w'; unfold result_ok; lia).
  wp_step; [by apply Hret|]. wp_step; [by apply Hret|]. wp_pure.
  wp_step; [by apply Hret|]. wp_step; [by apply Hret|]. wp_pure.
  assert (Hgo : forall b w2, mid_step w w2 -> (b = true -> 0 < c_recv_queue_count (w_conn w2)) ->
    wp (if (b : bool) then mret (Return 1) else
        match find (fun t => has POLLIN (r.2 (ti_fd t))) infos with
        | None => mret (Return 0) | Some t => mret (Read t) end)
      (fun ch w' => mid_step w w' /\
        match ch with Return rc => result_ok rc w' | Read t => info_ok t end) w2).
  { intros b w2 H2 Hb. wp_step; [apply Hret; [done|split; [lia|auto]]|].
    destruct (find _ infos) as [t|] eqn:E; [|apply Hret; [done|unfold result_ok; lia]].
    wp_step. split; [done|]. apply find_some in E as [E _]. apply list_elem_of_In in E.
    by eapply Forall_forall in Hi. }
  wp_step; [|wp_step; by apply (Hgo false)].
  eapply wp_mono; [apply drain_ready_wp, H1|]. cbv beta. intros b w2 [H2 Hb].
  apply Hgo; [exact (mid_trans _ _ _ H1 H2)|exact Hb].
Qed.

(** ** Reading a message *)

(** The selected link is the primary one, or an active slot. *)
Definition selected (t : tcp_sock_info) w : Prop :=
  ti_is_additional t = true -> 0 <= ti_idx t < MAX_SE_CONNECTIONS /\
  exists ts, slot_at w (ti_idx t) ts /\ ts_active ts = true.

Lemma selected_mid t w w' : mid_step w w' -> selected t w -> selected t w'.
Proof.
  intros (_ & Hf & _) Hs Ha. unfold slot_at. rewrite (rx_additional _ _ Hf). by apply Hs.
Qed.

Definition pass_result w (rc : Z) w' : Prop := pass_step w w' /\ result_ok rc w'.

Lemma pass_ret w w' rc : mid_step w w' -> rc = 0 \/ rc = -1 -> wp (mret rc) (pass_result w) w'.
Proof. intros H1 Hrc. wp_step. split; [by apply mid_pass|]. unfold result_ok. lia. Qed.

Lemma close_failed_wp t w : wok w -> selected t w -> wp (close_failed t) (pass_result w) w.
Proof.
  intros Hw Hs. unfold close_failed. wp_step; [|by apply pass_ret; [apply mid_refl|auto]].
  destruct (Hs Hc) as (Hi & ts & Hts & Ha). wp_step. eapply wp_mono; [by apply (retire_slot_wp good _ ts)|].
  cbv beta. intros _ w1 [Hw1 E]. wp_step. split; [|unfold result_ok; lia]. split; [done|].
  rewrite E. split; [by destruct (w_conn w)|]. exists []. by rewrite app_nil_r.
Qed.

Lemma or_close_wp {A} t (m : St (cworld U) (option A)) k (P : option A -> cworld U -> Prop) w0 w :
  mid_step w0 w -> selected t w ->
  wp m (fun r w' => io_step good w w' /\ P r w') w ->
  (forall a w', mid_step w0 w' -> selected t w' -> P (Some a) w' -> io_step good w w' ->
     wp (k a) (pass_result w0) w') ->
  wp (or_close t m k) (pass_result w0) w.
Proof.
  intros Hm0 Hs Hm Hk. unfold or_close. wp_step. eapply wp_mono; [exact Hm|]. intros r w' [Hio HP].
  assert (H1 : mid_step w0 w') by (eapply mid_trans; [exact Hm0|by apply io_mid]).
  assert (Hs1 : selected t w') by (eapply selected_mid; [by apply io_mid|done]).
  destruct r as [a|]; [by apply Hk|]. eapply wp_mono; [apply close_failed_wp; [apply H1|done]|].
  intros rc w2 [Hp Hr]. split; [|done]. eapply pass_trans; [by apply mid_pass|done].
Qed.

Lemma u32_read_wp t w : wok w ->
  wp (read_uint32_sock (ti_ssl t) (ti_fd t)) (fun r w' => io_step good w w' /\ forall v, r = Some v -> 0 <= v < 2 ^ 32) w.
Proof. intros Hw. by apply read_uint32_sock_ok. Qed.

Lemma read_link_wp t n w : wok w -> 0 <= n -> wp (read_link t n) (read_ok good n w) w.
Proof. intros. by apply data_read_all_sock_ok. Qed.

Lemma skip_wp t fuel n w : wok w -> n <= SKIP_CHUNK * Z.of_nat fuel ->
  wp (skip_loop (read_link t) fuel n) (fun _ w' => io_step good w w') w.
Proof.
  revert n w. induction fuel as [|fuel IH]; intros n w Hw Hn; cbn [skip_loop]; (wp_step; [by wp_step|]); [lia|].
  cbv zeta. set (chunk := if n >? SKIP_CHUNK then SKIP_CHUNK else n).
  assert (Hch : 0 < chunk /\ n - chunk <= SKIP_CHUNK * Z.of_nat fuel).
  { unfold chunk, SKIP_CHUNK in *. destruct (n >? 2048) eqn:E; lia. }
  wp_step. eapply wp_mono; [apply read_link_wp; [done|lia]|]. intros r w1 [H1 _].
  destruct r as [b|]; [|by wp_step]. eapply wp_mono; [apply IH; [apply H1|lia]|].
  cbv beta. intros ok w2 H2. by eapply io_trans.
Qed.

Lemma skip_block_wp t n w : wok w -> n <= MAX_BLOCK_SIZE ->
  wp (skip_block t n) (fun _ w' => io_step good w w' /\ True) w.
Proof.
  intros Hw Hn. unfold skip_block. wp_step. eapply wp_mono; [apply skip_wp; [done|]|].
  { unfold MAX_BLOCK_SIZE, SKIP_CHUNK, SKIP_FUEL in *. lia. }
  cbv beta. intros ok w1 H1. by wp_step.
Qed.

Lemma recv_blocks_wp t n w0 w : mid_step w0 w -> selected t w ->
  wp (recv_blocks malloc_ok zlib_uncompress t n) (pass_result w0) w.
Proof.
  revert w. induction n as [|n IH]; intros w Hm0 Hs; cbn [recv_blocks].
  - wp_pure. split; [by apply mid_pass|]. unfold result_ok. destruct (_ >? 0) eqn:E; lia.
  - eapply or_close_wp; [done|done|apply u32_read_wp, Hm0|]. intros size w1 H1 Hs1 Hv _. specialize (Hv _ eq_refl).
    wp_step; [by apply pass_ret; auto|]. wp_step; [by apply IH|]. wp_pure.
    assert (Hstore : forall bs w2, mid_step w0 w2 -> selected t w2 -> w_conn w2 = w_conn w1 ->
      c_recv_queue_count (w_conn w1) < RECV_QUEUE_SIZE -> len bs <= MAX_QUEUED_FRAME -> bytes_ok bs ->
      wp (push bs ;; recv_blocks malloc_ok zlib_uncompress t n) (pass_result w0) w2).
    { intros bs w2 H2 Hs2 E Hc' Hl Hb. wp_step. eapply wp_mono; [apply push_wp; [apply H2|by rewrite E|done|done]|].
      cbv beta. intros _ w3 (H3 & _). apply IH; [by eapply mid_trans|by eapply selected_mid]. }
    wp_step.
    + wp_step.
      * eapply or_close_wp; [done|done|apply read_link_wp; [apply H1|lia]|].
        intros b w2 H2 Hs2 Hb Hio. destruct (Hb b eq_refl) as [Hlb Hbb].
        apply Hstore; try done; [apply Hio|lia..].
      * wp_step; [by apply pass_ret; auto|].
        eapply or_close_wp; [done|done|apply read_link_wp; [apply H1|lia]|].
        intros b w2 H2 Hs2 Hb Hio. destruct (Hb b eq_refl) as [Hlb Hbb].
        destruct (unpack_ok MAX_QUEUED_FRAME b) as [Hlu Hbu]; [lia|done|].
        apply Hstore; try done; [apply Hio|lia].
    + eapply or_close_wp; [done|done|apply skip_block_wp; [apply H1|lia]|].
      intros [] w2 H2 Hs2 _ _. wp_pure.
      assert (H3 : mid_step w2 (w2 <| w_conn := (w_conn w2) <| c_rx_skipped_blocks :=
                 u32 (c_rx_skipped_blocks (w_conn w2) + 1) |> |>)).
      { split; [|split; [by destruct (w_conn w2)|exists []; by rewrite app_nil_r]]. apply wok_conn; [apply H2|].
        apply H2. }
      apply IH; [by eapply mid_trans|by eapply selected_mid].
Qed.

Lemma recv_message_wp t w0 w : mid_step w0 w -> selected t w ->
  wp (recv_message crand malloc_ok zlib_uncompress t) (pass_result w0) w.
Proof.
  intros Hm0 Hs. unfold recv_message. eapply or_close_wp; [done|done|apply u32_read_wp, Hm0|].
  intros count w1 H1 Hs1 Hv _. wp_step.
  - eapply or_close_wp; [done|done|apply u32_read_wp, H1|]. intros size w2 H2 Hs2 Hsz _.
    specialize (Hsz _ eq_refl). cbv zeta. set (ka := if size >? KEEPALIVE_CAP then KEEPALIVE_CAP else size).
    assert (Hka : 0 <= ka <= KEEPALIVE_CAP) by (unfold ka, KEEPALIVE_CAP in *; destruct (size >? 512) eqn:E; lia).
    wp_step. unfold room. eapply wp_lift; [by rewrite (proj2 (Z.leb_le _ _)) by lia|].
    eapply (or_close_wp _ _ _ (fun _ _ => True)); [done|done| |].
    + wp_step; [|wp_step; split; [apply io_refl, H2|done]].
      eapply wp_mono; [apply read_link_wp; [apply H2|lia]|]. by intros r w3 [? _].
    + intros b w3 H3 Hs3 _ _. wp_step. eapply wp_mono; [apply (send_keepalive_wp good); [done|apply H3]|].
      cbv beta. intros r w4 H4. apply pass_ret; [|auto]. eapply mid_trans; [exact H3|by apply io_mid].
  - wp_step; [apply pass_ret; auto|]. by apply recv_blocks_wp.
Qed.

(** ** A receive pass *)

Lemma revalidate_wp t w : wok w -> info_ok t ->
  wp (revalidate t) (fun b w' => w' = w /\ (b = true -> selected t w)) w.
Proof.
  intros Hw Ht. unfold revalidate. wp_pure. wp_step; wp_pure.
  - split; [done|]. intros _ Ha. by rewrite Ha in Hc.
  - assert (Hi : 0 <= ti_idx t < MAX_SE_CONNECTIONS).
    { destruct Ht as [E|?]; [|done]. unfold ti_is_additional in Hc. rewrite E in Hc. done. }
    apply (get_slot_ok good); [done..|]. intros ts Hts. wp_step. split; [done|]. intros Hb _. split; [done|].
    exists ts. split; [done|]. by destruct (ts_active ts).
Qed.

(** The time stamp of the chosen slot. *)
Lemma stamp_slot_wp t w : wok w -> selected t w -> ti_is_additional t = true ->
  wp (now ← softether_tick_ms tick; ts ← get_slot (ti_idx t);
      set_slot (ti_idx t) (ts <| ts_last_recv := now |>))
     (fun _ w' => pass_step w w' /\ selected t w') w.
Proof.
  intros Hw Hs Ha. destruct (Hs Ha) as (Hi & ts & Hts & Hact). wp_step. unfold wp at 1, softether_tick_ms.
  set (w1 := w <| w_ticks := _ |>). wp_step. apply (get_slot_ok good); [done..|].
  intros ts' Hts'. assert (ts' = ts) as -> by (unfold slot_at in *; cbn in Hts'; congruence).
  assert (Hpf : forall l, pass_fields (w_conn w) ((w_conn w) <| c_additional := l |>)) by (intros; by destruct (w_conn w)).
  unfold set_slot. wp_pure. destruct Hw as ((Hq & Hl & Hst & Hf) & Hin & Hg). unfold slot_at in Hts.
  split; [split; [|split; [apply Hpf|exists []; by rewrite app_nil_r]]|].
  - split; [|done]. split; [exact Hq|]. split; [|split; [exact Hst|exact Hf]].
    apply (links_set_slot _ _ _ ts); [done..| |done].
    destruct Hl as [(_ & Hs' & _) _]. exact (Forall_lookup_1 _ _ _ _ Hs' Hts).
  - intros _. split; [done|]. exists (ts <| ts_last_recv := u64 (tick (w_ticks w)) |>).
    split; [|exact Hact]. unfold slot_at. cbn. apply list_lookup_insert_eq. by eapply lookup_lt_Some.
Qed.

Lemma read_selected_wp t w0 w : mid_step w0 w -> info_ok t ->
  wp (read_selected tick crand malloc_ok zlib_uncompress t) (pass_result w0) w.
Proof.
  intros Hm Ht. unfold read_selected. wp_step; [by apply pass_ret; auto|]. wp_step.
  eapply wp_mono; [apply revalidate_wp; [apply Hm|done]|]. intros b w' [-> Hs].
  wp_step; [by apply pass_ret; auto|]. wp_pure. wp_step; [by apply pass_ret; auto|].
  assert (Hsel : selected t w) by (apply Hs; by destruct b).
  assert (Hgo : forall w1, pass_step w w1 -> selected t w1 ->
    wp (recv_message crand malloc_ok zlib_uncompress t) (pass_result w0) w1).
  { intros w1 H1 Hs1. eapply wp_mono; [apply (recv_message_wp t w1); [apply mid_refl, H1|done]|].
    intros rc w2 [H2 Hr]. split; [|done]. eapply pass_trans; [by apply mid_pass|]. by eapply pass_trans. }
  wp_step. wp_step.
  - eapply wp_mono; [apply stamp_slot_wp; [apply Hm|done|done]|]. cbv beta. intros _ w1 [H1 Hs1]. by apply Hgo.
  - wp_step. apply Hgo; [apply mid_pass, mid_refl, Hm|done].
Qed.

Lemma fill_wp w : wok w ->
  wp (softether_fill_recv_queue tick crand malloc_ok zlib_uncompress) (pass_result w) w.
Proof.
  intros Hw. unfold softether_fill_recv_queue, softether_fill_recv_queue_locked. wp_pure.
  wp_step; [apply pass_ret; auto using mid_refl|]. wp_step; [apply pass_ret; auto using mid_refl|]. wp_step.
  eapply wp_mono; [by apply drain_wp|]. intros moved w1 (H1 & Hru & Hge & Hpos).
  wp_step; [wp_step; split; [by apply mid_pass|split; [lia|intros _; apply Hpos; lia]]|]. wp_pure.
  assert (Hgo : forall fd w2, mid_step w w2 ->
    wp (c ← get_conn; let infos := tcp_infos c in
        room (1 + MAX_SE_CONNECTIONS) (len infos) ;;
        if (fd <? 0) && (len infos =? 0) then mret (-1) else
        pending ← (if c_use_ssl_data c then find_pending infos else mret None);
        match pending with
        | Some t => read_selected tick crand malloc_ok zlib_uncompress t
        | None =>
            ch ← wait_link fd infos;
            match ch with Return rc => mret rc | Read t => read_selected tick crand malloc_ok zlib_uncompress t end
        end) (pass_result w) w2).
  { intros fd w2 H2. wp_pure. cbv zeta. pose proof (world_slots good w2 (proj1 H2)) as Hl.
    pose proof (infos_ok _ Hl) as Hio. pose proof (len_infos _ Hl) as Hli. set (infos := tcp_infos (w_conn w2)) in *.
    wp_step. unfold room. eapply wp_lift; [by rewrite (proj2 (Z.leb_le _ _) Hli)|].
    wp_step; [by apply pass_ret; auto|].
    assert (Hnext : forall p w3, mid_step w w3 -> (forall t, p = Some t -> info_ok t) ->
      wp (match p with
          | Some t => read_selected tick crand malloc_ok zlib_uncompress t
          | None =>
              ch ← wait_link fd infos;
              match ch with Return rc => mret rc | Read t => read_selected tick crand malloc_ok zlib_uncompress t end
          end) (pass_result w) w3).
    { intros p w3 H3 Hp. destruct p as [t|]; [by apply read_selected_wp; auto|]. wp_step.
      eapply wp_mono; [apply wait_link_wp; [apply H3|done]|]. intros ch w4 [H4 Hch].
      assert (H5 : mid_step w w4) by (by eapply mid_trans).
      destruct ch as [t|rc]; [by apply read_selected_wp|]. wp_step. split; [by apply mid_pass|done]. }
    wp_step. wp_step.
    - eapply wp_mono; [apply find_pending_wp; [apply H2|done]|]. cbv beta. intros p w3 [H3 Hp].
      apply Hnext; [|done]. eapply mid_trans; [exact H2|by apply io_mid].
    - wp_step. by apply (Hnext None). }
  wp_step.
  - eapply wp_mono; [apply (with_rudp_wp _ (fun _ _ => True)); [apply H1|by apply rudp_on_some|]|].
    { intros u Hu. destruct (ac_fd_good u Hu) as (fd & u' & E & Hg). by exists fd, u'. }
    cbv beta. intros fd w2 (H2 & _). apply Hgo. by eapply mid_trans.
  - wp_step. by apply (Hgo (-1)).
Qed.

(** Looking at the oldest frame. *)
Lemma queue_peek_wp w (Q : list Z -> cworld U -> Prop) : wok w -> 0 < c_recv_queue_count (w_conn w) ->
  (forall frame rest, frames (w_conn w) = frame :: rest -> bytes_ok frame -> len frame <= MAX_QUEUED_FRAME -> Q frame w) ->
  wp queue_peek Q w.
Proof.
  intros Hw Hn HQ. assert (Hq : recv_queue_ok (w_conn w)) by apply Hw.
  destruct (queue_advance_ok _ Hq Hn) as (e & rest & He & (Hel & Hlen & Heb) & Hfr & _).
  unfold queue_peek. wp_pure. eapply wp_lift.
  { unfold frame_at. destruct Hq as (_ & _ & Hh & _). destruct (_ <? 0) eqn:E; [lia|]. by rewrite He. }
  cbv beta. eapply wp_lift.
  { unfold fetch. rewrite Hel. destruct (_ && _) eqn:E; [reflexivity|lia]. }
  apply (HQ _ rest); [exact Hfr|unfold slice; auto with bytes|unfold slice; slia].
Qed.

Lemma queue_drop_wp w (Q : unit -> cworld U -> Prop) : wok w -> 0 < c_recv_queue_count (w_conn w) ->
  (let w' := w <| w_conn := queue_advance (w_conn w) |> in
   wok w' -> frames (w_conn w') = drop 1 (frames (w_conn w)) -> Q tt w') ->
  wp queue_drop Q w.
Proof.
  intros Hw Hn HQ. assert (Hq : recv_queue_ok (w_conn w)) by apply Hw.
  destruct (queue_advance_ok _ Hq Hn) as (e & rest & _ & _ & Hfr & Hq' & Hfr').
  unfold queue_drop. wp_pure. apply HQ.
  - apply wok_conn; [done|]. destruct Hw as ((_ & Hl & Hs & Hf) & _). split; [done|]. split; [exact Hl|].
    split; [exact Hs|exact Hf].
  - cbn. by rewrite Hfr', Hfr.
Qed.
End receive.
