(* ===== verification/ChannelSpec.v ===== *)
(** * The data channel: what the code guarantees

    Failover and rotation of the senders, the keepalive timer, and the
    streaming receiver as a decoder of messages. *)
From stdpp Require Import functions.
From S2P Require Import Prelude Bytes Ring Crypto Accel AccelInv AccelSpec Conn ConnInv WorldInv AccelLink ConnEx.
From S2P Require Import Channel ChannelInv.

(** ** Rotation *)

(** The links that [n] selections in a row choose. *)
Fixpoint selections (n : nat) (c : connection) : res (list Z) :=
  match n with
  | O => Ok []
  | S n => r ← softether_select_send_socket c; rest ← selections n r.2; Ok (r.1 :: rest)
  end.

Lemma select_eq c : send_candidates c <> [] -> 0 <= c_send_rr_idx c ->
  exists idx, softether_select_send_socket c =
    Ok (idx, c <| c_send_rr_idx := (c_send_rr_idx c + 1) mod len (send_candidates c) |>) /\
  send_candidates c !! Z.to_nat (c_send_rr_idx c mod len (send_candidates c)) = Some idx.
Proof.
  intros Hne Hrr. unfold softether_select_send_socket. set (cs := send_candidates c) in *.
  assert (Hl : 0 < len cs) by (destruct cs; [done|rewrite len_cons; pose proof (len_nonneg cs); lia]).
  destruct (len cs =? 0) eqn:E; [lia|]. rewrite !Z.rem_mod_nonneg by lia.
  pose proof (Z.mod_pos_bound (c_send_rr_idx c) (len cs)).
  destruct (_ <? 0) eqn:E2; [lia|]. eexists. split; [reflexivity|].
  destruct (nth_lookup_or_length cs (Z.to_nat (c_send_rr_idx c mod len cs)) 0) as [El|El]; [exact El|].
  unfold len in *. lia.
Qed.

Lemma selections_ok n c : send_candidates c <> [] -> 0 <= c_send_rr_idx c ->
  exists l, selections n c = Ok l /\ length l = n /\ forall k, (k < n)%nat ->
    l !! k = send_candidates c !! Z.to_nat ((c_send_rr_idx c + Z.of_nat k) mod len (send_candidates c)).
Proof.
  revert c. induction n as [|n IH]; intros c Hne Hrr; cbn [selections]; [exists []; split_and!; [done..|lia]|].
  destruct (select_eq c Hne Hrr) as (idx & -> & Hidx). rewrite bind_ok. cbn [fst snd].
  set (c' := c <| c_send_rr_idx := _ |>). assert (Ec : send_candidates c' = send_candidates c) by (by destruct c).
  assert (Hl : 0 < len (send_candidates c)).
  { destruct (send_candidates c) as [|x l]; [done|]. rewrite len_cons. pose proof (len_nonneg l). lia. }
  pose proof (Z.mod_pos_bound (c_send_rr_idx c + 1) (len (send_candidates c)) Hl).
  destruct (IH c') as (l & -> & Hlen & Hk); [by rewrite Ec|cbn; lia|]. rewrite bind_ok.
  exists (idx :: l). split_and!; [done|cbn; lia|]. intros [|k] Hlt; cbn [lookup list_lookup].
  - rewrite Z.add_0_r. by rewrite <- Hidx.
  - rewrite Hk, Ec by lia. cbn [c_send_rr_idx upd c']. do 2 f_equal.
    change (c_send_rr_idx c') with ((c_send_rr_idx c + 1) mod len (send_candidates c)).
    rewrite Zplus_mod_idemp_l. f_equal. lia.
Qed.

(** Selection is a fair rotation: as many selections in a row as there are
    send-capable links choose each of them exactly once, in the order of the
    slots, starting after the last choice. *)
Theorem select_rotates (c : connection) :
  send_candidates c <> [] -> 0 <= c_send_rr_idx c ->
  selections (length (send_candidates c)) c =
    Ok (rotate (Z.to_nat (c_send_rr_idx c)) (send_candidates c)) /\
  rotate (Z.to_nat (c_send_rr_idx c)) (send_candidates c) ≡ₚ send_candidates c.
Proof.
  intros Hne Hrr. destruct (selections_ok (length (send_candidates c)) c Hne Hrr) as (l & -> & Hlen & Hk). split.
  - f_equal. apply list_eq. intros k. destruct (decide (k < length (send_candidates c))%nat) as [Hlt|Hge].
    + rewrite Hk, lookup_rotate_r by done. do 2 f_equal. unfold rotate_nat_add, len. do 2 f_equal. lia.
    + rewrite !lookup_ge_None_2 by (rewrite ?length_rotate; lia). done.
  - unfold rotate. rewrite Permutation_app_comm, take_drop. done.
Qed.

(** ** Failover *)

Section channel.
Context {U : Type} (good : U -> Prop) `{AcceleratorLaws U good}.
Context (tick crand : nat -> Z) (malloc_ok : Z -> bool)
        (zlib_compress zlib_uncompress : list Z -> Z -> option (list Z)) (zlib_bound : Z -> Z).
Implicit Types w : cworld U.
Abbreviation wok := (world_ok good).

Lemma cand_rr c rr idx : cand_chan (c <| c_send_rr_idx := rr |>) idx = cand_chan c idx /\
  cand_usable (c <| c_send_rr_idx := rr |>) idx = cand_usable c idx.
Proof. done. Qed.

(** The outcome of sending a block. *)
Definition transmitted (block : list Z) w (ok : bool) w' : Prop :=
  let cands := send_candidates (w_conn w) in
  let ch := cand_chan (w_conn w) in
  (forall x, x ∉ map ch cands -> w_out w' x = w_out w x) /\
  if ok then exists idx, idx ∈ cands /\ w_out w' (ch idx) = w_out w (ch idx) ++ block
  else forall idx, idx ∈ cands -> ~ healthy w idx /\ (0 < idx -> cand_usable (w_conn w') idx = false).

Definition distinct_chans (c : connection) : Prop := NoDup (map (cand_chan c) (send_candidates c)).

Lemma transmit_run block w :
  wok w -> 8 <= len block -> c_state (w_conn w) <> STATE_DISCONNECTING -> c_ssl (w_conn w) <> 0 ->
  distinct_chans (w_conn w) ->
  wp (softether_transmit_block_nolock block) (fun ok w' => wok w' /\ tx_step (w_conn w) (w_conn w') /\ transmitted block w ok w') w.
Proof.
  intros Hw Hb Hst Hssl Hnd. eapply wp_mono; [by apply (transmit_wp good block w)|].
  intros ok w' ([Hw' Htx] & _ & Hp). split; [done|]. split; [done|].
  destruct (Hp Hb Hst Hssl) as (cs & w1 & (rr & ->) & Hperm & (_ & _ & _ & Hout & Hok & Hno & Hhe)).
  set (ch := cand_chan (w_conn w)). set (cands := send_candidates (w_conn w)) in *.
  assert (Hpm : map ch cs ≡ₚ map ch cands) by (by apply Permutation_map). split.
  - intros x Hx. apply (Hout x). intros Hin. assert (Hin' : x ∈ map ch cands) by (rewrite <- Hpm; exact Hin).
    exact (Hx Hin').
  - destruct ok.
    + destruct (Hok eq_refl) as (idx & Hi & Ho); [change (NoDup (map ch cs)); by rewrite Hpm|].
      assert (Hi' : idx ∈ cands) by (by rewrite <- Hperm). by exists idx.
    + intros idx Hi'. assert (Hi : idx ∈ cs) by (by rewrite Hperm). split; [exact (Hhe eq_refl idx Hi)|by apply Hno].
Qed.

(** C29: Sending a block of a running session with the primary link present:
    nothing is written outside the send-capable links; on success the whole
    block went to one of them; on failure none of them would have taken it and
    every additional link that can send was retired, so a block is never lost
    while a healthy link is left. *)
Theorem transmit_failover (block : list Z) (w : cworld U) :
  wok w -> 8 <= len block -> c_state (w_conn w) <> STATE_DISCONNECTING -> c_ssl (w_conn w) <> 0 ->
  distinct_chans (w_conn w) ->
  exists ok w', softether_transmit_block_nolock block w = Ok (ok, w') /\ wok w' /\ transmitted block w ok w'.
Proof.
  intros Hw Hb Hst Hssl Hnd. pose proof (transmit_run block w Hw Hb Hst Hssl Hnd) as Hwp.
  apply wp_run in Hwp as (ok & w' & E & Hw' & _ & Ht). by exists ok, w'.
Qed.

(** ** The keepalive timer *)

(** What a keepalive round leaves, for a timer that was [due]. *)
Definition round_post (now due : Z) (w w' : cworld U) : Prop :=
  (due = 0 -> w_out w' = w_out w /\ c_next_tcp_keepalive_time (w_conn w') = now) /\
  (due <> 0 -> now < due -> w_out w' = w_out w /\ w_conn w' = w_conn w) /\
  (due <> 0 -> due <= now -> now + 2000 <= c_next_tcp_keepalive_time (w_conn w') <= now + 12000).

(** A keepalive round sends nothing before the timer is due; when it is
    due the timer is set 2 to 12 seconds ahead (a third of the server's
    timeout, 30 s when the server sent none), and the first round only arms it. *)
Theorem keepalive_timer (w : cworld U) :
  (forall n, 0 <= crand n) -> 0 <= tick (w_ticks w) < 2 ^ 63 ->
  wok w -> c_state (w_conn w) = STATE_CONNECTED -> c_ssl (w_conn w) <> 0 ->
  let now := tick (w_ticks w) in
  let due := c_next_tcp_keepalive_time (w_conn w) in
  exists w', softether_send_keepalive_all tick crand w = Ok (0, w') /\ wok w' /\ round_post now due w w'.
Proof.
  intros Hcr Htk Hw Hst Hssl now due.
  enough (Hwp : wp (softether_send_keepalive_all tick crand) (fun r w' => r = 0 /\ wok w' /\ round_post now due w w') w).
  { apply wp_run in Hwp as (r & w' & E & -> & H'). by exists w'. }
  unfold softether_send_keepalive_all. wp_pure. wp_step; [lia|]. rewrite bool_decide_eq_true_2 by done. cbn [negb].
  wp_step. unfold wp at 1, softether_tick_ms. set (w1 := w <| w_ticks := _ |>).
  fold now in Htk.
  assert (Ht : u64 (tick (w_ticks w)) = now) by (unfold u64; rewrite Z.mod_small; [done|]; lia).
  rewrite Ht. fold due. assert (Hset : forall t, wok (w1 <| w_conn := (w_conn w) <| c_next_tcp_keepalive_time := t |> |>)).
  { intros t. apply wok_conn; [done|]. apply Hw. }
  wp_step; wp_pure; [split; [done|]; split; [apply Hset|]; split; [done|]; split; intros; lia|].
  wp_step; [wp_step; split; [done|]; split; [done|]; split; [intros; lia|]; split; [done|intros; lia]|].
  wp_pure. set (iv := keepalive_interval _). assert (Hiv : 2000 <= iv <= 12000).
  { unfold iv, keepalive_interval. cbv zeta. repeat case_match; lia. }
  assert (Hu : u64 (now + iv) = now + iv) by (unfold u64; rewrite Z.mod_small; lia). rewrite Hu.
  set (w2 := w1 <| w_conn := _ |>). specialize (Hset (now + iv)). fold w2 in Hset.
  assert (Hgo : forall w3, io_step good w2 w3 -> wp (keepalive_slots crand (Z.to_nat MAX_SE_CONNECTIONS) 0 ;; mret 0)
    (fun r w' => r = 0 /\ wok w' /\ round_post now due w w') w3).
  { intros w3 H3. wp_step. eapply wp_mono; [apply (keepalive_slots_wp good); [done|apply H3|done|done]|].
    cbv beta. intros _ w4 H4. wp_step. pose proof (io_trans good _ _ _ H3 H4) as (Hw4 & Ec & _).
    split; [done|]. split; [done|]. unfold round_post. rewrite Ec. split; [lia|]. split; [lia|]. intros _ _. cbn. lia. }
  wp_step; [|apply Hgo; by apply io_refl].
  wp_step. eapply wp_mono; [by apply (keepalive_sock_wp good)|]. cbv beta. intros _ w3 H3. wp_step. by apply Hgo.
Qed.
End channel.

(** ** The theorems on a concrete session *)

Lemma select_rotates_witness :
  let c := ex_conn <| c_send_rr_idx := 1 |> in
  selections (length (send_candidates c)) c = Ok (rotate (Z.to_nat (c_send_rr_idx c)) (send_candidates c)) /\
  rotate (Z.to_nat (c_send_rr_idx c)) (send_candidates c) ≡ₚ send_candidates c.
Proof. apply (select_rotates (ex_conn <| c_send_rr_idx := 1 |>)); vm_compute; done. Defined.

(** The primary link refuses the block, the link in slot 0 takes it. *)
Definition ex_refusing : cworld aworld :=
  ex_cworld None quiet (fun ch => if decide (ch = Tls 7) then [WrErr] else []).

Lemma transmit_failover_witness : exists ok w',
  softether_transmit_block_nolock (zeros 8) ex_refusing = Ok (ok, w') /\ world_ok (good 1) w'.
Proof.
  destruct (transmit_failover (good 1) (zeros 8) ex_refusing) as (ok & w' & E & Hw & _).
  - by apply ex_cworld_ok.
  - done.
  - done.
  - done.
  - apply (bool_decide_unpack _). vm_compute. exact I.
  - by exists ok, w'.
Defined.

Lemma keepalive_timer_witness : exists w',
  softether_send_keepalive_all ex_tick (fun _ => 5) (ex_cworld None quiet quiet) = Ok (0, w') /\
  world_ok (good 1) w' /\ round_post (ex_tick 0) 0 (ex_cworld None quiet quiet) w'.
Proof.
  apply (keepalive_timer (good 1) ex_tick (fun _ => 5) (ex_cworld None quiet quiet)).
  - done.
  - done.
  - by apply ex_cworld_ok.
  - done.
  - done.
Defined.
