(* ===== verification/Decode.v ===== *)
(** * Reading messages off a byte stream

    On a link whose stream holds enough bytes, however the network cuts them
    into reads, the transfer functions take exactly the bytes asked for, and a
    receive pass does to the queue what the reference decoder [store] says. *)
From stdpp Require Import functions.
From S2P Require Import Prelude Bytes Ring Crypto Accel AccelInv AccelSpec Conn ConnInv WorldInv AccelLink ConnEx.
From S2P Require Import Channel ChannelInv Receive ReceiveInv.

(** ** The reference *)

Definition block_enc (b : list Z) : list Z := be_enc 4 (len b) ++ b.
Definition message_enc (bs : list (list Z)) : list Z := be_enc 4 (len bs) ++ mjoin (map block_enc bs).

(** The frames that blocks leave in a queue with [room] free slots, and the
    number of blocks skipped. *)
Fixpoint store (unpack : list Z -> list Z) (room : Z) (bs : list (list Z)) : list (list Z) * Z :=
  match bs with
  | [] => ([], 0)
  | b :: bs =>
      if len b =? 0 then store unpack room bs
      else if (len b <=? MAX_QUEUED_FRAME) && (0 <? room) then
        let r := store unpack (room - 1) bs in (unpack b :: r.1, r.2)
      else let r := store unpack room bs in (r.1, r.2 + 1)
  end.

Section decode.
Context {U : Type} (good : U -> Prop) `{AcceleratorLaws U good}.
Context (crand : nat -> Z) (malloc_ok : Z -> bool) (zlib_uncompress : list Z -> Z -> option (list Z)).
Implicit Types w : cworld U.
Abbreviation wok := (world_ok good).

(** ** A live link *)

Definition link_chan w (t : tcp_sock_info) : chan := chan_of (w_conn w) (ti_ssl t) (ti_fd t).

(** [t] is the primary link, or the link in an active slot. *)
Definition link_of w (t : tcp_sock_info) : Prop :=
  ti_ssl t <> 0 /\
  ((ti_idx t = -1 /\ ti_ssl t = c_ssl (w_conn w) /\ ti_fd t = c_socket_fd (w_conn w)) \/
   (0 <= ti_idx t < MAX_SE_CONNECTIONS /\ exists ts, slot_at w (ti_idx t) ts /\
     ts_active ts = true /\ ts_ssl ts = ti_ssl t /\ ts_fd ts = ti_fd t)).

(** What reading leaves unchanged. *)
Definition same_links w w' : Prop :=
  c_additional (w_conn w') = c_additional (w_conn w) /\ c_ssl (w_conn w') = c_ssl (w_conn w) /\
  c_socket_fd (w_conn w') = c_socket_fd (w_conn w) /\ c_use_ssl_data (w_conn w') = c_use_ssl_data (w_conn w) /\
  c_server_use_compress (w_conn w') = c_server_use_compress (w_conn w).

Lemma same_link_of w w' t : same_links w w' -> link_of w t -> link_of w' t /\ link_chan w' t = link_chan w t.
Proof.
  intros (Ea & Es & Ef & Eu & _) Hl. unfold link_of, link_chan, chan_of, slot_at in *. by rewrite Ea, Es, Ef, Eu.
Qed.

Lemma link_live w t : wok w -> link_of w t ->
  (ti_ssl t ∉ w_freed w) /\ exists slot, link_io_resolve (ti_ssl t) (ti_fd t) (w_conn w) = Some slot /\
    slot < MAX_SE_CONNECTIONS /\ link_io_live slot (ti_ssl t) (ti_fd t) w = Ok (true, w).
Proof.
  intros Hw [Hne [(_ & Es & Ef)|(Hi & ts & Hts & Hact & Es & Ef)]].
  - rewrite Es, Ef. split; [by eapply primary_alive|]. exists (-1). unfold link_io_resolve. rewrite !Z.eqb_refl.
    split; [done|]. split; [done|].
    change (Ok ((c_ssl (w_conn w) =? c_ssl (w_conn w)) && (c_socket_fd (w_conn w) =? c_socket_fd (w_conn w)), w) = Ok (true, w)).
    by rewrite !Z.eqb_refl.
  - split; [rewrite <- Es; by eapply slot_alive|]. by apply (resolve_live good w _ _ (ti_idx t) ts).
Qed.

(** The next [n] bytes of the stream were read. *)
Definition took ch n w (r : option (list Z)) w' : Prop :=
  r = Some (tk n (stream (w_in w ch))) /\ after_read ch w w' /\ stream (w_in w' ch) = dr n (stream (w_in w ch)).

Lemma took_of_stream ch n w r w' : read_all_stream ch n [] w r w' -> took ch n w r w'.
Proof.
  unfold read_all_stream, took. change (len []) with 0. by rewrite Z.sub_0_r.
Qed.

Lemma read_link_stream t n w : wok w -> link_of w t -> 0 <= n <= len (stream (w_in w (link_chan w t))) ->
  wp (read_link t n) (took (link_chan w t) n w) w.
Proof.
  intros Hw Hl Hn. destruct (link_live w t Hw Hl) as (Hal & slot & Er & Hs & Eliv).
  unfold read_link, data_read_all_sock, link_chan, chan_of in *. wp_pure.
  destruct (c_use_ssl_data (w_conn w)); cbn [negb].
  - rewrite Er. wp_step. eapply wp_of_run; [exact Eliv|]. cbn [negb]. unfold ssl_read_all_ctx, read_fuel. wp_pure.
    eapply wp_mono; [|apply took_of_stream].
    eapply (read_loop_stream _ _ _ (Tls (ti_ssl t)) (alive (ti_ssl t)) (ti_ssl t <> 0)); try done; try lia.
    + intros. by eapply alive_read.
    + intros. by apply ssl_read_wp.
    + apply Hl.
    + rewrite len_nil; lia.
    + rewrite len_nil; lia.
  - unfold raw_read_all_fd, read_fuel. wp_pure. eapply wp_mono; [|apply took_of_stream].
    eapply (read_loop_stream _ _ _ (Raw (ti_fd t)) (fun _ => True) True); try done; try lia.
    + intros m w1 Hm _. eapply wp_mono; [by apply (sys_read_wp is_again_intr)|]. intros e w2 [? ?]. by split.
    + rewrite len_nil; lia.
    + rewrite len_nil; lia.
Qed.

Lemma took_links ch n w r w' : took ch n w r w' -> same_links w w'.
Proof. intros (_ & Ha & _). unfold same_links. by destruct (after_read_conn ch w w' Ha) as (-> & _). Qed.
Lemma took_io ch n w r w' : wok w -> took ch n w r w' -> io_step good w w'.
Proof. intros Hw (_ & Ha & _). by eapply io_read. Qed.

(** What is known of a state inside a message: the link is up and its stream
    is [s]. *)
Definition reading t w s : Prop := wok w /\ link_of w t /\ stream (w_in w (link_chan w t)) = s.

(** The step of [or_close] that reads bytes that are there. *)
Lemma or_close_read {A} t n a s (f : list Z -> A) m (k : A -> St (cworld U) Z) Q w :
  len a = n -> reading t w (a ++ s) ->
  (forall R, (forall w', took (link_chan w t) n w (Some a) w' -> R (Some (f a)) w') -> wp m R w) ->
  (forall w', reading t w' s -> io_step good w w' -> wp (k (f a)) Q w') ->
  wp (or_close t m k) Q w.
Proof.
  intros Hn (Hw & Hl & Hst) Hm Hk. unfold or_close. wp_step. apply Hm. intros w' Ht.
  destruct (same_link_of w w' t (took_links _ _ _ _ _ Ht) Hl) as [Hl' Ec].
  pose proof (took_io _ _ _ _ _ Hw Ht) as Hio. apply Hk; [|done]. split; [apply Hio|]. split; [done|].
  rewrite Ec. destruct Ht as (_ & _ & ->). by rewrite Hst, dr_app_exact.
Qed.

Lemma read_link_there t n a s R w : len a = n -> reading t w (a ++ s) ->
  (forall w', took (link_chan w t) n w (Some a) w' -> R (Some a) w') -> wp (read_link t n) R w.
Proof.
  intros Hn (Hw & Hl & Hst) HR. pose proof (len_nonneg s). pose proof (len_nonneg a).
  eapply wp_mono; [apply read_link_stream; [done|done|rewrite Hst; slia]|].
  intros r w' Ht. assert (Er : r = Some a).
  { destruct Ht as (-> & _). by rewrite Hst, tk_app_exact. }
  subst r. by apply HR.
Qed.

Lemma read_u32_there t v s R w : 0 <= v < 2 ^ 32 -> reading t w (be_enc 4 v ++ s) ->
  (forall w', took (link_chan w t) 4 w (Some (be_enc 4 v)) w' -> R (Some v) w') ->
  wp (read_uint32_sock (ti_ssl t) (ti_fd t)) R w.
Proof.
  intros Hv Hr HR. unfold read_uint32_sock. wp_step.
  apply (read_link_there t 4 (be_enc 4 v) s _ w); [by rewrite len_be_enc|done|].
  intros w' Ht. wp_step. change (r32 <$> Some (be_enc 4 v)) with (Some (r32 (be_enc 4 v))). rewrite r32_enc by done. by apply HR.
Qed.

(** Bytes that are skipped, 2048 at a time. *)
Lemma skip_there t fuel b s w : len b <= SKIP_CHUNK * Z.of_nat fuel -> reading t w (b ++ s) ->
  wp (skip_loop (read_link t) fuel (len b)) (fun ok w' => ok = true /\ reading t w' s /\ io_step good w w') w.
Proof.
  revert b w. induction fuel as [|fuel IH]; intros b w Hn Hr; cbn [skip_loop]; wp_step.
  1,3: wp_step; split; [done|]; split; [|apply io_refl, Hr]; by rewrite (len_0_nil b) in Hr by (pose proof (len_nonneg b); lia).
  - lia.
  - cbv zeta. set (chunk := if len b >? SKIP_CHUNK then SKIP_CHUNK else len b).
    assert (Hch : 0 < chunk <= len b /\ len b - chunk <= SKIP_CHUNK * Z.of_nat fuel).
    { unfold chunk, SKIP_CHUNK in *. destruct (len b >? 2048) eqn:E; lia. }
    destruct (split_len chunk b) as (b1 & b2 & -> & Hb1); [lia|]. rewrite <- app_assoc in Hr.
    wp_step. apply (read_link_there t chunk b1 (b2 ++ s)); [done|done|]. intros w1 Ht.
    pose proof Hr as (Hw & Hl & Hst). pose proof (took_io _ _ _ _ _ Hw Ht) as Hio.
    destruct (same_link_of w w1 t (took_links _ _ _ _ _ Ht) Hl) as [Hl1 Ec].
    assert (Hr1 : reading t w1 (b2 ++ s)).
    { split; [apply Hio|]. split; [done|]. rewrite Ec. destruct Ht as (_ & _ & ->). by rewrite Hst, dr_app_exact. }
    assert (Hb2 : len (b1 ++ b2) - chunk = len b2) by slia. rewrite Hb2 in *.
    eapply wp_mono; [apply IH; [apply Hch|done]|]. intros ok w2 (-> & Hr2 & Hio2). split; [done|]. split; [done|]. by eapply io_trans.
Qed.

(** ** Messages *)

(** zlib's results fit the buffer and are bytes. *)
Hypothesis uncompress_fits : forall src cap d, bytes_ok src -> zlib_uncompress src cap = Some d ->
  len d <= cap /\ bytes_ok d.

(** A compressed session needs memory for each block. *)
Definition malloc_suffices (c : connection) : Prop :=
  c_server_use_compress c = true -> forall n, n <= MAX_QUEUED_FRAME -> malloc_ok n = true.

(** What is stored for a block. *)
Definition unpacked (c : connection) (b : list Z) : list Z :=
  if c_server_use_compress c then unpack_block zlib_uncompress MAX_QUEUED_FRAME b else b.

Definition queue_room (c : connection) : Z := RECV_QUEUE_SIZE - c_recv_queue_count c.

(** From [w], the blocks [bs] were processed. *)
Definition decoded bs w w' : Prop :=
  wok w' /\ same_links w w' /\ rx_fields (w_conn w) (w_conn w') /\
  frames (w_conn w') = frames (w_conn w) ++ (store (unpacked (w_conn w)) (queue_room (w_conn w)) bs).1 /\
  u32 (c_rx_skipped_blocks (w_conn w')) =
    u32 (c_rx_skipped_blocks (w_conn w) + (store (unpacked (w_conn w)) (queue_room (w_conn w)) bs).2).

Lemma rx_same_links w w' : rx_fields (w_conn w) (w_conn w') -> same_links w w'.
Proof. intros E. unfold same_links. rewrite E. by destruct (w_conn w). Qed.
Lemma io_same_links w w' : io_step good w w' -> same_links w w'.
Proof. intros (_ & E & _). unfold same_links. by rewrite E. Qed.

Lemma unpacked_ok c b : len b <= MAX_QUEUED_FRAME -> bytes_ok b -> len (unpacked c b) <= MAX_QUEUED_FRAME /\ bytes_ok (unpacked c b).
Proof.
  intros Hl Hb. unfold unpacked. destruct (c_server_use_compress c); [|done].
  by eapply unpack_ok.
Qed.

(** Storing one block, from the state after it was read. *)
Lemma push_there t b s w w0 : reading t w s -> w_conn w = w_conn w0 -> bytes_ok b -> len b <= MAX_QUEUED_FRAME ->
  0 < queue_room (w_conn w0) ->
  wp (push (unpacked (w_conn w0) b)) (fun _ w' => reading t w' s /\ rx_fields (w_conn w0) (w_conn w') /\
    frames (w_conn w') = frames (w_conn w0) ++ [unpacked (w_conn w0) b] /\
    queue_room (w_conn w') = queue_room (w_conn w0) - 1 /\
    c_rx_skipped_blocks (w_conn w') = c_rx_skipped_blocks (w_conn w0)) w.
Proof.
  intros (Hw & Hl & Hst) Ec Hb Hlb Hroom. unfold queue_room in *. rewrite <- Ec in *.
  destruct (unpacked_ok (w_conn w) b Hlb Hb) as [Hu Hub].
  eapply wp_mono; [apply (push_wp good); [done|lia|done|done]|]. cbv beta.
  intros _ w' ((Hw' & Hrx & _) & Hf & Hn & (q & tl & n & E)).
  destruct (same_link_of w w' t (rx_same_links _ _ Hrx) Hl) as [Hl' Ech].
  split; [split; [done|]; split; [done|]; rewrite Ech, E; exact Hst|]. split; [done|]. split; [done|]. split; [lia|]. by rewrite E.
Qed.

(** What one block does to the queue. *)
Definition block_effect b w w1 : Prop :=
  if len b =? 0 then frames (w_conn w1) = frames (w_conn w) /\ queue_room (w_conn w1) = queue_room (w_conn w) /\
    c_rx_skipped_blocks (w_conn w1) = c_rx_skipped_blocks (w_conn w)
  else if (len b <=? MAX_QUEUED_FRAME) && (0 <? queue_room (w_conn w)) then
    frames (w_conn w1) = frames (w_conn w) ++ [unpacked (w_conn w) b] /\
    queue_room (w_conn w1) = queue_room (w_conn w) - 1 /\
    c_rx_skipped_blocks (w_conn w1) = c_rx_skipped_blocks (w_conn w)
  else frames (w_conn w1) = frames (w_conn w) /\ queue_room (w_conn w1) = queue_room (w_conn w) /\
    c_rx_skipped_blocks (w_conn w1) = u32 (c_rx_skipped_blocks (w_conn w) + 1).

(** One block, then the rest. *)
Lemma decoded_cons b bs w w1 w2 :
  rx_fields (w_conn w) (w_conn w1) -> block_effect b w w1 -> decoded bs w1 w2 -> decoded (b :: bs) w w2.
Proof.
  intros Hrx Hb (Hw2 & Hl & Hrx2 & Hf & Hs). pose proof (rx_same_links _ _ Hrx) as Hl1.
  assert (Eu : unpacked (w_conn w1) = unpacked (w_conn w)).
  { unfold unpacked. destruct Hl1 as (_ & _ & _ & _ & ->). done. }
  split; [done|]. split; [unfold same_links in *; intuition congruence|]. split; [by etrans|]. cbn [store].
  unfold block_effect in Hb. rewrite Eu in Hf, Hs. destruct (len b =? 0).
  - destruct Hb as (E1 & E2 & E3). by rewrite <- E1, <- E2, <- E3.
  - destruct (_ && _); cbn [fst snd]; destruct Hb as (E1 & E2 & E3); rewrite Hf, Hs, E1, E2, E3.
    + by rewrite <- app_assoc.
    + split; [done|]. unfold u32. rewrite Zplus_mod_idemp_l. f_equal. lia.
Qed.

Definition sized (b : list Z) : Prop := len b <= MAX_BLOCK_SIZE /\ bytes_ok b.

Lemma recv_blocks_there t bs s w :
  reading t w (mjoin (map block_enc bs) ++ s) -> Forall sized bs -> malloc_suffices (w_conn w) ->
  wp (recv_blocks malloc_ok zlib_uncompress t (length bs)) (fun rc w' => decoded bs w w' /\ reading t w' s /\
    rc = if c_recv_queue_count (w_conn w') >? 0 then 1 else 0) w.
Proof.
  intros Hr Hbs. revert w Hr. induction Hbs as [|b bs [Hlb Hbb] _ IH]; intros w Hr Hml; cbn [recv_blocks length].
  { wp_pure. split; [|split; [exact Hr|done]]. pose proof Hr as (Hw & _). unfold decoded. cbn.
    rewrite app_nil_r, Z.add_0_r. split; [done|]. split; [done|]. split; [reflexivity|done]. }
  cbn [map] in Hr. change (mjoin (block_enc b :: ?l)) with (block_enc b ++ mjoin l) in Hr.
  unfold block_enc at 1 in Hr. rewrite <- !app_assoc in Hr. pose proof (len_nonneg b) as Hnn.
  assert (Hv : 0 <= len b < 2 ^ 32) by (unfold MAX_BLOCK_SIZE in *; lia).
  eapply (or_close_read t 4 (be_enc 4 (len b)) _ (fun _ => len b)); [by rewrite len_be_enc|exact Hr| |].
  { intros R HR. by eapply read_u32_there. }
  intros w1 Hr1 Hio1. pose proof (proj1 (proj2 Hio1)) as Ec1.
  assert (Hnext : forall w2, reading t w2 (mjoin (map block_enc bs) ++ s) -> rx_fields (w_conn w) (w_conn w2) -> block_effect b w w2 ->
    wp (recv_blocks malloc_ok zlib_uncompress t (length bs)) (fun rc w' => decoded (b :: bs) w w' /\ reading t w' s /\
      rc = if c_recv_queue_count (w_conn w') >? 0 then 1 else 0) w2).
  { intros w2 Hr2 Hrx Hb. eapply wp_mono; [apply IH; [done|]|].
    { unfold malloc_suffices. by destruct (rx_same_links _ _ Hrx) as (_ & _ & _ & _ & ->). } intros rc w3 (Hd & Hr3 & Hrc). split; [|done].
    exact (decoded_cons b bs w w2 w3 Hrx Hb Hd). }
  assert (Estore : (len b <=? MAX_QUEUED_FRAME) && (c_recv_queue_count (w_conn w1) <? RECV_QUEUE_SIZE) =
    (len b <=? MAX_QUEUED_FRAME) && (0 <? queue_room (w_conn w))) by (rewrite Ec1; unfold queue_room; lia).
  wp_step; [unfold MAX_BLOCK_SIZE in *; lia|]. unfold block_effect in Hnext. wp_step; rewrite Hc0 in Hnext.
  { rewrite (len_0_nil b) in Hr1 by lia. apply Hnext; [done|by rewrite Ec1|by rewrite Ec1]. }
  wp_pure. rewrite Estore. wp_step; rewrite Hc1 in Hnext.
  - assert (Hstore : forall w2, reading t w2 (mjoin (map block_enc bs) ++ s) -> io_step good w1 w2 ->
      wp (push (unpacked (w_conn w) b) ;; recv_blocks malloc_ok zlib_uncompress t (length bs))
        (fun rc w' => decoded (b :: bs) w w' /\ reading t w' s /\
          rc = if c_recv_queue_count (w_conn w') >? 0 then 1 else 0) w2).
    { intros w2 Hr2 Hio2. wp_step. eapply wp_mono; [apply (push_there t b _ w2 w Hr2)|].
      - rewrite <- Ec1. apply Hio2.
      - done.
      - lia.
      - lia.
      - cbv beta. intros _ w3 (Hr3 & Hrx & Hf & Hro & Hsk). by apply Hnext. }
    assert (Hread : forall R, (forall w', took (link_chan w1 t) (len b) w1 (Some b) w' -> R (Some b) w') ->
      wp (read_link t (len b)) R w1) by (intros R HR; by eapply read_link_there).
    unfold unpacked in Hstore. rewrite Ec1. wp_step.
    + destruct (c_server_use_compress (w_conn w)); [done|].
      by eapply (or_close_read t (len b) b _ (fun x => x)).
    + destruct (c_server_use_compress (w_conn w)) eqn:Ecmp; [|done]. rewrite Hml by (done || lia). cbn [negb].
      by eapply (or_close_read t (len b) b _ (fun x => x)).
  - unfold or_close. wp_step. unfold skip_block. wp_step. eapply wp_mono; [apply (skip_there t SKIP_FUEL b (mjoin (map block_enc bs) ++ s) w1)|].
    { unfold MAX_BLOCK_SIZE, SKIP_CHUNK, SKIP_FUEL in *. lia. } { done. }
    cbv beta. intros ok w2 (-> & Hr2 & Hio2). wp_pure. set (w3 := w2 <| w_conn := _ |>).
    assert (Ec2 : w_conn w2 = w_conn w) by (rewrite <- Ec1; apply Hio2).
    apply Hnext.
    + destruct Hr2 as (Hw2 & Hl2 & Hst2). split; [apply wok_conn; [done|]; apply Hw2|]. by split.
    + unfold w3. cbn. rewrite Ec2. by destruct (w_conn w).
    + unfold w3. cbn. by rewrite Ec2.
Qed.

Lemma message_run t bs rest w :
  wok w -> link_of w t -> malloc_suffices (w_conn w) -> stream (w_in w (link_chan w t)) = message_enc bs ++ rest ->
  Forall sized bs -> 0 < len bs < KEEP_ALIVE_MAGIC ->
  wp (recv_message crand malloc_ok zlib_uncompress t)
    (fun rc w' => decoded bs w w' /\ stream (w_in w' (link_chan w t)) = rest /\
       rc = if c_recv_queue_count (w_conn w') >? 0 then 1 else 0) w.
Proof.
  intros Hw Hl Hml Hst Hbs Hn.
  assert (Hr : reading t w (message_enc bs ++ rest)) by done. unfold message_enc in Hr. rewrite <- app_assoc in Hr.
  unfold recv_message. unfold KEEP_ALIVE_MAGIC in Hn.
  eapply (or_close_read t 4 (be_enc 4 (len bs)) _ (fun _ => len bs)); [by rewrite len_be_enc|exact Hr| |].
  { intros R HR. eapply (read_u32_there t (len bs)); [lia|exact Hr|done]. }
  intros w1 Hr1 Hio. wp_step; [unfold KEEP_ALIVE_MAGIC in *; lia|]. wp_step; [lia|].
  replace (Z.to_nat (len bs)) with (length bs) by (unfold len; lia).
  eapply wp_mono; [apply recv_blocks_there; [done|done|]|].
  { by rewrite (proj1 (proj2 Hio)). } intros rc w2 (Hd & Hr2 & Hrc).
  pose proof (proj1 (proj2 Hio)) as Ec. unfold decoded in Hd. rewrite Ec in Hd.
  assert (Hd' : decoded bs w w2).
  { destruct Hd as (H1 & H2 & H3). split; [done|]. split; [|done]. unfold same_links in *. by rewrite Ec in H2. }
  split; [done|]. split; [|done]. destruct Hr2 as (_ & _ & <-).
  destruct Hd' as (_ & Hsl & _). by destruct (same_link_of w w2 t Hsl Hl) as [_ ->].
Qed.

(** C14: Whatever way the network cuts them into reads, the bytes of a message
    of blocks on a live link are processed as the reference decoder says: the
    non-empty blocks of at most 2048 bytes are queued in order while the queue
    has room (unpacked when the session is compressed), all others are skipped
    and counted, and the stream is left exactly behind the message. *)
Theorem message_decoded (t : tcp_sock_info) (bs : list (list Z)) (rest : list Z) (w : cworld U) :
  wok w -> link_of w t -> malloc_suffices (w_conn w) -> stream (w_in w (link_chan w t)) = message_enc bs ++ rest ->
  Forall sized bs -> 0 < len bs < KEEP_ALIVE_MAGIC ->
  exists rc w', recv_message crand malloc_ok zlib_uncompress t w = Ok (rc, w') /\
    wok w' /\ stream (w_in w' (link_chan w t)) = rest /\
    rc = (if c_recv_queue_count (w_conn w') >? 0 then 1 else 0) /\
    let r := store (unpacked (w_conn w)) (queue_room (w_conn w)) bs in
    frames (w_conn w') = frames (w_conn w) ++ r.1 /\
    u32 (c_rx_skipped_blocks (w_conn w')) = u32 (c_rx_skipped_blocks (w_conn w) + r.2).
Proof.
  intros Hw Hl Hml Hst Hbs Hn. pose proof (message_run t bs rest w Hw Hl Hml Hst Hbs Hn) as Hwp.
  apply wp_run in Hwp as (rc & w' & E & (Hw' & _ & _ & Hf & Hs) & Hr & Hrc). by exists rc, w'.
Qed.

(** ** Keepalives *)

(** [rand] is never negative. *)
Hypothesis crand_nonneg : forall n, 0 <= crand n.

(** A keepalive is answered and its payload taken off the stream, but only
    its first 512 bytes: of a longer one the rest stays in front of the next
    message and is read as that message's header. *)
Theorem keepalive_consumed (t : tcp_sock_info) (payload rest : list Z) (w : cworld U) :
  wok w -> link_of w t -> len payload < 2 ^ 32 ->
  stream (w_in w (link_chan w t)) = be_enc 4 KEEP_ALIVE_MAGIC ++ be_enc 4 (len payload) ++ payload ++ rest ->
  exists w', recv_message crand malloc_ok zlib_uncompress t w = Ok (0, w') /\ wok w' /\
    w_conn w' = w_conn w /\
    stream (w_in w' (link_chan w t)) = dr KEEPALIVE_CAP payload ++ rest.
Proof.
  intros Hw Hl Hn Hst. enough (Hwp : wp (recv_message crand malloc_ok zlib_uncompress t)
    (fun rc w' => rc = 0 /\ wok w' /\ w_conn w' = w_conn w /\
       stream (w_in w' (link_chan w t)) = dr KEEPALIVE_CAP payload ++ rest) w).
  { apply wp_run in Hwp as (rc & w' & E & -> & Hw'). by exists w'. }
  assert (Hr : reading t w (be_enc 4 KEEP_ALIVE_MAGIC ++ be_enc 4 (len payload) ++ payload ++ rest)) by done.
  pose proof (len_nonneg payload) as Hnn. unfold recv_message.
  eapply (or_close_read t 4 (be_enc 4 KEEP_ALIVE_MAGIC) _ (fun _ => KEEP_ALIVE_MAGIC)); [done|exact Hr| |].
  { intros R HR. by eapply (read_u32_there t KEEP_ALIVE_MAGIC). }
  intros w1 Hr1 Hio1. rewrite Z.eqb_refl.
  eapply (or_close_read t 4 (be_enc 4 (len payload)) _ (fun _ => len payload)); [by rewrite len_be_enc|exact Hr1| |].
  { intros R HR. by eapply (read_u32_there t (len payload)). }
  intros w2 Hr2 Hio2. cbv zeta. set (ka := if len payload >? KEEPALIVE_CAP then KEEPALIVE_CAP else len payload).
  assert (Hka : 0 <= ka <= KEEPALIVE_CAP /\ ka <= len payload /\ dr ka payload = dr KEEPALIVE_CAP payload).
  { unfold ka. destruct (len payload >? KEEPALIVE_CAP) eqn:E; unfold KEEPALIVE_CAP in *; split; [lia| |lia|]; split; [lia|done|lia|].
    by rewrite !dr_all by lia. }
  destruct Hka as (Hk1 & Hk2 & Hk3).
  wp_step. unfold room. eapply wp_lift; [by rewrite (proj2 (Z.leb_le _ _)) by lia|].
  rewrite <- (tk_dr ka payload) in Hr2. rewrite <- app_assoc in Hr2.
  assert (Hfin : forall w3, reading t w3 (dr ka payload ++ rest) -> io_step good w2 w3 ->
    wp (_ ← softether_send_keepalive crand; mret 0) (fun rc w' => rc = 0 /\ wok w' /\ w_conn w' = w_conn w /\
      stream (w_in w' (link_chan w t)) = dr KEEPALIVE_CAP payload ++ rest) w3).
  { intros w3 (Hw3 & Hl3 & Hst3) Hio3. wp_step. eapply wp_mono; [by apply (send_keepalive_io good)|].
    cbv beta. intros r w4 [(Hw4 & Ec4 & _) Ein]. wp_step. split; [done|]. split; [done|].
    pose proof (io_trans good _ _ _ Hio1 (io_trans good _ _ _ Hio2 Hio3)) as (_ & Ec3 & _).
    split; [congruence|]. rewrite Ein, <- Hk3, <- Hst3. unfold link_chan. by rewrite Ec3. }
  unfold or_close. wp_step. wp_step.
  - eapply (read_link_there t ka (tk ka payload)); [slia|exact Hr2|]. intros w3 Ht.
    pose proof (took_io _ _ _ _ _ (proj1 Hr2) Ht) as Hio3. apply Hfin; [|done].
    destruct (same_link_of w2 w3 t (took_links _ _ _ _ _ Ht) (proj1 (proj2 Hr2))) as [Hl3 Ec].
    split; [apply Hio3|]. split; [done|]. rewrite Ec. destruct Ht as (_ & _ & ->).
    rewrite (proj2 (proj2 Hr2)). apply dr_app_exact. slia.
  - wp_step. assert (ka = 0) as E by lia. rewrite E, tk_0 in Hr2 by lia. rewrite E in Hfin.
    apply Hfin; [exact Hr2|apply io_refl, Hr2].
Qed.
End decode.

(** ** A message in two pieces on the link of slot 0 *)

Definition ex_blocks : list (list Z) := [[1; 2; 3]; []; zeros 2049; [4]].
Definition ex_reads (ch : chan) : list rd_event :=
  if decide (ch = Tls 8)
  then [RdData (tk 9 (message_enc ex_blocks)); RdData (dr 9 (message_enc ex_blocks) ++ [77])] else [].

Lemma ex_reads_ok ch : Forall rd_ok (ex_reads ch).
Proof.
  unfold ex_reads. destruct (decide _); [|constructor]. repeat constructor; cbn [rd_ok].
  all: apply (bool_decide_unpack _); vm_compute; exact I.
Qed.

Lemma message_decoded_witness : exists rc w',
  recv_message (fun _ => 5) (fun _ => true) ex_unzlib (Info 8 5 0) (ex_cworld None ex_reads quiet) = Ok (rc, w') /\
  frames (w_conn w') = [[1; 2; 3]; [4]] /\ stream (w_in w' (Tls 8)) = [77] /\ rc = 1.
Proof.
  edestruct (message_decoded (good 1) (fun _ => 5) (fun _ => true) ex_unzlib) with (t := Info 8 5 0)
    (bs := ex_blocks) (rest := [77]) (w := ex_cworld None ex_reads quiet) as (rc & w' & E & Hw & Hst & Hrc & Hf & Hs).
  - apply ex_unzlib_fits.
  - apply ex_cworld_ok; [apply ex_reads_ok|done].
  - split; [done|]. right. split; [done|]. by exists (Sock 5 8 8 TCP_DIRECTION_BOTH 0 0 true).
  - done.
  - vm_compute. done.
  - apply (bool_decide_unpack _). vm_compute. exact I.
  - done.
  - exists rc, w'. split; [exact E|]. assert (Hfr : frames (w_conn w') = [[1; 2; 3]; [4]]).
    { rewrite Hf. vm_compute. done. }
    split; [exact Hfr|]. split; [exact Hst|]. rewrite Hrc. destruct Hw as ((Hq & _) & _).
    rewrite <- (len_frames _ Hq), Hfr. done.
Defined.

(** A keepalive of 514 bytes leaves two of them behind. *)
Definition ex_keepalive (ch : chan) : list rd_event :=
  if decide (ch = Tls 8)
  then [RdData (be_enc 4 KEEP_ALIVE_MAGIC ++ be_enc 4 514 ++ replicate 514 9 ++ [1; 2])] else [].

Lemma keepalive_consumed_witness : exists w',
  recv_message (fun _ => 5) (fun _ => true) ex_unzlib (Info 8 5 0) (ex_cworld None ex_keepalive quiet) = Ok (0, w') /\
  stream (w_in w' (Tls 8)) = [9; 9; 1; 2].
Proof.
  edestruct (keepalive_consumed (good 1) (fun _ => 5) (fun _ => true) ex_unzlib) with (t := Info 8 5 0)
    (payload := replicate 514 9) (rest := [1; 2]) (w := ex_cworld None ex_keepalive quiet) as (w' & E & _ & _ & Hst).
  - done.
  - apply ex_cworld_ok; [|done]. intros ch. unfold ex_keepalive. destruct (decide _); [|constructor].
    constructor; [|constructor]. cbn [rd_ok]. apply (bool_decide_unpack _). vm_compute. exact I.
  - split; [done|]. right. split; [done|]. by exists (Sock 5 8 8 TCP_DIRECTION_BOTH 0 0 true).
  - done.
  - vm_compute. done.
  - exists w'. split; [exact E|]. etrans; [exact Hst|]. vm_compute. done.
Defined.
