(* ===== verification/Tunnel.v ===== *)
(** * The Ethernet tunnel (softether_protocol.c, data part)

    IP packets and raw Ethernet frames over the block channel or the UDP
    accelerator: sending, receiving one packet or a batch, answering and
    asking ARP, maintaining and closing the additional links. *)
From stdpp Require Import functions.
From S2P Require Import Prelude Bytes Ring Crypto Conn Channel Receive.

Definition ETH_TYPE_IPV4 : Z := 0x0800.
Definition ETH_TYPE_IPV6 : Z := 0x86DD.
Definition ETH_TYPE_ARP : Z := 0x0806.
Definition broadcast_mac : list Z := replicate 6 255.

(** An Ethernet frame and the ARP body the code writes byte by byte. *)
Definition eth_frame (dst src : list Z) (ethertype : Z) (payload : list Z) : list Z :=
  dst ++ src ++ w16 ethertype ++ payload.
Definition arp_body (op : Z) (sender_mac : list Z) (sender_ip : list Z) (target_mac target_ip : list Z) : list Z :=
  [0; 1; 8; 0; 6; 4] ++ w16 op ++ sender_mac ++ sender_ip ++ target_mac ++ target_ip.

Section tunnel.
Context {U : Type} `{Accelerator U}.
Context (tick crand : nat -> Z) (malloc_ok : Z -> bool)
        (zlib_compress zlib_uncompress : list Z -> Z -> option (list Z)) (zlib_bound : Z -> Z)
        (thread_ok : bool).
Abbreviation M := (St (cworld U)).

(** ** Sending *)

(** The accelerator took the frame. *)
Definition try_rudp (frame : list Z) : M bool :=
  on ← gets rudp_on;
  if negb on then mret false else
  with_rudp ac_poll ;;
  c ← get_conn;
  ready ← with_rudp (ac_ready (c_session_established c));
  if negb ready then mret false else
  r ← with_rudp (ac_send frame);
  mret (r >? 0).

Definition softether_send_data_block (block frame : list Z) : M Z :=
  taken ← try_rudp frame;
  if (taken : bool) then mret (len frame) else
  ok ← softether_transmit_block_nolock block;
  mret (if (ok : bool) then len frame else -1).

(** The header, the Ethernet header and the packet into the staging buffer. *)
Definition stage_frame (c : connection) (data buf : list Z) : res (list Z) :=
  let frame_len := u32 (ETH_HEADER_SIZE + u32 (len data)) in
  buf ← blit (w32 1) 0 buf;
  buf ← blit (w32 frame_len) 4 buf;
  buf ← blit (if c_gateway_mac_resolved c then c_gateway_mac c else broadcast_mac) 8 buf;
  buf ← blit (c_client_mac c) 14 buf;
  d0 ← fetch 0 1 data;
  let ethertype := if Z.land (hd 0 d0 ≫ 4) 15 =? 6 then ETH_TYPE_IPV6 else ETH_TYPE_IPV4 in
  buf ← blit (w16 ethertype) 20 buf;
  blit data 22 buf.

Definition softether_send (data : list Z) : M Z :=
  if len data =? 0 then mret (-1) else
  c ← get_conn;
  if negb (bool_decide (c_state c = STATE_CONNECTED)) then mret (-1) else
  match c_send_block c with
  | None => mret (-1)
  | Some buf =>
      if len data >? u32 (c_send_block_cap c - 8 - ETH_HEADER_SIZE) then mret (-1) else
      if c_ssl c =? 0 then mret (-1) else
      let frame_len := u32 (ETH_HEADER_SIZE + u32 (len data)) in
      buf ← lift (stage_frame c data buf);
      modify_conn (fun c => c <| c_send_block := Some buf |>) ;;
      block ← lift (fetch 0 (u32 (8 + frame_len)) buf);
      frame ← lift (fetch 8 frame_len buf);
      sent ← softether_send_data_block block frame;
      if sent <? 0 then mret (-1) else
      modify_conn (fun c => c <| c_stats_tx_packets := u64 (c_stats_tx_packets c + 1) |>
                              <| c_stats_tx_bytes := u64 (c_stats_tx_bytes c + len data) |>) ;;
      mret (len data)
  end.

Definition softether_send_data (data : list Z) : M Z :=
  c ← get_conn;
  if negb (bool_decide (c_state c = STATE_CONNECTED)) then mret (-1) else
  taken ← try_rudp data;
  if (taken : bool) then mret (len data) else
  r ← softether_send_packet crand malloc_ok zlib_compress zlib_bound CMD_DATA data;
  mret (if r <? 0 then -1 else r).

Definition softether_send_raw (frame : list Z) : M Z :=
  if len frame =? 0 then mret (-1) else
  c ← get_conn;
  if negb (bool_decide (c_state c = STATE_CONNECTED)) then mret (-1) else softether_send_data frame.

(** ** Answering ARP *)

(** The frame is an ARP request for our address. *)
Definition arp_request_for (c : connection) (data : list Z) : res bool :=
  op ← fetch 20 2 data;
  if negb (bool_decide (op = [0; 1]) && negb (c_assigned_ip c =? 0)) then Ok false else
  target ← fetch 38 4 data;
  Ok (r32 target =? c_assigned_ip c).

Definition arp_reply (c : connection) (data : list Z) : res (list Z) :=
  asker ← fetch 6 6 data;
  asker_mac ← fetch 22 6 data;
  asker_ip ← fetch 28 4 data;
  Ok (eth_frame asker (c_client_mac c) ETH_TYPE_ARP
        (arp_body 2 (c_client_mac c) (w32 (c_assigned_ip c)) asker_mac asker_ip)).

Definition softether_reply_arp_request (data : list Z) : M unit :=
  c ← get_conn;
  ours ← lift (arp_request_for c data);
  when ours (reply ← lift (arp_reply c data); _ ← softether_send_raw reply; mret tt).

(** ** Link maintenance *)

Definition free_slot (c : connection) : option Z := head (slots (fun ts => negb (ts_active ts)) c).

Definition connect_backoff (failed : Z) : Z :=
  ADDITIONAL_CONNECT_INTERVAL_MS * (if failed <? 8 then failed + 1 else 8).

(** The background connect: whether it is due, the slot, and the back-off. *)
Definition launch_additional : M unit :=
  c ← get_conn;
  when ((c_num_additional c <? c_max_connection c - 1) && (c_additional_failed_count c <? 16) &&
        negb (c_additional_connecting c))
  (now ← softether_tick_ms tick;
   when ((c_next_connect_time c =? 0) || (c_next_connect_time c <=? now))
   (match free_slot c with
    | None => mret tt
    | Some slot =>
        modify_conn (fun c =>
          c <| c_additional_connect_slot := if thread_ok then slot else -1 |>
            <| c_additional_connecting := thread_ok |> <| c_additional_connect_result := -1 |>)
    end ;;
    modify_conn (fun c => c <| c_next_connect_time :=
      u64 (now + connect_backoff (c_additional_failed_count c)) |>))).

(** A slot whose peer hung up is emptied. *)
Definition check_slot (i : Z) : M unit :=
  c ← get_conn;
  ts ← get_slot i;
  when (ts_active ts && negb (c_additional_connecting c && (i =? c_additional_connect_slot c)))
  (p ← sys_poll [ts_fd ts];
   when ((p.1 >? 0) && has (Z.lor (Z.lor POLLERR POLLHUP) POLLNVAL) (p.2 (ts_fd ts)))
   (set_slot i (ts <| ts_late_count := 0 |> <| ts_last_recv := 0 |>) ;; retire_slot i)).

Fixpoint check_slots (n : nat) (i : Z) : M unit :=
  match n with O => mret tt | S n => check_slot i ;; check_slots n (i + 1) end.

Definition softether_maintain_links : M unit :=
  _ ← softether_send_keepalive_all tick crand;
  launch_additional ;;
  check_slots (Z.to_nat MAX_SE_CONNECTIONS) 0.

Definition fill_recv_queue : M Z := softether_fill_recv_queue tick crand malloc_ok zlib_uncompress.

(** ** Receiving *)

(** What the tunnel does with one frame. *)
Inductive frame_kind : Type := FArp | FOther | FIp (packet : list Z).

Definition classify (frame : list Z) : frame_kind :=
  if (len frame >=? 42) && (r16 (slice 12 2 frame) =? ETH_TYPE_ARP) then FArp
  else if len frame <=? ETH_HEADER_SIZE then FOther
  else if (r16 (slice 12 2 frame) =? ETH_TYPE_IPV4) || (r16 (slice 12 2 frame) =? ETH_TYPE_IPV6)
  then FIp (dr ETH_HEADER_SIZE frame) else FOther.

(** The return value and what was stored in the buffer of [max_len] bytes. *)
Definition softether_receive (max_len : Z) : M (Z * list Z) :=
  if max_len =? 0 then mret (-1, []) else
  c ← get_conn;
  if negb (bool_decide (c_state c = STATE_CONNECTED)) then mret (-1, []) else
  softether_maintain_links ;;
  c ← get_conn;
  rc ← (if c_recv_queue_count c <=? 0 then fill_recv_queue else mret 1);
  if rc <? 0 then mret (-1, []) else
  if rc =? 0 then mret (0, []) else
  c ← get_conn;
  if c_recv_queue_count c <=? 0 then mret (0, []) else
  frame ← queue_peek;
  match classify frame with
  | FArp => softether_reply_arp_request frame ;; queue_drop ;; mret (0, [])
  | FOther => queue_drop ;; mret (0, [])
  | FIp packet =>
      queue_drop ;;
      mret (if len packet >? max_len then (-1, []) else (len packet, packet))
  end.

(** The return value and the frame stored, of [*frame_len] bytes. *)
Definition softether_receive_raw (max_len : Z) : M (Z * list Z) :=
  c ← get_conn;
  if negb (bool_decide (c_state c = STATE_CONNECTED)) then mret (-1, []) else
  rc ← (if c_recv_queue_count c <=? 0 then fill_recv_queue else mret 1);
  if rc <? 0 then mret (-1, []) else
  if rc =? 0 then mret (0, []) else
  c ← get_conn;
  if c_recv_queue_count c <=? 0 then mret (0, []) else
  frame ← queue_peek;
  queue_drop ;;
  mret (if len frame >? max_len then (0, []) else (len frame, frame)).

(** The packets collected so far go into one buffer of [max_len] bytes. *)
Fixpoint batch_loop (fuel : nat) (max_len max_packets : Z) (packets : list (list Z)) : M (list (list Z)) :=
  match fuel with
  | O => fun _ => Err
  | S fuel =>
      c ← get_conn;
      if (len packets >=? max_packets) || (c_recv_queue_count c <=? 0) then mret packets else
      frame ← queue_peek;
      match classify frame with
      | FArp =>
          softether_reply_arp_request frame ;; queue_drop ;;
          batch_loop fuel max_len max_packets packets
      | FOther => queue_drop ;; batch_loop fuel max_len max_packets packets
      | FIp packet =>
          if u32 (len (mjoin packets) + len packet) >? max_len then mret packets else
          room max_len (len (mjoin packets) + len packet) ;;
          queue_drop ;; batch_loop fuel max_len max_packets (packets ++ [packet])
      end
  end.

(** The return value, the packets stored one behind the other, and the
    [max_packets] entries of [lengths]. *)
Record batch := Batch { b_ret : Z; b_packets : list (list Z); b_lengths : list Z }.

(** A pass takes a frame off the queue, and answering ARP adds none. *)
Definition softether_receive_batch (max_len max_packets : Z) : M batch :=
  if (max_len =? 0) || (max_packets =? 0) then mret (Batch 0 [] []) else
  c ← get_conn;
  if negb (bool_decide (c_state c = STATE_CONNECTED)) then mret (Batch (-1) [] []) else
  softether_maintain_links ;;
  c ← get_conn;
  rc ← (if c_recv_queue_count c <=? 0 then fill_recv_queue else mret 0);
  if rc <? 0 then mret (Batch (-1) [] []) else
  c ← get_conn;
  packets ← batch_loop (S (Z.to_nat (c_recv_queue_count c))) max_len max_packets [];
  let count := len packets in
  let total := len (mjoin packets) in
  when (count >? 0) (modify_conn (fun c =>
    c <| c_stats_rx_packets := u64 (c_stats_rx_packets c + count) |>
      <| c_stats_rx_bytes := u64 (c_stats_rx_bytes c + total) |>)) ;;
  mret (Batch total packets (map len packets ++ zeros (max_packets - count))).

(** ** Resolving the gateway *)

Definition arp_request (c : connection) (ip : Z) : list Z :=
  eth_frame broadcast_mac (c_client_mac c) ETH_TYPE_ARP
    (arp_body 1 (c_client_mac c) (w32 (c_assigned_ip c)) (zeros 6) (w32 ip)).

(** The sender's hardware address when the frame is an ARP reply from [ip]. *)
Definition arp_answer (ip : Z) (frame : list Z) : option (list Z) :=
  if (len frame >=? 42) && (r16 (slice 12 2 frame) =? ETH_TYPE_ARP) &&
     bool_decide (slice 20 2 frame = [0; 2]) && (r32 (slice 28 4 frame) =? ip)
  then Some (slice 22 6 frame) else None.

Fixpoint await_arp (n : nat) (ip : Z) : M bool :=
  match n with
  | O => mret false
  | S n =>
      r ← softether_receive_raw 2048;
      match (if r.1 >? 0 then arp_answer ip r.2 else None) with
      | Some mac =>
          modify_conn (fun c => c <| c_gateway_mac := mac |> <| c_gateway_mac_resolved := true |>) ;;
          mret true
      | None => await_arp n ip
      end
  end.

Fixpoint resolve_attempts (n : nat) (ip : Z) (req : list Z) : M Z :=
  match n with
  | O => mret (-1)
  | S n =>
      found ← await_arp 40 ip;
      if (found : bool) then mret 0 else
      _ ← softether_send_raw req; resolve_attempts n ip req
  end.

Definition softether_resolve_gateway (ip : Z) : M Z :=
  c ← get_conn;
  if negb (bool_decide (c_state c = STATE_CONNECTED)) then mret (-1) else
  modify_conn (fun c => c <| c_gateway_ip := ip |>) ;;
  let req := arp_request c ip in
  _ ← softether_send_raw req;
  resolve_attempts 3 ip req.

(** ** The message interface *)

(** One attempt to take a block from the accelerator. *)
Definition rudp_block (max_len : Z) : M (option (list Z)) :=
  with_rudp ac_poll ;;
  r ← with_rudp (ac_recv max_len);
  mret (if r.1 >? 0 then Some r.2 else None).

Definition rudp_wait (max_len : Z) : M (option (list Z)) :=
  fd ← with_rudp ac_fd;
  c ← get_conn;
  p ← sys_poll ((if fd >=? 0 then [fd] else []) ++ [c_socket_fd c]);
  if (p.1 >? 0) && (fd >=? 0) && has POLLIN (p.2 fd) then rudp_block max_len else mret None.

(** [softether_receive_data]: the return value, [*command] and the data. *)
Definition softether_receive_data (max_len : Z) : M (Z * Z * list Z) :=
  c ← get_conn;
  if negb (bool_decide (c_state c = STATE_CONNECTED)) then mret (-1, 0, []) else
  on ← gets rudp_on;
  accelerated ←
    (if (on : bool) then
       b ← rudp_block max_len;
       match b with Some d => mret (Some d) | None => rudp_wait max_len end
     else mret None);
  match accelerated with
  | Some d => mret (0, CMD_DATA, d)
  | None =>
      r ← softether_receive_packet malloc_ok zlib_uncompress max_len;
      if rcv_ret r <? 0 then mret (0, 0, []) else
      let command := default 0 (rcv_command r) in
      if command =? CMD_KEEPALIVE then
        _ ← softether_send_keepalive crand; mret (0, command, [])
      else mret (0, command, default [] (rcv_payload r))
  end.

Definition softether_check_connection : M Z :=
  c ← get_conn;
  if negb (bool_decide (c_state c = STATE_CONNECTED)) then mret (-1) else
  r ← softether_receive_packet malloc_ok zlib_uncompress 512;
  mret (if rcv_ret r =? 0 then 0 else if rcv_ret r >? 0 then 1 else -1).

(** ** Closing the additional links *)

(** Every active slot emptied; the descriptors it held. *)
Definition blank_slot (ts : tcp_sock) : tcp_sock :=
  if ts_active ts then
    ts <| ts_active := false |> <| ts_ssl := 0 |> <| ts_fd := -1 |> <| ts_late_count := 0 |>
       <| ts_last_recv := 0 |>
  else ts.
Definition saved_fd (ts : tcp_sock) : Z := if ts_active ts then ts_fd ts else -1.

Fixpoint close_all (fds : list Z) : M unit :=
  match fds with [] => mret tt | fd :: rest => sys_close fd ;; close_all rest end.

Fixpoint destroy_slots (n : nat) (i : Z) : M unit :=
  match n with
  | O => mret tt
  | S n =>
      doomed ← take_ssl_ctx_slot i;
      when (negb (doomed =? 0)) (ssl_destroy doomed) ;; destroy_slots n (i + 1)
  end.

Definition softether_additional_thread_wait : M unit :=
  modify_conn (fun c => c <| c_additional_connecting := false |>).

Definition softether_close_additional : M unit :=
  softether_additional_thread_wait ;;
  c ← get_conn;
  modify_conn (fun c => c <| c_additional := map blank_slot (c_additional c) |>) ;;
  close_all (map saved_fd (c_additional c)) ;;
  destroy_slots (Z.to_nat MAX_SE_CONNECTIONS) 0 ;;
  modify_conn (fun c => c <| c_num_additional := 0 |> <| c_additional_failed_count := 0 |>).
End tunnel.
