(* ===== verification/TunnelInv.v ===== *)
(** * The tunnel keeps the connection well formed

    Every entry point of [Tunnel] returns from a well-formed world in a
    well-formed world, and stays inside the caller's buffers. *)
From stdpp Require Import functions.
From S2P Require Import Prelude Bytes Ring Crypto Conn Channel Receive Tunnel ConnInv WorldInv ChannelInv ReceiveInv.

Lemma len_broadcast : len broadcast_mac = 6.
Proof. done. Qed.
#[local] Hint Rewrite len_broadcast : len.

Section tunnel.
Context {U : Type} (good : U -> Prop) `{AcceleratorLaws U good}.
Context (tick crand : nat -> Z) (malloc_ok : Z -> bool)
        (zlib_compress zlib_uncompress : list Z -> Z -> option (list Z)) (zlib_bound : Z -> Z)
        (thread_ok : bool).
(** [rand] is never negative; zlib's results fit the buffer and are bytes; the
    bound on compressed data is below 4 GiB for data below 2 GiB. *)
Hypothesis crand_nonneg : forall n, 0 <= crand n.
Hypothesis uncompress_fits : forall src cap d, bytes_ok src -> zlib_uncompress src cap = Some d ->
  len d <= cap /\ bytes_ok d.
Hypothesis compress_fits : forall src cap d, zlib_compress src cap = Some d -> len d <= cap.
Hypothesis bound_ok : forall n, 0 <= n < 2 ^ 31 -> zlib_bound n + 8 < 2 ^ 32.
Implicit Types w : cworld U.
Abbreviation wok := (world_ok good).
Abbreviation sent := (sent_step good).

(** ** Sending *)

Lemma try_rudp_wp frame w : wok w -> bytes_ok frame -> len frame < 2 ^ 31 ->
  wp (try_rudp frame) (fun _ w' => wok w' /\ w_conn w' = w_conn w) w.
Proof.
  intros Hw Hb Hl. unfold try_rudp. wp_pure. wp_step; [by wp_step|].
  assert (Hr : is_Some (w_rudp w)) by (apply rudp_on_some; by destruct (rudp_on w)).
  assert (Hcall : forall A (m : St U A) w1, wok w1 -> is_Some (w_rudp w1) ->
    (forall u, good u -> exists a u', m u = Ok (a, u') /\ good u') ->
    wp (with_rudp m) (fun _ w' => wok w' /\ w_conn w' = w_conn w1 /\ is_Some (w_rudp w')) w1).
  { intros A m w1 H1 Hs Hm. eapply wp_mono; [eapply (with_rudp_wp good m (fun _ _ => True)); [done|done|]|].
    - intros u Hu. destruct (Hm u Hu) as (a & u' & E & Hg). by exists a, u'.
    - cbv beta. intros a w' ((? & _) & ? & ? & _). done. }
  wp_step. eapply wp_mono; [apply Hcall; [done|done|]|].
  { intros u Hu. destruct (ac_poll_good u Hu) as (u' & E & Hg). by exists tt, u'. }
  cbv beta. intros _ w1 (H1 & E1 & Hs1). wp_pure. eapply wp_mono; [apply Hcall; [done|done|]|].
  { intros u Hu. by apply ac_ready_good. }
  cbv beta. intros ready w2 (H2 & E2 & Hs2). wp_step; [wp_step; split; congruence|].
  wp_step. eapply wp_mono; [apply Hcall; [done|done|]|].
  { intros u Hu. by apply ac_send_good. }
  cbv beta. intros r w3 (H3 & E3 & Hs3). wp_step. split; [done|congruence].
Qed.

Lemma conn_sent w w' : wok w' -> w_conn w' = w_conn w -> sent w w'.
Proof. intros Hw E. split; [done|]. by rewrite E. Qed.

Lemma send_data_block_wp block frame w : wok w -> bytes_ok frame -> len frame < 2 ^ 31 ->
  wp (softether_send_data_block block frame) (fun _ w' => sent w w') w.
Proof.
  intros Hw Hb Hl. unfold softether_send_data_block. wp_step. eapply wp_mono; [by apply try_rudp_wp|].
  cbv beta. intros taken w1 [H1 E1]. wp_step; [wp_step; by apply conn_sent|]. wp_step.
  eapply wp_mono; [by apply (transmit_wp good)|]. cbv beta. intros ok w2 [H2 _]. wp_step.
  eapply sent_trans; [by apply conn_sent|done].
Qed.

Lemma wire_sendable payload c : len payload < 2 ^ 31 ->
  sendable (wire_payload malloc_ok zlib_compress zlib_bound payload c).
Proof.
  intros Hl. pose proof (len_nonneg payload). pose proof (bound_ok (len payload)). unfold sendable, wire_payload.
  destruct (_ && _); [|lia]. unfold compress_data.
  destruct (if len payload =? 0 then _ else _) as [d|] eqn:E; [|lia].
  destruct (len payload =? 0); [injection E as <-; rewrite len_nil; lia|].
  pose proof (compress_fits _ _ _ E). lia.
Qed.

Lemma send_data_wp data w : wok w -> bytes_ok data -> len data < 2 ^ 31 ->
  wp (softether_send_data crand malloc_ok zlib_compress zlib_bound data) (fun _ w' => sent w w') w.
Proof.
  intros Hw Hb Hl. unfold softether_send_data. wp_pure. wp_step; [by wp_step|]. wp_step.
  eapply wp_mono; [by apply try_rudp_wp|]. cbv beta. intros taken w1 [H1 E1].
  wp_step; [wp_step; by apply conn_sent|]. wp_step.
  eapply wp_mono; [apply (send_packet_wp good); [done|done|by apply wire_sendable]|].
  cbv beta. intros r w2 [H2 _]. wp_step. eapply sent_trans; [by apply conn_sent|done].
Qed.

Lemma send_raw_wp frame w : wok w -> bytes_ok frame -> len frame < 2 ^ 31 ->
  wp (softether_send_raw crand malloc_ok zlib_compress zlib_bound frame) (fun _ w' => sent w w') w.
Proof.
  intros Hw Hb Hl. unfold softether_send_raw. wp_step; [by wp_step|]. wp_pure. wp_step; [by wp_step|].
  by apply send_data_wp.
Qed.

(** The block [softether_send] builds for an IP packet. *)
Definition eth_type (data : list Z) : Z :=
  if Z.land (hd 0 data ≫ 4) 15 =? 6 then ETH_TYPE_IPV6 else ETH_TYPE_IPV4.
Definition dst_mac (c : connection) : list Z :=
  if c_gateway_mac_resolved c then c_gateway_mac c else broadcast_mac.
Definition ip_frame (c : connection) (data : list Z) : list Z :=
  eth_frame (dst_mac c) (c_client_mac c) (eth_type data) data.
Definition ip_block (c : connection) (data : list Z) : list Z :=
  w32 1 ++ w32 (len (ip_frame c data)) ++ ip_frame c data.

Lemma len_ip_frame c data : fields_ok c -> len (ip_frame c data) = 14 + len data.
Proof.
  intros (_ & Hm & _ & Hg & _). unfold ip_frame, eth_frame, dst_mac. rewrite w16_enc.
  destruct (c_gateway_mac_resolved c); slia.
Qed.

Lemma bytes_ip_frame c data : fields_ok c -> bytes_ok data -> bytes_ok (ip_frame c data).
Proof.
  intros (_ & _ & Hm & _ & Hg & _) Hb. unfold ip_frame, eth_frame, dst_mac. rewrite w16_enc.
  apply bytes_ok_app_2; [destruct (c_gateway_mac_resolved c); [done|by apply bytes_ok_replicate]|auto with bytes].
Qed.

(** [blit] at the end of what is already written. *)
Lemma blit_end pre buf bs off : off = len pre -> len pre + len bs <= len buf ->
  blit bs off (pre ++ dr off buf) = Ok ((pre ++ bs) ++ dr (off + len bs) buf).
Proof.
  intros -> Hl. rewrite <- (tk_dr (len bs) (dr (len pre) buf)).
  pose proof (len_nonneg pre). pose proof (len_nonneg bs).
  rewrite blit_at, dr_dr by slia. by rewrite <- app_assoc.
Qed.

Lemma stage_frame_ok c data buf : fields_ok c -> 0 < len data -> len data + 22 <= len buf -> len buf < 2 ^ 31 ->
  stage_frame c data buf = Ok (ip_block c data ++ dr (22 + len data) buf).
Proof.
  intros Hf Hd Hl Hb. pose proof Hf as (_ & Hm & _ & Hg & _). unfold stage_frame.
  assert (Hfl : u32 (ETH_HEADER_SIZE + u32 (len data)) = 14 + len data).
  { unfold u32, ETH_HEADER_SIZE. rewrite (Z.mod_small (len data)), Z.mod_small by lia. done. }
  rewrite Hfl. fold (dst_mac c). assert (Hdm : len (dst_mac c) = 6).
  { unfold dst_mac. by destruct (c_gateway_mac_resolved c). }
  rewrite <- (dr_0 buf 0) at 1 by lia. rewrite !w32_enc.
  rewrite (blit_end [] buf (be_enc 4 1)), bind_ok by slia. cbn [app].
  change (0 + len (be_enc 4 1)) with 4. rewrite (blit_end _ buf (be_enc 4 _) 4), bind_ok by slia.
  rewrite len_be_enc. change (4 + Z.of_nat 4) with 8. rewrite (blit_end _ buf (dst_mac c) 8), bind_ok by slia.
  rewrite Hdm. change (8 + 6) with 14. rewrite (blit_end _ buf (c_client_mac c) 14), bind_ok by slia.
  rewrite Hm. change (14 + 6) with 20. destruct data as [|d0 data]; [done|].
  rewrite (fetch_at [] [d0] data 0 1 eq_refl eq_refl : fetch 0 1 (d0 :: data) = Ok [d0]), bind_ok.
  cbn [hd]. set (ty := if Z.land (d0 ≫ 4) 15 =? 6 then ETH_TYPE_IPV6 else ETH_TYPE_IPV4). rewrite w16_enc.
  rewrite (blit_end _ buf (be_enc 2 ty) 20), bind_ok by slia. rewrite len_be_enc. change (20 + Z.of_nat 2) with 22.
  rewrite (blit_end _ buf (d0 :: data) 22) by slia. unfold ip_block, ip_frame, eth_frame.
  change (eth_type (d0 :: data)) with ty. rewrite !w32_enc, w16_enc. do 2 f_equal.
  rewrite <- !app_assoc. do 3 f_equal. slia.
Qed.

(** A field of the sending side that the invariant does not read, or keeps. *)
Lemma wok_stage_set buf w : wok w -> c_send_block (w_conn w) <> None -> len buf = c_send_block_cap (w_conn w) ->
  sent w (w <| w_conn := (w_conn w) <| c_send_block := Some buf |> |>).
Proof.
  intros Hw Hs Hl. split; [|by destruct (w_conn w)]. apply wok_conn; [done|].
  destruct (wok_stage good w Hw) as (_ & Hcap & Hc2). destruct Hw as ((Hq & Hlk & _ & Hf) & _).
  split; [exact Hq|]. split; [exact Hlk|]. split; [|exact Hf]. unfold stage_ok. cbn. auto.
Qed.

Lemma wok_stats p b w : wok w ->
  sent w (w <| w_conn := (w_conn w) <| c_stats_tx_packets := p |> <| c_stats_tx_bytes := b |> |>).
Proof.
  intros Hw. split; [|by destruct (w_conn w)]. apply wok_conn; [done|].
  destruct Hw as ((Hq & Hlk & Hs & Hf) & _). split; [exact Hq|]. split; [exact Hlk|]. by split.
Qed.

(** The world once the packet is staged, and once it is counted. *)
Definition staged data buf w : cworld U :=
  w <| w_conn := (w_conn w) <| c_send_block := Some (ip_block (w_conn w) data ++ dr (22 + len data) buf) |> |>.
Definition counted (data : list Z) w : cworld U :=
  w <| w_conn := (w_conn w) <| c_stats_tx_packets := u64 (c_stats_tx_packets (w_conn w) + 1) |>
      <| c_stats_tx_bytes := u64 (c_stats_tx_bytes (w_conn w) + len data) |> |>.

Lemma len_ip_block c data : fields_ok c -> len (ip_block c data) = 22 + len data.
Proof. intros Hf. unfold ip_block. rewrite !w32_enc. pose proof (len_ip_frame c data Hf). slia. Qed.

(** [softether_send] stages the packet and hands the block on. *)
Lemma send_stage data buf (Q : Z -> cworld U -> Prop) w :
  wok w -> 0 < len data <= 65535 -> c_state (w_conn w) = STATE_CONNECTED ->
  c_send_block (w_conn w) = Some buf -> c_ssl (w_conn w) <> 0 ->
  (sent w (staged data buf w) ->
   wp (softether_send_data_block (ip_block (w_conn w) data) (ip_frame (w_conn w) data))
      (fun r w' => if r <? 0 then Q (-1) w' else Q (len data) (counted data w')) (staged data buf w)) ->
  wp (softether_send data) Q w.
Proof.
  intros Hw Hl Hst Eb Hssl HQ. unfold softether_send. wp_step; [lia|]. wp_pure.
  rewrite bool_decide_eq_true_2 by done. cbn [negb]. rewrite Eb.
  destruct (wok_stage good w Hw) as (Hstg & Hcap & Hcap2). pose proof (wok_fields good w Hw) as Hf.
  rewrite Eb in Hstg. rewrite Hcap2 in * by (by rewrite Eb). change (u32 (SEND_BLOCK_CAP - 8 - ETH_HEADER_SIZE)) with 65535.
  wp_step; [lia|]. wp_step; [lia|]. cbv zeta. assert (Hcv : SEND_BLOCK_CAP = 65557) by done.
  assert (Hfl : u32 (ETH_HEADER_SIZE + u32 (len data)) = 14 + len data).
  { unfold u32, ETH_HEADER_SIZE. rewrite (Z.mod_small (len data)), Z.mod_small by lia. done. }
  rewrite Hfl. pose proof (len_ip_block (w_conn w) data Hf) as Hbl. pose proof (len_ip_frame (w_conn w) data Hf) as Hlf.
  wp_step. eapply wp_lift; [apply stage_frame_ok; [done|lia..]|]. wp_pure. fold (staged data buf w).
  assert (H1 : sent w (staged data buf w)).
  { apply wok_stage_set; [done|by rewrite Eb|]. rewrite len_app, Hbl, len_dr, Hcap2 by (by rewrite Eb || lia). lia. }
  assert (Hu : u32 (8 + (14 + len data)) = len (ip_block (w_conn w) data)) by (rewrite Hbl; unfold u32; rewrite Z.mod_small; lia).
  rewrite Hu. set (tail := dr (22 + len data) buf).
  eapply wp_lift; [exact (fetch_at [] (ip_block (w_conn w) data) tail 0 _ eq_refl eq_refl)|]. cbv beta. wp_step.
  assert (Hfrm : fetch 8 (14 + len data) (ip_block (w_conn w) data ++ tail) = Ok (ip_frame (w_conn w) data)).
  { unfold ip_block. rewrite !w32_enc, <- Hlf, <- !app_assoc, app_assoc. by apply fetch_at. }
  eapply wp_lift; [exact Hfrm|]. wp_pure. eapply wp_mono; [by apply HQ|]. cbv beta.
  intros r w' Hr. destruct (r <? 0); [by wp_step|by wp_pure].
Qed.

Lemma send_wp data w : wok w -> bytes_ok data ->
  wp (softether_send data) (fun _ w' => sent w w') w.
Proof.
  intros Hw Hb. destruct (decide (0 < len data <= 65535 /\ c_state (w_conn w) = STATE_CONNECTED /\
    is_Some (c_send_block (w_conn w)) /\ c_ssl (w_conn w) <> 0)) as [(Hl & Hst & [buf Eb] & Hssl)|Hno].
  - eapply send_stage; [done..|]. intros H1. pose proof (wok_fields good w Hw) as Hf.
    eapply wp_mono; [apply send_data_block_wp; [apply H1|by apply bytes_ip_frame|rewrite len_ip_frame by done; lia]|].
    cbv beta. intros r w2 H2. pose proof (sent_trans _ _ _ _ H1 H2) as H3. destruct (r <? 0); [done|].
    eapply sent_trans; [exact H3|]. apply wok_stats, H3.
  - unfold softether_send. pose proof (len_nonneg data). wp_step; [by wp_step|]. wp_pure. wp_step; [by wp_step|].
    destruct (wok_stage good w Hw) as (Hstg & Hcap & Hcap2).
    destruct (c_send_block (w_conn w)) as [buf|] eqn:Eb; [|by wp_step]. rewrite Hcap2 in * by done.
    change (u32 (SEND_BLOCK_CAP - 8 - ETH_HEADER_SIZE)) with 65535. wp_step; [by wp_step|]. wp_step; [by wp_step|].
    destruct Hno. split; [lia|]. split; [|split; [by eexists|lia]]. by destruct (c_state (w_conn w)).
Qed.

(** ** ARP and maintenance *)

Lemma bytes_arp_frame dst op smac sip tmac tip :
  bytes_ok dst -> bytes_ok smac -> bytes_ok sip -> bytes_ok tmac -> bytes_ok tip ->
  bytes_ok (eth_frame dst smac ETH_TYPE_ARP (arp_body op smac sip tmac tip)).
Proof.
  intros. unfold eth_frame, arp_body. rewrite !w16_enc.
  assert (bytes_ok [0; 1; 8; 0; 6; 4]) by (apply (bool_decide_unpack _); vm_compute; done). auto 12 with bytes.
Qed.

Lemma fetch_ok off n l : 0 <= off -> 0 <= n -> off + n <= len l -> bytes_ok l ->
  exists b, fetch off n l = Ok b /\ len b = n /\ bytes_ok b.
Proof.
  intros Ho Hn Hl Hb. destruct (fetch_safe off n l Ho Hl) as [b E]. exists b. split; [done|].
  split; [by eapply fetch_len|by eapply fetch_bytes].
Qed.

Lemma len_eth dst src ty payload : len dst = 6 -> len src = 6 -> len (eth_frame dst src ty payload) = 14 + len payload.
Proof. intros. unfold eth_frame. rewrite w16_enc. slia. Qed.
Lemma len_arp op smac sip tmac tip : len smac = 6 -> len sip = 4 -> len tmac = 6 -> len tip = 4 ->
  len (arp_body op smac sip tmac tip) = 28.
Proof. intros. unfold arp_body. rewrite w16_enc. slia. Qed.

Lemma reply_arp_wp data w : wok w -> bytes_ok data -> 42 <= len data ->
  wp (softether_reply_arp_request crand malloc_ok zlib_compress zlib_bound data) (fun _ w' => sent w w') w.
Proof.
  intros Hw Hb Hl. unfold softether_reply_arp_request. wp_pure.
  destruct (fetch_ok 20 2 data) as (op & E1 & _); [lia..|done|].
  destruct (fetch_ok 38 4 data) as (tip & E2 & _); [lia..|done|].
  destruct (fetch_ok 6 6 data) as (a & E3 & Hla & Hba); [lia..|done|].
  destruct (fetch_ok 22 6 data) as (m & E4 & Hlm & Hbm); [lia..|done|].
  destruct (fetch_ok 28 4 data) as (ip & E5 & Hli & Hbi); [lia..|done|].
  pose proof (wok_fields good w Hw) as (_ & Hml & Hmb & _).
  assert (Har : exists b, arp_request_for (w_conn w) data = Ok b).
  { unfold arp_request_for. rewrite E1, bind_ok. destruct (negb _); [by eexists|]. rewrite E2, bind_ok. by eexists. }
  destruct Har as [ours Eo]. eapply wp_lift; [exact Eo|]. cbv beta. wp_step; [|done].
  wp_step. eapply wp_lift; [unfold arp_reply; rewrite E3, bind_ok, E4, bind_ok, E5, bind_ok; reflexivity|].
  wp_step. eapply wp_mono; [apply send_raw_wp; [done| |]|].
  - rewrite w32_enc. apply bytes_arp_frame; auto with bytes.
  - rewrite len_eth, len_arp by (rewrite ?w32_enc; slia). lia.
  - cbv beta. intros r w' H'. by wp_step.
Qed.

Lemma launch_wp w : wok w -> wp (launch_additional tick thread_ok) (fun _ w' => sent w w') w.
Proof.
  intros Hw. unfold launch_additional. wp_pure. wp_step; [|done]. wp_step. unfold wp at 1, softether_tick_ms.
  set (w1 := w <| w_ticks := _ |>). assert (H1 : sent w w1) by done. wp_step; [|done].
  assert (Hset : forall w2 t, sent w w2 ->
    wp (modify_conn (fun c => c <| c_next_connect_time := t c |>)) (fun _ w' => sent w w') w2).
  { intros w2 t H2. wp_pure. eapply sent_trans; [exact H2|].
    split; [|by destruct (w_conn w2)]. apply wok_conn; [apply H2|].
    destruct H2 as (((Hq & Hlk & Hs & Hf) & _) & _). split; [exact Hq|]. split; [exact Hlk|]. by split. }
  wp_step. destruct (free_slot (w_conn w)) as [slot|]; [|wp_step; by apply Hset]. apply wp_modify_conn. apply Hset.
  eapply sent_trans; [exact H1|]. split; [|by destruct (w_conn w)]. apply wok_conn; [apply H1|].
  destruct Hw as ((Hq & Hlk & Hs & Hf) & _). split; [exact Hq|]. split; [exact Hlk|]. by split.
Qed.

Lemma check_slot_wp i w : wok w -> 0 <= i < MAX_SE_CONNECTIONS -> wp (check_slot i) (fun _ w' => sent w w') w.
Proof.
  intros Hw Hi. unfold check_slot. wp_pure. apply (get_slot_ok good); [done..|]. intros ts Hts.
  wp_step; [|done]. wp_step. apply sys_poll_wp. intros r p. set (w1 := w <| w_polls := p |>).
  wp_step; [|done]. set (ts' := ts <| ts_late_count := 0 |> <| ts_last_recv := 0 |>).
  assert (Htx : forall l, tx_step (w_conn w) ((w_conn w) <| c_additional := l |>)) by (intros; by destruct (w_conn w)).
  unfold set_slot. wp_pure. set (w2 := w1 <| w_conn := _ |>). unfold slot_at in Hts.
  assert (H2 : sent w w2).
  { split; [|apply Htx]. apply wok_conn; [done|]. destruct Hw as ((Hq & Hlk & Hs & Hf) & _).
    split; [exact Hq|]. split; [|by split]. apply (links_set_slot _ _ _ ts ts'); [done..| |done].
    destruct Hlk as [(_ & Hso & _) _]. exact (Forall_lookup_1 _ _ _ _ Hso Hts). }
  eapply wp_mono; [apply (retire_slot_wp good i ts'); [apply H2|done| |]|].
  - unfold slot_at, w2. cbn. apply list_lookup_insert_eq. by eapply lookup_lt_Some.
  - by destruct (ts_active ts) eqn:E; unfold ts'; cbn.
  - cbv beta. intros _ w3 [Hw3 E3]. eapply sent_trans; [exact H2|]. split; [done|]. rewrite E3.
    by destruct (w_conn w2).
Qed.

Lemma check_slots_wp n i w : wok w -> 0 <= i -> i + Z.of_nat n <= MAX_SE_CONNECTIONS ->
  wp (check_slots n i) (fun _ w' => sent w w') w.
Proof.
  revert i w. induction n as [|n IH]; intros i w Hw Hi Hn; cbn [check_slots]; [by wp_step|].
  wp_step. eapply wp_mono; [apply check_slot_wp; [done|lia]|]. cbv beta. intros _ w1 H1.
  eapply wp_mono; [apply IH; [apply H1|lia..]|]. cbv beta. intros _ w2 H2. exact (sent_trans _ _ _ _ H1 H2).
Qed.

Lemma maintain_wp w : wok w -> wp (softether_maintain_links tick crand thread_ok) (fun _ w' => sent w w') w.
Proof.
  intros Hw. unfold softether_maintain_links. wp_step.
  eapply wp_mono; [by apply (keepalive_all_wp good)|]. cbv beta. intros r w1 [H1 _]. wp_step.
  eapply wp_mono; [apply launch_wp, H1|]. cbv beta. intros _ w2 H2.
  eapply wp_mono; [apply check_slots_wp; [apply H2|done|done]|]. cbv beta. intros _ w3 H3.
  exact (sent_trans _ _ _ _ H1 (sent_trans _ _ _ _ H2 H3)).
Qed.

(** ** Receiving *)

Lemma tx_queue c c' : tx_step c c' -> frames c' = frames c /\ c_recv_queue_count c' = c_recv_queue_count c.
Proof. intros ->. by destruct c. Qed.

(** The queue is filled when it is empty; on success it has a frame. *)
Lemma refill_wp (empty_rc : Z) w : wok w -> 0 <= empty_rc ->
  wp (if c_recv_queue_count (w_conn w) <=? 0 then fill_recv_queue tick crand malloc_ok zlib_uncompress
      else mret empty_rc)
     (fun rc w' => wok w' /\ (0 < c_recv_queue_count (w_conn w) -> w' = w)) w.
Proof.
  intros Hw He. wp_step; [|by wp_step]. unfold fill_recv_queue. eapply wp_mono; [by apply (fill_wp good)|].
  intros rc w' [(Hw' & _) _]. split; [done|lia].
Qed.

(** A returned packet fits the buffer. *)
Definition fits (max_len : Z) (r : Z * list Z) : Prop :=
  bytes_ok r.2 /\ (r.1 = -1 /\ r.2 = [] \/ r.1 = len r.2 /\ len r.2 <= max_len).

Lemma fits_none max_len r : 0 <= max_len -> r = -1 \/ r = 0 -> fits max_len (r, []).
Proof. intros Hm [->| ->]; (split; [constructor|]); [by left|by right]. Qed.

Lemma classify_ip frame p : classify frame = FIp p -> p = dr 14 frame.
Proof.
  unfold classify. destruct (_ && _); [done|]. destruct (_ <=? _); [done|]. destruct (_ || _); [|done].
  by intros [= <-].
Qed.
Lemma classify_arp frame : classify frame = FArp -> 42 <= len frame.
Proof.
  unfold classify. destruct (_ && _) eqn:E; [lia|]. destruct (_ <=? _); [done|]. by destruct (_ || _).
Qed.

Lemma receive_raw_wp max_len w : wok w -> 0 <= max_len ->
  wp (softether_receive_raw tick crand malloc_ok zlib_uncompress max_len) (fun r w' => wok w' /\ fits max_len r) w.
Proof.
  intros Hw Hm. unfold softether_receive_raw. wp_pure. wp_step; [wp_step; split; auto using fits_none|]. wp_pure.
  eapply wp_mono; [by apply refill_wp|]. intros rc w1 [H1 _]. wp_step; [wp_step; split; auto using fits_none|].
  wp_step; [wp_step; split; auto using fits_none|]. wp_pure. wp_step; [wp_step; split; auto using fits_none|].
  wp_step. apply (queue_peek_wp good); [done|lia|]. intros frame rest _ Hb Hl. wp_step.
  apply (queue_drop_wp good); [done|lia|]. intros w2 H2 _. wp_step. split; [done|].
  destruct (len frame >? max_len) eqn:E; [auto using fits_none|]. split; [done|]. right. cbn. lia.
Qed.

Lemma receive_wp max_len w : wok w -> 0 <= max_len ->
  wp (softether_receive tick crand malloc_ok zlib_compress zlib_uncompress zlib_bound thread_ok max_len)
     (fun r w' => wok w' /\ fits max_len r) w.
Proof.
  intros Hw Hm. unfold softether_receive. wp_step; [wp_step; split; auto using fits_none|].
  wp_pure. wp_step; [wp_step; split; auto using fits_none|].
  wp_step. eapply wp_mono; [by apply maintain_wp|]. cbv beta. intros _ w1 H1. wp_pure.
  eapply wp_mono; [apply refill_wp; [apply H1|done]|]. intros rc w2 [H2 _].
  wp_step; [wp_step; split; auto using fits_none|]. wp_step; [wp_step; split; auto using fits_none|].
  wp_pure. wp_step; [wp_step; split; auto using fits_none|].
  wp_step. apply (queue_peek_wp good); [done|lia|]. intros frame rest _ Hb Hl.
  assert (Hdrop : forall r w3, wok w3 -> c_recv_queue_count (w_conn w3) = c_recv_queue_count (w_conn w2) ->
    fits max_len r -> wp (queue_drop ;; mret r) (fun r w' => wok w' /\ fits max_len r) w3).
  { intros r w3 H3 E Hf. wp_step. apply (queue_drop_wp good); [done|lia|]. intros w4 H4 _. by wp_step. }
  destruct (classify frame) as [| |p] eqn:Ec; [|by apply Hdrop; auto using fits_none|].
  - wp_step. eapply wp_mono; [apply reply_arp_wp; [done|done|by apply classify_arp]|].
    cbv beta. intros _ w3 [H3 Ht]. apply Hdrop; [done|by apply tx_queue|by auto using fits_none].
  - apply Hdrop; [done|done|]. apply classify_ip in Ec as ->.
    destruct (_ >? max_len) eqn:E; [auto using fits_none|]. split; [cbn; auto with bytes|]. right. cbn in *. lia.
Qed.

(** ** Batches *)

(** The packets fit the buffer one behind the other. *)
Definition batch_fits (max_len max_packets : Z) (ps : list (list Z)) : Prop :=
  len (mjoin ps) <= max_len /\ len ps <= max_packets /\ Forall bytes_ok ps.

Lemma len_mjoin_snoc (ps : list (list Z)) p : len (mjoin (ps ++ [p])) = len (mjoin ps) + len p.
Proof.
  induction ps as [|q ps IH]; [cbn; rewrite app_nil_r; rewrite len_nil; lia|].
  change (mjoin ((q :: ps) ++ [p])) with (q ++ mjoin (ps ++ [p])). change (mjoin (q :: ps)) with (q ++ mjoin ps).
  rewrite !len_app. lia.
Qed.

Lemma batch_loop_wp fuel max_len max_packets ps w :
  wok w -> c_recv_queue_count (w_conn w) < Z.of_nat fuel -> 0 <= max_len < 2 ^ 32 - MAX_QUEUED_FRAME ->
  batch_fits max_len max_packets ps ->
  wp (batch_loop crand malloc_ok zlib_compress zlib_bound fuel max_len max_packets ps)
     (fun ps' w' => wok w' /\ batch_fits max_len max_packets ps') w.
Proof.
  revert ps w. induction fuel as [|fuel IH]; intros ps w Hw Hn Hm Hps.
  { pose proof Hw as (((_ & _ & _ & ? & _) & _) & _). lia. }
  cbn [batch_loop]. wp_pure. wp_step; [by wp_step|]. wp_step.
  apply (queue_peek_wp good); [done|lia|]. intros frame rest _ Hb Hl.
  assert (Hnext : forall ps' w1, wok w1 -> c_recv_queue_count (w_conn w1) = c_recv_queue_count (w_conn w) ->
    batch_fits max_len max_packets ps' ->
    wp (queue_drop ;; batch_loop crand malloc_ok zlib_compress zlib_bound fuel max_len max_packets ps')
       (fun ps' w' => wok w' /\ batch_fits max_len max_packets ps') w1).
  { intros ps' w1 H1 E Hps'. wp_step. apply (queue_drop_wp good); [done|lia|]. intros w2 H2 _.
    apply IH; [done| |done|done]. unfold w2. cbn. lia. }
  destruct (classify frame) as [| |p] eqn:Ec; [|by apply Hnext|].
  - wp_step. eapply wp_mono; [apply reply_arp_wp; [done|done|by apply classify_arp]|].
    cbv beta. intros _ w1 [H1 Ht]. apply Hnext; [done|by apply tx_queue|done].
  - apply classify_ip in Ec as ->. destruct Hps as (Hp1 & Hp2 & Hp3). pose proof (len_nonneg (mjoin ps)).
    pose proof (len_nonneg (dr 14 frame)). assert (len (dr 14 frame) <= MAX_QUEUED_FRAME) by slia.
    unfold u32. rewrite Z.mod_small by lia. wp_step; [by wp_step|]. wp_step. unfold room.
    eapply wp_lift; [by rewrite (proj2 (Z.leb_le _ _)) by lia|]. apply Hnext; [done|done|].
    split; [rewrite len_mjoin_snoc; lia|]. split; [rewrite len_app, len_cons, len_nil; lia|].
    apply Forall_app. split; [done|]. constructor; [auto with bytes|constructor].
Qed.

Lemma wok_rx_stats p b w : wok w ->
  wok (w <| w_conn := (w_conn w) <| c_stats_rx_packets := p |> <| c_stats_rx_bytes := b |> |>).
Proof.
  intros Hw. apply wok_conn; [done|]. destruct Hw as ((Hq & Hlk & Hs & Hf) & _).
  split; [exact Hq|]. split; [exact Hlk|]. by split.
Qed.

Lemma receive_batch_wp max_len max_packets w :
  wok w -> 0 <= max_len < 2 ^ 32 - MAX_QUEUED_FRAME -> 0 <= max_packets ->
  wp (softether_receive_batch tick crand malloc_ok zlib_compress zlib_uncompress zlib_bound thread_ok max_len max_packets)
     (fun b w' => wok w' /\ batch_fits max_len max_packets (b_packets b) /\
        (b_ret b = -1 \/ b_ret b = len (mjoin (b_packets b)))) w.
Proof.
  intros Hw Hm Hp. unfold softether_receive_batch.
  assert (Hnil : batch_fits max_len max_packets []) by (split; [apply Hm|split; [apply Hp|constructor]]).
  wp_step; [by wp_step; auto|]. wp_pure. wp_step; [by wp_step; auto|].
  wp_step. eapply wp_mono; [by apply maintain_wp|]. cbv beta. intros _ w1 H1. wp_pure.
  eapply wp_mono; [apply refill_wp; [apply H1|done]|]. intros rc w2 [H2 _].
  wp_step; [by wp_step; auto|]. wp_pure.
  eapply wp_mono; [apply batch_loop_wp; [done|lia|done|done]|]. cbv beta. intros ps w3 [H3 Hps]. cbv zeta.
  wp_step. assert (Hfin : forall w4, wok w4 ->
    wp (mret (Batch (len (mjoin ps)) ps (map len ps ++ zeros (max_packets - len ps))))
     (fun b w' => wok w' /\ batch_fits max_len max_packets (b_packets b) /\
        (b_ret b = -1 \/ b_ret b = len (mjoin (b_packets b)))) w4) by (intros w4 H4; wp_step; auto).
  wp_step; [|by apply Hfin]. by apply wp_modify_conn, Hfin, wok_rx_stats.
Qed.

(** ** Resolving the gateway and the message interface *)

Lemma wok_gateway_ip ip w : wok w -> wok (w <| w_conn := (w_conn w) <| c_gateway_ip := ip |> |>).
Proof.
  intros Hw. apply wok_conn; [done|]. destruct Hw as ((Hq & Hlk & Hs & Hf) & _).
  split; [exact Hq|]. split; [exact Hlk|]. by split.
Qed.

Lemma wok_gateway_mac mac w : wok w -> len mac = 6 -> bytes_ok mac ->
  wok (w <| w_conn := (w_conn w) <| c_gateway_mac := mac |> <| c_gateway_mac_resolved := true |> |>).
Proof.
  intros Hw Hl Hb. apply wok_conn; [done|]. destruct Hw as ((Hq & Hlk & Hs & Hf) & _).
  split; [exact Hq|]. split; [exact Hlk|]. split; [exact Hs|].
  destruct Hf as (H1 & H2 & H3 & _ & _ & H6). exact (conj H1 (conj H2 (conj H3 (conj Hl (conj Hb H6))))).
Qed.

Lemma arp_answer_ok ip frame mac : arp_answer ip frame = Some mac -> bytes_ok frame -> len mac = 6 /\ bytes_ok mac.
Proof.
  unfold arp_answer. destruct (_ && _) eqn:E; [|done]. intros [= <-] Hb. unfold slice. split; [slia|auto with bytes].
Qed.

Lemma await_arp_wp n ip w : wok w -> wp (await_arp tick crand malloc_ok zlib_uncompress n ip) (fun _ w' => wok w') w.
Proof.
  revert w. induction n as [|n IH]; intros w Hw; cbn [await_arp]; [by wp_step|]. wp_step.
  eapply wp_mono; [by apply receive_raw_wp|]. intros r w1 [H1 [Hb _]].
  destruct (if r.1 >? 0 then arp_answer ip r.2 else None) as [mac|] eqn:E; [|by apply IH].
  wp_pure. destruct (r.1 >? 0); [|done]. apply arp_answer_ok in E as [? ?]; [|done]. by apply wok_gateway_mac.
Qed.

Lemma resolve_attempts_wp n ip req w : wok w -> bytes_ok req -> len req < 2 ^ 31 ->
  wp (resolve_attempts tick crand malloc_ok zlib_compress zlib_uncompress zlib_bound n ip req) (fun _ w' => wok w') w.
Proof.
  intros Hw Hb Hl. revert w Hw. induction n as [|n IH]; intros w Hw; cbn [resolve_attempts]; [by wp_step|]. wp_step.
  eapply wp_mono; [by apply await_arp_wp|]. cbv beta. intros found w1 H1. wp_step; [by wp_step|]. wp_step.
  eapply wp_mono; [by apply send_raw_wp|]. cbv beta. intros _ w2 [H2 _]. by apply IH.
Qed.

Lemma arp_request_ok c ip : fields_ok c -> bytes_ok (arp_request c ip) /\ len (arp_request c ip) = 42.
Proof.
  intros (_ & Hm & Hb & _). unfold arp_request. rewrite !w32_enc. split.
  - apply bytes_arp_frame; auto with bytes. by apply bytes_ok_replicate.
  - rewrite len_eth, len_arp by slia. done.
Qed.

Lemma resolve_gateway_wp ip w : wok w ->
  wp (softether_resolve_gateway tick crand malloc_ok zlib_compress zlib_uncompress zlib_bound ip) (fun _ w' => wok w') w.
Proof.
  intros Hw. unfold softether_resolve_gateway. wp_pure. wp_step; [by wp_step|]. cbv zeta. wp_pure.
  destruct (arp_request_ok (w_conn w) ip) as [Hb Hl]; [by eapply wok_fields|].
  eapply wp_mono; [apply send_raw_wp; [by apply wok_gateway_ip|done|lia]|].
  cbv beta. intros _ w1 [H1 _]. apply resolve_attempts_wp; [done|done|lia].
Qed.

(** ** Closing the additional links *)

Lemma map_ctx_blank l : map ts_ssl_ctx (map blank_slot l) = map ts_ssl_ctx l.
Proof. rewrite map_map. apply map_ext. intros ts. unfold blank_slot. by destruct (ts_active ts). Qed.

Lemma core_blank freed c : links_core freed c -> links_core freed (c <| c_additional := map blank_slot (c_additional c) |>).
Proof.
  intros (Hl & Hs & Hnd & Hf & Hz). unfold links_core.
  assert (Eo : owners (c <| c_additional := map blank_slot (c_additional c) |>) = owners c).
  { unfold owners. change (c_additional (c <| c_additional := ?l |>)) with l. by rewrite map_ctx_blank. }
  rewrite Eo. split; [cbn; by rewrite len_map|]. split; [|done]. cbn.
  apply Forall_map. eapply Forall_impl; [exact Hs|]. intros ts [_ Hn]. unfold blank_slot.
  destruct (ts_active ts) eqn:E; [by split; [left|]|]. split; [left|]; auto.
Qed.

(** A slot that gave up its context. *)
Definition emptied (ts : tcp_sock) : tcp_sock := ts <| ts_ssl_ctx := 0 |>.
Definition idle (ts : tcp_sock) : Prop := ts_active ts = false /\ ts_ssl ts = 0.
Definition ctxs (l : list tcp_sock) : list Z := filter (fun p => p <> 0) (map ts_ssl_ctx l).

Lemma core_alive freed c i ts : links_core freed c -> c_additional c !! i = Some ts -> ts_ssl_ctx ts <> 0 ->
  ts_ssl_ctx ts ∉ freed.
Proof.
  intros (_ & _ & _ & Hf & _) Hi Hne. refine (proj1 (Forall_forall _ _) Hf (ts_ssl_ctx ts) _).
  apply list_elem_of_filter. split; [done|]. apply list_elem_of_further.
  apply (list_elem_of_fmap_2 ts_ssl_ctx). by eapply list_elem_of_lookup_2.
Qed.

(** What destroying the contexts of the slots [l] that follow [pre] does. *)
Definition destroyed (pre l : list tcp_sock) w w' : Prop :=
  w' = w <| w_conn := (w_conn w) <| c_additional := pre ++ map emptied l |> |>
         <| w_freed := rev (ctxs l) ++ w_freed w |> /\
  links_core (w_freed w') (w_conn w').

Lemma destroy_slots_wp pre l w :
  c_additional (w_conn w) = pre ++ l -> links_core (w_freed w) (w_conn w) -> Forall idle l ->
  wp (destroy_slots (length l) (len pre)) (fun _ w' => destroyed pre l w w') w.
Proof.
  revert pre w. induction l as [|ts l IH]; intros pre w Ha Hc Hi; cbn [destroy_slots length].
  { wp_step. unfold destroyed. cbn [map]. rewrite app_nil_r in *. rewrite <- Ha. split; by destruct w as [[]]. }
  apply Forall_cons in Hi as [[Hact Hssl] Hi].
  assert (Hts : c_additional (w_conn w) !! length pre = Some ts) by (rewrite Ha; apply list_lookup_middle; done).
  assert (Hn : Z.to_nat (len pre) = length pre) by (unfold len; lia).
  pose proof (core_drop _ _ _ ts (emptied ts) Hc Hts) as Hd. specialize (Hd (conj (or_introl Hssl) (fun _ => Hssl)) eq_refl).
  assert (Hins : <[length pre := emptied ts]> (c_additional (w_conn w)) = (pre ++ [emptied ts]) ++ l).
  { by rewrite Ha, insert_app_r_alt, Nat.sub_diag, <- app_assoc by lia. }
  rewrite Hins in Hd. wp_step. unfold take_ssl_ctx_slot. wp_step.
  apply get_slot_wp; [|apply Hc|].
  { pose proof (lookup_lt_Some _ _ _ Hts) as Hlt. destruct Hc as (Hlen & _). unfold len in *. lia. }
  intros ts0 Hts0. rewrite Hn, Hts in Hts0. injection Hts0 as <-. unfold set_slot. wp_pure.
  change (ts <| ts_ssl_ctx := 0 |>) with (emptied ts).
  assert (Hgo : forall w1, w1 = w <| w_conn := (w_conn w) <| c_additional := (pre ++ [emptied ts]) ++ l |> |>
      <| w_freed := if ts_ssl_ctx ts =? 0 then w_freed w else ts_ssl_ctx ts :: w_freed w |> ->
    wp (destroy_slots (length l) (len pre + 1)) (fun _ w' => destroyed pre (ts :: l) w w') w1).
  { intros w1 E. replace (len pre + 1) with (len (pre ++ [emptied ts])) by slia.
    eapply wp_mono; [apply IH; [by rewrite E|by rewrite E|done]|]. cbv beta. intros _ w2 [E2 H2]. split; [|done].
    rewrite E2, E. unfold ctxs. cbn [map]. rewrite filter_cons, <- app_assoc.
    destruct (decide _) as [Hne|He]; cbn [rev]; [rewrite (proj2 (Z.eqb_neq _ _)) by done|rewrite (proj2 (Z.eqb_eq _ _)) by lia];
      cbn; rewrite <- ?app_assoc; done. }
  rewrite Hn, Hins. wp_step.
  - unfold ssl_destroy. wp_step. apply deref_ssl_wp.
    { eapply core_alive; [exact Hc|exact Hts|lia]. }
    wp_pure. apply Hgo. by rewrite (proj2 (Z.eqb_neq _ _)) by lia.
  - apply Hgo. rewrite (proj2 (Z.eqb_eq _ _)) by lia. by destruct w.
Qed.

Lemma close_all_wp fds w : wp (close_all fds) (fun _ w' => w' = w <| w_closed := rev (filter (fun fd => 0 <= fd) fds) ++ w_closed w |>) w.
Proof.
  revert w. induction fds as [|fd fds IH]; intros w; cbn [close_all]; [wp_step; by destruct w|].
  wp_step. unfold sys_close. rewrite filter_cons. wp_step.
  - apply wp_modify. eapply wp_mono; [apply IH|]. cbv beta. intros _ w' ->. rewrite decide_True by lia.
    cbn. by rewrite <- app_assoc.
  - eapply wp_mono; [apply IH|]. cbv beta. intros _ w' ->. by rewrite decide_False by lia.
Qed.

Lemma close_additional_wp w : wok w ->
  wp softether_close_additional (fun _ w' => wok w' /\
    Forall (fun ts => ts_active ts = false /\ ts_ssl ts = 0 /\ ts_ssl_ctx ts = 0) (c_additional (w_conn w')) /\
    c_ssl (w_conn w') = c_ssl (w_conn w) /\
    w_freed w' = rev (ctxs (c_additional (w_conn w))) ++ w_freed w /\
    w_closed w' = rev (filter (fun fd => 0 <= fd) (map saved_fd (c_additional (w_conn w)))) ++ w_closed w /\
    w_conn w' = (w_conn w) <| c_additional_connecting := false |> <| c_additional := c_additional (w_conn w') |>
      <| c_num_additional := 0 |> <| c_additional_failed_count := 0 |> /\
    w_rudp w' = w_rudp w /\ w_in w' = w_in w) w.
Proof.
  intros Hw. unfold softether_close_additional, softether_additional_thread_wait. wp_pure.
  set (l := c_additional (w_conn w)). set (bl := map blank_slot l).
  pose proof (world_slots good w Hw) as Hlen. fold l in Hlen.
  eapply wp_mono; [apply close_all_wp|]. cbv beta. intros _ w1 E1.
  assert (Hc1 : links_core (w_freed w1) (w_conn w1)).
  { rewrite E1. destruct Hw as ((_ & (Hc & _) & _) & _). apply core_blank in Hc. exact Hc. }
  assert (Ha1 : c_additional (w_conn w1) = [] ++ bl) by (rewrite E1; done).
  assert (Hidle : Forall idle bl).
  { apply Forall_map. destruct Hw as ((_ & ((_ & Hs & _) & _) & _) & _). eapply Forall_impl; [exact Hs|].
    intros ts [_ Hn]. unfold idle, blank_slot. destruct (ts_active ts) eqn:E; [done|]. split; [done|by apply Hn]. }
  assert (Hfuel : Z.to_nat MAX_SE_CONNECTIONS = length bl).
  { unfold bl. rewrite length_map. unfold len in Hlen. rewrite <- Hlen. lia. }
  rewrite Hfuel. wp_step. eapply wp_mono; [exact (destroy_slots_wp [] bl w1 Ha1 Hc1 Hidle)|].
  cbv beta. intros _ w2 [E2 Hc2]. cbn [app] in E2. wp_pure.
  set (l' := map emptied bl) in E2. assert (Hl' : Forall (fun ts => ts_active ts = false /\ ts_ssl ts = 0 /\ ts_ssl_ctx ts = 0) l').
  { apply Forall_map. eapply Forall_impl; [exact Hidle|]. by intros ts [? ?]. }
  assert (Hn : active_count l' = 0).
  { clear -Hl'. unfold active_count. induction Hl' as [|ts k (Ha & _) _ IH]; [done|].
    rewrite filter_cons_False by congruence. exact IH. }
  assert (Ec : ctxs bl = ctxs l).
  { unfold ctxs, bl. by rewrite map_ctx_blank. }
  split; [|split_and!; rewrite ?E2, ?E1; cbn; rewrite <- ?Ec; done].
  destruct Hw as ((Hq & _ & Hs & Hf) & Hin & Hr). rewrite E2, E1 in Hc2 |- *. split; [|by split].
  split; [exact Hq|]. split; [|by split]. split; [exact Hc2|]. symmetry. exact Hn.
Qed.
End tunnel.
