(* ===== verification/TunnelSpec.v ===== *)
(** * The tunnel: what the code guarantees

    Every sequence of entry points keeps the connection well formed and stays
    inside the caller's buffers; a sent packet arrives; a batch is the IP
    packets of the queue; closing releases each link once. *)
From stdpp Require Import functions.
From S2P Require Import Prelude Bytes Ring Crypto Accel AccelInv AccelSpec Conn ConnInv WorldInv AccelLink ConnEx.
From S2P Require Import Channel ChannelInv Receive ReceiveInv ChannelSpec Decode Tunnel TunnelInv.

(** ** The entry points of the data plane *)

Inductive entry : Type :=
| ESend (data : list Z)
| ESendRaw (frame : list Z)
| ESendPacket (command : Z) (payload : list Z)
| EReceive (max_len : Z)
| EReceiveRaw (max_len : Z)
| EReceiveBatch (max_len max_packets : Z)
| EFillRecvQueue
| EKeepaliveAll
| EResolveGateway (ip : Z)
| ECloseAdditional.

(** The caller's side: byte arrays under 2 GiB, buffer sizes that leave room
    below 4 GiB. *)
Definition entry_ok (e : entry) : Prop :=
  match e with
  | ESend data | ESendRaw data | ESendPacket _ data => bytes_ok data /\ len data < 2 ^ 31
  | EReceive n | EReceiveRaw n => 0 <= n
  | EReceiveBatch n k => 0 <= n < 2 ^ 32 - MAX_QUEUED_FRAME /\ 0 <= k
  | _ => True
  end.

(** What a call stores in the caller's buffer: nothing, one packet that fits,
    or packets that fit one behind the other. *)
Definition stored_ok (e : entry) (r : Z * list (list Z)) : Prop :=
  match e with
  | EReceive n | EReceiveRaw n =>
      len (mjoin r.2) <= n /\ Forall bytes_ok r.2 /\ (r.1 = -1 \/ r.1 = len (mjoin r.2))
  | EReceiveBatch n k =>
      len (mjoin r.2) <= n /\ len r.2 <= k /\ Forall bytes_ok r.2 /\ (r.1 = -1 \/ r.1 = len (mjoin r.2))
  | _ => r.2 = []
  end.

Section tunnel.
Context {U : Type} (good : U -> Prop) `{AcceleratorLaws U good}.
Context (tick crand : nat -> Z) (malloc_ok : Z -> bool)
        (zlib_compress zlib_uncompress : list Z -> Z -> option (list Z)) (zlib_bound : Z -> Z)
        (thread_ok : bool).
Implicit Types w : cworld U.
Abbreviation wok := (world_ok good).

(** [rand] is never negative; zlib's results fit the buffer and are bytes; its
    bound for data below 2 GiB is below 4 GiB. *)
Definition env_ok : Prop :=
  (forall n, 0 <= crand n) /\
  (forall src cap d, bytes_ok src -> zlib_uncompress src cap = Some d -> len d <= cap /\ bytes_ok d) /\
  (forall src cap d, zlib_compress src cap = Some d -> len d <= cap) /\
  (forall n, 0 <= n < 2 ^ 31 -> zlib_bound n + 8 < 2 ^ 32).

Definition run_entry (e : entry) : St (cworld U) (Z * list (list Z)) :=
  match e with
  | ESend data => r ← softether_send data; mret (r, [])
  | ESendRaw frame => r ← softether_send_raw crand malloc_ok zlib_compress zlib_bound frame; mret (r, [])
  | ESendPacket c d => r ← softether_send_packet crand malloc_ok zlib_compress zlib_bound c d; mret (r, [])
  | EReceive n =>
      r ← softether_receive tick crand malloc_ok zlib_compress zlib_uncompress zlib_bound thread_ok n;
      mret (r.1, [r.2])
  | EReceiveRaw n => r ← softether_receive_raw tick crand malloc_ok zlib_uncompress n; mret (r.1, [r.2])
  | EReceiveBatch n k =>
      b ← softether_receive_batch tick crand malloc_ok zlib_compress zlib_uncompress zlib_bound thread_ok n k;
      mret (b_ret b, b_packets b)
  | EFillRecvQueue => r ← softether_fill_recv_queue tick crand malloc_ok zlib_uncompress; mret (r, [])
  | EKeepaliveAll => r ← softether_send_keepalive_all tick crand; mret (r, [])
  | EResolveGateway ip =>
      r ← softether_resolve_gateway tick crand malloc_ok zlib_compress zlib_uncompress zlib_bound ip; mret (r, [])
  | ECloseAdditional => softether_close_additional ;; mret (0, [])
  end.

Fixpoint run_entries (es : list entry) : St (cworld U) (list (Z * list (list Z))) :=
  match es with
  | [] => mret []
  | e :: es => r ← run_entry e; rs ← run_entries es; mret (r :: rs)
  end.

Lemma fits_stored n (r : Z * list Z) w : fits n r -> 0 <= n ->
  len (mjoin [r.2]) <= n /\ Forall bytes_ok [r.2] /\ (r.1 = -1 \/ r.1 = len (mjoin [r.2])).
Proof.
  intros [Hb Hr] Hn. cbn [mjoin list_join]. rewrite app_nil_r. split; [|split; [by constructor|]].
  - destruct Hr as [[_ ->]|[_ ?]]; [rewrite len_nil; lia|done].
  - destruct Hr as [[? _]|[? _]]; auto.
Qed.

Lemma run_entry_wp e w : env_ok -> entry_ok e -> wok w ->
  wp (run_entry e) (fun r w' => wok w' /\ stored_ok e r) w.
Proof.
  intros (Hcr & Hun & Hco & Hbo) He Hw. destruct e as [d|d|c d|n|n|n k| | |ip|]; cbn [run_entry entry_ok stored_ok] in *; wp_step.
  - eapply wp_mono; [eapply (send_wp good); try done; apply He|]. cbv beta. intros r w' [Hw' _]. by wp_step.
  - eapply wp_mono; [eapply (send_raw_wp good); try done; apply He|]. cbv beta. intros r w' [Hw' _]. by wp_step.
  - eapply wp_mono; [eapply (send_packet_wp good); try done|].
    { eapply wire_sendable; [done|done|apply He]. }
    cbv beta. intros r w' [[Hw' _] _]. by wp_step.
  - eapply wp_mono; [by eapply (receive_wp good)|]. cbv beta. intros r w' [Hw' Hf]. wp_step. split; [done|].
    by apply fits_stored.
  - eapply wp_mono; [by eapply (receive_raw_wp good)|]. cbv beta. intros r w' [Hw' Hf]. wp_step. split; [done|].
    by apply fits_stored.
  - destruct He as [Hn Hk]. eapply wp_mono; [by eapply (receive_batch_wp good)|].
    cbv beta. intros b w' (Hw' & (H1 & H2 & H3) & Hr). wp_step. by split_and!.
  - eapply wp_mono; [by eapply (fill_wp good)|]. intros r w' [[Hw' _] _]. by wp_step.
  - eapply wp_mono; [by eapply (keepalive_all_wp good)|]. intros r w' [[Hw' _] _]. by wp_step.
  - eapply wp_mono; [by eapply (resolve_gateway_wp good)|]. intros r w' Hw'. by wp_step.
  - eapply wp_mono; [by eapply (close_additional_wp good)|]. intros r w' [Hw' _]. by wp_step.
Qed.

(** C4: Type safety of the data plane. From a well-formed connection every
    sequence of sends, receives, batches, keepalive rounds, ARP resolutions and
    closings returns, whatever the sockets, [poll], the clock and the
    accelerator answer; no access leaves the staging buffer, the receive queue,
    the slots or the caller's buffer, no destroyed TLS context is used or
    destroyed again, and the connection stays well formed. *)
Theorem data_plane_safe (es : list entry) (w : cworld U) :
  env_ok -> Forall entry_ok es -> wok w ->
  exists rs w', run_entries es w = Ok (rs, w') /\ wok w' /\ Forall2 stored_ok es rs.
Proof.
  intros He Hes Hw. enough (Hwp : wp (run_entries es) (fun rs w' => wok w' /\ Forall2 stored_ok es rs) w).
  { by apply wp_run in Hwp. }
  revert w Hw. induction Hes as [|e es H1 _ IH]; intros w Hw; cbn [run_entries].
  { wp_step. split; [done|constructor]. }
  wp_step. eapply wp_mono; [by apply run_entry_wp|]. intros r w1 [Hw1 Hr]. wp_step.
  eapply wp_mono; [by apply IH|]. intros rs w2 [Hw2 Hrs]. wp_step. split; [done|by constructor].
Qed.

(** ** Batches *)

(** The reference: the packets a batch takes from the frames that wait, and the
    frames it leaves. *)
Fixpoint batch_of (max_len max_packets : Z) (acc q : list (list Z)) : list (list Z) * list (list Z) :=
  match q with
  | [] => (acc, [])
  | frame :: rest =>
      if len acc >=? max_packets then (acc, q) else
      match classify frame with
      | FIp packet =>
          if len (mjoin acc) + len packet >? max_len then (acc, q)
          else batch_of max_len max_packets (acc ++ [packet]) rest
      | _ => batch_of max_len max_packets acc rest
      end
  end.

Hypothesis Henv : env_ok.

Definition batch_post max_len max_packets acc w (ps : list (list Z)) w' : Prop :=
  wok w' /\ (ps, frames (w_conn w')) = batch_of max_len max_packets acc (frames (w_conn w)).

(** One frame was dealt with; [acc'] is what the batch holds then. *)
Lemma batch_drop fuel max_len max_packets acc acc' frame rest w w1 :
  (forall acc w, wok w -> c_recv_queue_count (w_conn w) < Z.of_nat fuel -> batch_fits max_len max_packets acc ->
     wp (batch_loop crand malloc_ok zlib_compress zlib_bound fuel max_len max_packets acc)
        (batch_post max_len max_packets acc w) w) ->
  frames (w_conn w) = frame :: rest -> wok w -> wok w1 -> frames (w_conn w1) = frames (w_conn w) ->
  c_recv_queue_count (w_conn w) < Z.of_nat (S fuel) -> batch_fits max_len max_packets acc' ->
  batch_of max_len max_packets acc (frames (w_conn w)) = batch_of max_len max_packets acc' rest ->
  wp (queue_drop ;; batch_loop crand malloc_ok zlib_compress zlib_bound fuel max_len max_packets acc')
     (batch_post max_len max_packets acc w) w1.
Proof.
  intros IH Ef Hw Hw1 E1 Hn Hfit Hb.
  assert (Hq : recv_queue_ok (w_conn w)) by apply Hw. assert (Hq1 : recv_queue_ok (w_conn w1)) by apply Hw1.
  pose proof (len_frames _ Hq) as Hl. pose proof (len_frames _ Hq1) as Hl1. rewrite E1 in Hl1.
  assert (Hpos : 0 < c_recv_queue_count (w_conn w1)).
  { rewrite <- Hl1, Ef, len_cons. pose proof (len_nonneg rest). lia. }
  wp_step. apply (queue_drop_wp good); [done|done|]. cbv zeta. intros Hw2 Hf2.
  eapply wp_mono; [apply IH; [done|cbn; lia|done]|]. intros ps w3 [Hw3 E3]. split; [done|].
  rewrite Hb, E3, Hf2, E1, Ef. done.
Qed.

Lemma batch_refines_wp fuel max_len max_packets acc w :
  wok w -> c_recv_queue_count (w_conn w) < Z.of_nat fuel -> 0 <= max_len < 2 ^ 32 - MAX_QUEUED_FRAME ->
  batch_fits max_len max_packets acc ->
  wp (batch_loop crand malloc_ok zlib_compress zlib_bound fuel max_len max_packets acc)
     (batch_post max_len max_packets acc w) w.
Proof.
  intros Hw Hn Hm. revert acc w Hw Hn. induction fuel as [|fuel IH]; intros acc w Hw Hn Hfit.
  { pose proof Hw as (((_ & _ & _ & ? & _) & _) & _). lia. }
  assert (Hq : recv_queue_ok (w_conn w)) by apply Hw. pose proof (len_frames _ Hq) as Hlf.
  cbn [batch_loop]. wp_pure. wp_step.
  { wp_step. split; [done|]. destruct (frames (w_conn w)) as [|f q] eqn:Ef; [done|]. cbn [batch_of].
    rewrite len_cons in Hlf. pose proof (len_nonneg q).
    destruct (len acc >=? max_packets) eqn:E; [done|]. cbn in Hc. lia. }
  apply orb_false_iff in Hc as [Hc1 Hc2]. wp_step. apply (queue_peek_wp good); [done|lia|]. intros frame rest Ef Hb Hl.
  assert (Hgo : forall w1 acc', wok w1 -> frames (w_conn w1) = frames (w_conn w) -> batch_fits max_len max_packets acc' ->
    batch_of max_len max_packets acc (frames (w_conn w)) = batch_of max_len max_packets acc' rest ->
    wp (queue_drop ;; batch_loop crand malloc_ok zlib_compress zlib_bound fuel max_len max_packets acc')
       (batch_post max_len max_packets acc w) w1) by (intros; by eapply batch_drop).
  destruct Henv as (Hcr & Hun & Hco & Hbo).
  destruct (classify frame) as [| |p] eqn:Ec.
  - wp_step. eapply wp_mono; [eapply (reply_arp_wp good); try done; by apply classify_arp|].
    cbv beta. intros _ w1 [H1 Ht]. apply Hgo; [done|by apply tx_queue|done|].
    rewrite Ef. cbn [batch_of]. by rewrite Hc1, Ec.
  - apply Hgo; [done..|]. rewrite Ef. cbn [batch_of]. by rewrite Hc1, Ec.
  - pose proof Ec as Ep. apply classify_ip in Ep. destruct Hfit as (Hp1 & Hp2 & Hp3).
    pose proof (len_nonneg (mjoin acc)). pose proof (len_nonneg p).
    assert (len p <= MAX_QUEUED_FRAME) by (subst p; slia).
    unfold u32. rewrite Z.mod_small by lia. wp_step.
    { wp_step. split; [done|]. rewrite Ef. cbn [batch_of]. by rewrite Hc1, Ec, Hc. }
    wp_step. unfold room. eapply wp_lift; [by rewrite (proj2 (Z.leb_le _ _)) by lia|]. apply Hgo; [done|done| |].
    + split; [rewrite len_mjoin_snoc; lia|]. split; [rewrite len_app, len_cons, len_nil; lia|].
      apply Forall_app. split; [done|]. constructor; [subst p; auto with bytes|constructor].
    + rewrite Ef. cbn [batch_of]. by rewrite Hc1, Ec, Hc.
Qed.

(** What a batch stored and left. *)
Definition batch_result max_len max_packets w (b : batch) w' : Prop :=
  wok w' /\
  (b_packets b, frames (w_conn w')) = batch_of max_len max_packets [] (frames (w_conn w)) /\
  b_ret b = len (mjoin (b_packets b)) /\
  b_lengths b = map len (b_packets b) ++ zeros (max_packets - len (b_packets b)).

(** C17: A batch from a non-empty queue is the reference: the payloads of the
    IP frames that wait, in queue order, up to the first that no longer fits
    the buffer or the packet limit; ARP and other frames in between are
    consumed, and the frames behind stay queued. *)
Theorem batch_refines (max_len max_packets : Z) (w : cworld U) :
  wok w -> c_state (w_conn w) = STATE_CONNECTED -> 0 < c_recv_queue_count (w_conn w) ->
  0 < max_len < 2 ^ 32 - MAX_QUEUED_FRAME -> 0 < max_packets ->
  exists b w', softether_receive_batch tick crand malloc_ok zlib_compress zlib_uncompress zlib_bound thread_ok
    max_len max_packets w = Ok (b, w') /\ batch_result max_len max_packets w b w'.
Proof.
  intros Hw Hst Hpos Hm Hp. pose proof Henv as (Hcr & Hun & Hco & Hbo).
  enough (Hwp : wp (softether_receive_batch tick crand malloc_ok zlib_compress zlib_uncompress zlib_bound thread_ok
    max_len max_packets) (batch_result max_len max_packets w) w)
    by by apply wp_run in Hwp.
  unfold softether_receive_batch. wp_step; [lia|]. wp_pure. rewrite bool_decide_eq_true_2 by done. cbn [negb].
  wp_step. eapply wp_mono; [by eapply (maintain_wp good)|]. cbv beta. intros _ w1 [H1 Ht].
  destruct (tx_queue _ _ Ht) as [Ef En]. wp_pure. rewrite (proj2 (Z.leb_gt _ _)) by lia.
  wp_pure. wp_step; [lia|]. wp_pure. eapply wp_mono; [apply batch_refines_wp; [done|lia|lia|]|].
  { unfold batch_fits. change (mjoin []) with (@nil Z). split_and!; [rewrite len_nil; lia|rewrite len_nil; lia|constructor]. }
  intros ps w2 [H2 E2]. cbv zeta. wp_step. rewrite Ef in E2.
  assert (Hfin : forall w3, wok w3 -> frames (w_conn w3) = frames (w_conn w2) ->
    wp (mret (Batch (len (mjoin ps)) ps (map len ps ++ zeros (max_packets - len ps)))) (batch_result max_len max_packets w) w3).
  { intros w3 H3 E3. wp_step. unfold batch_result. cbn. rewrite E3. by split_and!. }
  wp_step; [|by apply Hfin]. apply wp_modify_conn, Hfin; [by apply (wok_rx_stats good)|by destruct (w_conn w2)].
Qed.

(** ** A packet from end to end *)

Lemma classify_ip_frame c data : fields_ok c -> data <> [] -> classify (ip_frame c data) = FIp data.
Proof.
  intros Hf Hd. pose proof (len_ip_frame c data Hf) as Hl. pose proof Hf as (_ & Hm & _ & Hg & _).
  assert (Hpos : 0 < len data).
  { destruct data as [|x l]; [done|]. rewrite len_cons. pose proof (len_nonneg l). lia. }
  assert (Hdm : len (dst_mac c) = 6) by (unfold dst_mac; by destruct (c_gateway_mac_resolved c)).
  assert (Hty : eth_type data = ETH_TYPE_IPV4 \/ eth_type data = ETH_TYPE_IPV6) by (unfold eth_type; case_match; auto).
  assert (He : r16 (slice 12 2 (ip_frame c data)) = eth_type data /\ dr ETH_HEADER_SIZE (ip_frame c data) = data).
  { unfold ip_frame, eth_frame, ETH_HEADER_SIZE. split.
    - rewrite app_assoc. rewrite w16_enc. unfold slice. rewrite dr_app_exact by slia. rewrite tk_app_exact by (rewrite len_be_enc; done).
      rewrite r16_enc; [done|]. destruct Hty as [->| ->]; done.
    - rewrite !app_assoc. rewrite w16_enc. apply dr_app_exact. slia. }
  destruct He as [He Hdr]. unfold classify. rewrite He, Hdr, Hl. unfold ETH_HEADER_SIZE, ETH_TYPE_ARP, ETH_TYPE_IPV4, ETH_TYPE_IPV6 in *.
  destruct (_ && _) eqn:E1; [lia|]. destruct (_ <=? _) eqn:E2; [lia|]. destruct (_ || _) eqn:E3; [done|lia].
Qed.

Lemma ip_block_message c data : ip_block c data = message_enc [ip_frame c data].
Proof.
  unfold ip_block, message_enc, block_enc. cbn [map mjoin list_join]. by rewrite !w32_enc, app_nil_r.
Qed.

Lemma send_run data w :
  wok w -> bytes_ok data -> 0 < len data <= 65535 -> c_state (w_conn w) = STATE_CONNECTED ->
  c_send_block (w_conn w) <> None -> c_ssl (w_conn w) <> 0 -> rudp_on w = false -> distinct_chans (w_conn w) ->
  (exists idx, idx ∈ send_candidates (w_conn w) /\ healthy w idx) ->
  wp (softether_send data) (fun r w' => wok w' /\ r = len data /\ exists idx, idx ∈ send_candidates (w_conn w) /\
    w_out w' (cand_chan (w_conn w) idx) =
    w_out w (cand_chan (w_conn w) idx) ++ message_enc [ip_frame (w_conn w) data]) w.
Proof.
  intros Hw Hb Hl Hst Hsb Hssl Hoff Hnd (idx & Hi & Hh).
  destruct (c_send_block (w_conn w)) as [buf|] eqn:Eb; [|done]. eapply send_stage; [done..|]. intros [H1 _].
  pose proof (wok_fields good w Hw) as Hf. set (blk := ip_block (w_conn w) data). set (w1 := staged data buf w).
  assert (Hoff1 : rudp_on w1 = false) by done. unfold softether_send_data_block, try_rudp. wp_pure.
  rewrite Hoff1. cbn [negb]. wp_pure. eapply wp_mono.
  { apply (transmit_run good blk w1); [exact H1| |cbn; congruence|done|exact Hnd].
    unfold blk. rewrite len_ip_block by done. lia. }
  intros ok w2 (Hw2 & _ & Ht). wp_step. destruct ok.
  - rewrite len_ip_frame by done. destruct (_ <? 0) eqn:E; [lia|]. split.
    { apply wok_stats. exact Hw2. }
    split; [done|]. destruct Ht as (_ & j & Hj & Ho). exists j. split; [exact Hj|].
    rewrite <- ip_block_message. exact Ho.
  - destruct Ht as [_ Ht]. destruct (Ht idx Hi) as [Hno _]. by destruct Hno.
Qed.

(** C8: End to end: a packet sent over a healthy link goes out as one block
    message on one of the links, and whatever receiver finds those bytes next
    on a link, cut in any way, queues exactly one frame, which every receive
    function turns back into the packet. *)
Theorem packet_roundtrip (data : list Z) (w : cworld U) :
  wok w -> bytes_ok data -> 0 < len data <= 2034 -> c_state (w_conn w) = STATE_CONNECTED ->
  c_send_block (w_conn w) <> None -> c_ssl (w_conn w) <> 0 -> rudp_on w = false -> distinct_chans (w_conn w) ->
  (exists idx, idx ∈ send_candidates (w_conn w) /\ healthy w idx) ->
  exists w' idx bytes, softether_send data w = Ok (len data, w') /\ wok w' /\
    idx ∈ send_candidates (w_conn w) /\
    w_out w' (cand_chan (w_conn w) idx) = w_out w (cand_chan (w_conn w) idx) ++ bytes /\
    forall t v rest, wok v -> link_of v t -> c_server_use_compress (w_conn v) = false ->
      c_recv_queue_count (w_conn v) < RECV_QUEUE_SIZE -> stream (w_in v (link_chan v t)) = bytes ++ rest ->
      exists rc v' frame, recv_message crand malloc_ok zlib_uncompress t v = Ok (rc, v') /\ wok v' /\
        frames (w_conn v') = frames (w_conn v) ++ [frame] /\ classify frame = FIp data /\
        stream (w_in v' (link_chan v t)) = rest.
Proof.
  intros Hw Hb Hl Hst Hsb Hssl Hoff Hnd Hex. pose proof (wok_fields good w Hw) as Hf.
  assert (Hwp := send_run data w Hw Hb ltac:(lia) Hst Hsb Hssl Hoff Hnd Hex).
  apply wp_run in Hwp as (r & w' & E & Hw' & -> & idx & Hi & Ho).
  exists w', idx, (message_enc [ip_frame (w_conn w) data]). do 4 (split; [done|]).
  intros t v rest Hv Hlk Hnc Hroom Hst'. set (f := ip_frame (w_conn w) data) in *.
  assert (Hlf : len f = 14 + len data) by (by apply len_ip_frame).
  assert (Hd : wp (recv_message crand malloc_ok zlib_uncompress t) (fun rc v' => decoded good zlib_uncompress [f] v v' /\
    stream (w_in v' (link_chan v t)) = rest /\ rc = if c_recv_queue_count (w_conn v') >? 0 then 1 else 0) v).
  { apply (message_run good); [apply Henv|done|done| |done| |done].
    - intros E'. congruence.
    - constructor; [|constructor]. split; [rewrite Hlf; unfold MAX_BLOCK_SIZE; lia|by apply bytes_ip_frame]. }
  apply wp_run in Hd as (rc & v' & Er & (Hv' & _ & _ & Hfr & _) & Hrest & _). exists rc, v', f.
  split; [done|]. split; [done|]. split; [|split; [|done]].
  - rewrite Hfr. cbn [store]. rewrite Hlf. unfold queue_room.
    destruct (_ =? 0) eqn:E0; [lia|]. unfold MAX_QUEUED_FRAME. destruct (_ && _) eqn:E1; [|lia].
    cbn [fst]. unfold unpacked. by rewrite Hnc.
  - apply classify_ip_frame; [done|]. intros E0. rewrite E0 in Hl. change (0 < 0 <= 2034) in Hl. lia.
Qed.

(** ** Closing *)

(** C30: Closing the additional links empties every slot and releases what each
    held exactly once: its TLS context is destroyed once, its descriptor is
    closed, and the primary link stays as it is. *)
Theorem close_additional_releases (w : cworld U) :
  wok w ->
  exists w', softether_close_additional w = Ok (tt, w') /\ wok w' /\
    Forall (fun ts => ts_active ts = false /\ ts_ssl ts = 0 /\ ts_ssl_ctx ts = 0) (c_additional (w_conn w')) /\
    c_num_additional (w_conn w') = 0 /\ c_ssl (w_conn w') = c_ssl (w_conn w) /\
    w_freed w' = rev (ctxs (c_additional (w_conn w))) ++ w_freed w /\ NoDup (ctxs (c_additional (w_conn w))) /\
    w_closed w' = rev (filter (fun fd => 0 <= fd) (map saved_fd (c_additional (w_conn w)))) ++ w_closed w.
Proof.
  intros Hw. assert (Hwp := close_additional_wp good w Hw). apply wp_run in Hwp as ([] & w' & E & Hw' & Ha & Hs & Hf & Hc & _).
  exists w'. split; [done|]. split; [done|]. split; [done|]. split.
  { destruct Hw' as ((_ & (_ & ->) & _) & _). unfold active_count. clear -Ha.
    induction Ha as [|ts l (E & _) _ IH]; [done|]. by rewrite filter_cons_False by congruence. }
  split; [done|]. split; [done|]. split; [|done].
  destruct Hw as ((_ & ((_ & _ & Hnd & _) & _) & _) & _). unfold owners in Hnd. rewrite filter_cons in Hnd.
  destruct (decide _); [by apply NoDup_cons in Hnd as [_ ?]|done].
Qed.
End tunnel.

(** ** The theorems on a concrete session, over the real accelerator *)

Definition ex_bound (n : Z) : Z := n + 13.
Definition ex_crand (_ : nat) : Z := 5.

Lemma ex_env_ok : env_ok ex_crand ex_zlib ex_unzlib ex_bound.
Proof.
  split; [done|]. split; [apply ex_unzlib_fits|]. split; [|unfold ex_bound; lia].
  intros src cap d. unfold ex_zlib. destruct (_ <? _) eqn:E; [|done]. intros [= <-]. slia.
Qed.

Definition ex_packet : list Z := [0x45; 0; 0; 20].
Definition ex_tunnel : cworld aworld :=
  ex_cworld (Some (ex_world 1 [])) ex_reads quiet.
Lemma ex_good : good 1 (ex_world 1 []).
Proof. split; [apply ex_alive; by left|constructor]. Qed.
Lemma ex_tunnel_ok : world_ok (good 1) ex_tunnel.
Proof. apply ex_cworld_ok; [apply ex_reads_ok|]. intros u [= <-]. exact ex_good. Qed.

Lemma data_plane_safe_witness : exists rs w',
  run_entries ex_tick ex_crand (fun _ => true) ex_zlib ex_unzlib ex_bound true
    [ESend ex_packet; ESendRaw ex_packet; EReceive 100; EReceiveBatch 4096 8; EKeepaliveAll; ECloseAdditional]
    ex_tunnel = Ok (rs, w') /\ world_ok (good 1) w' /\
  Forall2 stored_ok [ESend ex_packet; ESendRaw ex_packet; EReceive 100; EReceiveBatch 4096 8; EKeepaliveAll; ECloseAdditional] rs.
Proof.
  apply (data_plane_safe (good 1)); [exact ex_env_ok| |exact ex_tunnel_ok].
  assert (bytes_ok ex_packet) by (apply (bool_decide_unpack _); vm_compute; exact I).
  repeat (apply Forall_cons_2; [done|]). apply Forall_nil_2.
Defined.

(** A session with an IP frame, an ARP frame and an IPv6 frame in its queue. *)
Definition ex_frames : list (list Z) :=
  [eth_frame broadcast_mac (zeros 6) ETH_TYPE_IPV4 ex_packet; eth_frame broadcast_mac (zeros 6) ETH_TYPE_ARP (zeros 28);
   eth_frame broadcast_mac (zeros 6) ETH_TYPE_IPV6 [0x60; 1]].
Definition ex_enqueue (c : connection) (f : list Z) : connection :=
  match queue_push f c with Ok c => c | _ => c end.
Definition ex_queued : cworld aworld := ex_tunnel <| w_conn := foldl ex_enqueue ex_conn ex_frames |>.

Lemma ex_enqueue_ok freed c f : conn_ok freed c -> c_recv_queue_count c < RECV_QUEUE_SIZE ->
  len f <= MAX_QUEUED_FRAME -> bytes_ok f -> conn_ok freed (ex_enqueue c f).
Proof.
  intros (Hq & Hl & Hs & Hf) Hn Hlf Hb. unfold ex_enqueue.
  destruct (queue_push_ok f c) as (q & t & n & -> & _ & Hq' & _); [done..|].
  split; [exact Hq'|]. split; [exact Hl|]. split; [exact Hs|exact Hf].
Qed.

Lemma ex_queued_ok : world_ok (good 1) ex_queued.
Proof.
  unfold ex_queued. apply (wok_conn (good 1)); [exact ex_tunnel_ok|]. change (w_freed ex_tunnel) with (@nil Z).
  assert (Hb : Forall (fun f => len f <= MAX_QUEUED_FRAME /\ bytes_ok f) ex_frames)
    by (apply (bool_decide_unpack _); vm_compute; exact I).
  apply Forall_cons in Hb as [[? ?] Hb]. apply Forall_cons in Hb as [[? ?] Hb]. apply Forall_cons in Hb as [[? ?] _].
  refine (ex_enqueue_ok _ _ _ (ex_enqueue_ok _ _ _ (ex_enqueue_ok _ _ _ ex_conn_ok _ _ _) _ _ _) _ _ _).
  all: first [assumption|vm_compute; done].
Qed.

Lemma batch_refines_witness : exists b w',
  softether_receive_batch ex_tick ex_crand (fun _ => true) ex_zlib ex_unzlib ex_bound true 4096 8 ex_queued = Ok (b, w') /\
  b_packets b = [ex_packet; [0x60; 1]] /\ frames (w_conn w') = [] /\ b_ret b = 6.
Proof.
  destruct (batch_refines (good 1) ex_tick ex_crand (fun _ => true) ex_zlib ex_unzlib ex_bound true ex_env_ok 4096 8 ex_queued)
    as (b & w' & E & _ & Hb & Hr & _).
  - exact ex_queued_ok.
  - vm_compute. done.
  - vm_compute. done.
  - done.
  - done.
  - exists b, w'. split; [exact E|]. assert (Hv : (b_packets b, frames (w_conn w')) = ([ex_packet; [0x60; 1]], [])).
    { rewrite Hb. vm_compute. done. }
    injection Hv as Hp Hq. split; [exact Hp|]. split; [exact Hq|]. by rewrite Hr, Hp.
Defined.

Definition ex_plain : cworld aworld := ex_cworld None quiet quiet.

Lemma packet_roundtrip_witness : exists w' idx bytes,
  softether_send ex_packet ex_plain = Ok (4, w') /\ idx ∈ send_candidates ex_conn /\
  w_out w' (cand_chan ex_conn idx) = bytes.
Proof.
  destruct (packet_roundtrip (good 1) ex_crand (fun _ => true) ex_zlib ex_unzlib ex_bound ex_env_ok ex_packet ex_plain)
    as (w' & idx & bytes & E & _ & Hi & Ho & _).
  - by apply ex_cworld_ok.
  - apply (bool_decide_unpack _). vm_compute. exact I.
  - done.
  - done.
  - done.
  - done.
  - done.
  - apply (bool_decide_unpack _). vm_compute. exact I.
  - exists 0. split; [apply (bool_decide_unpack _); vm_compute; exact I|]. split; [done|]. split; [done|vm_compute; done].
  - exists w', idx, bytes. split; [exact E|]. split; [exact Hi|exact Ho].
Defined.

Lemma close_additional_releases_witness : exists w',
  softether_close_additional ex_tunnel = Ok (tt, w') /\ world_ok (good 1) w' /\ w_freed w' = [8] /\ w_closed w' = [5].
Proof.
  destruct (close_additional_releases (good 1) ex_tunnel) as (w' & E & Hw & _ & _ & _ & Hf & _ & Hc).
  - exact ex_tunnel_ok.
  - exists w'. split; [exact E|]. split; [exact Hw|]. rewrite Hf, Hc. vm_compute. done.
Defined.
