(* ===== verification/Calm.v ===== *)
(** * External events are used up

    No function of the data plane creates readiness: the results of [poll] and
    of [SSL_pending] that are still to come only become fewer, and the
    accelerator stays switched on or off. A loop that uses up an event in every
    pass therefore ends. *)
From stdpp Require Import functions.
From S2P Require Import Prelude Bytes Ring Crypto Conn Channel Receive Tunnel.

Section calm.
Context {U : Type} `{Accelerator U}.
Context (tick crand : nat -> Z) (malloc_ok : Z -> bool)
        (zlib_compress zlib_uncompress : list Z -> Z -> option (list Z)) (zlib_bound : Z -> Z).
Implicit Types w : cworld U.

(** The events to come. *)
Definition evs w : nat := length (w_polls w) + length (w_pending w).

Definition calmer w w' : Prop := (evs w' <= evs w)%nat /\ rudp_on w' = rudp_on w.
#[export] Instance calmer_preorder : PreOrder calmer.
Proof. split; [by split|]. intros w1 w2 w3 [? ?] [? ?]. split; [lia|congruence]. Qed.

Definition calm {A} (m : St (cworld U) A) : Prop := forall w a w', m w = Ok (a, w') -> calmer w w'.

Lemma calm_bind {A B} (m : St (cworld U) A) (f : A -> St (cworld U) B) :
  calm m -> (forall a, calm (f a)) -> calm (m ≫= f).
Proof.
  intros Hm Hf w b w'. unfold mbind, St_bind. destruct (m w) as [| |[a w1]] eqn:E; [done|done|].
  intros Hb. transitivity w1; [by eapply Hm|by eapply Hf].
Qed.
Lemma calm_ret {A} (a : A) : calm (mret a).
Proof. by intros w b w' [= <- <-]. Qed.
Lemma calm_gets {A} (f : cworld U -> A) : calm (gets f).
Proof. by intros w b w' [= <- <-]. Qed.
Lemma calm_lift {A} (r : res A) : calm (lift r).
Proof. intros w b w'. unfold lift. destruct r; [done|done|]. by intros [= <- <-]. Qed.
Lemma calm_fail {A} (e : res (A * cworld U)) : e = Err \/ e = Ub -> calm (fun _ => e).
Proof. by intros [-> | ->] w a w'. Qed.
Lemma calm_when b m : calm m -> calm (when b m).
Proof. intros Hm. unfold when. destruct b; [done|apply calm_ret]. Qed.
Lemma calm_modify f : (forall w, calmer w (f w)) -> calm (modify f).
Proof. intros Hf w b w' [= _ <-]. apply Hf. Qed.
Lemma calm_modify_conn f : (forall c, c_rudp_enabled (f c) = c_rudp_enabled c) -> calm (modify_conn f).
Proof. intros Hf. apply calm_modify. intros w. split; [done|]. unfold rudp_on. cbn. by rewrite Hf. Qed.
Lemma calm_if {A} (b : bool) (m1 m2 : St (cworld U) A) : calm m1 -> calm m2 -> calm (if b then m1 else m2).
Proof. by destruct b. Qed.
(** What a call that runs adds to its postcondition. *)
Lemma calm_wp {A} (m : St (cworld U) A) P w : calm m -> wp m P w -> wp m (fun a w' => P a w' /\ calmer w w') w.
Proof. intros Hm. unfold wp. destruct (m w) as [| |[a w']] eqn:E; [done|done|]. intros HP. split; [done|by eapply Hm]. Qed.
End calm.

Create HintDb calm.
#[export] Hint Resolve calm_ret calm_gets calm_lift calm_when : calm.
Ltac calm_step :=
  lazymatch goal with
  | |- calm (_ ≫= _) => apply calm_bind; [|intros ?]
  | |- calm (match ?x with _ => _ end) => destruct x
  | |- calm (let x := _ in _) => cbv zeta
  | |- calm (when _ _) => apply calm_when
  | |- calm (modify_conn _) => apply calm_modify_conn; intros ?; reflexivity
  | |- calm (fun _ => Err) => apply calm_fail; by left
  | |- calm (fun _ => Ub) => apply calm_fail; by right
  end.
Ltac calm_auto := repeat first [calm_step | solve [auto 2 with calm]].

Section conn.
Context {U : Type} `{Accelerator U}.
Context (tick crand : nat -> Z) (malloc_ok : Z -> bool)
        (zlib_compress zlib_uncompress : list Z -> Z -> option (list Z)) (zlib_bound : Z -> Z).
Implicit Types w : cworld U.
Abbreviation M := (St (cworld U)).

(** ** Primitives *)

Ltac calm_prim := intros w b w'; first [intros [= _ <-]|intros [= <- <-]]; by split.

Lemma calm_get_conn : calm (get_conn : M _).
Proof. apply calm_gets. Qed.
Lemma calm_tick : calm (softether_tick_ms tick : M _).
Proof. calm_prim. Qed.
Lemma calm_rand : calm (c_rand crand : M _).
Proof. calm_prim. Qed.
Lemma calm_get_slot i : calm (get_slot i : M _).
Proof. intros w b w'. unfold get_slot. repeat case_match; try done. by intros [= <- <-]. Qed.
Lemma calm_set_slot i ts : calm (set_slot i ts : M _).
Proof. apply calm_modify_conn. by intros []. Qed.
Lemma calm_room cap n : calm (room cap n : M _).
Proof. apply calm_lift. Qed.
Lemma calm_read ch n : calm (sys_read ch n : M _).
Proof. calm_prim. Qed.
Lemma calm_write ch bs : calm (sys_write ch bs : M _).
Proof. calm_prim. Qed.
Lemma calm_close fd : calm (sys_close fd : M _).
Proof. apply calm_when, calm_modify. by split. Qed.
Lemma calm_deref p : calm (deref_ssl p : M _).
Proof. intros w b w'. unfold deref_ssl. case_decide; [done|]. by intros [= <- <-]. Qed.
Lemma calm_pending : calm (sys_pending : M _).
Proof.
  intros w b w'. unfold sys_pending. destruct (w_pending w) as [|x l] eqn:E; intros [= <- <-]; [done|].
  split; [|done]. unfold evs. cbn. rewrite E. cbn. lia.
Qed.
Lemma calm_poll fds : calm (sys_poll fds : M _).
Proof.
  intros w b w'. unfold sys_poll. destruct (w_polls w) as [|[|ev] l] eqn:E; intros [= <- <-]; [done| |];
    (split; [|done]); unfold evs; cbn; rewrite E; cbn; lia.
Qed.
Lemma calm_with_rudp {A} (m : St U A) : calm (with_rudp m : M A).
Proof.
  intros w b w'. unfold with_rudp. destruct (w_rudp w) as [u|] eqn:E; [|done]. destruct (m u) as [| |[a u']]; [done|done|].
  intros [= <- <-]. split; [done|]. unfold rudp_on. cbn. by rewrite E.
Qed.
#[local] Hint Resolve calm_get_conn calm_tick calm_rand calm_get_slot calm_set_slot calm_room calm_read calm_write
  calm_close calm_deref calm_pending calm_poll calm_with_rudp : calm.

(** ** Transfers *)

Lemma calm_ssl_read p n : calm (ssl_read p n : M _).
Proof.
  assert (Hl : forall k, calm (ssl_read_ladder k p n : M _)).
  { induction k as [|k IH]; cbn [ssl_read_ladder]; [apply calm_ret|]. calm_auto. }
  unfold ssl_read. calm_auto.
Qed.
Lemma calm_ssl_write p bs : calm (ssl_write p bs : M _).
Proof. unfold ssl_write. calm_auto. Qed.
Lemma calm_ssl_destroy p : calm (ssl_destroy p : M _).
Proof. unfold ssl_destroy. calm_auto. apply calm_modify. by split. Qed.
Lemma calm_has_pending p : calm (ssl_has_pending p : M _).
Proof. unfold ssl_has_pending. calm_auto. Qed.
#[local] Hint Resolve calm_ssl_read calm_ssl_write calm_ssl_destroy calm_has_pending : calm.

Lemma calm_read_loop guard call again fuel n acc : (forall k, calm (call k : M _)) ->
  calm (read_loop guard call again fuel n acc : M _).
Proof.
  intros Hc. revert acc. induction fuel as [|fuel IH]; intros acc; cbn [read_loop]; calm_auto; auto.
Qed.
Lemma calm_write_loop guard call again fuel bs : (forall k, calm (call k : M _)) ->
  calm (write_loop guard call again fuel bs : M _).
Proof.
  intros Hc. revert bs. induction fuel as [|fuel IH]; intros bs; cbn [write_loop]; calm_auto; auto.
Qed.
#[local] Hint Resolve calm_read_loop calm_write_loop : calm.
Hint Extern 1 (calm (link_io_live _ _ _)) => unfold link_io_live; calm_auto : calm.

Lemma calm_data_read_all_sock ssl fd n : calm (data_read_all_sock ssl fd n : M _).
Proof.
  unfold data_read_all_sock, raw_read_all_fd, ssl_read_all_ctx, read_fuel. calm_auto.
Qed.
Lemma calm_read_uint32_sock ssl fd : calm (read_uint32_sock ssl fd : M _).
Proof. unfold read_uint32_sock. calm_auto. apply calm_data_read_all_sock. Qed.
Lemma calm_data_write_all_sock ssl fd bs : calm (data_write_all_sock ssl fd bs : M _).
Proof. unfold data_write_all_sock, write_fuel. calm_auto. Qed.
Lemma calm_data_write_all bs : calm (data_write_all bs : M _).
Proof. unfold data_write_all, raw_write_all, ssl_write_all, write_fuel. calm_auto. Qed.
#[local] Hint Resolve calm_data_read_all_sock calm_read_uint32_sock calm_data_write_all_sock calm_data_write_all : calm.

(** ** Sending *)

Lemma calm_retire_slot i : calm (retire_slot i : M _).
Proof. unfold retire_slot, take_ssl_ctx_slot. calm_auto. Qed.
Lemma calm_keepalive_sock ssl fd : calm (softether_send_keepalive_sock crand ssl fd : M _).
Proof.
  assert (Hr : forall n, calm (rand_bytes crand n : M _)).
  { induction n as [|n IH]; cbn [rand_bytes]; calm_auto. }
  unfold softether_send_keepalive_sock. calm_auto.
Qed.
#[local] Hint Resolve calm_retire_slot calm_keepalive_sock : calm.
Lemma calm_keepalive : calm (softether_send_keepalive crand : M _).
Proof. unfold softether_send_keepalive. calm_auto. Qed.

Lemma select_rudp c r : softether_select_send_socket c = Ok r -> c_rudp_enabled r.2 = c_rudp_enabled c.
Proof. unfold softether_select_send_socket. repeat case_match; try done; by intros [= <-]. Qed.

(** An update computed from the connection that leaves the switch alone. *)
Lemma calm_update {A} (f : connection -> res A) (g : A -> connection -> connection) :
  (forall c a, f c = Ok a -> c_rudp_enabled (g a c) = c_rudp_enabled c) ->
  calm (c ← get_conn; a ← lift (f c); modify_conn (g a) : M unit).
Proof.
  intros Hg w b w'. unfold mbind, St_bind, get_conn, gets, lift, modify_conn, modify.
  destruct (f (w_conn w)) as [| |a] eqn:E; [done|done|]. intros [= _ <-]. split; [done|].
  unfold rudp_on. cbn. by rewrite (Hg _ _ E).
Qed.

Lemma calm_select_socket : calm (select_socket : M _).
Proof.
  intros w b w'. unfold select_socket, mbind, St_bind, get_conn, gets, lift, modify_conn, modify.
  destruct (softether_select_send_socket (w_conn w)) as [| |r] eqn:E; [done|done|]. intros [= _ <-]. split; [done|].
  unfold rudp_on. cbn. by rewrite (select_rudp _ _ E).
Qed.
#[local] Hint Resolve calm_keepalive calm_select_socket : calm.

Lemma calm_transmit block : calm (softether_transmit_block_nolock block : M _).
Proof.
  assert (Hl : forall l, calm (transmit_loop l block : M _)).
  { induction l as [|idx l IH]; cbn [transmit_loop]; [apply calm_ret|]. unfold retire_failed. destruct idx; calm_auto. }
  unfold softether_transmit_block_nolock. calm_auto.
Qed.
Lemma calm_send_packet c d : calm (softether_send_packet crand malloc_ok zlib_compress zlib_bound c d : M _).
Proof. unfold softether_send_packet. calm_auto. Qed.
#[local] Hint Resolve calm_transmit calm_send_packet : calm.
Lemma calm_send_raw f : calm (softether_send_raw crand malloc_ok zlib_compress zlib_bound f : M _).
Proof. unfold softether_send_raw, softether_send_data, try_rudp. calm_auto. Qed.

(** ** Receiving *)

Lemma calm_push bs : calm (push bs : M _).
Proof.
  unfold push. apply (calm_update (queue_push bs) (fun c _ => c)). intros c a.
  unfold queue_push, mbind, res_bind. repeat case_match; try done. by intros [= <-].
Qed.
#[local] Hint Resolve calm_push : calm.

Lemma calm_drain n : calm (drain_rudp_into_recv_queue n : M _).
Proof.
  assert (Hl : forall n moved, calm (drain_loop n moved : M _)).
  { induction n0 as [|k IH]; intros moved; cbn [drain_loop]; calm_auto. }
  unfold drain_rudp_into_recv_queue. calm_auto.
Qed.
#[local] Hint Resolve calm_drain : calm.

Lemma calm_or_close {A} t (m : M (option A)) (k : A -> M Z) :
  calm m -> (forall a, calm (k a)) -> calm (or_close t m k).
Proof. intros Hm Hk. unfold or_close, close_failed. calm_auto. Qed.
Lemma calm_read_link t n : calm (read_link t n : M _).
Proof. unfold read_link. auto with calm. Qed.
#[local] Hint Resolve calm_read_link : calm.
Lemma calm_skip_block t n : calm (skip_block t n : M _).
Proof.
  assert (Hl : forall fuel k, calm (skip_loop (read_link t) fuel k : M _)).
  { induction fuel as [|fuel IH]; intros k; cbn [skip_loop]; calm_auto. }
  unfold skip_block. calm_auto.
Qed.
#[local] Hint Resolve calm_skip_block : calm.
Lemma calm_recv_blocks t n : calm (recv_blocks malloc_ok zlib_uncompress t n : M _).
Proof.
  induction n as [|n IH]; cbn [recv_blocks]; repeat first [calm_step | apply calm_or_close; [|intros ?] | solve [auto with calm]].
Qed.
#[local] Hint Resolve calm_recv_blocks : calm.
Lemma calm_recv_message t : calm (recv_message crand malloc_ok zlib_uncompress t : M _).
Proof. unfold recv_message. repeat first [calm_step | apply calm_or_close; [|intros ?] | solve [auto with calm]]. Qed.
#[local] Hint Resolve calm_recv_message : calm.
Lemma calm_read_selected t : calm (read_selected tick crand malloc_ok zlib_uncompress t : M _).
Proof. unfold read_selected, revalidate. calm_auto. Qed.
Lemma calm_find_pending infos : calm (find_pending infos : M _).
Proof. induction infos as [|t l IH]; cbn [find_pending]; calm_auto. Qed.
#[local] Hint Resolve calm_read_selected calm_find_pending : calm.
Lemma calm_wait_link fd infos : calm (wait_link fd infos : M _).
Proof.
  assert (Hl : forall fds rv, calm (drain_ready fd fds rv : M _)).
  { induction fds as [|x l IH]; intros rv; cbn [drain_ready]; calm_auto; auto. }
  unfold wait_link. calm_auto.
Qed.
#[local] Hint Resolve calm_wait_link : calm.
Lemma calm_fill : calm (softether_fill_recv_queue tick crand malloc_ok zlib_uncompress : M _).
Proof. unfold softether_fill_recv_queue, softether_fill_recv_queue_locked. calm_auto. Qed.

(** ** A pass of the receive queue uses an event or changes nothing *)

Lemma St_inv {A B} (m : M A) (f : A -> M B) w b w' :
  (m ≫= f) w = Ok (b, w') -> exists a w1, m w = Ok (a, w1) /\ f a w1 = Ok (b, w').
Proof. unfold mbind, St_bind. destruct (m w) as [| |[a w1]]; [done|done|eauto]. Qed.

Definition used w w' : Prop := (evs w' < evs w)%nat \/ w_conn w' = w_conn w.

Lemma link_io_live_same slot ssl fd w b w' : link_io_live slot ssl fd w = Ok (b, w') -> w' = w.
Proof.
  unfold link_io_live. case_match; [by intros [= _ <-]|]. intros E. apply St_inv in E as (ts & w1 & E1 & [= _ <-]).
  revert E1. unfold get_slot. repeat case_match; try done. by intros [= _ <-].
Qed.

Lemma has_pending_used p w b w' : ssl_has_pending p w = Ok (b, w') ->
  w_conn w' = w_conn w /\ (b = true -> evs w' < evs w)%nat.
Proof.
  unfold ssl_has_pending. case_match; [by intros [= <- <-]|]. intros E. apply St_inv in E as ([] & w1 & E1 & E2).
  revert E1. unfold deref_ssl. case_decide; [done|]. intros [= <-]. revert E2. unfold sys_pending.
  destruct (w_pending w) as [|x l] eqn:E; intros [= <- <-]; [done|]. split; [done|]. intros _.
  unfold evs. cbn. rewrite E. cbn. lia.
Qed.

Lemma find_pending_used infos w r w' : find_pending infos w = Ok (r, w') ->
  w_conn w' = w_conn w /\ (r <> None -> evs w' < evs w)%nat.
Proof.
  revert w. induction infos as [|t l IH]; intros w; cbn [find_pending]; [by intros [= <- <-]|].
  intros E. apply St_inv in E as (live & w1 & E1 & E). apply link_io_live_same in E1 as ->.
  apply St_inv in E as (pend & w2 & E2 & E3).
  assert (Hp : w_conn w2 = w_conn w /\ (pend = true -> evs w2 < evs w)%nat).
  { destruct live; [by eapply has_pending_used|]. by injection E2 as <- <-. }
  destruct Hp as [Hc Hlt]. destruct pend.
  - injection E3 as <- <-. split; [done|auto].
  - apply IH in E3 as [Hc3 Hn]. split; [congruence|]. intros Hr. specialize (Hn Hr).
    assert (evs w2 <= evs w)%nat; [|lia].
    destruct live; [by eapply calm_has_pending in E2 as [? _]|by injection E2 as <-].
Qed.

Lemma poll_used fds w p w' : sys_poll fds w = Ok (p, w') ->
  w_conn w' = w_conn w /\ rudp_on w' = rudp_on w /\ (p.1 = 0 \/ (evs w' < evs w)%nat).
Proof.
  unfold sys_poll. destruct (w_polls w) as [|[|ev] l] eqn:E; intros [= <- <-]; (split; [done|]); (split; [done|]);
    first [by left|right; unfold evs; cbn; rewrite E; cbn; lia].
Qed.

Lemma drain_off n w : rudp_on w = false -> drain_rudp_into_recv_queue n w = Ok (0, w).
Proof.
  intros Hr. unfold drain_rudp_into_recv_queue. rewrite (St_step _ _ _ (rudp_on w) w) by done. by rewrite Hr.
Qed.

Lemma wait_link_used fd infos w ch w' : wait_link fd infos w = Ok (ch, w') ->
  (evs w' < evs w)%nat \/ w_conn w' = w_conn w /\ exists rc, ch = Return rc.
Proof.
  unfold wait_link. cbv zeta. intros E. apply St_inv in E as (p & w1 & E1 & E).
  apply poll_used in E1 as (Hc & _ & Hp). destruct (p.1 =? 0) eqn:E0.
  - injection E as <- <-. right. split; [done|]. by eexists.
  - destruct Hp as [Hp|Hp]; [lia|]. left.
    enough (Hcm : (evs w' <= evs w1)%nat) by lia.
    revert E. match goal with |- ?m w1 = _ -> _ => assert (Hm : calm m) end; [|intros E; by eapply Hm in E as [? _]].
    assert (Hl : forall fds rv, calm (drain_ready fd fds rv : M _)).
    { induction fds as [|x l IH]; intros rv; cbn [drain_ready]; calm_auto; auto. }
    calm_auto.
Qed.

Lemma fill_used w rc w' : rudp_on w = false ->
  softether_fill_recv_queue tick crand malloc_ok zlib_uncompress w = Ok (rc, w') -> used w w'.
Proof.
  intros Hoff. unfold softether_fill_recv_queue, softether_fill_recv_queue_locked. intros E.
  apply St_inv in E as (c & w1 & [= <- <-] & E).
  case_match; [injection E as <- <-; by right|]. case_match; [injection E as <- <-; by right|].
  rewrite (St_step _ _ _ 0 w) in E by by apply drain_off. cbn [Z.gtb Z.compare] in E.
  apply St_inv in E as (on & w1 & [= <- <-] & E). rewrite Hoff in E.
  apply St_inv in E as (fd & w1 & [= <- <-] & E). apply St_inv in E as (c & w1 & [= <- <-] & E). cbv zeta in E.
  apply St_inv in E as ([] & w1 & E1 & E).
  assert (w1 = w) as -> by (revert E1; unfold room, lift; destruct (_ <=? _); [by intros [= ->]|done]). clear E1.
  case_match; [injection E as <- <-; by right|]. apply St_inv in E as (pend & w1 & E1 & E).
  assert (Hp : w_conn w1 = w_conn w /\ (evs w1 <= evs w)%nat /\ (pend <> None -> evs w1 < evs w)%nat).
  { destruct (c_use_ssl_data (w_conn w)); [|injection E1 as <- <-; done]. pose proof (find_pending_used _ _ _ _ E1) as [? ?].
    by eapply calm_find_pending in E1 as [? _]. }
  destruct Hp as (Hc & Hle & Hlt). destruct pend as [t|].
  - left. eapply calm_read_selected in E as [? _]. specialize (Hlt ltac:(done)). lia.
  - apply St_inv in E as (ch & w2 & E2 & E). apply wait_link_used in E2 as [Hlt2|[Hc2 [rc2 ->]]].
    + left. assert (evs w' <= evs w2)%nat; [|lia].
      destruct ch; [by eapply calm_read_selected in E as [? _]|by injection E as <- <-].
    + injection E as <- <-. right. congruence.
Qed.
End conn.
