(* ===== verification/Dhcp.v ===== *)
(** * The DHCP client (dhcp_client.c)

    DISCOVER / OFFER / REQUEST / ACK over raw Ethernet frames of the tunnel:
    the frames the client builds, the parser of the answers, the wait for an
    answer and the exchange with its three attempts.

    The checksum adds the header's bytes two at a time in the byte order of the
    machine, a parameter. A frame is the list of its bytes; an access outside
    it is [Ub]. Where one expression calls [rand] twice the left call comes
    first. *)
From stdpp Require Import functions.
From S2P Require Import Prelude Bytes Ring Crypto Conn Channel Receive Tunnel.

Definition ETH_HLEN : Z := 14.
Definition ETH_P_IP : Z := 0x0800.
Definition IP_HLEN : Z := 20.
Definition IP_PROTO_UDP : Z := 17.
Definition UDP_HLEN : Z := 8.
Definition DHCP_BOOTREQUEST : Z := 1.
Definition DHCP_BOOTREPLY : Z := 2.
Definition DHCP_HTYPE_ETH : Z := 1.
Definition DHCP_HLEN_ETH : Z := 6.
Definition DHCP_MAGIC_COOKIE : Z := 0x63825363.
Definition DHCP_MIN_LEN : Z := 236.
Definition DHCP_DISCOVER : Z := 1.
Definition DHCP_OFFER : Z := 2.
Definition DHCP_REQUEST : Z := 3.
Definition DHCP_ACK : Z := 5.
Definition DHCP_NAK : Z := 6.
Definition OPT_SUBNET_MASK : Z := 1.
Definition OPT_ROUTER : Z := 3.
Definition OPT_DNS_SERVER : Z := 6.
Definition OPT_REQUESTED_IP : Z := 50.
Definition OPT_LEASE_TIME : Z := 51.
Definition OPT_MSG_TYPE : Z := 53.
Definition OPT_SERVER_ID : Z := 54.
Definition OPT_PARAM_REQUEST : Z := 55.
Definition OPT_END : Z := 255.
Definition DHCP_MAX_FRAME : Z := 600.
Definition DHCP_TIMEOUT_MS : Z := 5000.
Definition DHCP_MAX_RETRIES : nat := 3.
(** The array the DHCP payload is built in, and the poll interval. *)
Definition DHCP_BODY_CAP : Z := 308.
Definition POLL_INTERVAL : Z := 100.

(** [dhcp_result_t] *)
Record dhcp_result := Result {
  d_assigned_ip : Z; d_subnet_mask : Z; d_gateway : Z; d_dns_server : Z; d_dns_server2 : Z;
  d_lease_time : Z; d_success : bool }.
#[export] Instance eta_dhcp_result : Eta dhcp_result := fun r => Result
  (d_assigned_ip r) (d_subnet_mask r) (d_gateway r) (d_dns_server r) (d_dns_server2 r)
  (d_lease_time r) (d_success r).
Definition result_zero : dhcp_result := Result 0 0 0 0 0 0 false.

(** ** The header checksum *)

Section checksum.
Context (little_endian : bool).

(** A [uint16_t] in memory. *)
Definition native_word (a b : Z) : Z := if little_endian then a + 256 * b else 256 * a + b.
Definition native_bytes (v : Z) : list Z :=
  if little_endian then [byte_of v 0; byte_of v 8] else [byte_of v 8; byte_of v 0].

Fixpoint sum_words (sum : Z) (data : list Z) : Z :=
  match data with
  | a :: b :: rest => sum_words (u32 (sum + native_word a b)) rest
  | [a] => u32 (sum + a)
  | [] => sum
  end.

Definition ip_checksum (data : list Z) : Z :=
  let sum := sum_words 0 data in
  let sum := u32 (sum ≫ 16 + Z.land sum 65535) in
  let sum := u32 (sum + sum ≫ 16) in
  u16 (Z.lnot sum).

(** ** Building a frame *)

Definition dhcp_options (msg_type requested_ip server_id : Z) : list Z :=
  [OPT_MSG_TYPE; 1; msg_type] ++
  (if msg_type =? DHCP_REQUEST then
     (if negb (requested_ip =? 0) then [OPT_REQUESTED_IP; 4] ++ w32 requested_ip else []) ++
     (if negb (server_id =? 0) then [OPT_SERVER_ID; 4] ++ w32 server_id else [])
   else []) ++
  [OPT_PARAM_REQUEST; 4; OPT_SUBNET_MASK; OPT_ROUTER; OPT_DNS_SERVER; OPT_LEASE_TIME] ++ [OPT_END].

Definition dhcp_body (src_mac : list Z) (xid msg_type requested_ip server_id : Z) : res (list Z) :=
  mac ← fetch 0 6 src_mac;
  let dhcp := [DHCP_BOOTREQUEST; DHCP_HTYPE_ETH; DHCP_HLEN_ETH; 0] ++ w32 xid ++ [0; 0; 0x80; 0x00] ++
              zeros 16 ++ mac ++ zeros 202 ++ [0x63; 0x82; 0x53; 0x63] ++
              dhcp_options msg_type requested_ip server_id in
  if len dhcp <=? DHCP_BODY_CAP then Ok dhcp else Ub.

Definition udp_header (udp_len : Z) : list Z := [0; 68; 0; 67] ++ w16 udp_len ++ [0; 0].

(** The header around the checksum [c]. *)
Definition ip_header_with (ip_total_len id0 id1 : Z) (c : list Z) : list Z :=
  [0x45; 0] ++ w16 ip_total_len ++ [id0; id1; 0; 0; 128; IP_PROTO_UDP] ++ c ++
  [0; 0; 0; 0] ++ [255; 255; 255; 255].
Definition ip_header (ip_total_len id0 id1 : Z) : list Z :=
  ip_header_with ip_total_len id0 id1
    (native_bytes (ip_checksum (ip_header_with ip_total_len id0 id1 [0; 0]))).

Section build.
Context {U : Type} (crand : nat -> Z).

(** The bytes of the frame, or [None] for the result -1. *)
Definition build_dhcp_frame (max_len : Z) (src_mac : list Z) (xid msg_type requested_ip server_id : Z) :
  St (cworld U) (option (list Z)) :=
  dhcp ← lift (dhcp_body src_mac xid msg_type requested_ip server_id);
  let udp_len := UDP_HLEN + len dhcp in
  let ip_total_len := IP_HLEN + udp_len in
  r4 ← c_rand crand;
  r5 ← c_rand crand;
  let ip := ip_header ip_total_len (Z.land r4 255) (Z.land r5 255) in
  let total_len := ETH_HLEN + ip_total_len in
  if total_len >? max_len then mret None else
  mac ← lift (fetch 0 6 src_mac);
  mret (Some (eth_frame (replicate 6 0xFF) mac ETH_P_IP (ip ++ udp_header udp_len ++ dhcp))).
End build.
End checksum.

(** ** Parsing an answer *)

(** What the parser keeps: the message type, the result and the server id. *)
Record reply := Reply { y_type : Z; y_result : dhcp_result; y_server_id : Z }.
#[export] Instance eta_reply : Eta reply := fun y => Reply (y_type y) (y_result y) (y_server_id y).

Definition byte_at (i : Z) (l : list Z) : res Z := b ← fetch i 1 l; Ok (hd 0 b).
Definition word_at (i : Z) (l : list Z) : res Z := b ← fetch i 4 l; Ok (r32 b).

(** The [switch] on one option of [opt_len] bytes at [pos]. *)
Definition parse_option (dhcp : list Z) (opt pos opt_len : Z) (y : reply) : res reply :=
  if opt =? OPT_MSG_TYPE then
    if opt_len >=? 1 then v ← byte_at pos dhcp; Ok (y <| y_type := v |>) else Ok y
  else if opt =? OPT_SUBNET_MASK then
    if opt_len >=? 4 then v ← word_at pos dhcp; Ok (y <| y_result := (y_result y) <| d_subnet_mask := v |> |>)
    else Ok y
  else if opt =? OPT_ROUTER then
    if opt_len >=? 4 then v ← word_at pos dhcp; Ok (y <| y_result := (y_result y) <| d_gateway := v |> |>)
    else Ok y
  else if opt =? OPT_DNS_SERVER then
    y ← (if opt_len >=? 4 then v ← word_at pos dhcp; Ok (y <| y_result := (y_result y) <| d_dns_server := v |> |>)
         else Ok y);
    if opt_len >=? 8 then v ← word_at (pos + 4) dhcp; Ok (y <| y_result := (y_result y) <| d_dns_server2 := v |> |>)
    else Ok y
  else if opt =? OPT_LEASE_TIME then
    if opt_len >=? 4 then v ← word_at pos dhcp; Ok (y <| y_result := (y_result y) <| d_lease_time := v |> |>)
    else Ok y
  else if opt =? OPT_SERVER_ID then
    if opt_len >=? 4 then v ← word_at pos dhcp; Ok (y <| y_server_id := v |>) else Ok y
  else Ok y.

(** Every pass moves on by a byte at least. *)
Fixpoint options_loop (fuel : nat) (dhcp : list Z) (dhcp_len opt_pos : Z) (y : reply) : res reply :=
  match fuel with
  | O => Err
  | S fuel =>
      if negb (opt_pos <? dhcp_len) then Ok y else
      opt ← byte_at opt_pos dhcp;
      let opt_pos := u32 (opt_pos + 1) in
      if opt =? OPT_END then Ok y else
      if opt =? 0 then options_loop fuel dhcp dhcp_len opt_pos y else
      if opt_pos >=? dhcp_len then Ok y else
      opt_len ← byte_at opt_pos dhcp;
      let opt_pos := u32 (opt_pos + 1) in
      if u32 (opt_pos + opt_len) >? dhcp_len then Ok y else
      y ← parse_option dhcp opt opt_pos opt_len y;
      options_loop fuel dhcp dhcp_len (u32 (opt_pos + opt_len)) y
  end.

(** From the BOOTP header on. *)
Definition parse_payload (dhcp : list Z) (dhcp_len expected_xid : Z) (client_mac : list Z)
  (result : dhcp_result) (server_id : Z) : res reply :=
  let y := Reply 0 result server_id in
  op ← byte_at 0 dhcp;
  if negb (op =? DHCP_BOOTREPLY) then Ok y else
  xid ← word_at 4 dhcp;
  if negb (xid =? expected_xid) then Ok y else
  chaddr ← fetch 28 6 dhcp;
  mac ← fetch 0 6 client_mac;
  if negb (bool_decide (chaddr = mac)) then Ok y else
  yiaddr ← word_at 16 dhcp;
  let y := y <| y_result := result <| d_assigned_ip := yiaddr |> |> in
  magic ← word_at 236 dhcp;
  if negb (magic =? DHCP_MAGIC_COOKIE) then Ok y else
  options_loop (S (Z.to_nat dhcp_len)) dhcp dhcp_len 240 y.

(** The type is 0 when the frame is not an answer; [result] may have changed. *)
Definition parse_dhcp_response (frame : list Z) (expected_xid : Z) (client_mac : list Z)
  (result : dhcp_result) (server_id : Z) : res reply :=
  let frame_len := len frame in
  let y := Reply 0 result server_id in
  if frame_len <? ETH_HLEN + IP_HLEN + UDP_HLEN + DHCP_MIN_LEN + 4 then Ok y else
  ethertype ← fetch 12 2 frame;
  if negb (r16 ethertype =? ETH_P_IP) then Ok y else
  ip0 ← byte_at ETH_HLEN frame;
  if negb (ip0 ≫ 4 =? 4) then Ok y else
  proto ← byte_at (ETH_HLEN + 9) frame;
  if negb (proto =? IP_PROTO_UDP) then Ok y else
  let ip_hlen := Z.land ip0 15 * 4 in
  let udp := ETH_HLEN + ip_hlen in
  src_port ← fetch udp 2 frame;
  dst_port ← fetch (udp + 2) 2 frame;
  if negb (r16 src_port =? 67) || negb (r16 dst_port =? 68) then Ok y else
  let dhcp_len := u32 (frame_len - ETH_HLEN - ip_hlen - UDP_HLEN) in
  if dhcp_len <? DHCP_MIN_LEN + 4 then Ok y else
  dhcp ← fetch (udp + UDP_HLEN) dhcp_len frame;
  parse_payload dhcp dhcp_len expected_xid client_mac result server_id.

Section exchange.
Context {U : Type} `{Accelerator U}.
Context (tick crand : nat -> Z) (malloc_ok : Z -> bool)
        (zlib_compress zlib_uncompress : list Z -> Z -> option (list Z)) (zlib_bound : Z -> Z)
        (little_endian : bool).
Abbreviation M := (St (cworld U)).

Definition send_raw : list Z -> M Z := softether_send_raw crand malloc_ok zlib_compress zlib_bound.

Definition send_gratuitous_arp (assigned_ip : Z) : M unit :=
  if assigned_ip =? 0 then mret tt else
  c ← get_conn;
  _ ← send_raw (eth_frame (replicate 6 0xFF) (c_client_mac c) ETH_TYPE_ARP
        (arp_body 1 (c_client_mac c) (w32 assigned_ip) (zeros 6) (w32 assigned_ip)));
  mret tt.

(** ** Waiting *)

(** The descriptors the wait polls. *)
Definition dhcp_fds : M (list Z) :=
  c ← get_conn;
  on ← gets rudp_on;
  udp_fd ← (if (on : bool) then with_rudp ac_fd else mret (-1));
  mret ((if can_receive (c_primary_direction c) then [c_socket_fd c] else []) ++
        map ts_fd (filter (fun ts => (ts_active ts && (ts_fd ts >=? 0) && can_receive (ts_direction ts)) = true)
                          (c_additional c)) ++
        (if udp_fd >=? 0 then [udp_fd] else [])).

(** What a pass of the wait does before it receives. *)
Inductive readiness : Type := Ready | Idle | Broken.

Definition dhcp_ready : M readiness :=
  c ← get_conn;
  if negb (c_recv_queue_count c >? 0) && (c_socket_fd c >=? 0) then
    fds ← dhcp_fds;
    room (2 + MAX_SE_CONNECTIONS) (len fds) ;;
    if len fds =? 0 then mret Idle else
    p ← sys_poll fds;
    mret (if p.1 <? 0 then Broken else if p.1 =? 0 then Idle else Ready)
  else mret Ready.

(** The outcome: the message type, or 0 for a timeout and -1 for an error, and
    what the parser stored. [elapsed] grows in passes without a frame only. *)
Fixpoint wait_loop (fuel : nat) (elapsed : Z) (xid : Z) (result : dhcp_result) (server_id timeout_ms : Z) : M reply :=
  match fuel with
  | O => fun _ => Err
  | S fuel =>
      if negb (elapsed <? timeout_ms) then mret (Reply 0 result server_id) else
      ready ← dhcp_ready;
      match ready with
      | Broken => mret (Reply (-1) result server_id)
      | Idle => wait_loop fuel (elapsed + POLL_INTERVAL) xid result server_id timeout_ms
      | Ready =>
          r ← softether_receive_raw tick crand malloc_ok zlib_uncompress 2048;
          if r.1 <? 0 then mret (Reply (-1) result server_id) else
          if len r.2 =? 0 then wait_loop fuel (elapsed + POLL_INTERVAL) xid result server_id timeout_ms else
          c ← get_conn;
          y ← lift (parse_dhcp_response r.2 xid (c_client_mac c) result server_id);
          if y_type y >? 0 then mret y
          else wait_loop fuel elapsed xid (y_result y) (y_server_id y) timeout_ms
      end
  end.

Definition wait_dhcp_response (fuel : nat) (xid : Z) (result : dhcp_result) (server_id timeout_ms : Z) : M reply :=
  wait_loop fuel 0 xid result server_id timeout_ms.

(** ** The exchange *)

(** [rand() << 16 ^ rand()] *)
Definition draw_xid : M Z :=
  a ← c_rand crand; b ← c_rand crand; mret (Z.lxor (u32 (u32 a ≪ 16)) (u32 b)).

(** A frame built in the local array and sent; false for a failure. *)
Definition send_dhcp (xid msg_type requested_ip server_id : Z) : M bool :=
  c ← get_conn;
  f ← build_dhcp_frame little_endian crand DHCP_MAX_FRAME (c_client_mac c) xid msg_type requested_ip server_id;
  match f with
  | None => mret false
  | Some frame => r ← send_raw frame; mret (negb (r <? 0))
  end.

(** The attempts left; the return value and the result. [fuel] bounds the
    passes of one wait. *)
Fixpoint dhcp_attempts (fuel n : nat) (xid : Z) (result : dhcp_result) (server_id : Z) : M (Z * dhcp_result) :=
  match n with
  | O => mret (-1, result)
  | S n =>
      c ← get_conn;
      if c_abort_connect c then mret (-1, result) else
      sent ← send_dhcp xid DHCP_DISCOVER 0 0;
      if negb sent then mret (-1, result) else
      y ← wait_dhcp_response fuel xid result server_id DHCP_TIMEOUT_MS;
      if y_type y <? 0 then mret (-1, y_result y) else
      if negb (y_type y =? DHCP_OFFER) then dhcp_attempts fuel n xid (y_result y) (y_server_id y) else
      sent ← send_dhcp xid DHCP_REQUEST (d_assigned_ip (y_result y)) (y_server_id y);
      if negb sent then mret (-1, y_result y) else
      y ← wait_dhcp_response fuel xid (y_result y) (y_server_id y) DHCP_TIMEOUT_MS;
      if y_type y <? 0 then mret (-1, y_result y) else
      if y_type y =? DHCP_ACK then
        let result := (y_result y) <| d_success := true |> in
        send_gratuitous_arp (d_assigned_ip result) ;; mret (0, result)
      else if y_type y =? DHCP_NAK then mret (-1, y_result y)
      else dhcp_attempts fuel n xid (y_result y) (y_server_id y)
  end.

(** [None]: the result is not touched. *)
Definition softether_do_dhcp (fuel : nat) : M (Z * option dhcp_result) :=
  c ← get_conn;
  if negb (bool_decide (c_state c = STATE_CONNECTED)) then mret (-1, None) else
  xid ← draw_xid;
  r ← dhcp_attempts fuel DHCP_MAX_RETRIES xid result_zero 0;
  mret (r.1, Some r.2).
End exchange.
