(* ===== verification/DhcpSpec.v ===== *)
(** * The DHCP client: what the code guarantees

    The parser agrees with a list-based reference decoder on every frame, the
    frames the client builds are valid and say what was asked, an answer built
    by a server is read back, the exchange returns when traffic stops, and the
    wait alone never gives up while frames keep coming. *)
From stdpp Require Import functions.
From S2P Require Import Prelude Bytes Ring Crypto Conn ConnInv WorldInv ConnEx Channel ChannelInv Receive ReceiveInv.
From S2P Require Import Tunnel TunnelInv Dhcp.

(** ** The reference decoder *)

(** The options of a byte string: code and value, pads left out, up to the end
    mark or the first option that is cut off. *)
Fixpoint tlv (fuel : nat) (l : list Z) : list (Z * list Z) :=
  match fuel, l with
  | S fuel, code :: l =>
      if code =? OPT_END then [] else if code =? 0 then tlv fuel l else
      match l with
      | [] => []
      | n :: l => if n >? len l then [] else (code, tk n l) :: tlv fuel (dr n l)
      end
  | _, _ => []
  end.
Definition options_of (l : list Z) : list (Z * list Z) := tlv (length l) l.

(** One option taken into what is known; options that are too short are not. *)
Definition absorb (y : reply) (o : Z * list Z) : reply :=
  let n := len o.2 in
  let first := be_dec (slice 0 4 o.2) in
  let r := y_result y in
  if o.1 =? 53 then (if 1 <=? n then y <| y_type := hd 0 o.2 |> else y)
  else if n <? 4 then y
  else if o.1 =? 1 then y <| y_result := r <| d_subnet_mask := first |> |>
  else if o.1 =? 3 then y <| y_result := r <| d_gateway := first |> |>
  else if o.1 =? 6 then
    let r := r <| d_dns_server := first |> in
    y <| y_result := if 8 <=? n then r <| d_dns_server2 := be_dec (slice 4 4 o.2) |> else r |>
  else if o.1 =? 51 then y <| y_result := r <| d_lease_time := first |> |>
  else if o.1 =? 54 then y <| y_server_id := first |>
  else y.

(** The payload of a UDP datagram from port 67 to port 68 in an IPv4 frame. *)
Definition dhcp_payload (frame : list Z) : option (list Z) :=
  let vihl := hd 0 (dr 14 frame) in
  let udp := dr (14 + 4 * (vihl mod 16)) frame in
  if (282 <=? len frame) && bool_decide (slice 12 2 frame = [8; 0]) && (vihl / 16 =? 4) &&
     (hd 0 (dr 23 frame) =? 17) && bool_decide (tk 4 udp = [0; 67; 0; 68]) && (240 <=? len (dr 8 udp))
  then Some (dr 8 udp) else None.

Definition parse_ref (frame : list Z) (xid : Z) (mac : list Z) (result : dhcp_result) (server_id : Z) : reply :=
  match dhcp_payload frame with
  | None => Reply 0 result server_id
  | Some p =>
      if (hd 0 p =? 2) && bool_decide (slice 4 4 p = be_enc 4 xid) && bool_decide (slice 28 6 p = mac) then
        let y := Reply 0 (result <| d_assigned_ip := be_dec (slice 16 4 p) |>) server_id in
        if bool_decide (slice 236 4 p = [0x63; 0x82; 0x53; 0x63]) then foldl absorb y (options_of (dr 240 p)) else y
      else Reply 0 result server_id
  end.

(** ** Reads inside a buffer *)

Lemma fetch_in off n l : 0 <= off -> off + n <= len l -> fetch off n l = Ok (slice off n l).
Proof. intros. unfold fetch. destruct (_ && _) eqn:E; [done|lia]. Qed.
Lemma hd_dr i (l : list Z) : 0 <= i < len l -> hd 0 (slice i 1 l) = hd 0 (dr i l).
Proof.
  intros. unfold slice. assert (Hl : 0 < len (dr i l)) by slia.
  destruct (dr i l); [by cbn in Hl|]. done.
Qed.
Lemma byte_at_in i l : 0 <= i < len l -> byte_at i l = Ok (hd 0 (dr i l)).
Proof. intros. unfold byte_at. rewrite fetch_in by lia. by rewrite bind_ok, hd_dr. Qed.
Lemma word_at_in i l : 0 <= i -> i + 4 <= len l -> bytes_ok l -> word_at i l = Ok (be_dec (slice i 4 l)).
Proof.
  intros. unfold word_at. rewrite fetch_in by lia. rewrite bind_ok, r32_dec'; [done|auto with bytes|slia].
Qed.
Lemma byte_at_ok i l : bytes_ok l -> 0 <= hd 0 (dr i l) < 256.
Proof. intros H. apply (bytes_ok_dr i) in H. destruct (dr i l); [cbn; lia|]. by apply Forall_cons_1 in H as [? _]. Qed.

(** Comparing a decoded number is comparing the bytes. *)
Lemma be_dec_eqb (n : nat) x v : bytes_ok x -> len x = Z.of_nat n -> 0 <= v < 256 ^ Z.of_nat n ->
  (be_dec x =? v) = bool_decide (x = be_enc n v).
Proof.
  intros Hb Hl Hv. case_bool_decide as E.
  - apply Z.eqb_eq. rewrite E. by apply be_dec_enc.
  - apply Z.eqb_neq. intros <-. apply E. replace n with (length x) by (unfold len in Hl; lia).
    symmetry. by apply be_enc_dec.
Qed.

(** ** The options *)

Lemma parse_option_ref dhcp opt pos n y : 0 <= pos -> 0 <= n -> pos + n <= len dhcp -> bytes_ok dhcp ->
  parse_option dhcp opt pos n y = Ok (absorb y (opt, slice pos n dhcp)).
Proof.
  intros Hp Hn Hl Hb.
  assert (Hlen : len (slice pos n dhcp) = n) by slia.
  assert (Hw : forall i, 0 <= i -> i + 4 <= n ->
    word_at (pos + i) dhcp = Ok (be_dec (slice i 4 (slice pos n dhcp)))).
  { intros. rewrite slice_slice by lia. apply word_at_in; [lia|lia|done]. }
  assert (Hw0 : 4 <= n -> word_at pos dhcp = Ok (be_dec (slice 0 4 (slice pos n dhcp)))).
  { intros. rewrite <- (Hw 0) by lia. f_equal. lia. }
  assert (Hb0 : 1 <= n -> byte_at pos dhcp = Ok (hd 0 (slice pos n dhcp))).
  { intros. rewrite byte_at_in by lia. unfold slice, tk. assert (Hd : 0 < len (dr pos dhcp)) by slia.
    destruct (dr pos dhcp); [by cbn in Hd|]. replace (Z.to_nat n) with (S (Z.to_nat (n - 1))) by lia. done. }
  unfold parse_option, absorb, OPT_MSG_TYPE, OPT_SUBNET_MASK, OPT_ROUTER, OPT_DNS_SERVER, OPT_LEASE_TIME, OPT_SERVER_ID.
  cbn [fst snd]. rewrite Hlen. cbv zeta. rewrite !Z.geb_leb.
  destruct (opt =? 53). { destruct (1 <=? n) eqn:E; [|done]. by rewrite Hb0 by lia. }
  destruct (n <? 4) eqn:E4.
  - rewrite (proj2 (Z.leb_gt 4 n)), (proj2 (Z.leb_gt 8 n)) by lia. by repeat case_match.
  - rewrite (proj2 (Z.leb_le 4 n)) by lia. rewrite Hw0 by lia. rewrite !bind_ok.
    destruct (opt =? 1); [done|]. destruct (opt =? 3); [done|]. destruct (opt =? 6); [|by repeat case_match].
    destruct (8 <=? n) eqn:E8; [|done]. by rewrite Hw by lia.
Qed.

Lemma options_loop_ref dhcp fuel fuel' pos y :
  bytes_ok dhcp -> len dhcp < 2 ^ 31 -> 0 <= pos <= len dhcp ->
  len dhcp - pos < Z.of_nat fuel -> len dhcp - pos <= Z.of_nat fuel' ->
  options_loop fuel dhcp (len dhcp) pos y = Ok (foldl absorb y (tlv fuel' (dr pos dhcp))).
Proof.
  intros Hb Hn. revert fuel' pos y. induction fuel as [|fuel IH]; intros fuel' pos y Hp Hf Hf'; [lia|].
  cbn [options_loop]. destruct (pos <? len dhcp) eqn:E; cbn [negb].
  2: { rewrite dr_all by lia. by destruct fuel'. }
  destruct fuel' as [|fuel']; [lia|]. rewrite (byte_at_in pos) by lia. rewrite bind_ok.
  assert (Hd : dr pos dhcp = hd 0 (dr pos dhcp) :: dr (pos + 1) dhcp).
  { rewrite <- dr_dr by lia. assert (0 < len (dr pos dhcp)) by slia. by destruct (dr pos dhcp). }
  pose proof (byte_at_ok pos dhcp Hb). rewrite Hd at 3. set (opt := hd 0 (dr pos dhcp)) in *. cbn [tlv].
  assert (Hu : u32 (pos + 1) = pos + 1) by (unfold u32; rewrite Z.mod_small; lia). rewrite Hu.
  destruct (opt =? OPT_END); [done|]. destruct (opt =? 0); [apply IH; lia|].
  destruct (pos + 1 >=? len dhcp) eqn:E1; [by rewrite dr_all by lia|].
  rewrite (byte_at_in (pos + 1)) by lia. rewrite bind_ok.
  assert (Hd1 : dr (pos + 1) dhcp = hd 0 (dr (pos + 1) dhcp) :: dr (pos + 2) dhcp).
  { replace (pos + 2) with (pos + 1 + 1) by lia. rewrite <- (dr_dr 1 (pos + 1)) by lia.
    assert (0 < len (dr (pos + 1) dhcp)) by slia. by destruct (dr (pos + 1) dhcp). }
  pose proof (byte_at_ok (pos + 1) dhcp Hb). set (n := hd 0 (dr (pos + 1) dhcp)) in *. rewrite Hd1.
  assert (Hu1 : u32 (pos + 1 + 1) = pos + 2) by (unfold u32; rewrite Z.mod_small; lia). rewrite Hu1.
  assert (Hu2 : u32 (pos + 2 + n) = pos + 2 + n) by (unfold u32; rewrite Z.mod_small; lia). rewrite Hu2.
  assert (Hg : (n >? len (dr (pos + 2) dhcp)) = (pos + 2 + n >? len dhcp)) by (rewrite !Z.gtb_ltb; slia).
  rewrite Hg. destruct (pos + 2 + n >? len dhcp) eqn:E2; [done|].
  rewrite parse_option_ref by (lia || done). rewrite bind_ok. cbn [foldl]. rewrite dr_dr by lia.
  apply IH; lia.
Qed.

(** ** The headers *)

Lemma fetch_r16 off v l : 0 <= off -> off + 2 <= len l -> bytes_ok l -> 0 <= v < 2 ^ 16 ->
  exists x, fetch off 2 l = Ok x /\ (r16 x =? v) = bool_decide (slice off 2 l = be_enc 2 v).
Proof.
  intros. rewrite fetch_in by lia. eexists. split; [done|].
  assert (len (slice off 2 l) = 2) by slia. assert (bytes_ok (slice off 2 l)) by auto with bytes.
  rewrite r16_dec' by done. by apply be_dec_eqb.
Qed.

(** Four bytes compared at once are two compared twice. *)
Lemma ports_eq off l : 0 <= off -> off + 4 <= len l ->
  bool_decide (tk 4 (dr off l) = [0; 67; 0; 68]) =
  bool_decide (slice off 2 l = [0; 67]) && bool_decide (slice (off + 2) 2 l = [0; 68]).
Proof.
  intros. change (tk 4 (dr off l)) with (slice off (2 + 2) l). rewrite slice_split by lia.
  assert (len (slice off 2 l) = 2) by slia. assert (Hl : length (slice off 2 l) = 2%nat) by (unfold len in *; lia).
  rewrite <- bool_decide_and. apply bool_decide_ext. split; [|by intros [-> ->]].
  intros E. apply (app_inj_1 _ [0; 67] _ [0; 68]) in E; [done|by rewrite Hl].
Qed.

Lemma parse_payload_ref p xid mac result server_id :
  bytes_ok p -> 240 <= len p < 2 ^ 31 -> 0 <= xid < 2 ^ 32 -> len mac = 6 ->
  parse_payload p (len p) xid mac result server_id =
  Ok (if (hd 0 p =? 2) && bool_decide (slice 4 4 p = be_enc 4 xid) && bool_decide (slice 28 6 p = mac) then
        let y := Reply 0 (result <| d_assigned_ip := be_dec (slice 16 4 p) |>) server_id in
        if bool_decide (slice 236 4 p = [0x63; 0x82; 0x53; 0x63]) then foldl absorb y (options_of (dr 240 p)) else y
      else Reply 0 result server_id).
Proof.
  intros Hb Hl Hx Hm. unfold parse_payload. rewrite byte_at_in, dr_0, bind_ok by lia.
  unfold DHCP_BOOTREPLY. destruct (hd 0 p =? 2); [|done]. cbn [andb negb].
  rewrite (word_at_in 4), bind_ok by (lia || done).
  rewrite (be_dec_eqb 4 (slice 4 4 p)) by (auto with bytes || slia).
  destruct (bool_decide (_ = be_enc 4 xid)); [|done]. cbn [andb negb].
  rewrite (fetch_in 28), bind_ok, (fetch_in 0), bind_ok by lia.
  assert (Hmac : slice 0 6 mac = mac) by (unfold slice; rewrite dr_0, tk_all by lia; done). rewrite Hmac.
  destruct (bool_decide (_ = mac)); [|done]. cbn [negb].
  rewrite (word_at_in 16), bind_ok, (word_at_in 236), bind_ok by (lia || done).
  rewrite (be_dec_eqb 4 (slice 236 4 p)) by (auto with bytes || slia || done).
  change (be_enc 4 DHCP_MAGIC_COOKIE) with [0x63; 0x82; 0x53; 0x63].
  cbv zeta. destruct (bool_decide (slice 236 4 p = _)); [|done]. cbn [negb].
  unfold options_of. apply options_loop_ref; [done|lia|lia|lia|]. unfold dr. rewrite length_drop. unfold len in *. lia.
Qed.

Lemma parse_ref_ok (frame : list Z) (xid : Z) (mac : list Z) (result : dhcp_result) (server_id : Z) :
  bytes_ok frame -> len frame < 2 ^ 31 -> 0 <= xid < 2 ^ 32 -> len mac = 6 ->
  parse_dhcp_response frame xid mac result server_id = Ok (parse_ref frame xid mac result server_id).
Proof.
  intros Hb Hl Hx Hm. unfold parse_dhcp_response, parse_ref, dhcp_payload. cbv zeta.
  unfold ETH_HLEN, IP_HLEN, UDP_HLEN, DHCP_MIN_LEN, ETH_P_IP, IP_PROTO_UDP.
  destruct (len frame <? _) eqn:E0. { rewrite (proj2 (Z.leb_gt 282 _)) by lia. done. }
  rewrite (proj2 (Z.leb_le 282 _)) by lia. cbn [andb].
  destruct (fetch_r16 12 0x0800 frame) as (x & -> & Hx2); [lia|lia|done|lia|]. rewrite bind_ok, Hx2.
  change (be_enc 2 0x0800) with [8; 0]. destruct (bool_decide (_ = [8; 0])); [|done]. cbn [andb negb].
  rewrite (byte_at_in 14), bind_ok by lia. pose proof (byte_at_ok 14 frame Hb) as Hv.
  set (v := hd 0 (dr 14 frame)) in *. rewrite Z.shiftr_div_pow2 by lia. change (2 ^ 4) with 16.
  destruct (v / 16 =? 4); [|done]. cbn [andb negb]. rewrite (byte_at_in (14 + 9)), bind_ok by lia.
  destruct (hd 0 (dr (14 + 9) frame) =? 17) eqn:Ep; change (14 + 9) with 23 in Ep; rewrite Ep; [|done]. cbn [andb negb].
  assert (Hih : Z.land v 15 * 4 = 4 * (v mod 16)).
  { change 15 with (Z.ones 4). rewrite Z.land_ones by lia. change (2 ^ 4) with 16. lia. }
  rewrite Hih. pose proof (Z.mod_pos_bound v 16 ltac:(lia)).
  set (u := 14 + 4 * (v mod 16)) in *. assert (Hu : u = 14 + 4 * (v mod 16)) by done. clearbody u.
  destruct (fetch_r16 u 67 frame) as (s & -> & Hs); [lia|lia|done|lia|]. rewrite bind_ok, Hs.
  destruct (fetch_r16 (u + 2) 68 frame) as (d & -> & Hd); [lia|lia|done|lia|]. rewrite bind_ok, Hd.
  change (be_enc 2 67) with [0; 67]. change (be_enc 2 68) with [0; 68].
  rewrite ports_eq by lia. rewrite <- negb_andb. destruct (_ && bool_decide (slice (u + 2) 2 frame = _)); [|done].
  cbn [andb negb]. rewrite dr_dr by lia.
  assert (Hpl : u32 (len frame - 14 - 4 * (v mod 16) - 8) = len (dr (u + 8) frame)).
  { unfold u32. rewrite Z.mod_small by lia. slia. }
  rewrite Hpl. replace (len (dr (u + 8) frame) <? 236 + 4) with (negb (240 <=? len (dr (u + 8) frame)))
    by (rewrite Z.leb_antisym, negb_involutive; done).
  destruct (240 <=? len (dr (u + 8) frame)) eqn:E2; [|done]. cbn [negb].
  rewrite fetch_in by slia. rewrite bind_ok.
  assert (Hsl : slice (u + 8) (len (dr (u + 8) frame)) frame = dr (u + 8) frame) by (unfold slice; by rewrite tk_all by lia).
  rewrite Hsl. apply parse_payload_ref; [auto with bytes|slia|done|done].
Qed.

(** C27: For every frame under 2 GiB the parser reads inside the frame, comes to
    an end, and finds what the reference decoder finds: the BOOTP reply to this
    transaction and hardware address in a UDP datagram from port 67 to 68, and
    of its option list the last complete option of each kind. *)
Theorem dhcp_parse_reference (frame : list Z) (xid : Z) (mac : list Z) (result : dhcp_result) (server_id : Z) :
  bytes_ok frame -> len frame < 2 ^ 31 -> 0 <= xid < 2 ^ 32 -> len mac = 6 ->
  parse_dhcp_response frame xid mac result server_id = Ok (parse_ref frame xid mac result server_id).
Proof. by apply parse_ref_ok. Qed.

(** ** The header checksum *)

Section checksum.
Context (little_endian : bool).
Abbreviation word := (native_word little_endian).

Fixpoint native_sum (l : list Z) : Z :=
  match l with a :: b :: l => word a b + native_sum l | [a] => a | [] => 0 end.

Lemma native_word_bound a b : byte_ok a -> byte_ok b -> 0 <= word a b <= 65535.
Proof. unfold byte_ok, native_word. destruct little_endian; lia. Qed.

Lemma native_sum_bound l : bytes_ok l -> 0 <= native_sum l <= 65535 * len l.
Proof.
  induction l as [|a|a b l IH] using pair_ind; intros Hl; cbn [native_sum].
  - change (len (@nil Z)) with 0. lia.
  - bytes_inv. change (len [a]) with 1. lia.
  - apply Forall_cons_1 in Hl as [Ha Hl]. apply Forall_cons_1 in Hl as [Hb Hl].
    pose proof (native_word_bound a b Ha Hb). specialize (IH Hl). rewrite !len_cons. lia.
Qed.

Lemma sum_words_spec l acc : bytes_ok l -> 0 <= acc -> acc + 65535 * len l < 2 ^ 32 ->
  sum_words little_endian acc l = acc + native_sum l.
Proof.
  revert acc. induction l as [|a|a b l IH] using pair_ind; intros acc Hl Ha Hn; cbn [native_sum sum_words].
  - lia.
  - bytes_inv. change (len [a]) with 1 in Hn. unfold u32. rewrite Z.mod_small; lia.
  - apply Forall_cons_1 in Hl as [Hba Hl]. apply Forall_cons_1 in Hl as [Hbb Hl].
    pose proof (native_word_bound a b Hba Hbb). rewrite !len_cons in Hn. pose proof (len_nonneg l).
    assert (Hu : u32 (acc + word a b) = acc + word a b) by (unfold u32; rewrite Z.mod_small; lia).
    rewrite Hu, IH by (done || lia). lia.
Qed.

(** Ten words at most: two foldings are enough. *)
Lemma ip_checksum_spec l : bytes_ok l -> len l <= 20 ->
  exists c, ip_checksum little_endian l = c /\ 0 <= c <= 65535 /\ exists k, native_sum l + c = 65535 * k.
Proof.
  intros Hb Hl. eexists. split; [done|]. unfold ip_checksum. rewrite sum_words_spec by (done || lia).
  pose proof (native_sum_bound l Hb). rewrite Z.add_0_l. set (s := native_sum l) in *. clearbody s. cbv zeta.
  assert (Hland : Z.land s 65535 = s mod 65536).
  { change 65535 with (Z.ones 16). rewrite Z.land_ones by lia. done. }
  rewrite Hland. rewrite !Z.shiftr_div_pow2 by lia. change (2 ^ 16) with 65536. pose proof (Z.div_mod s 65536 ltac:(lia)) as Hdm.
  pose proof (Z.mod_pos_bound s 65536 ltac:(lia)) as Hmb. set (q := s / 65536) in *. set (m := s mod 65536) in *. clearbody q m.
  assert (Hq : 0 <= q <= 20) by lia.
  assert (Hqm : u32 (q + m) = q + m) by (unfold u32; rewrite Z.mod_small; lia). rewrite Hqm.
  assert (Hd : (q + m) / 65536 = if 65536 <=? q + m then 1 else 0).
  { destruct (65536 <=? q + m) eqn:E; symmetry; [apply (Z.div_unique _ _ _ (q + m - 65536))|apply (Z.div_unique _ _ _ (q + m))]; lia. }
  rewrite Hd. unfold u16. unfold Z.lnot. change (2 ^ 16) with 65536.
  destruct (65536 <=? q + m) eqn:E.
  - assert (Hu : u32 (q + m + 1) = q + m + 1) by (unfold u32; rewrite Z.mod_small; lia). rewrite Hu.
    assert (Hm : Z.pred (- (q + m + 1)) mod 65536 = 131070 - (q + m)).
    { symmetry. apply (Z.mod_unique _ _ (-2)); lia. }
    rewrite Hm. split; [lia|]. exists (q + 2). lia.
  - assert (Hu : u32 (q + m + 0) = q + m) by (unfold u32; rewrite Z.mod_small; lia). rewrite Hu.
    assert (Hm : Z.pred (- (q + m)) mod 65536 = 65535 - (q + m)).
    { symmetry. apply (Z.mod_unique _ _ (-1)); lia. }
    rewrite Hm. split; [lia|]. exists (q + 1). lia.
Qed.

(** The bytes of the checksum as a number, in either byte order. *)
Lemma native_bytes_spec v : 0 <= v <= 65535 ->
  exists c0 c1, native_bytes little_endian v = [c0; c1] /\ byte_ok c0 /\ byte_ok c1 /\ word c0 c1 = v.
Proof.
  intros. unfold native_bytes, native_word. destruct little_endian; do 2 eexists; (split; [done|]);
    rewrite !byte_of_div by lia; (split; [apply byte_ok_u8|]); (split; [apply byte_ok_u8|]); unfold u8;
    change (2 ^ 8) with 256; change (2 ^ 0) with 1; rewrite Z.div_1_r;
    pose proof (Z.div_mod v 256 ltac:(lia)); rewrite (Z.mod_small (v / 256)); try lia;
    split; [apply Z.div_pos|apply Z.div_lt_upper_bound|apply Z.div_pos|apply Z.div_lt_upper_bound]; lia.
Qed.

(** Swapping the bytes of every word multiplies the sum by 256, up to the
    modulus: a sum that vanishes in one byte order vanishes in the other. *)
Lemma ip_header_sum total id0 id1 : byte_ok id0 -> byte_ok id1 ->
  len (ip_header little_endian total id0 id1) = 20 /\ bytes_ok (ip_header little_endian total id0 id1) /\
  words_sum (ip_header little_endian total id0 id1) mod 65535 = 0.
Proof.
  intros H0 H1. unfold ip_header.
  set (z := ip_header_with total id0 id1 [0; 0]).
  assert (Hw : forall c0 c1, byte_ok c0 -> byte_ok c1 -> len (ip_header_with total id0 id1 [c0; c1]) = 20 /\
    bytes_ok (ip_header_with total id0 id1 [c0; c1])).
  { intros c0 c1 Hc0 Hc1. split; [done|]. unfold ip_header_with, w16. cbn [app].
    repeat apply bytes_ok_cons; try apply Forall_nil_2; try apply byte_of_ok; try done. }
  destruct (Hw 0 0) as [Hzl Hzb]; [done|done|]. fold z in Hzl, Hzb.
  destruct (ip_checksum_spec z) as (c & -> & Hc & k & Hk); [done|lia|].
  destruct (native_bytes_spec c Hc) as (c0 & c1 & -> & Hc0 & Hc1 & Hcw).
  destruct (Hw c0 c1 Hc0 Hc1) as [Hl Hb]. split; [done|]. split; [done|].
  unfold z, ip_header_with, w16, IP_PROTO_UDP in *. cbn [app native_sum words_sum] in *.
  unfold native_word in *. destruct little_endian.
  - match goal with |- ?s mod _ = 0 => assert (exists j, s = j * 65535) as [j ->]; [|apply Z.mod_mul; lia] end.
    eexists (256 * k - (0 + byte_of total 0 + id1 + 0 + 17 + c1 + 0 + 0 + 255 + 255)). lia.
  - match goal with |- ?s mod _ = 0 => replace s with (k * 65535) by lia; apply Z.mod_mul; lia end.
Qed.
End checksum.

(** ** Option lists *)

Definition opt_enc (o : Z * list Z) : list Z := o.1 :: len o.2 :: o.2.
Definition opts_enc (os : list (Z * list Z)) : list Z := mjoin (map opt_enc os) ++ [OPT_END].
Definition opt_ok (o : Z * list Z) : Prop := 0 < o.1 < 255 /\ len o.2 < 256 /\ bytes_ok o.2.
#[global] Instance opt_ok_dec o : Decision (opt_ok o).
Proof. unfold opt_ok. apply _. Defined.

Lemma tlv_enc os pad fuel : Forall opt_ok os -> (length (opts_enc os ++ pad) <= fuel)%nat ->
  tlv fuel (opts_enc os ++ pad) = os.
Proof.
  intros Hos. revert fuel. unfold opts_enc. induction Hos as [|[code v] os (Hc & Hl & _) _ IH]; intros fuel Hf.
  - destruct fuel; [cbn in Hf; lia|done].
  - cbn [map mjoin list_join opt_enc fst snd app] in *. destruct fuel as [|fuel]; [cbn in Hf; lia|].
    rewrite <- !app_assoc in *. cbn [app tlv] in *. cbn [fst] in Hc. unfold OPT_END.
    destruct (code =? 255) eqn:E1; [lia|]. destruct (code =? 0) eqn:E2; [lia|].
    change (255 :: pad) with (OPT_END :: pad). set (rest := _ ++ OPT_END :: pad) in *.
    rewrite len_app. pose proof (len_nonneg rest). destruct (len v >? _) eqn:E3; [lia|].
    rewrite tk_app_exact, dr_app_exact by done. f_equal. apply IH. cbn [length] in Hf. rewrite length_app in Hf. lia.
Qed.

Lemma options_enc os pad : Forall opt_ok os -> options_of (opts_enc os ++ pad) = os.
Proof. intros H. by apply tlv_enc. Qed.

Lemma bytes_opts_enc os : Forall opt_ok os -> bytes_ok (opts_enc os).
Proof.
  unfold opts_enc. induction 1 as [|[code v] os (Hc & Hl & Hb) _ IH]; [by constructor|].
  cbn [map mjoin list_join opt_enc fst snd app] in *. rewrite <- ?app_assoc. pose proof (len_nonneg v).
  apply bytes_ok_cons; [unfold byte_ok; lia|]. apply bytes_ok_cons; [unfold byte_ok; lia|]. by apply bytes_ok_app_2.
Qed.

(** ** The frames the client builds *)

(** What a message of a type says: its type, what it asks for, and the
    parameters wanted. *)
Definition asked (msg_type requested_ip server_id : Z) : list (Z * list Z) :=
  [(53, [msg_type])] ++
  (if msg_type =? 3 then
     (if requested_ip =? 0 then [] else [(50, be_enc 4 requested_ip)]) ++
     (if server_id =? 0 then [] else [(54, be_enc 4 server_id)])
   else []) ++ [(55, [1; 3; 6; 51])].

Lemma dhcp_options_enc t ip sid : byte_ok t ->
  dhcp_options t ip sid = opts_enc (asked t ip sid) /\ Forall opt_ok (asked t ip sid) /\
  len (dhcp_options t ip sid) <= 22.
Proof.
  intros Ht. unfold dhcp_options, asked, DHCP_REQUEST.
  assert (Hb : forall v, opt_ok (50, be_enc 4 v) /\ opt_ok (54, be_enc 4 v)).
  { intros v. split; (split; [done|]); cbn [snd]; (split; [by rewrite len_be_enc|apply bytes_ok_be_enc]). }
  assert (H1 : opt_ok (53, [t])) by (split; [done|]; split; [done|]; constructor; [done|constructor]).
  assert (H2 : opt_ok (55, [1; 3; 6; 51])) by (apply (bool_decide_unpack _); vm_compute; exact I).
  destruct (t =? 3); [destruct (ip =? 0); destruct (sid =? 0)|]; rewrite ?w32_enc; (split; [done|]); (split; [|done]);
    cbn [app negb]; repeat (apply Forall_cons_2; [first [done|apply Hb]|]); apply Forall_nil_2.
Qed.

Lemma dhcp_body_ok mac xid t ip sid : len mac = 6 -> bytes_ok mac -> byte_ok t ->
  exists pre body, dhcp_body mac xid t ip sid = Ok body /\ body = pre ++ opts_enc (asked t ip sid) /\
    len pre = 240 /\ bytes_ok body /\ len body <= 262 /\
    slice 4 4 body = be_enc 4 xid /\ slice 28 6 body = mac /\ slice 236 4 body = [0x63; 0x82; 0x53; 0x63].
Proof.
  intros Hm Hb Ht. destruct (dhcp_options_enc t ip sid Ht) as (Ho & Hos & Hol). unfold dhcp_body.
  rewrite fetch_in, bind_ok by lia.
  assert (Hmac : slice 0 6 mac = mac) by (unfold slice; rewrite dr_0, tk_all by lia; done). rewrite Hmac, w32_enc.
  set (body := _ ++ _). set (a := [DHCP_BOOTREQUEST; _; _; _]) in *.
  exists (a ++ be_enc 4 xid ++ [0; 0; 128; 0] ++ zeros 16 ++ mac ++ zeros 202 ++ [0x63; 0x82; 0x53; 0x63]), body.
  assert (Hla : len a = 4) by done. assert (Hl : len body <= 262) by (unfold body; slia).
  rewrite (proj2 (Z.leb_le _ DHCP_BODY_CAP)) by (unfold DHCP_BODY_CAP; lia). split; [done|].
  split; [unfold body; rewrite Ho, <- !app_assoc; done|].
  split; [slia|]. assert (Hba : bytes_ok a) by (apply (bool_decide_unpack _); vm_compute; exact I). split.
  { unfold body. rewrite Ho, !bytes_ok_app. split_and!; try done; auto using bytes_ok_be_enc, bytes_ok_zeros, bytes_opts_enc.
    all: apply (bool_decide_unpack _); vm_compute; exact I. }
  split; [done|]. split; [unfold body; apply slice_app; [done|by rewrite len_be_enc]|]. clearbody a. split.
  - transitivity (slice 28 6 ((a ++ be_enc 4 xid ++ [0; 0; 128; 0] ++ zeros 16) ++ mac ++
      (zeros 202 ++ [0x63; 0x82; 0x53; 0x63] ++ dhcp_options t ip sid))).
    + f_equal. unfold body. by rewrite <- !app_assoc.
    + apply slice_app; slia.
  - transitivity (slice 236 4 ((a ++ be_enc 4 xid ++ [0; 0; 128; 0] ++ zeros 16 ++ mac ++ zeros 202) ++
      [0x63; 0x82; 0x53; 0x63] ++ dhcp_options t ip sid)).
    + f_equal. unfold body. by rewrite <- !app_assoc.
    + apply slice_app; slia.
Qed.

(** The fields of a message body. *)
Definition body_says (body mac : list Z) (xid : Z) (os : list (Z * list Z)) : Prop :=
  slice 4 4 body = be_enc 4 xid /\ slice 28 6 body = mac /\ slice 236 4 body = [0x63; 0x82; 0x53; 0x63] /\
  options_of (dr 240 body) = os.

(** An IPv4 header of [n] bytes in all, UDP, with a valid checksum. *)
Definition ip_valid (hdr : list Z) (n : Z) : Prop :=
  len hdr = 20 /\ tk 1 hdr = [0x45] /\ slice 2 2 hdr = be_enc 2 n /\ slice 9 1 hdr = [17] /\
  words_sum hdr mod 65535 = 0.

Lemma ip_header_valid le n id0 id1 : byte_ok id0 -> byte_ok id1 -> ip_valid (ip_header le n id0 id1) n.
Proof.
  intros H0 H1. destruct (ip_header_sum le n id0 id1 H0 H1) as (Hl & _ & Hs).
  split; [done|]. split; [done|]. split; [|split; [done|done]].
  unfold ip_header, ip_header_with. rewrite w16_enc. apply slice_app; [done|by rewrite len_be_enc].
Qed.

Lemma build_frame_ok {U} (le : bool) (crand : nat -> Z) (mac : list Z) (xid t ip sid : Z) (w : cworld U) :
  len mac = 6 -> bytes_ok mac -> byte_ok t ->
  exists hdr body w', build_dhcp_frame le crand DHCP_MAX_FRAME mac xid t ip sid w =
      Ok (Some (eth_frame (replicate 6 255) mac ETH_P_IP (hdr ++ udp_header (8 + len body) ++ body)), w') /\
    w' = w <| w_rands := S (S (w_rands w)) |> /\
    ip_valid hdr (28 + len body) /\ len body <= DHCP_BODY_CAP /\ bytes_ok (hdr ++ udp_header (8 + len body) ++ body) /\
    body_says body mac xid (asked t ip sid).
Proof.
  intros Hm Hb Ht. destruct (dhcp_body_ok mac xid t ip sid Hm Hb Ht) as (pre & body & E & Eb & Hpre & Hbb & Hbl & Hx & Hmac & Hck).
  set (hdr := ip_header le (28 + len body) (Z.land (crand (w_rands w)) 255) (Z.land (crand (S (w_rands w))) 255)).
  exists hdr, body, (w <| w_rands := S (S (w_rands w)) |>).
  assert (Hval := ip_header_valid le (28 + len body) _ _ (byte_ok_land (crand (w_rands w))) (byte_ok_land (crand (S (w_rands w))))).
  pose proof (len_nonneg body). split.
  - unfold build_dhcp_frame. rewrite E. unfold mbind, St_bind, lift, c_rand. cbn [w_rands upd].
    unfold ETH_HLEN, IP_HLEN, UDP_HLEN, DHCP_MAX_FRAME. destruct (_ >? _) eqn:Et; [lia|].
    rewrite fetch_in by lia. assert (Hmac' : slice 0 6 mac = mac) by (unfold slice; rewrite dr_0, tk_all by lia; done).
    rewrite Hmac'. replace (20 + (8 + len body)) with (28 + len body) by lia. done.
  - split; [done|]. split; [exact Hval|]. split; [unfold DHCP_BODY_CAP; lia|]. split.
    + apply bytes_ok_app_2; [by apply (ip_header_sum le); apply byte_ok_land|]. apply bytes_ok_app_2; [|done].
      unfold udp_header. rewrite w16_enc. repeat apply bytes_ok_app_2; [|apply bytes_ok_be_enc|].
      all: apply (bool_decide_unpack _); vm_compute; exact I.
    + split; [done|]. split; [done|]. split; [done|]. rewrite Eb, dr_app_exact by done.
      rewrite <- (app_nil_r (opts_enc _)). apply options_enc. by apply (dhcp_options_enc t ip sid).
Qed.

(** Whatever the byte order of the machine, a DHCP message the client
    builds fits its buffers and is a broadcast IPv4/UDP frame with a valid
    header checksum and true lengths, from the client's hardware address; its
    body carries the transaction, the address and exactly the options the
    message type calls for. *)
Theorem dhcp_request_valid {U} (le : bool) (crand : nat -> Z) (mac : list Z) (xid t ip sid : Z) (w : cworld U) :
  len mac = 6 -> bytes_ok mac -> byte_ok t ->
  exists hdr body w', build_dhcp_frame le crand DHCP_MAX_FRAME mac xid t ip sid w =
      Ok (Some (eth_frame (replicate 6 255) mac ETH_P_IP (hdr ++ udp_header (8 + len body) ++ body)), w') /\
    w' = w <| w_rands := S (S (w_rands w)) |> /\
    ip_valid hdr (28 + len body) /\ len body <= DHCP_BODY_CAP /\ bytes_ok (hdr ++ udp_header (8 + len body) ++ body) /\
    body_says body mac xid (asked t ip sid).
Proof. apply build_frame_ok. Qed.

(** ** Reading a server's answer *)

(** The headers in front of an answer: two addresses, and an IPv4 header of
    [ihl] words. *)
Definition headers_ok (macs ip : list Z) : Prop :=
  len macs = 12 /\ bytes_ok macs /\ bytes_ok ip /\ hd 0 (dr 9 ip) = 17 /\
  exists ihl, 5 <= ihl <= 15 /\ len ip = 4 * ihl /\ hd 0 ip = 64 + ihl.

Definition answer_frame (macs ip sums head : list Z) (xid : Z) (a : list Z) (yiaddr : Z) (b mac c : list Z)
  (os : list (Z * list Z)) (pad : list Z) : list Z :=
  macs ++ [8; 0] ++ ip ++ [0; 67; 0; 68] ++ sums ++
  [2] ++ head ++ be_enc 4 xid ++ a ++ be_enc 4 yiaddr ++ b ++ mac ++ c ++ [0x63; 0x82; 0x53; 0x63] ++ opts_enc os ++ pad.

Lemma answer_payload macs ip sums p : headers_ok macs ip -> len sums = 4 -> 240 <= len p ->
  dhcp_payload (macs ++ [8; 0] ++ ip ++ [0; 67; 0; 68] ++ sums ++ p) = Some p.
Proof.
  intros (Hm & _ & _ & H9 & ihl & Hi & Hip & H0) Hs Hp. unfold dhcp_payload.
  set (f := macs ++ _). assert (Hlf : len f = 26 + 4 * ihl + len p - 4) by (unfold f; slia).
  assert (Hd : dr 14 f = ip ++ [0; 67; 0; 68] ++ sums ++ p) by (unfold f; rewrite app_assoc; apply dr_app_exact; slia).
  assert (Hh : forall i, 0 <= i < len ip -> hd 0 (dr (14 + i) f) = hd 0 (dr i ip)).
  { intros i Hi'. rewrite <- dr_dr, Hd, dr_app by lia. assert (0 < len (dr i ip)) by slia. by destruct (dr i ip). }
  rewrite Hd. assert (Hhd : hd 0 (ip ++ [0; 67; 0; 68] ++ sums ++ p) = 64 + ihl).
  { rewrite <- H0. destruct ip; [rewrite len_nil in Hip; lia|done]. }
  rewrite Hhd. assert (Hmod : (64 + ihl) mod 16 = ihl) by (symmetry; apply (Z.mod_unique _ _ 4); lia).
  assert (Hdiv : (64 + ihl) / 16 = 4) by (symmetry; apply (Z.div_unique _ _ _ ihl); lia).
  rewrite Hmod, Hdiv. assert (Hu : dr (14 + 4 * ihl) f = [0; 67; 0; 68] ++ sums ++ p).
  { rewrite <- dr_dr, Hd by lia. by apply dr_app_exact. }
  rewrite Hu. change 23 with (14 + 9). rewrite Hh, H9 by lia.
  assert (Ht : slice 12 2 f = [8; 0]) by (unfold f; apply slice_app; [done|done]). rewrite Ht.
  assert (H8 : dr 8 ([0; 67; 0; 68] ++ sums ++ p) = p) by (rewrite app_assoc; apply dr_app_exact; slia). rewrite H8.
  rewrite (tk_app_exact 4) by done. rewrite (proj2 (Z.leb_le 282 _)), (proj2 (Z.leb_le 240 _)) by lia. done.
Qed.

(** The other fields of the BOOTP header around the address and the options. *)
Definition bootp_ok (sums head a b mac c : list Z) : Prop :=
  len sums = 4 /\ len head = 3 /\ len a = 8 /\ len b = 8 /\ len mac = 6 /\ len c = 202 /\
  bytes_ok (sums ++ head ++ a ++ b ++ mac ++ c).

Lemma answer_parsed macs ip sums head xid a yiaddr b mac c os pad result sid :
  headers_ok macs ip -> bootp_ok sums head a b mac c -> 0 <= xid < 2 ^ 32 -> 0 <= yiaddr < 2 ^ 32 ->
  Forall opt_ok os -> bytes_ok pad ->
  parse_ref (answer_frame macs ip sums head xid a yiaddr b mac c os pad) xid mac result sid =
  foldl absorb (Reply 0 (result <| d_assigned_ip := yiaddr |>) sid) os.
Proof.
  intros Hh (Hs & Hhd & Ha & Hb & Hm & Hc & _) Hx Hy Hos Hp. unfold parse_ref, answer_frame.
  set (p := [2] ++ _). assert (Hlp : 240 <= len p) by (unfold p; slia).
  rewrite answer_payload by done.
  assert (E1 : hd 0 p = 2) by done.
  assert (E2 : slice 4 4 p = be_enc 4 xid) by (unfold p; rewrite app_assoc; apply slice_app; slia).
  assert (E3 : slice 16 4 p = be_enc 4 yiaddr).
  { transitivity (slice 16 4 (([2] ++ head ++ be_enc 4 xid ++ a) ++ be_enc 4 yiaddr ++
      (b ++ mac ++ c ++ [0x63; 0x82; 0x53; 0x63] ++ opts_enc os ++ pad))); [unfold p; by rewrite <- !app_assoc|].
    apply slice_app; slia. }
  assert (E4 : slice 28 6 p = mac).
  { transitivity (slice 28 6 (([2] ++ head ++ be_enc 4 xid ++ a ++ be_enc 4 yiaddr ++ b) ++ mac ++
      (c ++ [0x63; 0x82; 0x53; 0x63] ++ opts_enc os ++ pad))); [unfold p; by rewrite <- !app_assoc|].
    apply slice_app; slia. }
  assert (E5 : slice 236 4 p = [0x63; 0x82; 0x53; 0x63] /\ dr 240 p = opts_enc os ++ pad).
  { assert (Ep : p = ([2] ++ head ++ be_enc 4 xid ++ a ++ be_enc 4 yiaddr ++ b ++ mac ++ c) ++
      [0x63; 0x82; 0x53; 0x63] ++ opts_enc os ++ pad) by (unfold p; by rewrite <- !app_assoc).
    rewrite Ep. split; [apply slice_app; slia|]. rewrite app_assoc. apply dr_app_exact. slia. }
  destruct E5 as [E5 E6]. rewrite E1, E2, E3, E4, E5, E6. rewrite !bool_decide_eq_true_2 by done. cbn [andb Z.eqb].
  rewrite be_dec_enc by done. cbv zeta. by rewrite options_enc.
Qed.

Lemma answer_bytes macs ip sums head xid a yiaddr b mac c os pad :
  headers_ok macs ip -> bootp_ok sums head a b mac c -> Forall opt_ok os -> bytes_ok pad ->
  bytes_ok (answer_frame macs ip sums head xid a yiaddr b mac c os pad).
Proof.
  intros (_ & Hm & Hip & _) (_ & _ & _ & _ & _ & _ & Hb) Hos Hp. rewrite !bytes_ok_app in Hb.
  destruct Hb as (? & ? & ? & ? & ? & ?). unfold answer_frame. rewrite !bytes_ok_app.
  assert (Hc : forall l, bool_decide (bytes_ok l) = true -> bytes_ok l) by (intros l; apply bool_decide_eq_true_1).
  split_and!; auto using bytes_ok_be_enc, bytes_opts_enc; by apply Hc.
Qed.

(** An answer to the client's transaction and address is read as the
    server wrote it: the address it offers and, of the options in any order,
    the values the client keeps, whatever the IP options, the unused BOOTP
    fields and the padding are. *)
Theorem dhcp_answer_read (macs ip sums head : list Z) (xid : Z) (a : list Z) (yiaddr : Z) (b mac c : list Z)
  (os : list (Z * list Z)) (pad : list Z) (result : dhcp_result) (server_id : Z) :
  headers_ok macs ip -> bootp_ok sums head a b mac c -> 0 <= xid < 2 ^ 32 -> 0 <= yiaddr < 2 ^ 32 ->
  Forall opt_ok os -> bytes_ok pad -> len (answer_frame macs ip sums head xid a yiaddr b mac c os pad) < 2 ^ 31 ->
  parse_dhcp_response (answer_frame macs ip sums head xid a yiaddr b mac c os pad) xid mac result server_id =
  Ok (foldl absorb (Reply 0 (result <| d_assigned_ip := yiaddr |>) server_id) os).
Proof.
  intros Hh Hb Hx Hy Hos Hp Hl. rewrite parse_ref_ok; [|by apply answer_bytes|done|done|apply Hb].
  f_equal. by apply answer_parsed.
Qed.

(** ** The theorems on a concrete answer *)

Definition ex_mac : list Z := [0x5E; 17; 34; 51; 68; 85].
Definition ex_ip_header : list Z := 0x45 :: zeros 8 ++ [17] ++ zeros 10.
Definition ex_options : list (Z * list Z) :=
  [(53, [5]); (54, [10; 0; 0; 1]); (1, [255; 255; 255; 0]); (6, [8; 8; 8; 8; 1; 1; 1; 1])].
Definition ex_answer : list Z :=
  answer_frame (zeros 12) ex_ip_header (zeros 4) (zeros 3) 7 (zeros 8) 0x0A000005 (zeros 8) ex_mac (zeros 202) ex_options (zeros 5).
Definition ex_result : dhcp_result := Result 0x0A000005 0xFFFFFF00 0 0x08080808 0x01010101 0 false.

Lemma dhcp_parse_reference_witness : parse_dhcp_response ex_answer 7 ex_mac result_zero 0 = Ok (Reply 5 ex_result 0x0A000001).
Proof.
  rewrite (dhcp_parse_reference ex_answer 7 ex_mac result_zero 0).
  - vm_compute. done.
  - apply (bool_decide_unpack _). vm_compute. exact I.
  - vm_compute. done.
  - done.
  - done.
Defined.

Lemma dhcp_request_valid_witness : exists hdr body w',
  build_dhcp_frame true (fun _ => 300) DHCP_MAX_FRAME ex_mac 7 3 0x0A000005 0 (ex_cworld None quiet quiet) =
    Ok (Some (eth_frame (replicate 6 255) ex_mac ETH_P_IP (hdr ++ udp_header (8 + len body) ++ body)), w') /\
  ip_valid hdr (28 + len body) /\
  options_of (dr 240 body) = [(53, [3]); (50, [10; 0; 0; 5]); (55, [1; 3; 6; 51])].
Proof.
  destruct (dhcp_request_valid true (fun _ => 300) ex_mac 7 3 0x0A000005 0 (ex_cworld None quiet quiet))
    as (hdr & body & w' & E & _ & Hv & _ & _ & _ & _ & _ & Ho).
  - done.
  - apply (bool_decide_unpack _). vm_compute. exact I.
  - done.
  - exists hdr, body, w'. split; [exact E|]. split; [exact Hv|]. rewrite Ho. vm_compute. done.
Defined.

Lemma dhcp_answer_read_witness : parse_dhcp_response ex_answer 7 ex_mac result_zero 0 = Ok (Reply 5 ex_result 0x0A000001).
Proof.
  unfold ex_answer. rewrite (dhcp_answer_read (zeros 12) ex_ip_header (zeros 4) (zeros 3) 7 (zeros 8) 0x0A000005 (zeros 8) ex_mac
    (zeros 202) ex_options (zeros 5) result_zero 0).
  - vm_compute. done.
  - split; [done|]. split; [apply bytes_ok_zeros|]. split; [apply (bool_decide_unpack _); vm_compute; exact I|].
    split; [done|]. exists 5. split; [lia|]. done.
  - do 6 (split; [done|]). apply (bool_decide_unpack _). vm_compute. exact I.
  - done.
  - done.
  - apply (bool_decide_unpack _). vm_compute. exact I.
  - apply bytes_ok_zeros.
  - vm_compute. done.
Defined.
