(* ===== verification/DhcpWait.v ===== *)
(** * The DHCP exchange comes to an end

    Without an accelerator every pass of a wait uses up a queued frame, an
    external event or 100 ms of its time, so the exchange returns. With traffic
    that never stops the wait never returns, whatever its timeout is. *)
From stdpp Require Import functions.
From S2P Require Import Prelude Bytes Ring Crypto Accel AccelInv AccelSpec Conn ConnInv WorldInv AccelLink ConnEx.
From S2P Require Import Channel ChannelInv.
From S2P Require Import Receive ReceiveInv Tunnel TunnelInv Calm Dhcp DhcpSpec.

(** What the parser never changes. *)
Lemma absorb_success os y : d_success (y_result (foldl absorb y os)) = d_success (y_result y).
Proof.
  revert y. induction os as [|o os IH]; intros y; [done|]. cbn [foldl]. rewrite IH. unfold absorb. cbv zeta.
  repeat case_match; done.
Qed.
Lemma parse_success frame xid mac r sid : d_success (y_result (parse_ref frame xid mac r sid)) = d_success r.
Proof. unfold parse_ref. cbv zeta. repeat case_match; try done. by rewrite absorb_success. Qed.

Lemma u32_lxor a b : 0 <= a < 2 ^ 32 -> 0 <= b < 2 ^ 32 -> 0 <= Z.lxor a b < 2 ^ 32.
Proof.
  intros Ha Hb. assert (E : Z.lxor a b = Z.lxor a b mod 2 ^ 32); [|rewrite E; by apply Z.mod_pos_bound].
  apply Z.bits_inj'. intros n Hn. destruct (decide (n < 32)) as [Hlt|Hge].
  - by rewrite Z.mod_pow2_bits_low by lia.
  - rewrite Z.mod_pow2_bits_high by lia. rewrite Z.lxor_spec.
    rewrite <- (Z.mod_small a (2 ^ 32)), <- (Z.mod_small b (2 ^ 32)) by done.
    by rewrite !Z.mod_pow2_bits_high by lia.
Qed.

Section wait.
Context {U : Type} (good : U -> Prop) `{AcceleratorLaws U good}.
Context (tick crand : nat -> Z) (malloc_ok : Z -> bool)
        (zlib_compress zlib_uncompress : list Z -> Z -> option (list Z)) (zlib_bound : Z -> Z)
        (little_endian : bool).
Implicit Types w : cworld U.
Abbreviation wok := (world_ok good).
Hypothesis crand_nonneg : forall n, 0 <= crand n.
Hypothesis unzlib_fits : forall src cap d,
  bytes_ok src -> zlib_uncompress src cap = Some d -> len d <= cap /\ bytes_ok d.
Hypothesis zlib_fits : forall src cap d, zlib_compress src cap = Some d -> len d <= cap.
Hypothesis bound_fits : forall n, 0 <= n < 2 ^ 31 -> zlib_bound n + 8 < 2 ^ 32.

(** ** One pass *)

(** Frames that can still arrive: each event brings at most a queue of them. *)
Definition measure w : Z := 65 * Z.of_nat (evs w) + c_recv_queue_count (w_conn w).

Lemma wok_count w : wok w -> 0 <= c_recv_queue_count (w_conn w) <= 64.
Proof. intros (((_ & _ & _ & Hc & _) & _) & _). exact Hc. Qed.

Lemma refill_measure w : wok w -> rudp_on w = false ->
  wp (if c_recv_queue_count (w_conn w) <=? 0 then fill_recv_queue tick crand malloc_ok zlib_uncompress else mret 1)
     (fun _ w' => wok w' /\ calmer w w' /\ measure w' <= measure w) w.
Proof.
  intros Hw Hoff. wp_step; [|wp_step; split; [done|]; split; [done|lia]]. unfold fill_recv_queue.
  assert (Hf := fill_wp good tick crand malloc_ok zlib_uncompress crand_nonneg unzlib_fits w Hw).
  apply wp_run in Hf as (rc & w' & E & (Hw' & _) & _). eapply wp_of_run; [exact E|].
  pose proof (calm_fill _ _ _ _ _ _ _ E) as Hcalm. split; [done|]. split; [done|].
  pose proof (wok_count w' Hw'). pose proof (wok_count w Hw). destruct Hcalm as [Hle _].
  apply fill_used in E as [Hlt|Ec]; [| |done]; unfold measure; [lia|]. rewrite Ec. lia.
Qed.

(** What a call that receives leaves of the frames to come. *)
Definition received_post w (r : Z * list Z) w' : Prop :=
  wok w' /\ fits 2048 r /\ calmer w w' /\ measure w' <= measure w /\ (0 < len r.2 -> measure w' < measure w).

Lemma receive_raw_measure w : wok w -> rudp_on w = false ->
  wp (softether_receive_raw tick crand malloc_ok zlib_uncompress 2048) (received_post w) w.
Proof.
  intros Hw Hoff. unfold softether_receive_raw.
  assert (Hnone : forall r w', wok w' -> calmer w w' -> measure w' <= measure w -> r = -1 \/ r = 0 ->
    wp (mret (r, [])) (received_post w) w').
  { intros r w' H1 H2 H3 Hr. wp_step. split; [done|]. split; [by apply fits_none|]. split; [done|]. split; [done|].
    intros Hz. change (0 < 0) in Hz. lia. }
  wp_pure. wp_step; [apply Hnone; auto; done|]. wp_pure.
  eapply wp_mono; [by apply refill_measure|]. intros rc w1 (H1 & Hc1 & Hm1).
  wp_step; [by apply Hnone; auto|]. wp_step; [by apply Hnone; auto|]. wp_pure. wp_step; [by apply Hnone; auto|].
  wp_step. apply (queue_peek_wp good); [done|lia|]. intros frame rest _ Hb Hl. wp_step.
  apply (queue_drop_wp good); [done|lia|]. intros w2 H2 _. wp_step.
  assert (En : c_recv_queue_count (w_conn w2) = c_recv_queue_count (w_conn w1) - 1) by done.
  assert (Ee : evs w2 = evs w1) by done. assert (Hm2 : measure w2 < measure w) by (unfold measure in *; lia).
  assert (Hcc : calmer w w2).
  { transitivity w1; [done|]. split; [done|]. unfold rudp_on, w2. by destruct w1 as [[] ?]. }
  split; [exact H2|]. split; [|split; [done|]; split; [lia|done]].
  destruct (len frame >? 2048) eqn:E; [by apply fits_none; auto|]. split; [done|]. right. cbn. lia.
Qed.

Lemma dhcp_fds_wp w : wok w -> rudp_on w = false ->
  wp dhcp_fds (fun fds w' => w' = w /\ len fds <= 34) w.
Proof.
  intros Hw Hoff. unfold dhcp_fds. wp_pure. rewrite Hoff. wp_pure. split; [done|].
  pose proof (world_slots good w Hw) as Hs. rewrite app_nil_r, len_app, len_map.
  assert (Hf : len (filter (fun ts => (ts_active ts && (ts_fd ts >=? 0) && can_receive (ts_direction ts)) = true)
    (c_additional (w_conn w))) <= 32).
  { unfold len in *. pose proof (length_filter (fun ts => (ts_active ts && (ts_fd ts >=? 0) && can_receive (ts_direction ts)) = true)
      (c_additional (w_conn w))). unfold MAX_SE_CONNECTIONS in Hs. lia. }
  destruct (can_receive _); [change (len [c_socket_fd (w_conn w)]) with 1|change (len (@nil Z)) with 0]; lia.
Qed.

Lemma poll_wok fds w p w' : wok w -> sys_poll fds w = Ok (p, w') -> wok w'.
Proof. unfold sys_poll. repeat case_match; intros Hw; intros [= _ <-]; done. Qed.

Lemma dhcp_ready_wp w : wok w -> rudp_on w = false ->
  wp dhcp_ready (fun _ w' => wok w' /\ calmer w w' /\ measure w' <= measure w) w.
Proof.
  intros Hw Hoff. unfold dhcp_ready. wp_pure. wp_step; [|wp_step; by split].
  wp_step. eapply wp_mono; [by apply dhcp_fds_wp|]. cbv beta. intros fds w1 [-> Hl]. wp_step.
  unfold room. eapply wp_lift; [by rewrite (proj2 (Z.leb_le (len fds) (2 + MAX_SE_CONNECTIONS))) by (unfold MAX_SE_CONNECTIONS; lia)|].
  wp_step; [by wp_step|]. wp_step.
  destruct (sys_poll fds w) as [| |[p w']] eqn:E; [by unfold sys_poll in E; repeat case_match..|].
  eapply wp_of_run; [exact E|]. wp_step. pose proof (calm_poll _ _ _ _ E) as Hcm.
  split; [by eapply poll_wok|]. split; [done|]. apply poll_used in E as (Ec & _). destruct Hcm as [Hle _].
  unfold measure. rewrite Ec. lia.
Qed.

(** ** The wait *)

(** Passes that are enough from here. *)
Definition budget w (elapsed timeout_ms : Z) : Z :=
  measure w + (Z.max 0 (timeout_ms - elapsed) + 99) / 100.

Lemma idle_budget t : 0 < t -> (Z.max 0 (t - 100) + 99) / 100 < (Z.max 0 t + 99) / 100.
Proof.
  intros Ht. rewrite (Z.max_r 0 t) by lia. replace (t + 99) with (t - 1 + 1 * 100) by lia. rewrite Z.div_add by lia.
  assert (0 <= (t - 1) / 100) by (apply Z.div_pos; lia). destruct (decide (t <= 100)).
  - rewrite Z.max_l by lia. change ((0 + 99) / 100) with 0. lia.
  - rewrite Z.max_r by lia. replace (t - 100 + 99) with (t - 1) by lia. lia.
Qed.

Definition waited w (result : dhcp_result) (y : reply) w' : Prop :=
  wok w' /\ calmer w w' /\ d_success (y_result y) = d_success result.

Abbreviation wait := (wait_loop tick crand malloc_ok zlib_uncompress).

Lemma wait_wp fuel elapsed xid result sid timeout_ms w :
  wok w -> rudp_on w = false -> 0 <= xid < 2 ^ 32 -> budget w elapsed timeout_ms < Z.of_nat fuel ->
  wp (wait fuel elapsed xid result sid timeout_ms) (waited w result) w.
Proof.
  intros Hw Hoff Hx. revert elapsed result sid w Hw Hoff.
  induction fuel as [|fuel IH]; intros elapsed result sid w Hw Hoff Hb.
  { unfold budget, measure in Hb. pose proof (wok_count w Hw).
    assert (0 <= (Z.max 0 (timeout_ms - elapsed) + 99) / 100) by (apply Z.div_pos; lia). lia. }
  cbn [wait_loop]. wp_step; [by wp_step|]. wp_step.
  eapply wp_mono; [by apply dhcp_ready_wp|]. cbv beta. intros ready w1 (H1 & Hc1 & Hm1).
  assert (Hoff1 : rudp_on w1 = false) by (destruct Hc1; congruence).
  (** The loop goes on from a state that costs one pass less. *)
  assert (Hgo : forall el r s w2, wok w2 -> calmer w w2 -> d_success r = d_success result ->
    budget w2 el timeout_ms < budget w elapsed timeout_ms -> wp (wait fuel el xid r s timeout_ms) (waited w result) w2).
  { intros el r s w2 H2 Hc2 Hs Hbd. eapply wp_mono; [apply IH; [done|destruct Hc2; congruence|lia]|].
    intros y w3 (H3 & Hc3 & Hs3). split; [done|]. split; [by transitivity w2|congruence]. }
  assert (Hidle : forall r s w2, wok w2 -> calmer w w2 -> measure w2 <= measure w -> d_success r = d_success result ->
    wp (wait fuel (elapsed + POLL_INTERVAL) xid r s timeout_ms) (waited w result) w2).
  { intros r s w2 H2 Hc2 Hm2 Hs. apply Hgo; try done. unfold budget, POLL_INTERVAL.
    pose proof (idle_budget (timeout_ms - elapsed) ltac:(lia)).
    replace (timeout_ms - (elapsed + 100)) with (timeout_ms - elapsed - 100) by lia. lia. }
  destruct ready; [|by apply Hidle|by wp_step]. wp_step.
  eapply wp_mono; [by apply receive_raw_measure|]. intros r w2 (H2 & [Hrb Hr] & Hc2 & Hm2 & Hlt2).
  assert (Hcc : calmer w w2) by (by transitivity w1).
  wp_step; [by wp_step|]. wp_step; [apply Hidle; try done; lia|]. wp_pure.
  pose proof (wok_fields good w2 H2) as (_ & Hmac & _). pose proof (len_nonneg r.2).
  eapply wp_lift; [apply parse_ref_ok; [done| |done|done]|].
  { destruct Hr as [[_ ->]|[_ ?]]; [done|lia]. }
  wp_step; [wp_step; split; [done|]; split; [done|apply parse_success]|].
  apply Hgo; [done|done|apply parse_success|]. unfold budget. specialize (Hlt2 ltac:(lia)). lia.
Qed.

(** ** The exchange *)

Abbreviation send_dhcp := (send_dhcp crand malloc_ok zlib_compress zlib_bound little_endian).
Abbreviation attempts := (dhcp_attempts tick crand malloc_ok zlib_compress zlib_uncompress zlib_bound little_endian).

Definition kept w w' : Prop := wok w' /\ calmer w w'.

Lemma send_raw_kept f w : wok w -> bytes_ok f -> len f < 2 ^ 31 ->
  wp (softether_send_raw crand malloc_ok zlib_compress zlib_bound f) (fun _ w' => kept w w') w.
Proof.
  intros Hw Hb Hl. eapply wp_mono; [apply calm_wp; [apply calm_send_raw|by eapply (send_raw_wp good)]|].
  cbv beta. intros r w' [[Hw' _] Hc]. done.
Qed.

Lemma send_dhcp_wp xid t ip sid w : wok w -> byte_ok t ->
  wp (send_dhcp xid t ip sid) (fun _ w' => kept w w') w.
Proof.
  intros Hw Ht. unfold send_dhcp. wp_pure. pose proof (wok_fields good w Hw) as (_ & Hm & Hmb & _).
  destruct (build_frame_ok little_endian crand (c_client_mac (w_conn w)) xid t ip sid w Hm Hmb Ht)
    as (hdr & body & w1 & E & -> & (Hh & _) & Hl & Hb & _).
  eapply wp_of_run; [exact E|]. cbv beta iota. wp_step. set (f := eth_frame _ _ _ _).
  assert (Hf : bytes_ok f /\ len f < 2 ^ 31).
  { unfold f, eth_frame, ETH_P_IP, udp_header. unfold DHCP_BODY_CAP in Hl. pose proof (len_nonneg body).
    split; [|unfold udp_header; slia]. rewrite w16_enc. apply bytes_ok_app_2; [apply bytes_ok_replicate; by unfold byte_ok|].
    apply bytes_ok_app_2; [done|]. apply bytes_ok_app_2; [apply bytes_ok_be_enc|done]. }
  eapply wp_mono; [apply send_raw_kept; [exact Hw|apply Hf..]|]. cbv beta. intros r w2 H2. wp_step. exact H2.
Qed.

Lemma gratuitous_wp ip w : wok w ->
  wp (send_gratuitous_arp crand malloc_ok zlib_compress zlib_bound ip) (fun _ w' => kept w w') w.
Proof.
  intros Hw. unfold send_gratuitous_arp. wp_step; [by wp_step|]. wp_pure.
  pose proof (wok_fields good w Hw) as (_ & Hm & Hmb & _).
  eapply wp_mono; [apply send_raw_kept; [exact Hw| |]|].
  - unfold eth_frame, arp_body. rewrite !w32_enc, !w16_enc.
    repeat apply bytes_ok_app_2; try done; try apply bytes_ok_be_enc; apply (bool_decide_unpack _); vm_compute; exact I.
  - unfold eth_frame, arp_body. slia.
  - cbv beta. intros r w1 H1. wp_step. exact H1.
Qed.

(** What the exchange returns: success together with the flag, or neither. *)
Definition exchange_ok (r : Z * option dhcp_result) : Prop :=
  r.1 = 0 /\ (exists res, r.2 = Some res /\ d_success res = true) \/
  r.1 = -1 /\ forall res, r.2 = Some res -> d_success res = false.

Definition wait_fuel w : Z := 65 * Z.of_nat (evs w) + 64 + 50.

Lemma attempts_wp fuel n xid result sid w : wok w -> rudp_on w = false -> 0 <= xid < 2 ^ 32 ->
  d_success result = false -> wait_fuel w < Z.of_nat fuel ->
  wp (attempts fuel n xid result sid) (fun r w' => kept w w' /\ exchange_ok (r.1, Some r.2)) w.
Proof.
  intros Hw Hoff Hx. revert result sid w Hw Hoff. induction n as [|n IH]; intros result sid w Hw Hoff Hs Hf.
  all: assert (Hfail : forall r w', kept w w' -> d_success r = false ->
    wp (mret (-1, r)) (fun r w' => kept w w' /\ exchange_ok (r.1, Some r.2)) w').
  1, 3: intros r w' Hk Hr; wp_step; (split; [done|]); right; (split; [done|]); by intros ? [= <-].
  { cbn [dhcp_attempts]. by apply Hfail. }
  cbn [dhcp_attempts]. wp_pure. assert (Hrefl : kept w w) by done. wp_step; [by apply Hfail|].
  (** A wait and a retry from a state reached from [w]. *)
  assert (Hwait : forall w1 r s, kept w w1 -> d_success r = false ->
    wp (wait_dhcp_response tick crand malloc_ok zlib_uncompress fuel xid r s DHCP_TIMEOUT_MS)
       (fun y w2 => kept w w2 /\ d_success (y_result y) = false) w1).
  { intros w1 r s [H1 [Hle Hru]] Hr. eapply wp_mono; [apply wait_wp; [done|congruence|done|]|].
    - unfold budget, measure, wait_fuel in *. pose proof (wok_count w1 H1).
      change ((Z.max 0 (DHCP_TIMEOUT_MS - 0) + 99) / 100) with 50. lia.
    - intros y w2 (H2 & Hc2 & Hs2). split; [|congruence]. split; [done|]. by transitivity w1. }
  assert (Hretry : forall w1 r s, kept w w1 -> d_success r = false ->
    wp (attempts fuel n xid r s) (fun r w' => kept w w' /\ exchange_ok (r.1, Some r.2)) w1).
  { intros w1 r s [H1 [Hle Hru]] Hr. eapply wp_mono; [apply IH; [done|congruence|done|unfold wait_fuel in *; lia]|].
    intros r' w2 [[H2 Hc2] Hr']. split; [|done]. split; [done|]. by transitivity w1. }
  assert (Hsend : forall w1 t ip s, kept w w1 -> byte_ok t -> wp (send_dhcp xid t ip s) (fun _ w2 => kept w w2) w1).
  { intros w1 t ip s [H1 Hc1] Ht. eapply wp_mono; [by apply send_dhcp_wp|]. cbv beta. intros _ w2 [H2 Hc2].
    split; [done|]. by transitivity w1. }
  wp_step. eapply wp_mono; [by apply Hsend|]. cbv beta. intros sent w1 H1. wp_step; [by apply Hfail|]. wp_step.
  eapply wp_mono; [by apply Hwait|]. cbv beta. intros y w2 [H2 Hs2]. wp_step; [by apply Hfail|].
  wp_step; [by apply Hretry|]. wp_step. eapply wp_mono; [by apply Hsend|]. cbv beta. intros sent2 w3 H3.
  wp_step; [by apply Hfail|]. wp_step. eapply wp_mono; [by apply Hwait|]. cbv beta. intros y2 w4 [H4 Hs4].
  wp_step; [by apply Hfail|]. wp_step; [|wp_step; [by apply Hfail|by apply Hretry]].
  wp_step. destruct H4 as [H4 Hk4]. eapply wp_mono; [by apply gratuitous_wp|]. cbv beta. intros _ w5 [H5 Hk5]. wp_step.
  split; [split; [done|by transitivity w4]|]. left. split; [done|]. by eexists.
Qed.

(** C28: Without the accelerator a DHCP exchange always comes to an end: each of
    its waits is over after at most 64 queued frames, 65 passes for every
    external event to come and 50 idle polls; it reads and writes inside its
    buffers, keeps the connection well formed, and reports success exactly when
    the result carries the success flag, which only an acknowledgement sets. *)
Theorem dhcp_exchange_returns (fuel : nat) (w : cworld U) :
  wok w -> rudp_on w = false -> wait_fuel w < Z.of_nat fuel ->
  exists r w', softether_do_dhcp tick crand malloc_ok zlib_compress zlib_uncompress zlib_bound little_endian fuel w =
    Ok (r, w') /\ wok w' /\ exchange_ok r.
Proof.
  intros Hw Hoff Hf.
  enough (Hwp : wp (softether_do_dhcp tick crand malloc_ok zlib_compress zlib_uncompress zlib_bound little_endian fuel)
    (fun r w' => wok w' /\ exchange_ok r) w) by by apply wp_run in Hwp.
  unfold softether_do_dhcp. wp_pure. wp_step; [wp_step; split; [done|by right]|].
  unfold draw_xid. wp_pure. unfold wp at 1, c_rand. set (w1 := w <| w_rands := _ |>).
  wp_step. unfold wp at 1, c_rand. set (w2 := w1 <| w_rands := _ |>). wp_pure.
  eapply wp_mono; [apply (attempts_wp fuel DHCP_MAX_RETRIES _ result_zero 0 w2); [exact Hw|exact Hoff| |done|exact Hf]|].
  - apply u32_lxor; apply Z.mod_pos_bound; lia.
  - cbv beta. intros r w' [[Hw' _] Hr]. wp_step. done.
Qed.
End wait.

(** ** Traffic that never stops *)

(** An accelerator with a 60-byte frame, no answer of any DHCP server, for
    every call. *)
Definition junk : list Z := zeros 60.
#[local] Instance chatter : Accelerator unit := {
  ac_poll := mret tt;
  ac_recv n := mret (if 60 <=? n then (60, junk) else (0, []));
  ac_send _ := mret 0;
  ac_ready _ := mret false;
  ac_fd := mret 9 }.
#[local] Instance chatter_laws : AcceleratorLaws unit (fun _ => True).
Proof.
  split.
  - intros u _. by exists u.
  - intros n u _. unfold ac_recv, chatter. destruct (60 <=? n) eqn:E; do 3 eexists; (split; [done|]); (split; [done|]); intros ?;
      [|lia]. split; [done|]. split; [lia|apply bytes_ok_zeros].
  - intros bs u _ _ _. by exists 0, u.
  - intros b u _. by exists false, u.
  - intros u _. by exists 9, u.
Qed.

Section starve.
Context (tick crand : nat -> Z) (malloc_ok : Z -> bool) (zlib_uncompress : list Z -> Z -> option (list Z)).
Implicit Types w : cworld unit.
Abbreviation wok := (world_ok (fun _ : unit => True)).

(** A running session whose accelerator is readable for [k] more polls, and
    whose queue holds nothing but junk. *)
Definition noisy (k : nat) w : Prop :=
  wok w /\ c_state (w_conn w) = STATE_CONNECTED /\ c_ssl (w_conn w) <> 0 /\ rudp_on w = true /\
  w_polls w = replicate k (PollReady [(9, POLLIN)]) /\ Forall (fun f => f = junk) (frames (w_conn w)).

Lemma with_rudp_noisy {A} (m : St unit A) a k w : noisy k w -> (forall u, m u = Ok (a, u)) ->
  exists w', with_rudp m w = Ok (a, w') /\ noisy k w' /\ w_conn w' = w_conn w.
Proof.
  intros (Hw & Hs & Hssl & Hr & Hp & Hf) Hm. unfold with_rudp. assert (Hru : is_Some (w_rudp w)).
  { unfold rudp_on in Hr. apply andb_true_iff in Hr as [Hr _]. by apply bool_decide_eq_true_1 in Hr. }
  destruct Hru as [u Hu]. rewrite Hu, Hm. eexists. split; [done|]. split; [|done].
  split; [destruct Hw as (? & ? & ?); by split_and!|]. split_and!; try done.
  unfold rudp_on in *. rewrite Hu in Hr. exact Hr.
Qed.

Lemma push_noisy k w : noisy k w -> c_recv_queue_count (w_conn w) < RECV_QUEUE_SIZE ->
  wp (push junk) (fun _ w' => noisy k w' /\ 0 < c_recv_queue_count (w_conn w')) w.
Proof.
  intros (Hw & Hs & Hssl & Hr & Hp & Hf) Hn. pose proof (wok_count _ w Hw).
  eapply wp_mono; [apply (push_wp (fun _ => True) junk w Hw Hn); [done|apply bytes_ok_zeros]|].
  cbv beta. intros _ w' ((Hw' & _) & Hfr & Hct & (q & t & n & ->)). split; [|lia].
  split; [done|]. split; [done|]. split; [done|]. split; [done|]. split; [done|].
  rewrite Hfr. apply Forall_app. split; [done|by constructor].
Qed.

Lemma drain_noisy k w : noisy k w -> c_recv_queue_count (w_conn w) <= 0 ->
  wp (drain_rudp_into_recv_queue RECV_QUEUE_SIZE)
     (fun m w' => noisy k w' /\ 0 < m /\ 0 < c_recv_queue_count (w_conn w')) w.
Proof.
  intros Hn Hc. assert (Hl : forall n moved w, noisy k w -> 0 <= moved ->
    (0 < moved -> 0 < c_recv_queue_count (w_conn w)) -> (moved = 0 -> c_recv_queue_count (w_conn w) < RECV_QUEUE_SIZE /\ (0 < n)%nat) ->
    wp (drain_loop n moved) (fun m w' => noisy k w' /\ 0 < m /\ 0 < c_recv_queue_count (w_conn w')) w).
  { intros n. induction n as [|n IH]; intros moved w1 H1 Hm Hpos Hz; cbn [drain_loop].
    { assert (0 < moved) by lia. wp_step. auto. }
    wp_pure. wp_step; [wp_step; unfold RECV_QUEUE_SIZE in *; split; [done|]; split; [lia|apply Hpos; lia]|]. wp_step.
    destruct (with_rudp_noisy (ac_recv MAX_QUEUED_FRAME) (60, junk) k w1 H1) as (w2 & E & H2 & Ec); [done|].
    eapply wp_of_run; [exact E|]. cbn [fst snd]. change (60 <=? 0) with false. change (len junk =? 0) with false. cbn [orb].
    change (tk MAX_QUEUED_FRAME junk) with junk. wp_step.
    eapply wp_mono; [apply push_noisy; [done|rewrite Ec; lia]|]. cbv beta. intros _ w3 [H3 Hc3]. apply IH; [done|lia|done|lia]. }
  unfold drain_rudp_into_recv_queue. wp_pure. pose proof Hn as (_ & _ & _ & Hr & _). rewrite Hr. cbn [negb]. wp_step.
  destruct (with_rudp_noisy ac_poll tt k w Hn) as (w1 & E & H1 & Ec); [done|].
  eapply wp_of_run; [exact E|]. cbv beta. apply Hl; [done|done|lia|]. intros _. rewrite Ec. unfold RECV_QUEUE_SIZE. lia.
Qed.

Lemma receive_noisy k w : noisy k w ->
  wp (softether_receive_raw tick crand malloc_ok zlib_uncompress 2048) (fun r w' => r = (60, junk) /\ noisy k w') w.
Proof.
  intros Hn. pose proof Hn as (Hw & Hs & Hssl & Hr & _). unfold softether_receive_raw. wp_pure.
  rewrite bool_decide_eq_true_2 by done. cbn [negb]. wp_step.
  assert (Hfill : wp (if c_recv_queue_count (w_conn w) <=? 0 then fill_recv_queue tick crand malloc_ok zlib_uncompress else mret 1)
    (fun rc w' => 0 < rc /\ noisy k w' /\ 0 < c_recv_queue_count (w_conn w')) w).
  { wp_step; [|wp_step; split; [done|]; split; [done|lia]].
    unfold fill_recv_queue, softether_fill_recv_queue, softether_fill_recv_queue_locked. wp_pure.
    rewrite (proj2 (Z.eqb_neq _ _)) by done. rewrite Hs. rewrite !bool_decide_eq_false_2 by done. cbn [orb]. wp_step.
    eapply wp_mono; [apply drain_noisy; [done|lia]|]. cbv beta. intros m w1 (H1 & Hm & Hc1).
    wp_step; [|lia]. wp_step. split; [done|]. by split. }
  eapply wp_mono; [exact Hfill|]. cbv beta. intros rc w1 (Hrc & H1 & Hc1). wp_step; [lia|]. wp_step; [lia|]. wp_pure.
  wp_step; [lia|]. wp_step. pose proof H1 as (Hw1 & Hs1 & Hssl1 & Hr1 & Hp1 & Hf1).
  apply (queue_peek_wp (fun _ => True)); [done|lia|]. intros frame rest Ef Hb Hl. wp_step.
  apply (queue_drop_wp (fun _ => True)); [done|lia|]. intros w2 H2 Hf2. wp_step.
  rewrite Ef in Hf1. apply Forall_cons in Hf1 as [-> Hf1]. split; [done|].
  split; [exact H2|]. split; [exact Hs1|]. split; [exact Hssl1|].
  split; [unfold rudp_on, w2 in *; exact Hr1|]. split; [exact Hp1|]. rewrite Hf2, Ef. exact Hf1.
Qed.

Lemma ready_noisy k w : noisy (S k) w ->
  wp dhcp_ready (fun r w' => r = Ready /\ (noisy k w' \/ noisy (S k) w')) w.
Proof.
  intros Hn. pose proof Hn as (Hw & Hs & Hssl & Hr & _). unfold dhcp_ready. wp_pure. wp_step; [|wp_step; auto].
  wp_step. unfold dhcp_fds. wp_pure. rewrite Hr.
  destruct (with_rudp_noisy ac_fd 9 (S k) w Hn) as (w1 & E & H1 & Ec); [done|].
  eapply wp_of_run; [exact E|]. cbv beta. change (9 >=? 0) with true. cbn iota. wp_step.
  set (a := if can_receive _ then _ else _). set (b := map ts_fd _).
  assert (Hl : len (a ++ b ++ [9]) <= 34).
  { unfold b, a. pose proof (world_slots _ w Hw) as Hsl. rewrite !len_app, len_map. change (len [9]) with 1.
    match goal with |- context [filter ?P ?l] => pose proof (length_filter P l) end.
    unfold len in *. unfold MAX_SE_CONNECTIONS in Hsl. destruct (can_receive _); cbn [length]; lia. }
  wp_step. unfold room. eapply wp_lift; [by rewrite (proj2 (Z.leb_le _ (2 + MAX_SE_CONNECTIONS))) by (unfold MAX_SE_CONNECTIONS; lia)|].
  cbv beta. wp_step; [exfalso; slia|]. wp_step. pose proof H1 as (Hw1 & Hs1 & Hssl1 & Hr1 & Hp1 & Hf1).
  unfold wp at 1, sys_poll. rewrite Hp1. cbn [replicate]. set (fds := filter _ _).
  assert (Hfds : 0 < len fds).
  { assert (H9 : 9 ∈ fds) by (apply list_elem_of_filter; split; [done|set_solver]).
    destruct fds; [by apply elem_of_nil in H9|]. slia. }
  cbn [fst]. rewrite (proj2 (Z.ltb_ge _ _)), (proj2 (Z.eqb_neq _ _)) by lia. wp_step. split; [done|]. left. by split_and!.
Qed.

Lemma wait_noisy fuel k elapsed xid r s timeout_ms w : noisy k w -> (fuel <= k)%nat -> elapsed < timeout_ms ->
  wait_loop tick crand malloc_ok zlib_uncompress fuel elapsed xid r s timeout_ms w = Err.
Proof.
  revert k w. induction fuel as [|fuel IH]; intros k w Hn Hk He; [done|]. destruct k as [|k]; [lia|]. cbn [wait_loop].
  rewrite (proj2 (Z.ltb_lt _ _)) by done. cbn [negb].
  destruct (wp_run _ _ _ (ready_noisy k w Hn)) as (rd & w1 & E1 & -> & H1). rewrite (St_step _ _ _ _ _ E1).
  assert (Hn1 : exists k1, noisy k1 w1 /\ (fuel <= k1)%nat) by (destruct H1; [exists k|exists (S k)]; (split; [done|lia])).
  destruct Hn1 as (k1 & Hn1 & Hk1). destruct (wp_run _ _ _ (receive_noisy k1 w1 Hn1)) as (r2 & w2 & E2 & -> & H2).
  rewrite (St_step _ _ _ _ _ E2). cbn [fst snd]. change (60 <? 0) with false. change (len junk =? 0) with false. cbv iota.
  rewrite (St_step _ _ _ (w_conn w2) w2) by done.
  rewrite (St_step _ _ _ (Reply 0 r s) w2) by done. cbn [y_type]. change (0 >? 0) with false. by eapply IH.
Qed.

(** A connected session, nothing queued, with [k] readable polls to come. *)
Definition noisy_world (k : nat) : cworld unit :=
  CWorld (ex_conn <| c_rudp_enabled := true |>) (Some tt) quiet quiet quiet
    (replicate k (PollReady [(9, POLLIN)])) [] 0 0 [] [].

Lemma conn_rudp_ok freed c b : conn_ok freed c -> conn_ok freed (c <| c_rudp_enabled := b |>).
Proof. intros (Hq & Hl & Hs & Hf). split; [exact Hq|]. split; [exact Hl|]. split; [exact Hs|exact Hf]. Qed.

Lemma noisy_world_ok k : noisy k (noisy_world k).
Proof.
  assert (Hok : wok (noisy_world k)).
  { split; [exact (conn_rudp_ok [] ex_conn true ex_conn_ok)|]. split; [intros ch; apply Forall_nil_2|done]. }
  assert (Hf : frames (w_conn (noisy_world k)) = []).
  { apply len_0_nil. rewrite len_frames by apply Hok. vm_compute. done. }
  split; [exact Hok|]. rewrite Hf. split; [vm_compute; done|]. split; [vm_compute; done|]. split; [vm_compute; done|].
  split; [done|apply Forall_nil_2].
Qed.

(** The wait for a DHCP answer has no bound of its own: while frames that
    are no answer keep arriving its 5 s never pass, so for any number of passes
    there is a well-formed session in which the wait is still going on after
    them. *)
Theorem dhcp_wait_starves (passes : nat) (xid : Z) :
  wok (noisy_world passes) /\
  wait_dhcp_response tick crand malloc_ok zlib_uncompress passes xid result_zero 0 DHCP_TIMEOUT_MS (noisy_world passes) = Err.
Proof.
  split; [apply (noisy_world_ok passes)|]. by apply (wait_noisy passes passes); [apply noisy_world_ok| |].
Qed.
End starve.

(** ** The exchange on a concrete session *)

Definition ex_seed (_ : nat) : Z := 5.
Definition ex_idle : cworld aworld := ex_cworld None quiet quiet.

Lemma dhcp_exchange_returns_witness : exists r w',
  softether_do_dhcp ex_tick ex_seed (fun _ => true) ex_zlib ex_unzlib (fun n => n + 13) true 200 ex_idle = Ok (r, w') /\
  world_ok (good 1) w' /\ exchange_ok r.
Proof.
  apply (dhcp_exchange_returns (good 1) ex_tick ex_seed (fun _ => true) ex_zlib ex_unzlib (fun n => n + 13) true).
  - done.
  - apply ex_unzlib_fits.
  - intros src cap d. unfold ex_zlib. destruct (_ <? _) eqn:E; [|done]. intros [= <-]. slia.
  - lia.
  - by apply ex_cworld_ok.
  - done.
  - vm_compute. done.
Defined.
