(* ===== verification/Http.v ===== *)
(** * HTTP framing of the login conversation (softether_protocol.c)

    The server's answers are read header byte by header byte and then exactly
    as long as announced, so that nothing of the data channel behind them is
    consumed. This file holds the strict Content-Length parser, the C string
    search, the reader and the two requests the client posts.

    A pointer into a character array is the list of the bytes from it to the
    end of the array: a search that finds neither its token nor a NUL before
    the end is [Ub]. [stack n] are the uninitialised contents of a local array
    of [n] bytes. *)
From stdpp Require Import functions strings.
From S2P Require Import Prelude Bytes Ring Crypto Conn.

(** A string literal as bytes. *)
Fixpoint str (s : string) : list Z :=
  match s with
  | String.EmptyString => []
  | String.String a s => Z.of_N (Ascii.N_of_ascii a) :: str s
  end.

Definition CR : Z := 13.
Definition LF : Z := 10.
Definition crlf : list Z := [CR; LF].
Definition N11_MAX_CONTENT_LENGTH : Z := 64 * 1024 * 1024.

Definition is_blank (c : Z) : bool := (c =? 32) || (c =? 9).
Definition is_digit (c : Z) : bool := (48 <=? c) && (c <=? 57).

(** ** The value of a Content-Length header *)

Fixpoint skip_blanks (s : list Z) : res (list Z) :=
  match s with
  | [] => Ub
  | c :: s' => if is_blank c then skip_blanks s' else Ok s
  end.

(** The digits; [None] beyond the maximum. *)
Fixpoint parse_digits (v : Z) (s : list Z) : res (option (Z * list Z)) :=
  match s with
  | [] => Ub
  | c :: s' =>
      if is_digit c then
        let v := v * 10 + (c - 48) in
        if v >? N11_MAX_CONTENT_LENGTH then Ok None else parse_digits v s'
      else Ok (Some (v, s))
  end.

(** The value may end at the end of the string, a line end or a blank. *)
Definition ends_value (c : Z) : bool := (c =? 0) || (c =? CR) || (c =? LF) || is_blank c.

Definition parse_content_length (s : list Z) : res Z :=
  s ← skip_blanks s;
  if hd 0 s =? 0 then Ok 0 else
  if negb (is_digit (hd 0 s)) then Ok (-1) else
  r ← parse_digits 0 s;
  match r with
  | None => Ok (-1)
  | Some (v, s) => Ok (if ends_value (hd 0 s) then v else -1)
  end.

(** ** Searching a string *)

(** The token is at the head of the array. *)
Fixpoint match_at (tok s : list Z) : res bool :=
  match tok, s with
  | [], _ => Ok true
  | _, [] => Ub
  | t :: tok, c :: s => if c =? t then match_at tok s else Ok false
  end.

(** [strstr]: the array from the first match on. *)
Fixpoint strstr (s tok : list Z) : res (option (list Z)) :=
  m ← match_at tok s;
  if (m : bool) then Ok (Some s) else
  match s with
  | [] => Ub
  | c :: s' => if c =? 0 then Ok None else strstr s' tok
  end.

(** The announced length: -1 when malformed, 0 when there is none. *)
Definition announced_length (buf : list Z) : res Z :=
  s ← strstr buf (str "Content-Length: ");
  s ← match s with Some s => Ok (Some s) | None => strstr buf (str "content-length: ") end;
  match s with None => Ok 0 | Some s => parse_content_length (dr 16 s) end.

(** ** Formatting *)

(** [%u]: the decimal digits, ten at most. *)
Fixpoint dec_digits (fuel : nat) (n : Z) (acc : list Z) : list Z :=
  match fuel with
  | O => acc
  | S fuel => let acc := 48 + n mod 10 :: acc in if n / 10 =? 0 then acc else dec_digits fuel (n / 10) acc
  end.
Definition dec (n : Z) : list Z := dec_digits 10 n [].

(** [snprintf] into an array: its contents afterwards, and the length the text
    would have had. *)
Definition snprintf (arr text : list Z) : res (list Z * Z) :=
  arr ← blit (tk (len arr - 1) text ++ [0]) 0 arr; Ok (arr, len text).

Definition watermark : list Z := str "VPNCONNECT".

Definition connect_post (server_ip : list Z) : list Z :=
  str "POST /vpnsvc/connect.cgi HTTP/1.1" ++ crlf ++
  str "Host: " ++ server_ip ++ crlf ++
  str "Content-Type: image/jpeg" ++ crlf ++
  str "Connection: Keep-Alive" ++ crlf ++
  str "Content-Length: " ++ dec (len watermark) ++ crlf ++ crlf.

Definition vpn_post (date server_ip : list Z) (pack_len : Z) : list Z :=
  str "POST /vpnsvc/vpn.cgi HTTP/1.1" ++ crlf ++
  str "Date: " ++ date ++ crlf ++
  str "Host: " ++ server_ip ++ crlf ++
  str "Keep-Alive: timeout=15; max=19" ++ crlf ++
  str "Connection: Keep-Alive" ++ crlf ++
  str "Content-Type: application/octet-stream" ++ crlf ++
  str "Content-Length: " ++ dec pack_len ++ crlf ++ crlf.

Section http.
Context {U : Type} (malloc_ok : Z -> bool) (stack : Z -> list Z).
Abbreviation M := (St (cworld U)).

(** A request formatted into a local array of [cap] bytes, with its body sent
    in one write; false for a failure. *)
Definition post (ssl cap : Z) (text body : list Z) : M bool :=
  '(http_hdr, hdr_len) ← lift (snprintf (stack cap) text);
  if negb (malloc_ok (hdr_len + len body)) then mret false else
  head ← lift (fetch 0 hdr_len http_hdr);
  e ← ssl_write ssl (head ++ body);
  mret (match e with WrRoom n => n >? 0 | _ => false end).

(** ** Reading an answer *)

(** The header loop: the array, the bytes read, and whether the blank line was
    found; [None] when a read fails. *)
Fixpoint read_headers (fuel : nat) (ssl buf_size : Z) (buf : list Z) (hdr_len : Z) :
  M (option (list Z * Z * bool)) :=
  match fuel with
  | O => fun _ => Err
  | S fuel =>
      if negb (hdr_len <? buf_size - 1) then mret (Some (buf, hdr_len, false)) else
      e ← ssl_read ssl 1;
      match e with
      | RdData bs =>
          if len bs =? 0 then mret None else
          buf ← lift (blit bs hdr_len buf);
          let hdr_len := hdr_len + 1 in
          tail ← lift (if hdr_len >=? 4 then fetch (hdr_len - 4) 4 buf else Ok []);
          if bool_decide (tail = [CR; LF; CR; LF]) then mret (Some (buf, hdr_len, true))
          else read_headers fuel ssl buf_size buf hdr_len
      | _ => mret None
      end
  end.

(** The body loop: [content_length] bytes behind the headers. *)
Fixpoint read_body (fuel : nat) (ssl : Z) (buf : list Z) (off content_length body_read : Z) : M (option (list Z)) :=
  if negb (body_read <? content_length) then mret (Some buf) else
  match fuel with
  | O => fun _ => Err
  | S fuel =>
      e ← ssl_read ssl (content_length - body_read);
      match e with
      | RdData bs =>
          if len bs =? 0 then mret None else
          buf ← lift (blit bs (off + body_read) buf);
          read_body fuel ssl buf off content_length (body_read + len bs)
      | _ => mret None
      end
  end.

(** The array, [*body_offset] and [*body_len]. *)
Record response := Response { r_buf : list Z; r_offset : Z; r_len : Z }.

Definition read_http_response (ssl buf_size : Z) : M (option response) :=
  h ← read_headers (Z.to_nat buf_size) ssl buf_size (stack buf_size) 0;
  match h with
  | None => mret None
  | Some (buf, hdr_len, found) =>
      if negb found then mret None else
      buf ← lift (blit [0] hdr_len buf);
      cl ← lift (announced_length buf);
      if cl <? 0 then mret None else
      if negb (cl >? 0) then mret (Some (Response buf hdr_len 0)) else
      if hdr_len + cl >? buf_size then mret None else
      b ← read_body (Z.to_nat cl) ssl buf hdr_len cl 0;
      mret (match b with None => None | Some buf => Some (Response buf hdr_len cl) end)
  end.

(** One of two tokens is in the array. *)
Definition has_either (buf t1 t2 : list Z) : res bool :=
  a ← strstr buf t1;
  match a with Some _ => Ok true | None => b ← strstr buf t2; Ok (bool_decide (is_Some b)) end.

Definition http_ok (buf : list Z) : res bool := has_either buf (str "HTTP/1.1 200") (str "HTTP/1.0 200").
End http.
