(* ===== verification/HttpSpec.v ===== *)
(** * What the HTTP reader promises

    [announced] is a reference for the announced length: the text after the
    first Content-Length header of a C string, read as blanks, digits and a
    delimiter. The reader computes it, stays inside its array for every stream
    and, however TLS cuts the stream, takes exactly one header and the body it
    announces. *)
From stdpp Require Import functions strings.
From S2P Require Import Prelude Bytes Ring Pack PackSpec Crypto Conn ConnInv Http.

(** ** Reference definitions *)

Fixpoint take_while (p : Z -> bool) (s : list Z) : list Z :=
  match s with [] => [] | c :: s => if p c then c :: take_while p s else [] end.
Fixpoint drop_while (p : Z -> bool) (s : list Z) : list Z :=
  match s with [] => [] | c :: s' => if p c then drop_while p s' else s end.

Definition number_from (v : Z) (ds : list Z) : Z := fold_left (fun v c => v * 10 + (c - 48)) ds v.

(** The value of a Content-Length header: -1 when malformed, 0 when empty. *)
Definition content_length (s : list Z) : Z :=
  let s := drop_while is_blank s in
  let v := number_from 0 (take_while is_digit s) in
  match s, drop_while is_digit s with
  | [], _ => 0
  | c :: _, rest =>
      if negb (is_digit c) || (v >? N11_MAX_CONTENT_LENGTH) then -1 else
      match rest with [] => v | d :: _ => if ends_value d then v else -1 end
  end.

(** The text from the first occurrence of the token on. *)
Fixpoint find_tok (tok s : list Z) : option (list Z) :=
  if decide (tok `prefix_of` s) then Some s else
  match s with [] => None | _ :: s => find_tok tok s end.

Definition announced (buf : list Z) : Z :=
  let s := cstr buf in
  match find_tok (str "Content-Length: ") s with
  | Some t => content_length (dr 16 t)
  | None => match find_tok (str "content-length: ") s with
            | Some t => content_length (dr 16 t)
            | None => 0
            end
  end.

(** ** Strings in arrays *)

Definition nul_free (s : list Z) : Prop := Forall (fun c => c <> 0) s.
#[global] Instance nul_free_dec s : Decision (nul_free s).
Proof. unfold nul_free. apply _. Defined.

Lemma cstr_split l : 0 ∈ l -> exists j, l = cstr l ++ 0 :: j.
Proof.
  induction l as [|c l IH]; [by intros ?%elem_of_nil|]. intros [<-|Hl]%elem_of_cons.
  - by exists l.
  - cbn [cstr]. destruct (c =? 0) eqn:E; [exists l; by apply Z.eqb_eq in E as ->|].
    destruct (IH Hl) as [j Hj]. exists j. cbn. by rewrite <- Hj.
Qed.
Lemma cstr_nul_free l : nul_free (cstr l).
Proof.
  induction l as [|c l IH]; cbn; [constructor|]. destruct (c =? 0) eqn:E; constructor; [lia|done].
Qed.
Lemma cstr_app a j : cstr (a ++ 0 :: j) = cstr a.
Proof. induction a as [|c a IH]; [done|]. cbn. destruct (c =? 0); [done|]. by rewrite IH. Qed.

Lemma match_at_prefix tok a j : nul_free tok -> match_at tok (a ++ 0 :: j) = Ok (bool_decide (tok `prefix_of` a)).
Proof.
  intros Ht. revert a. induction Ht as [|t tok Hne Ht IH]; intros a.
  - rewrite bool_decide_eq_true_2 by apply prefix_nil. by destruct a.
  - destruct a as [|c a]; cbn [match_at app].
    + replace (0 =? t) with false by lia. rewrite bool_decide_eq_false_2; [done|]. by intros [? ?].
    + destruct (c =? t) eqn:E.
      * rewrite IH. f_equal. apply Z.eqb_eq in E as ->. apply bool_decide_ext. split; [apply prefix_cons|].
        apply prefix_cons_inv_2.
      * rewrite bool_decide_eq_false_2; [done|]. intros Hp%prefix_cons_inv_1. lia.
Qed.

Lemma strstr_eq s tok :
  strstr s tok = m ← match_at tok s;
    if (m : bool) then Ok (Some s) else
    match s with [] => Ub | c :: s' => if c =? 0 then Ok None else strstr s' tok end.
Proof. by destruct s. Qed.

Lemma strstr_find tok a j : nul_free tok -> nul_free a ->
  strstr (a ++ 0 :: j) tok = Ok ((fun t => t ++ 0 :: j) <$> find_tok tok a).
Proof.
  intros Ht. induction 1 as [|c a Hc Ha IH]; rewrite strstr_eq, match_at_prefix, bind_ok by done; cbn [find_tok app].
  - by case_decide; [rewrite bool_decide_eq_true_2|rewrite bool_decide_eq_false_2].
  - case_decide; [by rewrite bool_decide_eq_true_2|rewrite bool_decide_eq_false_2 by done].
    replace (c =? 0) with false by lia. apply IH.
Qed.

(** An array with a NUL in it can be searched. *)
Lemma strstr_ok tok l : nul_free tok -> 0 ∈ l -> exists r, strstr l tok = Ok r.
Proof.
  intros Ht Hl. destruct (cstr_split l Hl) as [j ->]. rewrite strstr_find; [by eexists|done|apply cstr_nul_free].
Qed.

Lemma find_tok_prefix tok s t : find_tok tok s = Some t -> tok `prefix_of` t.
Proof. induction s as [|c s IH]; cbn; case_decide; intros; by simplify_eq || auto. Qed.
Lemma find_tok_suffix tok s t : find_tok tok s = Some t -> t `suffix_of` s.
Proof.
  induction s as [|c s IH]; cbn; case_decide; intros E; simplify_eq; [done..|].
  by apply suffix_cons_r, IH.
Qed.

(** ** The number *)

Lemma number_from_ge ds v : 0 <= v -> Forall (fun c => is_digit c = true) ds -> v <= number_from v ds.
Proof.
  intros Hv Hd. revert v Hv. induction Hd as [|c ds Hc Hd IH]; intros v Hv; [cbn; lia|].
  cbn. unfold is_digit in Hc. specialize (IH (v * 10 + (c - 48)) ltac:(lia)). unfold number_from in IH. lia.
Qed.
Lemma take_while_all p s : Forall (fun c => p c = true) (take_while p s).
Proof. induction s as [|c s IH]; cbn; [constructor|]. destruct (p c) eqn:E; by constructor. Qed.
Lemma take_drop_while p s : take_while p s ++ drop_while p s = s.
Proof. induction s as [|c s IH]; [done|]. cbn. destruct (p c); cbn; [by rewrite IH|done]. Qed.
Lemma nul_free_drop_while p s : nul_free s -> nul_free (drop_while p s).
Proof. intros Hs. rewrite <- (take_drop_while p s) in Hs. by apply Forall_app in Hs as []. Qed.

Lemma skip_blanks_at a j : skip_blanks (a ++ 0 :: j) = Ok (drop_while is_blank a ++ 0 :: j).
Proof. induction a as [|c a IH]; [done|]. cbn. by destruct (is_blank c). Qed.

Lemma parse_digits_at a j v : 0 <= v <= N11_MAX_CONTENT_LENGTH ->
  parse_digits v (a ++ 0 :: j) =
  let n := number_from v (take_while is_digit a) in
  Ok (if n >? N11_MAX_CONTENT_LENGTH then None
      else Some (n, drop_while is_digit a ++ 0 :: j)).
Proof.
  revert v. induction a as [|c a IH]; intros v Hv; cbn [app parse_digits take_while drop_while].
  - change (is_digit 0) with false. cbn. by replace (_ >? _) with false by lia.
  - destruct (is_digit c) eqn:E; [|cbn; by replace (_ >? _) with false by lia].
    assert (Hc : 0 <= c - 48) by (unfold is_digit in E; lia). cbn [number_from fold_left].
    fold (number_from (v * 10 + (c - 48)) (take_while is_digit a)).
    pose proof (number_from_ge (take_while is_digit a) (v * 10 + (c - 48)) ltac:(lia) (take_while_all _ _)).
    destruct (v * 10 + (c - 48) >? N11_MAX_CONTENT_LENGTH) eqn:E1.
    + cbn zeta. by replace (_ >? _) with true by lia.
    + by rewrite IH by lia.
Qed.

Lemma parse_at a j : nul_free a -> parse_content_length (a ++ 0 :: j) = Ok (content_length a).
Proof.
  intros Ha. unfold parse_content_length, content_length. rewrite skip_blanks_at, bind_ok.
  pose proof (nul_free_drop_while is_blank a Ha) as Hs. cbn zeta.
  destruct (drop_while is_blank a) as [|c s]; [done|]. cbn [hd app].
  assert (Hc : c <> 0) by (by apply Forall_cons in Hs as [? _]).
  replace (c =? 0) with false by lia.
  destruct (is_digit c) eqn:Ed; cbn [negb orb]; [|by cbn].
  change (c :: s ++ 0 :: j) with ((c :: s) ++ 0 :: j).
  rewrite parse_digits_at by (unfold N11_MAX_CONTENT_LENGTH; lia). rewrite bind_ok.
  destruct (_ >? _); [done|]. by destruct (drop_while is_digit (c :: s)).
Qed.

Lemma content_length_bound a : -1 <= content_length a <= N11_MAX_CONTENT_LENGTH.
Proof.
  unfold content_length. cbn zeta. set (s := drop_while is_blank a).
  pose proof (number_from_ge (take_while is_digit s) 0 ltac:(lia) (take_while_all _ _)).
  unfold N11_MAX_CONTENT_LENGTH in *. destruct s as [|c s'] eqn:E; [lia|]. rewrite <- E in *.
  destruct (_ || _) eqn:Eo; [lia|]. destruct (drop_while is_digit s) as [|d r]; [lia|]. destruct (ends_value d); lia.
Qed.

(** The announced length of an array that holds a string. *)
Lemma announced_ok buf : 0 ∈ buf -> announced_length buf = Ok (announced buf).
Proof.
  intros Hb. destruct (cstr_split buf Hb) as [j Hj]. pose proof (cstr_nul_free buf) as Hn.
  unfold announced_length, announced. cbn zeta. revert Hj Hn. generalize (cstr buf) as a. intros a -> Hn.
  assert (Hval : forall tok t, len tok = 16 -> find_tok tok a = Some t ->
    parse_content_length (dr 16 (t ++ 0 :: j)) = Ok (content_length (dr 16 t))).
  { intros tok t Hl Ht. pose proof (find_tok_prefix _ _ _ Ht) as [k ->].
    rewrite dr_app, (dr_0 (0 :: j)) by slia. apply parse_at.
    apply find_tok_suffix in Ht as [b Hb']. unfold nul_free in *. rewrite Hb', Forall_app in Hn.
    apply Forall_drop, Hn. }
  rewrite (strstr_find (str "Content-Length: ")), bind_ok by (done || by apply (bool_decide_unpack _)).
  destruct (find_tok (str "Content-Length: ") a) as [t|] eqn:E; cbn [fmap option_fmap option_map].
  { rewrite bind_ok. by apply (Hval (str "Content-Length: ")). }
  rewrite (strstr_find (str "content-length: ")), bind_ok by (done || by apply (bool_decide_unpack _)).
  destruct (find_tok (str "content-length: ") a) as [t|] eqn:E2; cbn [fmap option_fmap option_map]; [|done].
  by apply (Hval (str "content-length: ")).
Qed.

(** ** The reader on any stream *)

(** The uninitialised contents of local arrays. *)
Definition arrays_ok (stack : Z -> list Z) : Prop := forall n, 0 <= n -> len (stack n) = n /\ bytes_ok (stack n).

Lemma blit_ok bs off l : 0 <= off -> off + len bs <= len l ->
  exists l', blit bs off l = Ok l' /\ l' = tk off l ++ bs ++ dr (off + len bs) l /\ len l' = len l /\
    (bytes_ok bs -> bytes_ok l -> bytes_ok l').
Proof.
  intros Ho Hl. unfold blit. destruct (_ && _) eqn:E; [|lia]. eexists. split; [done|]. split; [done|].
  split; [slia|]. auto with bytes.
Qed.

(** A computation that writes into an array it holds. *)
Lemma wp_blit {U A} bs off l (f : list Z -> St (cworld U) A) Q w :
  0 <= off -> off + len bs <= len l ->
  (forall l', l' = tk off l ++ bs ++ dr (off + len bs) l -> len l' = len l ->
    (bytes_ok bs -> bytes_ok l -> bytes_ok l') -> wp (f l') Q w) ->
  wp (lift (blit bs off l) ≫= f) Q w.
Proof.
  intros Ho Hl Hf. destruct (blit_ok bs off l Ho Hl) as (l' & E & E' & El & Eb).
  apply wp_bind. by eapply wp_lift, Hf.
Qed.

(** ** Answers *)

Definition blank_line : list Z := [CR; LF; CR; LF].

(** A header: it ends with a blank line, and has none before. *)
Definition is_header (h : list Z) : Prop :=
  blank_line `suffix_of` h /\ forall p, p `prefix_of` h -> blank_line `suffix_of` p -> p = h.

(** A header and the body it announces. *)
Definition answer_of (h b : list Z) : Prop := is_header h /\ len b = announced h.

(** All the bytes that wait on a channel. *)
Fixpoint all_data (s : list rd_event) : list Z :=
  match s with
  | [] => []
  | RdData bs :: s => bs ++ all_data s
  | _ :: s => all_data s
  end.
Definition data_of_event (e : rd_event) : list Z := match e with RdData bs => bs | _ => [] end.

Lemma rd_next_all n s : 0 < n -> all_data s = data_of_event (rd_next n s).1 ++ all_data (rd_next n s).2.
Proof.
  intros Hn. destruct s as [|[bs| | |] s]; try done. cbn [rd_next fst snd data_of_event].
  destruct (n <? len bs) eqn:E; cbn [all_data]; [by rewrite app_assoc, tk_dr|]. by rewrite tk_all by lia.
Qed.

Section reader.
Context {U : Type} (stack : Z -> list Z) (Hstack : arrays_ok stack).
Implicit Types w : cworld U.

(** The context is alive and the peer sends bytes. *)
Definition reading (ssl : Z) w : Prop := (ssl ∉ w_freed w) /\ forall c, Forall rd_ok (w_in w c).

Lemma reading_after ssl w w' : reading ssl w -> after_read (Tls ssl) w w' -> reading ssl w'.
Proof.
  intros [H1 H2] Ha. destruct (after_read_conn _ _ _ Ha) as (_ & E & _). split; [by rewrite E|]. by apply Ha.
Qed.

Definition waiting (ssl : Z) w : list Z := all_data (w_in w (Tls ssl)).

Lemma ladder_all retries ssl n w : 0 < n ->
  wp (ssl_read_ladder retries ssl n) (fun e w' => waiting ssl w = data_of_event e ++ waiting ssl w') w.
Proof.
  intros Hn. revert w. induction retries as [|k IH]; intros w; cbn [ssl_read_ladder]; [by wp_step|].
  wp_step. unfold wp at 1, sys_read. pose proof (rd_next_all n (w_in w (Tls ssl)) Hn) as Hall.
  set (w1 := w <| w_in := _ |>).
  assert (Hw1 : waiting ssl w1 = all_data (rd_next n (w_in w (Tls ssl))).2) by (unfold waiting, w1; cbn; by rewrite fn_lookup_insert).
  fold (waiting ssl w) in Hall. rewrite <- Hw1 in Hall.
  destruct (rd_next n _).1 as [bs| | |]; try by wp_step. rewrite Hall. apply IH.
Qed.

(** One read: some bytes, or a failure. *)
Lemma one_read ssl n w : reading ssl w -> 0 < n ->
  wp (ssl_read ssl n) (fun e w' => after_read (Tls ssl) w w' /\ waiting ssl w = data_of_event e ++ waiting ssl w' /\
    (forall bs, e = RdData bs -> len bs <= n /\ bytes_ok bs)) w.
Proof.
  intros [Hf Hi] Hn. eapply wp_mono.
  - apply wp_and; [by apply ssl_read_wp|]. instantiate (1 := fun e w' => waiting ssl w = data_of_event e ++ waiting ssl w').
    unfold ssl_read. wp_step; [by wp_step|]. wp_step. apply deref_ssl_wp; [done|]. by apply ladder_all.
  - intros e w' [[(Ha & _ & _ & Hd & Hb) _] Hall]. split; [done|]. split; [done|]. intros bs ->.
    split; [by apply Hd|]. by apply Hb in Hi.
Qed.

(** The bytes taken from the channel. *)
Definition taken ssl w w' (c : list Z) : Prop := after_read (Tls ssl) w w' /\ waiting ssl w = c ++ waiting ssl w'.
Lemma taken_trans ssl w1 w2 w3 a b : taken ssl w1 w2 a -> taken ssl w2 w3 b -> taken ssl w1 w3 (a ++ b).
Proof.
  intros [A1 E1] [A2 E2]. split; [by eapply after_read_trans|]. by rewrite E1, E2, app_assoc.
Qed.
Lemma taken_refl ssl w : taken ssl w w [].
Proof. split; [apply after_read_refl|done]. Qed.

(** No blank line so far. *)
Definition no_blank (got : list Z) : Prop := forall p, p `prefix_of` got -> ~ blank_line `suffix_of` p.

Lemma no_blank_nil : no_blank [].
Proof. intros p Hp%prefix_nil_inv [q Hq]. subst p. by destruct q. Qed.
Lemma prefix_snoc {A} (p l : list A) x : p `prefix_of` l ++ [x] -> p `prefix_of` l \/ p = l ++ [x].
Proof.
  intros [r Hr]. destruct (decide (r = [])) as [->|Hne]; [right; by rewrite app_nil_r in Hr|left].
  destruct (exists_last Hne) as (r' & y & ->). rewrite app_assoc in Hr. apply app_inj_tail in Hr as [-> _]. by exists r'.
Qed.
Lemma no_blank_snoc got b : no_blank got -> ~ blank_line `suffix_of` (got ++ [b]) -> no_blank (got ++ [b]).
Proof. intros Hn Hb p [Hp| ->]%prefix_snoc; [by apply Hn|done]. Qed.
Lemma header_snoc got b : no_blank got -> blank_line `suffix_of` (got ++ [b]) -> is_header (got ++ [b]).
Proof. intros Hn Hb. split; [done|]. intros p [Hp| ->]%prefix_snoc Hs; [by destruct (Hn p Hp)|done]. Qed.

(** The last four bytes of what was read so far. *)
Lemma tail_suffix k (got buf : list Z) : tk k buf = got -> len got = k ->
  exists tail, (if k >=? 4 then fetch (k - 4) 4 buf else Ok []) = Ok tail /\
    (tail = blank_line <-> blank_line `suffix_of` got).
Proof.
  intros Hg Hk. pose proof (len_nonneg got). assert (Hlb : k <= len buf) by (rewrite <- Hg in Hk; slia).
  destruct (k >=? 4) eqn:E.
  - destruct (fetch_safe (k - 4) 4 buf ltac:(lia) ltac:(lia)) as [t Ht]. exists t. split; [done|].
    assert (Ht' : got = tk (k - 4) got ++ t).
    { unfold fetch in Ht. destruct (_ && _); [|done]. injection Ht as <-. rewrite <- Hg.
      rewrite tk_tk, Z.min_l by lia. unfold slice. rewrite <- (tk_dr (k - 4) buf) at 1.
      rewrite tk_app. rewrite tk_all by slia. do 2 f_equal. slia. }
    assert (Hlt : length t = 4%nat). { apply fetch_len in Ht; [|lia]. unfold len in Ht. lia. }
    rewrite Ht'. split; [intros ->; by eexists|]. intros [p Hp].
    apply app_inj_2 in Hp as [_ ->]; [done|]. by rewrite Hlt.
  - exists []. split; [done|]. split; [done|]. intros [p ->]. change blank_line with [CR; LF; CR; LF] in *. slia.
Qed.

(** Bytes stored behind those read so far. *)
Lemma tk_stored (got bs buf : list Z) : len got <= len buf -> tk (len got) buf = got ->
  forall buf', buf' = tk (len got) buf ++ bs ++ dr (len got + len bs) buf ->
  tk (len (got ++ bs)) buf' = got ++ bs.
Proof. intros Hl Hg buf' ->. rewrite Hg, app_assoc. by apply tk_app_exact. Qed.

Definition headers_post n got ssl w (r : option (list Z * Z * bool)) w' : Prop :=
  exists c, taken ssl w w' c /\
  match r with
  | None => True
  | Some (buf, k', found) => len buf = n /\ bytes_ok buf /\ k' = len (got ++ c) /\ k' <= n - 1 /\
      tk k' buf = got ++ c /\ (found = true -> is_header (got ++ c))
  end.

Lemma read_headers_wp fuel ssl n buf got w :
  reading ssl w -> len buf = n -> bytes_ok buf -> tk (len got) buf = got -> no_blank got ->
  len got <= n - 1 -> n - 1 - len got < Z.of_nat fuel ->
  wp (read_headers fuel ssl n buf (len got)) (headers_post n got ssl w) w.
Proof.
  revert buf got w. induction fuel as [|fuel IH]; intros buf got w Hw Hl Hb Hg Hnb Hk Hf; [lia|].
  pose proof (len_nonneg got). cbn [read_headers]. wp_step.
  { wp_step. exists []. rewrite app_nil_r. split; [apply taken_refl|]. split_and!; done || lia. }
  wp_step. eapply wp_mono; [apply one_read; [done|lia]|]. intros e w1 (Ha & Hall & Hd).
  assert (Hfail : wp (mret None) (headers_post n got ssl w) w1) by (wp_step; by eexists).
  destruct e as [bs| | |]; [|exact Hfail..]. destruct (Hd bs eq_refl) as [Hle Hbs].
  wp_step; [exact Hfail|]. assert (H1 : len bs = 1) by slia. cbn [data_of_event] in Hall.
  apply wp_blit; [lia..|]. intros buf' Eb Hl' Hb'. specialize (Hb' Hbs Hb).
  assert (Hg' : tk (len (got ++ bs)) buf' = got ++ bs) by (eapply tk_stored; [|done|exact Eb]; lia).
  replace (len got + 1) with (len (got ++ bs)) by slia.
  destruct (tail_suffix (len (got ++ bs)) (got ++ bs) buf') as (tail & Ht & Hsuf); [done..|].
  destruct bs as [|b []]; [by rewrite len_nil in H1| |rewrite !len_cons in H1; slia].
  wp_step. eapply wp_lift; [exact Ht|]. change [CR; LF; CR; LF] with blank_line. wp_step.
  - apply bool_decide_eq_true, Hsuf in Hc1. wp_step. exists [b]. split; [by split|].
    split_and!; [lia|done|done|slia|done|]. intros _. by apply header_snoc.
  - apply bool_decide_eq_false in Hc1. eapply wp_mono.
    + apply IH; [by eapply reading_after|lia|done|done| |slia|slia]. apply no_blank_snoc; [done|]. by rewrite <- Hsuf.
    + intros r w2 (c & Ht2 & Hr). exists ([b] ++ c). split; [eapply taken_trans; [by split|done]|].
      rewrite <- app_assoc in Hr. done.
Qed.

Lemma read_body_wp fuel ssl buf pre cl got w :
  reading ssl w -> bytes_ok buf -> tk (len (pre ++ got)) buf = pre ++ got -> len got <= cl ->
  len pre + cl <= len buf -> cl - len got <= Z.of_nat fuel ->
  wp (read_body fuel ssl buf (len pre) cl (len got)) (fun r w' => exists c, taken ssl w w' c /\
    (forall b, r = Some b -> len b = len buf /\ bytes_ok b /\ len (got ++ c) = cl /\
       tk (len (pre ++ got ++ c)) b = pre ++ got ++ c)) w.
Proof.
  pose proof (len_nonneg pre). revert buf got w.
  induction fuel as [|fuel IH]; intros buf got w Hw Hb Hg Hgl Hl Hf; cbn [read_body]; pose proof (len_nonneg got).
  all: assert (Hend : len got = cl -> wp (mret (Some buf)) (fun r w' => exists c, taken ssl w w' c /\
    (forall b, r = Some b -> len b = len buf /\ bytes_ok b /\ len (got ++ c) = cl /\
       tk (len (pre ++ got ++ c)) b = pre ++ got ++ c)) w) by
   (intros E; wp_step; exists []; rewrite app_nil_r; split; [apply taken_refl|]; by intros b [= <-]).
  - wp_step; [apply Hend; lia|lia].
  - wp_step; [apply Hend; lia|].
    wp_step. eapply wp_mono; [apply one_read; [done|lia]|]. intros e w1 (Ha & Hall & Hd).
    destruct e as [bs| | |]; [|wp_step; by eexists..]. destruct (Hd bs eq_refl) as [Hle Hbs].
    wp_step; [wp_step; by eexists|]. pose proof (len_nonneg bs).
    apply wp_blit; [lia..|]. intros buf' Eb Hl' Hb'. specialize (Hb' Hbs Hb).
    replace (len got + len bs) with (len (got ++ bs)) by slia.
    eapply wp_mono.
    + apply (IH buf' (got ++ bs)); [by eapply reading_after|done| |slia|slia|slia].
      rewrite !app_assoc. apply (tk_stored (pre ++ got) bs buf); [slia|done|]. by rewrite len_app.
    + intros r w2 (c & Ht2 & Hr). exists (bs ++ c). split; [eapply taken_trans; [by split|done]|].
      intros b ->. destruct (Hr b eq_refl) as (? & ? & Hcl & Htk). rewrite <- !app_assoc in *.
      split_and!; done || lia.
Qed.

(** What the caller gets: an array of its size with one answer in it, the
    bytes that were taken from the channel. *)
Definition response_ok n (c : list Z) (r : response) : Prop :=
  len (r_buf r) = n /\ bytes_ok (r_buf r) /\ r_offset r + r_len r <= n /\
  c = tk (r_offset r + r_len r) (r_buf r) /\ (r_len r = 0 -> 0 ∈ r_buf r) /\
  exists h b, c = h ++ b /\ answer_of h b /\ r_offset r = len h /\ r_len r = len b.

Lemma read_response_wp ssl n w : reading ssl w -> 0 < n ->
  wp (read_http_response stack ssl n) (fun r w' => exists c, taken ssl w w' c /\
    (forall x, r = Some x -> response_ok n c x)) w.
Proof.
  intros Hw Hn. destruct (Hstack n ltac:(lia)) as [Hl Hb]. unfold read_http_response.
  wp_step. eapply wp_mono.
  { apply (read_headers_wp _ ssl n (stack n) []); [done..|apply no_blank_nil|rewrite len_nil; lia|rewrite len_nil; lia]. }
  intros r w1 (c & Hc & Hr). destruct r as [[[buf k] found]|]; [|wp_step; by exists c].
  destruct Hr as (Hl1 & Hb1 & Hk & Hkn & Htk & Hh). cbn [app] in Hk, Htk, Hh.
  wp_step; [wp_step; by exists c|]. pose proof (len_nonneg c).
  apply wp_blit; [lia|change (len [0]) with 1; lia|]. intros buf' Eb Hl' Hb'.
  specialize (Hb' ltac:(repeat constructor; unfold byte_ok; lia) Hb1).
  destruct found; [|done]. specialize (Hh eq_refl). rewrite Htk in Eb.
  wp_step. eapply wp_lift; [apply announced_ok|].
  { rewrite Eb. apply elem_of_app. right. apply list_elem_of_here. }
  assert (Ean : announced buf' = announced c).
  { rewrite Eb. unfold announced. cbn [app]. by rewrite cstr_app. }
  assert (Ek : tk k buf' = c) by (rewrite Eb; by apply tk_app_exact). rewrite Ean.
  wp_step; [wp_step; by exists c|]. wp_step.
  { wp_step. exists c. split; [done|]. intros x [= <-]. unfold response_ok. cbn [r_buf r_offset r_len].
    split_and!; try done; try lia; [by rewrite Z.add_0_r| |].
    - intros _. rewrite Eb. apply elem_of_app. right. apply list_elem_of_here.
    - exists c, []. rewrite app_nil_r. split_and!; try done. split; [done|]. change (len (@nil Z)) with 0. lia. }
  wp_step; [wp_step; by exists c|]. wp_step. rewrite Hk. eapply wp_mono.
  { apply (read_body_wp _ ssl buf' c (announced c) []); [eapply reading_after; [done|apply Hc]|done| |change (len (@nil Z)) with 0; lia..].
    by rewrite app_nil_r, <- Hk. }
  intros b w2 (c2 & Hct & Hb2). wp_step. exists (c ++ c2). split; [by eapply taken_trans|].
  destruct b as [b|]; [|done]. intros x [= <-]. destruct (Hb2 b eq_refl) as (Hlb & Hbb & Hcl & Hctk).
  cbn [app] in Hcl, Hctk. rewrite len_app, Hcl in Hctk. unfold response_ok. cbn [r_buf r_offset r_len].
  split_and!; try done; try lia. exists c, c2. by split_and!.
Qed.
End reader.

(** ** Framing *)

Section framing.
Context {U : Type} (stack : Z -> list Z) (Hstack : arrays_ok stack) (ssl : Z) (Hssl : ssl <> 0).
Implicit Types w : cworld U.

Definition pending w : list Z := stream (w_in w (Tls ssl)).

Lemma one_read_stream n w : reading ssl w -> 0 < n -> pending w <> [] ->
  wp (ssl_read ssl n) (fun e w' => after_read (Tls ssl) w w' /\ exists k, 0 < k <= n /\ k <= len (pending w) /\
    e = RdData (tk k (pending w)) /\ pending w' = dr k (pending w) /\ bytes_ok (tk k (pending w))) w.
Proof.
  intros [Hf Hi] Hn Hs. eapply wp_mono; [by apply ssl_read_wp|].
  intros e w' [(Ha & _ & _ & _ & Hb) Hst]. split; [done|]. destruct (Hst Hssl Hs) as (k & Hk & Hle & -> & Hp).
  exists k. by specialize (Hb Hi).
Qed.

Lemma tk_snoc {A} (k : Z) (l bs m : list A) : 0 <= k <= len l -> tk (k + len bs) (tk k l ++ bs ++ m) = tk k l ++ bs.
Proof. intros. rewrite app_assoc, tk_app_exact; [done|slia]. Qed.

Lemma read_headers_stream fuel n buf got rem more w :
  reading ssl w -> len buf = n -> bytes_ok buf -> is_header (got ++ rem) -> rem <> [] ->
  tk (len got) buf = got -> len (got ++ rem) <= n - 1 -> len rem < Z.of_nat fuel -> pending w = rem ++ more ->
  wp (read_headers fuel ssl n buf (len got))
    (fun r w' => after_read (Tls ssl) w w' /\ pending w' = more /\
       exists buf', r = Some (buf', len (got ++ rem), true) /\ len buf' = n /\ bytes_ok buf' /\
         tk (len (got ++ rem)) buf' = got ++ rem) w.
Proof.
  revert buf got rem w. induction fuel as [|fuel IH]; intros buf got rem w Hw Hl Hb Hh Hr Hg Hn Hf Hp; [slia|].
  destruct rem as [|b rem]; [done|]. cbn [read_headers]. wp_step; [slia|].
  wp_step. eapply wp_mono; [apply one_read_stream; [done|lia|by rewrite Hp]|].
  intros e w1 (Ha & k & Hk & _ & -> & Hp1 & Hbyte). replace k with 1 in * by lia. rewrite Hp in *.
  change (tk 1 ((b :: rem) ++ more)) with [b] in *. change (dr 1 ((b :: rem) ++ more)) with (rem ++ more) in *.
  wp_step; [discriminate|]. pose proof (len_nonneg got).
  apply wp_blit; [lia|change (len [b]) with 1; slia|]. intros buf' Eb Hl' Hb'.
  specialize (Hb' Hbyte Hb). rewrite Hg in Eb. set (got' := got ++ [b]).
  assert (El : len got' = len got + 1) by (subst got'; slia).
  assert (Hg' : tk (len got') buf' = got').
  { rewrite Eb, app_assoc. by apply tk_app_exact. }
  destruct (tail_suffix (len got + 1) got' buf') as (tail & Ht & Hsuf); [by rewrite <- El|done|].
  wp_step. eapply wp_lift; [exact Ht|]. rewrite <- El in *.
  assert (Eh : got ++ b :: rem = got' ++ rem) by (subst got'; by rewrite <- app_assoc). rewrite Eh in *.
  wp_step.
  - apply bool_decide_eq_true, Hsuf in Hc1. destruct Hh as [_ Hu].
    specialize (Hu got' ltac:(by eexists) Hc1). rewrite <- Hu. wp_step. split; [done|].
    assert (rem = []) as ->. { apply (app_inv_head got'). by rewrite app_nil_r. }
    split; [done|]. exists buf'. split_and!; done || lia.
  - apply bool_decide_eq_false in Hc1. eapply wp_mono.
    + apply (IH buf' got' rem); try done; [by eapply reading_after|lia| |slia].
      intros ->. rewrite app_nil_r in Hh. by apply Hc1, Hsuf, Hh.
    + intros r w2 (Ha2 & Hp2 & Hr2). split; [by eapply after_read_trans|done].
Qed.

Lemma read_body_stream fuel buf pre got body more cl w :
  reading ssl w -> bytes_ok buf -> len pre + cl <= len buf -> tk (len pre + len got) buf = pre ++ got ->
  len got + len body = cl -> len body <= Z.of_nat fuel -> pending w = body ++ more ->
  wp (read_body fuel ssl buf (len pre) cl (len got))
    (fun r w' => after_read (Tls ssl) w w' /\ pending w' = more /\
       exists buf', r = Some buf' /\ len buf' = len buf /\ bytes_ok buf' /\
         tk (len pre + cl) buf' = pre ++ got ++ body) w.
Proof.
  pose proof (len_nonneg pre). revert buf got body w.
  induction fuel as [|fuel IH]; intros buf got body w Hw Hb Hl Hg Hc Hf Hp; cbn [read_body];
    pose proof (len_nonneg got); pose proof (len_nonneg body).
  all: assert (Hend : body = [] -> wp (mret (Some buf)) (fun r w' => after_read (Tls ssl) w w' /\ pending w' = more /\
       exists buf', r = Some buf' /\ len buf' = len buf /\ bytes_ok buf' /\
         tk (len pre + cl) buf' = pre ++ got ++ body) w) by
    (intros ->; wp_step; split; [apply after_read_refl|]; split; [exact Hp|]; exists buf;
     rewrite app_nil_r, <- Hg; split_and!; try done; f_equal; slia).
  - wp_step; [|lia]. apply Hend, len_0_nil. lia.
  - wp_step; [apply Hend, len_0_nil; lia|].
    assert (Hne : body <> []). { intros ->. rewrite len_nil in *. lia. }
    wp_step. eapply wp_mono; [apply one_read_stream; [done|lia|]|].
    { rewrite Hp. by destruct body. }
    intros e w1 (Ha & k & Hk & _ & -> & Hp1 & Hbyte). rewrite Hp in *.
    replace (tk k (body ++ more)) with (tk k body) in *
      by (rewrite tk_app, (tk_0 more), app_nil_r by lia; done).
    rewrite dr_app, (dr_0 more) in Hp1 by lia.
    assert (Hlk : len (tk k body) = k) by slia. wp_step; [lia|].
    apply wp_blit; [lia..|]. intros buf' Eb Hl' Hb'. specialize (Hb' Hbyte Hb).
    replace (len got + len (tk k body)) with (len (got ++ tk k body)) by slia.
    eapply wp_mono.
    + apply (IH buf' (got ++ tk k body) (dr k body)); try done; [by eapply reading_after|lia| |slia|slia].
      rewrite Eb, Hg, <- !app_assoc, (app_assoc got), (app_assoc pre). apply tk_app_exact. slia.
    + intros r w2 (Ha2 & Hp2 & b & -> & Hlb & Hbb & Htk). split; [by eapply after_read_trans|]. split; [done|].
      exists b. rewrite Htk, <- !app_assoc, tk_dr. split_and!; done || lia.
Qed.

(** A header followed by the body it announces is read, and nothing else. *)
Lemma response_framed n h body rest w :
  reading ssl w -> is_header h -> announced h = len body ->
  len h < n -> len h + len body <= n -> pending w = h ++ body ++ rest ->
  wp (read_http_response stack ssl n) (fun r w' => after_read (Tls ssl) w w' /\ pending w' = rest /\
    exists buf, r = Some (Response buf (len h) (len body)) /\ len buf = n /\ bytes_ok buf /\
      tk (len h + len body) buf = h ++ body /\ (body = [] -> tk (len h + 1) buf = h ++ [0])) w.
Proof.
  intros Hw Hh Han Hn Hfit Hp. pose proof (len_nonneg h). pose proof (len_nonneg body).
  destruct (Hstack n ltac:(lia)) as [Hl Hb].
  assert (Hne : h <> []). { destruct Hh as [[p ->] _]. by destruct p. }
  unfold read_http_response. wp_step. eapply wp_mono.
  { apply (read_headers_stream (Z.to_nat n) n (stack n) [] h (body ++ rest)); try done;
      change ([] ++ h) with h; lia. }
  intros r w1 (Ha & Hp1 & buf & -> & Hl1 & Hb1 & Htk). change ([] ++ h) with h in *. cbn [negb].
  apply wp_blit; [lia|change (len [0]) with 1; lia|]. intros buf' Eb Hl' Hb'.
  specialize (Hb' ltac:(repeat constructor; unfold byte_ok; lia) Hb1). rewrite Htk in Eb.
  wp_step. eapply wp_lift; [apply announced_ok|].
  { rewrite Eb. apply elem_of_app. right. apply list_elem_of_here. }
  assert (Ean : announced buf' = len body).
  { rewrite <- Han, Eb. unfold announced. cbn [app]. by rewrite cstr_app. }
  rewrite Ean. wp_step; [lia|]. wp_step.
  - assert (body = []) as -> by (apply len_0_nil; lia). wp_step. rewrite app_nil_r, len_nil, Z.add_0_r in *.
    split; [done|]. split; [exact Hp1|]. exists buf'. split; [done|]. split; [lia|]. split; [done|].
    rewrite Eb. split; [by apply tk_app_exact|]. intros _. rewrite app_assoc. apply tk_app_exact. slia.
  - wp_step; [lia|]. wp_step. eapply wp_mono.
    + apply (read_body_stream (Z.to_nat (len body)) buf' h [] body rest (len body)); try done;
        [by eapply reading_after|lia| |lia]. rewrite len_nil, Z.add_0_r, app_nil_r, Eb. by apply tk_app_exact.
    + intros r w2 (Ha2 & Hp2 & b & -> & Hlb & Hbb & Htk2). wp_step. split; [by eapply after_read_trans|].
      split; [done|]. exists b. split_and!; try done; [lia|]. intros ->. done.
Qed.
End framing.

(** ** The length a request announces *)

Lemma number_from_app v a b : number_from v (a ++ b) = number_from (number_from v a) b.
Proof. apply fold_left_app. Qed.

Lemma dec_digits_ok fuel n acc : 0 <= n < 10 ^ Z.of_nat fuel -> fuel <> O ->
  exists d, dec_digits fuel n acc = d ++ acc /\ d <> [] /\ Forall (fun c => is_digit c = true) d /\ number_from 0 d = n.
Proof.
  revert n acc. induction fuel as [|f IH]; intros n acc Hn Hf; [done|]. cbn [dec_digits]. cbn zeta.
  pose proof (Z.mod_pos_bound n 10 ltac:(lia)). pose proof (Z.div_mod n 10 ltac:(lia)).
  assert (Hd : Forall (fun c => is_digit c = true) [48 + n mod 10]) by (repeat constructor; unfold is_digit; lia).
  destruct (n / 10 =? 0) eqn:E.
  - exists [48 + n mod 10]. split_and!; try done. cbn. lia.
  - destruct f as [|f]; [cbn in Hn; lia|].
    destruct (IH (n / 10) (48 + n mod 10 :: acc)) as (d & -> & Hne & Hall & Hnum); [|done|].
    { rewrite Nat2Z.inj_succ, Z.pow_succ_r in Hn by lia. split; [lia|]. apply Z.div_lt_upper_bound; lia. }
    exists (d ++ [48 + n mod 10]). split_and!; [by rewrite <- app_assoc|by destruct d|by apply Forall_app|].
    rewrite number_from_app, Hnum. cbn. lia.
Qed.

Lemma while_digits d c s : Forall (fun c => is_digit c = true) d -> is_digit c = false ->
  take_while is_digit (d ++ c :: s) = d /\ drop_while is_digit (d ++ c :: s) = c :: s.
Proof. intros Hd Hc. induction Hd as [|x d Hx Hd [IH1 IH2]]; cbn; [by rewrite Hc|]. by rewrite Hx, IH1, IH2. Qed.

Lemma dec_ok n : 0 <= n <= N11_MAX_CONTENT_LENGTH ->
  dec n <> [] /\ Forall (fun c => is_digit c = true) (dec n) /\ number_from 0 (dec n) = n.
Proof.
  intros Hn. destruct (dec_digits_ok 10 n []) as (d & E & Hne & Hd & Hv);
    [unfold N11_MAX_CONTENT_LENGTH in *; lia|done|]. unfold dec. by rewrite E, app_nil_r.
Qed.

Lemma content_length_dec n s : 0 <= n <= N11_MAX_CONTENT_LENGTH -> content_length (dec n ++ crlf ++ s) = n.
Proof.
  intros Hn. destruct (dec_ok n Hn) as (Hne & Hd & Hv). revert Hne Hd Hv. generalize (dec n) as d.
  intros [|c d] Hne Hd Hv; [done|]. unfold content_length. cbn zeta.
  pose proof Hd as [Hc _]%Forall_cons.
  assert (Hnb : is_blank c = false) by (unfold is_blank, is_digit in *; lia).
  assert (Es : drop_while is_blank ((c :: d) ++ crlf ++ s) = (c :: d) ++ CR :: LF :: s) by (cbn; by rewrite Hnb).
  rewrite Es. destruct (while_digits (c :: d) CR (LF :: s) Hd eq_refl) as [E1 E2]. rewrite E1, Hv.
  cbn [app] in *. rewrite Hc, E2. replace (n >? _) with false by lia. done.
Qed.

(** The Content-Length parser computes the reference value on every C
    string: the number between blanks and a delimiter, 0 for an empty value,
    -1 for a sign, a missing digit, trailing junk or more than 64 MiB; the
    result never leaves [-1, 64 MiB], and every length the client prints in a
    request is read back as it was. *)
Theorem content_length_strict a j n :
  nul_free a -> 0 <= n <= N11_MAX_CONTENT_LENGTH ->
  parse_content_length (a ++ 0 :: j) = Ok (content_length a) /\
  -1 <= content_length a <= N11_MAX_CONTENT_LENGTH /\
  parse_content_length (dec n ++ crlf ++ a ++ 0 :: j) = Ok n.
Proof.
  intros Ha Hn. split; [by apply parse_at|]. split; [apply content_length_bound|].
  replace (dec n ++ crlf ++ a ++ 0 :: j) with ((dec n ++ crlf ++ a) ++ 0 :: j) by (by rewrite <- !app_assoc).
  rewrite parse_at, content_length_dec; [done|done|].
  apply Forall_app. split; [|by repeat constructor].
  eapply Forall_impl; [apply dec_ok, Hn|]. unfold is_digit. cbn. lia.
Qed.

(** A value as servers send it: blanks before, and the rest of the headers. *)
Lemma content_length_strict_witness :
  parse_content_length (str " 52" ++ crlf ++ str "Connection: close" ++ [0]) = Ok 52 /\
  parse_content_length (dec 4096 ++ crlf ++ str " 52" ++ [0]) = Ok 4096.
Proof.
  split.
  - destruct (content_length_strict (str " 52" ++ crlf ++ str "Connection: close") [] 4096) as (E & _ & _);
      [by apply (bool_decide_unpack _)|unfold N11_MAX_CONTENT_LENGTH; lia|].
    rewrite <- !app_assoc in E. rewrite E. by vm_compute.
  - apply (content_length_strict (str " 52") [] 4096); [by apply (bool_decide_unpack _)|].
    unfold N11_MAX_CONTENT_LENGTH. lia.
Defined.

(** C38: the framing of an answer. From a TLS stream cut into pieces in any
    way, a header without an inner blank line, followed by the body it
    announces, is read into the caller's array, the offset and length returned
    are those of the body, and exactly these bytes are taken from the stream:
    what follows, the data channel, is left for the next reader. *)
Theorem http_response_framed {U} stack ssl n h body rest (w : cworld U) :
  arrays_ok stack -> ssl <> 0 -> reading ssl w -> is_header h -> announced h = len body ->
  len h < n -> len h + len body <= n -> stream (w_in w (Tls ssl)) = h ++ body ++ rest ->
  exists buf w', read_http_response stack ssl n w = Ok (Some (Response buf (len h) (len body)), w') /\
    len buf = n /\ slice 0 (len h) buf = h /\ slice (len h) (len body) buf = body /\
    stream (w_in w' (Tls ssl)) = rest /\ w_conn w' = w_conn w.
Proof.
  intros Hs Hssl Hw Hh Ha Hn Hfit Hp.
  destruct (wp_run _ _ _ (response_framed stack Hs ssl Hssl n h body rest w Hw Hh Ha Hn Hfit Hp))
    as (r & w' & E & Hr & Hp' & buf & -> & Hl & _ & Ht & _).
  exists buf, w'. split; [done|]. split; [done|].
  assert (Eb : buf = h ++ body ++ dr (len h + len body) buf).
  { rewrite app_assoc, <- Ht. symmetry. apply tk_dr. }
  split; [|split; [|split; [done|by apply (after_read_conn (Tls ssl))]]].
  - rewrite Eb. apply (slice_app 0 (len h) [] h); done.
  - rewrite Eb. by apply slice_app.
Qed.

(** ** A concrete answer *)

Definition ex_stack (n : Z) : list Z := replicate (Z.to_nat n) 0xAA.
Lemma ex_stack_ok : arrays_ok ex_stack.
Proof.
  intros n Hn. unfold ex_stack. rewrite len_replicate. split; [lia|].
  apply bytes_ok_replicate. unfold byte_ok. lia.
Defined.

Definition ex_answer : list Z :=
  str "HTTP/1.1 200 OK" ++ crlf ++ str "Content-Type: application/octet-stream" ++ crlf ++
  str "Content-Length: 5" ++ crlf ++ crlf.
Definition ex_body : list Z := [0; 0; 0; 1; 65].
Definition ex_rest : list Z := [0; 0; 0; 0].

Lemma is_header_check h :
  bool_decide (blank_line `suffix_of` h) &&
  forallb (fun k => negb (bool_decide (blank_line `suffix_of` take k h))) (seq 0 (length h)) = true -> is_header h.
Proof.
  intros [H1%bool_decide_eq_true Hk]%andb_true_iff. split; [done|]. intros p [r ->] Hp.
  destruct r as [|x r]; [by rewrite app_nil_r|]. rewrite forallb_forall in Hk.
  specialize (Hk (length p)). rewrite take_app_length in Hk. rewrite bool_decide_eq_true_2 in Hk by done.
  discriminate Hk. apply in_seq. rewrite length_app. cbn. lia.
Qed.

Definition ex_stream : list Z := ex_answer ++ ex_body ++ ex_rest.
(** The stream arrives in three pieces. *)
Definition ex_in (ch : chan) : list rd_event :=
  if decide (ch = Tls 7) then [RdData (tk 10 ex_stream); RdData (slice 10 72 ex_stream); RdData (dr 82 ex_stream)] else [].
Definition ex_world : cworld unit :=
  CWorld (softether_create [1; 2; 3; 4; 5] false []) None ex_in (fun _ => []) (fun _ => []) [] [] 0 0 [] [].

Lemma ex_reading : reading 7 ex_world.
Proof.
  split; [by intros ?%elem_of_nil|]. intros ch. unfold ex_world, ex_in. cbn [w_in].
  destruct (decide _); [|constructor]. repeat constructor; apply (bool_decide_unpack _); by vm_compute.
Defined.

Lemma http_response_framed_witness :
  exists buf w', read_http_response ex_stack 7 4096 ex_world = Ok (Some (Response buf 78 5), w') /\
    slice 78 5 buf = ex_body /\ stream (w_in w' (Tls 7)) = ex_rest.
Proof.
  assert (E1 : len ex_answer = 78) by (vm_compute; reflexivity).
  assert (E2 : len ex_body = 5) by (vm_compute; reflexivity).
  destruct (http_response_framed ex_stack 7 4096 ex_answer ex_body ex_rest ex_world ex_stack_ok)
    as (buf & w' & E & _ & _ & Hb & Hr & _);
    [done|exact ex_reading|by apply is_header_check; vm_compute|by vm_compute|done..|by vm_compute|].
  rewrite E1, E2 in *. exists buf, w'. split; [exact E|]. split; [exact Hb|exact Hr].
Defined.
