(* ===== verification/PackRead.v ===== *)
(** * Reading named fields

    Messages are read field by field, by name. On an encoded element list a
    getter computes [es_int], [es_int64], [es_str] or [es_data]; on any bytes
    it stays inside the message. *)
From stdpp Require Import strings.
From S2P Require Import Prelude Bytes Ring Pack PackSpec.
Import Writer Reader Spec Reader_correct Writer_correct.
From S2P Require Import Http HttpSpec.

Definition es_int (es : list elem) (name : string) : option Z :=
  match lookup es (str name) PACK_TYPE_INT with Some (VInt v) => Some v | _ => None end.
Definition es_int64 (es : list elem) (name : string) : option Z :=
  match lookup es (str name) PACK_TYPE_INT64 with Some (VInt64 v) => Some v | _ => None end.
Definition es_str (es : list elem) (name : string) (cap : Z) : option (list Z) :=
  match lookup es (str name) PACK_TYPE_STR with Some (VStr l) => Some (cstr (tk (cap - 1) l)) | _ => None end.
Definition es_data (es : list elem) (name : string) (cap : Z) : option (list Z) :=
  match lookup es (str name) PACK_TYPE_DATA with Some (VData l) => Some (tk cap l) | _ => None end.

Definition of_opt {A} (o : option A) : res A := match o with Some a => Ok a | None => Err end.

Lemma cstr_end l : cstr (l ++ [0]) = cstr l.
Proof. apply (cstr_app l []). Qed.

Lemma lookup_ok es f t v : Forall elem_ok es -> lookup es f t = Some v -> value_ok v /\ vtype v = t.
Proof.
  induction es as [|e es IH]; intros He Hv; [done|].
  apply Forall_cons in He as [He Hes]. cbn in Hv. destruct (matches f t e) eqn:E; [|by apply IH].
  destruct He as (_ & _ & _ & Hvs). unfold matches in E.
  apply andb_true_iff in E as [[_ E]%andb_true_iff _]. apply Z.eqb_eq in E as <-.
  destruct (e_vals e) as [|v0 vs]; [done|]. injection Hv as <-. by apply Forall_cons in Hvs as [? _].
Qed.

Lemma es_int_range es name v : Forall elem_ok es -> es_int es name = Some v -> 0 <= v < 2 ^ 32.
Proof.
  intros Hes. unfold es_int. destruct (lookup es (str name) PACK_TYPE_INT) as [[z|z|l|l|l]|] eqn:E; try done.
  intros [= <-]. by apply lookup_ok in E as [? _].
Qed.

(** An element list in front of the message. *)
Definition reads (m : mem) (es : list elem) : Prop :=
  view_ok m /\ Forall elem_ok es /\ len es <= PACK_MAX_ELEMENTS /\ exists rest, m_body m = encode es ++ rest.

Section found.
Context (m : mem) (es : list elem) (Hr : reads m es).
Implicit Types (name : string) (cap : Z).

Ltac by_lookup :=
  let v := fresh "v" in let E := fresh "E" in
  match goal with |- context [lookup ?es ?f ?t] => destruct (lookup es f t) as [v|] eqn:E; [|done] end;
  apply lookup_ok in E as [_ E]; [|done]; destruct v; try done.

Lemma get_int_named name : pack_get_int (Some m) (Some (str name)) = of_opt (es_int es name).
Proof. destruct Hr as (? & ? & ? & rest & ?). rewrite (get_int_at m es _ rest) by done. unfold es_int. by_lookup. Qed.
Lemma get_int64_named name : pack_get_int64 (Some m) (Some (str name)) = of_opt (es_int64 es name).
Proof. destruct Hr as (? & ? & ? & rest & ?). rewrite (get_int64_at m es _ rest) by done. unfold es_int64. by_lookup. Qed.
Lemma get_str_named name cap : 0 < cap < 2 ^ 32 ->
  cstr <$> pack_get_str (Some m) (Some (str name)) cap = of_opt (es_str es name cap).
Proof.
  intros Hc. destruct Hr as (? & ? & ? & rest & ?). rewrite (get_str_at m es _ rest) by done.
  unfold es_str. by_lookup. cbn. by rewrite cstr_end.
Qed.
Lemma get_data_named name cap : 0 < cap < 2 ^ 32 ->
  pack_get_data (Some m) (Some (str name)) cap = of_opt (es_data es name cap).
Proof.
  intros Hc. destruct Hr as (? & ? & ? & rest & ?). rewrite (get_data_at m es _ rest) by done.
  unfold es_data. by_lookup.
Qed.
End found.

(** Whatever the bytes are, the integers are in range. *)
Section any.
Context (m : mem) (Hm : view_ok m) (Hb : bytes_ok (m_body m)).

Lemma get_int_range field : safe (fun v => 0 <= v < 2 ^ 32) (pack_get_int (Some m) field).
Proof.
  apply pack_get_safe; [done..|]. intros q Hq. eapply safe_bind; [by apply read_uint32_safe|]. by intros [] [].
Qed.
Lemma get_int64_range field : safe (fun v => 0 <= v < 2 ^ 64) (pack_get_int64 (Some m) field).
Proof.
  apply pack_get_safe; [done..|]. intros q Hq. eapply safe_bind; [by apply read_uint64_safe|]. by intros [] [].
Qed.
Lemma get_str_fits field n : 0 <= n < 2 ^ 32 -> safe (fun out => len out <= n) (pack_get_str (Some m) field n).
Proof. intros Hn. by apply pack_getters_safe. Qed.
End any.
