(* ===== verification/LoginPack.v ===== *)
(** * The messages of the login (softether_protocol.c)

    [softether_protocol.c] has its own writer for PACK messages, over a block
    it allocated with the size it computed beforehand; [build_login_pack] is
    its main user. The Hello of the server is read by [parse_server_hello].

    [session] holds the fields of [softether_connection_t] that only session
    establishment uses. A character array is represented by the C string in
    it; what the server sends is copied into arrays of fixed size. *)
From stdpp Require Import functions strings.
From S2P Require Import Prelude Bytes Ring Pack Crypto Conn Http.
Import Writer Reader.

Definition SHA1_SIZE : Z := 20.
Definition HTTP_PACK_RAND_SIZE_MAX : Z := 1000.

(** The part of the accelerator's context the login sends. *)
Record rudp_offer := Offer { o_my_key : list Z; o_my_key_v2 : list Z; o_my_cookie : Z; o_my_port : Z }.

Record client_info := Client {
  ci_product_name : list Z; ci_product_version : list Z; ci_product_build : Z;
  ci_os_name : list Z; ci_os_version : list Z; ci_os_product_id : list Z;
  ci_host_name : list Z; ci_ip_address : list Z; ci_port : Z;
  ci_server_host_name : list Z; ci_server_ip_address : list Z; ci_server_port_reported : Z;
  ci_ip_v6 : list Z }.

Record session := Session {
  s_server_ip : list Z; s_server_port : Z; s_username : list Z; s_password : list Z; s_hub_name : list Z;
  s_timeout_ms : Z; s_server_random : list Z; s_has_server_random : bool;
  s_session_name : list Z; s_connection_name : list Z; s_session_key : list Z; s_session_key_32 : Z;
  s_server_max_connection : Z; s_server_use_encrypt : Z; s_server_use_fast_rc4 : Z;
  s_forced_auth_type : Z; s_half_connection : Z; s_using_nat_t : bool; s_is_ipv6 : bool;
  s_rudp_server_cookie : Z; s_rudp_client_cookie : Z;
  s_rudp_server_key : list Z; s_rudp_server_key_size : Z;
  s_rudp_server_key_v2 : list Z; s_rudp_server_key_v2_size : Z;
  s_rudp_server_ip : list Z; s_rudp_server_port : Z; s_rudp_version : Z;
  s_client : client_info }.
#[export] Instance eta_session : Eta session := fun s => Session
  (s_server_ip s) (s_server_port s) (s_username s) (s_password s) (s_hub_name s)
  (s_timeout_ms s) (s_server_random s) (s_has_server_random s)
  (s_session_name s) (s_connection_name s) (s_session_key s) (s_session_key_32 s)
  (s_server_max_connection s) (s_server_use_encrypt s) (s_server_use_fast_rc4 s)
  (s_forced_auth_type s) (s_half_connection s) (s_using_nat_t s) (s_is_ipv6 s)
  (s_rudp_server_cookie s) (s_rudp_client_cookie s)
  (s_rudp_server_key s) (s_rudp_server_key_size s)
  (s_rudp_server_key_v2 s) (s_rudp_server_key_v2_size s)
  (s_rudp_server_ip s) (s_rudp_server_port s) (s_rudp_version s)
  (s_client s).

(** [snprintf (arr, cap, "%s", s)] as a string. *)
Definition copy_str (cap : Z) (s : list Z) : list Z := tk (cap - 1) s.

(** ** The writer over a preallocated block *)

(** The value of a DATA element; without data the bytes of the block stay. *)
Definition pack_write_data_val (data : option (list Z)) (n : Z) (c : cursor) : res cursor :=
  '(blk, off) ← pack_write_uint32 n c;
  match data with
  | Some d => bs ← fetch 0 n d; wr bs (blk, off)
  | None => Ok (blk, off + n)
  end.

Inductive field : Type :=
| FInt (name : list Z) (val : Z)
| FStr (name val : list Z)
| FData (name : list Z) (data : option (list Z)) (dlen : Z).

Definition pack_add_int (name : list Z) (val : Z) (c : cursor) : res cursor :=
  c ← pack_write_elem_name name c; c ← pack_write_uint32 PACK_TYPE_INT c; c ← pack_write_uint32 1 c;
  pack_write_uint32 val c.
Definition pack_add_str (name val : list Z) (c : cursor) : res cursor :=
  c ← pack_write_elem_name name c; c ← pack_write_uint32 PACK_TYPE_STR c; c ← pack_write_uint32 1 c;
  pack_write_str_val val c.
Definition pack_add_data (name : list Z) (data : option (list Z)) (dlen : Z) (c : cursor) : res cursor :=
  c ← pack_write_elem_name name c; c ← pack_write_uint32 PACK_TYPE_DATA c; c ← pack_write_uint32 1 c;
  pack_write_data_val data dlen c.

Definition pack_add_field (f : field) : cursor -> res cursor :=
  match f with
  | FInt n v => pack_add_int n v
  | FStr n v => pack_add_str n v
  | FData n d l => pack_add_data n d l
  end.

(** A sequence of [pack_add_*] calls. *)
Fixpoint pack_add_all (fs : list field) (c : cursor) : res cursor :=
  match fs with
  | [] => Ok c
  | f :: fs => c ← pack_add_field f c; pack_add_all fs c
  end.

(** [size += SZ] for every entry, from [size = 4]. *)
Definition total_size (sizes : list Z) : Z := fold_left (fun a b => u32 (a + b)) sizes 4.

(** ** The login message *)

Definition softether_endian32 (x : Z) : Z := be_dec (rev (be_enc 4 x)).

(** [sscanf (s, "%d.%d.%d", ...)] on variables that are 0: the numbers it
    stores, in order. *)
Definition is_space (c : Z) : bool := (c =? 32) || ((9 <=? c) && (c <=? 13)).
Fixpoint skip_space (s : list Z) : list Z :=
  match s with [] => [] | c :: s' => if is_space c then skip_space s' else s end.
Fixpoint scan_digits (v : Z) (s : list Z) : Z * list Z :=
  match s with [] => (v, []) | c :: s' => if is_digit c then scan_digits (v * 10 + (c - 48)) s' else (v, s) end.
Definition scan_int (s : list Z) : option (Z * list Z) :=
  let s := skip_space s in
  let '(neg, s) := match s with 45 :: s => (true, s) | 43 :: s => (false, s) | _ => (false, s) end in
  match s with
  | c :: _ => if is_digit c then let '(v, s) := scan_digits 0 s in Some (if neg : bool then - v else v, s) else None
  | [] => None
  end.
Fixpoint scan_dotted (n : nat) (s : list Z) : list Z :=
  match n with
  | O => []
  | S n =>
      match scan_int s with
      | None => []
      | Some (v, s) => v :: match s with 46 :: s => scan_dotted n s | _ => [] end
      end
  end.

(** A value an [int] holds; leaving it is undefined behaviour. *)
Definition int_val (z : Z) : res Z := if (- 2 ^ 31 <=? z) && (z <? 2 ^ 31) then Ok z else Ub.

Definition product_version (s : list Z) : res Z :=
  if bool_decide (s = []) then Ok 0 else
  let v i := nth i (scan_dotted 3 s) 0 in
  major ← int_val (v 0%nat); minor ← int_val (v 1%nat); patch ← int_val (v 2%nat);
  a ← int_val (major * 100); b ← int_val (minor * 10); c ← int_val (a + b); d ← int_val (c + patch);
  Ok (u32 d).

Definition client_hello : list Z := str "SoftEther VPN Client".
Definition client_ver : Z := 420.
Definition client_build : Z := 9699.
Definition machine_str : list Z := str "SoftEtherVPN_Android_Client".

(** The secret the chosen authentication sends. *)
Definition with_secure (auth_type : Z) (secure : option (list Z)) : bool := (auth_type =? 1) && bool_decide (is_Some secure).
Definition with_plain (auth_type : Z) (plain : option (list Z)) : bool := (auth_type =? 2) && bool_decide (is_Some plain).

(** The sizes as they are added up before the block is allocated. *)
Definition login_sizes (hub user : list Z) (auth_type : Z) (secure plain : option (list Z))
  (rudp : option rudp_offer) (ci : client_info) (pencore_size : Z) : list Z :=
  [ PACK_STR_SZ (str "method") (str "login"); PACK_STR_SZ (str "hubname") hub;
    PACK_STR_SZ (str "username") user; PACK_INT_SZ (str "authtype");
    PACK_STR_SZ (str "hello") client_hello; PACK_INT_SZ (str "version"); PACK_INT_SZ (str "build");
    PACK_STR_SZ (str "client_str") client_hello; PACK_INT_SZ (str "client_ver");
    PACK_INT_SZ (str "client_build"); PACK_INT_SZ (str "client_id"); PACK_INT_SZ (str "protocol");
    PACK_INT_SZ (str "max_connection"); PACK_INT_SZ (str "use_encrypt"); PACK_INT_SZ (str "use_compress");
    PACK_INT_SZ (str "half_connection"); PACK_INT_SZ (str "require_bridge_routing_mode");
    PACK_INT_SZ (str "require_monitor_mode"); PACK_INT_SZ (str "qos");
    PACK_DATA_SZ (str "pencore") pencore_size;
    PACK_STR_SZ (str "ClientProductName") (ci_product_name ci); PACK_INT_SZ (str "ClientProductVer");
    PACK_INT_SZ (str "ClientProductBuild"); PACK_STR_SZ (str "ClientOsName") (ci_os_name ci);
    PACK_STR_SZ (str "ClientOsVer") (ci_os_version ci);
    PACK_STR_SZ (str "ClientOsProductId") (ci_os_product_id ci);
    PACK_STR_SZ (str "ClientHostName") (ci_host_name ci); PACK_INT_SZ (str "ClientIpAddress");
    PACK_INT_SZ (str "ClientPort"); PACK_STR_SZ (str "ServerHostName") (ci_server_host_name ci);
    PACK_INT_SZ (str "ServerIpAddress"); PACK_INT_SZ (str "ServerPort2") ] ++
  (if bool_decide (ci_ip_v6 ci = []) then [] else [ PACK_STR_SZ (str "ClientIpv6Address") (ci_ip_v6 ci) ]) ++
  (match rudp with
   | None => []
   | Some _ =>
       [ PACK_INT_SZ (str "support_bulk_on_rudp"); PACK_INT_SZ (str "support_hmac_on_bulk_of_rudp");
         PACK_INT_SZ (str "support_udp_recovery"); PACK_DATA_SZ (str "unique_id") SHA1_SIZE;
         PACK_INT_SZ (str "rudp_bulk_max_version");
         PACK_INT_SZ (str "use_udp_acceleration"); PACK_DATA_SZ (str "udp_acceleration_client_key") 20;
         PACK_DATA_SZ (str "udp_acceleration_client_key_v2") 128;
         PACK_INT_SZ (str "udp_acceleration_client_cookie"); PACK_INT_SZ (str "udp_acceleration_max_version");
         PACK_INT_SZ (str "support_hmac_on_udp_acceleration"); PACK_INT_SZ (str "udp_acceleration_client_ip");
         PACK_INT_SZ (str "udp_acceleration_client_port") ]
   end) ++
  (if with_secure auth_type secure then [ PACK_DATA_SZ (str "secure_password") SHA1_SIZE ] else []) ++
  (match plain with
   | Some p => if with_plain auth_type plain then [ PACK_STR_SZ (str "plain_password") p ] else []
   | None => []
   end).

(** The element count, [num_elems]. *)
Definition login_num_elems (auth_type : Z) (secure plain : option (list Z)) (rudp : option rudp_offer)
  (ci : client_info) : Z :=
  20 + 12 + (if bool_decide (ci_ip_v6 ci = []) then 0 else 1) +
  (match rudp with None => 0 | Some _ => 5 + 8 end) +
  (if with_secure auth_type secure then 1 else 0) + (if with_plain auth_type plain then 1 else 0).

(** The elements as they are written. [client_ip], [client_port] and
    [server_ip] are what the system calls returned. *)
Definition login_fields (hub user : list Z) (auth_type : Z) (secure plain : option (list Z))
  (rudp : option rudp_offer) (ci : client_info) (max_connection half_connection : Z)
  (pencore : option (list Z)) (pencore_size : Z) (unique_id : list Z)
  (product_ver client_ip client_port server_ip : Z) : list field :=
  [ FStr (str "method") (str "login"); FStr (str "hubname") hub;
    FStr (str "username") user; FInt (str "authtype") (u32 auth_type);
    FStr (str "hello") client_hello; FInt (str "version") client_ver; FInt (str "build") client_build;
    FStr (str "client_str") client_hello; FInt (str "client_ver") client_ver;
    FInt (str "client_build") client_build; FInt (str "client_id") 0;
    FInt (str "protocol") (if bool_decide (is_Some rudp) then 1 else 0);
    FInt (str "max_connection") (u32 max_connection); FInt (str "use_encrypt") 1; FInt (str "use_compress") 0;
    FInt (str "half_connection") (if half_connection =? 0 then 0 else 1);
    FInt (str "require_bridge_routing_mode") 0; FInt (str "require_monitor_mode") 0; FInt (str "qos") 1;
    FData (str "pencore") pencore pencore_size;
    FStr (str "ClientProductName") (ci_product_name ci);
    FInt (str "ClientProductVer") (softether_endian32 product_ver);
    FInt (str "ClientProductBuild") (softether_endian32 (u32 (ci_product_build ci)));
    FStr (str "ClientOsName") (ci_os_name ci); FStr (str "ClientOsVer") (ci_os_version ci);
    FStr (str "ClientOsProductId") (ci_os_product_id ci); FStr (str "ClientHostName") (ci_host_name ci);
    FInt (str "ClientIpAddress") client_ip; FInt (str "ClientPort") (softether_endian32 client_port);
    FStr (str "ServerHostName") (ci_server_host_name ci); FInt (str "ServerIpAddress") server_ip;
    FInt (str "ServerPort2") (softether_endian32 (u32 (ci_server_port_reported ci))) ] ++
  (if bool_decide (ci_ip_v6 ci = []) then [] else [ FStr (str "ClientIpv6Address") (ci_ip_v6 ci) ]) ++
  (match rudp with
   | None => []
   | Some o =>
       [ FInt (str "support_bulk_on_rudp") 1; FInt (str "support_hmac_on_bulk_of_rudp") 1;
         FInt (str "support_udp_recovery") 1; FData (str "unique_id") (Some unique_id) SHA1_SIZE;
         FInt (str "rudp_bulk_max_version") 2;
         FInt (str "use_udp_acceleration") 1; FData (str "udp_acceleration_client_key") (Some (o_my_key o)) 20;
         FData (str "udp_acceleration_client_key_v2") (Some (o_my_key_v2 o)) 128;
         FInt (str "udp_acceleration_client_cookie") (o_my_cookie o); FInt (str "udp_acceleration_max_version") 2;
         FInt (str "support_hmac_on_udp_acceleration") 1; FInt (str "udp_acceleration_client_ip") 0;
         FInt (str "udp_acceleration_client_port") (o_my_port o) ]
   end) ++
  (if with_secure auth_type secure then [ FData (str "secure_password") secure SHA1_SIZE ] else []) ++
  (match plain with
   | Some p => if with_plain auth_type plain then [ FStr (str "plain_password") p ] else []
   | None => []
   end).

Section build.
Context {U : Type} (crand : nat -> Z) (malloc_ok : Z -> bool) (sha1 : list Z -> list Z).
(** [inet_addr], and the port [getsockname] finds for a descriptor. *)
Context (inet_addr : list Z -> Z) (local_port : Z -> option Z).
Abbreviation M := (St (cworld U)).

Fixpoint rand_bytes (n : nat) : M (list Z) :=
  match n with
  | O => mret []
  | S n => r ← c_rand crand; rest ← rand_bytes n; mret (Z.land r 255 :: rest)
  end.

(** A block of [size + 64] zero bytes is filled with the count and the
    elements; the part written is handed out. *)
Definition write_pack (size num_elems : Z) (fs : list field) : res (list Z) :=
  c ← pack_write_uint32 num_elems (zeros (u32 (size + 64)), 0);
  '(blk, off) ← pack_add_all fs c;
  fetch 0 off blk.

Definition addr_of (ip : list Z) : Z := if bool_decide (ip = []) then 0 else u32 (inet_addr ip).

Definition build_login_pack (hub user : list Z) (auth_type : Z) (secure plain : option (list Z))
  (rudp : option rudp_offer) (s : session) : M (option (list Z)) :=
  c ← get_conn;
  let ci := s_client s in
  product_ver ← lift (product_version (ci_product_version ci));
  r ← c_rand crand;
  let pencore_size := u32 (Z.rem r HTTP_PACK_RAND_SIZE_MAX) in
  pencore ← (if malloc_ok (if pencore_size >? 0 then pencore_size else 1)
             then p ← rand_bytes (Z.to_nat pencore_size); mret (Some p) else mret None);
  let unique_id := sha1 machine_str in
  let num_elems := login_num_elems auth_type secure plain rudp ci in
  let size := total_size (login_sizes hub user auth_type secure plain rudp ci pencore_size) in
  if negb (malloc_ok (u32 (size + 64))) then mret None else
  let client_port :=
    if (u32 (ci_port ci) =? 0) && (c_socket_fd c >=? 0)
    then default 0 (local_port (c_socket_fd c)) else u32 (ci_port ci) in
  b ← lift (write_pack size num_elems
    (login_fields hub user auth_type secure plain rudp ci (c_max_connection c) (s_half_connection s)
       pencore pencore_size unique_id product_ver (addr_of (ci_ip_address ci)) client_port
       (addr_of (ci_server_ip_address ci))));
  mret (Some b).
End build.

(** ** The Hello of the server *)

Record server_hello_info := Hello {
  h_version : Z; h_build : Z; h_random : list Z; h_hello_string : list Z;
  h_has_hello : bool; h_has_version : bool; h_has_random : bool }.
#[export] Instance eta_hello : Eta server_hello_info := fun h => Hello
  (h_version h) (h_build h) (h_random h) (h_hello_string h) (h_has_hello h) (h_has_version h) (h_has_random h).
Definition hello_zero : server_hello_info := Hello 0 0 (zeros SHA1_SIZE) (zeros 64) false false false.

(** Bytes copied to the head of an array. *)
Definition store (bs arr : list Z) : list Z := bs ++ dr (len bs) arr.

(** [pack_read_data_safe]: what is copied to an array of [out_size] bytes. *)
Definition pack_read_data_safe (m : mem) (p out_size : Z) : res (list Z * Z) :=
  '(data_len, p) ← pack_read_uint32_safe m p;
  _ ← fail_if (padd m p data_len >? m_end m);
  out ← (if out_size >? 0 then load m p (if data_len <? out_size then data_len else out_size) else Ok []);
  Ok (out, padd m p data_len).

(** One element: the information and the position after it. *)
Definition hello_element (m : mem) (p : Z) (info : server_hello_info) : res (server_hello_info * Z) :=
  '(name_len_plus1, p) ← pack_read_uint32_safe m p;
  _ ← fail_if (name_len_plus1 =? 0);
  let name_len := name_len_plus1 - 1 in
  _ ← fail_if (padd m p name_len >? m_end m);
  elem ← load m p (if name_len <? 63 then name_len else 63);
  let p := padd m p name_len in
  '(type, p) ← pack_read_uint32_safe m p;
  '(num_values, p) ← pack_read_uint32_safe m p;
  _ ← fail_if (num_values >? PACK_MAX_VALUES);
  let skip_rest info p := p ← skip_values m (Z.to_nat (num_values - 1)) p type; Ok (info, p) in
  let named name t := bool_decide (cstr elem = str name) && (type =? t) in
  if num_values =? 0 then Ok (info, p) else
  if named "hello" PACK_TYPE_STR then
    '(out, p) ← pack_read_string_safe m p 64;
    skip_rest (info <| h_hello_string := store out (h_hello_string info) |> <| h_has_hello := true |>) p
  else if named "version" PACK_TYPE_INT then
    '(v, p) ← pack_read_uint32_safe m p;
    skip_rest (info <| h_version := v |> <| h_has_version := true |>) p
  else if named "random" PACK_TYPE_DATA then
    '(out, p) ← pack_read_data_safe m p SHA1_SIZE;
    skip_rest (info <| h_random := store out (h_random info) |> <| h_has_random := true |>) p
  else p ← skip_values m (Z.to_nat num_values) p type; Ok (info, p).

Fixpoint hello_elements (n : nat) (m : mem) (p : Z) (info : server_hello_info) : res server_hello_info :=
  match n with
  | O => Ok info
  | S n => '(info, p) ← hello_element m p info; hello_elements n m p info
  end.

Definition parse_server_hello (m : mem) : res server_hello_info :=
  _ ← fail_if (len (m_body m) <? 4);
  '(num_elements, p) ← pack_read_uint32_safe m (m_base m);
  _ ← fail_if (num_elements >? 4096);
  hello_elements (Z.to_nat num_elements) m p hello_zero.

(** The token occurs in the buffer. *)
Fixpoint token_at (n : nat) (buf token : list Z) : bool :=
  match n with
  | O => false
  | S n => bool_decide (tk (len token) buf = token) || match buf with [] => false | _ :: buf => token_at n buf token end
  end.
Definition buffer_contains_token (buf token : list Z) : bool :=
  if (len token =? 0) || (len buf <? len token) then false
  else token_at (Z.to_nat (len buf - len token + 1)) buf token.
