(* ===== verification/LoginPackSpec.v ===== *)
(** * What the login messages promise

    The login message is as long as the sum of the sizes computed beforehand,
    announces as many elements as it holds, and encodes the list of its
    fields. The Hello parser never leaves the message and, on an encoded
    element list, computes [hello_of]. *)
From stdpp Require Import functions strings.
From S2P Require Import Prelude Bytes Ring Pack PackSpec Crypto Conn ConnInv Http HttpSpec.
Import Writer Reader Spec Reader_correct Writer_correct.
From S2P Require Import LoginPack.

(** ** Fields as elements *)

Definition value_of (data : option (list Z)) (n : Z) : list Z :=
  match data with Some d => tk n d | None => zeros n end.
Definition elem_of_field (f : field) : elem :=
  match f with
  | FInt n v => Elem n PACK_TYPE_INT [VInt v]
  | FStr n v => Elem n PACK_TYPE_STR [VStr v]
  | FData n d l => Elem n PACK_TYPE_DATA [VData (value_of d l)]
  end.

(** Names and values that fit an element of less than 2^31 bytes. *)
Definition field_ok (f : field) : Prop :=
  match f with
  | FInt n v => len n < 2 ^ 16 /\ 0 <= v < 2 ^ 32
  | FStr n v => len n < 2 ^ 16 /\ len v < 2 ^ 30
  | FData n d l => len n < 2 ^ 16 /\ 0 <= l < 2 ^ 30 /\ match d with Some d => l <= len d | None => True end
  end.
#[global] Instance field_ok_dec f : Decision (field_ok f).
Proof. destruct f as [| |? []]; cbn; apply _. Defined.

Definition field_size (f : field) : Z :=
  match f with
  | FInt n _ => PACK_INT_SZ n
  | FStr n v => PACK_STR_SZ n v
  | FData n _ l => PACK_DATA_SZ n l
  end.

Lemma len_value_of d l : 0 <= l -> match d with Some d => l <= len d | None => True end -> len (value_of d l) = l.
Proof. destruct d; cbn; slia. Qed.

Lemma elem_of_field_ok f : field_ok f -> elem_ok (elem_of_field f).
Proof.
  destruct f as [n v|n v|n d l]; cbn; intros Hf; unfold elem_ok, PACK_MAX_VALUES, PACK_TYPE_INT, PACK_TYPE_STR, PACK_TYPE_DATA;
    cbn [e_name e_type e_vals]; (split; [lia|split; [lia|split; [done|]]]); repeat constructor; cbn; try done; try lia.
  rewrite len_value_of by tauto. lia.
Qed.

Lemma field_size_ok f : field_ok f -> field_size f = len (enc_elem (elem_of_field f)).
Proof.
  destruct f as [n v|n v|n d l]; cbn [field_ok field_size elem_of_field]; intros Hf; try pack_sizes.
  unfold PACK_DATA_SZ, PACK_ELEM_HDR_SZ, PACK_NAME_SZ, strlen, u32. rewrite len_enc_elem1. cbn [enc_value].
  rewrite len_app, len_be_enc, len_value_of by tauto. pose proof (len_nonneg n). mod_small. lia.
Qed.

Definition encoded_len (es : list elem) : Z := len (mjoin (map enc_elem es)).

Lemma encoded_len_cons e es : encoded_len (e :: es) = len (enc_elem e) + encoded_len es.
Proof. exact (len_app (enc_elem e) (mjoin (map enc_elem es))). Qed.

Lemma encoded_len_nonneg es : 0 <= encoded_len es.
Proof. apply len_nonneg. Qed.

Lemma sum_sizes_ok fs a : Forall field_ok fs -> 0 <= a -> a + encoded_len (map elem_of_field fs) < 2 ^ 32 ->
  fold_left (fun a b => u32 (a + b)) (map field_size fs) a = a + encoded_len (map elem_of_field fs).
Proof.
  intros Hf. revert a. induction Hf as [|f fs Hfo Hf IH]; intros a Ha; cbn [map fold_left].
  - intros _. change (encoded_len []) with 0. lia.
  - rewrite encoded_len_cons, field_size_ok by done. intros Hlt.
    pose proof (len_nonneg (enc_elem (elem_of_field f))). pose proof (encoded_len_nonneg (map elem_of_field fs)).
    unfold u32 at 2. rewrite Z.mod_small by lia. rewrite IH by lia. lia.
Qed.

Lemma total_size_ok fs : Forall field_ok fs -> 4 + encoded_len (map elem_of_field fs) < 2 ^ 32 ->
  total_size (map field_size fs) = 4 + encoded_len (map elem_of_field fs).
Proof. intros. by apply sum_sizes_ok. Qed.

(** ** Writing into zeroed memory *)

(** Written so far: [w]; the rest of the block is zero. *)
Definition zeroed (w : list Z) (n : Z) : cursor := (w ++ zeros n, len w).

Lemma zeros_split a b : 0 <= a -> 0 <= b -> zeros (a + b) = zeros a ++ zeros b.
Proof. intros. unfold zeros. by rewrite Z2Nat.inj_add, replicate_add by lia. Qed.

Lemma wr_zeroed bs w n : len bs <= n -> wr bs (zeroed w n) = Ok (zeroed (w ++ bs) (n - len bs)).
Proof.
  intros Hn. pose proof (len_nonneg bs). pose proof (len_nonneg w).
  unfold zeroed. rewrite wr_fits by slia. unfold splice. do 2 f_equal; [|slia].
  rewrite tk_app_exact, dr_app, dr_all by slia. cbn [app].
  replace n with (len bs + (n - len bs)) at 1 by lia. rewrite zeros_split, dr_app_exact by slia.
  by rewrite <- app_assoc.
Qed.

Lemma data_zeroed (d : option (list Z)) l w n :
  0 <= l < 2 ^ 32 -> match d with Some d => l <= len d | None => True end -> 4 + l <= n ->
  pack_write_data_val d l (zeroed w n) =
  Ok (zeroed (w ++ enc_value (VData (value_of d l))) (n - (4 + l))).
Proof.
  intros Hl Hd Hn. unfold pack_write_data_val, pack_write_uint32. cbn [enc_value].
  rewrite w32_enc, wr_zeroed, bind_ok, len_be_enc, len_value_of by (done || slia || tauto).
  change (Z.of_nat 4) with 4. destruct d as [d|]; unfold zeroed at 1; cbn beta iota; cbn [value_of].
  - unfold fetch. destruct (_ && _) eqn:E; [|lia]. rewrite bind_ok. unfold slice. rewrite dr_0 by lia.
    change (w ++ be_enc 4 l ++ tk l d) with (w ++ (be_enc 4 l ++ tk l d)). rewrite app_assoc.
    change (((w ++ be_enc 4 l) ++ zeros (n - 4), len (w ++ be_enc 4 l))) with (zeroed (w ++ be_enc 4 l) (n - 4)).
    rewrite wr_zeroed by slia. do 2 f_equal. slia.
  - unfold zeroed. rewrite app_assoc. do 2 f_equal; [|slia].
    rewrite <- (app_assoc _ (zeros l)). f_equal. rewrite <- zeros_split by lia. f_equal. lia.
Qed.

(** Header and value of an element in zeroed memory. *)
Lemma element_zeroed name type v value w n : len name + 1 < 2 ^ 32 ->
  len (enc_elem (Elem name type [v])) <= n ->
  (forall w n, len (enc_value v) <= n -> value (zeroed w n) = Ok (zeroed (w ++ enc_value v) (n - len (enc_value v)))) ->
  (c ← pack_write_elem_name name (zeroed w n); c ← pack_write_uint32 type c; c ← pack_write_uint32 1 c; value c) =
  Ok (zeroed (w ++ enc_elem (Elem name type [v])) (n - len (enc_elem (Elem name type [v])))).
Proof.
  intros Hn Hfit Hv. rewrite len_enc_elem1 in *. pose proof (len_nonneg (enc_value v)).
  unfold pack_write_uint32. rewrite write_name_wr, !w32_enc by done.
  rewrite wr_zeroed by slia. rewrite bind_ok, wr_zeroed by slia. rewrite bind_ok, wr_zeroed by slia.
  rewrite bind_ok, Hv by slia. do 2 f_equal.
  - unfold enc_elem. cbn [e_name e_type e_vals map]. change (mjoin [enc_value v]) with (enc_value v ++ []).
    rewrite app_nil_r, <- !app_assoc. done.
  - slia.
Qed.

Lemma field_zeroed f w n : field_ok f -> len (enc_elem (elem_of_field f)) <= n ->
  pack_add_field f (zeroed w n) =
  Ok (zeroed (w ++ enc_elem (elem_of_field f)) (n - len (enc_elem (elem_of_field f)))).
Proof.
  destruct f as [nm v|nm v|nm d l]; cbn [field_ok elem_of_field pack_add_field]; intros Hf Hn;
    apply element_zeroed; try done; try lia; intros w' n' Hfit; cbn [enc_value] in *.
  - unfold pack_write_uint32. rewrite w32_enc, wr_zeroed by done. done.
  - rewrite write_counted_wr, wr_zeroed by (done || lia). done.
  - rewrite len_app, len_be_enc, len_value_of in * by tauto. rewrite data_zeroed by (tauto || lia).
    cbn [enc_value]. by rewrite len_value_of by tauto.
Qed.

Lemma fields_zeroed fs w n : Forall field_ok fs -> encoded_len (map elem_of_field fs) <= n ->
  pack_add_all fs (zeroed w n) =
  Ok (zeroed (w ++ mjoin (map enc_elem (map elem_of_field fs))) (n - encoded_len (map elem_of_field fs))).
Proof.
  intros Hf. revert w n. induction Hf as [|f fs Hfo Hf IH]; intros w n; cbn [map pack_add_all].
  - intros _. change (mjoin (map enc_elem [])) with (@nil Z). rewrite app_nil_r.
    change (encoded_len []) with 0. by rewrite Z.sub_0_r.
  - rewrite encoded_len_cons. pose proof (encoded_len_nonneg (map elem_of_field fs)). intros Hn.
    rewrite field_zeroed, bind_ok, IH by (done || lia).
    change (mjoin (enc_elem (elem_of_field f) :: map enc_elem (map elem_of_field fs))) with
      (enc_elem (elem_of_field f) ++ mjoin (map enc_elem (map elem_of_field fs))).
    rewrite app_assoc. do 2 f_equal. lia.
Qed.

(** A block of the computed size takes exactly the encoded elements. *)
Lemma write_pack_ok fs : Forall field_ok fs -> len fs < 2 ^ 32 ->
  4 + encoded_len (map elem_of_field fs) + 64 < 2 ^ 32 ->
  write_pack (total_size (map field_size fs)) (len fs) fs = Ok (encode (map elem_of_field fs)) /\
  len (encode (map elem_of_field fs)) = total_size (map field_size fs).
Proof.
  intros Hf Hn Hlt. pose proof (encoded_len_nonneg (map elem_of_field fs)).
  rewrite total_size_ok by (done || lia). split; [|unfold encode; rewrite len_app, len_be_enc; done].
  unfold write_pack, pack_write_uint32. unfold u32. rewrite Z.mod_small by lia.
  set (e := encoded_len _) in *. rewrite w32_enc.
  change (zeros (4 + e + 64), 0) with (zeroed [] (4 + e + 64)).
  rewrite wr_zeroed by slia. rewrite bind_ok, len_be_enc, fields_zeroed by (done || (change (Z.of_nat 4) with 4; lia)).
  rewrite bind_ok. fold e. unfold zeroed, fetch. destruct (_ && _) eqn:E; [|slia].
  unfold slice. rewrite dr_0, tk_app_exact by (lia || done). unfold encode. by rewrite len_map.
Qed.

(** ** The login message *)

Lemma encoded_len_bound B es : Forall (fun e => len (enc_elem e) <= B) es -> encoded_len es <= B * len es.
Proof.
  induction 1 as [|e es He Hes IH]; [unfold encoded_len, len; cbn; lia|].
  rewrite encoded_len_cons, len_cons. lia.
Qed.

Lemma field_len f : field_ok f -> (match f with FInt _ _ => True | FStr _ v => len v < 2 ^ 24 | FData _ _ l => l < 2 ^ 24 end) ->
  len (enc_elem (elem_of_field f)) <= 2 ^ 25.
Proof.
  destruct f as [n v|n v|n d l]; cbn [field_ok elem_of_field]; intros Hf Hv; rewrite len_enc_elem1; cbn [enc_value];
    rewrite ?len_app, ?len_be_enc; [lia..|]. rewrite len_value_of by tauto. lia.
Qed.

Lemma endian32_bound x : 0 <= softether_endian32 x < 2 ^ 32.
Proof.
  unfold softether_endian32. pose proof (be_dec_bound (rev (be_enc 4 x))) as H. rewrite len_rev, len_be_enc in H.
  apply H. apply Forall_rev, bytes_ok_be_enc.
Qed.

Definition small (s : list Z) : Prop := len s < 2 ^ 24.
Definition client_ok (ci : client_info) : Prop :=
  small (ci_product_name ci) /\ small (ci_os_name ci) /\ small (ci_os_version ci) /\ small (ci_os_product_id ci) /\
  small (ci_host_name ci) /\ small (ci_server_host_name ci) /\ small (ci_ip_v6 ci).
Definition offer_ok (o : rudp_offer) : Prop :=
  len (o_my_key o) = 20 /\ len (o_my_key_v2 o) = 128 /\ 0 <= o_my_cookie o < 2 ^ 32 /\ 0 <= o_my_port o < 2 ^ 32.
Definition opt_ok {A} (P : A -> Prop) (o : option A) : Prop := match o with Some a => P a | None => True end.

Record login_ok (hub user : list Z) (secure plain : option (list Z)) (rudp : option rudp_offer) (s : session) : Prop := {
  lo_hub : small hub; lo_user : small user;
  lo_secure : opt_ok (fun p => len p = SHA1_SIZE) secure; lo_plain : opt_ok small plain;
  lo_rudp : opt_ok offer_ok rudp; lo_client : client_ok (s_client s) }.

(** The bounds of one field. *)
Ltac field_bounds :=
  cbn [field_ok]; unfold SHA1_SIZE in *; repeat match goal with |- _ /\ _ => split end;
  first [done | lia | apply endian32_bound | apply Z.mod_pos_bound; done
        | match goal with |- context [if ?b then _ else _] => destruct b; lia end
        | match goal with |- match ?p with _ => _ end => destruct p; cbn in *; done || lia end | idtac].

Section fields.
Context (hub user : list Z) (auth_type : Z) (secure plain : option (list Z)) (rudp : option rudp_offer)
        (s : session) (Hok : login_ok hub user secure plain rudp s)
        (max_connection : Z) (pencore : option (list Z)) (pencore_size : Z) (unique_id : list Z)
        (product_ver client_ip client_port server_ip : Z).
Hypothesis Hpen : 0 <= pencore_size < 1000 /\ opt_ok (fun p => len p = pencore_size) pencore.
Hypothesis Hid : len unique_id = SHA1_SIZE.
Hypothesis Hnum : 0 <= client_ip < 2 ^ 32 /\ 0 <= server_ip < 2 ^ 32.
Let fs := login_fields hub user auth_type secure plain rudp (s_client s) max_connection (s_half_connection s)
  pencore pencore_size unique_id product_ver client_ip client_port server_ip.

Lemma with_plain_none : with_plain auth_type None = false.
Proof. unfold with_plain. apply andb_false_r. Qed.

Lemma login_sizes_fields :
  login_sizes hub user auth_type secure plain rudp (s_client s) pencore_size = map field_size fs.
Proof.
  clear Hok Hpen Hid Hnum. unfold login_sizes, fs, login_fields. rewrite !map_app.
  destruct (bool_decide _), rudp, (with_secure _ _), plain; try destruct (with_plain _ _); reflexivity.
Qed.

Lemma login_num_fields : login_num_elems auth_type secure plain rudp (s_client s) = len fs.
Proof.
  clear Hok Hpen Hid Hnum. unfold login_num_elems, fs, login_fields. rewrite !len_app.
  destruct plain as [p|]; [destruct (with_plain _ _)|rewrite with_plain_none];
    destruct (bool_decide (ci_ip_v6 _ = [])), rudp, (with_secure _ _); reflexivity.
Qed.

Lemma login_fields_small : Forall (fun f => field_ok f /\ len (enc_elem (elem_of_field f)) <= 2 ^ 25) fs.
Proof.
  assert (Hf : Forall (fun f => field_ok f /\
    match f with FInt _ _ => True | FStr _ v => len v < 2 ^ 24 | FData _ _ l => l < 2 ^ 24 end) fs);
    [|eapply Forall_impl; [exact Hf|]; intros f [? ?]; split; [done|by apply field_len]].
  destruct Hok as [? ? Hs Hp Hr (? & ? & ? & ? & ? & ? & ?)], Hpen as [? Hpc]. unfold small, SHA1_SIZE in *.
  subst fs. unfold login_fields. rewrite !Forall_app. split; [|split; [|split; [|split]]].
  - repeat (apply Forall_cons; split); [field_bounds..|constructor].
  - case_bool_decide; [constructor|]. constructor; [field_bounds|constructor].
  - destruct rudp as [o|]; [|constructor]. destruct Hr as (? & ? & ? & ?).
    repeat (apply Forall_cons; split); [field_bounds..|constructor].
  - destruct (with_secure _ _); constructor; [|constructor]. destruct secure; cbn in Hs; field_bounds.
  - destruct plain as [p|]; [|constructor]. destruct (with_plain _ _); constructor; [|constructor].
    cbn in Hp. field_bounds.
Qed.
End fields.

(** What a server finds in the message. *)
Definition login_says (hub user : list Z) (auth_type : Z) (secure plain : option (list Z))
  (rudp : option rudp_offer) (es : list elem) : Prop :=
  lookup es (str "method") PACK_TYPE_STR = Some (VStr (str "login")) /\
  lookup es (str "hubname") PACK_TYPE_STR = Some (VStr hub) /\
  lookup es (str "username") PACK_TYPE_STR = Some (VStr user) /\
  lookup es (str "authtype") PACK_TYPE_INT = Some (VInt (u32 auth_type)) /\
  lookup es (str "udp_acceleration_client_cookie") PACK_TYPE_INT = VInt ∘ o_my_cookie <$> rudp /\
  lookup es (str "secure_password") PACK_TYPE_DATA =
    (if with_secure auth_type secure then VData ∘ tk SHA1_SIZE <$> secure else None) /\
  lookup es (str "plain_password") PACK_TYPE_STR = (if with_plain auth_type plain then VStr <$> plain else None).

Section says.
Context (hub user : list Z) (auth_type : Z) (secure plain : option (list Z)) (rudp : option rudp_offer) (ci : client_info)
  (max_connection half : Z) (pencore : option (list Z)) (pencore_size : Z) (unique_id : list Z)
  (product_ver client_ip client_port server_ip : Z).

Lemma login_fields_say : login_says hub user auth_type secure plain rudp
  (map elem_of_field (login_fields hub user auth_type secure plain rudp ci max_connection half
    pencore pencore_size unique_id product_ver client_ip client_port server_ip)).
Proof.
  unfold login_says, login_fields. rewrite !map_app.
  destruct plain as [p|]; [destruct (with_plain _ _)|rewrite with_plain_none]; destruct (bool_decide (ci_ip_v6 _ = [])), rudp as [o|].
  all: destruct (with_secure _ _) eqn:E; [destruct secure as [k|]; [|by unfold with_secure in E; rewrite andb_false_r in E]|];
   split_and!; reflexivity.
Qed.
End says.

(** ** Building the message *)

(** Only the position in the sequence of [rand] results has moved. *)
Definition after_rand {U} (w w' : cworld U) : Prop := w' = w <| w_rands := w_rands w' |>.

Section build.
Context {U : Type} (crand : nat -> Z) (malloc_ok : Z -> bool) (sha1 : list Z -> list Z)
        (inet_addr : list Z -> Z) (local_port : Z -> option Z).
Hypothesis Hrand : forall n, 0 <= crand n.
Hypothesis Hsha : sha1_ok sha1.
Implicit Types w : cworld U.

Lemma rand_bytes_ok n w :
  wp (rand_bytes crand n) (fun l w' => len l = Z.of_nat n /\ after_rand w w') w.
Proof.
  revert w. induction n as [|n IH]; intros w; cbn [rand_bytes].
  - wp_step. split; [done|]. by destruct w.
  - wp_step. change (wp (rest ← rand_bytes crand n; mret (Z.land (crand (w_rands w)) 255 :: rest))
      (fun l w' => len l = Z.of_nat (S n) /\ after_rand w w') (w <| w_rands := S (w_rands w) |>)).
    wp_step. eapply wp_mono; [apply IH|]. intros l w' [Hl ->]. wp_step. split; [slia|]. by destruct w.
Qed.

(** What [build_login_pack] returns, if the allocations succeed. *)
Definition login_message (hub user : list Z) (auth_type : Z) (secure plain : option (list Z))
  (rudp : option rudp_offer) (s : session) (b : list Z) : Prop :=
  exists es, b = encode es /\ Forall elem_ok es /\ len es = login_num_elems auth_type secure plain rudp (s_client s) /\
    len es <= PACK_MAX_ELEMENTS /\ len b < 2 ^ 31 /\ login_says hub user auth_type secure plain rudp es.

Lemma login_num_bound auth_type secure plain rudp ci : 0 <= login_num_elems auth_type secure plain rudp ci <= 48.
Proof. unfold login_num_elems. destruct (bool_decide _), rudp, (with_secure _ _), (with_plain _ _); lia. Qed.

Lemma build_login_pack_ok hub user auth_type secure plain rudp s w pv :
  login_ok hub user secure plain rudp s -> product_version (ci_product_version (s_client s)) = Ok pv ->
  wp (build_login_pack crand malloc_ok sha1 inet_addr local_port hub user auth_type secure plain rudp s)
    (fun r w' => after_rand w w' /\ match r with
       | Some b => login_message hub user auth_type secure plain rudp s b
       | None => exists n, malloc_ok n = false end) w.
Proof.
  intros Hok Hpv. unfold build_login_pack. wp_step. apply wp_get_conn. wp_step. eapply wp_lift; [exact Hpv|].
  wp_step. unfold c_rand at 1, wp at 1. cbn beta iota. set (w1 := w <| w_rands := _ |>).
  set (psz := u32 (Z.rem _ _)). assert (Hpsz : 0 <= psz < 1000).
  { subst psz. unfold u32, HTTP_PACK_RAND_SIZE_MAX. pose proof (Hrand (w_rands w)).
    pose proof (Z.rem_bound_pos (crand (w_rands w)) 1000 ltac:(lia) ltac:(lia)). rewrite Z.mod_small; lia. }
  wp_step. eapply (wp_mono _ (fun p w' => opt_ok (fun p => len p = psz) p /\ after_rand w w')).
  { wp_step; [|wp_step; by destruct w]. wp_step. eapply wp_mono; [apply rand_bytes_ok|].
    intros l w' [Hl ->]. wp_step. split; [cbn; lia|]. by destruct w. }
  intros pencore w2 [Hpen ->]. cbn zeta. wp_step.
  { wp_step. split; [by destruct w|]. eexists. by apply negb_true_iff. }
  set (port := if _ && _ then _ else _).
  assert (Hid : len (sha1 machine_str) = SHA1_SIZE) by apply Hsha.
  assert (Hip : forall a, 0 <= addr_of inet_addr a < 2 ^ 32).
  { intros a. unfold addr_of. destruct (bool_decide _); [lia|]. by apply Z.mod_pos_bound. }
  match goal with |- context [write_pack _ _ (login_fields _ _ _ _ _ _ _ ?mc ?h _ _ ?u ?v ?cip ?cp ?sip)] =>
    pose proof (login_fields_small hub user auth_type secure plain rudp s Hok mc pencore psz u v cip cp sip
      (conj Hpsz Hpen) Hid (conj (Hip _) (Hip _))) as Hf;
    pose proof (login_fields_say hub user auth_type secure plain rudp (s_client s) mc h pencore psz u v cip cp sip) as Hsay;
    rewrite (login_sizes_fields hub user auth_type secure plain rudp s mc pencore psz u v cip cp sip);
    pose proof (login_num_fields hub user auth_type secure plain rudp s mc pencore psz u v cip cp sip) as Hn
  end.
  set (fs := login_fields _ _ _ _ _ _ _ _ _ _ _ _ _ _ _ _) in *.
  pose proof (login_num_bound auth_type secure plain rudp (s_client s)).
  assert (Hl : encoded_len (map elem_of_field fs) <= 2 ^ 25 * len fs).
  { rewrite <- (len_map elem_of_field fs). apply encoded_len_bound, Forall_map.
    eapply Forall_impl; [exact Hf|]. by intros f []. }
  assert (Hfo : Forall field_ok fs) by (eapply Forall_impl; [exact Hf|]; by intros f []).
  destruct (write_pack_ok fs Hfo ltac:(lia) ltac:(lia)) as [Hw Hlen]. rewrite Hn.
  wp_step. eapply wp_lift; [exact Hw|]. wp_step. split; [by destruct w|].
  exists (map elem_of_field fs). rewrite len_map. split_and!; try done; [|unfold PACK_MAX_ELEMENTS; lia|].
  - apply Forall_map. eapply Forall_impl; [exact Hfo|]. apply elem_of_field_ok.
  - unfold encode. rewrite len_app, len_be_enc. unfold encoded_len in Hl. lia.
Qed.
End build.


Definition ex_client : client_info := Client (str "Client") (str "2.3.2") 232 (str "Android") (str "14") (str "id")
  (str "phone") (str "192.168.1.2") 0 (str "vpn.example") (str "203.0.113.5") 443 [].
Definition ex_session : session := Session (str "203.0.113.5") 443 [] [] (str "VPNGATE") 30000 (zeros 20) false
  [] [] (zeros 20) 0 0 0 0 0 0 false false 0 0 (zeros 128) 0 (zeros 128) 0 [] 0 0 ex_client.

Lemma ex_login_ok : login_ok (str "VPNGATE") (str "vpn") (Some (zeros 20)) None None ex_session.
Proof. by repeat split. Defined.

