(* ===== verification/HelloSpec.v ===== *)
(** * What the Hello parser promises

    [parse_server_hello] never leaves the message, whatever the server sends,
    and on an encoded element list it computes [hello_of]: the version, the
    random challenge and the greeting of the last elements of those names. *)
From stdpp Require Import functions strings.
From S2P Require Import Prelude Bytes Ring Pack PackSpec Crypto Conn Http.
Import Writer Reader Spec Reader_correct.
From S2P Require Import LoginPack.

(** The information in an element list: each later element of a name
    overwrites the earlier ones. *)
Definition hello_step (info : server_hello_info) (e : elem) : server_hello_info :=
  match head (e_vals e) with
  | Some (VStr l) => if matches (str "hello") PACK_TYPE_STR e then
      info <| h_hello_string := store (tk 63 l ++ [0]) (h_hello_string info) |> <| h_has_hello := true |> else info
  | Some (VInt v) => if matches (str "version") PACK_TYPE_INT e then
      info <| h_version := v |> <| h_has_version := true |> else info
  | Some (VData l) => if matches (str "random") PACK_TYPE_DATA e then
      info <| h_random := store (tk SHA1_SIZE l) (h_random info) |> <| h_has_random := true |> else info
  | _ => info
  end.
Definition hello_of (es : list elem) : server_hello_info := fold_left hello_step es hello_zero.

(** The shape the arrays of the information keep. *)
Definition hello_ok (info : server_hello_info) : Prop :=
  len (h_random info) = SHA1_SIZE /\ bytes_ok (h_random info) /\ len (h_hello_string info) = 64.

Section hello.
Context (m : mem) (Hm : view_ok m) (Hbytes : bytes_ok (m_body m)).

Lemma store_len bs arr : len bs <= len arr -> len (store bs arr) = len arr.
Proof. intros. unfold store. slia. Qed.

Lemma read_data_safe p n : in_view m p -> 0 <= n < 2 ^ 32 ->
  safe (fun r => len r.1 <= n /\ bytes_ok r.1 /\ in_view m r.2) (pack_read_data_safe m p n).
Proof.
  intros Hp Hn. unfold pack_read_data_safe.
  eapply safe_bind; [by apply read_uint32_safe|]. intros [k q] [Hk Hq]. cbn [fst snd] in *.
  apply safe_check. intros Hc. destruct (checked_step m Hm q k Hq Hk Hc) as (? & Eq & Hq').
  eapply (safe_bind (fun out => len out <= n /\ bytes_ok out)).
  - destruct (n >? 0) eqn:En; [|split; [change (len (@nil Z)) with 0; lia|constructor]].
    eapply safe_mono; [apply load_post; [done..| |]; destruct (k <? n) eqn:?; lia|].
    cbn. intros bs [-> Hb]. split; [destruct (k <? n) eqn:?; lia|done].
  - intros out [? ?]. by cbn.
Qed.

Lemma hello_element_safe p info : in_view m p -> hello_ok info ->
  safe (fun r => hello_ok r.1 /\ in_view m r.2) (hello_element m p info).
Proof.
  intros Hp (Hr1 & Hr2 & Hs). unfold hello_element.
  eapply safe_bind; [by apply read_uint32_safe|]. intros [n1 q] [Hn Hq]. cbn [fst snd] in *.
  apply safe_check. intros Hz. apply safe_check. intros Hc.
  destruct (checked_step m Hm q (n1 - 1) Hq ltac:(lia) Hc) as (? & Heq & Hq').
  eapply safe_bind.
  { apply load_post; [done..| |]; destruct (n1 - 1 <? 63) eqn:?; lia. }
  intros name _.
  eapply safe_bind; [by apply read_uint32_safe|]. intros [ty q2] [? Hq2]. cbn [fst snd] in *.
  eapply safe_bind; [by apply read_uint32_safe|]. intros [nv q3] [? Hq3]. cbn [fst snd] in *.
  apply safe_check. intros _. cbn zeta.
  assert (Hskip : forall k i q, in_view m q -> hello_ok i ->
    safe (fun r => hello_ok r.1 /\ in_view m r.2) (p ← skip_values m k q ty; Ok (i, p))).
  { intros k i q4 Hq4 Hi. eapply safe_bind; [by apply skip_values_safe|]. by cbn. }
  destruct (nv =? 0); [by split|]. destruct (_ && _).
  { eapply safe_bind; [apply read_string_safe; [done..|lia]|]. intros [out q4] [Ho Hq4]. cbn [fst snd] in *.
    apply Hskip; [done|]. split; [done|]. split; [done|]. cbn. by rewrite store_len; rewrite ?Hs. }
  destruct (_ && _).
  { eapply safe_bind; [by apply read_uint32_safe|]. intros [v q4] [_ Hq4]. by apply Hskip. }
  destruct (_ && _); [|by apply Hskip].
  eapply safe_bind; [apply read_data_safe; [done|unfold SHA1_SIZE; lia]|]. intros [out q4] (Ho & Hob & Hq4). cbn [fst snd] in *.
  apply Hskip; [done|]. split; [cbn; by rewrite store_len; rewrite ?Hr1|]. split; [|done].
  cbn. unfold store. auto with bytes.
Qed.

Lemma hello_elements_safe n p info : in_view m p -> hello_ok info -> safe hello_ok (hello_elements n m p info).
Proof.
  revert p info. induction n as [|n IH]; intros p info Hp Hi; cbn [hello_elements]; [done|].
  eapply safe_bind; [by apply hello_element_safe|]. intros [i q] [? ?]. by apply IH.
Qed.

Lemma parse_hello_safe : safe hello_ok (parse_server_hello m).
Proof.
  unfold parse_server_hello. apply safe_check. intros _.
  assert (Hb : in_view m (m_base m)) by (unfold in_view; pose proof (len_nonneg (m_body m)); lia).
  eapply safe_bind; [by apply read_uint32_safe|]. intros [n p] [_ Hp]. apply safe_check. intros _.
  apply hello_elements_safe; [done|]. repeat split; try done. apply bytes_ok_zeros.
Qed.

(** *** On an encoded list *)

Lemma read_string_at p l rest n : at_ m p (enc_value (VStr l) ++ rest) -> len l < 2 ^ 32 -> 0 < n < 2 ^ 32 ->
  exists q, pack_read_string_safe m p n = Ok (tk (n - 1) l ++ [0], q) /\ at_ m q rest.
Proof.
  intros Hat Hl Hn. destruct (read_counted_at m Hm _ _ _ Hat Hl) as [Hr Hat'].
  destruct (check_at m Hm _ _ _ Hat' Hl) as [Hc Hpd].
  unfold pack_read_string_safe. rewrite Hr, bind_ok, Hc. cbn [fail_if]. rewrite bind_ok.
  replace (n >? 0) with true by lia. unfold u32. rewrite (Z.mod_small (n - 1)) by lia.
  assert (Hld : load m (p + 4) (if len l <? n - 1 then len l else n - 1) = Ok (tk (n - 1) l)) by (eapply load_cut; [done|lia]).
  rewrite Hld, Hpd. eexists. split; [done|]. by eapply at_app.
Qed.

Lemma read_data_at p l rest n : at_ m p (enc_value (VData l) ++ rest) -> len l < 2 ^ 32 -> 0 < n ->
  exists q, pack_read_data_safe m p n = Ok (tk n l, q) /\ at_ m q rest.
Proof.
  intros Hat Hl Hn. destruct (read_counted_at m Hm _ _ _ Hat Hl) as [Hr Hat'].
  destruct (check_at m Hm _ _ _ Hat' Hl) as [Hc Hpd].
  unfold pack_read_data_safe. rewrite Hr, bind_ok, Hc. cbn [fail_if]. rewrite bind_ok.
  replace (n >? 0) with true by lia. rewrite (load_cut m _ _ _ _ Hat'), Hpd by lia.
  eexists. split; [done|]. by eapply at_app.
Qed.

(** The values after the first one are skipped. *)
Lemma skip_rest_at ty vs q rest (i : server_hello_info) :
  at_ m q (mjoin (map enc_value vs) ++ rest) -> Forall (fun v => value_ok v /\ vtype v = ty) vs ->
  exists q', (p ← skip_values m (length vs) q ty; Ok (i, p)) = Ok (i, q') /\ at_ m q' rest.
Proof. intros Hq Hvs. destruct (skip_values_at m Hm _ _ _ _ Hq Hvs) as (q' & -> & ?). by exists q'. Qed.

Lemma hello_element_at p e rest info : at_ m p (enc_elem e ++ rest) -> elem_ok e ->
  exists q, hello_element m p info = Ok (hello_step info e, q) /\ at_ m q rest.
Proof.
  intros Hat He. destruct e as [name ty vs].
  destruct (element_header_at m Hm _ _ _ _ _ Hat He) as (Hr1 & Hck & Hpd & Hld & Hr2 & Hr3 & Hat3).
  destruct He as (Hn & Ht & Hc & Hvs). cbn [e_name e_type e_vals] in *. unfold PACK_MAX_VALUES in Hc.
  pose proof (len_nonneg name). pose proof (len_nonneg vs).
  unfold hello_element. rewrite Hr1, bind_ok.
  replace (len name + 1 =? 0) with false by lia. cbn [fail_if]. rewrite bind_ok.
  replace (len name + 1 - 1) with (len name) by lia.
  rewrite Hck, Hpd, Hld. cbn [fail_if]. rewrite !bind_ok, Hr2, bind_ok, Hr3, bind_ok.
  unfold PACK_MAX_VALUES. replace (len vs >? 65535) with false by lia. cbn [fail_if]. rewrite bind_ok. cbn zeta.
  destruct vs as [|v vs]; [by eexists|]. replace (len (v :: vs) =? 0) with false by slia.
  pose proof Hvs as Hvs'. apply Forall_cons in Hvs' as [[Hv Hty] Hvs'].
  pose proof (skip_rest_at ty (v :: vs) _ rest info Hat3 Hvs) as Hall.
  change (mjoin (map enc_value (v :: vs))) with (enc_value v ++ mjoin (map enc_value vs)) in Hat3.
  rewrite <- app_assoc in Hat3. replace (Z.to_nat (len (v :: vs) - 1)) with (length vs) by (unfold len; cbn; lia).
  replace (Z.to_nat (len (v :: vs))) with (length (v :: vs)) by (unfold len; lia).
  unfold hello_step, matches. cbn [e_name e_type e_vals head].
  replace (len (v :: vs) >=? 1) with true by slia.
  set (named := fun n => bool_decide (cstr (tk 63 name) = str n)).
  fold (named "hello"%string) (named "version"%string) (named "random"%string).
  set (q := p + 4 + len name + 4 + 4) in *.
  destruct v as [z|z|l|l|l]; cbn [vtype] in Hty; subst ty;
    rewrite ?(andb_false_r (named _)), ?Z.eqb_refl, ?andb_true_r;
    repeat match goal with |- context [?a =? ?b] => change (a =? b) with false end; rewrite ?andb_false_r;
    try exact Hall.
  - destruct (named _); [|exact Hall]. destruct (read_uint32_at m Hm _ _ _ Hat3 Hv) as [-> Hat4].
    rewrite bind_ok. by apply skip_rest_at.
  - destruct (named _); [|exact Hall]. destruct (read_data_at _ _ _ SHA1_SIZE Hat3 Hv) as (q' & -> & Hat4); [done|].
    rewrite bind_ok. by apply skip_rest_at.
  - destruct (named _); [|exact Hall]. destruct (read_string_at _ _ _ 64 Hat3 Hv) as (q' & -> & Hat4); [done|].
    rewrite bind_ok. by apply skip_rest_at.
Qed.

Lemma hello_elements_at es p rest info : at_ m p (mjoin (map enc_elem es) ++ rest) -> Forall elem_ok es ->
  hello_elements (length es) m p info = Ok (fold_left hello_step es info).
Proof.
  intros Hat Hes. revert p info Hat. induction Hes as [|e es He Hes IH]; intros p info Hat; [done|].
  change (mjoin (map enc_elem (e :: es))) with (enc_elem e ++ mjoin (map enc_elem es)) in Hat.
  rewrite <- app_assoc in Hat. destruct (hello_element_at _ _ _ info Hat He) as (q & Hq & Hat').
  cbn [length hello_elements fold_left]. rewrite Hq, bind_ok. by apply IH.
Qed.

Lemma parse_hello_at es rest : m_body m = encode es ++ rest -> Forall elem_ok es -> len es <= PACK_MAX_ELEMENTS ->
  parse_server_hello m = Ok (hello_of es).
Proof.
  intros Hb Hes Hn. unfold PACK_MAX_ELEMENTS in Hn. pose proof (len_nonneg es).
  assert (Hat : at_ m (m_base m) (be_enc 4 (len es) ++ mjoin (map enc_elem es) ++ rest)).
  { exists []. rewrite Hb. unfold encode. rewrite <- app_assoc. split; [done|slia]. }
  destruct (read_uint32_at m Hm _ _ _ Hat ltac:(lia)) as [Hr Hat'].
  assert (4 <= len (m_body m)) by (rewrite Hb; unfold encode; rewrite !len_app, len_be_enc; slia).
  unfold parse_server_hello. rewrite check_ok by lia. rewrite Hr, bind_ok. rewrite check_ok by lia.
  unfold len. rewrite Nat2Z.id. by eapply hello_elements_at.
Qed.
End hello.

(** The Hello parser. Whatever bytes a server sends, the parser stays
    inside the message (in a 64-bit address space) and fills its record within
    the arrays; on an encoded list of at most 4096 elements it finds exactly
    the version, the random challenge (cut to 20 bytes) and the greeting (cut
    to 63) of the last elements with these names and types. *)
Theorem server_hello_reference m es rest :
  view_ok m -> bytes_ok (m_body m) ->
  safe hello_ok (parse_server_hello m) /\
  (m_body m = encode es ++ rest -> Forall elem_ok es -> len es <= PACK_MAX_ELEMENTS ->
   parse_server_hello m = Ok (hello_of es)).
Proof. intros Hm Hb. split; [by apply parse_hello_safe|]. intros. by eapply parse_hello_at. Qed.

Definition ex_hello : list elem :=
  [ Elem (str "hello") PACK_TYPE_STR [VStr (str "SoftEther")]; Elem (str "version") PACK_TYPE_INT [VInt 438];
    Elem (str "random") PACK_TYPE_DATA [VData (replicate 20 7)] ].

Lemma server_hello_reference_witness :
  parse_server_hello (Mem 64 4096 (encode ex_hello)) = Ok (hello_of ex_hello) /\
  h_random (hello_of ex_hello) = replicate 20 7.
Proof.
  split; [|vm_compute; reflexivity].
  apply (server_hello_reference (Mem 64 4096 (encode ex_hello)) ex_hello []).
  - vm_compute. split; discriminate.
  - apply (bool_decide_unpack _). vm_compute. exact I.
  - symmetry. apply app_nil_r.
  - apply (bool_decide_unpack _). vm_compute. exact I.
  - vm_compute. discriminate.
Defined.
