(* ===== verification/Login.v ===== *)
(** * The login conversation (softether_protocol.c)

    [send_vpnconnect_watermark] and [perform_authentication_http] are the two
    exchanges after the TLS handshake, [softether_protocol_login] runs them in
    order. The state is the connection with its surroundings and the
    [session].

    The date of the request, [inet_addr], [getsockname] and SHA-1 are
    parameters; [addr] is the address of the local array an answer is read
    into. The creation of the accelerator is reached through [AccelSetup]. *)
From stdpp Require Import functions strings.
From S2P Require Import Prelude Bytes Ring Pack Crypto Conn Http LoginPack.
Import Reader.

Definition ERR_NONE : Z := 0.
Definition ERR_AUTHENTICATION : Z := 4.
Definition ERR_TIMEOUT : Z := 7.
Definition CLIENT_AUTHTYPE_ANONYMOUS : Z := 0.
Definition CLIENT_AUTHTYPE_PASSWORD : Z := 1.
Definition CLIENT_AUTHTYPE_PLAIN_PASSWORD : Z := 2.
Definition AF_INET6 : Z := 10.

(** The accelerator as the login sees it: [rudp_create(1)],
    [rudp_set_udp_family] (its result and the context), the fields the login
    message shows, [rudp_set_compress]. *)
Class AccelSetup (U : Type) := {
  as_create : option U;
  as_family : Z -> U -> res (Z * U);
  as_offer : U -> rudp_offer;
  as_compress : bool -> U -> U }.

Record lworld {U : Type} := LWorld { l_world : cworld U; l_session : session }.
Arguments lworld : clear implicits.
Arguments LWorld {U}.
#[export] Instance eta_lworld {U} : Eta (lworld U) := fun w => LWorld (l_world w) (l_session w).

Section login.
Context {U : Type} `{AccelSetup U}.
Context (crand : nat -> Z) (malloc_ok : Z -> bool) (stack : Z -> list Z) (addr : Z) (sha1 : list Z -> list Z)
        (inet_addr : list Z -> Z) (local_port : Z -> option Z) (http_date : list Z).
Abbreviation M := (St (lworld U)).

(** A computation on the connection alone. *)
Definition io {A} (m : St (cworld U) A) : M A := fun w =>
  match m (l_world w) with Ub => Ub | Err => Err | Ok (a, w') => Ok (a, w <| l_world := w' |>) end.

Definition get_session : M session := gets l_session.
Definition modify_session (f : session -> session) : M unit := modify (fun w => w <| l_session := f (l_session w) |>).

(** The body of an answer as the readers see it. *)
Definition body_of (r : response) : mem := Mem 64 (addr + r_offset r) (slice (r_offset r) (r_len r) (r_buf r)).

(** ** The watermark *)

Definition send_vpnconnect_watermark (server_ip : list Z) : M Z :=
  c ← io get_conn;
  if c_ssl c =? 0 then mret (-1) else
  sent ← io (post malloc_ok stack (c_ssl c) 1024 (connect_post server_ip) watermark);
  if negb sent then mret (-1) else
  r ← io (read_http_response stack (c_ssl c) 4096);
  match r with
  | None => mret (-1)
  | Some resp =>
      ok ← lift (http_ok (r_buf resp));
      if negb ok then mret 0 else
      octet ← lift (strstr (r_buf resp) (str "application/octet-stream"));
      if negb (bool_decide (is_Some octet)) then mret 0 else
      if r_len resp <? 4 then mret 0 else
      match parse_server_hello (body_of resp) with
      | Ub => lift Ub
      | Err => mret 1
      | Ok info =>
          (if h_has_random info
           then modify_session (fun s => s <| s_server_random := h_random info |> <| s_has_server_random := true |>)
           else mret tt) ;;
          mret 1
      end
  end.

(** ** The secret *)

Definition to_upper (c : Z) : Z := if (97 <=? c) && (c <=? 122) then c - 32 else c.

(** [secure_password]: SHA-0 of the password and the upper-case user name,
    hashed again with the server's challenge when there is one; zeros when an
    allocation fails. *)
Definition secure_password_of (username password : list Z) (s : session) : list Z :=
  if negb (malloc_ok (len username + 1)) then zeros SHA1_SIZE else
  if negb (malloc_ok (len password + len username)) then zeros SHA1_SIZE else
  let hashed_pw := Sha0.sha0_hash (password ++ map to_upper username) in
  if s_has_server_random s then Sha0.sha0_hash (hashed_pw ++ s_server_random s) else hashed_pw.

Definition auth_type_of (password : list Z) (s : session) : Z :=
  if s_forced_auth_type s =? CLIENT_AUTHTYPE_PLAIN_PASSWORD then CLIENT_AUTHTYPE_PLAIN_PASSWORD
  else if s_forced_auth_type s =? CLIENT_AUTHTYPE_PASSWORD then CLIENT_AUTHTYPE_PASSWORD
  else if len password >? 0 then CLIENT_AUTHTYPE_PASSWORD else CLIENT_AUTHTYPE_ANONYMOUS.

(** ** The Welcome message *)

(** A field is stored when the message has it. *)
Definition set_field {A} (r : res A) (f : A -> session -> session) (s : session) : res session :=
  match r with Ub => Ub | Err => Ok s | Ok a => Ok (f a s) end.

Definition int_field (m : mem) (name : string) : res Z := pack_get_int (Some m) (Some (str name)).
(** The C string a string field leaves in an array of [cap] bytes. *)
Definition str_field (m : mem) (name : string) (cap : Z) : res (list Z) :=
  cstr <$> pack_get_str (Some m) (Some (str name)) cap.
Definition data_field (m : mem) (name : string) (cap : Z) : res (list Z) :=
  pack_get_data (Some m) (Some (str name)) cap.

Definition welcome_session (m : mem) (s : session) : res session :=
  s ← set_field (str_field m "session_name" 128) (fun v s => s <| s_session_name := v |>) s;
  s ← set_field (str_field m "connection_name" 128) (fun v s => s <| s_connection_name := v |>) s;
  s ← set_field (data_field m "session_key" SHA1_SIZE)
        (fun v s => s <| s_session_key := store v (s_session_key s) |>) s;
  s ← set_field (int_field m "session_key_32") (fun v s => s <| s_session_key_32 := v |>) s;
  s ← set_field (int_field m "max_connection") (fun v s => s <| s_server_max_connection := v |>) s;
  s ← set_field (int_field m "use_encrypt") (fun v s => s <| s_server_use_encrypt := v |>) s;
  s ← set_field (int_field m "use_fast_rc4") (fun v s => s <| s_server_use_fast_rc4 := v |>) s;
  set_field (int_field m "half_connection") (fun v s => s <| s_half_connection := int32 v |>) s.

(** The server's key for one version of the accelerator; an empty one leaves
    the size alone. *)
Definition rudp_key_field (m : mem) (name : string) (set : list Z -> session -> session) (s : session) : res session :=
  set_field (data_field m name 128) set s.

Definition welcome_rudp (m : mem) (s : session) : res session :=
  version ← match int_field m "udp_acceleration_version" with Ub => Ub | Err => Ok 1 | Ok v => Ok v end;
  let s := s <| s_rudp_version := int32 version |> in
  s ← match str_field m "udp_acceleration_server_ip" 64 with
      | Ub => Ub
      | Ok ip => Ok (s <| s_rudp_server_ip := ip |>)
      | Err => Ok (s <| s_rudp_server_ip := copy_str 64 (s_server_ip s) |>)
      end;
  s ← set_field (int_field m "udp_acceleration_server_port")
        (fun v s => if (v >? 0) && (v <=? 65535) then s <| s_rudp_server_port := v |> else s) s;
  s ← rudp_key_field m "udp_acceleration_server_key"
        (fun k s => let s := s <| s_rudp_server_key := store k (s_rudp_server_key s) |> in
           if len k >? 0 then s <| s_rudp_server_key_size := len k |> else s) s;
  s ← rudp_key_field m "udp_acceleration_server_key_v2"
        (fun k s => let s := s <| s_rudp_server_key_v2 := store k (s_rudp_server_key_v2 s) |> in
           if len k >? 0 then s <| s_rudp_server_key_v2_size := len k |> else s) s;
  s ← set_field (int_field m "udp_acceleration_server_cookie") (fun v s => s <| s_rudp_server_cookie := v |>) s;
  set_field (int_field m "udp_acceleration_client_cookie") (fun v s => s <| s_rudp_client_cookie := v |>) s.

(** The fields the data plane uses. *)
Definition welcome_conn (m : mem) (s : session) : res (connection -> connection) :=
  compress ← match int_field m "use_compress" with
             | Ub => Ub | Err => Ok id
             | Ok v => Ok (fun c => c <| c_server_use_compress := negb (v =? 0) |>) end;
  timeout ← match int_field m "timeout" with
            | Ub => Ub | Err => Ok id | Ok v => Ok (fun c => c <| c_server_timeout := v |>) end;
  let use_ssl := negb (s_server_use_encrypt s =? 0) && (s_server_use_fast_rc4 s =? 0) in
  Ok (fun c => timeout (compress c) <| c_use_ssl_data := use_ssl |>).

(** The whole message after the login was accepted. *)
Definition accept_welcome (m : mem) : M unit :=
  s ← get_session;
  s ← lift (welcome_session m s);
  modify_session (fun _ => s) ;;
  f ← lift (welcome_conn m s);
  io (modify_conn f) ;;
  c ← io get_conn;
  io (modify (fun w => w <| w_rudp := as_compress (c_server_use_compress c) <$> w_rudp w |>)) ;;
  use_udp ← lift (match int_field m "use_udp_acceleration" with Ub => Ub | Err => Ok 0 | Ok v => Ok v end);
  (if use_udp =? 0 then mret tt else
   s ← lift (welcome_rudp m s);
   modify_session (fun _ => s) ;;
   io (modify_conn (fun c => c <| c_rudp_enabled := true |>))) ;;
  io (modify_conn (fun c => c <| c_session_established := true |>)).

(** The server's verdict: its error code, or a sign of a session. *)
Definition login_accepted (m : mem) : res bool :=
  match int_field m "error" with
  | Ub => Ub
  | Ok err => Ok (err =? 0)
  | Err => Ok (buffer_contains_token (m_body m) (str "session_key") ||
               buffer_contains_token (m_body m) (str "session_name") ||
               buffer_contains_token (m_body m) (str "connection_name"))
  end.

(** ** Authentication *)

Definition perform_authentication_http (username password : list Z) : M Z :=
  io (modify_conn (fun c => c <| c_state := STATE_AUTHENTICATING |>)) ;;
  modify_session (fun s => s <| s_username := copy_str 256 username |> <| s_password := copy_str 256 password |>) ;;
  s ← get_session;
  let auth_type := auth_type_of password s in
  let secure := if auth_type =? CLIENT_AUTHTYPE_PASSWORD then Some (secure_password_of username password s) else None in
  let plain := if auth_type =? CLIENT_AUTHTYPE_PLAIN_PASSWORD then Some password else None in
  rudp ← io (gets w_rudp);
  p ← io (build_login_pack crand malloc_ok sha1 inet_addr local_port
            (s_hub_name s) username auth_type secure plain (as_offer <$> rudp) s);
  match p with
  | None => mret ERR_AUTHENTICATION
  | Some pack_buf =>
      if len pack_buf =? 0 then mret ERR_AUTHENTICATION else
      c ← io get_conn;
      sent ← io (post malloc_ok stack (c_ssl c) 512 (vpn_post http_date (s_server_ip s) (len pack_buf)) pack_buf);
      if negb sent then mret ERR_AUTHENTICATION else
      r ← io (read_http_response stack (c_ssl c) 8192);
      match r with
      | None => mret ERR_AUTHENTICATION
      | Some resp =>
          ok ← lift (http_ok (r_buf resp));
          if negb ok then mret ERR_AUTHENTICATION else
          if r_len resp <? 4 then mret ERR_AUTHENTICATION else
          accepted ← lift (login_accepted (body_of resp));
          if negb accepted then mret ERR_AUTHENTICATION else
          accept_welcome (body_of resp) ;;
          mret ERR_NONE
      end
  end.

(** ** Both steps *)

(** The accelerator is created before its keys are sent. *)
Definition create_rudp (use_tcp : bool) : M unit :=
  s ← get_session;
  let set u := io (modify (fun w => w <| w_rudp := u |>)) in
  if use_tcp || s_using_nat_t s then set None else
  match as_create with
  | None => set None
  | Some u =>
      if negb (s_is_ipv6 s) then set (Some u) else
      '(r, u) ← lift (as_family AF_INET6 u);
      if negb (r =? 0) then set None else set (Some u)
  end.

Definition softether_protocol_login (host username password : list Z) (use_tcp : bool) : M Z :=
  watermark_result ← send_vpnconnect_watermark host;
  if watermark_result <? 0 then mret ERR_TIMEOUT else
  create_rudp use_tcp ;;
  perform_authentication_http username password.
End login.
