(* ===== verification/LoginInv.v ===== *)
(** * The login keeps the connection well formed

    The steps of the login conversation on a well-formed connection, against
    any server: they return, keep the invariant, and can only misbehave in one
    way, the fault [F] of [wpf]: an answer without a NUL byte is searched
    beyond the end of its array. *)
From stdpp Require Import functions strings.
From S2P Require Import Prelude Bytes Ring Pack PackSpec Crypto Conn ConnInv WorldInv Http HttpSpec.
Import Writer Reader Spec Reader_correct.
From S2P Require Import LoginPack LoginPackSpec HelloSpec Login.

(** ** Computations with one permitted fault *)

Section wpf.
Context {W : Type} (F : Prop).

(** [m] returns with [Q], or misbehaves and [F] holds. *)
Definition wpf {A} (m : St W A) (Q : A -> W -> Prop) (w : W) : Prop :=
  match m w with Ok (a, w') => Q a w' | Ub => F | Err => False end.

Lemma wpf_wp {A} (m : St W A) Q w : wp m Q w -> wpf m Q w.
Proof. unfold wp, wpf. by destruct (m w) as [| |[]]. Qed.
Lemma wpf_ret {A} (a : A) (Q : A -> W -> Prop) w : Q a w -> wpf (mret a) Q w.
Proof. done. Qed.
Lemma wpf_bind {A B} (m : St W A) (f : A -> St W B) Q w :
  wpf m (fun a w' => wpf (f a) Q w') w -> wpf (m ≫= f) Q w.
Proof. unfold wpf, mbind, St_bind. by destruct (m w) as [| |[a w']]. Qed.
Lemma wpf_mono {A} (m : St W A) (P Q : A -> W -> Prop) w :
  wpf m P w -> (forall a w', P a w' -> Q a w') -> wpf m Q w.
Proof. unfold wpf. destruct (m w) as [| |[a w']]; auto. Qed.
Lemma wpf_if {A} (b : bool) (m1 m2 : St W A) Q w :
  (b = true -> wpf m1 Q w) -> (b = false -> wpf m2 Q w) -> wpf (if b then m1 else m2) Q w.
Proof. destruct b; auto. Qed.
Lemma wpf_lift {A} (r : res A) (Q : A -> W -> Prop) w :
  match r with Ok a => Q a w | Ub => F | Err => False end -> wpf (lift r) Q w.
Proof. unfold wpf, lift. by destruct r. Qed.
End wpf.

Ltac wpf_step :=
  lazymatch goal with
  | |- wpf _ (_ ≫= _) _ _ => apply wpf_bind
  | |- wpf _ (mret _) _ _ => apply wpf_ret
  | |- wpf _ (if _ then _ else _) _ _ => apply wpf_if; let H := fresh "Hc" in intros H
  end.

(** ** Requests *)

Lemma dec_digits_len fuel n acc : len (dec_digits fuel n acc) <= Z.of_nat fuel + len acc.
Proof.
  revert n acc. induction fuel as [|f IH]; intros n acc; cbn [dec_digits]; [lia|]. cbn zeta.
  destruct (n / 10 =? 0); [slia|]. specialize (IH (n / 10) (48 + n mod 10 :: acc)). slia.
Qed.

Ltac len_str := repeat match goal with
  | |- context [len (str ?s)] => let v := eval vm_compute in (len (str s)) in change (len (str s)) with v end.

Lemma connect_post_len ip : len (connect_post ip) = 115 + len ip.
Proof.
  unfold connect_post. rewrite !len_app. len_str. change (len (dec (len watermark))) with 2.
  change (len crlf) with 2. lia.
Qed.
Lemma vpn_post_len date ip n : len (vpn_post date ip n) <= 173 + len date + len ip.
Proof.
  unfold vpn_post. rewrite !len_app. len_str. change (len crlf) with 2.
  pose proof (dec_digits_len 10 n []) as Hd. fold (dec n) in Hd. rewrite len_nil in Hd. lia.
Qed.

Lemma snprintf_ok arr text : len text < len arr ->
  exists arr', snprintf arr text = Ok (arr', len text) /\ fetch 0 (len text) arr' = Ok text.
Proof.
  intros Hl. pose proof (len_nonneg text). unfold snprintf. rewrite (tk_all (len arr - 1)) by lia.
  destruct (blit_ok (text ++ [0]) 0 arr) as (arr' & -> & -> & Hl' & _); [lia|slia|].
  rewrite bind_ok. eexists. split; [done|]. rewrite <- app_assoc. apply (fetch_at []); done.
Qed.

Section post.
Context {U : Type} (malloc_ok : Z -> bool) (stack : Z -> list Z) (Hstack : arrays_ok stack).

(** A request that fits its array is sent in one write. *)
Lemma post_wp ssl cap text body (w : cworld U) : ssl ∉ w_freed w -> len text < cap ->
  wp (post malloc_ok stack ssl cap text body) (fun ok w' => after_write (Tls ssl) w w' /\
    (ok = true -> exists k, 0 < k /\ w_out w' (Tls ssl) = w_out w (Tls ssl) ++ tk k (text ++ body)) /\
    (malloc_ok (len text + len body) = true -> ssl <> 0 -> w_room w (Tls ssl) = [] -> text <> [] ->
     ok = true /\ w_out w' (Tls ssl) = w_out w (Tls ssl) ++ text ++ body /\ w_room w' (Tls ssl) = [])) w.
Proof.
  intros Hf Hl. pose proof (len_nonneg text). pose proof (len_nonneg body).
  destruct (Hstack cap ltac:(lia)) as [Hcap _].
  destruct (snprintf_ok (stack cap) text ltac:(lia)) as (arr & Es & Ef). unfold post.
  wp_step. eapply wp_lift; [exact Es|]. cbn beta iota. wp_step.
  { wp_step. split; [apply after_write_refl|]. split; [done|]. intros E. by rewrite E in Hc. }
  wp_step. eapply wp_lift; [exact Ef|]. wp_step.
  eapply (wp_mono _ (fun e w' => write_call_post never (Tls ssl) (text ++ body) w e w' /\
    (ssl <> 0 -> w_room w (Tls ssl) = [] -> e = WrRoom (len (text ++ body)) /\ w_room w' (Tls ssl) = []))).
  { apply wp_and; [by apply ssl_write_wp|]. unfold ssl_write. wp_step; [wp_step; intros; lia|].
    wp_step. apply deref_ssl_wp; [done|]. unfold wp, sys_write. intros _ Hr. rewrite Hr. cbn. by rewrite fn_lookup_insert. }
  intros e w' [(Ha & _ & _ & Ho & _) Hroom]. wp_step. split; [done|]. split.
  - intros Hok. destruct e as [n| |]; [|done..]. exists n. split; [lia|done].
  - intros _ Hs Hr Ht. destruct (Hroom Hs Hr) as [-> Hr']. rewrite tk_all in Ho by lia.
    split; [|done]. destruct text as [|c text]; [done|]. slia.
Qed.
End post.

(** ** The session *)

Record session_ok (s : session) : Prop := {
  so_ip : len (s_server_ip s) <= 63; so_hub : small (s_hub_name s); so_client : client_ok (s_client s);
  so_version : exists v, product_version (ci_product_version (s_client s)) = Ok v;
  so_random : len (s_server_random s) = SHA1_SIZE; so_key : len (s_session_key s) = SHA1_SIZE;
  so_rkey : len (s_rudp_server_key s) = 128; so_rkey2 : len (s_rudp_server_key_v2 s) = 128 }.

(** Setting fields the record does not read, or reads with its length. *)
Ltac session_set := intros []; by constructor.
Lemma session_random s r b : session_ok s -> len r = SHA1_SIZE ->
  session_ok (s <| s_server_random := r |> <| s_has_server_random := b |>).
Proof. intros [] ?. by constructor. Qed.
Lemma session_creds s u p : session_ok s -> session_ok (s <| s_username := u |> <| s_password := p |>).
Proof. session_set. Qed.

Section fields.
Context (m : mem) (Hm : view_ok m) (Hb : bytes_ok (m_body m)).

Lemma int_field_safe name : int_field m name <> Ub.
Proof. by destruct (pack_getters_safe m (Some (str name)) 1 Hm Hb ltac:(lia)) as (? & _). Qed.
Lemma str_field_safe name cap : 0 <= cap < 2 ^ 32 -> str_field m name cap <> Ub.
Proof.
  intros Hc. destruct (pack_getters_safe m (Some (str name)) cap Hm Hb Hc) as (_ & _ & Hs & _).
  unfold str_field. by destruct (pack_get_str _ _ _).
Qed.
Lemma data_field_safe name cap : 0 <= cap < 2 ^ 32 -> safe (fun d => len d <= cap) (data_field m name cap).
Proof. intros Hc. by destruct (pack_getters_safe m (Some (str name)) cap Hm Hb Hc) as (_ & _ & _ & ?). Qed.

(** Storing a field that was found keeps [P]. *)
Lemma set_field_ok {A} (P : session -> Prop) (r : res A) f s :
  r <> Ub -> P s -> (forall a, r = Ok a -> P (f a s)) -> exists s', set_field r f s = Ok s' /\ P s'.
Proof. destruct r as [| |a]; intros Hr Hs Hf; cbn; eauto. done. Qed.

Lemma store_field name cap d arr : data_field m name cap = Ok d -> len arr = cap -> 0 <= cap < 2 ^ 32 ->
  len (store d arr) = cap.
Proof.
  intros Hd <- Hc. apply store_len. pose proof (data_field_safe name _ Hc) as Hs. by rewrite Hd in Hs.
Qed.

Ltac field_safe := first [apply int_field_safe | apply str_field_safe; lia
  | eapply safe_not_ub, data_field_safe; unfold SHA1_SIZE; lia].
(** The field keeps the record: directly, or as a store into an array. *)
Ltac field_keep Hs := let a := fresh "a" in let Ha := fresh "Ha" in intros a Ha;
  cbn zeta; try match goal with |- session_ok (if ?b then _ else _) => destruct b end;
  destruct Hs; constructor; try done; cbn; by eapply store_field.
(** One field: [Hs] is about the session before it, and then after it. *)
Ltac set_step Hs :=
  lazymatch goal with
  | |- exists s', (set_field ?r ?f ?s ≫= ?k) = Ok s' /\ _ =>
      let s1 := fresh "s" in let E := fresh "E" in let H := fresh "H" in
      destruct (set_field_ok session_ok r f s) as (s1 & E & H);
      [field_safe|exact Hs|field_keep Hs|rewrite E, bind_ok; clear E Hs; rename H into Hs]
  | |- exists s', set_field ?r ?f ?s = Ok s' /\ _ => apply set_field_ok; [field_safe|exact Hs|field_keep Hs]
  end.

Lemma welcome_session_ok s : session_ok s -> exists s', welcome_session m s = Ok s' /\ session_ok s'.
Proof. intros Hs. unfold welcome_session. repeat set_step Hs. Qed.

Lemma welcome_rudp_ok s : session_ok s -> exists s', welcome_rudp m s = Ok s' /\ session_ok s'.
Proof.
  intros Hs. unfold welcome_rudp. pose proof (int_field_safe "udp_acceleration_version") as Hv.
  destruct (int_field m "udp_acceleration_version") as [| |v]; [done|..]; rewrite bind_ok; cbn zeta.
  all: match goal with |- context [str_field m ?n ?c] => pose proof (str_field_safe n c ltac:(lia)) as Hip;
         destruct (str_field m n c) as [| |ip]; [done|..] end; rewrite bind_ok; unfold rudp_key_field.
  all: match goal with |- context [set_field _ _ ?s1] => assert (Hs1 : session_ok s1) by (destruct Hs; by constructor) end.
  all: repeat set_step Hs1.
Qed.

Lemma welcome_conn_ok s : exists f, welcome_conn m s = Ok f /\
  forall freed c, conn_ok freed c -> conn_ok freed (f c).
Proof.
  unfold welcome_conn. pose proof (int_field_safe "use_compress"). pose proof (int_field_safe "timeout").
  destruct (int_field m "use_compress"); [done|..]; destruct (int_field m "timeout"); try done; rewrite !bind_ok;
    eexists; (split; [done|]); intros freed c Hc; exact Hc.
Qed.

Lemma login_accepted_ok : exists b, login_accepted m = Ok b.
Proof.
  unfold login_accepted. pose proof (int_field_safe "error"). by destruct (int_field m "error"); eauto.
Qed.
End fields.

(** ** The conversation *)

(** What the login relies on in the accelerator. *)
Class AccelSetupLaws (U : Type) `{AccelSetup U} (good : U -> Prop) := {
  as_create_good u : as_create = Some u -> good u;
  as_family_good f u : good u -> exists r u', as_family f u = Ok (r, u') /\ good u';
  as_compress_good b u : good u -> good (as_compress b u);
  as_offer_good u : good u -> offer_ok (as_offer u) }.

Lemma strstr_not_err s tok : strstr s tok <> Err.
Proof.
  induction s as [|c s IH]; rewrite strstr_eq.
  - by destruct tok.
  - assert (match_at tok (c :: s) <> Err) as Hm.
    { generalize (c :: s). clear. induction tok as [|t tok IH]; intros [|c s]; cbn; try done.
      by destruct (c =? t). }
    destruct (match_at _ _) as [| |[]]; [done..|]. rewrite bind_ok. by destruct (c =? 0).
Qed.

Lemma has_either_not_err s a b : has_either s a b <> Err.
Proof.
  unfold has_either. pose proof (strstr_not_err s a). pose proof (strstr_not_err s b).
  destruct (strstr s a) as [| |[]], (strstr s b); done.
Qed.

Lemma has_either_ok s a b : nul_free a -> nul_free b -> 0 ∈ s -> has_either s a b <> Ub.
Proof.
  intros Ha Hb Hs. unfold has_either. destruct (strstr_ok a s Ha Hs) as [ra ->], (strstr_ok b s Hb Hs) as [rb ->].
  by destruct ra.
Qed.

Section conversation.
Context {U : Type} `{Hset : AccelSetup U} (good : U -> Prop) `{!AccelSetupLaws U good}.
Context (crand : nat -> Z) (malloc_ok : Z -> bool) (stack : Z -> list Z) (addr : Z) (sha1 : list Z -> list Z)
        (inet_addr : list Z -> Z) (local_port : Z -> option Z) (http_date : list Z).
Hypothesis Hrand : forall n, 0 <= crand n.
Hypothesis Hstack : arrays_ok stack.
Hypothesis Haddr : 0 <= addr /\ addr + 2 ^ 33 <= 2 ^ 64.
Hypothesis Hsha : sha1_ok sha1.
Hypothesis Hdate : len http_date <= 63.
Implicit Types w : lworld U.

Definition login_inv w : Prop := world_ok good (l_world w) /\ session_ok (l_session w).

(** The permitted fault. *)
Context (F : Prop).

Lemma wpf_run {A B} (m : St (cworld U) A) (f : A -> St (lworld U) B) (P : A -> cworld U -> Prop) Q w :
  wp m P (l_world w) -> (forall a (v : cworld U), m (l_world w) = Ok (a, v) -> P a v ->
    wpf F (f a) Q (w <| l_world := v |>)) -> wpf F (io m ≫= f) Q w.
Proof.
  intros Hm Hf. destruct (wp_run _ _ _ Hm) as (a & w' & E & Hp). apply wpf_bind. unfold wpf, io. rewrite E.
  by apply Hf.
Qed.

(** A search in an answer: it may be the fault. *)
Lemma wpf_search {A B} (r : res A) (f : A -> St (lworld U) B) Q w :
  r <> Err -> (r = Ub -> F) -> (forall a, wpf F (f a) Q w) ->
  wpf F (lift r ≫= f) Q w.
Proof. intros He Hu Hf. apply wpf_bind, wpf_lift. destruct r; [by apply Hu|done|apply Hf]. Qed.

Lemma wpf_pure {A B} (r : res A) (a : A) (f : A -> St (lworld U) B) Q w :
  r = Ok a -> wpf F (f a) Q w -> wpf F (lift r ≫= f) Q w.
Proof. intros -> Hf. by apply wpf_bind. Qed.

Lemma world_conn (w : cworld U) c : world_ok good w -> conn_ok (w_freed w) c -> world_ok good (w <| w_conn := c |>).
Proof. by intros (_ & ? & ?) ?. Qed.
Lemma world_rand (w w' : cworld U) : world_ok good w -> after_rand w w' -> world_ok good w'.
Proof. intros (? & ? & ?) ->. done. Qed.

Lemma response_view cap c r : 0 < cap <= 8192 -> response_ok cap c r ->
  view_ok (body_of addr r) /\ bytes_ok (m_body (body_of addr r)).
Proof.
  intros Hc (Hl & Hb & Hfit & _ & _ & h & b & _ & _ & Ho & Hn). unfold body_of, view_ok. cbn [m_base m_body m_bits].
  pose proof (len_nonneg h). pose proof (len_nonneg b). split; [|auto with bytes]. split; [lia|]. rewrite len_slice. lia.
Qed.

(** The answers that wait on a channel, the one that comes next: without a
    NUL byte although it has a body, it is the fault. *)
Definition faulty (data : list Z) : Prop := exists h b rest,
  data = h ++ b ++ rest /\ answer_of h b /\ b <> [] /\ nul_free (h ++ b).

Lemma search_fault {A} (cap : Z) c data r (x : res A) : response_ok cap c r -> (exists rest, data = c ++ rest) ->
  (faulty data -> F) -> (0 ∈ r_buf r -> x <> Ub) -> x = Ub -> F.
Proof.
  intros (_ & _ & _ & Hc & H0 & h & b & Ec & Ha & _ & Hl) [rest Hd] HF Hx Hu. apply HF.
  assert (Hn : 0 ∉ r_buf r) by (intros Hin; by apply Hx). exists h, b, rest.
  split; [by rewrite Hd, Ec, <- app_assoc|]. split; [done|]. split.
  - intros ->. by apply Hn, H0.
  - rewrite <- Ec, Hc. apply Forall_take, Forall_forall. by intros y Hy ->.
Qed.

Lemma alive_ssl (w : cworld U) : world_ok good w -> reading (c_ssl (w_conn w)) w.
Proof. intros Hw. split; [by eapply primary_alive|]. apply Hw. Qed.

Lemma world_read ssl (w w' : cworld U) c : world_ok good w -> taken ssl w w' c -> world_ok good w' /\ w_conn w' = w_conn w.
Proof. intros Hw [Ha _]. destruct (io_read good _ _ _ Hw Ha) as (? & ? & _). done. Qed.
Lemma world_write ssl (w w' : cworld U) : world_ok good w -> after_write (Tls ssl) w w' -> world_ok good w' /\ w_conn w' = w_conn w.
Proof. intros Hw Ha. destruct (io_write good _ _ _ Hw Ha) as (? & ? & _). done. Qed.

(** What waits on the primary link. *)
Definition inbox w : list Z := waiting (c_ssl (w_conn (l_world w))) (l_world w).

(** A step that takes [c] from the primary link and keeps the invariant. *)
Definition login_step w w' (c : list Z) : Prop := login_inv w' /\ inbox w = c ++ inbox w'.

Lemma inbox_write ssl (w w' : cworld U) : after_write (Tls ssl) w w' -> forall p, waiting p w' = waiting p w.
Proof. intros Ha p. unfold waiting. by destruct (after_write_conn _ _ _ Ha) as (_ & _ & _ & ->). Qed.

Lemma watermark_ok host w : login_inv w -> len host <= 800 -> (faulty (inbox w) -> F) ->
  wpf F (send_vpnconnect_watermark malloc_ok stack addr host) (fun r w' => login_inv w' /\
    (r < 0 \/ exists h b, answer_of h b /\ inbox w = (h ++ b) ++ inbox w')) w.
Proof.
  intros [Hw Hs] Hh HF. unfold send_vpnconnect_watermark, inbox in *.
  apply (wpf_run _ _ (fun c (v : cworld U) => c = w_conn v /\ v = l_world w)); [by apply wp_get_conn|].
  intros c w1 _ [-> ->]. replace (w <| l_world := l_world w |>) with w by (by destruct w).
  set (ssl := c_ssl _) in *. wpf_step; [wpf_step; split; [done|by left]|].
  eapply wpf_run; [apply post_wp; [done|by eapply primary_alive|rewrite connect_post_len; lia]|].
  intros sent w2 _ (Ha & _). destruct (world_write _ _ _ Hw Ha) as [Hw2 Ec].
  rewrite <- (inbox_write _ _ _ Ha) in HF |- *. wpf_step; [wpf_step; split; [done|by left]|].
  assert (Hr2 : reading ssl w2) by (subst ssl; rewrite <- Ec; by apply alive_ssl).
  eapply wpf_run; [by apply read_response_wp|].
  intros r w3 E (cs & Ht & Hr). destruct (world_read _ _ _ _ Hw2 Ht) as [Hw3 Ec3].
  destruct r as [resp|]; [|wpf_step; split; [done|by left]]. specialize (Hr resp eq_refl).
  destruct (response_view 4096 cs resp) as [Hv Hb]; [lia|done|].
  assert (Hend : forall (v : lworld U) (k : Z), login_inv v -> l_world v = w3 ->
    login_inv v /\ (k < 0 \/ exists h b, answer_of h b /\ waiting ssl w2 = (h ++ b) ++ waiting (c_ssl (w_conn (l_world v))) (l_world v))).
  { intros v k Hi Ev. split; [done|right]. destruct Hr as (_ & _ & _ & _ & _ & h & b & -> & Hab & _). exists h, b.
    split; [done|]. rewrite Ev, Ec3, Ec. apply Ht. }
  assert (Hd : exists rest, waiting ssl w2 = cs ++ rest) by (eexists; apply Ht).
  apply wpf_search; [apply has_either_not_err|eapply search_fault; [done..|]; apply has_either_ok; apply (bool_decide_unpack _); done|].
  intros ok. wpf_step; [wpf_step; by apply Hend|].
  apply wpf_search; [apply strstr_not_err| |].
  { eapply search_fault; [done..|]. intros Hin.
    destruct (strstr_ok (str "application/octet-stream") _ ltac:(by apply (bool_decide_unpack _)) Hin) as [x Hx].
    by rewrite Hx. }
  intros octet. wpf_step; [wpf_step; by apply Hend|]. wpf_step; [wpf_step; by apply Hend|].
  pose proof (parse_hello_safe _ Hv Hb) as Hp. destruct (parse_server_hello _) as [| |info]; [done|wpf_step; by apply Hend|].
  destruct Hp as (Hl & _ & _). wpf_step. destruct (h_has_random info).
  - unfold wpf at 1, modify_session, modify. wpf_step. apply Hend; [|done]. split; [done|]. by apply session_random.
  - wpf_step. wpf_step. by apply Hend.
Qed.

Lemma io_eta w : w <| l_world := l_world w |> = w.
Proof. by destruct w. Qed.

(** Reading the connection. *)
Lemma wpf_get_conn {B} (f : connection -> St (lworld U) B) Q w :
  wpf F (f (w_conn (l_world w))) Q w -> wpf F (io get_conn ≫= f) Q w.
Proof. intros Hf. apply wpf_bind. unfold wpf, io, get_conn, gets. by rewrite io_eta. Qed.
Lemma wpf_modify_conn {B} g (f : unit -> St (lworld U) B) Q w :
  wpf F (f tt) Q (w <| l_world := (l_world w) <| w_conn := g (w_conn (l_world w)) |> |>) ->
  wpf F (io (modify_conn g) ≫= f) Q w.
Proof. intros Hf. by apply wpf_bind. Qed.
Lemma wpf_get_session {B} (f : session -> St (lworld U) B) Q w :
  wpf F (f (l_session w)) Q w -> wpf F (get_session ≫= f) Q w.
Proof. intros Hf. by apply wpf_bind. Qed.
Lemma wpf_modify_session {B} g (f : unit -> St (lworld U) B) Q w :
  wpf F (f tt) Q (w <| l_session := g (l_session w) |>) ->
  wpf F (modify_session g ≫= f) Q w.
Proof. intros Hf. by apply wpf_bind. Qed.

Lemma accept_welcome_ok m w : view_ok m -> bytes_ok (m_body m) -> login_inv w ->
  wpf F (accept_welcome m) (fun _ w' => login_inv w') w.
Proof.
  intros Hm Hb [Hw Hs]. unfold accept_welcome. apply wpf_get_session.
  destruct (welcome_session_ok m Hm Hb _ Hs) as (s1 & E1 & Hs1). apply (wpf_pure _ s1); [exact E1|].
  apply wpf_modify_session. destruct (welcome_conn_ok m Hm Hb s1) as (f & E2 & Hf). apply (wpf_pure _ f); [exact E2|].
  apply wpf_modify_conn. apply wpf_get_conn.
  set (w2 := _ <| l_world := _ |>). assert (Hw2 : world_ok good (l_world w2)).
  { apply world_conn; [done|]. apply Hf, Hw. }
  apply wpf_bind. unfold wpf at 1, io at 1, modify. set (w3 := w2 <| l_world := _ |>).
  assert (Hw3 : world_ok good (l_world w3)).
  { destruct Hw2 as (? & ? & Hg). split; [done|]. split; [done|]. intros u Hu. subst w3. cbn in Hu.
    apply fmap_Some in Hu as (u0 & Hu & ->). by apply as_compress_good, Hg. }
  assert (Hs3 : session_ok (l_session w3)) by exact Hs1. clearbody w3. clear w2 Hw2.
  pose proof (int_field_safe m Hm Hb "use_udp_acceleration") as Hu.
  assert (Hend : forall w', login_inv w' -> wpf F
    (io (modify_conn (fun c => c <| c_session_established := true |>))) (fun _ w' => login_inv w') w').
  { intros w' [Hw' Hs']. unfold wpf, io. cbn. split; [|done]. apply world_conn; [done|]. apply Hw'. }
  apply wpf_bind, wpf_lift. destruct (int_field m "use_udp_acceleration") as [| |v]; [done|by apply Hend|].
  apply wpf_bind. destruct (v =? 0); [by apply Hend|].
  destruct (welcome_rudp_ok m Hm Hb _ Hs1) as (s4 & E4 & Hs4).
  apply (wpf_pure _ s4); [exact E4|]. apply wpf_modify_session. unfold wpf at 1, io at 1. cbn.
  apply Hend. split; [|done]. apply world_conn; [done|]. apply Hw3.
Qed.

Lemma secure_len user password s : len (secure_password_of malloc_ok user password s) = SHA1_SIZE.
Proof.
  unfold secure_password_of. repeat case_match; try apply len_sha0; done.
Qed.

(** The login message of an authentication is within its bounds. *)
Lemma login_ok_of user password w : login_inv w -> small user -> small password ->
  let s := l_session w in
  login_ok (s_hub_name s) user
    (if auth_type_of password s =? CLIENT_AUTHTYPE_PASSWORD then Some (secure_password_of malloc_ok user password s) else None)
    (if auth_type_of password s =? CLIENT_AUTHTYPE_PLAIN_PASSWORD then Some password else None)
    (as_offer <$> w_rudp (l_world w)) s.
Proof.
  intros [Hw Hs] Hu Hp s. destruct Hs. constructor; try done.
  - destruct (_ =? CLIENT_AUTHTYPE_PASSWORD); [apply secure_len|done].
  - by destruct (_ =? CLIENT_AUTHTYPE_PLAIN_PASSWORD).
  - destruct (w_rudp (l_world w)) as [u|] eqn:E; [|done]. apply as_offer_good. by apply Hw.
Qed.

Lemma authentication_ok user password w : login_inv w -> small user -> small password -> (faulty (inbox w) -> F) ->
  wpf F (perform_authentication_http crand malloc_ok stack addr sha1 inet_addr local_port http_date user password)
    (fun _ w' => login_inv w') w.
Proof.
  intros [Hw Hs] Hu Hp HF. unfold perform_authentication_http. apply wpf_modify_conn, wpf_modify_session.
  set (w1 := _ <| l_session := _ |>). assert (Hi1 : login_inv w1).
  { split; [apply world_conn; [done|]; apply Hw|by apply session_creds]. }
  change (faulty (inbox w1) -> F) in HF.
  clearbody w1. clear w Hw Hs. apply wpf_get_session. destruct Hi1 as [Hw Hs].
  set (auth := auth_type_of _ _). set (secure := if _ =? _ then _ else _). set (plain := if _ =? _ then _ else _).
  apply wpf_bind. unfold wpf at 1, io at 1, gets. rewrite io_eta.
  pose proof (login_ok_of user password w1 (conj Hw Hs) Hu Hp) as Hlo.
  destruct (so_version _ Hs) as [pv Hpv].
  eapply wpf_run; [by eapply build_login_pack_ok|]. intros p v _ [Hv Hm].
  pose proof (world_rand _ _ Hw Hv) as Hwv. destruct p as [b|]; [|by wpf_step].
  wpf_step; [by wpf_step|]. apply wpf_get_conn. cbn [l_world upd].
  assert (Ei : inbox w1 = waiting (c_ssl (w_conn v)) v) by (unfold inbox; rewrite Hv; reflexivity). rewrite Ei in HF.
  set (ssl := c_ssl (w_conn v)) in *.
  eapply wpf_run; [apply post_wp; [done|by eapply primary_alive|]|].
  { pose proof (vpn_post_len http_date (s_server_ip (l_session w1)) (len b)). destruct Hs. lia. }
  intros sent v2 _ (Ha & _). destruct (world_write _ _ _ Hwv Ha) as [Hw2 Ec]. wpf_step; [by wpf_step|].
  rewrite <- (inbox_write _ _ _ Ha) in HF.
  assert (Hr2 : reading ssl v2) by (subst ssl; rewrite <- Ec; by apply alive_ssl).
  eapply wpf_run; [by apply read_response_wp|].
  intros r v3 E (cs & Ht & Hr). destruct (world_read _ _ _ _ Hw2 Ht) as [Hw3 _].
  destruct r as [resp|]; [|by wpf_step]. specialize (Hr resp eq_refl).
  destruct (response_view 8192 cs resp) as [Hvw Hb]; [lia|done|].
  assert (Hd : exists rest, waiting ssl v2 = cs ++ rest) by (eexists; apply Ht).
  apply wpf_search; [apply has_either_not_err|eapply search_fault; [done..|]; apply has_either_ok; apply (bool_decide_unpack _); done|].
  intros ok. wpf_step; [by wpf_step|]. wpf_step; [by wpf_step|].
  destruct (login_accepted_ok _ Hvw Hb) as [acc Hacc]. apply (wpf_pure _ acc); [done|].
  wpf_step; [by wpf_step|]. wpf_step. eapply wpf_mono; [apply accept_welcome_ok; [done..|]|].
  { by split. }
  intros [] w' Hw'. by wpf_step.
Qed.

Lemma create_rudp_ok use_tcp w : login_inv w ->
  wpf F (create_rudp use_tcp) (fun _ w' => login_inv w' /\
    exists u, w' = w <| l_world := (l_world w) <| w_rudp := u |> |>) w.
Proof.
  intros [Hw Hs]. unfold create_rudp. apply wpf_get_session.
  assert (Hset' : forall u, (forall x, u = Some x -> good x) -> wpf F (io (modify (fun v : cworld U => v <| w_rudp := u |>)))
    (fun _ w' => login_inv w' /\ exists u, w' = w <| l_world := (l_world w) <| w_rudp := u |> |>) w).
  { intros u Hu. unfold wpf, io. cbn. split; [|by exists u]. split; [|done]. destruct Hw as (? & ? & _). done. }
  destruct (_ || _); [by apply Hset'|]. pose proof (as_create_good (good := good)) as Hc.
  destruct as_create as [u|]; [|by apply Hset']. specialize (Hc u eq_refl).
  destruct (negb _); [apply Hset'; by intros x [= <-]|].
  destruct (as_family_good AF_INET6 u Hc) as (r & u' & E & Hu').
  eapply wpf_pure; [exact E|]. cbn beta iota. destruct (negb _); apply Hset'; [done|by intros x [= <-]].
Qed.

(** One of the two answers of the login is the fault. *)
Definition login_fault (data : list Z) : Prop :=
  faulty data \/ exists h b rest, data = (h ++ b) ++ rest /\ answer_of h b /\ faulty rest.

Lemma login_keeps_inv host user password use_tcp w : login_inv w -> len host <= 800 -> small user -> small password ->
  (login_fault (inbox w) -> F) ->
  wpf F
    (softether_protocol_login crand malloc_ok stack addr sha1 inet_addr local_port http_date host user password use_tcp)
    (fun _ w' => login_inv w') w.
Proof.
  intros Hi Hh Hu Hp HF. unfold softether_protocol_login. wpf_step.
  eapply wpf_mono; [apply watermark_ok; [done..|]; intros; apply HF; by left|].
  intros r w1 [Hi1 Hr]. wpf_step; [by wpf_step|]. destruct Hr as [Hr|(h & b & Hab & Hd)]; [lia|]. wpf_step.
  eapply wpf_mono; [by apply create_rudp_ok|]. intros [] w2 [Hi2 [u E2]]. apply authentication_ok; [done..|].
  rewrite E2. intros Hf. apply HF. right. by exists h, b, (inbox w1).
Qed.
End conversation.
