(* ===== verification/LoginSpec.v ===== *)
(** * What the login promises

    [login_safe]: against any server the conversation ends with a well-formed
    connection, or an answer without a NUL byte was searched beyond its array.
    [login_establishes]: a server that answers both requests gets exactly the
    two requests, the session holds what the answers say, an error code
    establishes nothing, and the bytes behind the second answer are left for
    the data channel. [watermark_overread]: an answer that does fill its array
    without a NUL byte. *)
From stdpp Require Import functions strings.
From S2P Require Import Prelude Bytes Ring Pack PackSpec Crypto Conn ConnInv WorldInv Http HttpSpec PackRead.
Import Writer Reader Spec Reader_correct.
From S2P Require Import ConnEx LoginPack LoginPackSpec HelloSpec Login LoginInv.

(** ** The session the answers describe *)

Definition set_found {A} (o : option A) (f : A -> session -> session) (s : session) : session :=
  match o with Some a => f a s | None => s end.

Definition welcomed (es : list elem) (s : session) : session :=
  let s := set_found (es_str es "session_name" 128) (fun v s => s <| s_session_name := v |>) s in
  let s := set_found (es_str es "connection_name" 128) (fun v s => s <| s_connection_name := v |>) s in
  let s := set_found (es_data es "session_key" 20) (fun v s => s <| s_session_key := store v (s_session_key s) |>) s in
  let s := set_found (es_int es "session_key_32") (fun v s => s <| s_session_key_32 := v |>) s in
  let s := set_found (es_int es "max_connection") (fun v s => s <| s_server_max_connection := v |>) s in
  let s := set_found (es_int es "use_encrypt") (fun v s => s <| s_server_use_encrypt := v |>) s in
  let s := set_found (es_int es "use_fast_rc4") (fun v s => s <| s_server_use_fast_rc4 := v |>) s in
  set_found (es_int es "half_connection") (fun v s => s <| s_half_connection := int32 v |>) s.

(** The accelerator's part; without an address the server's own is taken. *)
Definition rudp_welcomed (es : list elem) (s : session) : session :=
  let s := s <| s_rudp_version := int32 (default 1 (es_int es "udp_acceleration_version")) |> in
  let s := s <| s_rudp_server_ip := default (copy_str 64 (s_server_ip s)) (es_str es "udp_acceleration_server_ip" 64) |> in
  let s := set_found (es_int es "udp_acceleration_server_port")
    (fun v s => if (v >? 0) && (v <=? 65535) then s <| s_rudp_server_port := v |> else s) s in
  let s := set_found (es_data es "udp_acceleration_server_key" 128)
    (fun k s => let s := s <| s_rudp_server_key := store k (s_rudp_server_key s) |> in
       if len k >? 0 then s <| s_rudp_server_key_size := len k |> else s) s in
  let s := set_found (es_data es "udp_acceleration_server_key_v2" 128)
    (fun k s => let s := s <| s_rudp_server_key_v2 := store k (s_rudp_server_key_v2 s) |> in
       if len k >? 0 then s <| s_rudp_server_key_v2_size := len k |> else s) s in
  let s := set_found (es_int es "udp_acceleration_server_cookie") (fun v s => s <| s_rudp_server_cookie := v |>) s in
  set_found (es_int es "udp_acceleration_client_cookie") (fun v s => s <| s_rudp_client_cookie := v |>) s.

Definition wants_udp (es : list elem) : bool := negb (default 0 (es_int es "use_udp_acceleration") =? 0).

Definition accepted_session (es : list elem) (s : session) : session :=
  let s := welcomed es s in if wants_udp es then rudp_welcomed es s else s.

(** The fields of the connection. *)
Definition conn_welcomed (es : list elem) (s : session) (c : connection) : connection :=
  let c := match es_int es "use_compress" with
           | Some v => c <| c_server_use_compress := negb (v =? 0) |> | None => c end in
  let c := match es_int es "timeout" with Some v => c <| c_server_timeout := v |> | None => c end in
  c <| c_use_ssl_data := negb (s_server_use_encrypt s =? 0) && (s_server_use_fast_rc4 s =? 0) |>.

(** The Hello leaves its challenge. *)
Definition greeted (es : list elem) (s : session) : session :=
  if h_has_random (hello_of es)
  then s <| s_server_random := h_random (hello_of es) |> <| s_has_server_random := true |> else s.

Definition with_creds (user password : list Z) (s : session) : session :=
  s <| s_username := copy_str 256 user |> <| s_password := copy_str 256 password |>.

Section found.
Context (m : mem) (es : list elem) (rest : list Z).
Context (Hm : view_ok m) (Hb : m_body m = encode es ++ rest) (Hes : Forall elem_ok es) (Hn : len es <= PACK_MAX_ELEMENTS).

Lemma found_reads : reads m es.
Proof. split; [done|]. split; [done|]. split; [done|by exists rest]. Qed.

Lemma int_field_at name : int_field m name = of_opt (es_int es name).
Proof. apply get_int_named, found_reads. Qed.
Lemma str_field_at name cap : 0 < cap < 2 ^ 32 -> str_field m name cap = of_opt (es_str es name cap).
Proof. intros. apply get_str_named; [apply found_reads|done]. Qed.
Lemma data_field_at name cap : 0 < cap < 2 ^ 32 -> data_field m name cap = of_opt (es_data es name cap).
Proof. intros. apply get_data_named; [apply found_reads|done]. Qed.

Lemma set_field_found {A} (o : option A) f s : set_field (of_opt o) f s = Ok (set_found o f s).
Proof. by destruct o. Qed.

Lemma welcome_session_at s : welcome_session m s = Ok (welcomed es s).
Proof.
  unfold welcome_session, welcomed. rewrite !int_field_at, !str_field_at, data_field_at by (unfold SHA1_SIZE; lia).
  do 7 rewrite set_field_found, bind_ok. apply set_field_found.
Qed.

Lemma welcome_rudp_at s : welcome_rudp m s = Ok (rudp_welcomed es s).
Proof.
  unfold welcome_rudp, rudp_welcomed, rudp_key_field.
  rewrite !int_field_at, !str_field_at, !data_field_at by lia.
  destruct (es_int es "udp_acceleration_version"), (es_str es "udp_acceleration_server_ip" 64); cbn [of_opt]; rewrite !bind_ok;
    do 4 (rewrite set_field_found, bind_ok); apply set_field_found.
Qed.

Lemma welcome_conn_at s : exists f, welcome_conn m s = Ok f /\ forall c, f c = conn_welcomed es s c.
Proof.
  unfold welcome_conn, conn_welcomed. rewrite !int_field_at.
  destruct (es_int es "use_compress"), (es_int es "timeout"); cbn [of_opt]; rewrite !bind_ok; by eexists.
Qed.

(** Accepting the message: only the session and fields of the connection
    change. *)
Lemma accept_welcome_at {U} `{AccelSetup U} (w : lworld U) :
  wpf False (accept_welcome m) (fun _ w' => l_session w' = accepted_session es (l_session w) /\
    c_session_established (w_conn (l_world w')) = true /\
    c_use_ssl_data (w_conn (l_world w')) =
      negb (s_server_use_encrypt (welcomed es (l_session w)) =? 0) && (s_server_use_fast_rc4 (welcomed es (l_session w)) =? 0) /\
    w_out (l_world w') = w_out (l_world w) /\ w_in (l_world w') = w_in (l_world w)) w.
Proof.
  unfold accept_welcome. apply wpf_get_session. eapply wpf_pure; [apply welcome_session_at|]. apply wpf_modify_session.
  destruct (welcome_conn_at (welcomed es (l_session w))) as (f & Ef & Hf). eapply wpf_pure; [exact Ef|].
  apply wpf_modify_conn, wpf_get_conn. unfold accepted_session. cbn zeta. set (s1 := welcomed es (l_session w)).
  apply wpf_bind. unfold wpf at 1, io at 1, modify. rewrite int_field_at.
  eapply (wpf_pure _ _ (default 0 (es_int es "use_udp_acceleration"))).
  { by destruct (es_int es "use_udp_acceleration"). }
  apply wpf_bind. unfold wants_udp. destruct (_ =? 0) eqn:E; cbn [negb].
  - wpf_step. unfold wpf, io. cbn. rewrite Hf. by unfold conn_welcomed; destruct (es_int es "use_compress"), (es_int es "timeout").
  - eapply wpf_pure; [apply welcome_rudp_at|]. apply wpf_modify_session. unfold wpf at 1, io at 1. cbn.
    unfold wpf, io. cbn. rewrite Hf. by unfold conn_welcomed; destruct (es_int es "use_compress"), (es_int es "timeout").
Qed.
End found.

(** ** One request and its answer *)

Definition exchanged {U} (ssl : Z) (w v : cworld U) (sent rest : list Z) : Prop :=
  w_conn v = w_conn w /\ w_freed v = w_freed w /\ w_rudp v = w_rudp w /\
  w_out v (Tls ssl) = w_out w (Tls ssl) ++ sent /\ w_room v (Tls ssl) = [] /\
  reading ssl v /\ stream (w_in v (Tls ssl)) = rest.

(** An answer: the header announces the message, which is whole in [n] bytes. *)
Definition pack_answer (n : Z) (h : list Z) (es : list elem) : Prop :=
  is_header h /\ nul_free h /\ announced h = len (encode es) /\ len h + len (encode es) <= n /\
  Forall elem_ok es /\ len es <= PACK_MAX_ELEMENTS.

Definition ok_line (h : list Z) : Prop :=
  is_Some (find_tok (str "HTTP/1.1 200") h) \/ is_Some (find_tok (str "HTTP/1.0 200") h).

Lemma encode_head es : len es <= PACK_MAX_ELEMENTS -> exists t, encode es = 0 :: t.
Proof.
  intros Hn. unfold PACK_MAX_ELEMENTS in Hn. pose proof (len_nonneg es). unfold encode.
  rewrite <- w32_enc. unfold w32. eexists. cbn [app]. f_equal. rewrite byte_of_div by lia.
  unfold u8. rewrite Z.div_small by lia. done.
Qed.

Lemma encode_len es : 4 <= len (encode es).
Proof. unfold encode. rewrite len_app, len_be_enc. pose proof (len_nonneg (mjoin (map enc_elem es))). lia. Qed.

(** A text of the header is found in the array the answer was read into. *)
Lemma strstr_answer n h es buf tok : pack_answer n h es -> nul_free tok ->
  tk (len h + len (encode es)) buf = h ++ encode es ->
  exists r, strstr buf tok = Ok r /\ (is_Some r <-> is_Some (find_tok tok h)).
Proof.
  intros (_ & Hh & _ & _ & _ & Hn) Ht Hb. destruct (encode_head es Hn) as [t E].
  assert (Eb : buf = h ++ 0 :: t ++ dr (len h + len (encode es)) buf).
  { rewrite <- (tk_dr (len h + len (encode es)) buf) at 1. by rewrite Hb, E, <- app_assoc. }
  rewrite Eb, strstr_find by done. eexists. split; [done|]. by rewrite fmap_is_Some.
Qed.

Lemma http_ok_answer n h es buf : pack_answer n h es -> ok_line h ->
  tk (len h + len (encode es)) buf = h ++ encode es -> http_ok buf = Ok true.
Proof.
  intros Ha Hok Hb. unfold http_ok, has_either.
  destruct (strstr_answer n h es buf (str "HTTP/1.1 200") Ha ltac:(by apply (bool_decide_unpack _)) Hb) as (r1 & -> & H1).
  destruct (strstr_answer n h es buf (str "HTTP/1.0 200") Ha ltac:(by apply (bool_decide_unpack _)) Hb) as (r2 & -> & H2).
  rewrite bind_ok. destruct r1; [done|]. rewrite bind_ok, bool_decide_eq_true_2; [done|].
  destruct Hok as [Hok|Hok]; [|by apply H2]. apply H1 in Hok as [? ?]. done.
Qed.

Section establish.
Context {U : Type} `{Hset : AccelSetup U} (good : U -> Prop) `{!AccelSetupLaws U good}.
Context (crand : nat -> Z) (malloc_ok : Z -> bool) (stack : Z -> list Z) (addr : Z) (sha1 : list Z -> list Z)
        (inet_addr : list Z -> Z) (local_port : Z -> option Z) (http_date : list Z).
Hypothesis Hrand : forall n, 0 <= crand n.
Hypothesis Hmalloc : forall n, malloc_ok n = true.
Hypothesis Hstack : arrays_ok stack.
Hypothesis Haddr : 0 <= addr /\ addr + 2 ^ 33 <= 2 ^ 64.
Hypothesis Hsha : sha1_ok sha1.
Hypothesis Hdate : len http_date <= 63.

Lemma exchange ssl cap n text body h es rest (v : cworld U) :
  reading ssl v -> ssl <> 0 -> w_room v (Tls ssl) = [] -> text <> [] -> len text < cap ->
  pack_answer n h es -> len h < n -> stream (w_in v (Tls ssl)) = (h ++ encode es) ++ rest ->
  wp (post malloc_ok stack ssl cap text body) (fun ok v1 => ok = true /\
    wp (read_http_response stack ssl n) (fun r v2 => exists buf,
      r = Some (Response buf (len h) (len (encode es))) /\ tk (len h + len (encode es)) buf = h ++ encode es /\
      bytes_ok buf /\ len buf = n /\ exchanged ssl v v2 (text ++ body) rest) v1) v.
Proof.
  intros Hr Hs Hroom Ht Hl (Hh & _ & Han & Hfit & _) Hhn Hst.
  eapply wp_mono; [apply post_wp; [done|apply Hr|done]|]. intros ok v1 (Ha & _ & Hall).
  destruct (Hall (Hmalloc _) Hs Hroom Ht) as (-> & Ho & Hroom1). split; [done|].
  pose proof (after_write_conn _ _ _ Ha) as (Ec & Ef & Eu & Ei).
  assert (Hr1 : reading ssl v1). { destruct Hr. split; [by rewrite Ef|by rewrite Ei]. }
  eapply wp_mono.
  { apply (response_framed stack Hstack ssl Hs n h (encode es) rest v1); try done.
    unfold HttpSpec.pending. by rewrite Ei, Hst, <- app_assoc. }
  intros r v2 (Ha2 & Hp & buf & -> & Hlb & Hbb & Htk & _). exists buf.
  split; [done|]. split; [done|]. split; [done|]. split; [done|].
  pose proof (reading_after _ _ _ Hr1 Ha2) as Hr2.
  pose proof (after_read_conn _ _ _ Ha2) as (Ec2 & Ef2 & Eu2). destruct Ha2 as [E2 Ha2].
  split; [congruence|]. split; [congruence|]. split; [congruence|]. split; [by rewrite E2|].
  split; [by rewrite E2|]. by split.
Qed.

Lemma body_at n h es buf : len buf = n -> n <= 8192 -> bytes_ok buf ->
  tk (len h + len (encode es)) buf = h ++ encode es ->
  let m := body_of addr (Response buf (len h) (len (encode es))) in
  view_ok m /\ bytes_ok (m_body m) /\ m_body m = encode es ++ [].
Proof.
  intros Hl Hn Hb Ht. unfold body_of, view_ok. cbn [m_base m_body m_bits r_offset r_len r_buf].
  assert (Eb : slice (len h) (len (encode es)) buf = encode es).
  { rewrite <- (tk_dr (len h + len (encode es)) buf), Ht, <- app_assoc. by apply slice_app. }
  rewrite Eb, app_nil_r. split_and!; [| | |done].
  - pose proof (len_nonneg h). lia.
  - assert (Hle : len (h ++ encode es) <= len buf) by (rewrite <- Ht; slia).
    rewrite len_app in Hle. pose proof (len_nonneg h). lia.
  - rewrite <- Eb. auto with bytes.
Qed.

Definition octet_stream (h : list Z) : Prop := is_Some (find_tok (str "application/octet-stream") h).

Lemma watermark_done host (w : lworld U) h es rest : let ssl := c_ssl (w_conn (l_world w)) in
  reading ssl (l_world w) -> ssl <> 0 -> w_room (l_world w) (Tls ssl) = [] -> len host <= 800 ->
  pack_answer 4096 h es -> len h < 4096 -> ok_line h -> octet_stream h ->
  stream (w_in (l_world w) (Tls ssl)) = (h ++ encode es) ++ rest ->
  wpf False (send_vpnconnect_watermark malloc_ok stack addr host) (fun r w' => r = 1 /\
    l_session w' = greeted es (l_session w) /\
    exchanged ssl (l_world w) (l_world w') (connect_post host ++ watermark) rest) w.
Proof.
  intros ssl Hr Hs Hroom Hh Ha Hhn Hok Hoct Hst. unfold send_vpnconnect_watermark. apply wpf_get_conn. fold ssl.
  wpf_step; [lia|]. eapply wpf_run; [apply (exchange ssl 1024 4096 (connect_post host) watermark h es rest); try done; rewrite connect_post_len; lia|].
  intros ok v1 _ [-> Hread]. cbn [negb]. eapply wpf_run; [exact Hread|].
  intros r v2 _ (buf & -> & Htk & Hb & Hl & Hex). eapply wpf_pure; [by eapply http_ok_answer|]. cbn [negb r_buf].
  destruct (strstr_answer 4096 h es buf (str "application/octet-stream") Ha ltac:(by apply (bool_decide_unpack _)) Htk) as (o & Eo & Ho).
  eapply wpf_pure; [exact Eo|]. rewrite bool_decide_eq_true_2 by (by apply Ho). cbn [negb r_len].
  pose proof Ha as (_ & _ & _ & _ & Hes & Hn). wpf_step.
  { pose proof (encode_len es). lia. }
  destruct (body_at 4096 h es buf Hl ltac:(lia) Hb Htk) as (Hv & Hbm & Em).
  rewrite (parse_hello_at _ Hv _ _ Em Hes Hn). unfold greeted. destruct (h_has_random (hello_of es)).
  - apply wpf_modify_session. by wpf_step.
  - wpf_step. wpf_step. by wpf_step.
Qed.

Definition auth_of (password : list Z) (s : session) : Z := auth_type_of password s.
Definition secret_of (user password : list Z) (s : session) : option (list Z) :=
  if auth_type_of password s =? CLIENT_AUTHTYPE_PASSWORD then Some (secure_password_of malloc_ok user password s) else None.
Definition plain_of (password : list Z) (s : session) : option (list Z) :=
  if auth_type_of password s =? CLIENT_AUTHTYPE_PLAIN_PASSWORD then Some password else None.

(** The request of the second exchange. *)
Definition login_request (user password : list Z) (w : lworld U) (req : list Z) : Prop :=
  let s := l_session w in
  exists b, login_message (s_hub_name s) user (auth_type_of password s) (secret_of user password s) (plain_of password s)
      (as_offer <$> w_rudp (l_world w)) s b /\
    req = vpn_post http_date (s_server_ip s) (len b) ++ b.

(** The outcome for the server's error code. *)
Definition verdict (code : Z) (es : list elem) (user password : list Z) (w w' : lworld U) (r : Z) : Prop :=
  if code =? 0 then
    r = ERR_NONE /\ c_session_established (w_conn (l_world w')) = true /\
    l_session w' = accepted_session es (with_creds user password (l_session w))
  else
    r = ERR_AUTHENTICATION /\
    c_session_established (w_conn (l_world w')) = c_session_established (w_conn (l_world w)) /\
    l_session w' = with_creds user password (l_session w).

Lemma authentication_done user password (w : lworld U) h es rest code : let ssl := c_ssl (w_conn (l_world w)) in
  login_inv good w -> ssl <> 0 -> w_room (l_world w) (Tls ssl) = [] -> small user -> small password ->
  pack_answer 8192 h es -> len h < 8192 -> ok_line h -> es_int es "error" = Some code ->
  stream (w_in (l_world w) (Tls ssl)) = (h ++ encode es) ++ rest ->
  wpf False (perform_authentication_http crand malloc_ok stack addr sha1 inet_addr local_port http_date user password)
    (fun r w' => verdict code es user password w w' r /\ stream (w_in (l_world w') (Tls ssl)) = rest /\
      exists req, login_request user password w req /\
        w_out (l_world w') (Tls ssl) = w_out (l_world w) (Tls ssl) ++ req) w.
Proof.
  intros ssl [Hw Hs] Hssl Hroom Hu Hp Ha Hhn Hok Hcode Hst. unfold perform_authentication_http.
  apply wpf_modify_conn, wpf_modify_session, wpf_get_session.
  set (w1 := _ <| l_session := _ |>).
  assert (Hs1 : session_ok (l_session w1)) by (by apply session_creds).
  assert (Hw1 : world_ok good (l_world w1)) by (apply world_conn; [done|]; apply Hw).
  apply wpf_bind. unfold wpf at 1, io at 1, gets. rewrite io_eta.
  pose proof (login_ok_of good malloc_ok user password w1 (conj Hw1 Hs1) Hu Hp) as Hlo.
  destruct (so_version _ Hs1) as [pv Hpv].
  eapply wpf_run; [by eapply build_login_pack_ok|]. intros p v _ [Hv Hm].
  destruct p as [b|]; [|by destruct Hm as [k Hk]; rewrite Hmalloc in Hk].
  assert (Hbl : 4 <= len b). { destruct Hm as (es1 & -> & _). apply encode_len. }
  wpf_step; [lia|]. apply wpf_get_conn. cbn [l_world upd].
  assert (Ec : w_conn v = w_conn (l_world w1)) by (rewrite Hv; by destruct (l_world w1)).
  replace (c_ssl (w_conn v)) with ssl by (by rewrite Ec).
  assert (Hrd : reading ssl v).
  { split; [|rewrite Hv; apply Hw]. rewrite Hv. cbn. by eapply primary_alive. }
  eapply wpf_run; [apply (exchange ssl 512 8192 (vpn_post http_date (s_server_ip (l_session w1)) (len b)) b h es rest); try done|].
  { by rewrite Hv. } { pose proof (vpn_post_len http_date (s_server_ip (l_session w1)) (len b)). destruct Hs1. lia. }
  { by rewrite Hv. }
  intros ok v1 _ [-> Hread]. cbn [negb]. eapply wpf_run; [exact Hread|].
  intros r v2 _ (buf & -> & Htk & Hb & Hl & Hex). eapply wpf_pure; [by eapply http_ok_answer|]. cbn [negb r_len].
  wpf_step; [pose proof (encode_len es); lia|].
  pose proof Ha as (_ & _ & _ & _ & Hes & Hn). destruct (body_at 8192 h es buf Hl ltac:(lia) Hb Htk) as (Hvw & Hbm & Em).
  eapply (wpf_pure _ _ (code =? 0)).
  { unfold login_accepted. by rewrite (int_field_at _ es [] Hvw Em Hes Hn), Hcode. }
  destruct Hex as (Ec2 & _ & _ & Ho & _ & _ & Hrest).
  assert (Hout : forall w' : lworld U, w_out (l_world w') (Tls ssl) = w_out v2 (Tls ssl) -> exists req, login_request user password w req /\
        w_out (l_world w') (Tls ssl) = w_out (l_world w) (Tls ssl) ++ req).
  { intros w' ->. eexists. split; [exists b; split; [exact Hm|reflexivity]|]. rewrite Ho. f_equal. by rewrite Hv. }
  unfold verdict. destruct (code =? 0); cbn [negb].
  - wpf_step. eapply wpf_mono; [eapply accept_welcome_at; done|]. intros [] w' (Es & Eest & _ & Eo & Ei). wpf_step.
    split; [by split|]. split; [by rewrite Ei|]. apply Hout. by rewrite Eo.
  - wpf_step. split; [split; [done|]; split; [|done]|]. { cbn [l_world upd]. rewrite Ec2. change (w_conn (l_world w1 <| l_world := v |>)) with (w_conn v). by rewrite Ec. }
    split; [done|]. by apply Hout.
Qed.

Lemma exchanged_world ssl (w v : cworld U) sent rest : world_ok good w -> exchanged ssl w v sent rest -> world_ok good v.
Proof. intros (Hc & _ & Hg) (E1 & E2 & E3 & _ & _ & [_ Hr] & _). split; [by rewrite E1, E2|]. by rewrite E3. Qed.

Lemma hello_of_random es : len (h_random (hello_of es)) = SHA1_SIZE.
Proof.
  unfold hello_of. assert (H0 : len (h_random hello_zero) = SHA1_SIZE) by done. revert H0. generalize hello_zero as i.
  induction es as [|e es IH]; intros i Hi; [done|]. cbn [fold_left]. apply IH. unfold hello_step.
  destruct (head (e_vals e)) as [[]|]; try done; destruct (matches _ _ e); try done. cbn. rewrite store_len; [done|].
  rewrite Hi. slia.
Qed.
Lemma greeted_ok es s : session_ok s -> session_ok (greeted es s).
Proof.
  intros Hs. unfold greeted. destruct (h_has_random _); [|done]. apply session_random; [done|]. apply hello_of_random.
Qed.

Lemma login_done host user password use_tcp (w : lworld U) h1 es1 h2 es2 rest code :
  let ssl := c_ssl (w_conn (l_world w)) in
  login_inv good w -> ssl <> 0 -> w_room (l_world w) (Tls ssl) = [] -> len host <= 800 -> small user -> small password ->
  pack_answer 4096 h1 es1 -> len h1 < 4096 -> ok_line h1 -> octet_stream h1 ->
  pack_answer 8192 h2 es2 -> len h2 < 8192 -> ok_line h2 -> es_int es2 "error" = Some code ->
  stream (w_in (l_world w) (Tls ssl)) = (h1 ++ encode es1) ++ (h2 ++ encode es2) ++ rest ->
  wpf False
    (softether_protocol_login crand malloc_ok stack addr sha1 inet_addr local_port http_date host user password use_tcp)
    (fun r w' => exists u, let w1 := w <| l_world := (l_world w) <| w_rudp := u |> |> <| l_session := greeted es1 (l_session w) |> in
      verdict code es2 user password w1 w' r /\ stream (w_in (l_world w') (Tls ssl)) = rest /\
      exists req, login_request user password w1 req /\
        w_out (l_world w') (Tls ssl) = w_out (l_world w) (Tls ssl) ++ (connect_post host ++ watermark) ++ req) w.
Proof.
  intros ssl [Hw Hs] Hssl Hroom Hh Hu Hp Ha1 Hn1 Hok1 Ho1 Ha2 Hn2 Hok2 Hcode Hst. unfold softether_protocol_login. wpf_step.
  eapply wpf_mono; [eapply (watermark_done host w h1 es1); try done; by apply alive_ssl with good|].
  intros r w1 (-> & Es & Hex). wpf_step; [lia|]. wpf_step.
  pose proof (exchanged_world _ _ _ _ _ Hw Hex) as Hw1. destruct Hex as (Ec & _ & Eu & Eo & Er & _ & Est).
  assert (Hi1 : login_inv good w1) by (split; [done|]; rewrite Es; by apply greeted_ok).
  eapply wpf_mono; [by apply (create_rudp_ok good)|]. intros [] w2 [Hi2 [u E2]].
  assert (Ec2 : w_conn (l_world w2) = w_conn (l_world w)) by (by rewrite E2).
  eapply wpf_mono.
  { eapply (authentication_done user password w2 h2 es2 rest code); try done; rewrite Ec2; fold ssl; try done; by rewrite E2. }
  rewrite Ec2. fold ssl. intros r w3 (Hv & Hrest & req & Hreq & Hout). exists u. cbn zeta.
  split; [|split; [done|exists req; split]].
  - unfold verdict in *. rewrite Ec2 in Hv. rewrite E2 in Hv. cbn [l_session upd] in Hv. rewrite Es in Hv. exact Hv.
  - unfold login_request in *. rewrite E2 in Hreq. cbn [l_session l_world w_rudp upd] in Hreq. rewrite Es in Hreq. exact Hreq.
  - fold ssl in Eo. rewrite Hout. replace (w_out (l_world w2)) with (w_out (l_world w1)) by (by rewrite E2).
    by rewrite Eo, <- app_assoc.
Qed.
End establish.

(** ** The conversation with any server *)

(** What the environment promises: random bits are not negative, a local
    array has its size, the answer's array lies in the address space, a SHA-1
    digest has twenty bytes and the date fits its array. *)
Record login_env (crand : nat -> Z) (stack : Z -> list Z) (addr : Z) (sha1 : list Z -> list Z) (http_date : list Z) : Prop := {
  le_rand : forall n, 0 <= crand n; le_stack : arrays_ok stack;
  le_addr : 0 <= addr /\ addr + 2 ^ 33 <= 2 ^ 64; le_sha1 : sha1_ok sha1; le_date : len http_date <= 63 }.

(** C10: the login against any server. On a well-formed connection, whatever
    bytes arrive in whatever pieces, the login returns and leaves the connection
    and the session well formed; the one way it can misbehave is that one of
    its two answers has a body and no NUL byte, and is searched beyond the end
    of its array. *)
Theorem login_safe {U} `{AccelSetup U} (good : U -> Prop) `{!AccelSetupLaws U good}
    crand malloc_ok stack addr sha1 inet_addr local_port http_date host user password use_tcp (w : lworld U) :
  login_env crand stack addr sha1 http_date -> login_inv good w ->
  len host <= 800 -> small user -> small password ->
  match softether_protocol_login crand malloc_ok stack addr sha1 inet_addr local_port http_date host user password use_tcp w with
  | Ok (_, w') => login_inv good w'
  | Ub => login_fault (inbox w)
  | Err => False
  end.
Proof.
  intros [Hr Hst Ha Hs Hd] Hi Hh Hu Hp.
  exact (login_keeps_inv good crand malloc_ok stack addr sha1 inet_addr local_port http_date
    Hr Hst Ha Hs Hd (login_fault (inbox w)) host user password use_tcp w Hi Hh Hu Hp (fun x => x)).
Qed.

(** ** The conversation with a server that answers *)

(** Two whole answers wait on the primary link, [rest] follows them; the
    peer takes everything that is written. *)
Record answered {U} (w : lworld U) (h1 : list Z) (es1 : list elem) (h2 : list Z) (es2 : list elem) (rest : list Z) : Prop := {
  an_ssl : c_ssl (w_conn (l_world w)) <> 0;
  an_room : w_room (l_world w) (Tls (c_ssl (w_conn (l_world w)))) = [];
  an_hello : pack_answer 4096 h1 es1; an_hello_len : len h1 < 4096; an_hello_ok : ok_line h1; an_hello_type : octet_stream h1;
  an_welcome : pack_answer 8192 h2 es2; an_welcome_len : len h2 < 8192; an_welcome_ok : ok_line h2;
  an_stream : stream (w_in (l_world w) (Tls (c_ssl (w_conn (l_world w))))) = (h1 ++ encode es1) ++ (h2 ++ encode es2) ++ rest }.


(** ** An answer without an end *)

(** A search in an array without a NUL finds its text or leaves the array. *)
Lemma strstr_unended tok s : nul_free s ->
  strstr s tok = Ub \/ exists t, strstr s tok = Ok (Some t) /\ find_tok tok s = Some t.
Proof.
  assert (Hm : forall tok s, match_at tok s = Ub \/ match_at tok s = Ok (bool_decide (tok `prefix_of` s))).
  { clear. intros tok. induction tok as [|t tok IH]; intros [|c s]; cbn; auto.
    destruct (c =? t) eqn:E; [|right; rewrite bool_decide_eq_false_2; [done|by intros ?%prefix_cons_inv_1; lia]].
    destruct (IH s) as [->| ->]; [by left|right]. apply Z.eqb_eq in E as ->. f_equal. apply bool_decide_ext.
    split; [apply prefix_cons|apply prefix_cons_inv_2]. }
  induction 1 as [|c s Hc Hs IH]; rewrite strstr_eq; cbn [find_tok].
  - destruct (Hm tok []) as [->| ->]; [by left|]. rewrite bind_ok. case_decide.
    + rewrite bool_decide_eq_true_2 by done. right. by eexists.
    + rewrite bool_decide_eq_false_2 by done. by left.
  - destruct (Hm tok (c :: s)) as [->| ->]; [by left|]. rewrite bind_ok. case_decide.
    + rewrite bool_decide_eq_true_2 by done. right. by eexists.
    + rewrite bool_decide_eq_false_2 by done. replace (c =? 0) with false by lia. exact IH.
Qed.

(** The watermark's answer is searched beyond its array. A header and a
    body that fill the array of 4096 bytes exactly, with no NUL byte and
    without the content type, make the search for it leave the array:
    undefined behaviour that any server can bring about. *)
Theorem watermark_overread {U} malloc_ok stack addr host (w : lworld U) h body rest :
  let ssl := c_ssl (w_conn (l_world w)) in
  arrays_ok stack -> (forall n, malloc_ok n = true) -> len host <= 800 ->
  reading ssl (l_world w) -> ssl <> 0 -> w_room (l_world w) (Tls ssl) = [] ->
  is_header h -> announced h = len body -> len h < 4096 -> len h + len body = 4096 ->
  nul_free (h ++ body) -> find_tok (str "application/octet-stream") (h ++ body) = None ->
  stream (w_in (l_world w) (Tls ssl)) = (h ++ body) ++ rest ->
  send_vpnconnect_watermark malloc_ok stack addr host w = Ub.
Proof.
  intros ssl Hstack Hmal Hh Hr Hs Hroom Hhd Han Hn Hfit Hnul Hfind Hst.
  assert (Hub : wpf True (send_vpnconnect_watermark malloc_ok stack addr host) (fun _ _ => False) w).
  { unfold send_vpnconnect_watermark. apply wpf_get_conn. fold ssl. wpf_step; [lia|].
    eapply wpf_run; [apply (post_wp malloc_ok stack Hstack ssl 1024 (connect_post host) watermark); [apply Hr|rewrite connect_post_len; lia]|].
    intros ok v1 _ (Ha & _ & Hall). destruct (Hall (Hmal _) Hs Hroom) as (-> & _ & _).
    { intros E%(f_equal len). rewrite connect_post_len, len_nil in E. pose proof (len_nonneg host). lia. }
    cbn [negb]. pose proof (after_write_conn _ _ _ Ha) as (_ & Ef & _ & Ei).
    assert (Hr1 : reading ssl v1). { destruct Hr. split; [by rewrite Ef|by rewrite Ei]. }
    eapply wpf_run.
    { apply (response_framed stack Hstack ssl Hs 4096 h body rest v1); try done; [lia|].
      unfold HttpSpec.pending. by rewrite Ei, Hst, <- app_assoc. }
    intros r v2 _ (_ & _ & buf & -> & Hlb & _ & Htk & _). cbn [r_buf].
    rewrite tk_all in Htk by lia. subst buf.
    assert (Hsrch : forall tok, strstr (h ++ body) tok = Ub \/ exists t, strstr (h ++ body) tok = Ok (Some t))
      by (intros tok; destruct (strstr_unended tok _ Hnul) as [?|(t & ? & _)]; [by left|right; by exists t]).
    assert (Hok : http_ok (h ++ body) = Ub \/ http_ok (h ++ body) = Ok true).
    { unfold http_ok, has_either. destruct (Hsrch (str "HTTP/1.1 200")) as [->|[t ->]]; [by left|by right]. }
    apply wpf_bind. destruct Hok as [->| ->]; [done|]. apply wpf_lift. cbn [negb].
    destruct (strstr_unended (str "application/octet-stream") _ Hnul) as [->|(t & _ & Ht)]; [done|congruence]. }
  unfold wpf in Hub. by destruct (send_vpnconnect_watermark _ _ _ _ w) as [| |[]].
Qed.

(** ** A concrete conversation *)

(** An accelerator that only makes its offer. *)
#[local] Instance ex_setup : AccelSetup unit := {|
  as_create := Some tt; as_family _ u := Ok (0, u);
  as_offer _ := Offer (replicate 20 1) (replicate 128 2) 3 4000; as_compress _ u := u |}.
#[local] Instance ex_setup_laws : AccelSetupLaws unit (fun _ => True).
Proof. split; [done|by intros f u _; exists 0, u|done|intros u _; by repeat split]. Qed.

Definition ex_es1 : list elem :=
  [ Elem (str "hello") PACK_TYPE_STR [VStr (str "VPN Server")]; Elem (str "random") PACK_TYPE_DATA [VData (replicate 20 9)] ].
Definition ex_es2 (code : Z) : list elem :=
  [ Elem (str "error") PACK_TYPE_INT [VInt code]; Elem (str "session_name") PACK_TYPE_STR [VStr (str "SID-VPN-1")];
    Elem (str "max_connection") PACK_TYPE_INT [VInt 4]; Elem (str "use_encrypt") PACK_TYPE_INT [VInt 1];
    Elem (str "use_udp_acceleration") PACK_TYPE_INT [VInt 1]; Elem (str "udp_acceleration_server_port") PACK_TYPE_INT [VInt 40000] ].
Definition ex_head (es : list elem) : list Z :=
  str "HTTP/1.1 200 OK" ++ crlf ++ str "Content-Type: application/octet-stream" ++ crlf ++
  str "Content-Length: " ++ dec (len (encode es)) ++ crlf ++ crlf.
Definition ex_answers (code : Z) : list Z :=
  (ex_head ex_es1 ++ encode ex_es1) ++ (ex_head (ex_es2 code) ++ encode (ex_es2 code)) ++ [0; 0; 0; 7].
Definition ex_login_in (data : list Z) (ch : chan) : list rd_event := if decide (ch = Tls 7) then [RdData data] else [].
Definition ex_lworld (data : list Z) : lworld unit :=
  LWorld (CWorld ex_conn None (ex_login_in data) (fun _ => []) (fun _ => []) [] [] 0 0 [] []) ex_session.

Lemma ex_login_env : login_env (fun n => Z.of_nat n) ex_stack 4096 (fun _ => zeros 20) (str "Mon, 01 Jan 2024 00:00:00 GMT").
Proof.
  split; [intros; lia|exact ex_stack_ok|split; [lia|vm_compute; discriminate]| |vm_compute; discriminate].
  by repeat split; try apply bytes_ok_zeros.
Qed.
Lemma ex_login_session_ok : session_ok ex_session.
Proof. split; try done. by exists 232. Qed.
Lemma ex_lworld_ok data : bytes_ok data -> login_inv (fun _ => True) (ex_lworld data).
Proof.
  intros Hb. split; [|exact ex_login_session_ok]. split; [exact ex_conn_ok|]. split; [|done].
  intros ch. cbn. unfold ex_login_in. destruct (decide _); [|constructor]. by constructor.
Qed.

Lemma ex_answer_check n h es :
  bool_decide (blank_line `suffix_of` h) &&
  forallb (fun k => negb (bool_decide (blank_line `suffix_of` take k h))) (seq 0 (length h)) &&
  bool_decide (nul_free h) && (announced h =? len (encode es)) && (len h + len (encode es) <=? n) &&
  (len es <=? PACK_MAX_ELEMENTS) && bool_decide (Forall elem_ok es) = true -> pack_answer n h es.
Proof.
  intros [[[[[Hh Hn%bool_decide_eq_true]%andb_true_iff Ha]%andb_true_iff Hf]%andb_true_iff Hl]%andb_true_iff
    He%bool_decide_eq_true]%andb_true_iff.
  split; [by apply is_header_check|]. split_and!; try done; lia.
Qed.

Lemma ex_answered : answered (ex_lworld (ex_answers 0)) (ex_head ex_es1) ex_es1 (ex_head (ex_es2 0)) (ex_es2 0) [0; 0; 0; 7].
Proof.
  split.
  - vm_compute. discriminate.
  - reflexivity.
  - apply ex_answer_check. vm_compute. reflexivity.
  - vm_compute. reflexivity.
  - left. apply (bool_decide_unpack _). vm_compute. exact I.
  - apply (bool_decide_unpack _). vm_compute. exact I.
  - apply ex_answer_check. vm_compute. reflexivity.
  - vm_compute. reflexivity.
  - left. apply (bool_decide_unpack _). vm_compute. exact I.
  - vm_compute. reflexivity.
Qed.

Lemma ex_bytes_ok : bytes_ok (ex_answers 0).
Proof. apply (bool_decide_unpack _). vm_compute. exact I. Qed.

Abbreviation ex_run host w := (softether_protocol_login (fun n => Z.of_nat n) (fun _ => true) ex_stack 4096 (fun _ => zeros 20)
  (fun _ => 0) (fun _ => None) (str "Mon, 01 Jan 2024 00:00:00 GMT") host (str "vpn") (str "vpn") false w).

(** Here no answer is without a NUL, so the login does return. *)
Lemma login_safe_witness :
  login_inv (fun _ : unit => True) (ex_lworld (ex_answers 0)) /\
  match ex_run (str "vpn.example") (ex_lworld (ex_answers 0)) with
  | Ok (_, w') => login_inv (fun _ => True) w'
  | Ub => login_fault (inbox (ex_lworld (ex_answers 0)))
  | Err => False
  end.
Proof.
  pose proof (ex_lworld_ok _ ex_bytes_ok) as Hi. split; [exact Hi|].
  apply (login_safe (fun _ => True)).
  - exact ex_login_env.
  - exact Hi.
  - vm_compute. discriminate.
  - vm_compute. reflexivity.
  - vm_compute. reflexivity.
Defined.


(** A header of 67 bytes, and a body of letters that fills the array. *)
Definition ex_over_head : list Z :=
  str "HTTP/1.1 200 OK" ++ crlf ++ str "Content-Type: image/jpeg" ++ crlf ++ str "Content-Length: 4029" ++ crlf ++ crlf.
Definition ex_over_body : list Z := replicate (Z.to_nat 4029) 65.

Lemma watermark_overread_witness :
  send_vpnconnect_watermark (fun _ => true) ex_stack 4096 (str "vpn.example") (ex_lworld (ex_over_head ++ ex_over_body)) = Ub.
Proof.
  assert (Hr : reading (c_ssl (w_conn (l_world (ex_lworld (ex_over_head ++ ex_over_body))))) (l_world (ex_lworld (ex_over_head ++ ex_over_body)))).
  { apply (alive_ssl (fun _ => True)), ex_lworld_ok. apply (bool_decide_unpack _). vm_compute. exact I. }
  apply (watermark_overread _ _ _ _ _ ex_over_head ex_over_body []).
  - exact ex_stack_ok.
  - intros n. reflexivity.
  - vm_compute. discriminate.
  - exact Hr.
  - vm_compute. discriminate.
  - reflexivity.
  - apply is_header_check. vm_compute. reflexivity.
  - vm_compute. reflexivity.
  - vm_compute. reflexivity.
  - vm_compute. reflexivity.
  - apply (bool_decide_unpack _). vm_compute. exact I.
  - vm_compute. reflexivity.
  - vm_compute. reflexivity.
Defined.
