(* ===== verification/TcpSocket.v ===== *)
(** * TCP sockets (socket/tcp_socket.c)

    The module wraps one descriptor: creation, resolving, the connect with its
    two passes over the addresses of a name and its cancellable wait, sending
    and receiving whole buffers, and options.

    The system calls are the parameters in [Kernel], functions of the number
    of calls made so far; [os] holds that number, the open descriptors and the
    log of the calls whose effect a caller can see. A descriptor is non-blocking
    after [ONonblock fd true]. Resolving a name is [k_getaddrinfo], the test for
    a literal address [k_pton], printing an address [k_ntop]. *)
From S2P Require Import Prelude Bytes.

Definition AF_UNSPEC : Z := 0.
Definition AF_INET : Z := 2.
Definition AF_INET6 : Z := 10.
Definition EBADF : Z := 9.
Definition SOCKET_TYPE_TCP : Z := 0.
Definition SOCKET_TYPE_UDP : Z := 1.
Definition SOCKET_TIMEOUT_MS : Z := 30000.
Definition SOCK_STREAM : Z := 1.
Definition SOCK_DGRAM : Z := 2.
Definition CANCEL_SLICE_MS : Z := 200.

(** The results of [connect], [poll], [send] and [recv]. *)
Inductive conn_result : Type := CnOk | CnInProgress | CnFail.
Inductive poll_result : Type := PlReady | PlTimeout | PlIntr | PlErr.
Inductive send_result : Type := TxBytes (n : Z) | TxIntr | TxErr.
Inductive recv_result : Type := RxBytes (bs : list Z) | RxIntr | RxErr.

(** One entry of the list [getaddrinfo] returns. *)
Record addrinfo := Addr { ai_family : Z; ai_addr : list Z }.

Class Kernel := {
  k_calloc : nat -> bool;
  k_socket : nat -> list Z -> Z;
  k_connect : nat -> conn_result;
  k_poll : nat -> poll_result;
  k_so_error : nat -> Z;
  k_setsockopt : nat -> Z;
  k_cancel : nat -> bool;
  k_send : nat -> Z -> send_result;
  k_recv : nat -> Z -> recv_result;
  k_pton : Z -> list Z -> bool;
  k_getaddrinfo : nat -> list Z -> option Z -> Z -> option (list addrinfo);
  k_ntop : Z -> list Z -> Z -> option (list Z) }.

(** What POSIX says of them: a new descriptor is not open already, a call does
    not move more bytes than it was given room for. *)
Class KernelLaws `{Kernel} := {
  k_socket_fresh n fds : 0 <= k_socket n fds -> k_socket n fds ∉ fds;
  k_send_fits n room k : 0 <= room -> k_send n room = TxBytes k -> 0 <= k <= room;
  k_recv_fits n room bs : 0 <= room -> k_recv n room = RxBytes bs -> len bs <= room /\ bytes_ok bs }.

Inductive os_call : Type :=
| OSocket (family type fd : Z) | OClose (fd : Z) | OShutdown (fd : Z)
| ONonblock (fd : Z) (on : bool) | OConnect (fd : Z) (ai : addrinfo) (r : conn_result)
| OTimeout (fd ms : Z) | ONodelay (fd on : Z) | OKeepalive (fd on : Z)
| OProtect (fd r : Z) | OSend (fd : Z) (bs : list Z).

Record os := Os { y_calls : nat; y_open : list Z; y_log : list os_call }.
#[export] Instance eta_os : Eta os := fun w => Os (y_calls w) (y_open w) (y_log w).

Record softether_socket := Socket {
  sk_fd : Z; sk_type : Z; sk_family : Z; sk_addr : list Z; sk_connected : bool; sk_timeout_ms : Z }.
#[export] Instance eta_socket : Eta softether_socket := fun s => Socket
  (sk_fd s) (sk_type s) (sk_family s) (sk_addr s) (sk_connected s) (sk_timeout_ms s).

Section socket.
Context `{Kernel}.
Abbreviation M := (St os).

(** ** System calls *)

Definition sys {A} (f : nat -> A) : M A := fun w => Ok (f (y_calls w), w <| y_calls := S (y_calls w) |>).
Definition note (c : os_call) : M unit := modify (fun w => w <| y_log := y_log w ++ [c] |>).

Definition sys_socket (family type : Z) : M Z :=
  fds ← gets y_open;
  fd ← sys (fun n => k_socket n fds);
  note (OSocket family type fd) ;;
  (if fd <? 0 then mret tt else modify (fun w => w <| y_open := fd :: y_open w |>)) ;;
  mret fd.

Definition sys_close (fd : Z) : M unit :=
  note (OClose fd) ;; modify (fun w => w <| y_open := filter (fun x => x <> fd) (y_open w) |>).

Definition setsockopt (c : os_call) : M Z := note c ;; sys k_setsockopt.

(** ** Creation *)

Definition native_type (type : Z) : Z := if type =? SOCKET_TYPE_UDP then SOCK_DGRAM else SOCK_STREAM.

Definition socket_create (type : Z) : M (option softether_socket) :=
  ok ← sys k_calloc;
  if negb ok then mret None else
  fd ← sys_socket AF_INET (native_type type);
  if fd <? 0 then mret None else
  note (ONonblock fd true) ;;
  mret (Some (Socket fd type AF_INET [] false SOCKET_TIMEOUT_MS)).

Definition socket_destroy (sock : softether_socket) : M unit :=
  when (sk_fd sock >=? 0) (sys_close (sk_fd sock)).

(** ** Resolving *)

Definition strncpy_z (cap : Z) (s : list Z) : list Z := tk (cap - 1) s.

(** The first address of the list as text. *)
Definition first_address (hostname : list Z) (hint buffer_size : Z) : M (option (list Z)) :=
  res ← sys (fun n => k_getaddrinfo n hostname None hint);
  match res with
  | Some (best :: _) =>
      if (ai_family best =? AF_INET) || (ai_family best =? AF_INET6)
      then mret (k_ntop (ai_family best) (ai_addr best) buffer_size)
      else mret None
  | _ => mret None
  end.

Definition resolve_hostname (hostname : list Z) (buffer_size : Z) : M (option (list Z)) :=
  if buffer_size =? 0 then mret None else
  if k_pton AF_INET hostname || k_pton AF_INET6 hostname then mret (Some (strncpy_z buffer_size hostname)) else
  first_address hostname AF_UNSPEC buffer_size.

Definition resolve_hostname_family (hostname : list Z) (family buffer_size : Z) : M (option (list Z)) :=
  if (buffer_size =? 0) || (negb (family =? AF_INET) && negb (family =? AF_INET6)) then mret None else
  if (family =? AF_INET) && k_pton AF_INET hostname then mret (Some (strncpy_z buffer_size hostname)) else
  if (family =? AF_INET6) && k_pton AF_INET6 hostname then mret (Some (strncpy_z buffer_size hostname)) else
  first_address hostname family buffer_size.

(** ** Connecting *)

(** A descriptor of the address's family, a new one when the family changes. *)
Definition socket_recreate_for_family (family : Z) (sock : softether_socket) : M (Z * softether_socket) :=
  if negb (family =? AF_INET) && negb (family =? AF_INET6) then mret (-1, sock) else
  if (sk_fd sock >=? 0) && (sk_family sock =? family) then mret (0, sock) else
  when (sk_fd sock >=? 0) (sys_close (sk_fd sock)) ;;
  fd ← sys_socket family (native_type (sk_type sock));
  let sock := sock <| sk_fd := fd |> in
  if fd <? 0 then mret (-1, sock <| sk_family := AF_UNSPEC |>) else
  note (ONonblock fd true) ;;
  when (sk_timeout_ms sock >? 0)
    (_ ← setsockopt (OTimeout fd (sk_timeout_ms sock)); _ ← sys k_setsockopt; mret tt) ;;
  mret (0, sock <| sk_family := family |>).

(** The wait of a connect that can be cancelled: the flag is read before every
    slice; [None] is a cancelled wait. An interrupted [poll] does not count. *)
Fixpoint wait_slices (fuel : nat) (timeout_ms waited : Z) : M (option poll_result) :=
  match fuel with
  | O => fun _ => Err
  | S fuel =>
      cancel ← sys k_cancel;
      if (cancel : bool) then mret None else
      let remaining := timeout_ms - waited in
      if remaining <=? 0 then mret (Some PlTimeout) else
      let slice := if remaining <? CANCEL_SLICE_MS then remaining else CANCEL_SLICE_MS in
      r ← sys k_poll;
      match r with
      | PlIntr => wait_slices fuel timeout_ms waited
      | PlTimeout => wait_slices fuel timeout_ms (waited + slice)
      | PlErr => mret (Some PlErr)
      | PlReady =>
          cancel ← sys k_cancel;
          mret (if (cancel : bool) then None else Some PlReady)
      end
  end.

(** The wait after [EINPROGRESS] and its verdict. *)
Definition await_connect (fuel : nat) (timeout_ms : Z) (cancellable : bool) : M bool :=
  r ← (if cancellable then wait_slices fuel timeout_ms 0 else r ← sys k_poll; mret (Some r));
  match r with
  | Some PlReady => so_error ← sys k_so_error; mret (so_error =? 0)
  | _ => mret false
  end.

Definition try_connect_addr (fuel : nat) (timeout_ms : Z) (cancellable : bool) (ai : addrinfo)
  (sock : softether_socket) : M (bool * softether_socket) :=
  '(r, sock) ← socket_recreate_for_family (ai_family ai) sock;
  if negb (r =? 0) then mret (false, sock) else
  let sock := sock <| sk_addr := ai_addr ai |> in
  c ← sys k_connect;
  note (OConnect (sk_fd sock) ai c) ;;
  match c with
  | CnOk => mret (true, sock)
  | CnFail => mret (false, sock)
  | CnInProgress => ok ← await_connect fuel timeout_ms cancellable; mret (ok, sock)
  end.

(** One pass: the addresses of one family, in order. *)
Fixpoint connect_pass (fuel : nat) (timeout_ms : Z) (cancellable : bool) (family : Z) (res : list addrinfo)
  (sock : softether_socket) : M (bool * softether_socket) :=
  match res with
  | [] => mret (false, sock)
  | ai :: res =>
      if negb (ai_family ai =? family) then connect_pass fuel timeout_ms cancellable family res sock else
      '(ok, sock) ← try_connect_addr fuel timeout_ms cancellable ai sock;
      if (ok : bool) then
        note (ONonblock (sk_fd sock) false) ;;
        mret (true, sock <| sk_connected := true |> <| sk_timeout_ms := timeout_ms |>)
      else connect_pass fuel timeout_ms cancellable family res sock
  end.

Definition literal_family (host : list Z) : Z :=
  if k_pton AF_INET host then AF_INET else if k_pton AF_INET6 host then AF_INET6 else AF_UNSPEC.

Definition socket_connect_timeout_cancel (fuel : nat) (host : list Z) (port timeout_ms : Z) (cancellable : bool)
  (sock : softether_socket) : M (Z * softether_socket) :=
  r ← sys (fun n => k_getaddrinfo n host (Some port) (literal_family host));
  match r with
  | None | Some [] => mret (-1, sock)
  | Some ((ai :: _) as res) =>
      let first_family := if ai_family ai =? AF_INET then AF_INET else AF_INET6 in
      let second_family := if first_family =? AF_INET then AF_INET6 else AF_INET in
      '(ok, sock) ← connect_pass fuel timeout_ms cancellable first_family res sock;
      if (ok : bool) then mret (0, sock) else
      '(ok, sock) ← connect_pass fuel timeout_ms cancellable second_family res sock;
      mret (if (ok : bool) then 0 else -1, sock)
  end.

(** Without a cancel flag no wait is sliced. *)
Definition socket_connect_timeout (host : list Z) (port timeout_ms : Z) (sock : softether_socket) :=
  socket_connect_timeout_cancel 0 host port timeout_ms false sock.
Definition socket_connect (host : list Z) (port : Z) (sock : softether_socket) :=
  socket_connect_timeout host port SOCKET_TIMEOUT_MS sock.

Definition socket_disconnect (sock : softether_socket) : M (Z * softether_socket) :=
  (if sk_fd sock >=? 0 then
     note (OShutdown (sk_fd sock)) ;; sys_close (sk_fd sock) ;; mret (sock <| sk_fd := -1 |>)
   else mret sock) ≫= fun sock => mret (0, sock <| sk_connected := false |>).

(** ** Whole buffers *)

Fixpoint send_loop (fuel : nat) (fd : Z) (data : list Z) : M bool :=
  if len data <=? 0 then mret true else
  match fuel with
  | O => fun _ => Err
  | S fuel =>
      p ← sys k_poll;
      match p with
      | PlReady =>
          r ← sys (fun n => k_send n (len data));
          match r with
          | TxBytes n => note (OSend fd (tk n data)) ;; send_loop fuel fd (dr n data)
          | TxIntr => send_loop fuel fd data
          | TxErr => mret false
          end
      | _ => mret false
      end
  end.

Definition socket_send_all (fuel : nat) (data : list Z) (sock : softether_socket) : M Z :=
  if negb (sk_connected sock) then mret (-1) else
  ok ← send_loop fuel (sk_fd sock) data;
  mret (if (ok : bool) then int32 (len data) else -1).

(** The bytes received so far are behind each other in the buffer. *)
Fixpoint recv_loop (fuel : nat) (n : Z) (got : list Z) : M (option (list Z)) :=
  if n <=? len got then mret (Some got) else
  match fuel with
  | O => fun _ => Err
  | S fuel =>
      p ← sys k_poll;
      match p with
      | PlReady =>
          r ← sys (fun i => k_recv i (n - len got));
          match r with
          | RxBytes bs => if len bs =? 0 then mret None else recv_loop fuel n (got ++ bs)
          | RxIntr => recv_loop fuel n got
          | RxErr => mret None
          end
      | _ => mret None
      end
  end.

Definition socket_recv_all (fuel : nat) (n : Z) (sock : softether_socket) : M (option (list Z)) :=
  if negb (sk_connected sock) then mret None else recv_loop fuel n [].

(** ** Options *)

(** Both timeouts are set even when the first call fails. *)
Definition socket_apply_timeout (fd timeout_ms : Z) : M Z :=
  if fd <? 0 then mret (-1) else
  if timeout_ms <=? 0 then mret 0 else
  rc_recv ← setsockopt (OTimeout fd timeout_ms);
  rc_send ← sys k_setsockopt;
  mret (if negb (rc_recv =? 0) || negb (rc_send =? 0) then -1 else 0).

Definition socket_set_timeout (timeout_ms : Z) (sock : softether_socket) : M (Z * softether_socket) :=
  r ← socket_apply_timeout (sk_fd sock) timeout_ms; mret (r, sock <| sk_timeout_ms := timeout_ms |>).
Definition socket_set_nodelay (enable : Z) (sock : softether_socket) : M Z := setsockopt (ONodelay (sk_fd sock) enable).
Definition socket_set_keepalive (enable : Z) (sock : softether_socket) : M Z := setsockopt (OKeepalive (sk_fd sock) enable).
Definition socket_is_connected (sock : softether_socket) : bool := sk_connected sock.
Definition socket_get_error (sock : softether_socket) : M Z :=
  if sk_fd sock <? 0 then mret EBADF else sys k_so_error.
End socket.
