(* ===== verification/TcpSocketSpec.v ===== *)
(** * What the socket module promises

    [replay] runs a log of system calls over the set of open descriptors and
    fails at the first call on a descriptor that is not open; [tidy] steps
    extend the log by calls that replay. [owns fd others] says the socket's
    descriptor is open, once, besides the others. *)
From S2P Require Import Prelude Bytes TcpSocket.

(** ** The log *)

(** The descriptor a call uses. *)
Definition call_fd (c : os_call) : Z :=
  match c with
  | OSocket _ _ fd | OClose fd | OShutdown fd | ONonblock fd _ | OConnect fd _ _ | OTimeout fd _
  | ONodelay fd _ | OKeepalive fd _ | OProtect fd _ | OSend fd _ => fd
  end.

Fixpoint replay (l : list os_call) (fds : list Z) : option (list Z) :=
  match l with
  | [] => Some fds
  | c :: l =>
      match c with
      | OSocket _ _ fd => replay l (if fd <? 0 then fds else fd :: fds)
      | OClose fd => if decide (fd ∈ fds) then replay l (filter (fun x => x <> fd) fds) else None
      | c => if decide (call_fd c ∈ fds) then replay l fds else None
      end
  end.

Lemma replay_app a b fds : replay (a ++ b) fds = replay a fds ≫= replay b.
Proof.
  revert fds. induction a as [|c a IH]; intros fds; [done|]. cbn.
  destruct c; try apply IH; destruct (decide _); try done; apply IH.
Qed.

Definition calls (w w' : os) (l : list os_call) : Prop := y_log w' = y_log w ++ l.

(** The addresses [connect] was called for. *)
Definition attempts (l : list os_call) : list addrinfo :=
  omap (fun c => match c with OConnect _ ai _ => Some ai | _ => None end) l.

(** The calls between two states replay, and try the addresses [tr]. *)
Definition ran (tr : list addrinfo) (w w' : os) : Prop :=
  exists l, calls w w' l /\ replay l (y_open w) = Some (y_open w') /\ attempts l = tr.
Abbreviation tidy := (ran []).

Lemma ran_refl w : tidy w w.
Proof. exists []. split; [unfold calls; by rewrite app_nil_r|done]. Qed.
Lemma ran_trans a b w1 w2 w3 : ran a w1 w2 -> ran b w2 w3 -> ran (a ++ b) w1 w3.
Proof.
  intros (la & Ha & Ra & <-) (lb & Hb & Rb & <-). exists (la ++ lb). unfold calls in *. rewrite Hb, Ha, app_assoc.
  split; [done|]. split; [by rewrite replay_app, Ra|]. apply omap_app.
Qed.
Lemma tidy_trans w1 w2 w3 : tidy w1 w2 -> tidy w2 w3 -> tidy w1 w3.
Proof. apply (ran_trans [] []). Qed.

(** The socket's descriptor, if it has one, and the others. *)
Definition fd_list (fd : Z) : list Z := if fd <? 0 then [] else [fd].
Definition owns (fd : Z) (others : list Z) (w : os) : Prop := NoDup (y_open w) /\ y_open w ≡ₚ fd_list fd ++ others.

Lemma owns_in fd others w : owns fd others w -> 0 <= fd -> fd ∈ y_open w.
Proof. intros [_ Hp] Hf. rewrite Hp. unfold fd_list. replace (fd <? 0) with false by lia. by left. Qed.

Lemma filter_without fd (l : list Z) : fd ∉ l -> filter (fun x => x <> fd) l = l.
Proof.
  induction l as [|x l IH]; [done|]. intros [Hx Hl]%not_elem_of_cons. rewrite filter_cons, decide_True by done.
  by rewrite IH.
Qed.

(** Closing the socket's descriptor leaves the others. *)
Lemma owns_close fd others w : owns fd others w -> 0 <= fd ->
  let fds := filter (fun x => x <> fd) (y_open w) in NoDup fds /\ fds ≡ₚ others.
Proof.
  intros [Hn Hp] Hf fds. split; [by apply NoDup_filter|]. subst fds.
  assert (Hfo : fd ∉ others).
  { rewrite Hp in Hn. unfold fd_list in Hn. replace (fd <? 0) with false in Hn by lia. by apply NoDup_cons in Hn as [? _]. }
  rewrite Hp. unfold fd_list. replace (fd <? 0) with false by lia. cbn [app].
  rewrite filter_cons, decide_False by (intros E; by apply E). by rewrite filter_without.
Qed.

Section steps.
Context `{HK : Kernel} `{!KernelLaws}.
Implicit Types w : os.

(** A step that changes only the count of calls. *)
Definition quiet w w' : Prop := y_open w' = y_open w /\ y_log w' = y_log w.
Lemma quiet_tidy w w' : quiet w w' -> tidy w w'.
Proof. intros [Eo El]. exists []. unfold calls. rewrite El, Eo, app_nil_r. done. Qed.
Lemma quiet_owns fd others w w' : quiet w w' -> owns fd others w -> owns fd others w'.
Proof. intros [Eo _]. unfold owns. by rewrite Eo. Qed.

Lemma wp_sys {A} (f : nat -> A) (Q : A -> os -> Prop) w :
  Q (f (y_calls w)) (w <| y_calls := S (y_calls w) |>) -> wp (sys f) Q w.
Proof. done. Qed.
Lemma wp_note c (Q : unit -> os -> Prop) w : Q tt (w <| y_log := y_log w ++ [c] |>) -> wp (note c) Q w.
Proof. done. Qed.

Definition plain_call (c : os_call) : bool := match c with OSocket _ _ _ | OClose _ => false | _ => true end.
Lemma note_ran c w : plain_call c = true -> call_fd c ∈ y_open w ->
  ran (attempts [c]) w (w <| y_log := y_log w ++ [c] |>).
Proof. intros Hc Hf. exists [c]. split; [done|]. by destruct c; cbn in *; try done; rewrite decide_True. Qed.

Lemma close_wp fd others w : owns fd others w -> 0 <= fd ->
  wp (sys_close fd) (fun _ w' => tidy w w' /\ owns (-1) others w') w.
Proof.
  intros Ho Hf. unfold sys_close. wp_step. apply wp_note. apply wp_modify. cbn [y_open upd].
  destruct (owns_close _ _ _ Ho Hf) as [Hn Hp]. split; [|by split].
  exists [OClose fd]. split; [done|]. cbn. rewrite decide_True; [done|]. by eapply owns_in.
Qed.

Lemma when_close_wp fd others w : owns fd others w ->
  wp (when (fd >=? 0) (sys_close fd)) (fun _ w' => tidy w w' /\ owns (-1) others w') w.
Proof.
  intros Ho. apply wp_when; [intros; apply close_wp; [done|lia]|]. intros E. split; [apply ran_refl|].
  destruct Ho as [? Hp]. split; [done|]. unfold fd_list in *. by replace (fd <? 0) with true in Hp by lia.
Qed.

Lemma sys_socket_wp family type others w : owns (-1) others w ->
  wp (sys_socket family type) (fun fd w' => tidy w w' /\ owns fd others w' /\ exists n fds, fd = k_socket n fds) w.
Proof.
  intros [Hn Hp]. cbn in Hp. unfold sys_socket. wp_step. apply wp_gets. wp_step. apply wp_sys.
  set (fd := k_socket _ _). wp_step. apply wp_note. wp_step.
  apply wp_if; intros E; [apply wp_ret|apply wp_modify]; apply wp_ret; cbn [y_open y_log upd].
  - split; [|split; [split; [done|unfold fd_list; by rewrite E]|by do 2 eexists]].
    exists [OSocket family type fd]. split; [done|]. cbn. by rewrite E.
  - assert (Hf : fd ∉ y_open w) by (apply k_socket_fresh; lia). split.
    + exists [OSocket family type fd]. split; [done|]. cbn. by rewrite E.
    + split; [|by do 2 eexists]. split; [by constructor|]. unfold fd_list. rewrite E. cbn. by rewrite Hp.
Qed.

(** One call on the socket's descriptor. *)
Lemma note_own_wp c fd others w : plain_call c = true -> call_fd c = fd -> 0 <= fd -> owns fd others w ->
  wp (note c) (fun _ w' => ran (attempts [c]) w w' /\ owns fd others w') w.
Proof.
  intros Hc <- Hf Ho. apply wp_note. split; [apply note_ran; [done|by eapply owns_in]|done].
Qed.
Lemma sys_wp {A} (f : nat -> A) w : wp (sys f) (fun a w' => a = f (y_calls w) /\ quiet w w') w.
Proof. by apply wp_sys. Qed.

(** Descriptors are available. *)
Definition available : Prop := forall n fds, 0 <= k_socket n fds.

(** The socket after a step: its descriptor is open, the fields [connect] sets
    at its end are the old ones. *)
Definition same_socket (sock sock' : softether_socket) : Prop :=
  sk_connected sock' = sk_connected sock /\ sk_timeout_ms sock' = sk_timeout_ms sock /\ sk_type sock' = sk_type sock.

(** Steps that leave the socket alone. *)
Definition kept (fd : Z) (others : list Z) (tr : list addrinfo) w w' : Prop := ran tr w w' /\ owns fd others w'.

Lemma kept_quiet fd others w w' : owns fd others w -> quiet w w' -> kept fd others [] w w'.
Proof. intros Ho Hq. split; [by apply quiet_tidy|by eapply quiet_owns]. Qed.
Lemma setsockopt_wp c fd others w : plain_call c = true -> call_fd c = fd -> attempts [c] = [] -> 0 <= fd -> owns fd others w ->
  wp (setsockopt c) (fun _ w' => kept fd others [] w w') w.
Proof.
  intros Hc Hf Ha Hp Ho. unfold setsockopt. wp_step. eapply wp_mono; [by eapply note_own_wp|].
  intros [] w1 [Ht1 Ho1]. rewrite Ha in Ht1. eapply wp_mono; [apply sys_wp|]. intros r w2 [_ Hq].
  destruct (kept_quiet _ _ _ _ Ho1 Hq) as [? ?]. split; [by eapply tidy_trans|done].
Qed.

(** A fresh descriptor of the wanted family, or the one the socket has. *)
Lemma recreate_wp family others sock w : owns (sk_fd sock) others w ->
  wp (socket_recreate_for_family family sock) (fun '(r, sock') w' => kept (sk_fd sock') others [] w w' /\
    same_socket sock sock' /\ (r = 0 -> 0 <= sk_fd sock' /\ sk_family sock' = family) /\
    (available -> family = AF_INET \/ family = AF_INET6 -> r = 0)) w.
Proof.
  intros Ho. unfold socket_recreate_for_family. wp_step.
  { wp_step. split; [split; [apply ran_refl|done]|]. split; [done|]. split; [lia|intros _; lia]. }
  wp_step. { wp_step. split; [split; [apply ran_refl|done]|]. split; [done|]. split; [lia|done]. }
  wp_step. eapply wp_mono; [by apply when_close_wp|]. intros [] w1 [Ht1 Ho1].
  wp_step. eapply wp_mono; [by apply sys_socket_wp|]. intros fd w2 (Ht2 & Ho2 & n & fds & ->).
  pose proof (tidy_trans _ _ _ Ht1 Ht2) as Ht. cbn beta zeta. wp_step.
  { wp_step. split; [by split|]. split; [done|]. split; [lia|]. intros Hs _. specialize (Hs n fds). lia. }
  wp_step. eapply wp_mono; [apply (note_own_wp _ (k_socket n fds) others); [done|done|lia|exact Ho2]|]. intros [] w3 [Ht3 Ho3].
  pose proof (tidy_trans _ _ _ Ht Ht3) as Ht'. wp_step.
  apply (wp_mono _ (fun _ w' => kept (k_socket n fds) others [] w w')).
  { wp_step; [|by split]. wp_step. eapply wp_mono; [apply (setsockopt_wp _ (k_socket n fds) others); [done|done|done|lia|exact Ho3]|].
    intros r4 w4 [Ht4 Ho4]. wp_step. eapply wp_mono; [apply sys_wp|]. intros r5 w5 [_ Hq]. wp_step.
    destruct (kept_quiet _ _ _ _ Ho4 Hq) as [Ht5 Ho5]. split; [|done].
    eapply tidy_trans; [exact Ht'|]. by eapply tidy_trans. }
  intros [] w4 Hkept. wp_step. split; [done|]. split; [done|]. split; [|done]. cbn. lia.
Qed.

(** ** The cancellable wait *)

(** [poll] is interrupted at most by the first [N] calls. *)
Definition settles (N : nat) : Prop := forall n, (N <= n)%nat -> k_poll n <> PlIntr.

Definition slices_left (ms : Z) : nat := Z.to_nat ((ms + (CANCEL_SLICE_MS - 1)) / CANCEL_SLICE_MS).
Definition wait_fuel (N : nat) (timeout_ms : Z) : nat := S (N + slices_left timeout_ms).

Lemma quiet_refl w : quiet w w.
Proof. done. Qed.
Lemma quiet_trans w1 w2 w3 : quiet w1 w2 -> quiet w2 w3 -> quiet w1 w3.
Proof. intros [E1 E2] [E3 E4]. split; congruence. Qed.

Lemma wait_slices_wp N fuel timeout_ms waited w : settles N ->
  (N - y_calls w + slices_left (timeout_ms - waited) < fuel)%nat ->
  wp (wait_slices fuel timeout_ms waited) (fun _ w' => quiet w w') w.
Proof.
  intros HN. revert waited w. induction fuel as [|fuel IH]; intros waited w Hf; [lia|]. cbn [wait_slices].
  wp_step. apply wp_sys. wp_step; [by wp_step|]. cbn zeta. wp_step; [by wp_step|].
  wp_step. apply wp_sys. cbn [y_calls upd].
  set (w1 := upd y_calls _ _). assert (Hq : quiet w w1) by done. assert (Ec : y_calls w1 = S (S (y_calls w))) by done.
  clearbody w1. destruct (k_poll (S (y_calls w))) eqn:Ep.
  - wp_step. apply wp_sys. by wp_step.
  - eapply wp_mono; [apply IH|intros; by eapply quiet_trans]. rewrite Ec.
    unfold slices_left, CANCEL_SLICE_MS in *. destruct (_ <? 200) eqn:E.
    + replace (timeout_ms - (waited + (timeout_ms - waited)) + (200 - 1)) with 199 by lia. change (199 / 200) with 0.
      assert (0 < (timeout_ms - waited + (200 - 1)) / 200) by (apply Z.div_str_pos; lia). lia.
    + replace (timeout_ms - waited + (200 - 1)) with (timeout_ms - (waited + 200) + (200 - 1) + 1 * 200) in Hf by lia.
      rewrite Z.div_add in Hf by lia. assert (0 <= (timeout_ms - (waited + 200) + (200 - 1)) / 200) by (apply Z.div_pos; lia). lia.
  - eapply wp_mono; [apply IH|intros; by eapply quiet_trans]. rewrite Ec.
    assert (~ (N <= S (y_calls w))%nat) by (intros Hn; by apply (HN _ Hn)). lia.
  - by wp_step.
Qed.

Lemma await_wp N fuel timeout_ms cancellable w : (cancellable = true -> settles N /\ (wait_fuel N timeout_ms <= fuel)%nat) ->
  wp (await_connect fuel timeout_ms cancellable) (fun _ w' => quiet w w') w.
Proof.
  intros Hf. unfold await_connect. wp_step. apply (wp_mono _ (fun _ w' => quiet w w')).
  { wp_step; [|done]. destruct (Hf Hc) as [HN Hl]. eapply wait_slices_wp; [done|].
    unfold wait_fuel in Hl. rewrite Z.sub_0_r. lia. }
  intros r w1 Hq. by destruct r as [[]|].
Qed.

(** ** The connect *)

Section connect.
Context (N fuel : nat) (timeout_ms : Z) (cancellable : bool).
Hypothesis Hfuel : cancellable = true -> settles N /\ (wait_fuel N timeout_ms <= fuel)%nat.

Definition family_ok (f : Z) : Prop := f = AF_INET \/ f = AF_INET6.

(** The socket is connected to [ai]: its descriptor is one of that family. *)
Definition at_addr (ai : addrinfo) (sock : softether_socket) : Prop :=
  0 <= sk_fd sock /\ sk_family sock = ai_family ai /\ sk_addr sock = ai_addr ai.

Lemma kept_trans fd1 fd2 others a b w1 w2 w3 :
  kept fd1 others a w1 w2 -> kept fd2 others b w2 w3 -> kept fd2 others (a ++ b) w1 w3.
Proof. intros [? _] [? ?]. split; [by eapply ran_trans|done]. Qed.

Lemma try_connect_wp ai others sock w : owns (sk_fd sock) others w ->
  wp (try_connect_addr fuel timeout_ms cancellable ai sock) (fun '(ok, sock') w' =>
    exists tr, kept (sk_fd sock') others tr w w' /\ same_socket sock sock' /\
      (tr = [ai] \/ tr = [] /\ ok = false) /\ (available -> family_ok (ai_family ai) -> tr = [ai]) /\
      (ok = true -> at_addr ai sock')) w.
Proof.
  intros Ho. unfold try_connect_addr. wp_step. eapply wp_mono; [by apply recreate_wp|].
  intros [r sock1] w1 (Hk1 & Hs & Hr & Hav). wp_step.
  { wp_step. exists []. split; [done|]. split; [done|]. split; [by right|]. split; [|done].
    intros Ha Hfam. specialize (Hav Ha Hfam). lia. }
  destruct (Hr ltac:(lia)) as [Hf Hfam]. cbn zeta. set (sock2 := upd sk_addr _ sock1).
  wp_step. eapply wp_mono; [apply sys_wp|]. intros c w2 [_ Hq].
  destruct (kept_quiet _ _ _ _ (proj2 Hk1) Hq) as [Ht2 Ho2].
  wp_step. eapply wp_mono; [apply (note_own_wp _ (sk_fd sock1) others); [done|done|done|exact Ho2]|]. intros [] w3 Hk3.
  assert (Hk : kept (sk_fd sock2) others [ai] w w3).
  { apply (kept_trans (sk_fd sock1) _ _ [] [ai] w w1); [done|].
    by apply (kept_trans (sk_fd sock1) (sk_fd sock1) _ [] [ai] w1 w2). }
  assert (Hend : forall ok w', quiet w3 w' -> exists tr, kept (sk_fd sock2) others tr w w' /\ same_socket sock sock2 /\
      (tr = [ai] \/ tr = [] /\ ok = false) /\ (available -> family_ok (ai_family ai) -> tr = [ai]) /\
      (ok = true -> at_addr ai sock2)).
  { intros ok w' Hq'. exists [ai]. split.
    - apply (kept_trans (sk_fd sock2) _ _ [ai] [] w w3); [done|]. by apply kept_quiet; [apply Hk|].
    - split; [done|]. split; [by left|]. split; [done|]. intros _. split; [done|]. by split. }
  destruct c; [wp_step; by apply Hend| |wp_step; by apply Hend].
  wp_step. eapply wp_mono; [by eapply await_wp|]. intros ok w4 Hq4. wp_step. by apply Hend.
Qed.

Definition of_family (f : Z) (res : list addrinfo) : list addrinfo := filter (fun ai => ai_family ai = f) res.

(** The end of a pass: the attempts are the addresses of the family up to the
    one that answered, or all of them. *)
Definition pass_post (f : Z) (res : list addrinfo) (others : list Z) (sock : softether_socket) w
    (ok : bool) (sock' : softether_socket) w' : Prop :=
  exists tr, kept (sk_fd sock') others tr w w' /\ sk_type sock' = sk_type sock /\
    if ok then exists ai, last tr = Some ai /\ at_addr ai sock' /\ sk_connected sock' = true /\ sk_timeout_ms sock' = timeout_ms /\
      (exists l, y_log w' = l ++ [ONonblock (sk_fd sock') false]) /\ (available -> tr `prefix_of` of_family f res)
    else same_socket sock sock' /\ (available -> tr = of_family f res).

Lemma pass_wp f res others sock w : family_ok f -> owns (sk_fd sock) others w ->
  wp (connect_pass fuel timeout_ms cancellable f res sock) (fun '(ok, sock') w' => pass_post f res others sock w ok sock' w') w.
Proof.
  intros Hf. revert sock w. induction res as [|ai res IH]; intros sock w Ho; cbn [connect_pass].
  { wp_step. exists []. split; [by split; [apply ran_refl|]|]. done. }
  unfold pass_post, of_family in *. rewrite filter_cons. wp_step.
  { rewrite decide_False by lia. by apply IH. }
  assert (Efam : ai_family ai = f) by lia. rewrite decide_True by done.
  wp_step. eapply wp_mono; [by apply try_connect_wp|]. intros [ok sock1] w1 (tr & Hk1 & Hs1 & Htr & Hav & Hok).
  wp_step.
  - subst ok. destruct (Hok eq_refl) as (Hfd & Hfa & Haddr). destruct Htr as [->|[_ ?]]; [|done].
    pose proof (note_own_wp (ONonblock (sk_fd sock1) false) (sk_fd sock1) others w1 eq_refl eq_refl Hfd (proj2 Hk1)) as Hk2.
    wp_step. apply wp_note. wp_step. exists [ai]. split; [by apply (kept_trans (sk_fd sock1) _ _ [ai] [] w w1)|].
    split; [apply Hs1|]. exists ai. split; [done|]. split; [by split_and!|]. split; [done|]. split; [done|].
    split; [by eexists|]. intros _. by exists (filter (fun ai => ai_family ai = f) res).
  - subst ok. eapply wp_mono; [apply IH; apply Hk1|]. intros [ok sock2] w2 (tr2 & Hk2 & Ht2 & Hp).
    exists (tr ++ tr2). split; [by eapply kept_trans|]. destruct Hs1 as (? & ? & ?). split; [congruence|].
    destruct ok.
    + destruct Hp as (a & El & Ha & Hcon & Htm & Hlog & Hpre). exists a. split; [by rewrite last_app, El|].
      do 4 (split; [done|]). intros Hv. rewrite (Hav Hv) by (by rewrite Efam). by apply prefix_cons, Hpre.
    + destruct Hp as [(? & ? & ?) Hall]. split; [split_and!; congruence|]. intros Hv.
      rewrite (Hav Hv), (Hall Hv) by (by rewrite Efam). done.
Qed.

(** The addresses in the order they are tried. *)
Definition first_family_of (res : list addrinfo) : Z :=
  match res with ai :: _ => if ai_family ai =? AF_INET then AF_INET else AF_INET6 | [] => AF_INET end.
Definition other_family (f : Z) : Z := if f =? AF_INET then AF_INET6 else AF_INET.
Definition dial_order (res : list addrinfo) : list addrinfo :=
  of_family (first_family_of res) res ++ of_family (other_family (first_family_of res)) res.

Definition dialled (host : list Z) (port : Z) (others : list Z) (sock : softether_socket) w
    (r : Z) (sock' : softether_socket) w' : Prop :=
  exists tr, kept (sk_fd sock') others tr w w' /\ sk_type sock' = sk_type sock /\
    let res := default [] (k_getaddrinfo (y_calls w) host (Some port) (literal_family host)) in
    if decide (r = 0) then
      exists ai, last tr = Some ai /\ at_addr ai sock' /\ sk_connected sock' = true /\ sk_timeout_ms sock' = timeout_ms /\
      (exists l, y_log w' = l ++ [ONonblock (sk_fd sock') false]) /\ (available -> tr `prefix_of` dial_order res)
    else r = -1 /\ same_socket sock sock' /\ (available -> tr = dial_order res).

Lemma connect_wp host port others sock w : owns (sk_fd sock) others w ->
  wp (socket_connect_timeout_cancel fuel host port timeout_ms cancellable sock)
    (fun '(r, sock') w' => dialled host port others sock w r sock' w') w.
Proof.
  intros Ho. unfold socket_connect_timeout_cancel. wp_step. apply wp_sys. set (w1 := upd y_calls _ w).
  assert (Hk0 : kept (sk_fd sock) others [] w w1) by by apply kept_quiet.
  assert (Hnone : default [] (k_getaddrinfo (y_calls w) host (Some port) (literal_family host)) = [] ->
    dialled host port others sock w (-1) sock w1).
  { intros E. exists []. split; [done|]. split; [done|]. cbn zeta. rewrite E. destruct (decide _); [done|]. done. }
  unfold dialled in *. destruct (k_getaddrinfo _ _ _ _) as [[|ai res]|]; [by wp_step; apply Hnone| |by wp_step; apply Hnone].
  clear Hnone. cbn zeta. change (default [] (Some (ai :: res))) with (ai :: res). set (all := ai :: res). change (if ai_family ai =? AF_INET then AF_INET else AF_INET6) with (first_family_of all).
  change (if first_family_of all =? AF_INET then AF_INET6 else AF_INET) with (other_family (first_family_of all)).
  assert (Hf1 : family_ok (first_family_of all)) by (cbn; destruct (_ =? _); [by left|by right]).
  assert (Hf2 : family_ok (other_family (first_family_of all))) by (unfold other_family; destruct (_ =? _); [by right|by left]).
  unfold dial_order. generalize dependent (first_family_of all). intros f Hf1 Hf2.
  wp_step. eapply wp_mono; [apply (pass_wp f all others sock w1 Hf1), Hk0|].
  intros [ok sock1] w2 (tr & Hk1 & Ht1 & Hp). pose proof (kept_trans _ _ _ _ _ _ _ _ Hk0 Hk1) as Hk. wp_step.
  { subst ok. wp_step. exists tr. split; [done|]. split; [done|]. rewrite decide_True by done.
    destruct Hp as (a & ? & ? & ? & ? & ? & Hpre). exists a. do 5 (split; [done|]). intros Hv.
    by apply prefix_app_r, Hpre. }
  subst ok. destruct Hp as [(? & ? & ?) Hall].
  wp_step. eapply wp_mono; [apply (pass_wp (other_family f) all others sock1 w2 Hf2), Hk1|].
  intros [ok sock2] w3 (tr2 & Hk2 & Ht2 & Hp). wp_step. exists (tr ++ tr2).
  split; [by eapply kept_trans|]. split; [congruence|]. destruct ok.
  - rewrite decide_True by done. destruct Hp as (a & El & ? & ? & ? & ? & Hpre). exists a. split; [by rewrite last_app, El|].
    do 4 (split; [done|]). intros Hv. rewrite (Hall Hv). by apply prefix_app, Hpre.
  - rewrite decide_False by done. destruct Hp as [(? & ? & ?) Hall2]. split; [done|]. split; [split_and!; congruence|].
    intros Hv. by rewrite (Hall Hv), (Hall2 Hv).
Qed.
End connect.
End steps.

(** ** The theorems *)

(** The order of a connect. With the addresses of a name resolved,
    [connect] is called for those of the first one's family in order and then
    for those of the other family, each at most once; it stops at the first
    that answers, and the socket is then connected to that address with a
    blocking descriptor of its family; or all were tried and nothing is
    connected. No descriptor is used or closed after it was closed, and none
    is left behind. *)
Theorem socket_connect_order `{KernelLaws} N fuel host port timeout_ms (cancellable : bool) others sock (w : os) :
  owns (sk_fd sock) others w -> available ->
  (cancellable = true -> settles N /\ (wait_fuel N timeout_ms <= fuel)%nat) ->
  let order := dial_order (default [] (k_getaddrinfo (y_calls w) host (Some port) (literal_family host))) in
  exists r sock' w' tr,
    socket_connect_timeout_cancel fuel host port timeout_ms cancellable sock w = Ok ((r, sock'), w') /\
    ran tr w w' /\ owns (sk_fd sock') others w' /\ (r = 0 \/ r = -1) /\
    (r = 0 -> tr `prefix_of` order /\ sk_connected sock' = true /\
      exists ai l, last tr = Some ai /\ 0 <= sk_fd sock' /\ sk_family sock' = ai_family ai /\ sk_addr sock' = ai_addr ai /\
        y_log w' = l ++ [ONonblock (sk_fd sock') false]) /\
    (r = -1 -> tr = order /\ sk_connected sock' = sk_connected sock).
Proof.
  intros Ho Hav Hf order.
  destruct (wp_run _ _ _ (connect_wp N fuel timeout_ms cancellable Hf host port others sock w Ho))
    as ([r sock'] & w' & E & tr & [Hr Hown] & _ & Hp).
  exists r, sock', w', tr. split; [done|]. split; [done|]. split; [done|]. destruct (decide (r = 0)) as [->|Hn].
  - split; [by left|]. split; [|done]. intros _. destruct Hp as (ai & El & (? & ? & ?) & ? & _ & [l El2] & Hpre).
    split; [by apply Hpre|]. split; [done|]. by exists ai, l.
  - destruct Hp as (-> & (Hcn & _) & Hall). split; [by right|]. split; [done|]. intros _. split; [by apply Hall|done].
Qed.

(** Create, connect and destroy, as the callers do when the connect fails. *)
Definition dial_and_close `{Kernel} fuel type host port timeout_ms (cancellable : bool) : St os (option Z) :=
  s ← socket_create type;
  match s with
  | None => mret None
  | Some sock =>
      '(r, sock) ← socket_connect_timeout_cancel fuel host port timeout_ms cancellable sock;
      socket_destroy sock ;;
      mret (Some r)
  end.

Lemma create_wp `{KernelLaws} type (w : os) : NoDup (y_open w) ->
  wp (socket_create type) (fun s w' => tidy w w' /\ match s with
    | None => NoDup (y_open w') /\ y_open w' ≡ₚ y_open w
    | Some sock => owns (sk_fd sock) (y_open w) w' /\ 0 <= sk_fd sock /\ sk_family sock = AF_INET /\ sk_connected sock = false end) w.
Proof.
  intros Hn. unfold socket_create. wp_step. apply wp_sys. wp_step; [by wp_step; split; [by apply quiet_tidy|]|].
  wp_step. eapply wp_mono; [by apply (sys_socket_wp _ _ (y_open w))|]. intros fd w1 (Ht & Ho & _).
  wp_step. { wp_step. split; [done|]. destruct Ho as [? Hp]. unfold fd_list in Hp. by replace (fd <? 0) with true in Hp. }
  wp_step. eapply wp_mono; [apply (note_own_wp _ fd (y_open w)); [done|done|lia|done]|]. intros [] w2 [Ht2 Ho2]. wp_step.
  split; [by eapply tidy_trans|]. cbn. split; [done|]. split; [lia|done].
Qed.

(** C39: descriptors are not leaked. Whatever the system calls return, a socket
    that is created, connected and destroyed leaves exactly the descriptors
    open that were open before, and every call in between is on a descriptor
    that is open at that moment. *)
Theorem socket_lifecycle `{KernelLaws} N fuel type host port timeout_ms (cancellable : bool) (w : os) :
  NoDup (y_open w) -> (cancellable = true -> settles N /\ (wait_fuel N timeout_ms <= fuel)%nat) ->
  exists r w' tr, dial_and_close fuel type host port timeout_ms cancellable w = Ok (r, w') /\
    ran tr w w' /\ NoDup (y_open w') /\ y_open w' ≡ₚ y_open w.
Proof.
  intros Hn Hf.
  assert (Hwp : wp (dial_and_close fuel type host port timeout_ms cancellable) (fun _ w' => exists tr,
    ran tr w w' /\ NoDup (y_open w') /\ y_open w' ≡ₚ y_open w) w).
  { unfold dial_and_close. wp_step. eapply wp_mono; [by apply create_wp|]. intros [sock|] w1 [Ht1 Hs]; [|by wp_step; exists []].
    destruct Hs as [Ho _]. wp_step. eapply wp_mono; [by eapply connect_wp|]. intros [r sock2] w2 (tr & [Hr2 Ho2] & _).
    wp_step. unfold socket_destroy. eapply wp_mono; [by apply when_close_wp|]. intros [] w3 [Ht3 [Hn3 Hp3]]. wp_step.
    exists (([] ++ tr) ++ []). split; [by eapply ran_trans; [eapply ran_trans|]|]. done. }
  destruct (wp_run _ _ _ Hwp) as (r & w' & E & tr & ?). by exists r, w', tr.
Qed.

(** ** A concrete kernel

    A name with an IPv4, an IPv6 and another IPv4 address; the first connect
    is refused, every later one is in progress and then answers. Descriptors are
    numbered above all open ones. *)
Definition ex_addrs : list addrinfo := [Addr AF_INET [192; 0; 2; 1]; Addr AF_INET6 [32; 1; 13; 184]; Addr AF_INET [192; 0; 2; 2]].
#[export] Instance ex_kernel : Kernel := {|
  k_calloc _ := true; k_socket _ fds := 1 + fold_left Z.max fds 2;
  k_connect n := if decide (n < 5)%nat then CnFail else CnInProgress; k_poll _ := PlReady; k_so_error _ := 0;
  k_setsockopt _ := 0; k_cancel _ := false; k_send _ room := TxBytes room; k_recv _ room := RxBytes [];
  k_pton _ _ := false; k_getaddrinfo _ _ _ _ := Some ex_addrs; k_ntop _ _ _ := None |}.

Lemma fold_max_ge l a : a <= fold_left Z.max l a /\ Forall (fun x => x <= fold_left Z.max l a) l.
Proof.
  revert a. induction l as [|x l IH]; intros a; cbn; [split; [lia|constructor]|].
  destruct (IH (Z.max a x)) as [H1 H2]. split; [lia|]. constructor; [lia|done].
Qed.
#[export] Instance ex_kernel_laws : KernelLaws.
Proof.
  split.
  - intros k fds _. cbn. intros Hin. destruct (fold_max_ge fds 2) as [_ Hall]. rewrite Forall_forall in Hall.
    specialize (Hall _ Hin). lia.
  - intros n room k Hr. cbn. intros [= <-]. lia.
  - intros n room bs Hr. cbn. intros [= <-]. split; [done|constructor].
Qed.
Lemma ex_available : available.
Proof. intros n fds. cbn. destruct (fold_max_ge fds 2). lia. Qed.
Lemma ex_settles : settles 0.
Proof. done. Qed.

Definition ex_host : list Z := [118; 112; 110].
Definition ex_os : os := Os 0 [7] [].
Definition ex_sock : softether_socket := Socket (-1) SOCKET_TYPE_TCP AF_INET [] false SOCKET_TIMEOUT_MS.

(** The refused IPv4 address first, then the other IPv4 address answers; the
    IPv6 address is not tried. *)
Lemma ex_wait : true = true -> settles 0 /\ (wait_fuel 0 8000 <= 60)%nat.
Proof. intros _. split; [exact ex_settles|]. apply (bool_decide_unpack _). vm_compute. exact I. Qed.
Lemma ex_nodup : NoDup (y_open ex_os).
Proof. apply NoDup_singleton. Qed.

Lemma socket_connect_order_witness :
  exists sock' w' tr, socket_connect_timeout_cancel 60 ex_host 443 8000 true ex_sock ex_os = Ok ((0, sock'), w') /\
    ran tr ex_os w' /\ sk_connected sock' = true /\
    tr `prefix_of` [Addr AF_INET [192; 0; 2; 1]; Addr AF_INET [192; 0; 2; 2]; Addr AF_INET6 [32; 1; 13; 184]].
Proof.
  assert (Ho : owns (sk_fd ex_sock) [7] ex_os) by (split; [exact ex_nodup|reflexivity]).
  destruct (socket_connect_order 0 60 ex_host 443 8000 true [7] ex_sock ex_os Ho ex_available ex_wait)
    as (r & sock' & w' & tr & E & Ht & _ & _ & H0 & _).
  assert (Er : exists p, socket_connect_timeout_cancel 60 ex_host 443 8000 true ex_sock ex_os = Ok p /\ p.1.1 = 0)
    by (eexists; split; [vm_compute; reflexivity|reflexivity]).
  destruct Er as (p & Ep & Hp). rewrite E in Ep. injection Ep as <-. cbn in Hp. subst r.
  destruct (H0 eq_refl) as (Hpre & Hcon & _). exists sock', w', tr. split; [exact E|]. split; [exact Ht|].
  split; [exact Hcon|exact Hpre].
Defined.

Lemma socket_lifecycle_witness :
  exists r w' tr, dial_and_close 60 SOCKET_TYPE_TCP ex_host 443 8000 true ex_os = Ok (r, w') /\ ran tr ex_os w' /\
    y_open w' ≡ₚ [7].
Proof.
  destruct (socket_lifecycle 0 60 SOCKET_TYPE_TCP ex_host 443 8000 true ex_os ex_nodup ex_wait)
    as (r & w' & tr & E & Ht & _ & Hp).
  exists r, w', tr. split; [exact E|]. split; [exact Ht|exact Hp].
Defined.
