(* ===== verification/Dial.v ===== *)
(** * Opening a link: the handshake (crypto/aes_wrapper.c, softether_protocol.c)

    [dworld] puts the connection and its session next to the sockets of
    [TcpSocket] and the TLS objects. [ssl_create_client] and [ssl_connect] call
    OpenSSL, whose results are the parameters in [OpenSSL]; a context is the
    number [calloc] returned, 0 for NULL, and [t_ssl] lists the contexts that
    hold an SSL object. [perform_tls_handshake] runs the handshake of the
    primary link. The locks around the OpenSSL calls have no counterpart. *)
From stdpp Require Import functions.
From S2P Require Import Prelude Bytes Ring Crypto Conn.
From S2P Require Import TcpSocket LoginPack Login.

Definition ERR_TCP_CONNECT : Z := 1.
Definition ERR_TLS_HANDSHAKE : Z := 2.
Definition EAGAIN : Z := 11.
Definition MAX_HANDSHAKE_ATTEMPTS : nat := 100.

(** One [SSL_do_handshake]: done, more data needed (an expired socket timeout
    looks the same), or an error. *)
Inductive hs_result : Type := HsDone | HsWant | HsFail.

Class OpenSSL := {
  o_calloc : nat -> Z;
  o_ctx_new : nat -> bool;
  o_ssl_new : nat -> bool;
  o_set_fd : nat -> Z;
  o_handshake : nat -> hs_result;
  o_errno : nat -> Z }.

Record tls := TlsState { t_calls : nat; t_attempts : nat; t_ssl : list Z }.
#[export] Instance eta_tls : Eta tls := fun t => TlsState (t_calls t) (t_attempts t) (t_ssl t).

Record dworld {U : Type} := DWorld { d_l : lworld U; d_os : os; d_tls : tls; d_protector : bool }.
Arguments dworld : clear implicits.
Arguments DWorld {U}.
#[export] Instance eta_dworld {U} : Eta (dworld U) := fun w => DWorld (d_l w) (d_os w) (d_tls w) (d_protector w).

Section dial.
Context {U : Type} `{Kernel} `{OpenSSL}.
Abbreviation M := (St (dworld U)).

(** Computations on one part. *)
Definition on_conn {A} (m : St (cworld U) A) : M A := fun w =>
  match io m (d_l w) with Ub => Ub | Err => Err | Ok (a, l) => Ok (a, w <| d_l := l |>) end.
Definition on_os {A} (m : St os A) : M A := fun w =>
  match m (d_os w) with Ub => Ub | Err => Err | Ok (a, y) => Ok (a, w <| d_os := y |>) end.
Definition on_tls {A} (m : St tls A) : M A := fun w =>
  match m (d_tls w) with Ub => Ub | Err => Err | Ok (a, t) => Ok (a, w <| d_tls := t |>) end.
Definition the_session : M session := gets (fun w => l_session (d_l w)).

(** ** TLS objects *)

Definition ossl {A} (f : nat -> A) : St tls A := fun t => Ok (f (t_calls t), t <| t_calls := S (t_calls t) |>).
Definition ssl_free (p : Z) : St tls unit := modify (fun t => t <| t_ssl := filter (fun x => x <> p) (t_ssl t) |>).

Definition ssl_create_client : St tls Z :=
  p ← ossl o_calloc;
  if p =? 0 then mret 0 else
  c ← ossl o_ctx_new;
  mret (if (c : bool) then p else 0).

(** The handshake is repeated while it needs more data. *)
Fixpoint do_handshake (attempts : nat) : St tls bool :=
  match attempts with
  | O => mret false
  | S attempts =>
      modify (fun t => t <| t_attempts := S (t_attempts t) |>) ;;
      r ← ossl o_handshake;
      match r with
      | HsDone => mret true
      | HsWant => do_handshake attempts
      | HsFail => mret false
      end
  end.

Definition ssl_connect (p socket_fd : Z) : St tls Z :=
  if p =? 0 then mret (-1) else
  new ← ossl o_ssl_new;
  if negb new then mret (-1) else
  modify (fun t => t <| t_ssl := p :: t_ssl t |>) ;;
  rc ← ossl o_set_fd;
  if negb (rc =? 1) then ssl_free p ;; mret (-1) else
  done ← do_handshake MAX_HANDSHAKE_ATTEMPTS;
  if negb done then ssl_free p ;; mret (-1) else mret 0.

(** [ssl_destroy] frees the SSL object with the context. *)
Definition ssl_destroy_ctx (p : Z) : M unit := on_conn (ssl_destroy p) ;; on_tls (ssl_free p).

(** ** The primary link *)

Definition handshake_timeout (timeout_ms : Z) : Z := if timeout_ms >? 0 then timeout_ms else 30000.

(** Both timeouts of a descriptor, whose results the caller ignores. *)
Definition set_timeouts (fd ms : Z) : St os unit := _ ← setsockopt (OTimeout fd ms); _ ← sys k_setsockopt; mret tt.

Definition perform_tls_handshake : M Z :=
  c ← on_conn get_conn;
  if c_socket_fd c <? 0 then mret ERR_TLS_HANDSHAKE else
  on_conn (modify_conn (fun c => c <| c_state := STATE_TLS_HANDSHAKE |>)) ;;
  s ← the_session;
  on_os (set_timeouts (c_socket_fd c) (handshake_timeout (s_timeout_ms s))) ;;
  ctx ← on_tls ssl_create_client;
  if ctx =? 0 then mret ERR_TLS_HANDSHAKE else
  on_conn (modify_conn (fun c => c <| c_ssl_ctx := ctx |>)) ;;
  r ← on_tls (ssl_connect ctx (c_socket_fd c));
  if negb (r =? 0) then
    hs_errno ← on_tls (ossl o_errno);
    ssl_destroy_ctx ctx ;;
    on_conn (modify_conn (fun c => c <| c_ssl_ctx := 0 |>)) ;;
    mret (if hs_errno =? EAGAIN then ERR_TIMEOUT else ERR_TLS_HANDSHAKE)
  else
    on_conn (modify_conn (fun c => c <| c_ssl := ctx |>)) ;;
    on_os (_ ← setsockopt (ONodelay (c_socket_fd c) 1); mret tt) ;;
    mret ERR_NONE.
End dial.
