(* ===== verification/Additional.v ===== *)
(** * Additional links (softether_protocol.c)

    [softether_additional_connect] dials one more TLS link to the server,
    authenticates it with the session key and puts it into a free slot. It runs
    on a thread of its own ([additional_connect_thread_routine]) or, for the
    first link of a half-duplex session, before DHCP
    ([softether_establish_first_additional]). The two answers are read with
    code of their own, not with [read_http_response]: [connect_reply] and
    [auth_reply]. *)
From stdpp Require Import functions strings.
From S2P Require Import Prelude Bytes Ring Pack Crypto Conn Tunnel.
Import Writer Reader.
From S2P Require Import TcpSocket Http LoginPack Login Dial.

Definition REPLY_SIZE : Z := 4096.

Section additional.
Context {U : Type} `{Kernel} `{OpenSSL}.
Context (tick : nat -> Z) (malloc_ok : Z -> bool) (stack : Z -> list Z) (addr : Z) (http_date : list Z)
        (protect : nat -> Z).
Abbreviation M := (St (dworld U)).

(** ** Reading the answers *)

(** Headers and, when it fits, the body; [Some (array, header length, body
    length)]. A body that does not fit is not read, and not an error. Only with
    [terminate] is the header followed by a NUL. *)
Definition read_reply (terminate : bool) (ssl : Z) : St (cworld U) (option response) :=
  h ← read_headers (Z.to_nat REPLY_SIZE) ssl REPLY_SIZE (stack REPLY_SIZE) 0;
  match h with
  | None => mret None
  | Some (resp, hdr_len, found_end) =>
      if negb found_end then mret None else
      resp ← (if terminate then lift (blit [0] hdr_len resp) else mret resp);
      cl ← lift (announced_length resp);
      if cl <? 0 then mret None else
      if negb ((cl >? 0) && (hdr_len + cl <? REPLY_SIZE)) then mret (Some (Response resp hdr_len 0)) else
      b ← read_body (Z.to_nat cl) ssl resp hdr_len cl 0;
      mret (match b with None => None | Some resp => Some (Response resp hdr_len cl) end)
  end.

(** The answer of connect.cgi is not terminated before it is searched. *)
Definition connect_reply : Z -> St (cworld U) (option response) := read_reply false.
Definition auth_reply : Z -> St (cworld U) (option response) := read_reply true.

(** ** The request *)

Definition additional_fields (s : session) : list field :=
  [FStr (str "method") (str "additional_connect"); FData (str "session_key") (Some (s_session_key s)) SHA1_SIZE].
Definition additional_size : Z :=
  total_size [PACK_STR_SZ (str "method") (str "additional_connect"); PACK_DATA_SZ (str "session_key") SHA1_SIZE].

(** ** The connect *)

Definition count_failure : M unit :=
  on_conn (modify_conn (fun c => c <| c_additional_failed_count := c_additional_failed_count c + 1 |>)).

(** Giving up after the handshake. *)
Definition abandon (ctx fd : Z) : M Z :=
  ssl_destroy_ctx ctx ;; on_os (sys_close fd) ;; count_failure ;; mret (-1).

(** The protector's verdict; without a protector every descriptor passes. *)
Definition protected (fd : Z) : M bool :=
  on ← gets d_protector;
  if negb on then mret true else
  r ← on_os (r ← sys protect; note (OProtect fd r) ;; mret r);
  mret (r =? 0).

(** Steps 3 and 4: the signature and the request with their answers; [None]
    after a failure, else the direction the server assigned. *)
Definition introduce (ctx : Z) : M (option Z) :=
  s ← the_session;
  sent ← on_conn (post malloc_ok stack ctx 1024 (connect_post (s_server_ip s)) watermark);
  if negb sent then mret None else
  hello ← on_conn (connect_reply ctx);
  match hello with
  | None => mret None
  | Some _ =>
      if negb (malloc_ok (additional_size + 64)) then mret None else
      pack ← on_conn (lift (write_pack additional_size 2 (additional_fields s)));
      sent ← on_conn (post malloc_ok stack ctx 512 (vpn_post http_date (s_server_ip s) (len pack)) pack);
      if negb sent then mret None else
      answer ← on_conn (auth_reply ctx);
      match answer with
      | None => mret None
      | Some r =>
          if r_len r <? 4 then mret (Some TCP_DIRECTION_BOTH) else
          err ← on_conn (lift (match int_field (body_of addr r) "error" with Ub => Ub | Err => Ok 0 | Ok v => Ok v end));
          if negb (err =? 0) then mret None else
          dir ← on_conn (lift (match int_field (body_of addr r) "direction" with
                               | Ub => Ub | Err => Ok TCP_DIRECTION_BOTH | Ok v => Ok v end));
          mret (Some dir)
      end
  end.

(** Step 5. *)
Definition new_link (fd ctx direction now : Z) (ts : tcp_sock) : tcp_sock :=
  ts <| ts_fd := fd |> <| ts_ssl_ctx := ctx |> <| ts_ssl := ctx |> <| ts_direction := int32 direction |>
     <| ts_last_recv := now |> <| ts_late_count := 0 |> <| ts_active := true |>.

Definition install (slot fd ctx direction now : Z) : St (cworld U) unit :=
  ts ← get_slot slot;
  set_slot slot (new_link fd ctx direction now ts) ;;
  modify_conn (fun c => c <| c_num_additional := c_num_additional c + 1 |> <| c_additional_failed_count := 0 |>).

(** Step 1: a connected descriptor. *)
Definition dial_server : M (option Z) :=
  s ← the_session;
  sock ← on_os (socket_create SOCKET_TYPE_TCP);
  match sock with
  | None => mret None
  | Some sock =>
      ok ← protected (sk_fd sock);
      if negb ok then on_os (socket_destroy sock) ;; mret None else
      '(r, sock) ← on_os (socket_connect_timeout (s_server_ip s) (s_server_port s) (s_timeout_ms s) sock);
      if negb (r =? 0) then on_os (socket_destroy sock) ;; mret None else
      mret (Some (sk_fd sock))
  end.

Definition softether_additional_connect : M Z :=
  c ← on_conn get_conn;
  if negb (bool_decide (c_state c = STATE_CONNECTED)) then mret (-1) else
  match free_slot c with
  | None => mret (-1)
  | Some slot =>
      fd ← dial_server;
      match fd with
      | None => count_failure ;; mret (-1)
      | Some fd =>
          ctx ← on_tls ssl_create_client;
          if ctx =? 0 then on_os (sys_close fd) ;; count_failure ;; mret (-1) else
          s ← the_session;
          _ ← on_os (socket_apply_timeout fd (s_timeout_ms s));
          r ← on_tls (ssl_connect ctx fd);
          if negb (r =? 0) then abandon ctx fd else
          on_os (_ ← setsockopt (ONodelay fd 1); _ ← setsockopt (OTimeout fd 5000); mret tt) ;;
          dir ← introduce ctx;
          match dir with
          | None => abandon ctx fd
          | Some dir =>
              now ← on_conn (softether_tick_ms tick);
              on_conn (install slot fd ctx dir now) ;;
              mret 0
          end
      end
  end.

(** ** The callers *)

Definition additional_connect_thread_routine : M unit :=
  result ← softether_additional_connect;
  on_conn (modify_conn (fun c => c <| c_additional_connect_result := result |> <| c_additional_connecting := false |>)).

Definition receives_only (ts : tcp_sock) : bool := ts_active ts && (ts_direction ts =? TCP_DIRECTION_SERVER_TO_CLIENT).

Definition softether_establish_first_additional : M Z :=
  result ← softether_additional_connect;
  c ← on_conn get_conn;
  if (result =? 0) && existsb receives_only (c_additional c) then
    on_conn (modify_conn (fun c => c <| c_primary_direction := TCP_DIRECTION_CLIENT_TO_SERVER |>)) ;; mret 0
  else mret result.

Definition softether_set_socket_protector (on : bool) (w : dworld U) : dworld U := w <| d_protector := on |>.
Definition softether_clear_socket_protector (w : dworld U) : dworld U := w <| d_protector := false |>.
End additional.
