(* ===== verification/AdditionalSpec.v ===== *)
(** * What an additional connect promises

    The new link is installed with its own TLS context in a slot that was
    free; every failure gives back the descriptor and the context it made and
    leaves the links alone. *)
From stdpp Require Import functions strings.
From S2P Require Import Prelude Bytes Ring Pack PackSpec Crypto Conn Tunnel ConnInv WorldInv ChannelInv.
Import Writer Reader Spec Reader_correct.
From S2P Require Import ConnEx TcpSocket TcpSocketSpec Http HttpSpec LoginPack LoginPackSpec HelloSpec Login LoginInv LoginSpec Dial Additional.

(** ** A slot joins the links *)

Lemma active_join l i ts ts' : l !! i = Some ts -> ts_active ts = false -> ts_active ts' = true ->
  active_count (<[i := ts']> l) = active_count l + 1.
Proof.
  intros Hi Ha Ha'. pose proof (lookup_lt_Some _ _ _ Hi). unfold active_count.
  rewrite <- (take_drop_middle l i ts) at 2 by done. rewrite insert_take_drop by done.
  rewrite !filter_app, filter_cons_True, filter_cons_False by congruence. slia.
Qed.

(** The links after [install]. *)
Definition joined (slot fd ctx direction now : Z) (ts : tcp_sock) (c : connection) : connection :=
  c <| c_additional := <[Z.to_nat slot := new_link fd ctx direction now ts]> (c_additional c) |>
    <| c_num_additional := c_num_additional c + 1 |> <| c_additional_failed_count := 0 |>.

Lemma filter_head (x : Z) l : filter (fun p => p <> 0) (x :: l) = filter (fun p => p <> 0) [x] ++ filter (fun p => p <> 0) l.
Proof. exact (filter_app _ [x] l). Qed.

Lemma core_join freed c i ts ts' :
  links_core freed c -> c_additional c !! i = Some ts -> slot_ok ts' -> ts_ssl_ctx ts' <> 0 ->
  ts_ssl_ctx ts' ∉ owners c -> ts_ssl_ctx ts' ∉ freed ->
  links_core freed (c <| c_additional := <[i := ts']> (c_additional c) |>).
Proof.
  intros (Hl & Hs & Hnd & Hf & H0) Hi Hok Hne Hown Hfr. pose proof (lookup_lt_Some _ _ _ Hi).
  set (ow l := filter (fun p => p <> 0) (map ts_ssl_ctx l)).
  assert (Eo : owners c = filter (fun p => p <> 0) [c_ssl c] ++ ow (take i (c_additional c)) ++ filter (fun p => p <> 0) [ts_ssl_ctx ts] ++
    ow (drop (S i) (c_additional c))).
  { unfold owners, ow. rewrite <- (take_drop_middle (c_additional c) i ts) at 1 by done.
    by rewrite filter_head, map_app, filter_app, map_cons, (filter_head (ts_ssl_ctx ts)). }
  assert (Eo' : owners (c <| c_additional := <[i := ts']> (c_additional c) |>) =
    filter (fun p => p <> 0) [c_ssl c] ++ ow (take i (c_additional c)) ++ [ts_ssl_ctx ts'] ++ ow (drop (S i) (c_additional c))).
  { unfold owners, ow. change (c_additional (c <| c_additional := ?l |>)) with l. change (c_ssl (c <| c_additional := _ |>)) with (c_ssl c).
    rewrite insert_take_drop by done. rewrite filter_head, map_app, filter_app, map_cons.
    do 2 f_equal. by apply filter_cons_True. }
  unfold links_core. rewrite Eo'. rewrite Eo in *. cbn [c_additional upd].
  split; [by rewrite len_insert|]. split; [by apply Forall_insert|].
  set (A := filter _ [c_ssl c]) in *. set (B := ow (take _ _)) in *. set (C := filter _ [ts_ssl_ctx ts]) in *. set (D := ow (drop _ _)) in *.
  assert (Hp : A ++ B ++ [ts_ssl_ctx ts'] ++ D ≡ₚ ts_ssl_ctx ts' :: (A ++ B ++ D)) by solve_Permutation.
  assert (Hp2 : A ++ B ++ C ++ D ≡ₚ C ++ (A ++ B ++ D)) by solve_Permutation.
  rewrite Hp2 in Hnd, Hf, Hown. apply NoDup_app in Hnd as (_ & _ & Hnd). apply Forall_app in Hf as [_ Hf].
  rewrite Hp. split; [|split; [by constructor|done]]. constructor; [|done]. intros Hin. apply Hown, elem_of_app. by right.
Qed.

Lemma conn_join freed c slot fd ctx direction now ts :
  conn_ok freed c -> c_additional c !! Z.to_nat slot = Some ts -> ts_active ts = false ->
  ctx <> 0 -> ctx ∉ owners c -> ctx ∉ freed -> conn_ok freed (joined slot fd ctx direction now ts c).
Proof.
  intros (Hq & [Hl Hn] & Hs & Hf) Hi Ha H0 Ho Hfr. split; [exact Hq|]. split; [|split; [exact Hs|exact Hf]].
  split; [apply (core_join freed c (Z.to_nat slot) ts (new_link fd ctx direction now ts)); try done; by split; [right|]|].
  unfold joined. cbn [c_num_additional c_additional upd]. by rewrite Hn, (active_join _ _ ts).
Qed.

(** ** Steps on one part of the world *)

Section parts.
Context {U : Type} `{HK : Kernel} `{HO : OpenSSL} (F : Prop).
Implicit Types (cw : cworld U) (s : session) (y : os) (t : tls) (pr : bool).
Abbreviation W cw s y t pr := (DWorld (LWorld cw s) y t pr).

Lemma conn_step {A B} (m : St (cworld U) A) (f : A -> St (dworld U) B) P Q cw s y t pr :
  wpf F m P cw -> (forall a cw', P a cw' -> wpf F (f a) Q (W cw' s y t pr)) ->
  wpf F (on_conn m ≫= f) Q (W cw s y t pr).
Proof.
  unfold wpf, on_conn, io, mbind, St_bind. cbn. destruct (m cw) as [| |[a cw']]; [done|done|]. intros Hp Hf. by apply Hf.
Qed.
Lemma os_step {A B} (m : St os A) (f : A -> St (dworld U) B) P Q cw s y t pr :
  wp m P y -> (forall a y', P a y' -> wpf F (f a) Q (W cw s y' t pr)) ->
  wpf F (on_os m ≫= f) Q (W cw s y t pr).
Proof.
  unfold wp, wpf, on_os, mbind, St_bind. cbn. destruct (m y) as [| |[a y']]; [done|done|]. intros Hp Hf. by apply Hf.
Qed.
Lemma tls_step {A B} (m : St tls A) (f : A -> St (dworld U) B) P Q cw s y t pr :
  wp m P t -> (forall a t', P a t' -> wpf F (f a) Q (W cw s y t' pr)) ->
  wpf F (on_tls m ≫= f) Q (W cw s y t pr).
Proof.
  unfold wp, wpf, on_tls, mbind, St_bind. cbn. destruct (m t) as [| |[a t']]; [done|done|]. intros Hp Hf. by apply Hf.
Qed.
Lemma session_step {B} (f : session -> St (dworld U) B) Q cw s y t pr :
  wpf F (f s) Q (W cw s y t pr) -> wpf F (the_session ≫= f) Q (W cw s y t pr).
Proof. done. Qed.
Lemma conn_read_step {B} (f : connection -> St (dworld U) B) Q cw s y t pr :
  wpf F (f (w_conn cw)) Q (W cw s y t pr) -> wpf F (on_conn get_conn ≫= f) Q (W cw s y t pr).
Proof. done. Qed.

(** ** TLS objects *)

(** [p] is a pointer an allocation between the two states returned. *)
Definition allocated t t' (p : Z) : Prop := exists n, (t_calls t <= n < t_calls t')%nat /\ p = o_calloc n.

Lemma create_client_wp t : wp ssl_create_client (fun p t' =>
  t_ssl t' = t_ssl t /\ t_attempts t' = t_attempts t /\ (t_calls t <= t_calls t')%nat /\
  (p = 0 \/ allocated t t' p /\ p <> 0)) t.
Proof.
  unfold ssl_create_client. wp_step. unfold wp at 1, ossl. wp_step; [wp_step; split_and!; [done|done|cbn; lia|by left]|].
  wp_step. unfold wp at 1. wp_step. split_and!; [done|done|cbn; lia|].
  destruct (o_ctx_new _); [right; split; [exists (t_calls t); split; [cbn; lia|done]|lia]|by left].
Qed.

Definition free_of (p : Z) t : Prop := p ∉ t_ssl t.

Lemma do_handshake_wp n t :
  wp (do_handshake n) (fun _ t' => t_ssl t' = t_ssl t /\ (t_attempts t' <= t_attempts t + n)%nat /\ (t_calls t <= t_calls t')%nat) t.
Proof.
  revert t. induction n as [|n IH]; intros t; cbn [do_handshake]; [by wp_step; split; [|lia]|].
  wp_step. unfold wp at 1, modify. wp_step. unfold wp at 1, ossl. destruct (o_handshake _); [wp_step; split; [done|cbn; lia]| |wp_step; split; [done|cbn; lia]].
  eapply wp_mono; [apply IH|]. intros b t' [E Hl]. cbn in *. split; [done|lia].
Qed.

(** The handshake: on failure no SSL object is left. *)
Lemma ssl_connect_wp p fd t : wp (ssl_connect p fd) (fun r t' =>
  (t_attempts t' <= t_attempts t + MAX_HANDSHAKE_ATTEMPTS)%nat /\ (t_calls t <= t_calls t')%nat /\ (r = 0 -> p <> 0 /\ t_ssl t' = p :: t_ssl t) /\
  (r <> 0 -> p ∉ t_ssl t -> t_ssl t' = t_ssl t)) t.
Proof.
  unfold ssl_connect. wp_step; [wp_step; split_and!; [lia|lia|done..]|]. wp_step. unfold wp at 1, ossl.
  wp_step; [wp_step; split_and!; [cbn; lia|cbn; lia|done..]|]. wp_step. unfold wp at 1, modify. wp_step. unfold wp at 1.
  assert (Hfree : forall t2 : tls, t_ssl t2 = p :: t_ssl t -> p ∉ t_ssl t -> filter (fun x => x <> p) (t_ssl t2) = t_ssl t).
  { intros t2 -> Hp. rewrite filter_cons, decide_False by (intros Hx; by apply Hx). by apply filter_without. }
  wp_step.
  { wp_step. unfold ssl_free. wp_step. wp_step. split_and!; [cbn; lia|cbn; lia|done|]. intros _ Hp. by apply Hfree. }
  wp_step. eapply wp_mono; [apply do_handshake_wp|]. intros d t2 (E & Hl & Hc2). cbn in E, Hl, Hc2. wp_step.
  { wp_step. unfold ssl_free. wp_step. wp_step. split_and!; [done|cbn; lia|done|]. intros _ Hp. by apply Hfree. }
  wp_step. split_and!; [done|lia| |done]. intros _. split; [lia|done].
Qed.
End parts.

(** ** The answers *)

Section replies.
Context {U : Type} (stack : Z -> list Z) (Hstack : arrays_ok stack).
Implicit Types w : cworld U.

(** The bytes behind the header are those the array held before. *)
Lemma headers_rest fuel ssl n buf (got : list Z) w :
  reading ssl w -> len buf = n -> len got <= n - 1 -> n - 1 - len got < Z.of_nat fuel ->
  wp (read_headers fuel ssl n buf (len got)) (fun r _ => match r with
    | Some (buf', k', _) => len got <= k' /\ dr k' buf' = dr k' buf | None => True end) w.
Proof.
  revert buf got w. induction fuel as [|fuel IH]; intros buf got w Hw Hl Hk Hf; [lia|].
  pose proof (len_nonneg got). cbn [read_headers]. wp_step; [by wp_step|].
  wp_step. eapply wp_mono; [apply one_read; [done|lia]|]. intros e w1 (Ha & _ & Hd).
  destruct e as [bs| | |]; [|by wp_step..]. destruct (Hd bs eq_refl) as [Hle Hbs].
  wp_step; [by wp_step|]. assert (H1 : len bs = 1) by slia.
  apply wp_blit; [lia..|]. intros buf' Eb Hl' _.
  replace (len got + 1) with (len (got ++ bs)) by slia.
  assert (Hrest : forall j, len (got ++ bs) <= j -> dr j buf' = dr j buf).
  { intros j Hj. rewrite len_app in Hj. rewrite Eb, app_assoc, dr_app, dr_all by slia. cbn [app].
    rewrite dr_dr by slia. f_equal. slia. }
  destruct (tail_suffix (len (got ++ bs)) (tk (len (got ++ bs)) buf') buf') as (tail & Ht & _); [done|slia|].
  wp_step. eapply wp_lift; [exact Ht|]. wp_step; [wp_step; split; [slia|by apply Hrest]|].
  eapply wp_mono; [apply (IH buf' (got ++ bs)); [by eapply reading_after|lia|slia|slia]|].
  intros [[[buf2 k2] found]|] w2 E; [|done]. destruct E as [Hk2 E]. split; [slia|]. rewrite E. by apply Hrest.
Qed.

(** A header without an end: neither it nor what the array held behind it has
    a NUL byte. *)
Definition unterminated (data : list Z) : Prop :=
  exists h rest, data = h ++ rest /\ is_header h /\ nul_free (h ++ dr (len h) (stack REPLY_SIZE)).

(** What both replies give: an array of its size, the body inside it. *)
Definition reply_ok (r : response) : Prop :=
  len (r_buf r) = REPLY_SIZE /\ bytes_ok (r_buf r) /\ 0 <= r_offset r /\ 0 <= r_len r /\ r_offset r + r_len r <= REPLY_SIZE.

Definition reply_post ssl w (r : option response) w' : Prop :=
  exists c, taken ssl w w' c /\ forall x, r = Some x -> reply_ok x.

Lemma announced_not_err l : announced_length l <> Err.
Proof.
  unfold announced_length. pose proof (strstr_not_err l (str "Content-Length: ")). pose proof (strstr_not_err l (str "content-length: ")).
  assert (Hs : forall s, skip_blanks s <> Err) by (induction s as [|c s IH]; cbn; [done|]; by destruct (is_blank c)).
  assert (Hd : forall s v, parse_digits v s <> Err).
  { induction s as [|c s IH]; intros v; cbn; [done|]. destruct (is_digit c); [|done]. by destruct (_ >? _). }
  assert (Hp : forall s, parse_content_length s <> Err).
  { intros s. unfold parse_content_length. specialize (Hs s). destruct (skip_blanks s) as [| |t]; [done..|]. rewrite bind_ok.
    destruct (_ =? 0); [done|]. destruct (negb _); [done|]. specialize (Hd t 0). by destruct (parse_digits 0 t) as [| |[[]|]]. }
  destruct (strstr l _) as [| |[t|]]; rewrite ?bind_ok; try done; try apply Hp.
  destruct (strstr l _) as [| |[t|]]; rewrite ?bind_ok; try done; apply Hp.
Qed.

Lemma read_reply_wp (terminate : bool) (F : Prop) ssl w : reading ssl w ->
  (terminate = false -> unterminated (waiting ssl w) -> F) ->
  wpf F (read_reply stack terminate ssl) (reply_post ssl w) w.
Proof.
  intros Hw HF. destruct (Hstack REPLY_SIZE ltac:(done)) as [Hl Hb]. unfold read_reply.
  apply wpf_bind. eapply wpf_mono.
  { apply wpf_wp, wp_and; [apply (read_headers_wp _ ssl REPLY_SIZE (stack REPLY_SIZE) []); try done; apply no_blank_nil|].
    apply (headers_rest _ ssl REPLY_SIZE (stack REPLY_SIZE) []); done. }
  intros r w1 [(c & Hc & Hr) Hrest]. destruct r as [[[buf k] found]|]; [|wpf_step; by exists c].
  destruct Hr as (Hl1 & Hb1 & Hk & Hkn & Htk & Hh). cbn [app] in Hk, Htk, Hh. destruct Hrest as [_ Hrest].
  wpf_step; [wpf_step; by exists c|]. destruct found; [|done]. specialize (Hh eq_refl). pose proof (len_nonneg c).
  assert (Hgo : forall resp, len resp = REPLY_SIZE -> bytes_ok resp -> tk k resp = c ->
    (announced_length resp = Ub -> F) ->
    wpf F (cl ← lift (announced_length resp);
      if cl <? 0 then mret None else
      if negb ((cl >? 0) && (k + cl <? REPLY_SIZE)) then mret (Some (Response resp k 0)) else
      b ← read_body (Z.to_nat cl) ssl resp k cl 0;
      mret (match b with None => None | Some resp => Some (Response resp k cl) end)) (reply_post ssl w) w1).
  { intros resp Hlr Hbr Htr Hub. apply wpf_bind, wpf_lift. pose proof (announced_not_err resp).
    destruct (announced_length resp) as [| |cl]; [by apply Hub|done|].
    wpf_step; [wpf_step; by exists c|]. wpf_step.
    { wpf_step. exists c. split; [done|]. intros x [= <-]. unfold reply_ok. cbn [r_buf r_offset r_len]. split_and!; done || lia. }
    apply wpf_bind. eapply wpf_mono.
    { apply wpf_wp. rewrite Hk. apply (read_body_wp _ ssl resp c cl []); [eapply reading_after; [done|apply Hc]|done| |change (len (@nil Z)) with 0; lia..].
      by rewrite app_nil_r, <- Hk. }
    intros b w2 (c2 & Hct & Hb2). wpf_step. exists (c ++ c2). split; [by eapply taken_trans|].
    destruct b as [b|]; [|done]. intros x [= <-]. destruct (Hb2 b eq_refl) as (Hlb & Hbb & _ & _).
    unfold reply_ok. cbn [r_buf r_offset r_len]. split_and!; try done; lia. }
  apply wpf_bind. destruct terminate.
  - destruct (blit_ok [0] k buf) as (buf' & E & Eb & Hl' & Hb'); [lia|change (len [0]) with 1; lia|].
    unfold wpf at 1, lift at 1. rewrite E. specialize (Hb' ltac:(repeat constructor; unfold byte_ok; lia) Hb1).
    rewrite Htk in Eb. apply Hgo; [lia|done|rewrite Eb; by apply tk_app_exact|]. intros Hub.
    rewrite announced_ok in Hub; [done|]. rewrite Eb. apply elem_of_app. right. apply list_elem_of_here.
  - wpf_step. apply Hgo; [done..|]. intros Hub. apply HF; [done|]. exists c, (waiting ssl w1).
    split; [apply Hc|]. split; [done|].
    assert (Eb : buf = c ++ dr (len c) (stack REPLY_SIZE)) by (rewrite <- Htk at 1; rewrite <- Hk, <- Hrest; symmetry; apply tk_dr).
    rewrite <- Eb. destruct (decide (0 ∈ buf)) as [Hin|Hin]; [by rewrite announced_ok in Hub|].
    apply Forall_forall. by intros x Hx ->.
Qed.

(** The body of a reply as the readers see it. *)
Lemma reply_view addr r : 0 <= addr /\ addr + 2 ^ 33 <= 2 ^ 64 -> reply_ok r ->
  view_ok (body_of addr r) /\ bytes_ok (m_body (body_of addr r)).
Proof.
  intros Ha (Hl & Hb & Ho & Hn & Hf). unfold REPLY_SIZE in *. unfold body_of, view_ok. cbn [m_base m_body m_bits].
  split; [|auto with bytes]. split; [lia|]. rewrite len_slice. lia.
Qed.
End replies.

(** ** The conversation on the new link *)

Section introduce.
Context {U : Type} (good : U -> Prop) `{HK : Kernel} `{!KernelLaws} `{HO : OpenSSL}.
Context (tick : nat -> Z) (malloc_ok : Z -> bool) (stack : Z -> list Z) (addr : Z) (http_date : list Z) (protect : nat -> Z).
Hypothesis Hstack : arrays_ok stack.
Hypothesis Haddr : 0 <= addr /\ addr + 2 ^ 33 <= 2 ^ 64.
Hypothesis Hdate : len http_date <= 63.
Implicit Types (cw : cworld U) (s : session) (y : os) (t : tls) (pr : bool).
Abbreviation W cw s y t pr := (DWorld (LWorld cw s) y t pr).

Definition additional_pack (s : session) : list Z := encode (map elem_of_field (additional_fields s)).

Lemma additional_pack_ok s : session_ok s ->
  write_pack additional_size 2 (additional_fields s) = Ok (additional_pack s) /\ len (additional_pack s) = additional_size.
Proof.
  intros Hs. destruct (write_pack_ok (additional_fields s)) as [E El]; [| | |by split].
  - destruct Hs. repeat constructor; cbn; unfold SHA1_SIZE in *; try (vm_compute; done); lia.
  - done.
  - unfold additional_fields. cbn [map elem_of_field]. rewrite !encoded_len_cons, !len_enc_elem1.
    change (encoded_len []) with 0. cbn [enc_value e_name]. rewrite !len_app, !len_be_enc, len_value_of; [by vm_compute|done|].
    destruct Hs. unfold SHA1_SIZE in *. lia.
Qed.

(** Only bytes move between the two states. *)
Definition talked cw cw' (w : dworld U) s y t pr : Prop := w = W cw' s y t pr /\ io_step good cw cw'.

Lemma introduce_wp ctx cw s y t pr : world_ok good cw -> ctx ∉ w_freed cw -> session_ok s ->
  wpf (unterminated stack (waiting ctx cw)) (introduce malloc_ok stack addr http_date ctx)
    (fun _ w => exists cw', talked cw cw' w s y t pr) (W cw s y t pr).
Proof.
  intros Hw Hf Hs. unfold introduce. apply session_step.
  assert (Hend : forall cw' (r : option Z), io_step good cw cw' ->
    wpf (unterminated stack (waiting ctx cw)) (mret r) (fun _ w => exists cw', talked cw cw' w s y t pr) (W cw' s y t pr))
    by (intros cw' r Hio; by exists cw').
  eapply conn_step.
  { apply wpf_wp, (post_wp malloc_ok stack Hstack ctx 1024); [done|]. rewrite connect_post_len. destruct Hs. lia. }
  intros sent cw1 (Ha & _). pose proof (io_write good _ _ _ Hw Ha) as H1. wpf_step; [by apply Hend|].
  assert (Hr1 : reading ctx cw1). { split; [|apply H1]. by destruct (after_write_conn _ _ _ Ha) as (_ & -> & _). }
  eapply conn_step.
  { apply (read_reply_wp stack Hstack false _ ctx cw1 Hr1). intros _. by rewrite (inbox_write _ _ _ Ha). }
  intros hello cw2 (c & [Ha2 _] & _). pose proof (io_read good _ _ _ (proj1 H1) Ha2) as H2.
  pose proof (io_trans good _ _ _ H1 H2) as H12. destruct hello as [r1|]; [|by apply Hend]. wpf_step; [by apply Hend|].
  destruct (additional_pack_ok s Hs) as [Ep Elen].
  eapply (conn_step _ _ _ (fun p cw' => p = additional_pack s /\ cw' = cw2)).
  { by rewrite Ep. }
  intros pack cw3 [-> ->]. assert (Hf2 : ctx ∉ w_freed cw2) by (by destruct H12 as (_ & _ & -> & _)).
  eapply conn_step.
  { apply wpf_wp, (post_wp malloc_ok stack Hstack ctx 512 _ (additional_pack s)); [done|].
    pose proof (vpn_post_len http_date (s_server_ip s) (len (additional_pack s))). destruct Hs. lia. }
  intros sent2 cw4 (Ha4 & _). pose proof (io_trans good _ _ _ H12 (io_write good _ _ _ (proj1 H12) Ha4)) as H4.
  wpf_step; [by apply Hend|].
  assert (Hr4 : reading ctx cw4). { split; [|apply H4]. by destruct H4 as (_ & _ & -> & _). }
  eapply conn_step; [apply (read_reply_wp stack Hstack true _ ctx cw4 Hr4); done|].
  intros answer cw5 (c2 & [Ha5 _] & Hok). pose proof (io_trans good _ _ _ H4 (io_read good _ _ _ (proj1 H4) Ha5)) as H5.
  destruct answer as [r|]; [|by apply Hend]. specialize (Hok r eq_refl). wpf_step; [by apply Hend|].
  destruct (reply_view addr r Haddr Hok) as [Hv Hb].
  assert (Hfield : forall name d, wpf (unterminated stack (waiting ctx cw)) (lift (match int_field (body_of addr r) name with
    Ub => Ub | Err => Ok d | Ok v => Ok v end)) (fun (_ : Z) cw' => cw' = cw5) cw5).
  { intros name d. pose proof (int_field_safe _ Hv Hb name). by destruct (int_field _ name). }
  eapply conn_step; [apply Hfield|]. intros err ? ->. wpf_step; [by apply Hend|].
  eapply conn_step; [apply Hfield|]. intros dir ? ->. by apply Hend.
Qed.

(** ** Dialling *)

Definition log_kept y y' : Prop := exists tr, ran tr y y'.
Lemma log_trans y1 y2 y3 : log_kept y1 y2 -> log_kept y2 y3 -> log_kept y1 y3.
Proof. intros [a Ha] [b Hb]. exists (a ++ b). by eapply ran_trans. Qed.

Lemma protected_wp fd others cw s y t pr : owns fd others y -> 0 <= fd ->
  wpf False (protected protect fd) (fun _ w => exists y', w = W cw s y' t pr /\ kept fd others [] y y') (W cw s y t pr).
Proof.
  intros Ho Hf. unfold protected. apply wpf_bind. unfold wpf at 1, gets. cbn [d_protector]. wpf_step.
  { wpf_step. exists y. split; [done|]. by apply kept_quiet. }
  eapply (os_step _ _ _ (fun _ y' => kept fd others [] y y')).
  { wp_step. apply wp_sys. set (y1 := upd y_calls _ y). assert (Ho1 : owns fd others y1) by done.
    wp_step. eapply wp_mono; [apply (note_own_wp _ fd others y1); done|]. intros [] y2 [Hr Ho2]. by wp_step. }
  intros r y' Hk. wpf_step. by exists y'.
Qed.

Lemma dial_wp cw s y t pr : NoDup (y_open y) ->
  wpf False (dial_server protect) (fun r w => exists y', w = W cw s y' t pr /\ log_kept y y' /\ NoDup (y_open y') /\
    match r with Some fd => 0 <= fd /\ y_open y' ≡ₚ fd :: y_open y | None => y_open y' ≡ₚ y_open y end) (W cw s y t pr).
Proof.
  intros Hn. unfold dial_server. apply session_step.
  eapply os_step; [by apply create_wp|]. intros [sock|] y1 [Ht1 Hs]; [|wpf_step; exists y1; split; [done|]; split; [by eexists|done]].
  destruct Hs as (Ho & Hfd & _). wpf_step. eapply wpf_mono; [by apply (protected_wp _ (y_open y))|].
  intros ok w2 (y2 & -> & Hk2).
  assert (Hdrop : forall (sk : softether_socket) yy, log_kept y yy -> owns (sk_fd sk) (y_open y) yy ->
    wpf False (on_os (socket_destroy sk) ;; mret (@None Z)) (fun r w => exists y', w = W cw s y' t pr /\ log_kept y y' /\ NoDup (y_open y') /\
    match r with Some fd => 0 <= fd /\ y_open y' ≡ₚ fd :: y_open y | None => y_open y' ≡ₚ y_open y end) (W cw s yy t pr)).
  { intros sk yy Hl Ho'. eapply os_step; [by apply (when_close_wp _ (y_open y))|]. intros [] y3 [Ht3 [Hn3 Hp3]].
    wpf_step. exists y3. split; [done|]. split; [eapply log_trans; [done|by eexists]|]. by split. }
  assert (Hl2 : log_kept y y2). { eapply log_trans; [by eexists|]. exists []. apply Hk2. }
  wpf_step; [apply Hdrop; [done|apply Hk2]|].
  eapply os_step; [apply (connect_wp 0 0 (s_timeout_ms s) false ltac:(done) _ _ (y_open y) sock y2), Hk2|].
  intros [r sock3] y3 (tr & [Ht3 Ho3] & _ & Hres). assert (Hl3 : log_kept y y3) by (eapply log_trans; [done|by eexists]).
  wpf_step; [by apply Hdrop|]. wpf_step. exists y3. split; [done|]. split; [done|]. rewrite decide_True in Hres by lia.
  destruct Hres as (ai & _ & (Hfd3 & _) & _). split; [apply Ho3|]. split; [done|]. destruct Ho3 as [_ ->].
  unfold fd_list. by replace (sk_fd sock3 <? 0) with false by lia.
Qed.

(** ** The whole connect *)

(** The pointers [calloc] can still return are not those of live or destroyed
    contexts. *)
Definition fresh_contexts cw t : Prop := forall n, (t_calls t <= n)%nat -> let p := o_calloc n in
  p <> 0 -> (p ∉ w_freed cw) /\ (p ∉ owners (w_conn cw)) /\ p ∉ t_ssl t.

(** What an additional connect from [w] that returned [r] has done. *)
Definition added cw s y t pr (r : Z) (w' : dworld U) : Prop :=
  exists cw' y' t', w' = W cw' s y' t' pr /\ world_ok good cw' /\ log_kept y y' /\ NoDup (y_open y') /\
  if decide (r = 0) then
    exists slot fd ctx dir now ts, free_slot (w_conn cw) = Some slot /\ c_additional (w_conn cw) !! Z.to_nat slot = Some ts /\
      w_conn cw' = joined slot fd ctx dir now ts (w_conn cw) /\ 0 <= fd /\ ctx <> 0 /\ y_open y' ≡ₚ fd :: y_open y /\
      w_freed cw' = w_freed cw /\ t_ssl t' = ctx :: t_ssl t
  else r = -1 /\ y_open y' ≡ₚ y_open y /\ t_ssl t' = t_ssl t /\
      exists k, w_conn cw' = (w_conn cw) <| c_additional_failed_count := k |>.

Lemma world_freed cw p : world_ok good cw -> p <> 0 -> p ∉ owners (w_conn cw) ->
  world_ok good (cw <| w_freed := p :: w_freed cw |>).
Proof.
  intros ((Hq & [(Hl & Hs & Hn & Hf & H0) Hc] & Hst & Hfi) & Hi & Hg) Hp Ho. split; [|done].
  split; [exact Hq|]. split; [|by split]. split; [|exact Hc]. split; [exact Hl|]. split; [exact Hs|]. split; [exact Hn|]. split.
  - apply Forall_forall. intros x Hx [->|?]%elem_of_cons; [done|]. by eapply Forall_forall in Hf.
  - by intros [?|?]%elem_of_cons.
Qed.
Lemma world_count cw f : world_ok good cw ->
  world_ok good (cw <| w_conn := (w_conn cw) <| c_additional_failed_count := f |> |>).
Proof. intros (Hc & Hi & Hg). split; [exact Hc|done]. Qed.

(** A failure that is only counted. *)
Lemma counted_wp F cw0 y0 t0 cw s y t pr : world_ok good cw -> w_conn cw = w_conn cw0 -> log_kept y0 y -> NoDup (y_open y) ->
  y_open y ≡ₚ y_open y0 -> t_ssl t = t_ssl t0 ->
  wpf F (count_failure ;; mret (-1)) (added cw0 s y0 t0 pr) (W cw s y t pr).
Proof.
  intros Hw Ec Hl Hn Ho Ht. unfold count_failure. eapply (conn_step _ _ _ (fun _ v => v = cw <| w_conn := (w_conn cw) <| c_additional_failed_count := _ |> |>)).
  { done. }
  intros [] v ->. wpf_step. eexists _, y, t. split; [done|]. split; [by apply world_count|]. split; [done|]. split; [done|].
  destruct (decide _); [done|]. split; [done|]. split; [done|]. split; [done|]. eexists. cbn. by rewrite Ec.
Qed.

(** Giving up after the context was made. *)
Lemma abandon_wp F cw0 y0 t0 ctx fd cw s y t pr : world_ok good cw -> w_conn cw = w_conn cw0 ->
  ctx <> 0 -> ctx ∉ owners (w_conn cw) -> ctx ∉ w_freed cw -> log_kept y0 y -> owns fd (y_open y0) y -> 0 <= fd ->
  ctx ∉ t_ssl t0 -> t_ssl t = t_ssl t0 \/ t_ssl t = ctx :: t_ssl t0 ->
  wpf F (abandon ctx fd) (added cw0 s y0 t0 pr) (W cw s y t pr).
Proof.
  intros Hw Ec H0 Hown Hfr Hl Ho Hfd Ht0 Ht. unfold abandon, ssl_destroy_ctx.
  apply wpf_bind. eapply (conn_step _ _ _ (fun _ v => v = cw <| w_freed := ctx :: w_freed cw |>)).
  { apply wpf_wp. unfold ssl_destroy. wp_step. apply deref_ssl_wp; [done|]. by wp_step. }
  intros [] v ->. set (v := cw <| w_freed := _ |>). assert (Hv : world_ok good v) by (by apply world_freed).
  unfold wpf at 1, on_tls at 1, ssl_free at 1, modify at 1. cbn [d_tls]. set (t1 := upd t_ssl _ t).
  assert (Et : t_ssl t1 = t_ssl t0).
  { unfold t1. cbn. destruct Ht as [->| ->]; [by apply filter_without|].
    rewrite filter_cons, decide_False by (intros Hx; by apply Hx). by apply filter_without. }
  change (wpf F (on_os (sys_close fd) ;; count_failure ;; mret (-1)) (added cw0 s y0 t0 pr) (W v s y t1 pr)).
  eapply os_step; [by apply (close_wp fd (y_open y0))|]. intros [] y2 [Ht2 [Hn2 Hp2]].
  apply counted_wp; try done. eapply log_trans; [done|by eexists].
Qed.

Definition additional_fault cw : Prop := exists n, unterminated stack (waiting (o_calloc n) cw).

Lemma unchanged cw s y t pr F (r : Z) : world_ok good cw -> NoDup (y_open y) -> r = -1 ->
  wpf F (mret r) (added cw s y t pr) (W cw s y t pr).
Proof.
  intros Hw Hn ->. wpf_step. exists cw, y, t. split; [done|]. split; [done|]. split; [by exists []; apply ran_refl|]. split; [done|].
  split; [done|]. split; [done|]. split; [done|]. exists (c_additional_failed_count (w_conn cw)). by destruct (w_conn cw).
Qed.

Lemma wpf_weaken {A} (F G : Prop) (m : St (dworld U) A) Q w : (F -> G) -> wpf F m Q w -> wpf G m Q w.
Proof. unfold wpf. destruct (m w) as [| |[]]; auto. Qed.

Lemma additional_wp cw s y t pr : world_ok good cw -> session_ok s -> NoDup (y_open y) -> fresh_contexts cw t ->
  wpf (additional_fault cw) (softether_additional_connect tick malloc_ok stack addr http_date protect)
    (added cw s y t pr) (W cw s y t pr).
Proof.
  intros Hw Hs Hn Hfresh. unfold softether_additional_connect. apply conn_read_step.
  wpf_step; [by apply unchanged|]. destruct (free_slot (w_conn cw)) as [slot|] eqn:Eslot; [|by apply unchanged].
  destruct (slots_range (fun ts => negb (ts_active ts)) (w_conn cw) slot) as (Hslot & ts & Hts & Hact).
  { unfold free_slot in Eslot. destruct (slots _ _); [done|]. injection Eslot as ->. apply list_elem_of_here. }
  wpf_step. eapply wpf_mono; [eapply wpf_weaken; [|by apply dial_wp]; done|].
  intros fd w1 (y1 & -> & Hl1 & Hn1 & Hfd). destruct fd as [fd|]; [|by apply counted_wp].
  destruct Hfd as [Hfd Hop]. assert (Ho1 : owns fd (y_open y) y1).
  { split; [done|]. unfold fd_list. by replace (fd <? 0) with false by lia. }
  eapply tls_step; [apply create_client_wp|]. intros ctx t1 (Et1 & _ & Hc1 & Hctx). wpf_step.
  { eapply os_step; [by apply (close_wp fd (y_open y))|]. intros [] y2 [Ht2 [Hn2 Hp2]].
    apply counted_wp; try done. eapply log_trans; [done|by eexists]. }
  destruct Hctx as [->|((n & Hcn & ->) & H0)]; [done|]. set (ctx := o_calloc n) in *. destruct (Hfresh n ltac:(lia) H0) as (Hfr & Hown & Hts0).
  apply session_step. eapply (os_step _ _ _ (fun _ y' => kept fd (y_open y) [] y1 y')).
  { unfold socket_apply_timeout. wp_step; [lia|]. wp_step; [by apply kept_quiet|]. wp_step.
    eapply wp_mono; [by apply (setsockopt_wp _ fd (y_open y))|]. intros r y2 [Hr2 Ho2]. wp_step. apply wp_sys. wp_step. by split. }
  intros ? y2 [Ht2 Ho2]. assert (Hl2 : log_kept y y2) by (eapply log_trans; [done|by eexists]).
  eapply tls_step; [apply ssl_connect_wp|]. intros r t2 (_ & _ & Hok & Hbad). rewrite Et1 in Hok, Hbad. wpf_step.
  { apply abandon_wp; try done. left. apply Hbad; [lia|done]. }
  destruct (Hok ltac:(lia)) as [_ Et2].
  eapply (os_step _ _ _ (fun _ y' => kept fd (y_open y) [] y2 y')).
  { wp_step. eapply wp_mono; [by apply (setsockopt_wp _ fd (y_open y))|]. intros r1 y3 [Hr3 Ho3].
    wp_step. eapply wp_mono; [by apply (setsockopt_wp _ fd (y_open y))|]. intros r2 y4 [Hr4 Ho4]. wp_step.
    split; [by eapply tidy_trans|done]. }
  intros ? y3 [Ht3 Ho3]. assert (Hl3 : log_kept y y3) by (eapply log_trans; [done|by eexists]).
  wpf_step. eapply wpf_mono; [eapply wpf_weaken; [|by apply introduce_wp]; intros Hf; by exists n|].
  intros dir w2 (cw2 & -> & Hw2 & Ec & Ef & Eu). destruct dir as [dir|]; cycle 1.
  { apply abandon_wp; try done; try (by rewrite ?Ec, ?Ef). by right. }
  eapply (conn_step _ _ _ (fun _ v => v = cw2 <| w_ticks := w_ticks v |>)); [done|]. intros now v Ev.
  assert (Hwv : world_ok good v) by (rewrite Ev; exact Hw2). assert (Ecv : w_conn v = w_conn cw) by (by rewrite Ev).
  assert (Efv : w_freed v = w_freed cw) by (by rewrite Ev). clear Ev.
  eapply (conn_step _ _ _ (fun _ v' => v' = v <| w_conn := joined slot fd ctx dir now ts (w_conn v) |>)).
  { apply wpf_wp. unfold install. wp_step. apply get_slot_wp.
    - pose proof (world_slots good cw Hw) as E. rewrite E in Hslot. done.
    - by apply (world_slots good).
    - intros ts' Hts'. rewrite Ecv in Hts'. rewrite Hts in Hts'. injection Hts' as <-. done. }
  intros [] v' ->. wpf_step. eexists _, y3, t2. split; [done|]. split.
  { destruct Hwv as (Hcv & Hi & Hg). split; [|done]. cbn. rewrite Ecv, Efv in *. apply conn_join; try done. by destruct (ts_active ts). }
  split; [done|]. split; [apply Ho3|]. rewrite decide_True by done. exists slot, fd, ctx, dir, now, ts. cbn.
  rewrite Ecv. split; [done|]. split; [done|]. split; [done|]. split; [done|]. split; [done|].
  destruct Ho3 as [_ Hp3]. unfold fd_list in Hp3. replace (fd <? 0) with false in Hp3 by lia. done.
Qed.
End introduce.

(** ** The theorems *)

(** The local arrays have their size, the answer's array lies in the address
    space, the date fits its array. *)
Record dial_env (stack : Z -> list Z) (addr : Z) (http_date : list Z) : Prop := {
  de_stack : arrays_ok stack; de_addr : 0 <= addr /\ addr + 2 ^ 33 <= 2 ^ 64; de_date : len http_date <= 63 }.

(** C15: an additional connect owns what it makes. From a well-formed
    connection, whatever the sockets, OpenSSL and the server do, it returns
    with a well-formed connection; on success a slot that was free holds the new
    link, with the one new descriptor and the one new TLS context; on failure
    the connection differs in the failure count only, and every descriptor and
    every context it made was released. No call is made on a closed descriptor,
    no destroyed context is used. The one fault is the search of the first
    answer, whose header is not terminated. *)
Theorem additional_connect_resources {U} (good : U -> Prop) `{KernelLaws} `{OpenSSL} tick malloc_ok stack addr http_date protect
    (w : dworld U) :
  dial_env stack addr http_date -> world_ok good (l_world (d_l w)) -> session_ok (l_session (d_l w)) ->
  NoDup (y_open (d_os w)) -> fresh_contexts (l_world (d_l w)) (d_tls w) ->
  match softether_additional_connect tick malloc_ok stack addr http_date protect w with
  | Ok (r, w') => added good (l_world (d_l w)) (l_session (d_l w)) (d_os w) (d_tls w) (d_protector w) r w'
  | Ub => additional_fault stack (l_world (d_l w))
  | Err => False
  end.
Proof.
  intros [Hst Ha Hd] Hw Hs Hn Hf. destruct w as [[cw s] y t pr].
  exact (additional_wp good tick malloc_ok stack addr http_date protect Hst Ha Hd cw s y t pr Hw Hs Hn Hf).
Qed.

(** ** The protector and IPv6 *)

Definition is_protect (c : os_call) : Prop := match c with OProtect _ _ => True | _ => False end.

(** The descriptor was created for IPv6, and no protector was called since. *)
Definition unprotected (fd : Z) (l : list os_call) : Prop :=
  exists a type b, l = a ++ OSocket AF_INET6 type fd :: b /\ Forall (fun c => ~ is_protect c) b.

Lemma unprotected_snoc fd l c : unprotected fd l -> ~ is_protect c -> unprotected fd (l ++ [c]).
Proof.
  intros (a & type & b & -> & Hb) Hc. exists a, type, (b ++ [c]). split; [by rewrite <- app_assoc|].
  apply Forall_app. split; [done|]. by constructor.
Qed.

Section protection.
Context `{HK : Kernel}.
Implicit Types (y : os) (sock : softether_socket).

(** A socket with an IPv6 descriptor has one that was not protected. *)
Definition origin sock y : Prop := sk_family sock = AF_INET6 -> unprotected (sk_fd sock) (y_log y).

Lemma note_origin c sock y : ~ is_protect c -> origin sock y -> wp (note c) (fun _ y' => origin sock y') y.
Proof. intros Hc Ho. apply wp_note. intros E. apply unprotected_snoc; [by apply Ho|done]. Qed.

Lemma recreate_origin family sock y : origin sock y ->
  wp (socket_recreate_for_family family sock) (fun '(r, sock') y' => origin sock' y' /\ (r = 0 -> sk_family sock' = family)) y.
Proof.
  intros Ho. unfold socket_recreate_for_family. wp_step; [by wp_step|]. wp_step; [wp_step; split; [done|lia]|].
  wp_step. apply (wp_mono _ (fun _ _ => True)); [wp_step; exact I|]. intros [] y1 _.
  wp_step. unfold sys_socket. wp_step. wp_step. wp_step. apply wp_sys. set (fd := k_socket _ _).
  wp_step. apply wp_note. set (y2 := upd y_log _ _).
  assert (Hy2 : exists l, y_log y2 = l ++ [OSocket family (native_type (sk_type sock)) fd]) by (by eexists). clearbody y2.
  apply wp_bind, (wp_mono _ (fun _ y3 => y_log y3 = y_log y2)); [wp_step; by wp_step|]. intros [] y3 E3. wp_step.
  wp_step; [by wp_step|].
  assert (Ho3 : family = AF_INET6 -> unprotected fd (y_log y3)).
  { intros ->. destruct Hy2 as [l E2]. rewrite E3, E2. by exists l, (native_type (sk_type sock)), []. }
  set (sock2 := upd sk_family _ _). assert (Hs3 : origin sock2 y3) by exact Ho3.
  wp_step. eapply wp_mono; [apply (note_origin _ sock2); [by intros []|done]|]. intros [] y4 Ho4.
  wp_step. apply (wp_mono _ (fun _ y5 => origin sock2 y5)); [|intros [] y5 Ho5; by wp_step].
  wp_step; [|done]. wp_step. unfold setsockopt. wp_step. eapply wp_mono; [apply (note_origin _ sock2); [by intros []|done]|]. intros [] y5 Ho5.
  apply wp_sys. wp_step. apply wp_sys. by wp_step.
Qed.

Lemma pass_origin fuel ms family res sock y : origin sock y ->
  wp (connect_pass fuel ms false family res sock) (fun '(ok, sock') y' => origin sock' y' /\ (ok = true -> sk_family sock' = family)) y.
Proof.
  revert sock y. induction res as [|ai res IH]; intros sock y Ho; cbn [connect_pass]; [by wp_step|].
  wp_step; [by apply IH|]. wp_step. apply (wp_mono _ (fun '(ok, sock') y' => origin sock' y' /\ (ok = true -> sk_family sock' = family))).
  - unfold try_connect_addr. wp_step. eapply wp_mono; [by apply recreate_origin|]. intros [r sock1] y1 [Ho1 Hf1].
    wp_step; [by wp_step|]. assert (Efam : sk_family sock1 = family) by (rewrite Hf1 by lia; lia). cbn zeta. wp_step. apply wp_sys. set (sock2 := upd sk_addr _ sock1).
    wp_step. eapply wp_mono; [apply (note_origin _ sock2); [by intros []|done]|]. intros [] y2 Ho2.
    destruct (k_connect _); [by wp_step| |by wp_step]. wp_step. unfold await_connect. cbn [mbind].
    wp_step. wp_step. apply wp_sys. wp_step. destruct (k_poll _); try by wp_step; wp_step. wp_step. apply wp_sys. wp_step. by wp_step.
  - intros [ok sock1] y1 [Ho1 Hf1]. wp_step; [|by apply IH]. wp_step. eapply wp_mono; [apply (note_origin _ sock1); [by intros []|done]|]. intros [] y2 Ho2.
    wp_step. split; [exact Ho2|]. intros _. cbn. by apply Hf1.
Qed.

Lemma pass_none fuel ms c f res sock y : Forall (fun ai => ai_family ai <> f) res ->
  connect_pass fuel ms c f res sock y = Ok ((false, sock), y).
Proof.
  induction 1 as [|ai res Ha _ IH]; [done|]. cbn [connect_pass]. by replace (ai_family ai =? f) with false by lia.
Qed.

(** The name has IPv6 addresses only. *)
Definition ipv6_only : Prop := forall n h p f l, k_getaddrinfo n h p f = Some l -> Forall (fun ai => ai_family ai = AF_INET6) l.

Lemma connect_origin host port ms sock y : ipv6_only -> origin sock y ->
  wp (socket_connect_timeout host port ms sock) (fun '(r, sock') y' => r = 0 -> unprotected (sk_fd sock') (y_log y')) y.
Proof.
  intros H6 Ho. unfold socket_connect_timeout, socket_connect_timeout_cancel. wp_step. apply wp_sys. set (y1 := upd y_calls _ y).
  destruct (k_getaddrinfo _ _ _ _) as [[|ai res]|] eqn:E; [by wp_step| |by wp_step].
  pose proof (H6 _ _ _ _ _ E) as Hall. assert (Eai : ai_family ai = AF_INET6) by (by apply Forall_cons in Hall as [? _]).
  rewrite Eai. cbn [Z.eqb AF_INET6 AF_INET Pos.eqb]. wp_step. eapply wp_mono; [by apply pass_origin|].
  intros [ok sock1] y2 [Ho1 Hf1]. wp_step; [wp_step; intros _; by apply Ho1, Hf1|].
  wp_step. apply (wp_of_run _ _ _ (false, sock1) y2); [|by wp_step].
  apply pass_none. eapply Forall_impl; [exact Hall|]. intros a Ha. by rewrite Ha.
Qed.
End protection.

(** The protector does not reach an IPv6 server. The comment in the code
    promises that a socket is never dialled unprotected. For a server that
    resolves to IPv6 addresses only, the protector approves one descriptor, which
    is then closed inside the connect, and the link is dialled on a descriptor
    that was created for it afterwards and that no protector saw. *)
Theorem additional_protection_lost {U} `{KernelLaws} `{OpenSSL} (w w' : dworld U) protect fd :
  NoDup (y_open (d_os w)) -> d_protector w = true -> ipv6_only -> dial_server protect w = Ok (Some fd, w') ->
  (exists fd0, OProtect fd0 0 ∈ y_log (d_os w')) /\ unprotected fd (y_log (d_os w')).
Proof.
  destruct w as [[cw s] y t pr]. cbn [d_os d_protector]. intros Hn -> H6 Hrun.
  set (Q (fd : Z) (y' : os) := (exists fd0, OProtect fd0 0 ∈ y_log y') /\ unprotected fd (y_log y')).
  assert (Hwp : wpf False (dial_server protect) (fun r w' => forall fd, r = Some fd -> Q fd (d_os w'))
    (DWorld (LWorld cw s) y t true)); [|unfold wpf in Hwp; rewrite Hrun in Hwp; by apply Hwp].
  unfold dial_server. apply session_step.
  eapply os_step; [by apply create_wp|]. intros [sock|] y1 [_ Hs]; [|by wpf_step]. destruct Hs as (Ho & Hfd & Hfam & _).
  wpf_step.
  apply (wpf_mono _ _ (fun ok w2 => exists y2, w2 = DWorld (LWorld cw s) y2 t true /\ owns (sk_fd sock) (y_open y) y2 /\
    (ok = true -> OProtect (sk_fd sock) 0 ∈ y_log y2))).
  { unfold protected. apply wpf_bind. unfold wpf at 1, gets. cbn [d_protector negb].
    eapply (os_step _ _ _ (fun r y2 => owns (sk_fd sock) (y_open y) y2 /\ OProtect (sk_fd sock) r ∈ y_log y2)).
    { wp_step. apply wp_sys. wp_step. apply wp_note. wp_step. split; [exact Ho|]. cbn. apply elem_of_app. right. by left. }
    intros r y2 [Ho2 Hin]. wpf_step. exists y2. split; [done|]. split; [done|]. intros E. by replace r with 0 in Hin by lia. }
  assert (Hdrop : forall sk yy, wpf False (on_os (socket_destroy sk) ;; mret (@None Z)) (fun r w' => forall fd, r = Some fd -> Q fd (d_os w'))
    (DWorld (LWorld cw s) yy t true)).
  { intros sk yy. eapply (os_step _ _ _ (fun _ _ => True)); [|intros [] y3 _; by wpf_step]. unfold socket_destroy. wp_step; exact I. }
  intros ok w2 (y2 & -> & Ho2 & Hp). wpf_step; [apply Hdrop|]. specialize (Hp ltac:(by destruct ok)).
  eapply os_step; [apply wp_and; [apply connect_origin; [done|]; intros E; rewrite Hfam in E; discriminate E|]|].
  { apply (connect_wp 0 0 (s_timeout_ms s) false ltac:(done) _ _ (y_open y) sock y2), Ho2. }
  intros [r sock3] y3 [Hr (tr & [(l & El & _) _] & _)]. wpf_step; [apply Hdrop|]. wpf_step. intros fd0 [= <-]. split; [|apply Hr; lia].
  exists (sk_fd sock). unfold calls in El. cbn. rewrite El. apply elem_of_app. by left.
Qed.

(** ** A concrete server *)

#[export] Instance ex_openssl : OpenSSL := {|
  o_calloc _ := 100; o_ctx_new _ := true; o_ssl_new _ := true; o_set_fd _ := 1; o_handshake _ := HsDone; o_errno _ := 0 |}.

Definition ex_dir : list elem :=
  [ Elem (str "error") PACK_TYPE_INT [VInt 0]; Elem (str "direction") PACK_TYPE_INT [VInt 1] ].
Definition ex_replies : list Z := (ex_head ex_es1 ++ encode ex_es1) ++ (ex_head ex_dir ++ encode ex_dir).
Definition ex_reply_in (ch : chan) : list rd_event := if decide (ch = Tls 100) then [RdData ex_replies] else [].
Definition ex_dworld : dworld unit :=
  DWorld (LWorld (CWorld ex_conn None ex_reply_in (fun _ => []) (fun _ => []) [] [] 0 0 [] []) ex_session)
    ex_os (TlsState 0 0 [7; 8]) true.

Lemma ex_dworld_ok : world_ok (fun _ : unit => True) (l_world (d_l ex_dworld)).
Proof.
  split; [exact ex_conn_ok|]. split; [|done]. intros ch. cbn. unfold ex_reply_in. destruct (decide _); [|constructor].
  constructor; [|constructor]. apply (bool_decide_unpack _). vm_compute. exact I.
Qed.
Lemma ex_conn_fresh : fresh_contexts (l_world (d_l ex_dworld)) (d_tls ex_dworld).
Proof. intros n Hn p Hp. split; [|split]; apply (bool_decide_unpack _); vm_compute; exact I. Qed.
Lemma ex_dial_env : dial_env ex_stack 4096 (str "Mon, 01 Jan 2024 00:00:00 GMT").
Proof. split; [exact ex_stack_ok|split; [lia|vm_compute; discriminate]|vm_compute; discriminate]. Qed.

Abbreviation ex_add := (softether_additional_connect (fun n => Z.of_nat n) (fun _ => true) ex_stack 4096
  (str "Mon, 01 Jan 2024 00:00:00 GMT") (fun _ => 0) ex_dworld).

(** The link is made, with the direction the server assigned, on descriptor 8. *)
Lemma ex_add_runs : match ex_add with
  | Ok (r, w) => (r =? 0) && bool_decide (ts_direction <$> c_additional (w_conn (l_world (d_l w))) !! 1%nat = Some 1) &&
      bool_decide (y_open (d_os w) = [8; 7])
  | _ => false end = true.
Proof. vm_compute. reflexivity. Qed.

Lemma additional_connect_resources_witness :
  exists r w', ex_add = Ok (r, w') /\ r = 0 /\ y_open (d_os w') ≡ₚ [8; 7] /\
    added (fun _ => True) (l_world (d_l ex_dworld)) (l_session (d_l ex_dworld)) (d_os ex_dworld) (d_tls ex_dworld) true r w'.
Proof.
  pose proof (additional_connect_resources (fun _ : unit => True) (fun n => Z.of_nat n) (fun _ => true) ex_stack 4096
    (str "Mon, 01 Jan 2024 00:00:00 GMT") (fun _ => 0) ex_dworld ex_dial_env ex_dworld_ok ex_login_session_ok ex_nodup ex_conn_fresh) as Hadd.
  pose proof ex_add_runs as Hrun. destruct ex_add as [| |[r w']]; [discriminate Hrun|discriminate Hrun|].
  apply andb_true_iff in Hrun as [Hrun Hop%bool_decide_eq_true]. apply andb_true_iff in Hrun as [Hr _].
  exists r, w'. split; [reflexivity|]. split; [lia|]. split; [by rewrite Hop|exact Hadd].
Defined.

(** A kernel whose names have one IPv6 address, which answers at once. *)
Definition ex_kernel6 : Kernel := {|
  k_calloc _ := true; k_socket _ fds := 1 + fold_left Z.max fds 2; k_connect _ := CnOk; k_poll _ := PlReady; k_so_error _ := 0;
  k_setsockopt _ := 0; k_cancel _ := false; k_send _ room := TxBytes room; k_recv _ room := RxBytes [];
  k_pton _ _ := false; k_getaddrinfo _ _ _ _ := Some [Addr AF_INET6 [32; 1; 13; 184]]; k_ntop _ _ _ := None |}.
Lemma ex_kernel6_laws : @KernelLaws ex_kernel6.
Proof. split; [exact (@k_socket_fresh ex_kernel _)|exact (@k_send_fits ex_kernel _)|exact (@k_recv_fits ex_kernel _)]. Qed.
Lemma ex_ipv6_only : @ipv6_only ex_kernel6.
Proof. intros n h p f l. cbn. intros [= <-]. by repeat constructor. Qed.

Definition ex_dial6 := @dial_server unit ex_kernel6 (fun _ => 0) ex_dworld.
Lemma ex_dial6_runs : match ex_dial6 with Ok (Some fd, w) => fd =? 8 | _ => false end = true.
Proof. vm_compute. reflexivity. Qed.

Lemma additional_protection_lost_witness :
  exists fd w', ex_dial6 = Ok (Some fd, w') /\ (exists fd0, OProtect fd0 0 ∈ y_log (d_os w')) /\ unprotected fd (y_log (d_os w')).
Proof.
  pose proof ex_dial6_runs as Hrun. destruct ex_dial6 as [| |[[fd|] w']] eqn:E; try discriminate Hrun.
  exists fd, w'. split; [reflexivity|].
  exact (@additional_protection_lost unit ex_kernel6 ex_kernel6_laws ex_openssl ex_dworld w' (fun _ => 0) fd ex_nodup eq_refl ex_ipv6_only E).
Defined.
