(* ===== verification/HandshakeSpec.v ===== *)
(** * What the TLS handshake of the primary link promises

    [tls_handshake_outcome]: the connection gets a context with a finished
    handshake, or nothing is left of the attempt. [handshake_attempts]: a
    server that never answers is waited for a hundred times over. *)
From stdpp Require Import functions strings.
From S2P Require Import Prelude Bytes Ring Crypto Conn ConnInv WorldInv.
From S2P Require Import TcpSocket TcpSocketSpec LoginPack Login LoginInv Dial Additional AdditionalSpec ConnEx LoginPackSpec.

Section handshake.
Context {U : Type} (good : U -> Prop) `{HK : Kernel} `{!KernelLaws} `{HO : OpenSSL}.
Implicit Types (cw : cworld U) (s : session) (y : os) (t : tls) (pr : bool).
Abbreviation W cw s y t pr := (DWorld (LWorld cw s) y t pr).

(** The fields of the handshake, and nothing else. *)
Definition shaken cw cw' : Prop :=
  exists st ctx ssl, w_conn cw' = (w_conn cw) <| c_state := st |> <| c_ssl_ctx := ctx |> <| c_ssl := ssl |> /\
    st = (if c_socket_fd (w_conn cw) <? 0 then c_state (w_conn cw) else STATE_TLS_HANDSHAKE) /\ w_rudp cw' = w_rudp cw /\ w_in cw' = w_in cw.

(** [r] is the result of a handshake that began in the first state. *)
Definition handshaken cw y t (r : Z) cw' y' t' : Prop :=
  world_ok good cw' /\ shaken cw cw' /\ y_open y' = y_open y /\
  (t_attempts t' <= t_attempts t + MAX_HANDSHAKE_ATTEMPTS)%nat /\ (t_calls t <= t_calls t')%nat /\
  if decide (r = ERR_NONE) then
    exists ctx, ctx <> 0 /\ allocated t t' ctx /\ c_ssl (w_conn cw') = ctx /\ c_ssl_ctx (w_conn cw') = ctx /\
      t_ssl t' = ctx :: t_ssl t /\ w_freed cw' = w_freed cw
  else (r = ERR_TLS_HANDSHAKE \/ r = ERR_TIMEOUT) /\ c_ssl (w_conn cw') = 0 /\ t_ssl t' = t_ssl t /\
    (w_freed cw' = w_freed cw /\ c_ssl_ctx (w_conn cw') = c_ssl_ctx (w_conn cw) \/
     exists p, allocated t t' p /\ w_freed cw' = p :: w_freed cw /\ c_ssl_ctx (w_conn cw') = 0).

Lemma world_same cw c : world_ok good cw -> conn_ok (w_freed cw) c -> world_ok good (cw <| w_conn := c |>).
Proof. by intros (_ & ? & ?) ?. Qed.

(** A new context becomes the primary link's. *)
Lemma conn_primary freed c ctx st : conn_ok freed c -> c_ssl c = 0 -> ctx <> 0 -> ctx ∉ freed -> ctx ∉ owners c ->
  conn_ok freed (c <| c_state := st |> <| c_ssl_ctx := ctx |> <| c_ssl := ctx |>).
Proof.
  intros (Hq & [(Hl & Hs & Hn & Hf & H0) Hc] & Hst & Hfi) E Hne Hfr Hown.
  split; [exact Hq|]. split; [|by split]. split; [|exact Hc]. split; [exact Hl|]. split; [exact Hs|].
  set (c' := c <| c_state := st |> <| c_ssl_ctx := ctx |> <| c_ssl := ctx |>).
  assert (Eo : owners c' = ctx :: owners c).
  { unfold owners, c'. cbn [c_ssl c_additional upd]. rewrite E, (filter_cons_True _ ctx) by done.
    by rewrite (filter_cons_False _ 0) by (intros Hx; by apply Hx). }
  rewrite Eo. split; [by constructor|]. split; [by constructor|done].
Qed.

Lemma handshake_wp cw s y t pr : world_ok good cw -> c_ssl (w_conn cw) = 0 -> fresh_contexts cw t ->
  wpf False perform_tls_handshake (fun r w => exists cw' y' t', w = W cw' s y' t' pr /\ handshaken cw y t r cw' y' t') (W cw s y t pr).
Proof.
  intros Hw Ez Hfresh. unfold perform_tls_handshake. apply conn_read_step.
  apply wpf_if; intros Hfd0.
  { wpf_step. exists cw, y, t. split; [done|]. split; [done|]. split.
    { exists (c_state (w_conn cw)), (c_ssl_ctx (w_conn cw)), (c_ssl (w_conn cw)). rewrite Hfd0. by destruct (w_conn cw). }
    split; [done|]. split; [lia|]. split; [lia|]. split; [by left|]. split; [done|]. split; [done|]. by left. }
  eapply (conn_step _ _ _ (fun _ v => v = cw <| w_conn := (w_conn cw) <| c_state := STATE_TLS_HANDSHAKE |> |>)); [done|].
  intros [] v ->. set (v := cw <| w_conn := _ |>). assert (Hv : world_ok good v) by (apply world_same; [done|]; apply Hw).
  apply session_step. eapply (os_step _ _ _ (fun _ y' => y_open y' = y_open y)).
  { unfold set_timeouts, setsockopt. wp_step. wp_step. apply wp_note. apply wp_sys. wp_step. apply wp_sys. by wp_step. }
  intros [] y1 Ey1.
  eapply tls_step; [apply create_client_wp|]. intros ctx t1 (Et1 & Ea1 & Hc1 & Hctx). wpf_step.
  { wpf_step. exists v, y1, t1. split; [done|]. split; [done|]. split.
    { exists STATE_TLS_HANDSHAKE, (c_ssl_ctx (w_conn cw)), (c_ssl (w_conn cw)). rewrite Hfd0. unfold v. cbn. by destruct (w_conn cw). }
    split; [done|]. split; [lia|]. split; [lia|]. split; [by left|]. split; [done|]. split; [done|]. by left. }
  destruct Hctx as [->|((n & Hcn & ->) & H0)]; [done|]. set (ctx := o_calloc n) in *. destruct (Hfresh n ltac:(lia) H0) as (Hfr & Hown & Hts0).
  eapply (conn_step _ _ _ (fun _ v' => v' = v <| w_conn := (w_conn v) <| c_ssl_ctx := ctx |> |>)); [done|].
  intros [] v' ->. set (v' := v <| w_conn := _ |>). assert (Hv' : world_ok good v') by (apply world_same; [done|]; apply Hv).
  eapply tls_step; [apply ssl_connect_wp|]. intros r t2 (Hatt & Hc2 & Hok & Hbad). rewrite Et1 in Hok, Hbad. rewrite Ea1 in Hatt. wpf_step.
  - specialize (Hbad ltac:(lia) Hts0).
    eapply (tls_step _ _ _ (fun _ t' => t_ssl t' = t_ssl t2 /\ t_attempts t' = t_attempts t2 /\ (t_calls t2 <= t_calls t')%nat)); [by split_and!; [..|cbn; lia]|].
    intros e t3 (Et3 & Ea3 & Hcl3).
    unfold ssl_destroy_ctx. apply wpf_bind. eapply (conn_step _ _ _ (fun _ u => u = v' <| w_freed := ctx :: w_freed v' |>)).
    { apply wpf_wp. unfold ssl_destroy. wp_step. apply deref_ssl_wp; [done|]. by wp_step. }
    intros [] u ->. set (u := v' <| w_freed := _ |>). assert (Hu : world_ok good u) by (by apply world_freed).
    unfold wpf at 1, on_tls at 1, ssl_free at 1, modify at 1. cbn [d_tls]. set (t4 := upd t_ssl _ t3).
    assert (Et4 : t_ssl t4 = t_ssl t) by (unfold t4; cbn; rewrite Et3, Hbad; by apply filter_without).
    assert (Ea4 : t_attempts t4 = t_attempts t3) by done. assert (Hc4 : t_calls t4 = t_calls t3) by done. clearbody t4.
    change (wpf False (on_conn (modify_conn (fun c => c <| c_ssl_ctx := 0 |>)) ;; mret (if e =? EAGAIN then ERR_TIMEOUT else ERR_TLS_HANDSHAKE))
      (fun r w => exists cw' y' t', w = W cw' s y' t' pr /\ handshaken cw y t r cw' y' t') (W u s y1 t4 pr)).
    eapply (conn_step _ _ _ (fun _ u' => u' = u <| w_conn := (w_conn u) <| c_ssl_ctx := 0 |> |>)); [done|].
    intros [] u' ->. wpf_step. eexists _, y1, t4. split; [done|]. split; [by apply world_same; [|apply Hu]|].
    split. { exists STATE_TLS_HANDSHAKE, 0, (c_ssl (w_conn cw)). rewrite Hfd0. cbn. by destruct (w_conn cw). }
    split; [done|]. split; [rewrite Ea4, Ea3; lia|]. split; [lia|]. rewrite decide_False by (by destruct (e =? EAGAIN)).
    split; [destruct (e =? EAGAIN); [by right|by left]|]. split; [done|]. split; [done|]. right. exists ctx. split; [exists n; split; [lia|done]|done].
  - destruct (Hok ltac:(lia)) as [_ Et2].
    eapply (conn_step _ _ _ (fun _ u => u = v' <| w_conn := (w_conn v') <| c_ssl := ctx |> |>)); [done|].
    intros [] u ->. eapply (os_step _ _ _ (fun _ y' => y_open y' = y_open y)).
    { unfold setsockopt. wp_step. wp_step. apply wp_note. apply wp_sys. by wp_step. }
    intros [] y2 Ey2. wpf_step. eexists _, y2, t2. split; [done|]. split.
    { apply world_same; [done|]. apply (conn_primary _ (w_conn cw)); try done. apply Hw. }
    split. { exists STATE_TLS_HANDSHAKE, ctx, ctx. by rewrite Hfd0. }
    split; [done|]. split; [lia|]. split; [lia|]. rewrite decide_True by done. exists ctx. split; [done|].
    split; [exists n; split; [lia|done]|by split_and!].
Qed.
End handshake.

(** C40: the handshake of the primary link. From a well-formed connection
    without a TLS context, whatever OpenSSL and the sockets do, the handshake
    returns; on success the connection uses one new context with a finished
    handshake for sending and receiving; on failure it has no context, the one
    that was made is destroyed with its SSL object, and the error is a TLS
    failure or a timeout. [SSL_do_handshake] is called at most a hundred times,
    and the connection stays well formed. *)
Theorem tls_handshake_outcome {U} (good : U -> Prop) `{KernelLaws} `{OpenSSL} (w : dworld U) :
  world_ok good (l_world (d_l w)) -> c_ssl (w_conn (l_world (d_l w))) = 0 -> fresh_contexts (l_world (d_l w)) (d_tls w) ->
  exists r w', perform_tls_handshake w = Ok (r, w') /\ l_session (d_l w') = l_session (d_l w) /\
    handshaken good (l_world (d_l w)) (d_os w) (d_tls w) r (l_world (d_l w')) (d_os w') (d_tls w').
Proof.
  intros Hw Hz Hf. destruct w as [[cw s] y t pr]. pose proof (handshake_wp good cw s y t pr Hw Hz Hf) as Hwp. unfold wpf in Hwp.
  destruct (perform_tls_handshake _) as [| |[r w']]; [done|done|]. destruct Hwp as (cw' & y' & t' & -> & Hp).
  exists r, (DWorld (LWorld cw' s) y' t' pr). done.
Qed.

(** ** A server that never answers *)

(** Every attempt of a handshake whose peer is silent ends like one that needs
    more data, when the socket timeout has passed. *)
Definition silent `{OpenSSL} : Prop := forall n, o_handshake n = HsWant.

Lemma handshake_attempts `{OpenSSL} p fd t : silent -> (forall n, o_ssl_new n = true) -> (forall n, o_set_fd n = 1) -> p <> 0 ->
  wp (ssl_connect p fd) (fun r t' => r = -1 /\ t_attempts t' = (t_attempts t + MAX_HANDSHAKE_ATTEMPTS)%nat) t.
Proof.
  intros Hs Hn Hf Hp.
  assert (Hd : forall n t, wp (do_handshake n) (fun d t' => d = false /\ t_attempts t' = (t_attempts t + n)%nat) t).
  { induction n as [|n IH]; intros u; cbn [do_handshake]; [by wp_step; split; [|lia]|].
    wp_step. unfold wp at 1, modify. wp_step. unfold wp at 1, ossl. rewrite Hs. eapply wp_mono; [apply IH|].
    intros d t' [-> E]. cbn in E. split; [done|lia]. }
  unfold ssl_connect. wp_step; [lia|]. wp_step. unfold wp at 1, ossl. rewrite Hn. cbn [negb].
  wp_step. unfold wp at 1, modify. wp_step. unfold wp at 1. rewrite Hf. change (negb (1 =? 1)) with false. cbv iota.
  wp_step. eapply wp_mono; [apply Hd|]. intros d t2 [-> E]. cbn [negb]. wp_step. unfold ssl_free. wp_step. wp_step. by split.
Qed.

(** The handshake is not bounded by the connect timeout. The comment at the
    socket timeout promises that a server which stalls inside TLS cannot hold
    the connect beyond it. With a server that stays silent, and everything else
    in order, the handshake fails only after a hundred attempts, and each may
    last for the whole timeout that was set on the descriptor. *)
Theorem handshake_waits_hundredfold {U} `{Kernel} `{OpenSSL} (w : dworld U) :
  let cw := l_world (d_l w) in
  silent -> (forall n, o_calloc n <> 0 /\ o_calloc n ∉ w_freed cw) -> (forall n, o_ctx_new n = true) ->
  (forall n, o_ssl_new n = true) -> (forall n, o_set_fd n = 1) -> 0 <= c_socket_fd (w_conn cw) ->
  exists r w' l, perform_tls_handshake w = Ok (r, w') /\ r <> ERR_NONE /\
    t_attempts (d_tls w') = (t_attempts (d_tls w) + 100)%nat /\
    y_log (d_os w') = y_log (d_os w) ++ OTimeout (c_socket_fd (w_conn cw)) (handshake_timeout (s_timeout_ms (l_session (d_l w)))) :: l.
Proof.
  intros cw Hs Hcal Hctx Hnew Hset Hfd. destruct w as [[cw0 s] y t pr]. cbn in cw. subst cw.
  assert (Hwp : wpf False perform_tls_handshake (fun r w' => exists l, r <> ERR_NONE /\
    t_attempts (d_tls w') = (t_attempts t + 100)%nat /\
    y_log (d_os w') = y_log y ++ OTimeout (c_socket_fd (w_conn cw0)) (handshake_timeout (s_timeout_ms s)) :: l) (DWorld (LWorld cw0 s) y t pr)).
  { unfold perform_tls_handshake. apply conn_read_step. wpf_step; [cbn in *; lia|].
    eapply (conn_step _ _ _ (fun _ v => v = cw0 <| w_conn := (w_conn cw0) <| c_state := STATE_TLS_HANDSHAKE |> |>)); [done|].
    intros [] v ->. apply session_step.
    eapply (os_step _ _ _ (fun _ y' => y_log y' = y_log y ++ [OTimeout (c_socket_fd (w_conn cw0)) (handshake_timeout (s_timeout_ms s))])).
    { unfold set_timeouts, setsockopt. wp_step. wp_step. apply wp_note. apply wp_sys. wp_step. apply wp_sys. by wp_step. }
    intros [] y1 Ey1. eapply (tls_step _ _ _ (fun p t' => (exists n, p = o_calloc n) /\ t_attempts t' = t_attempts t)).
    { unfold ssl_create_client. wp_step. unfold wp at 1, ossl. wp_step; [by destruct (Hcal (t_calls t)); lia|].
      wp_step. unfold wp at 1. rewrite Hctx. wp_step. split; [by eexists|done]. }
    intros ctx t1 [[n ->] Ea]. destruct (Hcal n) as [Hp0 Hfr]. wpf_step; [lia|].
    eapply (conn_step _ _ _ (fun _ v => w_freed v = w_freed cw0)); [done|]. intros [] v Ev.
    eapply tls_step; [by apply handshake_attempts|]. intros r t2 [-> Et2]. cbn [negb Z.eqb].
    eapply (tls_step _ _ _ (fun _ t' => t_attempts t' = t_attempts t2)); [done|]. intros e t3 Et3.
    unfold ssl_destroy_ctx. apply wpf_bind. eapply (conn_step _ _ _ (fun _ _ => True)).
    { apply wpf_wp. unfold ssl_destroy. wp_step. apply deref_ssl_wp; [by rewrite Ev|]. by wp_step. }
    intros [] u _. unfold wpf at 1, on_tls at 1, ssl_free at 1, modify at 1. cbn [d_tls].
    exists []. split; [|split; [|exact Ey1]].
    - by destruct (e =? EAGAIN).
    - cbn. rewrite Et3, Et2, Ea. done. }
  unfold wpf in Hwp. destruct (perform_tls_handshake _) as [| |[r w']]; [done|done|]. destruct Hwp as [l ?]. by exists r, w', l.
Qed.

(** ** Concrete handshakes *)

(** A connection with a connected descriptor and no TLS context. *)
Definition ex_plain : connection := ex_created <| c_socket_fd := 7 |>.
Lemma ex_plain_ok : conn_ok [] ex_plain.
Proof.
  assert (Hc : conn_ok [] ex_created).
  { apply create_ok; [done| |by intros ?%elem_of_nil]. unfold len, zeros. rewrite length_replicate. done. }
  exact Hc.
Qed.
Definition ex_handshake : dworld unit :=
  DWorld (LWorld (CWorld ex_plain None (fun _ => []) (fun _ => []) (fun _ => []) [] [] 0 0 [] []) ex_session) ex_os (TlsState 0 0 []) false.

Lemma tls_handshake_outcome_witness :
  exists r w', perform_tls_handshake ex_handshake = Ok (r, w') /\ r = ERR_NONE /\
    c_ssl (w_conn (l_world (d_l w'))) = c_ssl_ctx (w_conn (l_world (d_l w'))) /\ c_ssl (w_conn (l_world (d_l w'))) <> 0.
Proof.
  destruct (tls_handshake_outcome (fun _ : unit => True) ex_handshake) as (r & w' & E & _ & Hh).
  - split; [exact ex_plain_ok|]. split; [|done]. intros ch. constructor.
  - reflexivity.
  - intros n Hn p Hp. split; [|split]; apply (bool_decide_unpack _); vm_compute; exact I.
  - assert (Hr : match perform_tls_handshake ex_handshake with Ok (r, _) => r =? ERR_NONE | _ => false end = true) by (vm_compute; reflexivity).
    rewrite E in Hr. apply Z.eqb_eq in Hr. exists r, w'. split; [exact E|]. split; [exact Hr|].
    destruct Hh as (_ & _ & _ & _ & _ & Hres). rewrite decide_True in Hres by exact Hr.
    destruct Hres as (ctx & Hne & _ & E1 & E2 & _). rewrite E1, E2. split; [reflexivity|exact Hne].
Defined.

Definition ex_silent : OpenSSL := {|
  o_calloc _ := 100; o_ctx_new _ := true; o_ssl_new _ := true; o_set_fd _ := 1; o_handshake _ := HsWant; o_errno _ := EAGAIN |}.
Lemma handshake_waits_hundredfold_witness :
  exists r w', @perform_tls_handshake unit ex_kernel ex_silent ex_handshake = Ok (r, w') /\ r <> ERR_NONE /\
    t_attempts (d_tls w') = 100%nat.
Proof.
  destruct (@handshake_waits_hundredfold unit ex_kernel ex_silent ex_handshake) as (r & w' & l & E & Hr & Ht & _).
  - intros n. reflexivity.
  - intros n. split; [discriminate|apply (bool_decide_unpack _); vm_compute; exact I].
  - intros n. reflexivity.
  - intros n. reflexivity.
  - intros n. reflexivity.
  - vm_compute. discriminate.
  - exists r, w'. split; [exact E|]. split; [exact Hr|exact Ht].
Defined.
