(* ===== verification/NatT.v ===== *)
(** * The NAT-T rendezvous (proto/softether_nat_t.c)

    A client behind a NAT asks a relay, over UDP, for the public address of the
    server: [nat_t_connect_internal] finds the relay of the server's address,
    opens a socket, and repeats the request with a growing interval until the
    relay answers, the deadline passes or the caller cancels.

    An IPv4 address is the number whose big-endian bytes are in memory. The
    state is the sockets of [TcpSocket], the answers of [poll] and [recvfrom]
    to come ([n_events]; nothing waits behind the last one), and the requests
    that were sent with their ticks. The clock, the random bytes, SHA-1, the
    allocator and the text form of addresses are parameters. Nothing but the
    descriptor is released by the code. *)
From stdpp Require Import functions strings.
From S2P Require Import Prelude Bytes Ring Pack.
Import Writer Reader.
From S2P Require Import TcpSocket Http.

Definition NAT_T_RESP_BUF_SIZE : Z := 4096.
Definition NAT_T_HOSTNAME_MAX : Z := 96.
Definition NAT_T_PORT : Z := 5004.
Definition NAT_T_SVC_NAME : list Z := str "SoftEther_VPN".
Definition NAT_T_TRAVERSAL_VERSION : Z := 1.
Definition NAT_T_DEFAULT_TIMEOUT_MS : Z := 12000.
Definition NAT_T_CONNECT_INTERVAL : Z := 200.
Definition NAT_T_MAX_BACKOFF_EXP : Z := 6.

Definition NAT_T_ERR_OK : Z := 0.
Definition NAT_T_ERR_UNKNOWN : Z := 1.
Definition NAT_T_ERR_GETIP_FAILED : Z := 3.
Definition NAT_T_ERR_NO_RESPONSE : Z := 4.
Definition NAT_T_ERR_TWO_OR_MORE : Z := 5.
Definition NAT_T_ERR_NOT_FOUND : Z := 6.

Record nat_t_result := NatResult {
  result_ip : Z; result_port : Z; same_lan : Z; udp_fd : Z; error_code : Z }.
#[export] Instance eta_result : Eta nat_t_result := fun r => NatResult
  (result_ip r) (result_port r) (same_lan r) (udp_fd r) (error_code r).

(** What [poll] and [recvfrom] find: nothing, a failed or empty read, or a
    datagram with its sender. *)
Inductive event : Type :=
| EvNone
| EvFail
| EvData (family ip port : Z) (bytes : list Z).

Record nat_world := NatWorld {
  n_os : os; n_ticks : nat; n_events : list event; n_sent : list (Z * list Z); n_waits : list Z }.
#[export] Instance eta_nat : Eta nat_world := fun w => NatWorld
  (n_os w) (n_ticks w) (n_events w) (n_sent w) (n_waits w).

(** ** The relay's name *)

Definition hex_digit (n : Z) : Z := if n <? 10 then 48 + n else 87 + n.
Definition NAT_T_RELAY_TAG_PRIMARY : list Z := str ".servers.nat-traversal.softether-network.net.".
Definition NAT_T_RELAY_TAG_ALT : list Z := str ".servers.nat-traversal.uxcom.jp.".

(** The third and the fourth hexadecimal digit of the hash of the address. *)
Definition nat_t_build_hostname_internal (sha1 : list Z -> list Z) (server_ip : Z) (use_alt : bool) (dst_size : Z) :
  option (list Z) :=
  if dst_size <? NAT_T_HOSTNAME_MAX then None else
  let hash := sha1 (be_enc 4 server_ip) in
  let tmp2 := hex_digit (Z.land (Z.shiftr (nth 1 hash 0) 4) 15) in
  let tmp3 := hex_digit (Z.land (nth 1 hash 0) 15) in
  Some (tk (dst_size - 1) (str "x" ++ [tmp2] ++ str ".x" ++ [tmp3] ++
                           (if use_alt then NAT_T_RELAY_TAG_ALT else NAT_T_RELAY_TAG_PRIMARY))).
Definition nat_t_build_hostname (sha1 : list Z -> list Z) (server_ip dst_size : Z) : option (list Z) :=
  nat_t_build_hostname_internal sha1 server_ip false dst_size.

(** ** The relay's answer *)

(** The result of a getter whose failure is looked at, or ignored. *)
Definition got {A} (r : res A) : res (option A) :=
  match r with Ub => Ub | Err => Ok None | Ok a => Ok (Some a) end.

Section nat.
Context `{Kernel} (clock : nat -> Z) (bind : nat -> Z) (rnd : list Z) (malloc : Z -> option (list Z))
        (sha1 : list Z -> list Z) (inet_ntop4 : Z -> list Z) (inet_pton4 : list Z -> option Z) (addr : Z).
Abbreviation M := (St nat_world).

Definition name (s : string) : option (list Z) := Some (str s).

(** The address a successful answer grants; [None] leaves the answer
    ignored. *)
Definition nat_t_granted (m : mem) (result : nat_t_result) : res (option nat_t_result) :=
  ip ← got (pack_get_str (Some m) (name "result_ip") 16);
  match ip with
  | None => Ok None
  | Some result_ip_str =>
      port ← got (pack_get_int (Some m) (name "result_port"));
      match port with
      | None => Ok None
      | Some p =>
          if (p =? 0) || (p >? 65535) then Ok None else
          match inet_pton4 (cstr result_ip_str) with
          | None => Ok None
          | Some a =>
              if a =? 0 then Ok None else
              lan ← got (pack_get_int (Some m) (name "same_lan"));
              Ok (Some (NatResult a (u16 p) (int32 (default 0 lan)) (udp_fd result) NAT_T_ERR_OK))
          end
      end
  end.

(** 1 for a success, 0 for an answer to ignore, -1 for a definite error, with
    the cookie and the result. *)
Definition nat_t_parse_response (m : mem) (tran_id current_cookie : Z) (result : nat_t_result) :
  res (Z * Z * nat_t_result) :=
  c ← got (pack_get_int64 (Some m) (name "cookie"));
  let cookie := match c with Some v => if v =? 0 then current_cookie else v | None => current_cookie end in
  t ← got (pack_get_int64 (Some m) (name "tran_id"));
  if negb (bool_decide (t = Some tran_id)) then Ok (0, cookie, result) else
  op ← got (pack_get_str (Some m) (name "opcode") 64);
  if negb (bool_decide (cstr <$> op = name "nat_t_connect_request")) then Ok (0, cookie, result) else
  ok ← got (pack_get_int (Some m) (name "ok"));
  if negb (default 0 ok =? 0) then
    g ← nat_t_granted m result;
    Ok (match g with Some r => (1, cookie, r) | None => (0, cookie, result) end)
  else
    multi ← got (pack_get_int (Some m) (name "multi_candidates"));
    Ok (-1, cookie, result <| error_code := if default 0 multi =? 0 then NAT_T_ERR_NOT_FOUND else NAT_T_ERR_TWO_OR_MORE |>).

(** The inner loop: answers are read until nothing waits or one is decisive. *)
Fixpoint nat_t_drain (relay_ip tran_id : Z) (events : list event) (cookie : Z) (result : nat_t_result) :
  res (Z * Z * nat_t_result * list event) :=
  match events with
  | [] => Ok (0, cookie, result, [])
  | EvNone :: rest | EvFail :: rest => Ok (0, cookie, result, rest)
  | EvData family ip port bytes :: rest =>
      if len bytes =? 0 then Ok (0, cookie, result, rest) else
      if negb ((family =? AF_INET) && (ip =? relay_ip) && (port =? NAT_T_PORT))
      then nat_t_drain relay_ip tran_id rest cookie result else
      '(st, cookie, result) ←
        nat_t_parse_response (Mem 64 addr (tk NAT_T_RESP_BUF_SIZE bytes)) tran_id cookie result;
      if st =? 0 then nat_t_drain relay_ip tran_id rest cookie result
      else Ok (st, cookie, result, rest)
  end.

(** ** The request *)

(** An element whose failure is ignored. *)
Definition pack_try (add : option pack -> res pack) (p : pack) : res pack :=
  match add (Some p) with Err => Ok p | r => r end.

(** The message, or [None] when the allocator has no block for it. *)
Definition nat_t_request (tran_id server_ip cookie : Z) (hint target svc : list Z) : res (option (list Z)) :=
  match pack_new malloc with
  | None => Ok None
  | Some p =>
      let add_str n v p := pack_add_str malloc p (name n) (Some v) in
      p ← pack_try (add_str "opcode" (str "nat_t_connect_request")) p;
      p ← pack_try (fun p => pack_add_int64 malloc p (name "tran_id") tran_id) p;
      p ← pack_try (add_str "dest_ip" (inet_ntop4 server_ip)) p;
      p ← pack_try (fun p => pack_add_int64 malloc p (name "cookie") cookie) p;
      p ← (if bool_decide (hint = []) then Ok p else pack_try (add_str "hint" hint) p);
      p ← (if bool_decide (target = []) then Ok p else pack_try (add_str "target_hostname" target) p);
      p ← pack_try (add_str "svc_name" svc) p;
      p ← pack_try (fun p => pack_add_int malloc p (name "nat_traversal_version") NAT_T_TRAVERSAL_VERSION) p;
      bs ← fetch 0 (pack_length (Some p)) (default [] (pack_data (Some p)));
      Ok (Some bs)
  end.

(** ** The exchange *)

Definition on_os {A} (m : St os A) : M A := fun w =>
  match m (n_os w) with Ub => Ub | Err => Err | Ok (a, y) => Ok (a, w <| n_os := y |>) end.

Definition nat_t_tick_ms : M Z := fun w => Ok (clock (n_ticks w), w <| n_ticks := S (n_ticks w) |>).

Definition sin_addr (sa : list Z) : Z := r32 (slice 4 4 sa).

Definition nat_t_resolve_relay (hostname : list Z) : M (option Z) :=
  r ← on_os (sys (fun n => k_getaddrinfo n hostname None AF_INET));
  mret (ai ← head (filter (fun ai => ai_family ai = AF_INET) (default [] r)); Some (sin_addr (ai_addr ai))).

Definition nat_t_create_udp_socket : M (option Z) :=
  fd ← on_os (sys_socket AF_INET SOCK_DGRAM);
  if fd <? 0 then mret None else
  r ← on_os (sys bind);
  if negb (r =? 0) then on_os (sys_close fd) ;; mret None else mret (Some fd).

Definition nat_t_tran_id : Z :=
  let id := fold_left (fun a b => Z.lor (u64 (Z.shiftl a 8)) b) rnd 0 in
  if id =? 0 then 11400714819323198485 else id.

(** The interval after the given number of requests. *)
Definition nat_t_interval (num_tries : Z) : Z :=
  NAT_T_CONNECT_INTERVAL * Z.shiftl 1 (if num_tries <? NAT_T_MAX_BACKOFF_EXP then num_tries else NAT_T_MAX_BACKOFF_EXP).

Definition nat_t_wait_ms (next_send_tick now : Z) : Z :=
  if next_send_tick >? now then (if next_send_tick - now <? 50 then next_send_tick - now else 50) else 50.

(** The constants of one exchange. *)
Record exchange := Exchange {
  x_server : Z; x_relay : Z; x_fd : Z; x_tran : Z; x_giveup : Z;
  x_hint : list Z; x_target : list Z; x_svc : list Z; x_cancellable : bool }.

Definition nat_t_send (x : exchange) (now cookie : Z) : M unit :=
  b ← lift (nat_t_request (x_tran x) (x_server x) cookie (x_hint x) (x_target x) (x_svc x));
  match b with
  | None => mret tt
  | Some bs => modify (fun w => w <| n_sent := n_sent w ++ [(now, bs)] |>)
  end.

Definition nat_t_give_up (x : exchange) (result : nat_t_result) : M (Z * nat_t_result) :=
  on_os (sys_close (x_fd x)) ;; mret (-1, result <| error_code := NAT_T_ERR_NO_RESPONSE |>).

Fixpoint nat_t_loop (fuel : nat) (x : exchange) (next_send_tick cookie num_tries : Z) (result : nat_t_result) :
  M (Z * nat_t_result) :=
  match fuel with
  | O => fun _ => Err
  | S fuel =>
      now ← nat_t_tick_ms;
      if now >=? x_giveup x then nat_t_give_up x result else
      cancel ← (if x_cancellable x then on_os (sys k_cancel) else mret false);
      if (cancel : bool) then nat_t_give_up x result else
      events ← gets n_events;
      '(st, cookie, result, events) ← lift (nat_t_drain (x_relay x) (x_tran x) events cookie result);
      modify (fun w => w <| n_events := events |>) ;;
      if st =? 1 then
        if same_lan result =? 0 then mret (0, result <| udp_fd := x_fd x |>)
        else on_os (sys_close (x_fd x)) ;; mret (0, result <| udp_fd := -1 |>)
      else if st <? 0 then on_os (sys_close (x_fd x)) ;; mret (-1, result)
      else
        let due := (next_send_tick =? 0) || (now >=? next_send_tick) in
        when due (nat_t_send x now cookie) ;;
        let next_send_tick := if due then u64 (now + nat_t_interval num_tries) else next_send_tick in
        let num_tries := if due then num_tries + 1 else num_tries in
        modify (fun w => w <| n_waits := n_waits w ++ [nat_t_wait_ms next_send_tick now] |>) ;;
        nat_t_loop fuel x next_send_tick cookie num_tries result
  end.

(** The relay's address: the alternative name is tried when the first does not
    resolve. *)
Definition nat_t_find_relay (server_ip : Z) (use_alt : bool) : M (option Z) :=
  match nat_t_build_hostname_internal sha1 server_ip use_alt NAT_T_HOSTNAME_MAX with
  | None => mret None
  | Some relay_hostname =>
      r ← nat_t_resolve_relay relay_hostname;
      match r with
      | Some ip => mret (Some ip)
      | None =>
          if use_alt then mret None else
          match nat_t_build_hostname_internal sha1 server_ip true NAT_T_HOSTNAME_MAX with
          | None => mret None
          | Some alt => nat_t_resolve_relay alt
          end
      end
  end.

(** The empty string stands for NULL in [svc_name], [hint] and
    [target_hostname], which the code treats alike. *)
Definition nat_t_connect_internal (fuel : nat) (server_ip : Z) (svc_name hint target_hostname : list Z)
  (timeout_ms : Z) (cancellable use_alt : bool) : M (Z * nat_t_result) :=
  let result := NatResult 0 0 0 (-1) NAT_T_ERR_UNKNOWN in
  let timeout_ms := if timeout_ms =? 0 then NAT_T_DEFAULT_TIMEOUT_MS else timeout_ms in
  let svc := if bool_decide (svc_name = []) then NAT_T_SVC_NAME else svc_name in
  relay ← nat_t_find_relay server_ip use_alt;
  match relay with
  | None => mret (-1, result <| error_code := NAT_T_ERR_GETIP_FAILED |>)
  | Some relay_ip =>
      fd ← nat_t_create_udp_socket;
      match fd with
      | None => mret (-1, result)
      | Some fd =>
          start ← nat_t_tick_ms;
          nat_t_loop fuel (Exchange server_ip relay_ip fd nat_t_tran_id (u64 (start + timeout_ms))
                             hint target_hostname svc cancellable) 0 0 0 result
      end
  end.

Definition nat_t_connect (fuel : nat) (server_ip : Z) (svc_name : list Z) (timeout_ms : Z) (cancellable : bool) :=
  nat_t_connect_internal fuel server_ip svc_name [] [] timeout_ms cancellable false.
Definition nat_t_connect_alt (fuel : nat) (server_ip : Z) (svc_name : list Z) (timeout_ms : Z) (cancellable : bool) :=
  nat_t_connect_internal fuel server_ip svc_name [] [] timeout_ms cancellable true.
Definition nat_t_connect_ex (fuel : nat) (server_ip : Z) (svc_name hint target_hostname : list Z) (timeout_ms : Z)
  (cancellable : bool) :=
  nat_t_connect_internal fuel server_ip svc_name hint target_hostname timeout_ms cancellable false.
End nat.
