(* ===== verification/NatTInv.v ===== *)
(** * The rendezvous step by step

    [reply_of] is the reference reading of an answer. The exchange is followed
    through [wp]: it owns one descriptor besides those of the caller, its
    requests are paced, and it ends by the deadline. *)
From stdpp Require Import functions strings.
From S2P Require Import Prelude Bytes Ring Pack PackSpec.
Import Writer Reader Spec Reader_correct Writer_correct.
From S2P Require Import TcpSocket TcpSocketSpec Http HttpSpec PackRead NatT.

(** ** Answers *)

Section reply.
Context (inet_pton4 : list Z -> option Z).

(** The address an element list grants. *)
Definition granted_of (es : list elem) (fd : Z) : option nat_t_result :=
  ip ← es_str es "result_ip" 16;
  p ← es_int es "result_port";
  if (p =? 0) || (p >? 65535) then None else
  a ← inet_pton4 ip;
  if a =? 0 then None else Some (NatResult a p (int32 (default 0 (es_int es "same_lan"))) fd NAT_T_ERR_OK).

(** The cookie of an answer counts whosever transaction it belongs to. *)
Definition cookie_of (es : list elem) (cookie : Z) : Z :=
  match es_int64 es "cookie" with Some v => if v =? 0 then cookie else v | None => cookie end.

Definition ours (es : list elem) (tran_id : Z) : bool :=
  bool_decide (es_int64 es "tran_id" = Some tran_id) &&
  bool_decide (es_str es "opcode" 64 = Some (str "nat_t_connect_request")).

Definition reply_of (es : list elem) (tran_id cookie : Z) (result : nat_t_result) : Z * Z * nat_t_result :=
  let cookie := cookie_of es cookie in
  if negb (ours es tran_id) then (0, cookie, result)
  else if default 0 (es_int es "ok") =? 0 then
    (-1, cookie, result <| error_code :=
       if default 0 (es_int es "multi_candidates") =? 0 then NAT_T_ERR_NOT_FOUND else NAT_T_ERR_TWO_OR_MORE |>)
  else match granted_of es (udp_fd result) with
       | Some r => (1, cookie, r)
       | None => (0, cookie, result)
       end.

Lemma got_of_opt {A} (o : option A) : got (of_opt o) = Ok o.
Proof. by destruct o. Qed.

Section reads.
Context (m : mem) (es : list elem) (Hr : reads m es).

(** A string field is looked at as the C string it holds. *)
Lemma got_str name cap : 0 < cap < 2 ^ 32 ->
  exists o, got (pack_get_str (Some m) (Some (str name)) cap) = Ok o /\ option_map cstr o = es_str es name cap.
Proof.
  intros Hc. pose proof (get_str_named m es Hr name cap Hc) as E.
  destruct (pack_get_str _ _ _) as [| |s], (es_str es name cap); cbn in *; try done; [by exists None|].
  exists (Some s). split; [done|]. by injection E as <-.
Qed.

Lemma granted_at result : nat_t_granted inet_pton4 m result = Ok (granted_of es (udp_fd result)).
Proof.
  pose proof Hr as (_ & Hes & _). unfold nat_t_granted, granted_of, name.
  rewrite !(get_int_named m es Hr), !got_of_opt.
  destruct (got_str "result_ip" 16) as (o & -> & <-); [lia|]. rewrite bind_ok. destruct o as [ip|]; [|done]. cbn [option_map].
  rewrite bind_ok. destruct (es_int es "result_port") as [p|] eqn:Ep; [|done]. cbn.
  destruct (_ || _) eqn:Hp; [done|]. destruct (inet_pton4 (cstr ip)) as [a|]; [|done]. cbn.
  destruct (a =? 0); [done|]. apply es_int_range in Ep; [|done]. unfold u16. by rewrite Z.mod_small by lia.
Qed.

Lemma reply_at tran_id cookie result :
  nat_t_parse_response inet_pton4 m tran_id cookie result = Ok (reply_of es tran_id cookie result).
Proof.
  unfold nat_t_parse_response, reply_of, name. rewrite !(get_int64_named m es Hr), !(get_int_named m es Hr), !got_of_opt, !bind_ok.
  fold (cookie_of es cookie). unfold ours.
  destruct (bool_decide (es_int64 es "tran_id" = _)); cbn [negb andb]; [|done].
  destruct (got_str "opcode" 64) as (o & -> & <-); [lia|]. rewrite bind_ok. change (cstr <$> o) with (option_map cstr o).
  destruct (bool_decide (option_map cstr o = _)); cbn [negb]; [|done].
  destruct (default 0 (es_int es "ok") =? 0); cbn [negb]; [done|].
  rewrite granted_at, bind_ok. by destruct (granted_of es _).
Qed.
End reads.
End reply.

(** ** Any bytes *)

Lemma got_safe {A} (P : A -> Prop) (r : res A) : safe P r ->
  exists o, got r = Ok o /\ forall a, o = Some a -> P a.
Proof. destruct r as [| |a]; cbn; [done|by exists None|]. intros Ha. exists (Some a). split; [done|]. by intros ? [= <-]. Qed.

Ltac getter H :=
  let o := fresh "o" in let E := fresh "E" in let Ho := fresh "Ho" in
  destruct (got_safe _ _ H) as (o & E & Ho); rewrite E, bind_ok; clear E.

(** What a verdict leaves in the result: nothing, a usable address, or one of
    two errors. *)
Definition reply_shape (inet_pton4 : list Z -> option Z) (st : Z) (result r : nat_t_result) : Prop :=
  udp_fd r = udp_fd result /\
  (st = 0 /\ r = result \/
   st = 1 /\ error_code r = NAT_T_ERR_OK /\ 0 < result_port r <= 65535 /\ result_ip r <> 0 /\
     (exists ip, inet_pton4 ip = Some (result_ip r)) \/
   st = -1 /\ (error_code r = NAT_T_ERR_NOT_FOUND \/ error_code r = NAT_T_ERR_TWO_OR_MORE)).

Section any.
Context (inet_pton4 : list Z -> option Z) (m : mem) (Hm : view_ok m) (Hb : bytes_ok (m_body m)).

Lemma granted_total result : exists g, nat_t_granted inet_pton4 m result = Ok g /\
  forall r, g = Some r -> reply_shape inet_pton4 1 result r.
Proof.
  unfold nat_t_granted. getter (get_str_fits m Hm Hb (name "result_ip") 16 ltac:(lia)).
  destruct o as [ip|]; [|by eexists]. getter (get_int_range m Hm Hb (name "result_port")).
  destruct o as [p|]; [|by eexists]. specialize (Ho0 p eq_refl). destruct (_ || _) eqn:Hp; [by eexists|].
  destruct (inet_pton4 (cstr ip)) as [a|] eqn:Ea; [|by eexists]. destruct (a =? 0) eqn:Ha; [by eexists|].
  getter (get_int_range m Hm Hb (name "same_lan")). eexists. split; [done|]. intros r [= <-].
  split; [done|]. right. left. cbn [error_code result_port result_ip]. unfold u16. rewrite Z.mod_small by lia.
  split; [done|]. split; [done|]. split; [lia|]. split; [lia|by eexists].
Qed.

Lemma reply_total tran_id cookie result : 0 <= cookie < 2 ^ 64 ->
  exists st c r, nat_t_parse_response inet_pton4 m tran_id cookie result = Ok (st, c, r) /\
    0 <= c < 2 ^ 64 /\ reply_shape inet_pton4 st result r.
Proof.
  intros Hc. unfold nat_t_parse_response. getter (get_int64_range m Hm Hb (name "cookie")).
  set (c := match o with Some v => if v =? 0 then cookie else v | None => cookie end).
  assert (Hc' : 0 <= c < 2 ^ 64).
  { subst c. destruct o as [v|]; [|done]. destruct (v =? 0); [done|]. by apply Ho. }
  clearbody c. assert (H0 : reply_shape inet_pton4 0 result result) by (split; [done|by left]).
  getter (get_int64_range m Hm Hb (name "tran_id")). destruct (bool_decide _); cbn [negb]; [|by do 3 eexists].
  getter (get_str_fits m Hm Hb (name "opcode") 64 ltac:(lia)). destruct (bool_decide _); cbn [negb]; [|by do 3 eexists].
  getter (get_int_range m Hm Hb (name "ok")). destruct (default 0 o2 =? 0); cbn [negb].
  - getter (get_int_range m Hm Hb (name "multi_candidates")). do 3 eexists. split; [done|]. split; [done|].
    split; [done|]. right. right. split; [done|]. cbn [error_code upd]. destruct (_ =? 0); [by left|by right].
  - destruct (granted_total result) as (g & -> & Hg). rewrite bind_ok. destruct g as [r|]; do 3 eexists; (split; [done|]); auto.
Qed.
End any.

Definition event_ok (e : event) : Prop := match e with EvData _ _ _ bs => bytes_ok bs | _ => True end.

(** A decisive answer among the events. *)
Definition answered_by (inet_pton4 : list Z -> option Z) (addr relay_ip tran_id st : Z) (events : list event)
  (result r : nat_t_result) : Prop :=
  exists bytes c c', EvData AF_INET relay_ip NAT_T_PORT bytes ∈ events /\
    nat_t_parse_response inet_pton4 (Mem 64 addr (tk NAT_T_RESP_BUF_SIZE bytes)) tran_id c result = Ok (st, c', r).

Definition addr_ok (addr : Z) : Prop := 0 <= addr /\ addr + NAT_T_RESP_BUF_SIZE + 2 ^ 32 <= 2 ^ 64.

Lemma drain_total inet_pton4 addr relay_ip tran_id events cookie result :
  addr_ok addr -> Forall event_ok events -> 0 <= cookie < 2 ^ 64 ->
  exists st c r rest, nat_t_drain inet_pton4 addr relay_ip tran_id events cookie result = Ok (st, c, r, rest) /\
    0 <= c < 2 ^ 64 /\ rest `suffix_of` events /\ reply_shape inet_pton4 st result r /\
    (st <> 0 -> answered_by inet_pton4 addr relay_ip tran_id st events result r).
Proof.
  intros Ha. assert (H0 : reply_shape inet_pton4 0 result result) by (split; [done|by left]).
  revert cookie. induction events as [|e events IH]; intros cookie He Hc.
  { exists 0, cookie, result, []. by split; [|split; [|split; [apply suffix_nil|]]]. }
  apply Forall_cons in He as [He Hes].
  assert (Hstop : exists st c r rest, Ok (0, cookie, result, events) = Ok (st, c, r, rest) /\
    0 <= c < 2 ^ 64 /\ rest `suffix_of` (e :: events) /\ reply_shape inet_pton4 st result r /\
    (st <> 0 -> answered_by inet_pton4 addr relay_ip tran_id st (e :: events) result r)).
  { exists 0, cookie, result, events. split; [done|]. split; [done|]. split; [by apply suffix_cons_r|done]. }
  assert (Hgo : forall c, 0 <= c < 2 ^ 64 ->
    exists st c' r rest, nat_t_drain inet_pton4 addr relay_ip tran_id events c result = Ok (st, c', r, rest) /\
    0 <= c' < 2 ^ 64 /\ rest `suffix_of` (e :: events) /\ reply_shape inet_pton4 st result r /\
    (st <> 0 -> answered_by inet_pton4 addr relay_ip tran_id st (e :: events) result r)).
  { intros c Hc'. destruct (IH c Hes Hc') as (st & c' & r & rest & E & ? & ? & ? & Hst). exists st, c', r, rest.
    split; [done|]. split; [done|]. split; [by apply suffix_cons_r|]. split; [done|]. intros Hs. destruct (Hst Hs) as (bs & c1 & c2 & Hin & Hp).
    exists bs, c1, c2. split; [by right|done]. }
  destruct e as [| |family ip port bytes]; cbn [nat_t_drain]; [exact Hstop..|].
  destruct (len bytes =? 0); [exact Hstop|]. destruct (_ && _) eqn:Hf; cbn [negb]; [|by apply Hgo].
  destruct (reply_total inet_pton4 (Mem 64 addr (tk NAT_T_RESP_BUF_SIZE bytes))) with tran_id cookie result
    as (st & c & r & E & Hc' & Hr); [|cbn in *; auto with bytes|done|].
  { unfold addr_ok, NAT_T_RESP_BUF_SIZE in *. unfold view_ok. cbn [m_base m_bits m_body]. rewrite len_tk. lia. }
  rewrite E, bind_ok. destruct (st =? 0) eqn:Est.
  - apply Z.eqb_eq in Est as ->. destruct Hr as [_ [[_ ->]|[[? _]|[? _]]]]; [by apply Hgo|done..].
  - exists st, c, r, events. split; [done|]. split; [done|]. split; [by apply suffix_cons_r|]. split; [done|]. intros _.
    exists bytes, cookie, c. split; [|done]. apply andb_true_iff in Hf as [[Hf1 Hf2]%andb_true_iff Hf3].
    apply Z.eqb_eq in Hf1 as ->, Hf2 as ->, Hf3 as ->. by left.
Qed.

(** ** Requests *)

Section request.
Context (malloc : Z -> option (list Z)) (Hmalloc : malloc_ok malloc).

(** The allocator always has a block. *)
Definition heap : Prop := forall n, 0 <= n -> is_Some (malloc n).

Lemma repr_len p es : repr p es -> p_len p = 4 + len (mjoin (map enc_elem es)).
Proof. by intros (_ & _ & _ & _ & hdr & _ & _ & _ & ?). Qed.

(** One ignored addition appends its element, or leaves the pack alone. *)
Lemma try_step p es e (add : option pack -> res pack) : repr p es -> added malloc p es e (add (Some p)) ->
  exists p' es', pack_try add p = Ok p' /\ repr p' es' /\ len es <= len es' <= len es + 1 /\
    (heap -> 4 + len (mjoin (map enc_elem es)) + len (enc_elem e) <= UINT32_MAX -> es' = es ++ [e]).
Proof.
  intros Hr Ha. unfold pack_try, added in *. destruct (add (Some p)) as [| |p']; [done|..].
  - exists p, es. split; [done|]. split; [done|]. split; [lia|]. intros Hh Hf. exfalso. pose proof (repr_len p es Hr).
    destruct Ha as [Ha|(n & Hn & Ha)]; [lia|]. destruct (Hh n Hn) as [? E]. by rewrite E in Ha.
  - exists p', (es ++ [e]). split; [done|]. split; [done|]. split; [slia|done].
Qed.

Definition str_elem (n : string) (v : list Z) : elem := Elem (str n) PACK_TYPE_STR [VStr v].
Definition int64_elem (n : string) (v : Z) : elem := Elem (str n) PACK_TYPE_INT64 [VInt64 v].

(** The message as a list of elements. *)
Definition request_elems (tran_id : Z) (dest_ip : list Z) (cookie : Z) (hint target svc : list Z) : list elem :=
  [str_elem "opcode" (str "nat_t_connect_request"); int64_elem "tran_id" tran_id;
   str_elem "dest_ip" dest_ip; int64_elem "cookie" cookie] ++
  (if bool_decide (hint = []) then [] else [str_elem "hint" hint]) ++
  (if bool_decide (target = []) then [] else [str_elem "target_hostname" target]) ++
  [str_elem "svc_name" svc; Elem (str "nat_traversal_version") PACK_TYPE_INT [VInt NAT_T_TRAVERSAL_VERSION]].

(** The packs the additions run through: the list they represent, which is the
    wanted one when nothing fails. *)
Definition builds (want : list elem) (p : pack) : Prop :=
  exists es, repr p es /\ len es <= len want /\
    (heap -> 4 + len (mjoin (map enc_elem want)) <= UINT32_MAX -> es = want).

Lemma joined_app (a b : list elem) :
  len (mjoin (map enc_elem (a ++ b))) = len (mjoin (map enc_elem a)) + len (mjoin (map enc_elem b)).
Proof. by rewrite map_app, join_app, len_app. Qed.
Lemma joined_one e : len (mjoin (map enc_elem [e])) = len (enc_elem e).
Proof. cbn. by rewrite app_nil_r. Qed.

Lemma builds_step want e p (add : option pack -> res pack) : builds want p -> len want + 1 < 2 ^ 32 ->
  (forall es, repr p es -> len es + 1 < 2 ^ 32 -> added malloc p es e (add (Some p))) ->
  exists p', pack_try add p = Ok p' /\ builds (want ++ [e]) p'.
Proof.
  intros (es & Hr & Hl & Hw) Hn Ha. destruct (try_step p es e add Hr) as (p' & es' & E & Hr' & Hl' & Hw'); [apply Ha; [done|lia]|].
  exists p'. split; [done|]. exists es'. split; [done|]. split; [slia|]. intros Hh Hf. rewrite joined_app, joined_one in Hf.
  pose proof (len_nonneg (enc_elem e)). assert (es = want) as -> by (apply Hw; [done|lia]). by apply Hw'; [|lia].
Qed.

Lemma builds_if (b : bool) want e p (add : option pack -> res pack) : builds want p -> len want + 1 < 2 ^ 32 ->
  (forall es, repr p es -> len es + 1 < 2 ^ 32 -> added malloc p es e (add (Some p))) ->
  exists p', (if b then Ok p else pack_try add p) = Ok p' /\ builds (want ++ if b then [] else [e]) p'.
Proof. intros. destruct b; [exists p; by rewrite app_nil_r|by apply builds_step]. Qed.

Lemma builds_bytes want p : builds want p -> want <> [] ->
  exists bs, fetch 0 (pack_length (Some p)) (default [] (pack_data (Some p))) = Ok bs /\
    (heap -> 4 + len (mjoin (map enc_elem want)) <= UINT32_MAX -> bs = encode want).
Proof.
  intros (es & Hr & Hl & Hw) Hne. pose proof Hr as (_ & Hd & _ & Hle & _). pose proof (repr_len p es Hr).
  pose proof (len_nonneg (mjoin (map enc_elem es))).
  destruct (fetch_safe 0 (p_len p) (p_data p)) as [bs E]; [lia|lia|]. exists bs. split; [done|]. intros Hh Hf.
  rewrite (Hw Hh Hf) in Hr. pose proof (message_body 64 0 p want Hr Hne) as Hm. rewrite <- Hm. cbn.
  unfold fetch in E. destruct (_ && _); [|done]. by injection E as <-.
Qed.

Definition short (l : list Z) : Prop := len l < 2 ^ 20.

Lemma len_str_elem n v : len (enc_elem (str_elem n v)) = len (str n) + 16 + len v.
Proof. unfold str_elem. rewrite len_enc_elem1. cbn [enc_value]. slia. Qed.
Lemma len_int64_elem n v : len (enc_elem (int64_elem n v)) = len (str n) + 20.
Proof. unfold int64_elem. rewrite len_enc_elem1. cbn [enc_value]. slia. Qed.

Lemma request_size tran_id ip cookie hint target svc : short ip -> short hint -> short target -> short svc ->
  4 + len (mjoin (map enc_elem (request_elems tran_id ip cookie hint target svc))) <= UINT32_MAX.
Proof.
  unfold short, request_elems, UINT32_MAX. intros ? ? ? ?. rewrite !joined_app.
  assert (Hopt : forall b e n, len (enc_elem e) <= n -> 0 <= n -> len (mjoin (map enc_elem (if b : bool then [] else [e]))) <= n).
  { intros [] e n He Hn; [done|]. by rewrite joined_one. }
  pose proof (Hopt (bool_decide (hint = [])) (str_elem "hint" hint) (2 ^ 21)) as Hz1.
  pose proof (Hopt (bool_decide (target = [])) (str_elem "target_hostname" target) (2 ^ 21)) as Hz2.
  rewrite len_str_elem in Hz1, Hz2. change (len (str "hint")) with 4 in Hz1. change (len (str "target_hostname")) with 15 in Hz2.
  assert (Hz3 : forall a b c d, len (mjoin (map enc_elem [a; b; c; d])) =
    len (enc_elem a) + len (enc_elem b) + len (enc_elem c) + len (enc_elem d)) by (intros; cbn; slia).
  assert (Hz4 : forall a b, len (mjoin (map enc_elem [a; b])) = len (enc_elem a) + len (enc_elem b)) by (intros; cbn; slia).
  rewrite Hz3, Hz4, !len_str_elem, !len_int64_elem, len_enc_elem1. cbn [enc_value]. rewrite len_be_enc.
  change (len (str "opcode")) with 6. change (len (str "nat_t_connect_request")) with 21. change (len (str "tran_id")) with 7.
  change (len (str "dest_ip")) with 7. change (len (str "cookie")) with 6. change (len (str "svc_name")) with 8.
  change (len (str "nat_traversal_version")) with 21. specialize (Hz1 ltac:(lia) ltac:(lia)). specialize (Hz2 ltac:(lia) ltac:(lia)). lia.
Qed.

Lemma len_str s : len (str s) = Z.of_nat (String.length s).
Proof. induction s as [|a s IH]; [done|]. cbn [str String.length]. slia. Qed.

(** The next addition, of element [e] with the specification [B]. *)
Ltac adds e B :=
  lazymatch goal with
  | Hb : builds ?w ?p |- context [pack_try ?a ?p] =>
      let p' := fresh "p" in let E := fresh "E" in let Hb' := fresh "Hb" in
      let fin := first [lia | (rewrite len_str; cbn [String.length]; lia) | (repeat case_match; slia)] in
      first
        [ match goal with |- context [if ?c then Ok p else pack_try a p] =>
            destruct (builds_if c w e p a Hb) as (p' & E & Hb')
          end
        | destruct (builds_step w e p a Hb) as (p' & E & Hb') ];
      [fin|intros; eapply B; (done || fin)|rewrite E, bind_ok; clear E Hb]
  end.

(** A request is built whatever the allocator does, and in full when it has
    blocks. *)
Lemma request_builds tran_id ip cookie hint target svc ntop :
  0 <= tran_id < 2 ^ 64 -> 0 <= cookie < 2 ^ 64 -> short (ntop ip) -> short hint -> short target -> short svc ->
  exists b, nat_t_request malloc ntop tran_id ip cookie hint target svc = Ok b /\
    (heap -> b = Some (encode (request_elems tran_id (ntop ip) cookie hint target svc))).
Proof.
  intros Ht Hc Hi Hh1 Ht1 Hs. unfold nat_t_request.
  destruct (pack_new malloc) as [p0|] eqn:E0.
  2:{ exists None. split; [done|]. intros Hh. exfalso. unfold pack_new in E0. destruct (Hh PACK_INITIAL_CAP) as [? E]; [done|].
      by rewrite E in E0. }
  assert (Hb0 : builds [] p0) by (exists []; split; [by eapply repr_new|done]). clear E0.
  unfold name. cbn zeta. unfold short in *.
  adds (str_elem "opcode" (str "nat_t_connect_request")) add_str_spec. adds (int64_elem "tran_id" tran_id) add_int64_spec.
  adds (str_elem "dest_ip" (ntop ip)) add_str_spec. adds (int64_elem "cookie" cookie) add_int64_spec.
  adds (str_elem "hint" hint) add_str_spec. adds (str_elem "target_hostname" target) add_str_spec.
  adds (str_elem "svc_name" svc) add_str_spec.
  adds (Elem (str "nat_traversal_version") PACK_TYPE_INT [VInt NAT_T_TRAVERSAL_VERSION]) add_int_spec.
  lazymatch goal with Hb : builds ?w _ |- _ =>
    assert (Ew : w = request_elems tran_id (ntop ip) cookie hint target svc)
      by (unfold request_elems; repeat case_match; done); rewrite Ew in Hb;
    destruct (builds_bytes _ _ Hb) as (bs & -> & Hbs); [done|] end.
  exists (Some bs). split; [done|]. intros Hh. f_equal. apply Hbs; [done|]. by apply request_size.
Qed.

End request.

(** ** The exchange *)

(** Each request waits at least the interval that belongs to its place. *)
Fixpoint paced (k : Z) (ts : list Z) : Prop :=
  match ts with
  | t :: ((u :: _) as rest) => t + nat_t_interval k <= u /\ paced (k + 1) rest
  | _ => True
  end.

Lemma interval_exp n : 0 <= n -> nat_t_interval n = 200 * 2 ^ Z.min n 6.
Proof.
  intros Hn. unfold nat_t_interval, NAT_T_CONNECT_INTERVAL, NAT_T_MAX_BACKOFF_EXP. rewrite Z.shiftl_1_l.
  destruct (n <? 6) eqn:E; do 2 f_equal; lia.
Qed.
Lemma interval_mono a b : 0 <= a <= b -> 200 <= nat_t_interval a <= nat_t_interval b.
Proof.
  intros H. rewrite !interval_exp by lia. pose proof (Z.pow_le_mono_r 2 (Z.min a 6) (Z.min b 6)).
  pose proof (Z.pow_le_mono_r 2 0 (Z.min a 6)). lia.
Qed.
Lemma interval_max n : 0 <= n -> nat_t_interval n <= 12800.
Proof. intros Hn. rewrite interval_exp by done. pose proof (Z.pow_le_mono_r 2 (Z.min n 6) 6). lia. Qed.

Lemma paced_snoc ts k t : paced k ts ->
  match last ts with Some u => u + nat_t_interval (k + len ts - 1) <= t | None => True end -> paced k (ts ++ [t]).
Proof.
  revert k. induction ts as [|a ts IH]; intros k Hp Hl; [done|]. destruct ts as [|b ts].
  - cbn in *. rewrite len_cons, len_nil in Hl. replace (k + (1 + 0) - 1) with k in Hl by lia. done.
  - destruct Hp as [Hab Hp]. split; [done|]. apply (IH (k + 1)); [done|]. change (last (a :: b :: ts)) with (last (b :: ts)) in Hl.
    destruct (last (b :: ts)); [|done]. rewrite len_cons in Hl. by replace (k + 1 + len (b :: ts) - 1) with (k + (1 + len (b :: ts)) - 1) by lia.
Qed.

(** The next tick and the number of rounds fit the requests sent so far. *)
Definition pace_ok (next tries : Z) (ts : list Z) : Prop :=
  len ts <= tries /\ paced 0 ts /\ 0 <= next /\ Forall (fun t => 0 <= t) ts /\
  match last ts with Some t => t + nat_t_interval (len ts - 1) <= next | None => True end.

Lemma pace_sent next tries ts now : pace_ok next tries ts -> 0 <= now -> (next =? 0) || (now >=? next) = true ->
  pace_ok (now + nat_t_interval tries) (tries + 1) (ts ++ [now]) /\ pace_ok (now + nat_t_interval tries) (tries + 1) ts.
Proof.
  intros (Hl & Hp & Hn & Hf & Hlast) Hnow Hdue. pose proof (len_nonneg ts) as H0.
  pose proof (interval_mono (len ts) tries ltac:(lia)) as Hi. unfold pace_ok.
  assert (Hd : match last ts with Some t => t + nat_t_interval (len ts - 1) <= now | None => True end).
  { destruct (last ts) as [t|] eqn:E; [|done]. assert (ts <> []) by (by intros ->).
    assert (1 <= len ts) by (destruct ts; [done|]; rewrite len_cons; pose proof (len_nonneg ts); lia).
    pose proof (interval_mono (len ts - 1) (len ts - 1) ltac:(lia)).
    assert (0 <= t). { rewrite Forall_forall in Hf. apply Hf. by apply last_Some_elem_of. } lia. }
  split.
  - rewrite len_app, len_cons, len_nil. split; [lia|]. split; [by apply paced_snoc|]. split; [lia|].
    split; [apply Forall_app; split; [done|by constructor]|]. rewrite last_snoc.
    replace (len ts + (1 + 0) - 1) with (len ts) by lia. lia.
  - split; [lia|]. split; [done|]. split; [lia|]. split; [done|]. destruct (last ts); [lia|done].
Qed.

Section exchange.
Context `{HK : Kernel} `{!KernelLaws}.
Context (clock bind : nat -> Z) (rnd : list Z) (malloc : Z -> option (list Z)) (sha1 : list Z -> list Z)
        (ntop : Z -> list Z) (pton : list Z -> option Z) (addr : Z) (n0 : nat).

Record env_ok : Prop := EnvOk {
  e_addr : addr_ok addr; e_malloc : malloc_ok malloc; e_ntop : forall ip, short (ntop ip);
  e_rnd : bytes_ok rnd /\ len rnd = 8; e_clock : forall n, 0 <= clock n < 2 ^ 63 }.
Context (Henv : env_ok).

Lemma wp_on_os {A} (m : St os A) (Q : A -> nat_world -> Prop) w :
  wp m (fun a y => Q a (w <| n_os := y |>)) (n_os w) -> wp (on_os m) Q w.
Proof. unfold wp, on_os. by destruct (m (n_os w)) as [| |[a y]]. Qed.
Lemma wp_tick (Q : Z -> nat_world -> Prop) w :
  Q (clock (n_ticks w)) (w <| n_ticks := S (n_ticks w) |>) -> wp (nat_t_tick_ms clock) Q w.
Proof. done. Qed.

Definition exchange_ok (x : exchange) : Prop :=
  0 <= x_tran x < 2 ^ 64 /\ 0 <= x_fd x /\ short (x_hint x) /\ short (x_target x) /\ short (x_svc x).

(** A request of the exchange and its tick. *)
Definition sent_ok (x : exchange) (s : Z * list Z) : Prop :=
  0 <= s.1 < x_giveup x /\ (exists n, (n0 <= n)%nat /\ s.1 = clock n) /\
  (heap malloc -> exists cookie, 0 <= cookie < 2 ^ 64 /\
     s.2 = encode (request_elems (x_tran x) (ntop (x_server x)) cookie (x_hint x) (x_target x) (x_svc x))).

Lemma natt_send_wp x now cookie w : exchange_ok x -> 0 <= now < x_giveup x -> (exists n, (n0 <= n)%nat /\ now = clock n) ->
  0 <= cookie < 2 ^ 64 ->
  wp (nat_t_send malloc ntop x now cookie) (fun _ w' => exists l, w' = w <| n_sent := n_sent w ++ l |> /\
    (l = [] \/ exists bs, l = [(now, bs)]) /\ Forall (sent_ok x) l) w.
Proof.
  intros (Ht & _ & Hh & Hg & Hs) Hn Hck Hc. unfold nat_t_send. wp_step.
  destruct (request_builds malloc (e_malloc Henv) (x_tran x) (x_server x) cookie (x_hint x) (x_target x) (x_svc x) ntop)
    as (b & E & Hb); try done; [apply (e_ntop Henv)|].
  eapply wp_lift; [exact E|]. destruct b as [bs|]; wp_step.
  - exists [(now, bs)]. split; [done|]. split; [right; by exists bs|]. constructor; [|done]. split; [done|]. split; [done|].
    intros Hheap. exists cookie. split; [done|]. specialize (Hb Hheap). by injection Hb as ->.
  - exists []. split; [rewrite app_nil_r; by destruct w|]. split; [by left|done].
Qed.

(** What the exchange returns with: a usable address and perhaps the
    descriptor, or an error and no descriptor. *)
Definition ended (x : exchange) (others : list Z) (events : list event) (result : nat_t_result)
  (r : Z) (res : nat_t_result) (w' : nat_world) : Prop :=
  (r = 0 /\ (exists r1, answered_by pton addr (x_relay x) (x_tran x) 1 events result r1 /\
       reply_shape pton 1 result r1 /\
       res = r1 <| udp_fd := if same_lan r1 =? 0 then x_fd x else -1 |>) \/
   r = -1 /\ udp_fd res = -1 /\
     (error_code res = NAT_T_ERR_NO_RESPONSE \/ error_code res = NAT_T_ERR_TWO_OR_MORE \/ error_code res = NAT_T_ERR_NOT_FOUND)) /\
  owns (udp_fd res) others (n_os w').

(** The outcome, seen from a state in which [ts] are the ticks of the requests
    sent so far. *)
Definition outcome (x : exchange) (others : list Z) (events : list event) (result : nat_t_result)
  (ts : list Z) (w : nat_world) : Z * nat_t_result -> nat_world -> Prop := fun '(r, res) w' =>
  ended x others events result r res w' /\ tidy (n_os w) (n_os w') /\
  exists l, n_sent w' = n_sent w ++ l /\ paced 0 (ts ++ map fst l) /\ Forall (sent_ok x) l.

Lemma outcome_from x others events result ts l w w2 a w' :
  tidy (n_os w) (n_os w2) -> n_sent w2 = n_sent w ++ l -> Forall (sent_ok x) l ->
  outcome x others events result (ts ++ map fst l) w2 a w' -> outcome x others events result ts w a w'.
Proof.
  destruct a as [r res]. intros Ht Es Hl (He & Ht' & l' & Es' & Hp & Hl'). split; [done|]. split; [by eapply tidy_trans|].
  exists (l ++ l'). rewrite Es', Es, map_app, !app_assoc in *. split; [done|]. split; [done|]. by apply Forall_app.
Qed.

Lemma outcome_now x others events result ts w r res w' : paced 0 ts ->
  tidy (n_os w) (n_os w') -> n_sent w' = n_sent w -> ended x others events result r res w' ->
  outcome x others events result ts w (r, res) w'.
Proof. intros Hp Ht Es He. split; [done|]. split; [done|]. exists []. by rewrite !app_nil_r. Qed.

(** Closing the socket and reporting [res]. *)
Lemma close_now x others events result ts w r res : exchange_ok x -> paced 0 ts -> owns (x_fd x) others (n_os w) ->
  udp_fd res = -1 -> (forall w', owns (-1) others (n_os w') -> ended x others events result r res w') ->
  wp (on_os (sys_close (x_fd x)) ;; mret (r, res)) (outcome x others events result ts w) w.
Proof.
  intros Hx Hp Ho Hfd He. wp_step. apply wp_on_os. eapply wp_mono; [apply close_wp; [done|apply Hx]|].
  intros [] y [Hty Hoy]. apply wp_ret. apply outcome_now; [done|done|done|]. by apply He.
Qed.

(** A decisive verdict. *)
Lemma verdict_wp x others events result ts w st r : exchange_ok x -> paced 0 ts -> owns (x_fd x) others (n_os w) ->
  udp_fd result = -1 -> st <> 0 -> reply_shape pton st result r ->
  answered_by pton addr (x_relay x) (x_tran x) st events result r ->
  wp (if st =? 1 then
        if same_lan r =? 0 then mret (0, r <| udp_fd := x_fd x |>)
        else on_os (sys_close (x_fd x)) ;; mret (0, r <| udp_fd := -1 |>)
      else on_os (sys_close (x_fd x)) ;; mret (-1, r)) (outcome x others events result ts w) w.
Proof.
  intros Hx Hp Ho Hfd Hst Hr Ha. apply wp_if; intros Es.
  - apply Z.eqb_eq in Es as ->. apply wp_if; intros El.
    + apply wp_ret, outcome_now; [done|apply ran_refl|done|]. split; [|done]. left. split; [done|].
      exists r. by rewrite El.
    + apply close_now; [done..|]. intros w' Ho'. split; [|done]. left. split; [done|]. exists r. by rewrite El.
  - pose proof Hr as [Hf Hs]. rewrite Hfd in Hf. apply close_now; [done..|]. intros w' Ho'. split; [|by rewrite Hf].
    right. split; [done|]. split; [done|]. destruct Hs as [[? _]|[[? _]|[_ Hs]]]; [done|lia|tauto].
Qed.

(** The request of a round, when it is due. *)
Lemma round_wp x next tries ts now cookie w : exchange_ok x -> 0 <= now < x_giveup x -> now < 2 ^ 63 ->
  (exists n, (n0 <= n)%nat /\ now = clock n) ->
  0 <= cookie < 2 ^ 64 -> pace_ok next tries ts ->
  let due := (next =? 0) || (now >=? next) in
  wp (when due (nat_t_send malloc ntop x now cookie)) (fun _ w' => exists l, w' = w <| n_sent := n_sent w ++ l |> /\
    Forall (sent_ok x) l /\
    pace_ok (if due then u64 (now + nat_t_interval tries) else next) (if due then tries + 1 else tries) (ts ++ map fst l)) w.
Proof.
  intros Hx Hnow Hclk Hck Hc Hp due. apply wp_when; intros Hdue.
  - eapply wp_mono; [by apply natt_send_wp|]. intros [] w4 (l & -> & Hl & Hok). exists l. split; [done|]. split; [done|].
    assert (0 <= tries) by (destruct Hp as (Hlt & _); pose proof (len_nonneg ts); lia).
    rewrite Hdue. pose proof (interval_max tries) as Him. pose proof (interval_mono tries tries) as Hi2.
    unfold u64. rewrite Z.mod_small by lia.
    destruct (pace_sent next tries ts now Hp ltac:(lia) Hdue) as [Hp1 Hp2]. destruct Hl as [->|[bs ->]]; [by rewrite app_nil_r|done].
  - exists []. rewrite !app_nil_r, Hdue. split; [by destruct w|done].
Qed.

Lemma loop_wp x others events result : exchange_ok x -> udp_fd result = -1 -> Forall event_ok events ->
  forall fuel next cookie tries ts w,
  0 <= cookie < 2 ^ 64 -> n_events w `suffix_of` events -> owns (x_fd x) others (n_os w) ->
  pace_ok next tries ts -> (n0 <= n_ticks w)%nat -> (exists k, (k < fuel)%nat /\ x_giveup x <= clock (n_ticks w + k)) ->
  wp (nat_t_loop clock malloc ntop pton addr fuel x next cookie tries result) (outcome x others events result ts w) w.
Proof.
  intros Hx Hfd He fuel. induction fuel as [|fuel IH]; intros next cookie tries ts w Hc Hsuf Ho Hp Hn0 (k & Hk & Hgive); [lia|].
  pose proof (e_clock Henv) as Hclk. pose proof Hp as (_ & Hpc & _). cbn [nat_t_loop].
  wp_step. apply wp_tick. set (w1 := w <| n_ticks := S (n_ticks w) |>). set (now := clock (n_ticks w)).
  assert (Hgu : forall w2, tidy (n_os w) (n_os w2) -> owns (x_fd x) others (n_os w2) -> n_sent w2 = n_sent w ->
    wp (nat_t_give_up x result) (outcome x others events result ts w) w2).
  { intros w2 Ht2 Ho2 Hs2. eapply wp_mono; [apply (close_now x others events result ts)|]; try done.
    - intros w' Ho'. split; [right; split; [done|]; split; [done|by left]|]. cbn [udp_fd upd]. by rewrite Hfd.
    - intros a w' Hout. eapply (outcome_from x others events result ts [] w w2); cbn [map];
        rewrite ?app_nil_r; done. }
  apply wp_if; intros Hg; [apply Hgu; [apply ran_refl|done|done]|].
  wp_step. eapply wp_mono with (P := fun _ w2 => n_events w2 = n_events w /\ n_sent w2 = n_sent w /\
    n_ticks w2 = S (n_ticks w) /\ quiet (n_os w) (n_os w2)).
  { apply wp_if; intros _; [apply wp_on_os; eapply wp_mono; [apply sys_wp|]; by intros b y [_ Hq]|by apply wp_ret]. }
  intros cancel w2 (Eev & Es & Etk & Hq).
  assert (Ht2 := quiet_tidy _ _ Hq). assert (Ho2 := quiet_owns _ _ _ _ Hq Ho).
  apply wp_if; intros _; [by apply Hgu|]. wp_step. apply wp_gets. wp_step. rewrite Eev.
  destruct (drain_total pton addr (x_relay x) (x_tran x) (n_events w) cookie result)
    as (st & c & r & rest & Ed & Hc' & Hrest & Hr & Hans); [apply (e_addr Henv)| |done|].
  { destruct Hsuf as [pre Epre]. rewrite Epre in He. by apply Forall_app in He as [_ ?]. }
  eapply wp_lift; [exact Ed|]. cbv beta iota. wp_step. wp_step. set (w3 := w2 <| n_events := rest |>).
  assert (Hdone : st <> 0 -> wp (if st =? 1 then
        if same_lan r =? 0 then mret (0, r <| udp_fd := x_fd x |>)
        else on_os (sys_close (x_fd x)) ;; mret (0, r <| udp_fd := -1 |>)
      else on_os (sys_close (x_fd x)) ;; mret (-1, r)) (outcome x others events result ts w) w3).
  { intros Hst. eapply wp_mono; [apply (verdict_wp x others events result ts w3 st r); try done|].
    - destruct (Hans Hst) as (bs & c1 & c2 & Hin & Hpr). exists bs, c1, c2. split; [|done].
      destruct Hsuf as [pre ->]. apply elem_of_app. by right.
    - intros a w' Hout. eapply (outcome_from x others events result ts [] w w3); cbn [map]; rewrite ?app_nil_r; done. }
  pose proof Hr as [_ [[-> ->]|[[-> _]|[-> _]]]]; [|by apply Hdone..]. cbn [Z.eqb Z.ltb Z.compare].
  assert (Hnow : 0 <= now < x_giveup x) by (specialize (Hclk (n_ticks w)); subst now; lia).
  wp_step. eapply wp_mono; [by apply (round_wp x next tries ts now c); [done|done|apply Hclk|by eexists|done|done]|].
  intros [] w4 (l & -> & Hl & Hpace). wp_step. wp_step. eapply wp_mono; [apply IH; [done| | |exact Hpace| |]|].
  - cbn [n_events upd]. by transitivity (n_events w).
  - done.
  - subst w3. cbn [n_ticks upd]. lia.
  - exists (k - 1)%nat. subst w3. cbn [n_ticks upd]. rewrite Etk. destruct k as [|k]; [|].
    + exfalso. rewrite Nat.add_0_r in Hgive. subst now. lia.
    + split; [lia|]. replace (S (n_ticks w) + (S k - 1))%nat with (n_ticks w + S k)%nat by lia. done.
  - intros a w' Hout. eapply (outcome_from x others events result ts l w); [| | |exact Hout]; [done| |done].
    subst w3. cbn [n_sent upd]. by rewrite Es.
Qed.

Lemma tran_id_range : 0 <= nat_t_tran_id rnd < 2 ^ 64.
Proof.
  destruct (e_rnd Henv) as [Hb Hl]. unfold nat_t_tran_id. change (fold_left _ rnd 0) with (r64_loop rnd).
  rewrite r64_loop_dec by (done || lia). pose proof (be_dec_bound rnd Hb) as Hd. rewrite Hl in Hd.
  destruct (_ =? 0); [lia|exact Hd].
Qed.

(** Steps before the loop change the sockets only. *)
Definition same_rest (w w' : nat_world) : Prop :=
  n_events w' = n_events w /\ n_sent w' = n_sent w /\ n_ticks w' = n_ticks w.

Lemma resolve_wp hostname w :
  wp (nat_t_resolve_relay hostname) (fun _ w' => quiet (n_os w) (n_os w') /\ same_rest w w') w.
Proof. unfold nat_t_resolve_relay. wp_step. apply wp_on_os. eapply wp_mono; [apply sys_wp|]. intros r y [_ Hq]. by apply wp_ret. Qed.

Lemma find_relay_wp server_ip use_alt w :
  wp (nat_t_find_relay sha1 server_ip use_alt) (fun _ w' => quiet (n_os w) (n_os w') /\ same_rest w w') w.
Proof.
  unfold nat_t_find_relay, nat_t_build_hostname_internal. rewrite !Z.ltb_irrefl. cbv beta iota.
  wp_step. eapply wp_mono; [apply resolve_wp|]. intros r w1 (Hq & Hs).
  destruct r as [ip|]; [by apply wp_ret|]. apply wp_if; intros _; [by apply wp_ret|].
  eapply wp_mono; [apply resolve_wp|]. intros r w2 (Hq2 & Hs2). split; [by eapply quiet_trans|].
  destruct Hs as (? & ? & ?), Hs2 as (? & ? & ?). repeat split; congruence.
Qed.

Lemma create_socket_wp others w : owns (-1) others (n_os w) ->
  wp (nat_t_create_udp_socket bind) (fun r w' => tidy (n_os w) (n_os w') /\ same_rest w w' /\
    owns (default (-1) r) others (n_os w') /\ (forall fd, r = Some fd -> 0 <= fd)) w.
Proof.
  intros Ho. unfold nat_t_create_udp_socket. wp_step. apply wp_on_os. eapply wp_mono; [by apply sys_socket_wp|].
  intros fd y (Ht & Hoy & _). apply wp_if; intros E.
  - apply wp_ret. split; [done|]. split; [done|]. split; [|done]. cbn [default n_os upd].
    unfold owns, fd_list in *. by rewrite E in Hoy.
  - wp_step. apply wp_on_os. cbn [n_os upd]. eapply wp_mono; [apply sys_wp|]. intros r y2 [_ Hq].
    pose proof (quiet_owns _ _ _ _ Hq Hoy) as Hoy2. pose proof (tidy_trans _ _ _ Ht (quiet_tidy _ _ Hq)) as Ht2.
    apply wp_if; intros Er.
    + wp_step. apply wp_on_os. cbn [n_os upd]. eapply wp_mono; [apply close_wp; [done|lia]|]. intros [] y3 [Ht3 Ho3].
      apply wp_ret. split; [by eapply tidy_trans|]. split; [done|]. by split.
    + apply wp_ret. split; [done|]. split; [done|]. split; [done|]. intros ? [= <-]. lia.
Qed.

(** What a rendezvous ends with. *)
Definition rendezvous (others : list Z) (w : nat_world) (svc hint target : list Z) (server_ip timeout_ms : Z)
  (r : Z) (res : nat_t_result) (w' : nat_world) : Prop :=
  tidy (n_os w) (n_os w') /\ owns (udp_fd res) others (n_os w') /\
  (r = 0 /\ (exists relay_ip bytes c c' r1, EvData AF_INET relay_ip NAT_T_PORT bytes ∈ n_events w /\
       nat_t_parse_response pton (Mem 64 addr (tk NAT_T_RESP_BUF_SIZE bytes)) (nat_t_tran_id rnd) c
         (NatResult 0 0 0 (-1) NAT_T_ERR_UNKNOWN) = Ok (1, c', r1) /\
       res = r1 <| udp_fd := udp_fd res |>) /\
     0 < result_port res <= 65535 /\ result_ip res <> 0 /\ (same_lan res <> 0 <-> udp_fd res = -1) \/
   r = -1 /\ udp_fd res = -1 /\ error_code res ∈ [NAT_T_ERR_UNKNOWN; NAT_T_ERR_GETIP_FAILED; NAT_T_ERR_NO_RESPONSE;
     NAT_T_ERR_TWO_OR_MORE; NAT_T_ERR_NOT_FOUND]) /\
  exists x l, n_sent w' = n_sent w ++ l /\ paced 0 (map fst l) /\ Forall (sent_ok x) l /\
    x_server x = server_ip /\ x_tran x = nat_t_tran_id rnd /\ x_hint x = hint /\ x_target x = target /\
    x_svc x = (if bool_decide (svc = []) then NAT_T_SVC_NAME else svc) /\
    x_giveup x = clock n0 + (if timeout_ms =? 0 then NAT_T_DEFAULT_TIMEOUT_MS else timeout_ms).

Lemma early_failure others w svc hint target server_ip timeout_ms code w' :
  tidy (n_os w) (n_os w') -> owns (-1) others (n_os w') -> n_sent w' = n_sent w ->
  code = NAT_T_ERR_UNKNOWN \/ code = NAT_T_ERR_GETIP_FAILED ->
  rendezvous others w svc hint target server_ip timeout_ms (-1) (NatResult 0 0 0 (-1) code) w'.
Proof.
  intros Ht' Ho' Es Hcode. split; [done|]. split; [done|]. split.
  - right. split; [done|]. split; [done|]. cbn. destruct Hcode as [->| ->]; [left|right; left].
  - eexists (Exchange server_ip 0 0 (nat_t_tran_id rnd) _ hint target _ false), [].
    rewrite app_nil_r. done.
Qed.

Lemma natt_connect_wp fuel server_ip svc hint target timeout_ms cancellable use_alt others w :
  owns (-1) others (n_os w) -> Forall event_ok (n_events w) -> short hint -> short target -> short svc ->
  0 <= timeout_ms < 2 ^ 32 -> n_ticks w = n0 ->
  (exists k, (k < fuel)%nat /\
     clock n0 + (if timeout_ms =? 0 then NAT_T_DEFAULT_TIMEOUT_MS else timeout_ms) <= clock (S n0 + k)) ->
  wp (nat_t_connect_internal clock bind rnd malloc sha1 ntop pton addr fuel server_ip svc hint target timeout_ms cancellable use_alt)
     (fun '(r, res) w' => rendezvous others w svc hint target server_ip timeout_ms r res w') w.
Proof.
  intros Ho He Hh Hg Hs Ht Hn0 Hk. unfold nat_t_connect_internal. set (svc' := if bool_decide (svc = []) then _ else svc).
  set (t := if timeout_ms =? 0 then _ else _) in *. cbn zeta.
  assert (Htr : 0 <= t < 2 ^ 32) by (subst t; unfold NAT_T_DEFAULT_TIMEOUT_MS; case_match; lia).
  pose proof (e_clock Henv) as Hclk.
  wp_step. eapply wp_mono; [apply find_relay_wp|]. intros relay w1 (Hq1 & Eev1 & Es1 & Etk1).
  pose proof (quiet_owns _ _ _ _ Hq1 Ho) as Ho1. pose proof (quiet_tidy _ _ Hq1) as Ht1.
  destruct relay as [relay_ip|]; [|wp_step; by apply early_failure; auto].
  wp_step. eapply wp_mono; [by apply create_socket_wp|]. intros fd w2 (Ht2 & (Eev2 & Es2 & Etk2) & Ho2 & Hfd).
  pose proof (tidy_trans _ _ _ Ht1 Ht2) as Ht12.
  destruct fd as [fd|]; [|wp_step; apply early_failure; [done|done|congruence|by left]].
  wp_step. apply wp_tick. rewrite Etk2, Etk1, Hn0. set (x := Exchange _ _ _ _ _ _ _ _ _).
  assert (Egu : x_giveup x = clock n0 + t).
  { cbn. specialize (Hclk n0). unfold u64. apply Z.mod_small. lia. }
  eapply wp_mono; [apply (loop_wp x others (n_events w) _) with (ts := [])|].
  - split; [apply tran_id_range|]. split; [by apply Hfd|]. split; [done|]. split; [done|]. cbn. subst svc'. by case_match.
  - done.
  - done.
  - done.
  - cbn [n_events upd]. rewrite Eev2, Eev1. done.
  - exact Ho2.
  - split; [done|]. split; [done|]. split; [done|]. split; [constructor|done].
  - cbn [n_ticks upd]. lia.
  - destruct Hk as (k & Hk & Hc). exists k. split; [done|]. rewrite Egu. exact Hc.
  - intros [r res] w' (He' & Ht' & l & El & Hp & Hok). cbn [n_sent upd] in El. cbn [n_os upd] in Ht'. split; [by eapply tidy_trans|].
    destruct He' as [He' Hown]. split; [done|]. split.
    + destruct He' as [(-> & r1 & (bs & c & c' & Hin & Hpr) & [Hf Hsh] & ->)|(-> & Hu & Hc)].
      * left. split; [done|]. split.
        { exists relay_ip, bs, c, c', r1. split; [done|]. split; [done|]. by destruct r1. }
        destruct Hsh as [[? _]|[(_ & _ & Hport & Hip & _)|[? _]]]; [done| |done].
        split; [done|]. split; [done|]. cbn [udp_fd same_lan upd]. specialize (Hfd fd eq_refl). cbn [x_fd x].
        destruct (same_lan r1 =? 0) eqn:El1; split; intros; lia.
      * right. split; [done|]. split; [done|]. rewrite !elem_of_cons. tauto.
    + exists x, l. rewrite El, Es2, Es1. done.
Qed.
End exchange.
