(* ===== verification/NatTSpec.v ===== *)
(** * What the rendezvous promises

    The theorems about [nat_t_connect_internal]: its answers, its requests,
    the descriptor it owns, its pace, and the loop that does not look at the
    clock. *)
From stdpp Require Import functions strings.
From S2P Require Import Prelude Bytes Ring Pack PackSpec.
Import Writer Reader Spec Reader_correct Writer_correct.
From S2P Require Import TcpSocket TcpSocketSpec Http HttpSpec PackRead NatT NatTInv.

(** C18: the rendezvous and its socket. Whatever the sockets, the allocator and
    the network do, the rendezvous ends once the clock passes its deadline. It
    succeeds only on an answer of the relay's address and port that carries its
    transaction and a usable address, and then hands out its socket, or none
    when both ends are in one network; otherwise it reports an error. No other
    descriptor is left open, and none is used after it was closed. *)
Theorem nat_t_outcome `{KernelLaws} clock bind rnd malloc sha1 ntop pton addr
    fuel server_ip svc hint target timeout_ms cancellable use_alt others w :
  env_ok clock rnd malloc ntop addr -> owns (-1) others (n_os w) -> Forall event_ok (n_events w) ->
  short hint -> short target -> short svc -> 0 <= timeout_ms < 2 ^ 32 ->
  (exists k, (k < fuel)%nat /\ clock (n_ticks w) + (if timeout_ms =? 0 then NAT_T_DEFAULT_TIMEOUT_MS else timeout_ms)
     <= clock (S (n_ticks w) + k)%nat) ->
  exists r res w', nat_t_connect_internal clock bind rnd malloc sha1 ntop pton addr fuel server_ip svc hint target
      timeout_ms cancellable use_alt w = Ok ((r, res), w') /\
    tidy (n_os w) (n_os w') /\ owns (udp_fd res) others (n_os w') /\
    (r = 0 /\ (exists relay_ip bytes c c' r1, EvData AF_INET relay_ip NAT_T_PORT bytes ∈ n_events w /\
        nat_t_parse_response pton (Mem 64 addr (tk NAT_T_RESP_BUF_SIZE bytes)) (nat_t_tran_id rnd) c
          (NatResult 0 0 0 (-1) NAT_T_ERR_UNKNOWN) = Ok (1, c', r1) /\ res = r1 <| udp_fd := udp_fd res |>) /\
      0 < result_port res <= 65535 /\ result_ip res <> 0 /\ (same_lan res <> 0 <-> udp_fd res = -1) \/
     r = -1 /\ udp_fd res = -1 /\ error_code res ∈ [NAT_T_ERR_UNKNOWN; NAT_T_ERR_GETIP_FAILED; NAT_T_ERR_NO_RESPONSE;
       NAT_T_ERR_TWO_OR_MORE; NAT_T_ERR_NOT_FOUND]).
Proof.
  intros He Ho Hev Hh Hg Hs Ht Hk.
  destruct (wp_run _ _ _ (natt_connect_wp clock bind rnd malloc sha1 ntop pton addr (n_ticks w) He
    fuel server_ip svc hint target timeout_ms cancellable use_alt others w Ho Hev Hh Hg Hs Ht eq_refl Hk))
    as ([r res] & w' & E & Hti & Hown & Hr & _).
  exists r, res, w'. done.
Qed.

(** ** The pace *)

(** Within 12.6 seconds there is room for six. *)
Lemma paced_count ts lo : paced 0 ts -> Forall (fun t => lo <= t < lo + 12600) ts -> len ts <= 6.
Proof.
  intros Hp Hf. destruct ts as [|t0 [|t1 [|t2 [|t3 [|t4 [|t5 [|t6 ts]]]]]]]; try (vm_compute; done).
  exfalso. repeat match goal with H : Forall _ (_ :: _) |- _ => apply Forall_cons in H as [? ?] end.
  destruct Hp as (Hp0 & Hp1 & Hp2 & Hp3 & Hp4 & Hp5 & _). 
  change (nat_t_interval 0) with 200 in Hp0. change (nat_t_interval (0 + 1)) with 400 in Hp1.
  change (nat_t_interval (0 + 1 + 1)) with 800 in Hp2. change (nat_t_interval (0 + 1 + 1 + 1)) with 1600 in Hp3.
  change (nat_t_interval (0 + 1 + 1 + 1 + 1)) with 3200 in Hp4. change (nat_t_interval (0 + 1 + 1 + 1 + 1 + 1)) with 6400 in Hp5. lia.
Qed.


(** ** Both sides of the messages *)

Definition plain (l : list Z) : Prop := cstring l /\ short l.

Lemma cstr_plain n l : plain l -> 2 ^ 20 <= n -> cstr (tk n l) = l.
Proof. intros [Hc Hs] Hn. rewrite tk_all by (unfold short in Hs; lia). by apply cstr_cstring. Qed.

Lemma request_ok tran_id ip cookie hint target svc : 0 <= tran_id < 2 ^ 64 -> 0 <= cookie < 2 ^ 64 ->
  short ip -> short hint -> short target -> short svc ->
  Forall elem_ok (request_elems tran_id ip cookie hint target svc) /\
  len (request_elems tran_id ip cookie hint target svc) <= PACK_MAX_ELEMENTS.
Proof.
  unfold short. intros Ht Hc Hi Hh Hg Hs.
  assert (Hstr : forall n v, len (str n) < 100 -> len v < 2 ^ 20 -> elem_ok (str_elem n v)).
  { intros n v Hn Hv. unfold elem_ok, str_elem, PACK_MAX_VALUES, PACK_TYPE_STR. cbn [e_name e_type e_vals].
    split; [lia|]. split; [lia|]. split; [done|]. constructor; [|done]. split; [cbn; lia|done]. }
  assert (H64 : forall n v, len (str n) < 100 -> 0 <= v < 2 ^ 64 -> elem_ok (int64_elem n v)).
  { intros n v Hn Hv. unfold elem_ok, int64_elem, PACK_MAX_VALUES, PACK_TYPE_INT64. cbn [e_name e_type e_vals].
    split; [lia|]. split; [lia|]. split; [done|]. constructor; [|done]. split; [cbn; lia|done]. }
  assert (Hopt : forall (b : bool) n v, len (str n) < 100 -> len v < 2 ^ 20 -> Forall elem_ok (if b then [] else [str_elem n v])).
  { intros [] n v Hn Hv; [done|]. constructor; [by apply Hstr|done]. }
  split; [|unfold request_elems; repeat case_match; vm_compute; done].
  unfold request_elems. repeat (apply Forall_app; split).
  - constructor; [by apply Hstr|]. constructor; [by apply H64|]. constructor; [by apply Hstr|]. constructor; [by apply H64|done].
  - by apply Hopt.
  - by apply Hopt.
  - constructor; [by apply Hstr|]. constructor; [|done]. by apply (bool_decide_unpack _).
Qed.

Lemma found_str es n cap v : lookup es (str n) PACK_TYPE_STR = Some (VStr v) -> cstr (tk (cap - 1) v) = v ->
  of_opt (es_str es n cap) = Ok v.
Proof. intros E Hv. unfold es_str. by rewrite E, Hv. Qed.
Lemma missing_str es n cap : lookup es (str n) PACK_TYPE_STR = None -> of_opt (es_str es n cap) = Err.
Proof. intros E. unfold es_str. by rewrite E. Qed.
Lemma found_int es n v : lookup es (str n) PACK_TYPE_INT = Some (VInt v) -> of_opt (es_int es n) = Ok v.
Proof. intros E. unfold es_int. by rewrite E. Qed.
Lemma found_int64 es n v : lookup es (str n) PACK_TYPE_INT64 = Some (VInt64 v) -> of_opt (es_int64 es n) = Ok v.
Proof. intros E. unfold es_int64. by rewrite E. Qed.

(** The relay reads what the client asks. With blocks from the allocator
    the request is complete, and the getters of the other side find in it the
    operation, the transaction, the server's address, the cookie, the service,
    the version, and the hint and the target name exactly when they are given. *)
Theorem nat_t_request_roundtrip malloc ntop tran_id server_ip cookie hint target svc :
  malloc_ok malloc -> heap malloc -> 0 <= tran_id < 2 ^ 64 -> 0 <= cookie < 2 ^ 64 ->
  plain (ntop server_ip) -> plain hint -> plain target -> plain svc ->
  exists bs, nat_t_request malloc ntop tran_id server_ip cookie hint target svc = Ok (Some bs) /\
    forall addr cap, 0 <= addr -> addr + len bs + 2 ^ 32 <= 2 ^ 64 -> 2 ^ 20 < cap < 2 ^ 32 ->
      let m := Some (Mem 64 addr bs) in let string n := cstr <$> pack_get_str m (name n) cap in
      string "opcode"%string = Ok (str "nat_t_connect_request") /\ pack_get_int64 m (name "tran_id") = Ok tran_id /\
      string "dest_ip"%string = Ok (ntop server_ip) /\ pack_get_int64 m (name "cookie") = Ok cookie /\
      string "hint"%string = (if bool_decide (hint = []) then Err else Ok hint) /\
      string "target_hostname"%string = (if bool_decide (target = []) then Err else Ok target) /\
      string "svc_name"%string = Ok svc /\ pack_get_int m (name "nat_traversal_version") = Ok 1.
Proof.
  intros Hm Hh Ht Hc Hi Hhi Hta Hs.
  destruct (request_builds malloc Hm tran_id server_ip cookie hint target svc ntop Ht Hc (proj2 Hi) (proj2 Hhi) (proj2 Hta) (proj2 Hs))
    as (b & E & Hb). rewrite (Hb Hh) in E. eexists. split; [exact E|]. intros addr cap Ha He Hcap m string.
  destruct (request_ok tran_id (ntop server_ip) cookie hint target svc Ht Hc (proj2 Hi) (proj2 Hhi) (proj2 Hta) (proj2 Hs)) as [Hes Hn].
  set (es := request_elems _ _ _ _ _ _) in *.
  assert (Hr : reads (Mem 64 addr (encode es)) es).
  { split; [by split|]. split; [done|]. split; [done|]. exists []. by rewrite app_nil_r. }
  subst string m. cbv beta. unfold name. rewrite !(get_int64_named _ _ Hr), (get_int_named _ _ Hr), !(get_str_named _ _ Hr) by lia.
  assert (Hplain : forall l, plain l -> cstr (tk (cap - 1) l) = l) by (intros; apply cstr_plain; [done|lia]).
  assert (Hop : plain (str "nat_t_connect_request")) by (split; apply (bool_decide_unpack _); vm_compute; exact I).
  subst es. unfold request_elems.
  destruct (bool_decide (hint = [])), (bool_decide (target = [])); cbn [app];
    repeat split; first [apply missing_str; reflexivity | apply found_int64; reflexivity | apply found_int; reflexivity
      | apply found_str; [reflexivity|by apply Hplain]].
Qed.

(** C34: the reading of an answer. Whatever bytes arrive, the parser stays inside
    them and its verdict changes the result only to a usable address or to one
    of two errors; on an encoded element list it is the reference: the cookie
    is taken from every answer, the verdict only from one with the transaction
    and the operation of the request, and success comes before the report of
    several candidates. *)
Theorem nat_t_reply_reference pton m tran_id cookie result :
  view_ok m -> bytes_ok (m_body m) -> 0 <= cookie < 2 ^ 64 ->
  (exists st c r, nat_t_parse_response pton m tran_id cookie result = Ok (st, c, r) /\ 0 <= c < 2 ^ 64 /\
     reply_shape pton st result r) /\
  (forall es, reads m es ->
     nat_t_parse_response pton m tran_id cookie result = Ok (reply_of pton es tran_id cookie result)).
Proof. intros Hm Hb Hc. split; [by apply reply_total|]. intros es Hr. by apply reply_at. Qed.

(** ** The inner loop *)

(** A datagram that is not from the relay's address and port. *)
Definition foreign (relay_ip : Z) (e : event) : Prop :=
  match e with
  | EvData family ip port bytes => len bytes <> 0 /\ (family =? AF_INET) && (ip =? relay_ip) && (port =? NAT_T_PORT) = false
  | _ => False
  end.

Lemma drain_foreign pton addr relay_ip tran_id events cookie result : Forall (foreign relay_ip) events ->
  nat_t_drain pton addr relay_ip tran_id events cookie result = Ok (0, cookie, result, []).
Proof.
  induction 1 as [|e events He _ IH]; [done|]. destruct e as [| |family ip port bytes]; [done..|]. destruct He as [Hl Hf].
  cbn [nat_t_drain].
  replace (len bytes =? 0) with false by lia. by rewrite Hf.
Qed.

(** A stream of datagrams holds the exchange. Between two looks at the clock
    and at the cancel flag the exchange takes every datagram that waits, however
    many there are and whoever sent them: while they keep arriving neither the
    deadline nor a cancellation is noticed, and no request is repeated. *)
Theorem nat_t_flood `{Kernel} clock malloc ntop pton addr fuel x next cookie tries result w :
  let now := clock (n_ticks w) in
  now < x_giveup x -> now < next -> 0 < next -> (x_cancellable x = true -> k_cancel (y_calls (n_os w)) = false) ->
  Forall (foreign (x_relay x)) (n_events w) ->
  exists w', nat_t_loop clock malloc ntop pton addr (S fuel) x next cookie tries result w =
      nat_t_loop clock malloc ntop pton addr fuel x next cookie tries result w' /\
    n_events w' = [] /\ n_ticks w' = S (n_ticks w) /\ (y_calls (n_os w') <= S (y_calls (n_os w)))%nat /\
    n_sent w' = n_sent w.
Proof.
  intros now Hg Hn Hp Hc Hf. cbn [nat_t_loop].
  pose proof (drain_foreign pton addr (x_relay x) (x_tran x) _ cookie result Hf) as Hd.
  set (w1 := w <| n_ticks := S (n_ticks w) |>).
  rewrite (St_step _ _ w now w1) by done. replace (now >=? x_giveup x) with false by lia.
  assert (Hcan : exists w2, (if x_cancellable x then on_os (sys k_cancel) else mret false) w1 = Ok (false, w2) /\
    n_ticks w2 = S (n_ticks w) /\ n_events w2 = n_events w /\ n_sent w2 = n_sent w /\
    (y_calls (n_os w2) <= S (y_calls (n_os w)))%nat).
  { destruct (x_cancellable x); [|exists w1; repeat split; cbn; lia].
    eexists. split; [unfold on_os, sys; cbn; by rewrite Hc|]. repeat split; cbn; lia. }
  destruct Hcan as (w2 & Ec & Et & Eev & Es & Ey). rewrite (St_step _ _ _ _ _ Ec).
  rewrite (St_step _ _ w2 (n_events w) w2) by (unfold gets; by rewrite Eev).
  rewrite (St_step _ _ w2 (0, cookie, result, []) w2) by (unfold lift; by rewrite Hd).
  rewrite (St_step _ _ w2 tt (w2 <| n_events := [] |>)) by done. cbn [Z.eqb Z.ltb Z.compare].
  replace ((next =? 0) || (now >=? next)) with false by lia.
  rewrite (St_step _ _ _ tt (w2 <| n_events := [] |>)) by done. erewrite St_step by done.
  eexists. split; [reflexivity|]. by repeat split.
Qed.

(** ** Examples

    A relay that answers after the first request. *)
Definition ex_nat_kernel : Kernel := {|
  k_calloc _ := true; k_socket _ fds := 1 + fold_left Z.max fds 2; k_connect _ := CnFail; k_poll _ := PlReady;
  k_so_error _ := 0; k_setsockopt _ := 0; k_cancel _ := false; k_send _ room := TxBytes room; k_recv _ _ := RxBytes [];
  k_pton _ _ := false;
  k_getaddrinfo _ _ _ _ := Some [Addr AF_INET ([2; 0; 0; 0; 203; 0; 113; 5] ++ zeros 8)]; k_ntop _ _ _ := None |}.
Lemma ex_nat_laws : @KernelLaws ex_nat_kernel.
Proof.
  split.
  - intros k fds _. cbn. intros Hin. destruct (fold_max_ge fds 2) as [_ Hall]. rewrite Forall_forall in Hall.
    specialize (Hall _ Hin). lia.
  - intros n room k Hr. cbn. intros [= <-]. lia.
  - intros n room bs Hr. cbn. intros [= <-]. split; [done|constructor].
Qed.

Definition ex_clock (n : nat) : Z := Z.min (1000 + 40 * Z.of_nat n) 100000.
Definition ex_rnd : list Z := [1; 2; 3; 4; 5; 6; 7; 8].
Definition ex_ntop (_ : Z) : list Z := str "198.51.100.7".
Definition ex_pton (ip : list Z) : option Z := if bool_decide (ip = str "192.0.2.9") then Some 3221225993 else None.
Definition ex_relay : Z := 3405803781.
Definition ex_reply : list elem :=
  [int64_elem "tran_id" (nat_t_tran_id ex_rnd); str_elem "opcode" (str "nat_t_connect_request"); int64_elem "cookie" 77;
   Elem (str "ok") PACK_TYPE_INT [VInt 1]; str_elem "result_ip" (str "192.0.2.9"); Elem (str "result_port") PACK_TYPE_INT [VInt 4500]].
Definition ex_nat : nat_world :=
  NatWorld ex_os 0 [EvNone; EvData AF_INET 16909060 5004 [1]; EvData AF_INET ex_relay 5004 (encode ex_reply)] [] [].

Lemma ex_env : env_ok ex_clock ex_rnd ex_malloc ex_ntop 4096.
Proof.
  split.
  - by apply (bool_decide_unpack _).
  - exact ex_malloc_ok.
  - intros ip. by apply (bool_decide_unpack _).
  - by apply (bool_decide_unpack _).
  - intros n. unfold ex_clock. lia.
Qed.
Lemma ex_events : Forall event_ok (n_events ex_nat).
Proof. repeat constructor; apply (bool_decide_unpack _); vm_compute; exact I. Qed.
Lemma ex_nat_owns : owns (-1) [7] (n_os ex_nat).
Proof. split; [exact ex_nodup|reflexivity]. Qed.
Lemma ex_short (s : string) : bool_decide (short (str s)) = true -> short (str s).
Proof. apply bool_decide_eq_true. Qed.
Lemma ex_deadline : exists k, (k < 400)%nat /\ ex_clock 0 + (if 0 =? 0 then NAT_T_DEFAULT_TIMEOUT_MS else 0) <= ex_clock (1 + k).
Proof. exists 399%nat. split; [lia|]. by apply (bool_decide_unpack _). Qed.

(** The network's address is granted, with the socket that was opened. *)
Lemma nat_t_outcome_witness :
  exists res w', @nat_t_connect_internal ex_nat_kernel ex_clock (fun _ => 0) ex_rnd ex_malloc (fun _ => zeros 20) ex_ntop ex_pton 4096
      400 3325256711 [] [] [] 0 false false ex_nat = Ok ((0, res), w') /\
    res = NatResult 3221225993 4500 0 8 NAT_T_ERR_OK /\ y_open (n_os w') ≡ₚ [8; 7].
Proof.
  destruct (@nat_t_outcome ex_nat_kernel ex_nat_laws ex_clock (fun _ => 0) ex_rnd ex_malloc (fun _ => zeros 20) ex_ntop ex_pton 4096
      400 3325256711 [] [] [] 0 false false [7] ex_nat ex_env ex_nat_owns ex_events)
    as (r & res & w' & E & _ & [_ Ho] & _); try (by apply (bool_decide_unpack _)); [exact ex_deadline|].
  assert (Ev : exists p, @nat_t_connect_internal ex_nat_kernel ex_clock (fun _ => 0) ex_rnd ex_malloc (fun _ => zeros 20) ex_ntop ex_pton 4096
      400 3325256711 [] [] [] 0 false false ex_nat = Ok p /\ p.1 = (0, NatResult 3221225993 4500 0 8 NAT_T_ERR_OK))
    by (eexists; split; [vm_compute; reflexivity|reflexivity]).
  destruct Ev as (p & Ep & Hp). rewrite E in Ep. injection Ep as <-. cbn in Hp. injection Hp as -> ->.
  exists (NatResult 3221225993 4500 0 8 NAT_T_ERR_OK), w'. split; [exact E|]. split; [reflexivity|]. exact Ho.
Defined.

Lemma ex_heap : heap ex_malloc.
Proof. intros n Hn. unfold ex_malloc. replace (n <? 0) with false by lia. by eexists. Qed.
Lemma ex_monotone a b : (a <= b)%nat -> ex_clock a <= ex_clock b.
Proof. unfold ex_clock. lia. Qed.

(** A relay that stays silent for twelve seconds is asked six times at most. *)
Definition ex_silent : nat_world := ex_nat <| n_events := [] |>.

Lemma ex_plain (s : string) : bool_decide (plain (str s)) = true -> plain (str s).
Proof. apply bool_decide_eq_true. Qed.
Lemma nat_t_request_roundtrip_witness :
  exists bs, nat_t_request ex_malloc ex_ntop 7 1 9 [] (str "vpn.example") (str "SoftEther_VPN") = Ok (Some bs) /\
    pack_get_int64 (Some (Mem 64 0 bs)) (name "tran_id") = Ok 7 /\ pack_get_int64 (Some (Mem 64 0 bs)) (name "cookie") = Ok 9 /\
    cstr <$> pack_get_str (Some (Mem 64 0 bs)) (name "target_hostname") (2 ^ 21) = Ok (str "vpn.example") /\
    cstr <$> pack_get_str (Some (Mem 64 0 bs)) (name "hint") (2 ^ 21) = Err.
Proof.
  destruct (nat_t_request_roundtrip ex_malloc ex_ntop 7 1 9 [] (str "vpn.example") (str "SoftEther_VPN") ex_malloc_ok ex_heap)
    as (bs & E & H); [by apply (bool_decide_unpack _)..|].
  exists bs. split; [exact E|].
  assert (Hl : len bs <= 1000).
  { assert (Ev : exists b, nat_t_request ex_malloc ex_ntop 7 1 9 [] (str "vpn.example") (str "SoftEther_VPN") = Ok (Some b) /\
      len b <= 1000) by (eexists; split; [vm_compute; reflexivity|by apply (bool_decide_unpack _)]).
    destruct Ev as (b & Eb & Hb). rewrite E in Eb. injection Eb as <-. exact Hb. }
  destruct (H 0 (2 ^ 21)) as (_ & H1 & _ & H2 & H3 & H4 & _); [lia|lia|lia|].
  split; [exact H1|]. split; [exact H2|]. split; [exact H4|exact H3].
Defined.

Lemma ex_reply_reads : reads (Mem 64 4096 (encode ex_reply)) ex_reply.
Proof.
  split; [by apply (bool_decide_unpack _)|]. split; [by apply (bool_decide_unpack _)|]. split; [by apply (bool_decide_unpack _)|].
  exists []. by rewrite app_nil_r.
Qed.
Lemma nat_t_reply_reference_witness :
  nat_t_parse_response ex_pton (Mem 64 4096 (encode ex_reply)) (nat_t_tran_id ex_rnd) 0 (NatResult 0 0 0 (-1) 1) =
    Ok (1, 77, NatResult 3221225993 4500 0 (-1) 0) /\
  nat_t_parse_response ex_pton (Mem 64 4096 (encode ex_reply)) 5 0 (NatResult 0 0 0 (-1) 1) = Ok (0, 77, NatResult 0 0 0 (-1) 1).
Proof.
  assert (Hb : bytes_ok (encode ex_reply)) by (apply (bool_decide_unpack _); vm_compute; exact I).
  split.
  - destruct (nat_t_reply_reference ex_pton (Mem 64 4096 (encode ex_reply)) (nat_t_tran_id ex_rnd) 0 (NatResult 0 0 0 (-1) 1)
      (proj1 ex_reply_reads) Hb) as [_ H]; [lia|]. rewrite (H _ ex_reply_reads). vm_compute. reflexivity.
  - destruct (nat_t_reply_reference ex_pton (Mem 64 4096 (encode ex_reply)) 5 0 (NatResult 0 0 0 (-1) 1)
      (proj1 ex_reply_reads) Hb) as [_ H]; [lia|]. rewrite (H _ ex_reply_reads). vm_compute. reflexivity.
Defined.

(** A thousand datagrams of a stranger between two looks at the clock. *)
Definition ex_exchange : exchange := Exchange 1 ex_relay 8 7 13000 [] [] NAT_T_SVC_NAME false.
Definition ex_flooded : nat_world := ex_nat <| n_events := replicate 1000 (EvData AF_INET 16909060 5004 [1]) |>.
Lemma nat_t_flood_witness :
  exists w', @nat_t_loop ex_nat_kernel ex_clock ex_malloc ex_ntop ex_pton 4096 2 ex_exchange 1200 0 1 (NatResult 0 0 0 (-1) 1) ex_flooded =
    @nat_t_loop ex_nat_kernel ex_clock ex_malloc ex_ntop ex_pton 4096 1 ex_exchange 1200 0 1 (NatResult 0 0 0 (-1) 1) w' /\
    n_events w' = [] /\ n_ticks w' = 1%nat.
Proof.
  destruct (@nat_t_flood ex_nat_kernel ex_clock ex_malloc ex_ntop ex_pton 4096 1 ex_exchange 1200 0 1 (NatResult 0 0 0 (-1) 1) ex_flooded)
    as (w' & E & Hev & Ht & _); [by apply (bool_decide_unpack _)..|discriminate| |].
  - apply Forall_replicate. split; [discriminate|reflexivity].
  - exists w'. split; [exact E|]. split; [exact Hev|exact Ht].
Defined.
