(* ===== verification/RtConnect.v ===== *)
(** * R-UDP transport: set-up and teardown (rudp_transport.c)

    [rudp_transport_create], [_connect], [_disconnect] and [_destroy]: the
    sockets, the first state of the session, the start of the worker thread,
    the wait for its result, and the release of everything.

    [rworld] puts the transport next to the descriptors of [TcpSocket]. The
    worker runs while the caller waits: [r_sched] says, for every wait, which
    iterations the worker makes in it and whether the condition variable was
    signalled; a wait beyond the list runs into its deadline. A join lets the
    worker finish the iteration it is in, at most. [Ub] is also a use of the
    transport after [free]. *)
From S2P Require Import Prelude Bytes Crypto TcpSocket NatT.
From S2P Require Import Fifo Rt RtCodec RtSession.

Definition AF_UNIX : Z := 1.
Definition SOCK_RAW : Z := 3.

Class RtKernel := {
  k_bind : nat -> Z;
  k_fcntl : nat -> Z;
  k_socketpair : nat -> list Z -> option (Z * Z);
  k_pthread_create : nat -> Z;
  k_malloc : nat -> Z -> option (list Z) }.

(** A new pair is not open already; a block has the size that was asked for. *)
Class RtKernelLaws `{RtKernel} := {
  k_pair_fresh n fds a b : k_socketpair n fds = Some (a, b) ->
    0 <= a /\ 0 <= b /\ a <> b /\ (a ∉ fds) /\ (b ∉ fds);
  k_malloc_len n size blk : 0 <= size -> k_malloc n size = Some blk -> len blk = size }.

(** [rudp_transport_config_t]. *)
Record config := Config {
  cfg_server_ip : Z; cfg_server_port : Z; cfg_udp_fd : Z; cfg_timeout_ms : Z; cfg_mode : Z }.

(** One iteration of the worker: the datagrams it finds and what the socket
    pair does. *)
Record round := Round {
  rd_grams : list (Z * Z * list Z); rd_in : list Rt.recv_result; rd_room : list Rt.send_result }.

Record rworld := RWorld {
  r_w : world; r_os : os;
  r_live : bool;                               (** the object is allocated *)
  r_running : bool;                            (** the worker has not returned *)
  r_sched : list (list round * bool) }.
#[export] Instance eta_rworld : Eta rworld := fun w => RWorld
  (r_w w) (r_os w) (r_live w) (r_running w) (r_sched w).

Definition session_zero : rt_session :=
  Session 0 (zeros 20) (zeros 20) (zeros 20) (zeros 20) (zeros 20) 0 (zeros 20)
    0 0 0 0 0 0 0 0 0 0 0 0 [] [] [] (Fifo [] 0 0 0) (Fifo [] 0 0 0).
Definition transport_new : transport :=
  Transport (-1) (-1) (-1) RUDP_T_ERR_UNKNOWN false false 0 false false RUDP_T_MODE_UDP 0 (zeros 2) (zeros 2) 0
    false (zeros 20) session_zero.

Section connect.
Context `{Kernel} `{RtKernel}.
Context (sha1 : list Z -> list Z) (tick : nat -> Z) (rand : nat -> Z -> bool * list Z).
Abbreviation M := (St rworld).

Definition on_w {A} (m : St world A) : M A := fun w =>
  match m (r_w w) with Ub => Ub | Err => Err | Ok (a, y) => Ok (a, w <| r_w := y |>) end.
Definition on_sys {A} (m : St os A) : M A := fun w =>
  match m (r_os w) with Ub => Ub | Err => Err | Ok (a, y) => Ok (a, w <| r_os := y |>) end.

(** Every access of the object needs it allocated. *)
Definition the_t : M transport := fun w => if r_live w then Ok (w_t (r_w w), w) else Ub.
Definition set_t (f : transport -> transport) : M unit := _ ← the_t; on_w (modify_t f).
Definition fails (code : Z) : M unit := set_t (fun t => t <| error_code := code |>).

(** ** Descriptors *)

Definition rt_set_nonblocking (fd : Z) : M Z :=
  flags ← on_sys (sys k_fcntl);
  if flags <? 0 then mret (-1) else on_sys (note (ONonblock fd true) ;; sys k_fcntl).

Definition sys_socketpair : St os (option (Z * Z)) :=
  fds ← gets y_open;
  r ← sys (fun n => k_socketpair n fds);
  match r with
  | None => mret None
  | Some (a, b) =>
      note (OSocket AF_UNIX SOCK_STREAM a) ;; note (OSocket AF_UNIX SOCK_STREAM b) ;;
      modify (fun y => y <| y_open := b :: a :: y_open y |>) ;; mret (Some (a, b))
  end.

(** [if (fd >= 0) close(fd);] *)
Definition close_fd (fd : Z) : M unit := when (fd >=? 0) (on_sys (sys_close fd)).

Definition id_bytes (v : Z) : list Z := [u8 (v ≫ 8); Z.land v 255].
Definition rt_rand_id : M Z := r ← on_w (rt_rand_u32 rand); mret (u16 (r mod 65535 + 1)).

(** The datagram socket: the caller's, a raw one, or a new bound one. *)
Definition rt_open_udp (cfg : config) : M (option Z) :=
  if cfg_udp_fd cfg >=? 0 then mret (Some (cfg_udp_fd cfg)) else
  if cfg_mode cfg =? RUDP_T_MODE_ICMP then
    udp_fd ← on_sys (sys_socket AF_INET SOCK_RAW);
    if udp_fd <? 0 then mret None else
    my_icmp_id ← rt_rand_id;
    my_icmp_seq ← rt_rand_id;
    set_t (fun t => t <| client_icmp_id := id_bytes my_icmp_id |> <| client_icmp_seq := id_bytes my_icmp_seq |>
                      <| icmp_type := 0 |>) ;;
    mret (Some udp_fd)
  else
    udp_fd ← on_sys (sys_socket AF_INET SOCK_DGRAM);
    if udp_fd <? 0 then mret None else
    r ← on_sys (sys k_bind);
    if negb (r =? 0) then on_sys (sys_close udp_fd) ;; mret None else
    when (cfg_mode cfg =? RUDP_T_MODE_DNS) (id ← rt_rand_id; set_t (fun t => t <| dns_tran_id := id |>)) ;;
    mret (Some udp_fd).

(** ** The first state of the session *)

Definition rt_init_fifo : M rt_fifo := on_sys (sys (fun n => rt_fifo_init (k_malloc n) RUDP_T_MAX_FIFO_SIZE)).
Definition set_se (f : rt_session -> rt_session) : M unit := set_t (fun t => t <| se := f (se t) |>).

(** The result is false when the CSPRNG or the allocator fails. *)
Definition rt_open_session (cfg : config) : M bool :=
  created ← on_w (rt_tick64 tick);
  set_se (fun _ => session_zero <| status := RT_STATUS_CONNECT_SENT |> <| your_ip := cfg_server_ip cfg |>
                     <| your_port := cfg_server_port cfg |> <| created_tick := created |>) ;;
  key ← on_w (generate_random_bytes rand RUDP_T_SHA1_SIZE);
  set_se (fun s => s <| key_init := snd key |>) ;;
  if negb (fst key) then mret false else
  rnd ← on_w (generate_random_bytes rand 4);
  t ← the_t;
  s ← lift (rt_derive_keys sha1 rnd (se t));
  iv ← on_w (generate_random_bytes rand RUDP_T_SHA1_SIZE);
  latest ← on_w (rt_tick64 tick);
  r ← on_w (rt_rand_u32 rand);
  send ← rt_init_fifo;
  recv ← rt_init_fifo;
  set_se (fun _ => s <| next_iv := snd iv |> <| next_send_seq := 1 |> <| latest_recv_my_tick := latest |>
    <| next_keepalive_interval := RUDP_T_KEEPALIVE_MIN + r mod (RUDP_T_KEEPALIVE_MAX - RUDP_T_KEEPALIVE_MIN) |>
    <| send_fifo := send |> <| recv_fifo := recv |>) ;;
  if (f_cap send =? 0) || (f_cap recv =? 0) then mret false else
  match rt_fifo_write send (w64 (magic_disconnect s)) with
  | Ub => lift Ub
  | Err => mret true
  | Ok f => set_se (fun s => s <| send_fifo := f |>) ;; mret true
  end.

(** ** The worker beside the caller *)

Definition rt_round (r : round) : M bool :=
  on_w (modify (fun w => w <| w_app_in := rd_in r |> <| w_app_room := rd_room r |>)) ;;
  go ← on_w (worker_iter sha1 tick rand (rd_grams r));
  mret (bool_decide (is_Some go)).

Definition rt_worker_exit : M unit :=
  on_w (rt_set_disconnected sha1 tick rand false) ;; modify (fun w => w <| r_running := false |>).

(** The worker makes these iterations, unless it leaves its loop. *)
Fixpoint rt_run (rounds : list round) : M unit :=
  match rounds with
  | [] => mret tt
  | r :: rounds =>
      run ← gets r_running;
      if negb run then mret tt else
      t ← the_t;
      if halt t then rt_worker_exit else
      go ← rt_round r;
      if (go : bool) then rt_run rounds else rt_worker_exit
  end.

(** [pthread_join] after [halt] was set: the iteration under way ends, then the
    loop. *)
Definition rt_join (rounds : list round) : M unit :=
  run ← gets r_running;
  when run (match rounds with [] => mret tt | r :: _ => _ ← the_t; _ ← rt_round r; mret tt end ;; rt_worker_exit).

(** What the worker does in the next wait or join. *)
Definition rt_next : M (list round * bool) := fun w =>
  match r_sched w with
  | [] => Ok (([], false), w)
  | x :: rest => Ok (x, w <| r_sched := rest |>)
  end.

(** The wait for the result: true when it was cancelled. *)
Fixpoint rt_wait (cancellable : bool) (fuel : nat) : M bool :=
  t ← the_t;
  if result_ready t then mret false else
  cancel ← (if cancellable then on_sys (sys k_cancel) else mret false);
  if (cancel : bool) then mret true else
  '(rounds, signalled) ← rt_next;
  rt_run rounds ;;
  match fuel with
  | O => mret false
  | S fuel => if (signalled : bool) then rt_wait cancellable fuel else mret false
  end.

(** ** The interface *)

Definition rudp_transport_create : M bool :=
  ok ← on_sys (sys k_calloc);
  if negb ok then mret false else
  modify (fun w => w <| r_live := true |> <| r_running := false |>) ;; set_t (fun _ => transport_new) ;; mret true.

(** The end of the worker, which a failed connect and the destruction share. *)
Definition rt_stop : M unit :=
  t ← the_t;
  when (thread_started t) (
    set_t (fun t => t <| halt := true |>) ;;
    when (worker_fd t >=? 0) (on_sys (note (OShutdown (worker_fd t))) ;; on_w (modify (fun w => w <| w_shut := true |>))) ;;
    '(rounds, _) ← rt_next;
    rt_join rounds ;;
    set_t (fun t => t <| thread_started := false |>)).

Definition rt_free_fifos : M unit :=
  set_se (fun s => s <| send_fifo := rt_fifo_free (send_fifo s) |> <| recv_fifo := rt_fifo_free (recv_fifo s) |>).

(** The label [fail]. *)
Definition rt_abort : M Z :=
  rt_stop ;;
  t ← the_t; close_fd (udp_fd t) ;; set_t (fun t => t <| udp_fd := -1 |>) ;;
  t ← the_t; close_fd (worker_fd t) ;; set_t (fun t => t <| worker_fd := -1 |>) ;;
  t ← the_t; close_fd (app_fd t) ;; set_t (fun t => t <| app_fd := -1 |>) ;;
  rt_free_fifos ;; mret (-1).

(** The wait for the worker's verdict. *)
Definition rt_await (cancellable : bool) : M Z :=
  _ ← on_w (rt_tick64 tick);
  waits ← gets (fun w => length (r_sched w));
  cancelled ← rt_wait cancellable waits;
  if (cancelled : bool) then fails RUDP_T_ERR_TIMEOUT ;; rt_abort else
  t ← the_t;
  if result_ready t && result_ok t then fails RUDP_T_ERR_OK ;; mret 0 else
  when (error_code t =? RUDP_T_ERR_OK) (fails RUDP_T_ERR_TIMEOUT) ;; rt_abort.

Definition rt_launch (cfg : config) (cancellable : bool) : M Z :=
  ok ← rt_open_session cfg;
  if negb ok then fails RUDP_T_ERR_UNKNOWN ;; rt_abort else
  set_t (fun t => t <| halt := false |>) ;;
  r ← on_sys (sys k_pthread_create);
  if negb (r =? 0) then fails RUDP_T_ERR_UNKNOWN ;; rt_abort else
  set_t (fun t => t <| thread_started := true |>) ;; modify (fun w => w <| r_running := true |>) ;;
  rt_await cancellable.

(** From the socket pair on, every failure leads to [rt_abort]. *)
Definition rt_start (cfg : config) (cancellable : bool) : M Z :=
  pair ← on_sys sys_socketpair;
  match pair with
  | None => fails RUDP_T_ERR_UNKNOWN ;; rt_abort
  | Some (a, b) =>
      r ← rt_set_nonblocking a;
      if negb (r =? 0) then on_sys (sys_close a) ;; on_sys (sys_close b) ;; rt_abort else
      set_t (fun t => t <| worker_fd := a |> <| app_fd := b |>) ;;
      rt_launch cfg cancellable
  end.

Definition rudp_transport_connect (cfg : config) (cancellable : bool) : M Z :=
  if (cfg_server_ip cfg =? 0) || negb (cfg_mode cfg =? RUDP_T_MODE_ICMP) && (cfg_server_port cfg =? 0)
  then fails RUDP_T_ERR_UNKNOWN ;; mret (-1) else
  let timeout_ms := if cfg_timeout_ms cfg =? 0 then RUDP_T_TIMEOUT_MS else cfg_timeout_ms cfg in
  let hashed := (cfg_mode cfg =? RUDP_T_MODE_DNS) || (cfg_mode cfg =? RUDP_T_MODE_ICMP) in
  set_t (fun t => t <| connect_timeout_ms := timeout_ms |> <| transport_mode := cfg_mode cfg |>
    <| svc_name_hash := if hashed then rt_compute_svc_name_hash sha1 NAT_T_SVC_NAME else svc_name_hash t |>
    <| svc_name_hash_valid := hashed |>) ;;
  udp ← rt_open_udp cfg;
  match udp with
  | None => fails RUDP_T_ERR_UNKNOWN ;; mret (-1)
  | Some fd =>
      r ← rt_set_nonblocking fd;
      if negb (r =? 0) then
        when (cfg_udp_fd cfg <? 0) (on_sys (sys_close fd)) ;; fails RUDP_T_ERR_UNKNOWN ;; mret (-1)
      else set_t (fun t => t <| udp_fd := fd |>) ;; rt_start cfg cancellable
  end.

Definition rudp_transport_get_fd : M Z := t ← the_t; mret (app_fd t).
Definition rudp_transport_get_udp_fd : M Z := t ← the_t; mret (udp_fd t).
Definition rudp_transport_get_error : M Z := t ← the_t; mret (error_code t).

Definition rudp_transport_disconnect : M unit :=
  set_t (fun t => t <| halt := true |>) ;;
  t ← the_t;
  when (worker_fd t >=? 0) (on_sys (note (OShutdown (worker_fd t))) ;; on_w (modify (fun w => w <| w_shut := true |>))).

Definition rudp_transport_destroy : M unit :=
  set_t (fun t => t <| halt := true |>) ;;
  rt_stop ;;
  t ← the_t; close_fd (worker_fd t) ;; set_t (fun t => t <| worker_fd := -1 |>) ;;
  t ← the_t; close_fd (app_fd t) ;; set_t (fun t => t <| app_fd := -1 |>) ;;
  t ← the_t; close_fd (udp_fd t) ;; set_t (fun t => t <| udp_fd := -1 |>) ;;
  rt_free_fifos ;; modify (fun w => w <| r_live := false |>).
End connect.
