(* ===== verification/RtConnectSpec.v ===== *)
(** * What set-up and teardown of the reliable transport promise

    [attached] is the invariant of a transport object between two calls: its
    descriptors are open and nobody else's, and its worker, when it was started,
    stands on a well-formed session. Connecting, running and destroying keep
    it, whatever the system calls, the peer and the scheduler do. *)
From S2P Require Import Prelude Bytes Crypto TcpSocket TcpSocketSpec NatT.
From S2P Require Import Fifo Rt RtCodec RtSession RtWire RtInv RtWorker RtSpec RtConnect.

(** ** Descriptors *)

(** The descriptors [l] are open besides the [others]. *)
Definition holds (l others : list Z) (y : os) : Prop := NoDup (y_open y) /\ y_open y ≡ₚ l ++ others.

Lemma holds_perm l l' others y : l ≡ₚ l' -> holds l others y -> holds l' others y.
Proof. intros E [Hn Hp]. split; [done|]. by rewrite Hp, E. Qed.
Lemma holds_owns fd l others y : 0 <= fd -> holds (fd :: l) others y <-> owns fd (l ++ others) y.
Proof. intros Hf. unfold holds, owns, fd_list. by replace (fd <? 0) with false by lia. Qed.
Lemma holds_owns_none l others y : holds l others y <-> owns (-1) (l ++ others) y.
Proof. done. Qed.

(** The valid descriptors among three. *)
Definition fds3 (a b c : Z) : list Z := filter (fun fd => 0 <= fd) [a; b; c].
Definition fds (t : transport) : list Z := fds3 (udp_fd t) (worker_fd t) (app_fd t).

Lemma fds3_cons (a : Z) l : filter (fun fd => 0 <= fd) (a :: l) = fd_list a ++ filter (fun fd => 0 <= fd) l.
Proof.
  rewrite filter_cons. unfold fd_list. destruct (decide (0 <= a)).
  - by replace (a <? 0) with false by lia.
  - by replace (a <? 0) with true by lia.
Qed.

Section spec.
Context `{HK : Kernel} `{!KernelLaws} `{HR : RtKernel} `{!RtKernelLaws}.
Context (sha1 : list Z -> list Z) (tick : nat -> Z) (rand : nat -> Z -> bool * list Z).
Context (Hsha : sha1_ok sha1) (Hrand : rand_ok rand).
(** The iterations the worker is still to make beyond the scheduled ones. *)
Context (spare : nat).

(** ** The worker beside the caller *)

Definition round_ok (r : round) : Prop := Forall (fun g => bytes_ok (snd g)) (rd_grams r) /\ room_ok (rd_room r).
Definition total (sched : list (list round * bool)) : Z := Z.of_nat (sum_list_with (fun x => length (fst x)) sched).

(** The session is well formed, and its sequence numbers have room for [k]
    iterations and those the scheduler has in store. *)
Definition ready (k : nat) (w : rworld) : Prop :=
  exists b, safe_upto b (r_w w) /\ b + 200 * (Z.of_nat k + total (r_sched w)) + 200 < 2 ^ 63.
Definition sched_ok (w : rworld) : Prop := Forall (fun x => Forall round_ok (fst x)) (r_sched w).

Lemma wp_on_w {A} (m : St world A) (Q : A -> rworld -> Prop) w :
  wp m (fun a y => Q a (w <| r_w := y |>)) (r_w w) -> wp (on_w m) Q w.
Proof. unfold wp, on_w. by destruct (m (r_w w)) as [| |[a y]]. Qed.
Lemma wp_on_sys {A} (m : St os A) (Q : A -> rworld -> Prop) w :
  wp m (fun a y => Q a (w <| r_os := y |>)) (r_os w) -> wp (on_sys m) Q w.
Proof. unfold wp, on_sys. by destruct (m (r_os w)) as [| |[a y]]. Qed.
Lemma wp_the_t (Q : transport -> rworld -> Prop) w : r_live w = true -> Q (w_t (r_w w)) w -> wp the_t Q w.
Proof. unfold wp, the_t. by intros ->. Qed.
Lemma wp_set_t f (Q : unit -> rworld -> Prop) w :
  r_live w = true -> Q tt (w <| r_w := (r_w w) <| w_t := f (w_t (r_w w)) |> |>) -> wp (set_t f) Q w.
Proof. intros Hl HQ. unfold set_t. wp_step. by apply wp_the_t. Qed.
Lemma wp_next (Q : list round * bool -> rworld -> Prop) w :
  (r_sched w = [] -> Q ([], false) w) ->
  (forall x rest, r_sched w = x :: rest -> Q x (w <| r_sched := rest |>)) -> wp rt_next Q w.
Proof. unfold wp, rt_next. destruct (r_sched w); eauto. Qed.

(** An operation of the worker: the session stays well formed, the fields of
    the owner stay as they are. *)
Lemma wp_worker {A} b b' (m : St world A) w :
  triple (safe_upto b) m (fun _ => safe_upto b') -> keeps ends m -> safe_upto b w ->
  wp m (fun _ w' => safe_upto b' w' /\ ends w' = ends w) w.
Proof.
  intros Ht Hk Hw. specialize (Ht w Hw). specialize (Hk w). unfold wp. destruct (m w) as [| |[a w']]; [done..|]. by split.
Qed.

Lemma keeps_ends {A} (m : St world A) : keeps outside m -> keeps ends m.
Proof. intros Hm w. specialize (Hm w). destruct (m w) as [| |[a w']]; [done..|]. by apply (f_equal snd) in Hm. Qed.
Hint Resolve keeps_ends keeps_send_udp keeps_send keeps_signal keeps_disconnected keeps_handle : keeps.
Ltac keeps_ends := repeat first [solve [auto with keeps] | keeps_step].

Lemma keeps_echo : keeps ends (rt_send_icmp_echo sha1 tick rand).
Proof. unfold rt_send_icmp_echo, rt_rand_u32. keeps_ends. Qed.
Lemma keeps_echo_again now : keeps ends (echo_again rand now).
Proof. unfold echo_again, rt_rand_u32. keeps_ends. Qed.
Hint Resolve keeps_echo keeps_echo_again : keeps.
Lemma keeps_echo_due now : keeps ends (icmp_echo_due sha1 tick rand now).
Proof. unfold icmp_echo_due. keeps_ends. Qed.
Hint Resolve keeps_echo_due : keeps.
Lemma keeps_connect_sent now : keeps ends (interrupt_connect_sent sha1 tick rand now).
Proof. unfold interrupt_connect_sent. keeps_ends. Qed.
Lemma keeps_pump_recv room : keeps ends (pump_recv_loop sha1 tick rand room).
Proof. induction room as [|[k|] room IH]; cbn [pump_recv_loop]; keeps_ends. Qed.
Lemma keeps_pump_send inp : keeps ends (pump_send_loop sha1 tick rand inp).
Proof. induction inp as [|[d| |] inp IH]; cbn [pump_send_loop]; keeps_ends. Qed.
Lemma keeps_keepalive now : keeps ends (keepalive rand now).
Proof. unfold keepalive, rt_rand_u32. keeps_ends. Qed.
Lemma keeps_retransmit now : keeps ends (retransmit sha1 tick rand now).
Proof.
  unfold retransmit. keeps_tac. apply keeps_for_each. intros j. unfold resend_one. apply keeps_bind; [done|]. intros s.
  destruct (send_segments s !! j); keeps_ends.
Qed.
Lemma keeps_drain_acks n : keeps ends (drain_acks sha1 tick rand n).
Proof. induction n; cbn [drain_acks]; keeps_ends. Qed.
Hint Resolve keeps_connect_sent keeps_pump_recv keeps_pump_send keeps_keepalive keeps_retransmit keeps_drain_acks : keeps.
Lemma keeps_interrupt now : keeps ends (rt_interrupt sha1 tick rand now).
Proof. unfold rt_interrupt, rt_pump_recv_to_pair, rt_pump_pair_to_send. keeps_ends. Qed.
Lemma keeps_recv_loop grams : keeps ends (recv_loop sha1 tick rand grams).
Proof.
  induction grams as [|[[ip port] dg] grams IH]; cbn [recv_loop]; [done|]. cbv zeta. apply keeps_if; [done|].
  intros w. unfold get_t, gets, mbind, St_bind. destruct (rt_strip _ _) as [[t d]|] eqn:E; [|apply IH].
  assert (He : ends (w <| w_t := t |>) = ends w).
  { unfold rt_strip in E. repeat case_match; simplify_eq; done. }
  set (m := rt_handle_udp_packet sha1 tick rand ip port d ;; recv_loop sha1 tick rand grams).
  assert (Hk : keeps ends m) by (apply keeps_bind; auto with keeps).
  specialize (Hk (w <| w_t := t |>)). change (match m (w <| w_t := t |>) with Ok (_, w') => ends w' = ends w | _ => True end).
  destruct (m _) as [| |[a w']]; [done..|]. exact (eq_trans Hk He).
Qed.
Hint Resolve keeps_interrupt keeps_recv_loop : keeps.
Lemma keeps_iter grams : keeps ends (worker_iter sha1 tick rand grams).
Proof. unfold worker_iter. keeps_ends. Qed.

(** What the worker leaves alone. *)
Definition beside (w w' : rworld) : Prop :=
  r_os w' = r_os w /\ r_live w' = r_live w /\ r_sched w' = r_sched w /\ ends (r_w w') = ends (r_w w).

Lemma beside_refl w : beside w w.
Proof. done. Qed.
Lemma beside_trans w1 w2 w3 : beside w1 w2 -> beside w2 w3 -> beside w1 w3.
Proof. intros (? & ? & ? & ?) (? & ? & ? & ?). unfold beside. by split_and!; etrans. Qed.
Lemma beside_ready k w w' b : beside w w' -> safe_upto b (r_w w') ->
  b + 200 * (Z.of_nat k + total (r_sched w)) + 200 < 2 ^ 63 -> ready k w'.
Proof. intros (_ & _ & E & _) Hs Hb. exists b. by rewrite E. Qed.
Lemma ready_weaken k k' w : (k' <= k)%nat -> ready k w -> ready k' w.
Proof. intros Hk (b & Hs & Hb). exists b. split; [done|]. unfold total in *. lia. Qed.

Lemma rt_round_wp r k w : ready (S k) w -> round_ok r ->
  wp (rt_round sha1 tick rand r) (fun _ w' => beside w w' /\ ready k w' /\ r_running w' = r_running w) w.
Proof.
  intros (b & Hs & Hb) [Hg Hr]. unfold rt_round. wp_step. apply wp_on_w, wp_modify. wp_step. apply wp_on_w.
  set (w1 := (r_w w) <| w_app_in := _ |> <| w_app_room := _ |>). cbn [r_w upd eta_rworld].
  pose proof (worker_iter_ok sha1 tick rand Hsha Hrand b (rd_grams r) ltac:(unfold total in Hb; lia) Hg w1) as Hi.
  specialize (Hi ltac:(by split)). pose proof (keeps_iter (rd_grams r) w1) as Hk.
  unfold wp. change (r_w (w <| r_w := w1 |>)) with w1. destruct (worker_iter _ _ _ _ w1) as [| |[go w2]]; [done..|].
  split; [by split|]. split; [|done]. apply (beside_ready k w _ (b + 200)); [by split|exact Hi|]. unfold total in *. lia.
Qed.

Lemma exit_wp k w : ready k w ->
  wp (rt_worker_exit sha1 tick rand) (fun _ w' => beside w w' /\ ready k w' /\ r_running w' = false) w.
Proof.
  intros (b & Hs & Hb). unfold rt_worker_exit. wp_step. apply wp_on_w.
  eapply wp_mono; [apply (wp_worker b b); [by apply upto_disconnected|auto with keeps|done]|].
  intros ? y [Hy He]. wp_step. split; [by split|]. split; [by exists b|done].
Qed.

Lemma run_wp rounds k w : r_live w = true -> ready (length rounds + k) w -> Forall round_ok rounds ->
  wp (rt_run sha1 tick rand rounds) (fun _ w' => beside w w' /\ ready k w') w.
Proof.
  intros Hl Hr Hok. revert w Hl Hr. induction Hok as [|r rounds Hround _ IH]; intros w Hl Hr; cbn [rt_run].
  { wp_step. by split. }
  wp_pure. wp_step; [wp_step; split; [done|eapply ready_weaken; [|exact Hr]; cbn; lia]|]. wp_step. apply wp_the_t; [done|].
  assert (Hexit : forall w', beside w w' -> ready (length rounds + k) w' ->
    wp (rt_worker_exit sha1 tick rand) (fun _ w' => beside w w' /\ ready k w') w').
  { intros w' Hb Hr'. eapply wp_mono; [by apply exit_wp|]. intros ? w2 (Hb2 & Hr2 & _). split; [by eapply beside_trans|].
    eapply ready_weaken; [|exact Hr2]. lia. }
  wp_step; [apply Hexit; [done|eapply ready_weaken; [|exact Hr]; cbn; lia]|]. wp_step.
  eapply wp_mono; [by apply (rt_round_wp r (length rounds + k))|]. intros go w1 (Hb & Hr1 & _). wp_step; [|by apply Hexit].
  eapply wp_mono; [apply IH; [by destruct Hb as (_ & -> & _)|done]|]. intros ? w2 [Hb2 Hr2]. split; [by eapply beside_trans|done].
Qed.

Lemma join_wp rounds k w : r_live w = true -> ready (length rounds + k) w -> Forall round_ok rounds ->
  wp (rt_join sha1 tick rand rounds) (fun _ w' => beside w w' /\ ready k w' /\ r_running w' = false) w.
Proof.
  intros Hl Hr Hok. unfold rt_join. wp_step. wp_step. wp_step.
  2:{ split; [done|]. split; [|by destruct (r_running w)]. eapply ready_weaken; [|exact Hr]. lia. }
  assert (Hexit : forall w', beside w w' -> ready k w' ->
    wp (rt_worker_exit sha1 tick rand) (fun _ w' => beside w w' /\ ready k w' /\ r_running w' = false) w').
  { intros w' Hb Hr'. eapply wp_mono; [by apply exit_wp|]. intros ? w2 (Hb2 & Hr2 & ?). split; [by eapply beside_trans|done]. }
  wp_step. destruct Hok as [|r rounds Hround _]; [wp_step; by apply Hexit|].
  wp_step. apply wp_the_t; [done|]. wp_step. eapply wp_mono; [apply (rt_round_wp r k); [|done]; eapply ready_weaken; [|exact Hr]; cbn; lia|].
  intros ? w1 (Hb & Hr1 & _). wp_step. by apply Hexit.
Qed.

(** ** The invariant of the object *)

Definition attached (others : list Z) (w : rworld) : Prop :=
  let t := w_t (r_w w) in
  r_live w = true /\ holds (fds t) others (r_os w) /\ sched_ok w /\
  (if thread_started t then ready spare w else r_running w = false).

(** The worker and the scheduler move on; the owner's part stays. *)
Definition moved (w w' : rworld) : Prop :=
  r_live w' = r_live w /\ ends (r_w w') = ends (r_w w) /\ tidy (r_os w) (r_os w') /\ y_open (r_os w') = y_open (r_os w).

Lemma moved_trans w1 w2 w3 : moved w1 w2 -> moved w2 w3 -> moved w1 w3.
Proof.
  intros (? & ? & ? & ?) (? & ? & ? & ?). split; [by etrans|]. split; [by etrans|]. split; [by eapply tidy_trans|by etrans].
Qed.
Lemma beside_moved w w' : beside w w' -> moved w w'.
Proof. intros (Eo & El & _ & Ee). unfold moved. rewrite Eo. by split_and!; [..|apply ran_refl|]. Qed.
Lemma moved_quiet w y : quiet (r_os w) y -> moved w (w <| r_os := y |>).
Proof. intros Hq. split; [done|]. split; [done|]. split; [by apply quiet_tidy|by destruct Hq]. Qed.
Lemma moved_ready w y k : ready k w -> ready k (w <| r_os := y |>).
Proof. done. Qed.

(** What the next wait or join takes from the scheduler. *)
Lemma next_wp k w : sched_ok w -> ready k w ->
  wp rt_next (fun x w' => moved w w' /\ r_os w' = r_os w /\ r_running w' = r_running w /\ sched_ok w' /\
    ready (length (fst x) + k) w' /\ Forall round_ok (fst x)) w.
Proof.
  intros Hs (b & Hb & Hn). apply wp_next; [intros E|intros x rest E].
  - split; [by apply beside_moved|]. split; [done|]. split; [done|]. split; [done|]. split; [by exists b|constructor].
  - unfold sched_ok in Hs. rewrite E in Hs. apply Forall_cons in Hs as [Hx Hrest].
    split; [split_and!; [done|done|apply ran_refl|done]|]. split; [done|]. split; [done|]. split; [done|]. split; [|done].
    exists b. split; [done|]. cbn [r_sched upd eta_rworld]. rewrite E in Hn. unfold total in *. cbn [sum_list_with] in Hn. lia.
Qed.

Lemma rt_wait_wp k cancellable fuel w : r_live w = true -> sched_ok w -> ready k w ->
  wp (rt_wait sha1 tick rand cancellable fuel) (fun _ w' => moved w w' /\ sched_ok w' /\ ready k w') w.
Proof.
  revert w. induction fuel as [|fuel IH]; intros w Hl Hs Hr; cbn [rt_wait]; wp_step; apply wp_the_t; try done.
  all: wp_step; [wp_step; split; [by apply beside_moved|done]|]; wp_step.
  all: apply wp_mono with (P := fun _ w' => moved w w' /\ sched_ok w' /\ ready k w');
    [wp_step; [apply wp_on_sys, wp_sys; split; [by apply moved_quiet|done]|wp_step; split; [by apply beside_moved|done]]|].
  all: intros cancel w1 (Hm & Hs1 & Hr1); wp_step; [by wp_step|]; wp_step.
  all: eapply wp_mono; [by apply (next_wp k)|]; intros [rounds signalled] w2 (Hm2 & Eo & _ & Hs2 & Hr2 & Hok); cbn [fst] in *.
  all: assert (Hl2 : r_live w2 = true) by (destruct Hm as (E1 & _), Hm2 as (E2 & _); congruence).
  all: wp_step; eapply wp_mono; [by apply (run_wp rounds k)|]; intros ? w3 [Hb Hr3].
  all: assert (Hm3 : moved w w3) by (eapply moved_trans; [exact Hm|]; eapply moved_trans; [exact Hm2|by apply beside_moved]).
  all: assert (Hs3 : sched_ok w3) by (destruct Hb as (_ & _ & E & _); unfold sched_ok; by rewrite E).
  - by wp_step.
  - wp_step; [|by wp_step]. eapply wp_mono; [apply IH; [destruct Hm3; congruence|done|done]|].
    intros ? w4 (Hm4 & ?). split; [by eapply moved_trans|done].
Qed.

(** ** Stopping and releasing *)

(** The worker is joined; the descriptors are the caller's business again. *)
Definition stopped (w : rworld) : Prop :=
  r_live w = true /\ sched_ok w /\ thread_started (w_t (r_w w)) = false /\ r_running w = false.
Definition same_fds (t t' : transport) : Prop :=
  udp_fd t' = udp_fd t /\ worker_fd t' = worker_fd t /\ app_fd t' = app_fd t.

Lemma ends_fds w w' : ends (r_w w') = ends (r_w w) -> same_fds (w_t (r_w w)) (w_t (r_w w')).
Proof. unfold ends. by intros [= ? ? ? ? ?]. Qed.
Lemma holds_open l others w w' : y_open w' = y_open w -> holds l others w -> holds l others w'.
Proof. unfold holds. by intros ->. Qed.

(** [shutdown] of an open worker end. *)
Lemma shutdown_wp l others w : holds l others (r_os w) -> worker_fd (w_t (r_w w)) ∈ l ->
  wp (on_sys (note (OShutdown (worker_fd (w_t (r_w w))))) ;; on_w (modify (fun w => w <| w_shut := true |>)))
    (fun _ w' => moved w w' /\ r_sched w' = r_sched w /\ r_running w' = r_running w /\ forall k, ready k w -> ready k w') w.
Proof.
  intros [_ Hp] Hin. wp_step. apply wp_on_sys, wp_note. apply wp_on_w, wp_modify.
  split; [|split; [done|split; [done|by intros k (b & ?); exists b]]]. split_and!; [done|done| |done].
  apply (note_ran (OShutdown _)); [done|]. cbn [call_fd]. rewrite Hp, elem_of_app. by left.
Qed.

Lemma stop_wp others w : attached others w ->
  wp (rt_stop sha1 tick rand) (fun _ w' => stopped w' /\ holds (fds (w_t (r_w w))) others (r_os w') /\
    same_fds (w_t (r_w w)) (w_t (r_w w')) /\ tidy (r_os w) (r_os w')) w.
Proof.
  intros (Hl & Hh & Hs & Hst). unfold rt_stop. wp_step. apply wp_the_t; [done|].
  wp_step; rewrite Hc in Hst; [|split_and!; (done || apply ran_refl)].
  wp_step. apply wp_set_t; [done|]. wp_step.
  set (w1 := w <| r_w := _ |>). set (t := w_t (r_w w)) in *.
  assert (Hm1 : r_live w1 = true /\ r_os w1 = r_os w /\ same_fds t (w_t (r_w w1)) /\ sched_ok w1 /\ ready spare w1) by done.
  clearbody w1. destruct Hm1 as (Hl1 & Eo1 & Hf1 & Hs1 & Hr1).
  apply wp_mono with (P := fun _ w2 => moved w1 w2 /\ sched_ok w2 /\ ready spare w2).
  { wp_step; [|by split; [apply beside_moved|]]. replace (worker_fd t) with (worker_fd (w_t (r_w w1))) by (by destruct Hf1 as (_ & -> & _)).
    eapply wp_mono; [apply (shutdown_wp (fds t) others); [by rewrite Eo1|]|].
    - destruct Hf1 as (_ & -> & _). unfold fds, fds3. apply list_elem_of_filter. split; [lia|]. right. by left.
    - intros ? w2 (Hm & Es & _ & Hr). split; [done|]. split; [unfold sched_ok; by rewrite Es|by apply Hr]. }
  intros ? w2 (Hm2 & Hs2 & Hr2). wp_step. eapply wp_mono; [by apply (next_wp spare)|].
  intros [rounds sg] w3 (Hm3 & _ & _ & Hs3 & Hr3 & Hok). cbn [fst] in *.
  assert (Hm : moved w1 w3) by (by eapply moved_trans).
  wp_step. eapply wp_mono; [apply (join_wp rounds spare); [destruct Hm; congruence|done|done]|].
  intros ? w4 (Hb4 & Hr4 & Hrun). assert (Hm4 : moved w1 w4) by (eapply moved_trans; [exact Hm|by apply beside_moved]).
  destruct Hm4 as (El & Ee & Ht & Ey). apply wp_set_t; [congruence|]. split; [split; [cbn; congruence|]|].
  - destruct Hb4 as (_ & _ & E & _). split; [unfold sched_ok; cbn; by rewrite E|done].
  - rewrite Eo1 in *. split; [by eapply holds_open|]. split; [|done]. apply ends_fds in Ee. unfold same_fds in *. cbn. intuition congruence.
Qed.

Lemma close_fd_wp fd l others w : holds (fd_list fd ++ l) others (r_os w) ->
  wp (close_fd fd) (fun _ w' => exists y, w' = w <| r_os := y |> /\ holds l others y /\ tidy (r_os w) y) w.
Proof.
  intros Hh. unfold close_fd. wp_step.
  - apply wp_on_sys. eapply wp_mono; [apply (close_wp fd (l ++ others)); [|lia]|].
    + unfold owns, holds in *. by rewrite <- app_assoc in Hh.
    + intros ? y [Ht Ho]. by exists y.
  - exists (r_os w). split; [by destruct w|]. split; [|apply ran_refl]. unfold fd_list in Hh. by replace (fd <? 0) with true in Hh by lia.
Qed.

Lemma fds_split t : fds t = fd_list (udp_fd t) ++ fd_list (worker_fd t) ++ fd_list (app_fd t).
Proof. unfold fds, fds3. rewrite !fds3_cons. cbn. by rewrite app_nil_r. Qed.

Definition detached (others : list Z) (w : rworld) : Prop :=
  holds [] others (r_os w) /\ r_running w = false /\ fds (w_t (r_w w)) = [] /\ thread_started (w_t (r_w w)) = false /\ sched_ok w.

Lemma fds_none t : fds (t <| udp_fd := -1 |> <| worker_fd := -1 |> <| app_fd := -1 |>) = [].
Proof. done. Qed.

Ltac rclose l :=
  wp_step; eapply wp_mono; [apply (close_fd_wp _ l)|].

Lemma abort_wp others w : attached others w ->
  wp (rt_abort sha1 tick rand) (fun r w' => r = -1 /\ r_live w' = true /\ detached others w' /\ tidy (r_os w) (r_os w')) w.
Proof.
  intros Ha. unfold rt_abort. wp_step. eapply wp_mono; [by apply stop_wp|].
  intros ? w1 ((Hl & Hs & Hst & Hrun) & Hh & (E1 & E2 & E3) & Ht). rewrite fds_split in Hh.
  rewrite <- E1, <- E2, <- E3 in Hh. clear E1 E2 E3 Ha.
  wp_step. apply wp_the_t; [done|]. rclose (fd_list (worker_fd (w_t (r_w w1))) ++ fd_list (app_fd (w_t (r_w w1)))); [exact Hh|].
  intros ? w2 (y2 & -> & Hh2 & Ht2). wp_step. apply wp_set_t; [done|].
  wp_step. apply wp_the_t; [done|]. cbn [r_w w_t worker_fd upd eta_rworld eta_world eta_transport].
  rclose (fd_list (app_fd (w_t (r_w w1)))); [exact Hh2|].
  intros ? w3 (y3 & -> & Hh3 & Ht3). wp_step. apply wp_set_t; [done|].
  wp_step. apply wp_the_t; [done|]. cbn [r_w w_t app_fd upd eta_rworld eta_world eta_transport].
  rclose ([] : list Z); [by rewrite app_nil_r|].
  intros ? w4 (y4 & -> & Hh4 & Ht4). wp_step. apply wp_set_t; [done|]. wp_step. unfold rt_free_fifos, set_se. apply wp_set_t; [done|].
  wp_step. split; [done|]. split; [done|]. split; [by split_and!|].
  eapply tidy_trans; [exact Ht|]. eapply tidy_trans; [exact Ht2|]. by eapply tidy_trans.
Qed.

Lemma destroy_wp others w : attached others w ->
  wp (rudp_transport_destroy sha1 tick rand) (fun _ w' => r_live w' = false /\ detached others w' /\ tidy (r_os w) (r_os w')) w.
Proof.
  intros Ha. unfold rudp_transport_destroy. wp_step. apply wp_set_t; [by destruct Ha|]. set (w0 := w <| r_w := _ |>).
  assert (Ha0 : attached others w0) by done. change (tidy (r_os w)) with (tidy (r_os w0)). clearbody w0. clear Ha w.
  wp_step. eapply wp_mono; [by apply stop_wp|].
  intros ? w1 ((Hl & Hs & Hst & Hrun) & Hh & (E1 & E2 & E3) & Ht). rewrite fds_split in Hh.
  rewrite <- E1, <- E2, <- E3 in Hh. clear E1 E2 E3 Ha0.
  wp_step. apply wp_the_t; [done|]. rclose (fd_list (app_fd (w_t (r_w w1))) ++ fd_list (udp_fd (w_t (r_w w1)))).
  { eapply holds_perm; [|exact Hh]. solve_Permutation. }
  intros ? w2 (y2 & -> & Hh2 & Ht2). wp_step. apply wp_set_t; [done|].
  wp_step. apply wp_the_t; [done|]. cbn [r_w w_t app_fd upd eta_rworld eta_world eta_transport].
  rclose (fd_list (udp_fd (w_t (r_w w1)))); [exact Hh2|].
  intros ? w3 (y3 & -> & Hh3 & Ht3). wp_step. apply wp_set_t; [done|].
  wp_step. apply wp_the_t; [done|]. cbn [r_w w_t udp_fd upd eta_rworld eta_world eta_transport].
  rclose ([] : list Z); [by rewrite app_nil_r|].
  intros ? w4 (y4 & -> & Hh4 & Ht4). wp_step. apply wp_set_t; [done|]. wp_step. unfold rt_free_fifos, set_se. apply wp_set_t; [done|].
  wp_step. split; [done|]. split; [by split_and!|].
  eapply tidy_trans; [exact Ht|]. eapply tidy_trans; [exact Ht2|]. by eapply tidy_trans.
Qed.

(** ** The first state of the session *)

(** A session that has sent and received nothing; the first bytes in its send
    FIFO are the big-endian sequence number that means disconnection. *)
Definition session_start (cfg : config) (s : rt_session) : Prop :=
  upto 1 s /\ status s = RT_STATUS_CONNECT_SENT /\ your_ip s = cfg_server_ip cfg /\ your_port s = cfg_server_port cfg /\
  next_send_seq s = 1 /\ last_recv_complete_seq s = 0 /\
  send_segments s = [] /\ recv_segments s = [] /\ reply_acks s = [] /\
  contents (send_fifo s) = w64 (magic_disconnect s) /\ contents (recv_fifo s) = [] /\
  2 ^ 64 - 2 ^ 32 <= magic_disconnect s < 2 ^ 64 /\
  RUDP_T_KEEPALIVE_MIN <= next_keepalive_interval s < RUDP_T_KEEPALIVE_MAX.

Lemma derive_key_ok key s : len key = 20 -> len s <= 64 -> exists k, rt_derive_key sha1 key s = Ok k /\ len k = 20.
Proof.
  intros Hk Hs. unfold rt_derive_key. rewrite filled_ok by (rt_consts; rewrite !len_app, Hk; change (len (w32 _)) with 4; lia).
  eexists. split; [done|apply Hsha].
Qed.

Lemma derive_keys_ok rnd s : len (key_init s) = 20 ->
  exists ks kr mq mp md, rt_derive_keys sha1 rnd s = Ok (s <| key_send := ks |> <| key_recv := kr |> <| magic_req := mq |>
      <| magic_resp := mp |> <| magic_disconnect := md |>) /\
    len ks = 20 /\ len mq = 20 /\ len mp = 20 /\ md = Z.lor 18446744069414584320 (if fst rnd then r32 (tk 4 (snd rnd)) else r32 (tk 4 (key_init s))).
Proof.
  intros Hk. unfold rt_derive_keys.
  destruct (derive_key_ok (key_init s) str_zurukko) as (k1 & -> & H1); [done|vm_compute; discriminate|]. rewrite bind_ok.
  rewrite filled_ok by (rt_consts; rewrite !len_app, Hk, H1; vm_compute; discriminate). rewrite bind_ok.
  destruct (derive_key_ok (key_init s) str_magic_req) as (k2 & -> & H2); [done|vm_compute; discriminate|]. rewrite bind_ok.
  destruct (derive_key_ok (key_init s) str_magic_resp) as (k3 & -> & H3); [done|vm_compute; discriminate|]. rewrite bind_ok.
  do 5 eexists. split; [reflexivity|]. split; [apply Hsha|done].
Qed.

Lemma init_fifo_ok n : let f := rt_fifo_init (k_malloc n) RUDP_T_MAX_FIFO_SIZE in
  f_size f = 0 /\ (f_cap f <> 0 -> fifo_ok f /\ f_cap f = RUDP_T_MAX_FIFO_SIZE /\ contents f = []).
Proof.
  intros f. subst f. unfold rt_fifo_init. destruct (k_malloc n _) as [blk|] eqn:E; cbn [f_size f_cap]; [|done].
  split; [done|]. intros _. assert (Hl : len blk = RUDP_T_MAX_FIFO_SIZE) by (by apply (k_malloc_len n)). split; [unfold fifo_ok; cbn; rt_consts; lia|].
  split; [done|]. unfold contents. cbn. by rewrite tk_0.
Qed.

(** What the opening of a session leaves alone, and its steps. *)
Definition staged (w w' : rworld) : Prop :=
  r_live w' = r_live w /\ r_sched w' = r_sched w /\ r_running w' = r_running w /\ ends (r_w w') = ends (r_w w) /\
  quiet (r_os w) (r_os w') /\ (hash_ok (w_t (r_w w)) -> hash_ok (w_t (r_w w'))).
Abbreviation the_se w := (se (w_t (r_w w))).

Lemma staged_refl w : staged w w.
Proof. done. Qed.
Lemma staged_trans w1 w2 w3 : staged w1 w2 -> staged w2 w3 -> staged w1 w3.
Proof.
  intros (E1 & E2 & E3 & E4 & H5 & H6) (F1 & F2 & F3 & F4 & G5 & G6).
  unfold staged. rewrite F1, F2, F3, F4. split_and!; [done..|by eapply quiet_trans|auto].
Qed.

(** A step from a later state of the opening. *)
Lemma staged_step {A} (m : St rworld A) (R Q : A -> rworld -> Prop) w0 w :
  staged w0 w -> wp m (fun a w' => staged w w' /\ R a w') w ->
  (forall a w', staged w0 w' -> R a w' -> Q a w') -> wp m Q w.
Proof. intros Hw Hm HQ. eapply wp_mono; [exact Hm|]. intros a w' [H1 HA]. apply HQ; [by eapply staged_trans|done]. Qed.

Lemma set_se_wp f w : r_live w = true ->
  wp (set_se f) (fun _ w' => staged w w' /\ the_se w' = f (the_se w)) w.
Proof. intros Hl. by apply wp_set_t. Qed.
Lemma tick_wp w : wp (on_w (rt_tick64 tick)) (fun _ w' => staged w w' /\ the_se w' = the_se w) w.
Proof. by apply wp_on_w. Qed.
Lemma bytes_wp n w : 0 <= n ->
  wp (on_w (generate_random_bytes rand n))
    (fun r w' => staged w w' /\ the_se w' = the_se w /\ len (snd r) = n /\ bytes_ok (snd r)) w.
Proof. intros Hn. apply wp_on_w. by destruct (Hrand (w_rands (r_w w)) n Hn). Qed.
Lemma rand_wp w :
  wp (on_w (rt_rand_u32 rand)) (fun r w' => staged w w' /\ the_se w' = the_se w /\ 0 <= r < 2 ^ 32) w.
Proof.
  apply wp_on_w. destruct (Hrand (w_rands (r_w w)) 4 ltac:(lia)) as [_ Hb].
  unfold wp, rt_rand_u32, generate_random_bytes, mbind, St_bind, mret, St_ret.
  split; [done|]. split; [done|]. destruct (fst _); [by apply r32_bound|lia].
Qed.
Lemma fifo_wp w :
  wp rt_init_fifo (fun f w' => staged w w' /\ the_se w' = the_se w /\ f_size f = 0 /\
    (f_cap f <> 0 -> fifo_ok f /\ f_cap f = RUDP_T_MAX_FIFO_SIZE /\ contents f = [])) w.
Proof.
  apply wp_on_sys, wp_sys. pose proof (init_fifo_ok (y_calls (r_os w))) as Hi. cbv zeta in Hi.
  split; [by split_and!|]. by split.
Qed.

(** The fields the derivation of keys does not look at. *)
Definition blank (cfg : config) (s : rt_session) : Prop :=
  status s = RT_STATUS_CONNECT_SENT /\ your_ip s = cfg_server_ip cfg /\ your_port s = cfg_server_port cfg /\
  last_recv_complete_seq s = 0 /\ send_segments s = [] /\ recv_segments s = [] /\ reply_acks s = [].

(** The keys and the magic numbers of a session. *)
Definition keyed (s : rt_session) : Prop :=
  len (key_init s) = 20 /\ len (key_send s) = 20 /\ len (magic_req s) = 20 /\ len (magic_resp s) = 20 /\
  2 ^ 64 - 2 ^ 32 <= magic_disconnect s < 2 ^ 64.

Lemma derive_keyed cfg rnd s : blank cfg s -> len (key_init s) = 20 -> bytes_ok (key_init s) -> bytes_ok (snd rnd) ->
  exists s', rt_derive_keys sha1 rnd s = Ok s' /\ blank cfg s' /\ keyed s'.
Proof.
  intros Hb Hk Hkb Hr. destruct (derive_keys_ok rnd s Hk) as (ks & kr & mq & mp & md & E & H1 & H2 & H3 & H4).
  rewrite E. eexists. split; [reflexivity|]. split; [exact Hb|]. unfold keyed. cbn [key_init key_send magic_req magic_resp magic_disconnect upd eta_session].
  split_and!; try done; rewrite H4; set (low := if fst rnd then _ else _).
  all: assert (Hlow : 0 <= low < 2 ^ 32) by (subst low; destruct (fst rnd); apply r32_bound; auto with bytes).
  all: change 18446744069414584320 with ((2 ^ 32 - 1) ≪ 32); rewrite lor_shift by lia; lia.
Qed.

Lemma keepalive_range r : RUDP_T_KEEPALIVE_MIN <=
  RUDP_T_KEEPALIVE_MIN + r mod (RUDP_T_KEEPALIVE_MAX - RUDP_T_KEEPALIVE_MIN) < RUDP_T_KEEPALIVE_MAX.
Proof.
  unfold RUDP_T_KEEPALIVE_MIN, RUDP_T_KEEPALIVE_MAX. change (4792 - 2500) with 2292.
  pose proof (Z.mod_pos_bound r 2292 ltac:(lia)). lia.
Qed.

Lemma start_of cfg s iv latest ka fs0 fs fr : blank cfg s -> keyed s -> len iv = 20 ->
  fifo_ok fs /\ f_cap fs = RUDP_T_MAX_FIFO_SIZE /\ contents fs = w64 (magic_disconnect s) ->
  fifo_ok fr /\ f_cap fr = RUDP_T_MAX_FIFO_SIZE /\ contents fr = [] ->
  RUDP_T_KEEPALIVE_MIN <= ka < RUDP_T_KEEPALIVE_MAX ->
  session_start cfg (s <| next_iv := iv |> <| next_send_seq := 1 |> <| latest_recv_my_tick := latest |>
    <| next_keepalive_interval := ka |> <| send_fifo := fs0 |> <| recv_fifo := fr |> <| send_fifo := fs |>).
Proof.
  intros (B1 & B2 & B3 & B4 & B5 & B6 & B7) (K1 & K2 & K3 & K4 & K5) Hiv (F1 & F2 & F3) (G1 & G2 & G3) Hka.
  unfold session_start, upto, session_ok, segs_ok.
  cbn [key_init key_send next_iv magic_req magic_resp send_segments next_send_seq recv_segments reply_acks send_fifo recv_fifo
    last_recv_complete_seq status your_ip your_port magic_disconnect next_keepalive_interval upd eta_session].
  rewrite B5, B6, B7, ?len_nil. split_and!; try done; try lia; try constructor.
Qed.

Ltac sstep L := wp_step; eapply (staged_step _ _ _ _ _); [eassumption|apply L; auto|].

Lemma open_session_wp cfg w : r_live w = true ->
  wp (rt_open_session sha1 tick rand cfg) (fun ok w' => staged w w' /\ (ok = true -> session_start cfg (the_se w'))) w.
Proof.
  intros Hl. unfold rt_open_session.
  assert (Hlive : forall w', staged w w' -> r_live w' = true) by (intros w' [E _]; congruence).
  pose proof (staged_refl w) as S0. sstep tick_wp. intros created w1 S1 _. sstep set_se_wp. intros ? w2 S2 E2.
  assert (B2 : blank cfg (the_se w2)) by (rewrite E2; by split_and!). clear E2.
  sstep bytes_wp; [done|]. intros key w3 S3 (E3 & Hk & Hkb). sstep set_se_wp. intros ? w4 S4 E4. rewrite E3 in E4.
  wp_step; [by wp_step|]. sstep bytes_wp; [lia|]. intros rnd w5 S5 (E5 & _ & Hrb). wp_step. apply wp_the_t; [auto|].
  destruct (derive_keyed cfg rnd (the_se w5)) as (s & E & Bs & Ks); [by rewrite E5, E4|by rewrite E5, E4..|done|].
  wp_step. eapply wp_lift; [exact E|]. clear E E4 E5.
  sstep bytes_wp; [done|]. intros iv w6 S6 (_ & Hiv & _). sstep tick_wp. intros latest w7 S7 _.
  sstep rand_wp. intros r w8 S8 (_ & Hr). sstep fifo_wp. intros fs w9 S9 (_ & Hss & Hfs).
  sstep fifo_wp. intros fr w10 S10 (_ & _ & Hfr). sstep set_se_wp. intros ? w11 S11 E11.
  wp_step; [by wp_step|]. apply orb_false_iff in Hc0 as [Hcs Hcr].
  destruct Hfs as (Hfs & Ecs & Es); [lia|]. specialize (Hfr ltac:(lia)).
  destruct (fifo_write_ok fs (w64 (magic_disconnect s)) Hfs) as (fs' & Ew & Hfs' & Ecs' & Es').
  { rewrite Ecs, Hss. change (len (w64 (magic_disconnect s))) with 8. unfold RUDP_T_MAX_FIFO_SIZE. lia. }
  rewrite Ew. sstep set_se_wp. intros ? w12 S12 E12. wp_step. split; [done|]. intros _. rewrite E12, E11.
  apply (start_of cfg s (snd iv) latest _ fs fs' fr Bs Ks Hiv); [by rewrite Ecs', Es', Es|done|].
  apply keepalive_range.
Qed.

(** ** Connecting *)

(** What the steps before the worker starts leave alone. *)
Definition calmly (w w' : rworld) : Prop :=
  r_live w' = r_live w /\ r_sched w' = r_sched w /\ r_running w' = r_running w /\ ends (r_w w') = ends (r_w w) /\
  tidy (r_os w) (r_os w') /\ (hash_ok (w_t (r_w w)) -> hash_ok (w_t (r_w w'))).

Lemma calmly_trans w1 w2 w3 : calmly w1 w2 -> calmly w2 w3 -> calmly w1 w3.
Proof.
  intros (E1 & E2 & E3 & E4 & H5 & H6) (F1 & F2 & F3 & F4 & G5 & G6).
  unfold calmly. rewrite F1, F2, F3, F4. split_and!; [done..|by eapply tidy_trans|auto].
Qed.
Lemma staged_calmly w w' : staged w w' -> calmly w w'.
Proof. intros (? & ? & ? & ? & Hq & ?). split_and!; try done. by apply quiet_tidy. Qed.
Lemma calmly_os w y : tidy (r_os w) y -> calmly w (w <| r_os := y |>).
Proof. by intros Ht. Qed.

Lemma nonblock_wp fd l others w : fd ∈ l -> holds l others (r_os w) ->
  wp (rt_set_nonblocking fd) (fun r w' => calmly w w' /\ holds l others (r_os w') /\ (r <> 0 -> exists n, k_fcntl n <> 0)) w.
Proof.
  intros Hin Hh. unfold rt_set_nonblocking. wp_step. apply wp_on_sys, wp_sys.
  set (n := y_calls (r_os w)). set (w1 := w <| r_os := _ |>).
  assert (Hc1 : calmly w w1) by (apply calmly_os, quiet_tidy; done).
  wp_step; [wp_step; split; [done|]; split; [done|]; intros _; exists n; lia|].
  apply wp_on_sys. wp_step. apply wp_note, wp_sys. split; [eapply calmly_trans; [exact Hc1|]; apply calmly_os|].
  - eapply tidy_trans; [|by apply quiet_tidy]. apply (note_ran (ONonblock fd true)); [done|]. cbn [call_fd].
    destruct Hh as [_ Hp]. subst w1. cbn. rewrite Hp, elem_of_app. by left.
  - split; [done|]. intros Hr. by eexists.
Qed.

Lemma rand_id_wp w : wp (rt_rand_id rand) (fun _ w' => staged w w') w.
Proof.
  unfold rt_rand_id. wp_step. eapply wp_mono; [apply rand_wp|]. intros r w' (Hs & _). by wp_step.
Qed.

Lemma socket_calmly type others w : holds [] others (r_os w) ->
  wp (on_sys (sys_socket AF_INET type)) (fun fd w' => calmly w w' /\ holds (fd_list fd) others (r_os w')) w.
Proof.
  intros Hh. apply wp_on_sys. eapply wp_mono; [by apply (sys_socket_wp AF_INET type others)|].
  intros fd y (Ht & Ho & _). split; [by apply calmly_os|exact Ho].
Qed.

Lemma open_udp_wp cfg others w : r_live w = true -> holds (fd_list (cfg_udp_fd cfg)) others (r_os w) ->
  wp (rt_open_udp rand cfg) (fun o w' => calmly w w' /\
    match o with
    | Some fd => 0 <= fd /\ holds [fd] others (r_os w') /\ (0 <= cfg_udp_fd cfg -> fd = cfg_udp_fd cfg)
    | None => cfg_udp_fd cfg < 0 /\ holds [] others (r_os w')
    end) w.
Proof.
  intros Hl Hh. unfold rt_open_udp. unfold fd_list in Hh.
  wp_step. { wp_step. split; [by apply staged_calmly|]. replace (cfg_udp_fd cfg <? 0) with false in Hh by lia. split; [lia|done]. }
  replace (cfg_udp_fd cfg <? 0) with true in Hh by lia.
  wp_step; wp_step; (eapply wp_mono; [by apply (socket_calmly _ others)|]); intros fd w1 [Cm1 Hh1]; unfold fd_list in Hh1.
  all: wp_step; [wp_step; replace (fd <? 0) with true in Hh1 by lia; split; [done|split; [lia|done]]|];
    replace (fd <? 0) with false in Hh1 by lia.
  - wp_step. eapply wp_mono; [apply rand_id_wp|]. intros id w2 S2. wp_step. eapply wp_mono; [apply rand_id_wp|].
    intros sq w3 S3. pose proof (staged_trans _ _ _ S2 S3) as S. assert (Hl3 : r_live w3 = true) by (destruct S, Cm1; congruence).
    wp_step. apply wp_set_t; [done|]. wp_step. split; [eapply calmly_trans; [exact Cm1|]; exact (staged_calmly _ _ S)|].
    split; [lia|]. split; [|lia]. destruct S as (_ & _ & _ & _ & [Ey _] & _). eapply holds_open; [|exact Hh1]. exact Ey.
  - wp_step. apply wp_on_sys, wp_sys. set (w2 := w1 <| r_os := _ |>).
    assert (Cm2 : calmly w w2) by (eapply calmly_trans; [exact Cm1|apply calmly_os; by apply quiet_tidy]).
    assert (Hh2 : holds [fd] others (r_os w2)) by done. clearbody w2. wp_step.
    { wp_step. apply wp_on_sys. eapply wp_mono; [apply (close_wp fd others); [by apply holds_owns in Hh2; [|lia]|lia]|].
      intros ? y [Ht Ho]. wp_step. split; [eapply calmly_trans; [exact Cm2|by apply calmly_os]|]. split; [lia|exact Ho]. }
    wp_step. assert (Hl2 : r_live w2 = true) by (destruct Cm2; congruence).
    apply wp_mono with (P := fun _ w3 => staged w2 w3).
    { wp_step; [|done]. wp_step. eapply wp_mono; [apply rand_id_wp|]. intros id w3 S3. apply wp_set_t; [destruct S3; congruence|exact S3]. }
    intros ? w3 S3. wp_step. split; [eapply calmly_trans; [exact Cm2|by apply staged_calmly]|]. split; [lia|]. split; [|lia].
    destruct S3 as (_ & _ & _ & _ & [Ey _] & _). by eapply holds_open.
Qed.

Lemma pair_wp l others w : holds l others (r_os w) ->
  wp (on_sys sys_socketpair) (fun o w' => calmly w w' /\
    match o with
    | Some (a, b) => 0 <= a /\ 0 <= b /\ holds (a :: b :: l) others (r_os w')
    | None => holds l others (r_os w')
    end) w.
Proof.
  intros Hh. apply wp_on_sys. unfold sys_socketpair. wp_step. wp_step. wp_step. apply wp_sys.
  destruct (k_socketpair _ _) as [[a b]|] eqn:E; [|by wp_step; split; [apply calmly_os, quiet_tidy|]].
  apply k_pair_fresh in E as (Ha & Hb & Hab & Hna & Hnb).
  wp_step. apply wp_note. wp_step. apply wp_note. wp_step. apply wp_modify. wp_step. cbn [y_open upd eta_os] in *.
  split; [apply calmly_os|].
  - exists [OSocket AF_UNIX SOCK_STREAM a; OSocket AF_UNIX SOCK_STREAM b]. split; [unfold calls; cbn; by rewrite <- app_assoc|].
    cbn. replace (a <? 0) with false by lia. by replace (b <? 0) with false by lia.
  - split; [done|]. split; [done|]. destruct Hh as [Hn Hp]. split; cbn.
    + constructor; [by intros [<-|?]%elem_of_cons|]. by constructor.
    + rewrite Hp. solve_Permutation.
Qed.

(** A transport that has been given its datagram socket, and nothing else. *)
Definition bare (fd : Z) (others : list Z) (w : rworld) : Prop :=
  let t := w_t (r_w w) in
  r_live w = true /\ sched_ok w /\ r_running w = false /\ thread_started t = false /\ hash_ok t /\
  udp_fd t = fd /\ worker_fd t = -1 /\ app_fd t = -1 /\ 0 <= fd.

Lemma bare_calmly fd others w w' : calmly w w' -> bare fd others w -> bare fd others w'.
Proof.
  intros (El & Es & Er & Ee & _ & Hh) (H1 & H2 & H3 & H4 & H5 & H6 & H7 & H8 & H9). unfold ends in Ee. cbv zeta in Ee.
  injection Ee as E1 E2 E3 E4 E5. unfold bare, sched_ok. rewrite El, Es, Er, E1, E2, E3, E4. split_and!; auto.
Qed.
Lemma bare_attached fd others w : bare fd others w -> holds [fd] others (r_os w) -> attached others w.
Proof.
  intros (H1 & H2 & H3 & H4 & H5 & H6 & H7 & H8 & H9) Hh. unfold attached. rewrite H4, fds_split, H6, H7, H8.
  unfold fd_list. replace (fd <? 0) with false by lia. by split_and!.
Qed.

Definition failed (others : list Z) (w : rworld) (r : Z) (w' : rworld) : Prop :=
  r = -1 /\ r_live w' = true /\ detached others w' /\ tidy (r_os w) (r_os w').

Lemma fails_abort_wp code others w w1 : attached others w1 -> tidy (r_os w) (r_os w1) ->
  wp (fails code ;; rt_abort sha1 tick rand) (failed others w) w1.
Proof.
  intros Ha Ht. wp_step. apply wp_set_t; [by destruct Ha|]. eapply wp_mono; [by apply (abort_wp others)|].
  intros r w2 (-> & Hl & Hd & Ht2). split_and!; [done..|]. eapply tidy_trans; [exact Ht|exact Ht2].
Qed.

Definition room_left (w : rworld) : Prop := 1 + 200 * (Z.of_nat spare + total (r_sched w)) + 200 < 2 ^ 63.

(** Three descriptors, and no worker yet. *)
Definition wired (others : list Z) (w : rworld) : Prop :=
  let t := w_t (r_w w) in
  attached others w /\ thread_started t = false /\ hash_ok t /\ 0 <= udp_fd t /\ 0 <= app_fd t /\ 0 <= worker_fd t.

(** The outcome of a connect: nothing is left but the object, or the worker
    runs behind three descriptors. *)
Definition connected (others : list Z) (w : rworld) (r : Z) (w' : rworld) : Prop :=
  failed others w r w' \/
  r = 0 /\ attached others w' /\ tidy (r_os w) (r_os w') /\
  let t := w_t (r_w w') in 0 <= udp_fd t /\ 0 <= app_fd t /\ 0 <= worker_fd t /\ thread_started t = true /\
    result_ok t = true /\ error_code t = RUDP_T_ERR_OK.

Lemma connected_of_failed others w w1 (m : St rworld Z) :
  wp m (failed others w) w1 -> wp m (connected others w) w1.
Proof. intros Hm. eapply wp_mono; [exact Hm|]. by left. Qed.

Lemma rt_await_wp cancellable others w w1 : tidy (r_os w) (r_os w1) -> attached others w1 ->
  let t := w_t (r_w w1) in thread_started t = true -> 0 <= udp_fd t -> 0 <= app_fd t -> 0 <= worker_fd t ->
  wp (rt_await sha1 tick rand cancellable) (connected others w) w1.
Proof.
  intros T1 (Hl & Hh & Hs & Hr) t Ht Hu Ha Hw. fold t in Hh, Hr. rewrite Ht in Hr. unfold rt_await.
  wp_step. eapply wp_mono; [apply tick_wp|]. intros ? w2 [S2 E2]. destruct S2 as (El2 & Es2 & _ & Ee2 & Q2 & Hh2).
  assert (Hr2 : ready spare w2).
  { destruct Hr as (b & [Hb Hk] & Hn). exists b. split; [|by rewrite Es2]. split; [by rewrite E2|by apply Hh2]. }
  wp_step. wp_step. wp_step. eapply wp_mono; [apply (rt_wait_wp spare cancellable); [congruence|unfold sched_ok; by rewrite Es2|done]|].
  intros cancelled w3 ((El3 & Ee3 & T3 & Ey3) & Hs3 & Hr3).
  assert (Ee : ends (r_w w3) = ends (r_w w1)) by congruence. 
  assert (T : tidy (r_os w) (r_os w3)) by (eapply tidy_trans; [exact T1|]; eapply tidy_trans; [by apply quiet_tidy|exact T3]).
  assert (Hl3 : r_live w3 = true) by congruence.
  assert (Hf : fds (w_t (r_w w3)) = fds t) by (destruct (ends_fds _ _ Ee) as (E5 & E6 & E7); unfold fds; by rewrite E5, E6, E7).
  assert (Ht3 : thread_started (w_t (r_w w3)) = true) by (unfold ends in Ee; injection Ee as _ _ _ E8 _; subst t; congruence).
  assert (Ha3 : attached others w3).
  { unfold attached. rewrite Ht3, Hf. split_and!; try done. eapply holds_open; [|exact Hh]. destruct Q2 as [Eq2 _]. congruence. }
  wp_step. { by apply connected_of_failed, fails_abort_wp. }
  wp_step. apply wp_the_t; [done|]. wp_step.
  - apply andb_true_iff in Hc0 as [_ Hok]. wp_step. apply wp_set_t; [done|]. wp_step. right.
    split; [done|]. split; [exact Ha3|]. split; [exact T|]. destruct (ends_fds _ _ Ee) as (E5 & E6 & E7).
    cbn [r_w w_t udp_fd app_fd worker_fd thread_started result_ok error_code upd eta_rworld eta_world eta_transport].
    rewrite E5, E6, E7. by split_and!.
  - apply connected_of_failed. wp_step. apply wp_mono with (P := fun _ w4 => attached others w4 /\ r_os w4 = r_os w3).
    { wp_step; [by apply wp_set_t|done]. }
    intros ? w4 [Ha4 Eo]. eapply wp_mono; [by apply abort_wp|]. intros r w5 (-> & ? & ? & T5). rewrite Eo in T5.
    split_and!; [done..|by eapply tidy_trans].
Qed.

Lemma wired_staged others w w' : staged w w' -> wired others w -> wired others w'.
Proof.
  intros (El & Es & Er & Ee & [Eo _] & Hk) ((H1 & H2 & H3 & H4) & Ht & Hh & Hf). rewrite Ht in H4.
  destruct (ends_fds _ _ Ee) as (E5 & E6 & E7). injection Ee as _ _ _ E8 _.
  assert (Ht' : thread_started (w_t (r_w w')) = false) by congruence.
  split; [|split; [done|split; [by apply Hk|by rewrite E5, E6, E7]]]. unfold attached. rewrite Ht'.
  split; [congruence|]. split; [|split; [unfold sched_ok; by rewrite Es|congruence]].
  replace (fds (w_t (r_w w'))) with (fds (w_t (r_w w))) by (unfold fds; by rewrite E5, E6, E7). by eapply holds_open.
Qed.

Lemma rt_launch_wp cfg cancellable others w w1 : tidy (r_os w) (r_os w1) -> wired others w1 -> room_left w1 ->
  wp (rt_launch sha1 tick rand cfg cancellable) (connected others w) w1.
Proof.
  intros T1 Hw Hroom. assert (Hl : r_live w1 = true) by apply Hw. unfold rt_launch.
  wp_step. eapply wp_mono; [by apply open_session_wp|]. intros ok w2 [S2 Hstart].
  pose proof (wired_staged _ _ _ S2 Hw) as (Ha2 & Ht2 & Hh2 & Hu & Ha & Hwk). destruct S2 as (_ & Es2 & _ & _ & Q2 & _).
  assert (T2 : tidy (r_os w) (r_os w2)) by (eapply tidy_trans; [exact T1|by apply quiet_tidy]).
  wp_step. { by apply connected_of_failed, fails_abort_wp. }
  destruct ok; [|done]. destruct (Hstart eq_refl) as [Hs _]. clear Hstart Hc Hw Q2 T1.
  wp_step. apply wp_set_t; [by destruct Ha2|]. wp_step. apply wp_on_sys, wp_sys. set (w3 := _ <| r_os := _ |>).
  assert (Ha3 : attached others w3) by done. assert (T3 : tidy (r_os w) (r_os w3)) by (eapply tidy_trans; [exact T2|by apply quiet_tidy]).
  wp_step. { by apply connected_of_failed, fails_abort_wp. }
  wp_step. apply wp_set_t; [by destruct Ha3|]. wp_step. wp_step. set (w4 := _ <| r_running := true |>).
  assert (Hr4 : ready spare w4).
  { exists 1. split; [by split|]. change (r_sched w4) with (r_sched w2). rewrite Es2. unfold room_left in Hroom. lia. }
  apply (rt_await_wp cancellable others w w4); try done.
  destruct Ha3 as (H1 & H2 & H3 & _). split_and!; done.
Qed.

Lemma start_wp cfg cancellable fd others w w1 : tidy (r_os w) (r_os w1) -> bare fd others w1 -> holds [fd] others (r_os w1) ->
  room_left w1 -> wp (rt_start sha1 tick rand cfg cancellable) (connected others w) w1.
Proof.
  intros T1 Hb Hh Hroom. unfold rt_start. wp_step. eapply wp_mono; [by apply (pair_wp [fd])|]. intros pair w2 [Cm2 Hp].
  pose proof (bare_calmly _ _ _ _ Cm2 Hb) as Hb2.
  assert (T2 : tidy (r_os w) (r_os w2)) by (destruct Cm2 as (_ & _ & _ & _ & ? & _); by eapply tidy_trans).
  destruct pair as [[a b]|].
  2:{ apply connected_of_failed, fails_abort_wp; [by eapply bare_attached|done]. }
  destruct Hp as (Ha & Hbb & Hh2). wp_step. eapply wp_mono; [apply (nonblock_wp a [a; b; fd] others); [by left|exact Hh2]|].
  intros r w3 (Cm3 & Hh3 & _). pose proof (bare_calmly _ _ _ _ Cm3 Hb2) as Hb3.
  assert (T3 : tidy (r_os w) (r_os w3)) by (destruct Cm3 as (_ & _ & _ & _ & ? & _); by eapply tidy_trans).
  wp_step.
  { wp_step. apply wp_on_sys. eapply wp_mono; [apply (close_wp a ([b; fd] ++ others)); [by apply holds_owns in Hh3|done]|].
    intros ? y4 [T4 Ho4]. wp_step. apply wp_on_sys. eapply wp_mono; [apply (close_wp b ([fd] ++ others)); [|done]|].
    { apply (holds_owns b [fd]); [done|exact Ho4]. }
    intros ? y5 [T5 Ho5]. apply connected_of_failed. eapply wp_mono; [apply (abort_wp others); apply (bare_attached fd); [exact Hb3|exact Ho5]|].
    intros r' w6 (-> & Hl & Hd & T6). split_and!; [done..|]. eapply tidy_trans; [exact T3|].
    eapply tidy_trans; [exact T4|]. by eapply tidy_trans. }
  destruct Hb3 as (H1 & H2 & H3 & H4 & H5 & H6 & H7 & H8 & H9).
  wp_step. apply wp_set_t; [done|]. apply rt_launch_wp; [exact T3| |].
  - unfold wired, attached. cbn [r_live r_w r_os w_t udp_fd app_fd worker_fd thread_started upd eta_rworld eta_world eta_transport].
    rewrite H4, H6. split; [|by split_and!]. split; [done|]. split; [|by split].
    rewrite fds_split. cbn [udp_fd app_fd worker_fd upd eta_transport]. rewrite H6. unfold fd_list.
    replace (fd <? 0) with false by lia. replace (a <? 0) with false by lia. replace (b <? 0) with false by lia.
    eapply holds_perm; [|exact Hh3]. cbn [app]. solve_Permutation.
  - destruct Cm2 as (_ & E2 & _), Cm3 as (_ & E3 & _). unfold room_left. cbn [r_sched upd eta_rworld]. by rewrite E3, E2.
Qed.

(** A transport after [rudp_transport_create]. *)
Definition created (w : rworld) : Prop :=
  r_live w = true /\ r_running w = false /\ w_t (r_w w) = transport_new.

(** It has no descriptor and no worker. *)
Definition idle (w : rworld) : Prop :=
  let t := w_t (r_w w) in r_live w = true /\ r_running w = false /\ thread_started t = false /\
    udp_fd t = -1 /\ worker_fd t = -1 /\ app_fd t = -1.
Lemma created_idle w : created w -> idle w.
Proof. intros (? & ? & E). unfold idle. rewrite E. by split_and!. Qed.
Lemma idle_calmly w w' : calmly w w' -> idle w -> idle w'.
Proof.
  intros (El & _ & Er & Ee & _) (H1 & H2 & H3 & H4 & H5 & H6). injection Ee as E1 E2 E3 E4 E5.
  unfold idle. rewrite El, Er, E1, E2, E3, E4. by split_and!.
Qed.

(** What a connect asks of its arguments. *)
Definition config_bad (cfg : config) : bool :=
  (cfg_server_ip cfg =? 0) || negb (cfg_mode cfg =? RUDP_T_MODE_ICMP) && (cfg_server_port cfg =? 0).

(** The early failures, in which the caller's socket stays open. *)
Definition forgotten (cfg : config) (others : list Z) (w : rworld) (r : Z) (w' : rworld) : Prop :=
  r = -1 /\ r_live w' = true /\ 0 <= cfg_udp_fd cfg /\ detached (cfg_udp_fd cfg :: others) w' /\ tidy (r_os w) (r_os w') /\
  (config_bad cfg = true \/ exists n, k_fcntl n <> 0).

Lemma early_wp cfg others w w1 : idle w1 -> sched_ok w1 -> holds (fd_list (cfg_udp_fd cfg)) others (r_os w1) ->
  tidy (r_os w) (r_os w1) -> config_bad cfg = true \/ (exists n, k_fcntl n <> 0) \/ cfg_udp_fd cfg < 0 ->
  wp (fails RUDP_T_ERR_UNKNOWN ;; mret (-1)) (fun r w' => connected others w r w' \/ forgotten cfg others w r w') w1.
Proof.
  intros (Hl & Hr & Ht & E1 & E2 & E3) Hs Hh T1 Hwhy. wp_step. apply wp_set_t; [done|]. wp_step.
  unfold connected, failed, forgotten, detached, fd_list in *. rewrite fds_split.
  cbn [r_live r_running r_os r_w w_t udp_fd worker_fd app_fd thread_started upd eta_rworld eta_world eta_transport]. rewrite E1, E2, E3.
  destruct (Z.lt_ge_cases (cfg_udp_fd cfg) 0) as [Hn|Hn].
  - replace (cfg_udp_fd cfg <? 0) with true in Hh by lia. left. left. by split_and!.
  - replace (cfg_udp_fd cfg <? 0) with false in Hh by lia. right. split_and!; try done.
    destruct Hwhy as [?|[?|?]]; [by left|by right|lia].
Qed.

Lemma rt_connect_wp cancellable cfg others w : created w -> sched_ok w -> room_left w ->
  holds (fd_list (cfg_udp_fd cfg)) others (r_os w) ->
  wp (rudp_transport_connect sha1 tick rand cfg cancellable)
    (fun r w' => connected others w r w' \/ forgotten cfg others w r w') w.
Proof.
  intros Hc Hs Hroom Hh. pose proof (created_idle w Hc) as Hi. unfold rudp_transport_connect. fold (config_bad cfg).
  wp_step. { apply early_wp; try done. apply ran_refl. by left. }
  cbv zeta. wp_step. apply wp_set_t; [apply Hi|]. set (w1 := w <| r_w := _ |>).
  assert (Hi1 : idle w1) by exact Hi.
  assert (Hh1 : hash_ok (w_t (r_w w1))).
  { intros Hv. subst w1. cbn [r_w w_t svc_name_hash svc_name_hash_valid upd eta_rworld eta_world eta_transport] in *.
    rewrite Hv. apply Hsha. }
  assert (H1 : sched_ok w1 /\ room_left w1 /\ holds (fd_list (cfg_udp_fd cfg)) others (r_os w1) /\ r_os w1 = r_os w) by done.
  clearbody w1. destruct H1 as (Hs1 & Hroom1 & Hho1 & Eo1). clear Hc Hs Hroom Hh Hi Hc0. 
  wp_step. eapply wp_mono; [by apply open_udp_wp; [apply Hi1|]|]. intros o w2 [C2 Ho].
  pose proof (idle_calmly _ _ C2 Hi1) as Hi2. destruct C2 as (_ & Es2 & _ & _ & T2 & Hk2). rewrite Eo1 in T2.
  assert (Hs2 : sched_ok w2) by (unfold sched_ok; by rewrite Es2). specialize (Hk2 Hh1).
  destruct o as [fd|]; [|destruct Ho as [Hn Ho]; apply early_wp; try done].
  2:{ unfold fd_list. by replace (cfg_udp_fd cfg <? 0) with true by lia. }
  2:{ right. by right. }
  destruct Ho as (Hfd & Ho & Hsame). wp_step. eapply wp_mono; [apply (nonblock_wp fd [fd] others); [by left|exact Ho]|].
  intros r w3 (C3 & Ho3 & Hwhy). pose proof (idle_calmly _ _ C3 Hi2) as Hi3. destruct C3 as (_ & Es3 & _ & _ & T3 & Hk3).
  assert (Hs3 : sched_ok w3) by (unfold sched_ok; by rewrite Es3). specialize (Hk3 Hk2).
  assert (T : tidy (r_os w) (r_os w3)) by (by eapply tidy_trans).
  wp_step.
  - assert (Hf : exists n, k_fcntl n <> 0) by (apply Hwhy; lia). wp_step.
    apply wp_mono with (P := fun _ w4 => idle w4 /\ sched_ok w4 /\ holds (fd_list (cfg_udp_fd cfg)) others (r_os w4) /\ tidy (r_os w) (r_os w4)).
    2:{ intros ? w4 (? & ? & ? & ?). apply early_wp; try done. right. by left. }
    unfold fd_list. wp_step; [replace (cfg_udp_fd cfg <? 0) with true by lia|replace (cfg_udp_fd cfg <? 0) with false by lia].
    + apply wp_on_sys. eapply wp_mono; [apply (close_wp fd others); [by apply holds_owns in Ho3|done]|].
      intros ? y [T4 Ho4]. split_and!; try done. by eapply tidy_trans.
    + split_and!; try done. rewrite <- Hsame by lia. done.
  - destruct Hi3 as (I1 & I2 & I3 & I4 & I5 & I6). wp_step. apply wp_set_t; [done|]. eapply wp_mono; [|intros ? ? Hx; left; exact Hx].
    apply (start_wp cfg cancellable fd); [exact T| |exact Ho3|].
    + unfold bare. by split_and!.
    + unfold room_left in *. cbn [r_sched upd eta_rworld]. by rewrite Es3, Es2.
Qed.

Lemma rt_create_wp w : wp rudp_transport_create (fun ok w' => tidy (r_os w) (r_os w') /\ y_open (r_os w') = y_open (r_os w) /\
  r_sched w' = r_sched w /\ (if ok then created w' else w' = w <| r_os := r_os w' |>)) w.
Proof.
  unfold rudp_transport_create. wp_step. apply wp_on_sys, wp_sys.
  assert (Ht : forall y, quiet (r_os w) y -> tidy (r_os w) y) by apply quiet_tidy.
  wp_step; [wp_step; split; [by apply Ht|done]|]. wp_step. wp_step. wp_step. apply wp_set_t; [done|]. wp_step.
  split; [by apply Ht|done].
Qed.

(** A transport from its creation to its destruction; while it is connected the
    worker makes the given iterations. *)
Definition transport_life (cfg : config) (cancellable : bool) (rounds : list round) : St rworld (option Z) :=
  ok ← rudp_transport_create;
  if negb ok then mret None else
  r ← rudp_transport_connect sha1 tick rand cfg cancellable;
  when (r =? 0) (rt_run sha1 tick rand rounds) ;;
  rudp_transport_destroy sha1 tick rand ;;
  mret (Some r).

(** The spare iterations leave an attached transport. *)
Lemma run_attached rounds others w : attached others w -> thread_started (w_t (r_w w)) = true ->
  (length rounds <= spare)%nat -> Forall round_ok rounds ->
  wp (rt_run sha1 tick rand rounds) (fun _ w' => r_live w' = true /\ holds (fds (w_t (r_w w'))) others (r_os w') /\ sched_ok w' /\
    thread_started (w_t (r_w w')) = true /\ ready 0 w' /\ r_os w' = r_os w) w.
Proof.
  intros (H1 & H2 & H3 & H4) Ht Hl Hok. rewrite Ht in H4.
  assert (Hr : ready (length rounds + 0) w) by (eapply ready_weaken; [|exact H4]; lia).
  eapply wp_mono; [by apply (run_wp rounds 0)|]. intros ? w' [(Eo & El & Es & Ee) Hr'].
  destruct (ends_fds _ _ Ee) as (E1 & E2 & E3). injection Ee as _ _ _ E4 _. unfold fds in *. rewrite Eo, E1, E2, E3.
  split_and!; try done; [congruence|unfold sched_ok; by rewrite Es|congruence].
Qed.
End spec.

(** Destroying an idle transport makes no system call. *)
Lemma idle_destroy `{Kernel} `{RtKernel} sha1 tick rand w : idle w ->
  wp (rudp_transport_destroy sha1 tick rand) (fun _ w' => r_os w' = r_os w) w.
Proof.
  intros (Hl & _ & Ht & Hu & Hw & Ha). unfold rudp_transport_destroy, rt_stop, close_fd, rt_free_fifos, set_se.
  wp_step. apply wp_set_t; [done|]. wp_step. wp_step. apply wp_the_t; [done|].
  cbn [r_w w_t thread_started upd eta_rworld eta_world eta_transport]. rewrite Ht. cbn [when]. wp_step.
  wp_step. apply wp_the_t; [done|]. cbn [r_w w_t worker_fd upd eta_rworld eta_world eta_transport]. rewrite Hw. cbn [Z.geb Z.compare when].
  wp_step. wp_step. wp_step. apply wp_set_t; [done|]. wp_step. apply wp_the_t; [done|].
  cbn [r_w w_t app_fd upd eta_rworld eta_world eta_transport]. rewrite Ha. cbn [Z.geb Z.compare when].
  wp_step. wp_step. wp_step. apply wp_set_t; [done|]. wp_step. apply wp_the_t; [done|].
  cbn [r_w w_t udp_fd upd eta_rworld eta_world eta_transport]. rewrite Hu. cbn [Z.geb Z.compare when].
  wp_step. wp_step. wp_step. apply wp_set_t; [done|]. wp_step. apply wp_set_t; [done|]. by wp_step.
Qed.

(** C22: connecting owns what it opens. Whatever the system calls, the CSPRNG,
    the peer and the scheduler do, a connect on a new transport returns. When it
    reports success the worker runs behind a datagram socket and a socket pair,
    the worker has seen the session established, and nothing else is open;
    otherwise no thread and no descriptor is left, but for the socket of the
    caller when the arguments are refused or [fcntl] fails on it: that one stays
    open. No descriptor is used after it was closed. *)
Theorem rt_connect_outcome `{KernelLaws} `{RtKernelLaws} sha1 tick rand spare cfg cancellable others w :
  sha1_ok sha1 -> rand_ok rand -> created w -> sched_ok w -> room_left spare w ->
  holds (fd_list (cfg_udp_fd cfg)) others (r_os w) ->
  exists r w', rudp_transport_connect sha1 tick rand cfg cancellable w = Ok (r, w') /\ tidy (r_os w) (r_os w') /\
    (r = 0 /\ attached spare others w' /\ r_live w' = true /\
       (let t := w_t (r_w w') in 0 <= udp_fd t /\ 0 <= app_fd t /\ 0 <= worker_fd t /\ result_ok t = true) \/
     r = -1 /\ detached others w' \/
     r = -1 /\ detached (cfg_udp_fd cfg :: others) w' /\ 0 <= cfg_udp_fd cfg /\
       (config_bad cfg = true \/ exists n, k_fcntl n <> 0)).
Proof.
  intros Hsha Hrand Hc Hs Hr Hh.
  destruct (wp_run _ _ _ (rt_connect_wp sha1 tick rand Hsha Hrand spare cancellable cfg others w Hc Hs Hr Hh))
    as (r & w' & E & [[(-> & Hl & Hd & Ht)|(-> & Ha & Ht & Hu & Hap & Hw & _ & Hok & _)]|(-> & Hl & Hn & Hd & Ht & Hwhy)]);
    do 2 eexists; (split; [exact E|]); (split; [done|]).
  - right. left. done.
  - left. split; [done|]. split; [done|]. split; [by destruct Ha|done].
  - right. right. done.
Qed.


(** The session a connect starts. When the CSPRNG and the allocator do not
    fail it is well formed, so that the worker may begin: no segment is queued
    or expected, numbering starts at 1, the first bytes to send are the
    disconnection number, which no segment can carry as its own, and the
    keepalive interval is in its range. *)
Theorem rt_session_opens `{KernelLaws} `{RtKernelLaws} sha1 tick rand cfg w :
  sha1_ok sha1 -> rand_ok rand -> r_live w = true -> hash_ok (w_t (r_w w)) ->
  exists ok w', rt_open_session sha1 tick rand cfg w = Ok (ok, w') /\ y_open (r_os w') = y_open (r_os w) /\
    (ok = true -> session_start cfg (se (w_t (r_w w'))) /\ safe_upto 1 (r_w w')).
Proof.
  intros Hsha Hrand Hl Hh. destruct (wp_run _ _ _ (open_session_wp sha1 tick rand Hsha Hrand cfg w Hl)) as (ok & w' & E & S & Hs).
  destruct S as (_ & _ & _ & _ & [Eo _] & Hk). exists ok, w'. split; [done|]. split; [done|]. intros Hok. specialize (Hs Hok).
  split; [done|]. split; [by destruct Hs|by apply Hk].
Qed.

(** The socket of the caller is forgotten when it cannot be made non-blocking:
    the connect fails without closing it or taking it over, and the destruction
    of the transport does not know of it. *)
Theorem rt_connect_forgets_socket `{KernelLaws} `{RtKernelLaws} sha1 tick rand cfg cancellable others w :
  config_bad cfg = false -> 0 <= cfg_udp_fd cfg -> (forall n, k_fcntl n = -1) -> (forall n, k_calloc n = true) ->
  holds [cfg_udp_fd cfg] others (r_os w) ->
  exists w', transport_life sha1 tick rand cfg cancellable [] w = Ok (Some (-1), w') /\ holds [cfg_udp_fd cfg] others (r_os w').
Proof.
  intros Hb Hfd Hf Hc Hh.
  assert (Hwp : wp (transport_life sha1 tick rand cfg cancellable [])
    (fun o w' => o = Some (-1) /\ holds [cfg_udp_fd cfg] others (r_os w')) w).
  2:{ destruct (wp_run _ _ _ Hwp) as (o & w' & E & -> & Hq). by exists w'. }
  unfold transport_life. wp_step. unfold rudp_transport_create. wp_step. apply wp_on_sys, wp_sys. rewrite Hc. cbn [negb].
  wp_step. wp_step. wp_step. apply wp_set_t; [done|]. wp_step. cbn [negb]. set (w1 := _ <| r_w := _ |>).
  assert (Hi : idle w1 /\ r_os w1 = (r_os w) <| y_calls := S (y_calls (r_os w)) |>) by (by split_and!). clearbody w1. destruct Hi as [Hi Eo].
  assert (H1' : holds [cfg_udp_fd cfg] others (r_os w1)) by (by rewrite Eo). clear Eo Hh.
  wp_step. unfold rudp_transport_connect. fold (config_bad cfg). rewrite Hb. cbv zeta. wp_step. apply wp_set_t; [by destruct Hi|].
  unfold rt_open_udp, rt_set_nonblocking. replace (cfg_udp_fd cfg >=? 0) with true by lia. wp_step. wp_step. wp_step. wp_step.
  apply wp_on_sys, wp_sys. rewrite Hf. cbn [Z.ltb Z.compare]. wp_step. cbn [Z.eqb negb].
  replace (cfg_udp_fd cfg <? 0) with false by lia. cbn [when]. wp_step. wp_step. wp_step. apply wp_set_t; [by destruct Hi|].
  wp_step. cbn [Z.eqb when]. wp_step. wp_step. set (w2 := _ <| r_w := _ |>).
  assert (Hi2 : idle w2 /\ holds [cfg_udp_fd cfg] others (r_os w2)) by (split; [exact Hi|exact H1']).
  clearbody w2. clear Hi H1' w1. destruct Hi2 as [Hi Hh].
  wp_step. eapply wp_mono; [apply (idle_destroy sha1 tick rand _ Hi)|]. intros ? w3 Eo. wp_step. by rewrite Eo.
Qed.

(** ** Examples

    A server that answers the connection request in the first wait, and one
    whose datagrams are noise. *)
#[export] Instance ex_rt_kernel : RtKernel := {|
  k_bind _ := 0; k_fcntl _ := 0; k_pthread_create _ := 0;
  k_socketpair _ fds := let m := fold_left Z.max fds 2 in Some (m + 1, m + 2);
  k_malloc _ n := Some (zeros n) |}.
Lemma ex_pair_fresh fds : ~ (fold_left Z.max fds 2 + 1 ∈ fds) /\ ~ (fold_left Z.max fds 2 + 2 ∈ fds).
Proof.
  destruct (fold_max_ge fds 2) as [_ Hall]. rewrite Forall_forall in Hall.
  split; intros Hin; specialize (Hall _ Hin); cbn in Hall; lia.
Qed.
#[export] Instance ex_rt_kernel_laws : RtKernelLaws.
Proof.
  split.
  - intros n fds a b [= <- <-]. destruct (fold_max_ge fds 2) as [Hge _], (ex_pair_fresh fds). split_and!; try done; lia.
  - intros n size blk Hs. cbn. intros [= <-]. rewrite len_zeros. lia.
Qed.

Definition ex_config : config := Config 16909060 4500 7 5000 RUDP_T_MODE_UDP.
Definition ex_server_key : list Z :=
  match rt_derive_key ex_sha1 (replicate 20 5) str_zurukko with Ok k => k | _ => [] end.
Definition ex_answer : list Z :=
  seal ex_sha1 transport_new ex_server_key (ex_key 9) (segment_body 1 session_zero 1 [] 4).
Definition ex_noise : round := Round [(1, 2, [3; 4; 5]); (16909060, 4500, replicate 60 8)] [] [].
Definition ex_rworld : rworld :=
  RWorld (World transport_new 0 0 [] [] [] [] false) ex_os false false
    [([ex_noise; Round [(16909060, 4500, ex_answer)] [] []], true)].
Definition ex_created : rworld := ex_rworld <| r_live := true |>.

Lemma ex_round_ok grams : bool_decide (Forall (fun g : Z * Z * list Z => bytes_ok (snd g)) grams) = true -> round_ok (Round grams [] []).
Proof. intros Hg. split; [by apply bool_decide_eq_true in Hg|constructor]. Qed.
Lemma ex_noise_ok : round_ok ex_noise.
Proof. apply ex_round_ok. vm_compute. reflexivity. Qed.
Lemma ex_sched_ok : sched_ok ex_created.
Proof.
  apply Forall_cons. split; [|constructor]. apply Forall_cons. split; [exact ex_noise_ok|]. apply Forall_cons.
  split; [|constructor]. apply ex_round_ok. vm_compute. reflexivity.
Qed.
Lemma ex_holds : holds (fd_list (cfg_udp_fd ex_config)) [] (r_os ex_created).
Proof. split; [exact ex_nodup|reflexivity]. Qed.

Lemma rt_connect_outcome_witness :
  exists w', rudp_transport_connect ex_sha1 ex_tick ex_rand ex_config true ex_created = Ok (0, w') /\ attached 4 [] w' /\
    0 <= app_fd (w_t (r_w w')).
Proof.
  destruct (rt_connect_outcome ex_sha1 ex_tick ex_rand 4 ex_config true [] ex_created ex_sha1_ok ex_rand_ok)
    as (r & w' & E & _ & Hr); [done|exact ex_sched_ok|by vm_compute|exact ex_holds|].
  assert (Ev : match rudp_transport_connect ex_sha1 ex_tick ex_rand ex_config true ex_created with
               | Ok (r, _) => r =? 0 | _ => false end = true) by (vm_compute; reflexivity).
  rewrite E in Ev. apply Z.eqb_eq in Ev as ->.
  destruct Hr as [(_ & Ha & _ & Hf)|[[Hx _]|[Hx _]]]; [|discriminate Hx..]. destruct Hf as (_ & Hf & _).
  exists w'. split; [exact E|]. split; [exact Ha|exact Hf].
Defined.


Lemma rt_session_opens_witness :
  exists w', rt_open_session ex_sha1 ex_tick ex_rand ex_config ex_created = Ok (true, w') /\
    session_start ex_config (se (w_t (r_w w'))).
Proof.
  destruct (rt_session_opens ex_sha1 ex_tick ex_rand ex_config ex_created ex_sha1_ok ex_rand_ok) as (ok & w' & E & _ & Hs); [done|done|].
  assert (Ev : match rt_open_session ex_sha1 ex_tick ex_rand ex_config ex_created with
               | Ok (ok, _) => ok | _ => false end = true) by (vm_compute; reflexivity).
  rewrite E in Ev. subst ok. exists w'. split; [exact E|]. by apply Hs.
Defined.
