(* ===== verification/Race.v ===== *)
(** * The race of the transports (proto/softether_protocol.c)

    [softether_connect_parallel_race] starts a thread per transport; the first
    whose TLS handshake succeeds is published, all others release what they
    made. A step relation interleaves the threads with the parent, one access
    of the shared block per step, in every order; [Tick] lets time pass.

    A worker runs one of the five bodies [transport_thread_*], which differ in
    how they reach a byte stream: a TCP socket, or a reliable-UDP transport,
    for NAT-T over the socket of a rendezvous. Their calls (sockets, the
    rendezvous of [NatT], the connect of [RtConnect], the handshake of [Dial])
    appear by their outcome, which the schedule chooses; what a worker has
    acquired is in [rc_live], and releasing what is not there sets [rc_fault].
    The compare-and-swaps and barriers of the code are full, so the accesses
    are taken in program order. A blocking call that never returns is a worker
    the schedule no longer picks. *)
From stdpp Require Import gmap.
From S2P Require Import Prelude.


Inductive transport_type : Type :=
| TRANSPORT_TCP | TRANSPORT_RUDP_DIRECT | TRANSPORT_NATT | TRANSPORT_DNS | TRANSPORT_ICMP.
#[export] Instance transport_type_eq_dec : EqDecision transport_type.
Proof. solve_decision. Defined.

Definition ERR_TCP_CONNECT : Z := 1.
Definition ERR_TLS_HANDSHAKE : Z := 2.
Definition NUM_TRANSPORTS : nat := 5.
Definition RACE_POLL_MS : Z := 10.

(** Milliseconds before each transport starts. *)
Definition transport_delay_ms (t : transport_type) : Z :=
  match t with
  | TRANSPORT_TCP => 0 | TRANSPORT_RUDP_DIRECT => 0 | TRANSPORT_NATT => 30 | TRANSPORT_DNS => 100 | TRANSPORT_ICMP => 200
  end.

(** ** What a thread can own *)

Inductive kind : Type := KSocket | KUdp | KTransport | KTls.
#[export] Instance kind_eq_dec : EqDecision kind.
Proof. solve_decision. Defined.
#[export] Instance kind_countable : Countable kind.
Proof.
  refine (inj_countable' (fun k => match k with KSocket => 0%nat | KUdp => 1%nat | KTransport => 2%nat | KTls => 3%nat end)
    (fun n => match n with O => KSocket | 1%nat => KUdp | 2%nat => KTransport | _ => KTls end) _).
  by intros [].
Defined.
(** An object of one slot of the race. *)
Abbreviation resource := (kind * nat)%type.

(** ** A worker *)

Inductive wpc : Type :=
| WIdle          (** no thread *)
| WStart         (** the result is cleared, the arguments are looked at *)
| WBudget        (** [race_remaining_budget_ms] *)
| WDelay (wake : Z) (** [nanosleep] *)
| WCancelStart   (** the cancel flag before the start *)
| WOpen          (** [socket_create], or [inet_pton] *)
| WRendezvous    (** [nat_t_connect_ex] *)
| WCancelUdp     (** the cancel flag after the rendezvous *)
| WCreate        (** [rudp_transport_create] *)
| WConnect       (** [socket_connect_timeout] or [rudp_transport_connect] *)
| WCancelConn    (** the cancel flag after the connect *)
| WTls           (** [ssl_create_client] *)
| WHandshake     (** [ssl_connect] *)
| WClaim         (** the swap of [winner_claimed] *)
| WIndex         (** the store of [winner_index] *)
| WPayload       (** the stores of the result *)
| WPublish       (** the swap of [winner_published] *)
| WOk            (** [r->ok = 1] *)
| WReturn        (** the body returned to [race_thread_trampoline] *)
| WExited.       (** [exited] is set *)
#[export] Instance wpc_eq_dec : EqDecision wpc.
Proof. solve_decision. Defined.

(** How a call went; for the rendezvous [SameLan] is a success without a
    socket, for the connect of a transport [Forgets] a failure that leaves the
    socket of the rendezvous open ([RtConnectSpec]). *)
Inductive outcome : Type := Succeeds | SameLan | Fails | Forgets.
Definition succeeded (o : outcome) : bool := match o with Succeeds | SameLan => true | _ => false end.

(** [transport_result_t]: which objects the winner hands over; [None] is what
    clearing left there. *)
Record result := Result {
  r_socket_fd : option kind; r_ssl : option kind; r_transport : option kind; r_error : Z; r_ok : bool }.
#[export] Instance eta_result : Eta result := fun r => Result
  (r_socket_fd r) (r_ssl r) (r_transport r) (r_error r) (r_ok r).
Definition result_zero : result := Result None None None 0 false.

Record worker := Worker {
  w_type : transport_type; w_udp_port : Z; w_pc : wpc;
  w_udp : bool;     (** [nr.udp_fd >= 0] *)
  w_budget : Z; w_result : result }.
#[export] Instance eta_worker : Eta worker := fun w => Worker
  (w_type w) (w_udp_port w) (w_pc w) (w_udp w) (w_budget w) (w_result w).

(** ** The parent *)

Inductive ppc : Type :=
| PSpawn (i : nat)   (** the launch loop *)
| PPoll              (** the deadline *)
| PLook              (** [winner_published] *)
| PIndex             (** the index of the winner *)
| PRevoke            (** the swap that ends publication *)
| PRecheck           (** the second look *)
| PIndex2            (** the index of a winner published just before *)
| PCancel            (** [cancel_flag = 1] *)
| PJoinStart         (** the deadline of the joins *)
| PJoin (i : nat)    (** the wait for a slot that was created *)
| PWait (i : nat)    (** the deadline of the joins *)
| PDetach (i : nat)  (** [pthread_join] or [pthread_detach] *)
| PSnapshot          (** the fields of the winner *)
| PFree              (** the shared blocks *)
| PPromote           (** the connection takes the winner *)
| PReturned (r : Z).

(** [race_control_t], the contexts, and the locals of the parent. [rc_exited]
    is the field [exited] of the trampolines: the ADDRESS of the flag of a
    slot, [None] when NULL. *)
Record race := Race {
  rc_cancel : bool; rc_claimed : bool; rc_published : Z; rc_index : Z; rc_deadline : Z; rc_timeout : Z;
  rc_workers : list worker; rc_exited : list (option nat);
  rc_now : Z;
  p_pc : ppc; p_wake : Z; p_join_deadline : Z; p_winner : option nat; p_detached : nat;
  p_snapshot : option (nat * result); p_adopted : option (nat * result);
  rc_freed : bool; rc_live : gset (kind * nat); rc_fault : bool }.
#[export] Instance eta_race : Eta race := fun s => Race
  (rc_cancel s) (rc_claimed s) (rc_published s) (rc_index s) (rc_deadline s) (rc_timeout s) (rc_workers s) (rc_exited s) (rc_now s)
  (p_pc s) (p_wake s) (p_join_deadline s) (p_winner s) (p_detached s) (p_snapshot s) (p_adopted s)
  (rc_freed s) (rc_live s) (rc_fault s).

(** ** Steps of a worker *)

Definition put_w (i : nat) (w : worker) (s : race) : race := s <| rc_workers := <[i := w]> (rc_workers s) |>.
Definition acquire (k : kind) (i : nat) (s : race) : race := s <| rc_live := {[(k, i)]} ∪ rc_live s |>.
Definition release (k : kind) (i : nat) (s : race) : race :=
  if decide ((k, i) ∈ rc_live s) then s <| rc_live := rc_live s ∖ {[(k, i)]} |> else s <| rc_fault := true |>.
Definition release_all (ks : list kind) (i : nat) (s : race) : race := foldl (fun s k => release k i s) s ks.

Definition is_tcp (w : worker) : bool := bool_decide (w_type w = TRANSPORT_TCP).
Definition is_direct (w : worker) : bool := bool_decide (w_type w = TRANSPORT_RUDP_DIRECT).
Definition is_natt (w : worker) : bool := bool_decide (w_type w = TRANSPORT_NATT).

(** The object that carries the byte stream. *)
Definition base (w : worker) : kind := if is_tcp w then KSocket else KTransport.
(** [ssl_destroy] and the close of the stream. *)
Definition cleanup (w : worker) : list kind := [KTls; base w].
Definition udp_of (w : worker) : list kind := if w_udp w then [KUdp] else [].

Definition goto (p : wpc) (w : worker) : worker := w <| w_pc := p |>.
(** Release and return; [err] is stored when it is not zero. *)
Definition leave (i : nat) (err : Z) (ks : list kind) (w : worker) (s : race) : race :=
  put_w i (goto WReturn (if err =? 0 then w else w <| w_result := (w_result w) <| r_error := err |> |>)) (release_all ks i s).

(** Without a transport the socket of the rendezvous is closed. *)
Definition leave_udp (i : nat) (w : worker) (s : race) : race :=
  leave i ERR_TCP_CONNECT (udp_of w) (w <| w_udp := false |>) s.

Definition payload (w : worker) : result :=
  Result (Some (base w)) (Some KTls) (if is_tcp w then None else Some KTransport) (r_error (w_result w)) (r_ok (w_result w)).

Definition race_remaining_budget_ms (s : race) : Z := Z.max 0 (rc_deadline s - rc_now s).

(** From the start to the byte stream. *)
Definition open_step (i : nat) (o : outcome) (w : worker) (s : race) : option race :=
  match w_pc w with
  | WStart =>
      let w := w <| w_result := result_zero |> in
      Some (if is_direct w && (w_udp_port w <=? 0) then leave i ERR_TCP_CONNECT [] w s else put_w i (goto WBudget w) s)
  | WBudget =>
      let budget := race_remaining_budget_ms s in
      Some (if budget =? 0 then leave i 0 [] w s
            else put_w i (goto (WDelay (rc_now s + transport_delay_ms (w_type w))) (w <| w_budget := budget |>)) s)
  | WDelay wake => if wake <=? rc_now s then Some (put_w i (goto WCancelStart w) s) else None
  | WCancelStart => Some (if rc_cancel s then leave i 0 [] w s else put_w i (goto WOpen w) s)
  | WOpen =>
      Some (if negb (succeeded o) then leave i ERR_TCP_CONNECT [] w s
            else if is_tcp w then put_w i (goto WConnect w) (acquire KSocket i s)
            else put_w i (goto (if is_natt w then WRendezvous else WCreate) w) s)
  | WRendezvous =>
      Some (match o with
            | Succeeds => put_w i (goto WCancelUdp (w <| w_udp := true |>)) (acquire KUdp i s)
            | SameLan => put_w i (goto WCancelUdp w) s
            | _ => leave i ERR_TCP_CONNECT [] w s
            end)
  | WCancelUdp => Some (if rc_cancel s then leave_udp i w s else put_w i (goto WCreate w) s)
  | WCreate =>
      Some (if succeeded o then put_w i (goto WConnect w) (acquire KTransport i s)
            else leave_udp i w s)
  | _ => None
  end.

(** The connect: a transport takes the socket of the rendezvous over, and a
    failed one has closed it. *)
Definition connect_step (i : nat) (o : outcome) (w : worker) (s : race) : option race :=
  match w_pc w with
  | WConnect =>
      Some (match o with
            | Forgets => leave i ERR_TCP_CONNECT [base w] w s
            | _ =>
                let s := release_all (udp_of w) i s in
                let w := w <| w_udp := false |> in
                if succeeded o then put_w i (goto WCancelConn w) s else leave i ERR_TCP_CONNECT [base w] w s
            end)
  | WCancelConn => Some (if rc_cancel s then leave i ERR_TCP_CONNECT [base w] w s else put_w i (goto WTls w) s)
  | WTls =>
      Some (if succeeded o then put_w i (goto WHandshake w) (acquire KTls i s)
            else leave i ERR_TLS_HANDSHAKE [base w] w s)
  | WHandshake => Some (if succeeded o then put_w i (goto WClaim w) s else leave i ERR_TLS_HANDSHAKE (cleanup w) w s)
  | _ => None
  end.

(** The arbitration. *)
Definition claim_step (i : nat) (w : worker) (s : race) : option race :=
  match w_pc w with
  | WClaim => Some (if rc_claimed s then leave i 0 (cleanup w) w s else put_w i (goto WIndex w) (s <| rc_claimed := true |>))
  | WIndex => Some (put_w i (goto WPayload w) (s <| rc_index := Z.of_nat i |>))
  | WPayload => Some (put_w i (goto WPublish (w <| w_result := payload w |>)) s)
  | WPublish =>
      Some (if rc_published s =? 0 then put_w i (goto WOk w) (s <| rc_published := 1 |>) else leave i 0 (cleanup w) w s)
  | WOk => Some (put_w i (goto WReturn (w <| w_result := (w_result w) <| r_ok := true |> |>)) s)
  | WReturn => Some (put_w i (goto WExited w) s)
  | _ => None
  end.

(** The contexts and the control block are memory of the heap. *)
Definition touch (s : race) : race := if rc_freed s then s <| rc_fault := true |> else s.

Definition work_step (i : nat) (o : outcome) (s : race) : option race :=
  let s := touch s in
  match rc_workers s !! i with
  | None => None
  | Some w =>
      match open_step i o w s with
      | Some s => Some s
      | None => match connect_step i o w s with Some s => Some s | None => claim_step i w s end
      end
  end.

(** ** Steps of the parent *)

Definition created (w : worker) : bool := negb (bool_decide (w_pc w = WIdle)).
Definition exited (w : worker) : bool := bool_decide (w_pc w = WExited).

Definition at_p (p : ppc) (s : race) : race := s <| p_pc := p |>.
(** [usleep] of ten milliseconds. *)
Definition doze (s : race) : race := s <| p_wake := rc_now s + RACE_POLL_MS |>.

Definition winner_of (s : race) : option nat :=
  if (0 <=? rc_index s) && (rc_index s <? len (rc_workers s)) then Some (Z.to_nat (rc_index s)) else None.

(** The launch and the wait for a published winner. *)
Definition wait_step (ok : bool) (s : race) : option race :=
  match p_pc s with
  | PSpawn i =>
      match rc_workers s !! i with
      | None => Some (at_p PPoll s)
      | Some w =>
          let s := s <| rc_exited := <[i := Some i]> (rc_exited s) |> in
          Some (at_p (PSpawn (S i)) (if ok then put_w i (goto WStart w) s else s))
      end
  | PPoll => Some (at_p (if rc_now s <? rc_deadline s then PLook else PRevoke) s)
  | PLook => Some (if rc_published s =? 1 then at_p PIndex s else at_p PPoll (doze s))
  | PIndex => Some (at_p PRevoke (s <| p_winner := winner_of s |>))
  | PRevoke => Some (at_p PRecheck (if rc_published s =? 0 then s <| rc_published := -1 |> else s))
  | PRecheck => Some (at_p (if bool_decide (p_winner s = None) && (rc_published s =? 1) then PIndex2 else PCancel) s)
  | PIndex2 => Some (at_p PCancel (s <| p_winner := winner_of s |>))
  | PCancel => Some (at_p PJoinStart (s <| rc_cancel := true |>))
  | _ => None
  end.

(** The joins and the end. The code asks whether the POINTER [exited] of the
    trampoline is NULL, where the flag behind it is meant; [pthread_join] has a
    step only once the thread is gone. *)
Definition exited_ptr (i : nat) (s : race) : option nat := default None (rc_exited s !! i).

Definition join_step (s : race) : option race :=
  match p_pc s with
  | PJoinStart => Some (at_p (PJoin 0) (s <| p_join_deadline := rc_now s + rc_timeout s |>))
  | PJoin i =>
      match rc_workers s !! i with
      | None => Some (at_p PSnapshot s)
      | Some w =>
          Some (at_p (if negb (created w) then PJoin (S i)
                      else match exited_ptr i s with None => PWait i | Some _ => PDetach i end) s)
      end
  | PWait i => Some (if p_join_deadline s <=? rc_now s then at_p (PDetach i) s else at_p (PJoin i) (doze s))
  | PDetach i =>
      match exited_ptr i s, rc_workers s !! i with
      | Some _, Some w => if exited w then Some (at_p (PJoin (S i)) s) else None
      | _, _ => Some (at_p (PJoin (S i)) (s <| p_detached := S (p_detached s) |>))
      end
  | PSnapshot =>
      Some (at_p PFree (s <| p_snapshot := i ← p_winner s; w ← rc_workers s !! i; Some (i, w_result w) |>))
  | PFree => Some (at_p PPromote (if (p_detached s =? 0)%nat then s <| rc_freed := true |> else s))
  | PPromote =>
      Some (match p_winner s with
            | None => at_p (PReturned (-1)) s
            | Some _ => at_p (PReturned 0) (s <| p_adopted := p_snapshot s |>)
            end)
  | _ => None
  end.

Definition parent_step (ok : bool) (s : race) : option race :=
  if rc_now s <? p_wake s then None else
  match wait_step ok s with Some s => Some s | None => join_step s end.

(** ** Executions *)

Inductive act : Type := Tick (d : nat) | Work (i : nat) (o : outcome) | Parent (ok : bool).

Definition rstep (a : act) (s : race) : option race :=
  match a with
  | Tick d => Some (s <| rc_now := rc_now s + Z.of_nat d |>)
  | Work i o => work_step i o s
  | Parent ok => parent_step ok s
  end.

Definition steps_to (s s' : race) : Prop := exists a, rstep a s = Some s'.

(** The transports that take part: TCP does not, direct R-UDP only with a known
    port of the server. *)
Definition race_transports (udp_port : Z) : list transport_type :=
  let want_tcp := false in
  (if want_tcp : bool then [TRANSPORT_TCP] else []) ++
  (if udp_port >? 0 then [TRANSPORT_RUDP_DIRECT] else []) ++ [TRANSPORT_NATT; TRANSPORT_DNS; TRANSPORT_ICMP].

Definition slot (udp_port : Z) (t : transport_type) : worker :=
  Worker t (if bool_decide (t = TRANSPORT_RUDP_DIRECT) then udp_port else 0) WIdle false 0 result_zero.

(** The state behind the allocations; without memory the call returns at once. *)
Definition race_begin (slots : list worker) (heap : bool) (timeout_ms now : Z) : race :=
  Race false false 0 (-1) (now + timeout_ms) timeout_ms slots (replicate NUM_TRANSPORTS None) now
    (if heap then PSpawn 0 else PReturned (-1)) now 0 None 0 None None false ∅ false.
Definition softether_connect_parallel_race (udp_port : Z) (heap : bool) (timeout_ms now : Z) : race :=
  race_begin (slot udp_port <$> race_transports udp_port) heap timeout_ms now.

(** Runs a schedule of steps. *)
Fixpoint schedule (l : list act) (s : race) : option race :=
  match l with
  | [] => Some s
  | a :: l => match rstep a s with Some s => schedule l s | None => None end
  end.
