(* ===== verification/RaceInv.v ===== *)
(** * The invariant of the transport race

    Three parts: the accounts (what is live is what some worker holds), the
    arbitration (at most one worker is between its claim and its end, its index
    and its payload are in place before it publishes), and the parent (what it
    knows at each of its points). Every step of [Race] preserves them. *)
From stdpp Require Import gmap.
From S2P Require Import Prelude.
From S2P Require Import Race.

(** ** What a worker holds *)

Definition held (w : worker) : list kind :=
  match w_pc w with
  | WConnect | WCancelConn | WTls => [base w]
  | WHandshake | WClaim | WIndex | WPayload | WPublish | WOk => cleanup w
  | WReturn | WExited => if r_ok (w_result w) then cleanup w else []
  | _ => []
  end.
Definition own (w : worker) : list kind := held w ++ udp_of w.

(** The points where the socket of the rendezvous can be open. *)
Definition udp_pc (p : wpc) : bool := match p with WCancelUdp | WCreate | WConnect | WReturn | WExited => true | _ => false end.

(** Past the claim; past the index; past the payload; past the publication. *)
Definition holder (w : worker) : bool :=
  match w_pc w with WIndex | WPayload | WPublish | WOk => true | _ => r_ok (w_result w) end.
Definition indexed (w : worker) : bool :=
  match w_pc w with WPayload | WPublish | WOk => true | _ => r_ok (w_result w) end.
Definition complete (w : worker) : bool :=
  match w_pc w with WPublish | WOk => true | _ => r_ok (w_result w) end.
Definition won (w : worker) : bool := match w_pc w with WOk => true | _ => r_ok (w_result w) end.

(** The points only the bodies over UDP have. *)
Definition udp_body (p : wpc) : bool := match p with WRendezvous | WCancelUdp | WCreate => true | _ => false end.

Record worker_ok (w : worker) : Prop := {
  ok_body : udp_body (w_pc w) = true -> is_tcp w = false;
  ok_udp : w_udp w = true -> udp_pc (w_pc w) = true;
  ok_over : r_ok (w_result w) = true -> w_pc w = WReturn \/ w_pc w = WExited }.

(** The result hands over the objects of the worker. *)
Definition hands_over (w : worker) : Prop :=
  r_socket_fd (w_result w) = Some (base w) /\ r_ssl (w_result w) = Some KTls /\
  r_transport (w_result w) = if is_tcp w then None else Some KTransport.

(** ** The three parts *)

Abbreviation at_slot s i w := (rc_workers s !! i = Some w) (only parsing).

Record accounted (s : race) : Prop := {
  acc_fault : rc_fault s = false;
  acc_live : forall k i, (k, i) ∈ rc_live s <-> exists w, at_slot s i w /\ k ∈ own w;
  acc_ok : forall i w, at_slot s i w -> worker_ok w }.

Record arbitrated (s : race) : Prop := {
  arb_claimed : forall i w, at_slot s i w -> holder w = true -> rc_claimed s = true;
  arb_unique : forall i j v w, at_slot s i v -> at_slot s j w -> holder v = true -> holder w = true -> i = j;
  arb_index : forall i w, at_slot s i w -> indexed w = true -> rc_index s = Z.of_nat i;
  arb_payload : forall i w, at_slot s i w -> complete w = true -> hands_over w;
  arb_published : rc_published s = 1 <-> exists i w, at_slot s i w /\ won w = true;
  arb_range : rc_published s = 0 \/ rc_published s = 1 \/ rc_published s = -1 }.

Definition phase (p : ppc) : nat :=
  match p with
  | PSpawn _ => 0 | PPoll => 1 | PLook => 2 | PIndex => 3 | PRevoke => 4 | PRecheck => 5 | PIndex2 => 6 | PCancel => 7
  | PJoinStart => 8 | PJoin _ | PWait _ | PDetach _ => 9 | PSnapshot => 10 | PFree => 11 | PPromote => 12 | PReturned _ => 13
  end%nat.

(** The slots the joins are done with. *)
Definition joined (p : ppc) (j : nat) : Prop :=
  match p with
  | PJoin i | PWait i | PDetach i => (j < i)%nat
  | PSnapshot | PFree | PPromote | PReturned _ => True
  | _ => False
  end.

Definition winner_snapshot (s : race) : option (nat * result) :=
  i ← p_winner s; w ← rc_workers s !! i; Some (i, w_result w).

Record parented (s : race) : Prop := {
  par_spawn : forall i j w, p_pc s = PSpawn i -> (i <= j)%nat -> at_slot s j w -> w_pc w = WIdle;
  par_ptr : forall i w, at_slot s i w -> created w = true -> rc_exited s !! i = Some (Some i);
  par_slots : (length (rc_workers s) <= length (rc_exited s))%nat;
  par_nowait : forall i, p_pc s <> PWait i;
  par_join : forall i, p_pc s = PDetach i -> exists w, at_slot s i w /\ created w = true;
  par_detached : p_detached s = 0%nat;
  par_revoked : (5 <= phase (p_pc s))%nat -> rc_published s <> 0;
  par_seen : p_pc s = PIndex \/ p_pc s = PIndex2 -> rc_published s = 1;
  par_winner : forall i, p_winner s = Some i -> rc_published s = 1 /\ exists w, at_slot s i w /\ won w = true;
  par_loser : (7 <= phase (p_pc s))%nat -> p_winner s = None -> rc_published s = -1;
  par_late : (4 <= phase (p_pc s))%nat -> p_winner s = None -> rc_deadline s <= rc_now s;
  par_joined : forall j w, joined (p_pc s) j -> at_slot s j w -> created w = true -> exited w = true;
  par_freed : rc_freed s = true -> (12 <= phase (p_pc s))%nat;
  par_snapshot : (11 <= phase (p_pc s))%nat -> p_snapshot s = winner_snapshot s;
  par_adopted : forall r, p_pc s = PReturned r ->
    match p_winner s with Some _ => r = 0 /\ p_adopted s = p_snapshot s | None => r = -1 /\ p_adopted s = None end;
  par_unadopted : (phase (p_pc s) < 13)%nat -> p_adopted s = None;
  par_unseen : (phase (p_pc s) < 4)%nat -> p_winner s = None }.

Record race_inv (s : race) : Prop := {
  inv_acc : accounted s; inv_arb : arbitrated s; inv_par : parented s }.

(** ** The steps of a worker, in one shape *)

(** Worker [i] is replaced, with the shared fields a worker writes. *)
Definition stepped (i : nat) (w : worker) (live : gset (kind * nat)) (c : bool) (x p : Z) (s : race) : race :=
  put_w i w (s <| rc_live := live |> <| rc_claimed := c |> <| rc_index := x |> <| rc_published := p |>).

Definition holds (i : nat) (ks : list kind) (live : gset (kind * nat)) : Prop := forall k, (k, i) ∈ live <-> k ∈ ks.
Definition moved (i : nat) (ks : list kind) (live live' : gset (kind * nat)) : Prop :=
  holds i ks live' /\ forall k j, j <> i -> (k, j) ∈ live' <-> (k, j) ∈ live.

(** A step of [w] to [w'] that leaves the arbitration alone. *)
Definition quiet (i : nat) (w' : worker) (s s' : race) : Prop :=
  exists live, s' = stepped i w' live (rc_claimed s) (rc_index s) (rc_published s) s /\ moved i (own w') (rc_live s) live.

Lemma put_stepped i w s : put_w i w s = stepped i w (rc_live s) (rc_claimed s) (rc_index s) (rc_published s) s.
Proof. by destruct s. Qed.

Lemma quiet_put i w w' s : holds i (own w) (rc_live s) -> own w' = own w -> quiet i w' s (put_w i w' s).
Proof. intros Hh E. exists (rc_live s). split; [apply put_stepped|]. split; [by rewrite E|done]. Qed.

Lemma quiet_acquire i k w w' s : holds i (own w) (rc_live s) -> (forall k', k' ∈ own w' <-> k' = k \/ k' ∈ own w) ->
  quiet i w' s (put_w i w' (acquire k i s)).
Proof.
  intros Hh E. exists ({[(k, i)]} ∪ rc_live s). split; [by destruct s|]. split.
  - intros k'. rewrite E, <- (Hh k'). set_solver.
  - set_solver.
Qed.

Lemma release_all_spec ks i s : NoDup ks -> (forall k, k ∈ ks -> (k, i) ∈ rc_live s) ->
  exists live, release_all ks i s = s <| rc_live := live |> /\
    forall k j, (k, j) ∈ live <-> (k, j) ∈ rc_live s /\ ~ (j = i /\ k ∈ ks).
Proof.
  intros Hn. revert s. induction Hn as [|k ks Hk Hn IH]; intros s Hs.
  { exists (rc_live s). split; [by destruct s|]. set_solver. }
  change (release_all (k :: ks) i s) with (release_all ks i (release k i s)).
  unfold release. rewrite decide_True by (apply Hs; set_solver).
  destruct (IH (s <| rc_live := rc_live s ∖ {[(k, i)]} |>)) as (live & E & Hl).
  { intros k' Hk'. cbn. assert (k' <> k) by congruence. specialize (Hs k'). set_solver. }
  exists live. split; [rewrite E; by destruct s|]. intros k' j. rewrite (Hl k' j). cbn. set_solver.
Qed.

Lemma quiet_release ks i w w' s : holds i (own w) (rc_live s) ->
  NoDup ks -> (forall k, k ∈ ks -> k ∈ own w) -> (forall k, k ∈ own w' <-> k ∈ own w /\ k ∉ ks) ->
  quiet i w' s (put_w i w' (release_all ks i s)).
Proof.
  intros Hh Hn Hk E. destruct (release_all_spec ks i s Hn) as (live & Er & Hl). { intros k Hk'. by apply Hh, Hk. }
  exists live. split; [rewrite Er; by destruct s|]. split; [|intros k j Hj; rewrite Hl; naive_solver].
  intros k. rewrite E, (Hl k i), (Hh k). naive_solver.
Qed.

Lemma release_all_app ks ks' i s : release_all ks' i (release_all ks i s) = release_all (ks ++ ks') i s.
Proof. unfold release_all. by rewrite foldl_app. Qed.

(** ** The parts of a body that do not touch the arbitration *)

(** What such a step does with the worker. *)
Record plain (w w' : worker) : Prop := {
  plain_from : holder w = false /\ w_pc w <> WIdle /\ w_pc w <> WExited;
  plain_to : holder w' = false /\ w_pc w' <> WIdle;
  plain_ok : worker_ok w' }.

Definition plain_step (i : nat) (w : worker) (s s' : race) : Prop := exists w', quiet i w' s s' /\ plain w w'.

(** Both sides of a membership statement over the kinds are evaluated. *)
Ltac decided := apply (bool_decide_unpack _); vm_compute; exact I.
Ltac kinds := let k := fresh "k" in intros k; destruct k; decided.
Ltac plain_tac := constructor; [done|done|constructor; cbn; (done || intros; vm_compute; done)].

Lemma plain_put i w w' s : holds i (own w) (rc_live s) -> own w' = own w -> plain w w' -> plain_step i w s (put_w i w' s).
Proof. intros Hh E Hp. exists w'. split; [by eapply quiet_put|done]. Qed.

Lemma plain_acquire i k w w' s : holds i (own w) (rc_live s) -> (forall k', k' ∈ own w' <-> k' = k \/ k' ∈ own w) ->
  plain w w' -> plain_step i w s (put_w i w' (acquire k i s)).
Proof. intros Hh E Hp. exists w'. split; [by eapply quiet_acquire|done]. Qed.

Lemma plain_release ks i w w' s : holds i (own w) (rc_live s) ->
  NoDup ks -> (forall k, k ∈ ks -> k ∈ own w) -> (forall k, k ∈ own w' <-> k ∈ own w /\ k ∉ ks) -> plain w w' ->
  plain_step i w s (put_w i w' (release_all ks i s)).
Proof. intros Hh Hn Hk E Hp. exists w'. split; [by eapply quiet_release|done]. Qed.

(** A return may or may not have stored an error. *)
Lemma plain_leave i err ks w w0 s : holds i (own w) (rc_live s) -> NoDup ks -> (forall k, k ∈ ks -> k ∈ own w) ->
  (forall e k, k ∈ own (goto WReturn (w0 <| w_result := (w_result w0) <| r_error := e |> |>)) <-> k ∈ own w /\ k ∉ ks) ->
  (forall e, plain w (goto WReturn (w0 <| w_result := (w_result w0) <| r_error := e |> |>))) ->
  plain_step i w s (leave i err ks w0 s).
Proof.
  intros Hh Hn Hk E Hp. unfold leave.
  replace (if err =? 0 then w0 else w0 <| w_result := (w_result w0) <| r_error := err |> |>)
    with (w0 <| w_result := (w_result w0) <| r_error := if err =? 0 then r_error (w_result w0) else err |> |>).
  - apply plain_release; auto.
  - destruct (err =? 0), w0 as [? ? ? ? ? []]; done.
Qed.

(** A worker that has not returned has not won; [udp] only where it can be. *)
Lemma worker_ok_inv w : worker_ok w -> w_pc w <> WReturn -> w_pc w <> WExited ->
  r_ok (w_result w) = false /\ (udp_pc (w_pc w) = false -> w_udp w = false) /\ (udp_body (w_pc w) = true -> is_tcp w = false).
Proof.
  intros [Hb Hu Ho] H1 H2. split_and!; [| |done].
  - destruct (r_ok (w_result w)); [|done]. by destruct Ho.
  - intros E. destruct (w_udp w); [|done]. rewrite Hu in E by done. discriminate E.
Qed.

(** The cases of a worker its held objects depend on, at a known point. *)
Ltac worker_cases w :=
  let ty := fresh "ty" in let u := fresh "u" in
  destruct w as [ty ? ? u ? [? ? ? ? ?]]; cbn in *; simplify_eq; try (match goal with Hu : false = false -> u = false |- _ => specialize (Hu eq_refl); subst u end);
  destruct ty; try discriminate; try (match goal with Hb : true = true -> _ |- _ => by specialize (Hb eq_refl) end); try (is_var u; destruct u).

(** One case of a step, once it is known which lemma it is of. *)
Ltac plain_case w :=
  lazymatch goal with
  | |- plain_step _ _ _ (leave _ _ _ _ _) => apply plain_leave
  | |- plain_step _ _ _ (put_w _ _ (acquire _ _ _)) => apply plain_acquire
  | |- plain_step _ _ _ (put_w _ _ (release_all _ _ _)) => apply plain_release
  | _ => apply plain_put
  end; [done|..]; match goal with Hh : holds _ _ _ |- _ => clear Hh end; worker_cases w;
  try done; try (intros ?; kinds); try kinds; try plain_tac; try (intros; plain_tac); try decided.

Lemma open_step_plain i o w s s' : holds i (own w) (rc_live s) -> worker_ok w -> open_step i o w s = Some s' -> plain_step i w s s'.
Proof.
  intros Hh Hok Hs. unfold open_step, leave_udp in Hs.
  destruct (w_pc w) eqn:E; try discriminate Hs; destruct (worker_ok_inv w Hok) as (Hr & Hu & Hb); try (by rewrite E);
    rewrite E in Hu, Hb; repeat case_match; simplify_eq; clear Hok; plain_case w.
Qed.

Lemma leave_release i err ks ks' w s : leave i err ks' w (release_all ks i s) = leave i err (ks ++ ks') w s.
Proof. unfold leave. by rewrite release_all_app. Qed.

Lemma connect_step_plain i o w s s' : holds i (own w) (rc_live s) -> worker_ok w -> connect_step i o w s = Some s' -> plain_step i w s s'.
Proof.
  intros Hh Hok Hs. unfold connect_step in Hs.
  destruct (w_pc w) eqn:E; try discriminate Hs; destruct (worker_ok_inv w Hok) as (Hr & Hu & Hb); try (by rewrite E);
    rewrite E in Hu, Hb; repeat case_match; simplify_eq; clear Hok; rewrite ?leave_release; plain_case w.
Qed.

(** ** Every step of a worker *)

(** What a step does to the worker and to the claim, the index and the
    publication. *)
Inductive claims (i : nat) (s : race) (w w' : worker) : bool -> Z -> Z -> Prop :=
| cl_plain : plain w w' -> claims i s w w' (rc_claimed s) (rc_index s) (rc_published s)
| cl_claim : w_pc w = WClaim -> rc_claimed s = false -> w' = goto WIndex w ->
    claims i s w w' true (rc_index s) (rc_published s)
| cl_index : w_pc w = WIndex -> w' = goto WPayload w -> claims i s w w' (rc_claimed s) (Z.of_nat i) (rc_published s)
| cl_payload : w_pc w = WPayload -> w' = goto WPublish (w <| w_result := payload w |>) ->
    claims i s w w' (rc_claimed s) (rc_index s) (rc_published s)
| cl_publish : w_pc w = WPublish -> rc_published s = 0 -> w' = goto WOk w -> claims i s w w' (rc_claimed s) (rc_index s) 1
| cl_abandon : w_pc w = WPublish -> rc_published s <> 0 -> w' = goto WReturn w ->
    claims i s w w' (rc_claimed s) (rc_index s) (rc_published s)
| cl_ok : w_pc w = WOk -> w' = goto WReturn (w <| w_result := (w_result w) <| r_ok := true |> |>) ->
    claims i s w w' (rc_claimed s) (rc_index s) (rc_published s)
| cl_return : w_pc w = WReturn -> w' = goto WExited w ->
    claims i s w w' (rc_claimed s) (rc_index s) (rc_published s).

(** The shape of a step of worker [i]. *)
Definition worked (i : nat) (w : worker) (s s' : race) : Prop :=
  exists w' live c x p, s' = stepped i w' live c x p s /\ moved i (own w') (rc_live s) live /\
    w_pc w' <> WIdle /\ worker_ok w' /\ claims i s w w' c x p.

Lemma plain_worked i w s s' : plain_step i w s s' -> worked i w s s'.
Proof.
  intros (w' & (live & -> & Hm) & [Hf Ht Ho]). exists w', live, (rc_claimed s), (rc_index s), (rc_published s).
  split_and!; try done; [apply Ht|]. by constructor.
Qed.

(** A step that keeps what the worker holds. *)
Lemma kept_worked i w w' c x p s s0 : s0 = s <| rc_claimed := c |> <| rc_index := x |> <| rc_published := p |> ->
  holds i (own w) (rc_live s) -> own w' = own w -> w_pc w' <> WIdle -> worker_ok w' ->
  claims i s w w' c x p -> worked i w s (put_w i w' s0).
Proof.
  intros -> Hh E Hp Ho Hc. exists w', (rc_live s), c, x, p. split; [by destruct s|]. split; [split; [by rewrite E|done]|done].
Qed.

(** An abandoned winner releases everything. *)
Lemma abandon_worked i w s : holds i (own w) (rc_live s) -> worker_ok w -> w_pc w = WPublish -> rc_published s <> 0 ->
  worked i w s (leave i 0 (cleanup w) w s).
Proof.
  intros Hh Hok E Hp. destruct (worker_ok_inv w Hok) as (Hr & Hu & Hb); try (by rewrite E). rewrite E in Hu, Hb.
  specialize (Hu eq_refl). change (leave i 0 (cleanup w) w s) with (put_w i (goto WReturn w) (release_all (cleanup w) i s)).
  destruct (quiet_release (cleanup w) i w (goto WReturn w) s) as (live & -> & Hm); [done|..].
  1-3: clear Hh; worker_cases w; try kinds; try decided.
  exists (goto WReturn w), live, (rc_claimed s), (rc_index s), (rc_published s). split_and!; try done.
  - constructor; cbn; [done|congruence|congruence].
  - by constructor.
Qed.

(** The side conditions of a step of the protocol on the worker. *)
Ltac kept_case w E Hok :=
  let Hr := fresh in let Hu := fresh in let Hb := fresh in
  first [destruct (worker_ok_inv w Hok) as (Hr & Hu & Hb); [by rewrite E|by rewrite E|]; rewrite E in Hu, Hb
        |destruct Hok as [Hb Hu Hr]; rewrite E in Hu, Hb, Hr];
  match goal with Hh : holds _ _ _ |- _ => clear Hh end; worker_cases w; try done; try plain_tac;
  try (constructor; cbn; auto; done).

Lemma claim_step_worked i w s s' : holds i (own w) (rc_live s) -> worker_ok w -> claim_step i w s = Some s' -> worked i w s s'.
Proof.
  intros Hh Hok Hs. unfold claim_step in Hs.
  destruct (w_pc w) eqn:E; try discriminate Hs.
  - destruct (rc_claimed s) eqn:Ec; injection Hs as <-.
    + apply plain_worked. destruct (worker_ok_inv w Hok) as (Hr & Hu & Hb); try (by rewrite E). rewrite E in Hu, Hb.
      clear Hok. plain_case w.
    + apply (kept_worked i w _ true (rc_index s) (rc_published s) s); [by destruct s|done|..|by constructor]; kept_case w E Hok.
  - injection Hs as <-.
    apply (kept_worked i w _ (rc_claimed s) (Z.of_nat i) (rc_published s) s); [by destruct s|done|..|by constructor]; kept_case w E Hok.
  - injection Hs as <-.
    apply (kept_worked i w _ (rc_claimed s) (rc_index s) (rc_published s) s); [by destruct s|done|..|by constructor]; kept_case w E Hok.
  - destruct (Z.eqb_spec (rc_published s) 0) as [Ep|Ep]; injection Hs as <-; [|by apply abandon_worked].
    apply (kept_worked i w _ (rc_claimed s) (rc_index s) 1 s); [by destruct s|done|..|by constructor]; kept_case w E Hok.
  - injection Hs as <-.
    apply (kept_worked i w _ (rc_claimed s) (rc_index s) (rc_published s) s); [by destruct s|done|..|by constructor]; kept_case w E Hok.
  - injection Hs as <-.
    apply (kept_worked i w _ (rc_claimed s) (rc_index s) (rc_published s) s); [by destruct s|done|..|by constructor]; kept_case w E Hok.
Qed.

(** A step is of a thread that exists and is not gone. *)
Lemma work_enabled i o s s' : work_step i o s = Some s' -> exists w, at_slot s i w /\ w_pc w <> WIdle /\ w_pc w <> WExited.
Proof.
  unfold work_step. assert (E : rc_workers (touch s) = rc_workers s) by (unfold touch; by destruct (rc_freed s)). rewrite E.
  destruct (rc_workers s !! i) as [w|] eqn:Hw; [|discriminate 1]. intros Hs. exists w. split; [done|].
  split; intros Ep; unfold open_step, connect_step, claim_step in Hs; rewrite Ep in Hs; discriminate Hs.
Qed.

Lemma work_worked i o w s s' : rc_freed s = false -> accounted s -> at_slot s i w -> work_step i o s = Some s' -> worked i w s s'.
Proof.
  intros Hf Ha Hw Hs. unfold work_step, touch in Hs. rewrite Hf, Hw in Hs.
  assert (Hok : worker_ok w) by by eapply acc_ok.
  assert (Hh : holds i (own w) (rc_live s)). { intros k. rewrite (acc_live s Ha). naive_solver. }
  destruct (open_step i o w s) eqn:E1; simplify_eq; [by apply plain_worked, (open_step_plain i o)|].
  destruct (connect_step i o w s) eqn:E2; simplify_eq; [by apply plain_worked, (connect_step_plain i o)|].
  by apply claim_step_worked.
Qed.

Lemma slot_stepped i w w' live c x p s j v : at_slot s i w ->
  at_slot (stepped i w' live c x p s) j v <-> (j = i /\ v = w') \/ (j <> i /\ at_slot s j v).
Proof.
  intros Hw. change (rc_workers (stepped i w' live c x p s)) with (<[i := w']> (rc_workers s)).
  rewrite list_lookup_insert_Some. pose proof (lookup_lt_Some _ _ _ Hw). naive_solver.
Qed.

Lemma accounted_worked i w s s' : accounted s -> at_slot s i w -> worked i w s s' -> accounted s'.
Proof.
  intros Ha Hw (w' & live & c & x & p & -> & [Hl Ho] & _ & Hok & _). constructor.
  - apply (acc_fault s Ha).
  - intros k j. change (rc_live (stepped i w' live c x p s)) with live. setoid_rewrite (slot_stepped i w); [|done].
    destruct (decide (j = i)) as [->|Hj]; [rewrite (Hl k)|rewrite (Ho k j Hj), (acc_live s Ha)]; naive_solver.
  - intros j v [[-> ->]|[_ Hv]]%(slot_stepped i w); [done| |done]. by eapply acc_ok.
Qed.

Lemma indexed_holder w : indexed w = true -> holder w = true.
Proof. unfold indexed, holder. by destruct (w_pc w). Qed.

Lemma holder_false w : holder w = false -> indexed w = false /\ complete w = false /\ won w = false.
Proof. unfold holder, indexed, complete, won. by destruct (w_pc w). Qed.

(** What a step owes to the arbitration. *)
Lemma arbitrated_stepped i w w' live c x p s : arbitrated s -> at_slot s i w ->
  (holder w' = true -> c = true) -> (rc_claimed s = true -> c = true) ->
  (holder w' = true -> forall j v, j <> i -> at_slot s j v -> holder v = false) ->
  (indexed w' = true -> x = Z.of_nat i) -> (x = rc_index s \/ holder w' = true) ->
  (complete w' = true -> hands_over w') ->
  (p = rc_published s /\ won w' = won w) \/ (p = 1 /\ won w' = true) ->
  arbitrated (stepped i w' live c x p s).
Proof.
  intros [Ac Au Ai Ap Ab Ar] Hw Hc Hc' Hu Hi Hx Hp Hb.
  assert (Hs : forall j v, at_slot (stepped i w' live c x p s) j v -> (j = i /\ v = w') \/ (j <> i /\ at_slot s j v)).
  { intros j v Hv. by apply (slot_stepped i w w' live c x p s j v Hw). }
  constructor.
  - intros j v [[-> ->]|[_ Hv]]%Hs H; [by apply Hc|]. by eapply Hc', Ac.
  - intros j k v u [[-> ->]|[Hj Hv]]%Hs [[-> ->]|[Hk Hz]]%Hs H1 H2; [done| | |by eapply Au].
    + rewrite (Hu H1 _ _ Hk Hz) in H2. discriminate H2.
    + rewrite (Hu H2 _ _ Hj Hv) in H1. discriminate H1.
  - intros j v [[-> ->]|[Hj Hv]]%Hs H; [by apply Hi|]. destruct Hx as [Hx|Hx]; [by rewrite <- (Ai _ _ Hv H)|].
    apply indexed_holder in H. rewrite (Hu Hx _ _ Hj Hv) in H. discriminate H.
  - intros j v [[-> ->]|[_ Hv]]%Hs H; eauto.
  - change (rc_published (stepped i w' live c x p s)) with p. setoid_rewrite (fun j v => slot_stepped i w w' live c x p s j v Hw).
    destruct Hb as [[-> E]|[-> E]]; [|split; [intros _; exists i, w'; auto|done]].
    rewrite Ab. split; intros (j & v & Hv & Hwon).
    + destruct (decide (j = i)) as [->|Hj]; [|eauto 6]. rewrite Hw in Hv. injection Hv as <-. exists i, w'. split; [by left|congruence].
    + destruct Hv as [[-> ->]|[_ Hv]]; [|eauto]. exists i, w. split; [done|congruence].
  - change (rc_published (stepped i w' live c x p s)) with p. destruct Hb as [[-> _]|[-> _]]; auto.
Qed.

Lemma arbitrated_worked i w s s' : arbitrated s -> accounted s -> at_slot s i w -> worked i w s s' -> arbitrated s'.
Proof.
  intros Ha Hacc Hw (w' & live & c & x & p & -> & _ & _ & Hok & Hc).
  assert (Hother : holder w = true -> forall j v, j <> i -> at_slot s j v -> holder v = false).
  { intros H j v Hj Hv. destruct (holder v) eqn:E; [|done]. by destruct Hj; eapply arb_unique. }
  assert (Hcl : holder w = true -> rc_claimed s = true) by (intros; by eapply arb_claimed).
  assert (Hix : indexed w = true -> rc_index s = Z.of_nat i) by (intros; by eapply arb_index).
  assert (Hpay : complete w = true -> hands_over w) by (intros; by eapply arb_payload).
  assert (Hnone : rc_claimed s = false -> forall j v, at_slot s j v -> holder v = false).
  { intros E j v Hv. destruct (holder v) eqn:H; [|done]. rewrite (arb_claimed s Ha j v Hv H) in E. discriminate E. }
  assert (Hwk : worker_ok w) by by eapply acc_ok.
  destruct Hc as [Hpl|H1 H2 ->|H1 ->|H1 ->|H1 H2 ->|H1 H2 ->|H1 ->|H1 ->].
  { destruct Hpl as [(H1 & _) (H2 & _) _]. destruct (holder_false w H1) as (? & ? & ?), (holder_false w' H2) as (? & ? & ?).
    apply (arbitrated_stepped i w); try done; intuition congruence. }
  all: apply (arbitrated_stepped i w); try done.
  all: try (destruct (worker_ok_inv w Hwk) as (Hr & _); [by rewrite H1|by rewrite H1|]).
  all: unfold holder, indexed, complete, won in *; cbn in *; rewrite H1 in *; try rewrite Hr in *; eauto.
Qed.

(** ** A worker's step seen from the parent *)

Lemma claims_won i s w w' c x p : claims i s w w' c x p -> worker_ok w ->
  (won w = true -> won w' = true) /\ (p = rc_published s \/ (rc_published s = 0 /\ p = 1)).
Proof.
  intros Hc Hok. destruct Hc as [Hpl|H1 H2 ->|H1 ->|H1 ->|H1 H2 ->|H1 H2 ->|H1 ->|H1 ->]; split; auto.
  { destruct Hpl as [(H1 & _) _ _]. destruct (holder_false w H1) as (_ & _ & E). congruence. }
  all: unfold won; cbn; rewrite H1; try done.
Qed.

Lemma after_joins (s : race) : parented s -> (10 <= phase (p_pc s))%nat ->
  forall j w, at_slot s j w -> created w = true -> exited w = true.
Proof. intros Hp H j w Hw Hc. apply (par_joined s Hp j); [|done..]. destruct (p_pc s); cbn in *; try lia; done. Qed.

Lemma unfreed_worker s i w : parented s -> at_slot s i w -> w_pc w <> WIdle -> w_pc w <> WExited -> rc_freed s = false.
Proof.
  intros Hp Hw H1 H2. destruct (rc_freed s) eqn:E; [|done]. apply (par_freed s Hp) in E.
  assert (Hx : exited w = true). { eapply after_joins; [done|lia|done|]. unfold created. by rewrite bool_decide_eq_false_2. }
  unfold exited in Hx. by apply bool_decide_eq_true in Hx.
Qed.

Lemma parented_worked i w s s' : parented s -> accounted s -> at_slot s i w -> w_pc w <> WIdle -> w_pc w <> WExited ->
  worked i w s s' -> parented s'.
Proof.
  intros Hp Ha Hw Hi Hx (w' & live & c & x & p & -> & _ & Hi' & _ & Hc).
  destruct (claims_won _ _ _ _ _ _ _ Hc (acc_ok s Ha i w Hw)) as [Hwon Hpub].
  assert (Hcr : created w = true) by (unfold created; by rewrite bool_decide_eq_false_2).
  assert (Hnx : exited w = false) by (unfold exited; by rewrite bool_decide_eq_false_2).
  assert (Hearly : (phase (p_pc s) < 10)%nat).
  { destruct (decide (10 <= phase (p_pc s))%nat); [|lia]. rewrite (after_joins s Hp) with (j := i) in Hnx; done. }
  assert (Hs : forall j v, at_slot (stepped i w' live c x p s) j v -> (j = i /\ v = w') \/ (j <> i /\ at_slot s j v)).
  { intros j v Hv. by apply (slot_stepped i w w' live c x p s j v Hw). }
  assert (Hkeep : forall j v, at_slot s j v -> exists v', at_slot (stepped i w' live c x p s) j v' /\
    (created v = true -> created v' = true) /\ (won v = true -> won v' = true)).
  { intros j v Hv. destruct (decide (j = i)) as [->|Hj].
    - rewrite Hw in Hv. injection Hv as <-. exists w'. split; [apply (slot_stepped i w); auto|]. split; [|done].
      intros _. unfold created. by rewrite bool_decide_eq_false_2.
    - exists v. split; [apply (slot_stepped i w); auto|done]. }
  destruct Hp as [P1 P2 P3 P4 P5 P6 P7 P8 P9 P10 P11 P12 P13 P14 P15 P16 P17].
  constructor.
  - intros k j v E Hle [[-> ->]|[_ Hv]]%Hs; [|by eapply P1]. destruct Hi. by eapply P1.
  - intros j v [[-> ->]|[_ Hv]]%Hs Hcv; [by apply (P2 i w)|by eapply P2].
  - change (length (<[i := w']> (rc_workers s)) <= length (rc_exited s))%nat. by rewrite length_insert.
  - exact P4.
  - intros j E. destruct (P5 j E) as (v & Hv & Hcv). destruct (Hkeep j v Hv) as (v' & Hv' & Hcv' & _). eauto.
  - exact P6.
  - intros E. specialize (P7 E). change (p <> 0). destruct Hpub as [->|[? _]]; done.
  - intros E. specialize (P8 E). change (p = 1). destruct Hpub as [->|[_ ->]]; done.
  - intros j E. destruct (P9 j E) as (Ep & v & Hv & Hwv). destruct (Hkeep j v Hv) as (v' & Hv' & _ & Hwv').
    split; [|eauto]. change (p = 1). destruct Hpub as [->|[_ ->]]; done.
  - intros E1 E2. specialize (P10 E1 E2). change (p = -1). destruct Hpub as [->|[? _]]; [done|congruence].
  - exact P11.
  - intros j v Hj [[-> ->]|[_ Hv]]%Hs Hcv; [|by eapply P12]. rewrite (P12 i w Hj Hw Hcr) in Hnx. discriminate Hnx.
  - exact P13.
  - intros E. change (11 <= phase (p_pc s))%nat in E. lia.
  - exact P15.
  - exact P16.
  - exact P17.
Qed.

(** ** The steps of the parent *)

Lemma accounted_same s s' : rc_fault s' = rc_fault s -> rc_live s' = rc_live s -> rc_workers s' = rc_workers s ->
  accounted s -> accounted s'.
Proof. intros E1 E2 E3 [A1 A2 A3]. constructor; rewrite ?E1, ?E2, ?E3; done. Qed.

Lemma arbitrated_same s s' : rc_workers s' = rc_workers s -> rc_claimed s' = rc_claimed s -> rc_index s' = rc_index s ->
  rc_published s' = rc_published s \/ (rc_published s = 0 /\ rc_published s' = -1) -> arbitrated s -> arbitrated s'.
Proof.
  intros E1 E2 E3 E4 [A1 A2 A3 A4 A5 A6]. constructor; rewrite ?E1, ?E2, ?E3; try done.
  - rewrite <- A5. lia.
  - lia.
Qed.

(** A thread is created in an idle slot. *)
Lemma spawned i w s : accounted s -> arbitrated s -> at_slot s i w -> w_pc w = WIdle ->
  accounted (put_w i (goto WStart w) s) /\ arbitrated (put_w i (goto WStart w) s).
Proof.
  intros Ha Hb Hw E. pose proof (acc_ok s Ha i w Hw) as Hok.
  destruct (worker_ok_inv w Hok) as (Hr & Hu & _); [by rewrite E..|]. rewrite E in Hu. specialize (Hu eq_refl).
  assert (Ho : own w = []) by (unfold own, held, udp_of; by rewrite E, Hu).
  assert (Ho' : own (goto WStart w) = []) by (unfold own, held, udp_of; cbn; by rewrite Hu).
  rewrite put_stepped. split.
  - constructor.
    + apply (acc_fault s Ha).
    + intros k j. change (rc_live _) with (rc_live s). rewrite (acc_live s Ha).
      setoid_rewrite (fun j v => slot_stepped i w (goto WStart w) (rc_live s) (rc_claimed s) (rc_index s) (rc_published s) s j v Hw).
      split; intros (v & Hv & Hk).
      * exists v. split; [|done]. right. split; [|done]. intros ->. rewrite Hw in Hv. injection Hv as <-. rewrite Ho in Hk. set_solver.
      * destruct Hv as [[-> ->]|[_ Hv]]; [rewrite Ho' in Hk; set_solver|eauto].
    + intros j v [[-> ->]|[_ Hv]]%(slot_stepped i w); [|by eapply acc_ok|done]. constructor; cbn; congruence.
  - apply (arbitrated_stepped i w); try done; unfold holder, indexed, complete, won; cbn; rewrite ?Hr, ?E; try done; by left.
Qed.

Lemma parent_shared ok s s' : race_inv s -> parent_step ok s = Some s' -> accounted s' /\ arbitrated s'.
Proof.
  intros [Ha Hb Hp] Hs. unfold parent_step in Hs. destruct (rc_now s <? p_wake s); [discriminate Hs|].
  assert (Hsame : forall t, rc_fault t = rc_fault s -> rc_live t = rc_live s -> rc_workers t = rc_workers s ->
    rc_claimed t = rc_claimed s -> rc_index t = rc_index s ->
    rc_published t = rc_published s \/ (rc_published s = 0 /\ rc_published t = -1) -> accounted t /\ arbitrated t).
  { intros. split; [by eapply accounted_same|by eapply arbitrated_same]. }
  unfold wait_step, join_step in Hs. destruct (p_pc s) eqn:E; repeat case_match; simplify_eq.
  all: try (apply Hsame; auto; done).
  - destruct (spawned i w s Ha Hb) as [Ha' Hb']; [done|by eapply (par_spawn s Hp i i)|].
    split; [by apply (accounted_same (put_w i (goto WStart w) s))|]. apply (arbitrated_same (put_w i (goto WStart w) s)); auto.
  - apply Hsame; auto. right. split; [lia|done].
Qed.

(** The index of a published winner is one of the slots. *)
Lemma winner_found s : arbitrated s -> rc_published s = 1 ->
  exists i w, winner_of s = Some i /\ at_slot s i w /\ won w = true.
Proof.
  intros Ha Hp. apply (arb_published s Ha) in Hp as (i & w & Hw & Hwon). exists i, w. split; [|done].
  unfold winner_of. rewrite (arb_index s Ha i w Hw) by (revert Hwon; unfold won, indexed; by destruct (w_pc w)).
  pose proof (lookup_lt_Some _ _ _ Hw) as Hl. unfold len.
  destruct (Z.leb_spec 0 (Z.of_nat i)); [|lia]. destruct (Z.ltb_spec (Z.of_nat i) (Z.of_nat (length (rc_workers s)))); [|lia].
  cbn. by rewrite Nat2Z.id.
Qed.

(** The launch of one slot. *)
Lemma spawn_parented i w ok s : parented s -> p_pc s = PSpawn i -> at_slot s i w ->
  let s := s <| rc_exited := <[i := Some i]> (rc_exited s) |> in
  parented (at_p (PSpawn (S i)) (if ok : bool then put_w i (goto WStart w) s else s)).
Proof.
  intros [P1 P2 P3 P4 P5 P6 P7 P8 P9 P10 P11 P12 P13 P14 P15 P16 P17] E Hw. rewrite E in *. cbn [phase joined] in *.
  pose proof (lookup_lt_Some _ _ _ Hw) as Hl.
  assert (Hx : forall j v, at_slot s j v -> created v = true \/ j = i -> (<[i := Some i]> (rc_exited s)) !! j = Some (Some j)).
  { intros j v Hv H. destruct (decide (j = i)) as [->|Hj]; [apply list_lookup_insert_eq; lia|].
    rewrite list_lookup_insert_ne by done. destruct H as [H|]; [by eapply P2|done]. }
  assert (Hwin : p_winner s = None) by (apply P17; lia).
  constructor; destruct ok; cbn; rewrite ?length_insert; try done; try lia; rewrite ?Hwin; try done; try (intros; intuition discriminate).
  - intros k j v [= <-] Hle Hv. rewrite list_lookup_insert_ne in Hv by lia. apply (P1 i j v); [done|lia|done].
  - intros k j v [= <-] Hle Hv. apply (P1 i j v); [done|lia|done].
  - intros j v Hv Hc. apply list_lookup_insert_Some in Hv as [(-> & <- & _)|[Hj Hv]]; eapply Hx; eauto.
  - intros j v Hv Hc. eapply Hx; eauto.
Qed.

(** The wait for a winner. *)
Lemma wait_step_parented ok s s' : race_inv s -> wait_step ok s = Some s' -> parented s'.
Proof.
  intros [Ha Hb Hp] Hs. pose proof (winner_found s Hb) as Hfound. unfold wait_step in Hs.
  destruct (p_pc s) eqn:E; try discriminate Hs.
  1: destruct (rc_workers s !! i) as [w|] eqn:Hw; simplify_eq; [by apply spawn_parented|].
  all: repeat case_match; simplify_eq.
  all: destruct Hp as [P1 P2 P3 P4 P5 P6 P7 P8 P9 P10 P11 P12 P13 P14 P15 P16 P17]; rewrite E in *; cbn [phase joined] in *.
  all: constructor; cbn; intros; try discriminate; try lia; try done; auto; try (intuition discriminate); try (by eapply P2);
    try (apply P16; lia); try (apply P17; lia); try (match goal with H : rc_freed _ = true |- _ => apply P13 in H; lia end).
  all: try (match goal with H : winner_of _ = _ |- _ =>
    destruct (Hfound (P8 ltac:(auto))) as (? & ? & E1 & ? & ?); rewrite E1 in H; simplify_eq; eauto end).
  - split; [by apply P8; left|eauto].
  - match goal with H : p_winner s = Some _ |- _ => destruct (P9 _ H) as [E1 _] end. lia.
  - destruct (arb_range s Hb) as [E1|[E1|E1]]; [|exfalso|done].
    + destruct (P7 ltac:(lia) E1).
    + match goal with H : p_winner s = None, Hq : _ && _ = false |- _ => rewrite bool_decide_eq_true_2 in Hq by done; cbn in Hq; lia end.
  - split; [by apply P8; right|eauto].
Qed.

(** A move inside the joins. *)
Lemma join_moved q s : parented s -> phase (p_pc s) = 9%nat -> phase q = 9%nat \/ q = PSnapshot ->
  (forall i, q <> PWait i) -> (forall i, q = PDetach i -> exists w, at_slot s i w /\ created w = true) ->
  (forall j w, joined q j -> at_slot s j w -> created w = true -> exited w = true) -> parented (at_p q s).
Proof.
  intros Hp E Hq Hw Hd Hj. assert (Hph : (9 <= phase q <= 10)%nat) by (destruct Hq as [Hq|Hq]; rewrite Hq; cbn; lia).
  destruct Hp as [P1 P2 P3 P4 P5 P6 P7 P8 P9 P10 P11 P12 P13 P14 P15 P16 P17].
  constructor; cbn; intros; auto; try lia; try (by eapply P2); try (by subst q; cbn in *; lia).
  all: try (apply P7; lia); try (apply P10; [lia|done]); try (apply P11; [lia|done]); try (apply P16; lia); try (apply P17; lia).
  all: try (match goal with H : rc_freed _ = true |- _ => apply P13 in H; lia end); try (by eapply Hj).
  all: match goal with H : _ \/ _ |- _ => destruct H; subst q; cbn in *; lia end.
Qed.

(** The loop of the joins. *)
Lemma joins_parented s s' : parented s -> phase (p_pc s) = 9%nat -> join_step s = Some s' -> parented s'.
Proof.
  intros Hp Hph Hs. unfold join_step, exited_ptr in Hs.
  assert (Hptr : forall i w, at_slot s i w -> created w = true -> default None (rc_exited s !! i) = Some i).
  { intros i w Hw Hc. by rewrite (par_ptr s Hp i w Hw Hc). }
  pose proof (par_joined s Hp) as Hjd.
  destruct (p_pc s) eqn:E; try discriminate Hph; rewrite ?E in *; cbn [joined] in Hjd.
  - destruct (rc_workers s !! i) as [w|] eqn:Hw.
    + injection Hs as <-. destruct (created w) eqn:Hc; [rewrite (Hptr i w Hw Hc)|]; apply join_moved; rewrite ?E; auto; try done; cbn.
      * intros j [= <-]. eauto.
      * intros j v Hj Hv Hcv. destruct (decide (j = i)) as [->|]; [congruence|]. apply (Hjd j v); [lia|done..].
    + injection Hs as <-. apply join_moved; rewrite ?E; auto; try done.
      intros j v _ Hv. apply (Hjd j v); [|done]. apply lookup_lt_Some in Hv. apply lookup_ge_None in Hw. lia.
  - by destruct (par_nowait s Hp i).
  - destruct (par_join s Hp i E) as (w & Hw & Hc). rewrite (Hptr i w Hw Hc), Hw in Hs.
    destruct (exited w) eqn:Hx; [|discriminate Hs]. injection Hs as <-. apply join_moved; rewrite ?E; auto; try done.
    cbn. intros j v Hj Hv Hcv. destruct (decide (j = i)) as [->|]; [congruence|]. apply (Hjd j v); [lia|done..].
Qed.

Lemma join_step_parented s s' : race_inv s -> join_step s = Some s' -> parented s'.
Proof.
  intros [Ha Hb Hp] Hs. destruct (decide (phase (p_pc s) = 9%nat)) as [Hph|Hph]; [by eapply joins_parented|].
  unfold join_step in Hs. destruct (p_pc s) eqn:E; try discriminate Hs; cbn in Hph; try done; simplify_eq.
  all: destruct Hp as [P1 P2 P3 P4 P5 P6 P7 P8 P9 P10 P11 P12 P13 P14 P15 P16 P17]; rewrite E in *; cbn [phase joined] in *.
  3: rewrite P6, Nat.eqb_refl.
  4: destruct (p_winner s) as [k|] eqn:Ek.
  all: constructor; unfold winner_snapshot in *; cbn; rewrite ?Ek; intros; try discriminate; try lia; try done; auto; try (intuition discriminate); try (by eapply P2);
    try (apply P16; lia); try (apply P17; lia); try (match goal with H : rc_freed _ = true |- _ => apply P13 in H; lia end);
    try (apply P10; [lia|done]); try (apply P11; [lia|done]); try (by eapply P12).
  all: try (rewrite P14 by lia; by rewrite ?Ek).
  all: by match goal with H : PReturned _ = PReturned _ |- _ => injection H as <-; auto end.
Qed.

(** ** Every execution *)

Lemma ticked d s : race_inv s -> race_inv (s <| rc_now := rc_now s + Z.of_nat d |>).
Proof.
  intros [Ha Hb Hp]. split; [by apply (accounted_same s)|apply (arbitrated_same s); auto|].
  destruct Hp as [P1 P2 P3 P4 P5 P6 P7 P8 P9 P10 P11 P12 P13 P14 P15 P16 P17]. constructor; try done.
  intros H1 H2. cbn. specialize (P11 H1 H2). lia.
Qed.

Lemma rstep_inv a s s' : race_inv s -> rstep a s = Some s' -> race_inv s'.
Proof.
  intros Hi Hs. pose proof Hi as [Ha Hb Hp]. destruct a as [d|i o|ok]; cbn in Hs.
  - injection Hs as <-. by apply ticked.
  - destruct (work_enabled i o s s' Hs) as (w & Hw & H1 & H2).
    assert (Hwk : worked i w s s') by (apply (work_worked i o); [by eapply unfreed_worker|done..]).
    split; [by eapply accounted_worked|by eapply arbitrated_worked|by eapply parented_worked].
  - destruct (parent_shared ok s s' Hi Hs) as [Ha' Hb']. split; [done..|].
    unfold parent_step in Hs. destruct (rc_now s <? p_wake s); [discriminate Hs|].
    destruct (wait_step ok s) eqn:E; simplify_eq; [by eapply wait_step_parented|by apply (join_step_parented s)].
Qed.

Lemma schedule_app l l' s : schedule (l ++ l') s = s' ← schedule l s; schedule l' s'.
Proof. revert s. induction l as [|a l IH]; intros s; cbn; [done|]. destruct (rstep a s); cbn; [apply IH|done]. Qed.

Lemma schedule_ind (P : race -> Prop) : (forall a s s', P s -> rstep a s = Some s' -> P s') ->
  forall l s s', P s -> schedule l s = Some s' -> P s'.
Proof.
  intros Hstep l. induction l as [|a l IH]; intros s s' Hs E; cbn in E; [congruence|].
  destruct (rstep a s) as [s1|] eqn:E1; [|discriminate E]. eauto.
Qed.

(** Every slot the race sets up is idle. *)
Lemma race_begin_inv udp_port timeout_ms now : race_inv (softether_connect_parallel_race udp_port true timeout_ms now).
Proof.
  assert (Hidle : forall i w, at_slot (softether_connect_parallel_race udp_port true timeout_ms now) i w ->
    exists t, w = slot udp_port t).
  { intros i w. unfold softether_connect_parallel_race, race_begin. cbn [rc_workers]. rewrite list_lookup_fmap.
    destruct (race_transports udp_port !! i) as [t|]; cbn; [|discriminate 1]. intros [= <-]. by exists t. }
  split; constructor; try done; try (cbn; intros; lia).
  - intros k i. split; [set_solver|]. intros (w & Hw & Hk). destruct (Hidle i w Hw) as [t ->]. cbn in Hk. set_solver.
  - intros i w Hw. destruct (Hidle i w Hw) as [t ->]. by constructor.
  - intros i w Hw H. destruct (Hidle i w Hw) as [t ->]. discriminate H.
  - intros i j v w Hv _ H. destruct (Hidle i v Hv) as [t ->]. discriminate H.
  - intros i w Hw H. destruct (Hidle i w Hw) as [t ->]. discriminate H.
  - intros i w Hw H. destruct (Hidle i w Hw) as [t ->]. discriminate H.
  - split; [discriminate 1|]. intros (i & w & Hw & H). destruct (Hidle i w Hw) as [t ->]. discriminate H.
  - intros i j w _ _ Hw. by destruct (Hidle j w Hw) as [t ->].
  - intros i w Hw H. destruct (Hidle i w Hw) as [t ->]. discriminate H.
  - unfold softether_connect_parallel_race, race_begin, race_transports. cbn [rc_workers rc_exited]. rewrite length_fmap.
    destruct (udp_port >? 0); cbn; lia.
  - cbn. intros [H|H]; discriminate H.
Qed.

Lemma race_always udp_port timeout_ms now l s :
  schedule l (softether_connect_parallel_race udp_port true timeout_ms now) = Some s -> race_inv s.
Proof. apply schedule_ind; [intros a; apply rstep_inv|apply race_begin_inv]. Qed.
