(* ===== verification/RaceSpec.v ===== *)
(** * What the transport race guarantees

    Over every interleaving of the threads with the parent: nobody touches what
    is gone and one transport at most is published; the parent adopts the
    published one with all its objects, or returns -1 and then only after the
    whole budget; the threads make a bounded number of steps. The joins, though,
    have no bound: the code tests a pointer where it means the flag. *)
From stdpp Require Import gmap.
From S2P Require Import Prelude.
From S2P Require Import Race.
From S2P Require Import RaceInv.

(** ** A measure of the steps left *)

Definition remaining (w : worker) : nat :=
  match w_pc w with
  | WIdle => 19 | WStart => 18 | WBudget => 17 | WDelay _ => 16 | WCancelStart => 15 | WOpen => 14 | WRendezvous => 13
  | WCancelUdp => 12 | WCreate => 11 | WConnect => 10 | WCancelConn => 9 | WTls => 8 | WHandshake => 7 | WClaim => 6
  | WIndex => 5 | WPayload => 4 | WPublish => 3 | WOk => 2 | WReturn => 1 | WExited => 0
  end%nat.

(** The looks of the parent that the deadline leaves. *)
Definition polls (deadline now wake : Z) : nat := Z.to_nat ((deadline - Z.max now wake + 9) / 10).

Definition to_join (n : nat) (p : ppc) : nat :=
  match p with
  | PReturned _ => 0 | PPromote => 1 | PFree => 2 | PSnapshot => 3
  | PDetach i => 3 + 2 * (n - i) | PJoin i => 4 + 2 * (n - i) | PWait _ => 0
  | PJoinStart => 5 + 2 * n | PCancel => 6 + 2 * n | PIndex2 => 7 + 2 * n | PRecheck => 8 + 2 * n | PRevoke => 9 + 2 * n
  | PIndex => 10 + 2 * n | _ => 11 + 2 * n
  end%nat.

Definition to_return (s : race) : nat :=
  let looks := polls (rc_deadline s) (rc_now s) (p_wake s) in
  (to_join (length (rc_workers s)) (p_pc s) +
   match p_pc s with
   | PPoll => 2 * looks + 1
   | PLook => 2 * Nat.max looks 1
   | PSpawn i => 2 * looks + 2 + (length (rc_workers s) - i)
   | _ => 0
   end)%nat.

#[local] Arguments Nat.add : simpl never.
#[local] Arguments Nat.mul : simpl never.

Definition measure (s : race) : nat := (sum_list_with remaining (rc_workers s) + to_return s)%nat.

Lemma sum_insert (l : list worker) i w w' : l !! i = Some w ->
  (sum_list_with remaining (<[i := w']> l) + remaining w = sum_list_with remaining l + remaining w')%nat.
Proof.
  revert i. induction l as [|v l IH]; intros [|i] H; cbn in *; simplify_eq; [lia|].
  specialize (IH i H). unfold insert in *. lia.
Qed.

(** What a worker's step leaves to the parent. *)
Definition same_parent (s s' : race) : Prop :=
  p_pc s' = p_pc s /\ p_wake s' = p_wake s /\ rc_now s' = rc_now s /\ rc_deadline s' = rc_deadline s /\
  rc_exited s' = rc_exited s.

Lemma release_all_frame ks i s : exists live f, release_all ks i s = s <| rc_live := live |> <| rc_fault := f |>.
Proof.
  revert s. induction ks as [|k ks IH]; intros s; [exists (rc_live s), (rc_fault s); by destruct s|].
  change (release_all (k :: ks) i s) with (release_all ks i (release k i s)).
  destruct (IH (release k i s)) as (live & f & E). rewrite E. unfold release.
  case_decide; eexists _, _; by destruct s.
Qed.

(** The worker moves on. *)
Definition moves_on (i : nat) (w : worker) (s s' : race) : Prop :=
  exists w', rc_workers s' = <[i := w']> (rc_workers s) /\ (remaining w' < remaining w)%nat /\ same_parent s s'.

Lemma moves_leave i err ks w w0 s : (1 < remaining w)%nat -> moves_on i w s (leave i err ks w0 s).
Proof.
  intros Hr. unfold leave. destruct (release_all_frame ks i s) as (live & f & E). rewrite E.
  eexists. split; [done|]. split; [by destruct (err =? 0)|by split_and!].
Qed.

Lemma moves_put i w w' s s0 : (remaining w' < remaining w)%nat -> rc_workers s0 = rc_workers s -> same_parent s s0 ->
  moves_on i w s (put_w i w' s0).
Proof. intros Hr E Hs. exists w'. split; [by rewrite <- E|done]. Qed.

Lemma moves_release ks i w w' s : (remaining w' < remaining w)%nat -> moves_on i w s (put_w i w' (release_all ks i s)).
Proof. intros Hr. destruct (release_all_frame ks i s) as (live & f & E). rewrite E. by apply moves_put. Qed.

Ltac moves_case Ep :=
  rewrite ?leave_release;
  first [apply moves_leave|apply moves_release|apply moves_put; [|done|by split_and!]];
  unfold remaining; rewrite Ep; cbn; repeat case_match; lia.

Lemma work_moves i o s s' : work_step i o s = Some s' -> exists w, at_slot s i w /\ moves_on i w s s'.
Proof.
  unfold work_step. assert (E : rc_workers (touch s) = rc_workers s /\ same_parent s (touch s)).
  { unfold touch. destruct (rc_freed s); by split_and!. }
  revert E. generalize (touch s). intros t [E Hp]. rewrite E. destruct (rc_workers s !! i) as [w|] eqn:Hw; [|discriminate 1].
  intros Hs. exists w. split; [done|]. enough (H : moves_on i w t s').
  { destruct H as (w' & H1 & H2 & H3). exists w'. rewrite <- E. split_and!; try done. destruct Hp as (?&?&?&?&?), H3 as (?&?&?&?&?). split_and!; congruence. }
  destruct (open_step i o w t) eqn:E1; simplify_eq.
  { unfold open_step, leave_udp in E1. destruct (w_pc w) eqn:Ep; try discriminate E1; repeat case_match; simplify_eq; moves_case Ep. }
  clear E1. destruct (connect_step i o w t) eqn:E1; simplify_eq.
  { unfold connect_step in E1. destruct (w_pc w) eqn:Ep; try discriminate E1; repeat case_match; simplify_eq; moves_case Ep. }
  clear E1. unfold claim_step in Hs. destruct (w_pc w) eqn:Ep; try discriminate Hs; repeat case_match; simplify_eq; moves_case Ep.
Qed.

(** Every step of a thread lowers the measure, time does not raise it. *)
Definition busy (a : act) : bool := match a with Tick _ => false | _ => true end.

Lemma polls_mono deadline now wake now' wake' : Z.max now wake <= Z.max now' wake' ->
  (polls deadline now' wake' <= polls deadline now wake)%nat.
Proof.
  intros H. unfold polls. pose proof (Z.div_le_mono (deadline - Z.max now' wake' + 9) (deadline - Z.max now wake + 9) 10). lia.
Qed.

Lemma measure_tick d s s' : rstep (Tick d) s = Some s' -> (measure s' <= measure s)%nat.
Proof.
  intros [= <-]. pose proof (polls_mono (rc_deadline s) (rc_now s) (p_wake s) (rc_now s + Z.of_nat d) (p_wake s) ltac:(lia)).
  unfold measure, to_return. cbn. destruct (p_pc s); lia.
Qed.

(** A nap uses a look up. *)
Lemma polls_doze deadline now wake : wake <= now -> (polls deadline now (now + RACE_POLL_MS) <= polls deadline now wake - 1)%nat.
Proof.
  intros H. unfold polls, RACE_POLL_MS. replace (Z.max now (now + 10)) with (now + 10) by lia.
  replace (deadline - (now + 10) + 9) with (deadline - Z.max now wake + 9 + (-1) * 10) by lia. rewrite Z.div_add by lia. lia.
Qed.

Lemma polls_some deadline now wake : wake <= now -> now < deadline -> (1 <= polls deadline now wake)%nat.
Proof.
  intros H1 H2. unfold polls. pose proof (Z.div_le_mono 10 (deadline - Z.max now wake + 9) 10) as H. change (10 / 10) with 1 in H. lia.
Qed.

Lemma measure_work i o s s' : work_step i o s = Some s' -> (measure s' < measure s)%nat.
Proof.
  intros (w & Hw & w' & E & Hr & E1 & E2 & E3 & E4 & _)%work_moves. unfold measure, to_return.
  rewrite E, E1, E2, E3, E4, length_insert. pose proof (sum_insert _ i w w' Hw). lia.
Qed.

Lemma measure_parent ok s s' : race_inv s -> parent_step ok s = Some s' -> (measure s' < measure s)%nat.
Proof.
  intros Hi Hs. unfold parent_step in Hs. destruct (Z.ltb_spec (rc_now s) (p_wake s)) as [|Hwake]; [discriminate Hs|].
  unfold wait_step, join_step in Hs. destruct (p_pc s) eqn:E; repeat case_match; simplify_eq.
  all: unfold measure, to_return; rewrite E; cbn [at_p doze put_w p_pc rc_workers rc_deadline rc_now p_wake upd eta_race to_join].
  all: try (match goal with H : _ !! _ = Some _ |- _ => pose proof (lookup_lt_Some _ _ _ H) end).
  all: try (match goal with H : _ !! _ = None |- _ => apply lookup_ge_None in H end).
  all: try lia.
  - pose proof (sum_insert _ i w (goto WStart w) H0) as Hsum.
    assert (Hr : remaining w = 19%nat) by (unfold remaining; by rewrite (par_spawn s (inv_par s Hi) i i w E (Nat.le_refl i) H0)).
    rewrite length_insert. change (remaining (goto WStart w)) with 18%nat in Hsum. lia.
  - pose proof (polls_some (rc_deadline s) (rc_now s) (p_wake s) Hwake ltac:(lia)). lia.
  - pose proof (polls_doze (rc_deadline s) (rc_now s) (p_wake s) Hwake). lia.
  - by destruct (par_nowait s (inv_par s Hi) i).
  - by destruct (par_nowait s (inv_par s Hi) i).
  - destruct (par_join s (inv_par s Hi) i E) as (v & Hv%lookup_lt_Some & _). lia.
  - destruct (par_join s (inv_par s Hi) i E) as (v & Hv%lookup_lt_Some & _). lia.
Qed.

Lemma measure_schedule l : forall s s', race_inv s -> schedule l s = Some s' ->
  (length (filter (fun a => busy a = true) l) + measure s' <= measure s)%nat.
Proof.
  induction l as [|a l IH]; intros s s' Hi E; cbn in E; [injection E as ->; cbn; lia|].
  destruct (rstep a s) as [s1|] eqn:E1; [|discriminate E].
  specialize (IH s1 s' (rstep_inv a s s1 Hi E1) E). rewrite filter_cons. destruct a as [d|i o|ok].
  - rewrite decide_False by done. pose proof (measure_tick d s s1 E1). lia.
  - rewrite decide_True by done. pose proof (measure_work i o s s1 E1). cbn [length]. lia.
  - rewrite decide_True by done. pose proof (measure_parent ok s s1 Hi E1). cbn [length]. lia.
Qed.

Lemma measure_begin udp_port timeout_ms now : (measure (softether_connect_parallel_race udp_port true timeout_ms now) <=
  101 + 2 * Z.to_nat ((timeout_ms + 9) / 10))%nat.
Proof.
  unfold measure, to_return. cbn [softether_connect_parallel_race race_begin p_pc rc_deadline rc_now p_wake rc_workers to_join].
  rewrite length_fmap. unfold polls. replace (now + timeout_ms - Z.max now now + 9) with (timeout_ms + 9) by lia.
  unfold race_transports. destruct (udp_port >? 0); cbn; lia.
Qed.

(** ** Progress *)

(** A thread that exists and is not gone has a step, after its sleep. *)
Lemma worker_progress i w s : at_slot s i w -> w_pc w <> WIdle -> w_pc w <> WExited ->
  exists d, is_Some (schedule [Tick d; Work i Succeeds] s).
Proof.
  intros Hw H1 H2. exists (match w_pc w with WDelay wake => Z.to_nat (wake - rc_now s) | _ => 0%nat end).
  set (d := match w_pc w with WDelay wake => _ | _ => _ end). cbn [schedule rstep].
  set (t := s <| rc_now := rc_now s + Z.of_nat d |>). unfold work_step.
  assert (Hw' : rc_workers (touch t) !! i = Some w) by (unfold touch; by destruct (rc_freed t)). rewrite Hw'.
  assert (En : rc_now (touch t) = rc_now s + Z.of_nat d) by (unfold touch; by destruct (rc_freed t)).
  destruct (open_step i Succeeds w (touch t)) eqn:E1; [done|]. destruct (connect_step i Succeeds w (touch t)) eqn:E2; [done|].
  unfold open_step in E1. unfold connect_step in E2. unfold claim_step. subst d.
  destruct (w_pc w) as [| | |wake| | | | | | | | | | | | | | | |]; try done. exfalso. rewrite En in E1. destruct (Z.leb_spec wake (rc_now s + Z.of_nat (Z.to_nat (wake - rc_now s)))); [discriminate E1|lia].
Qed.

Lemma parent_progress s : race_inv s -> (exists r, p_pc s = PReturned r) \/
  (exists d, is_Some (schedule [Tick d; Parent true] s)) \/ exists i w, at_slot s i w /\ created w = true /\ exited w = false.
Proof.
  intros Hi. set (d := Z.to_nat (p_wake s - rc_now s)).
  assert (Hd : (rc_now s + Z.of_nat d <? p_wake s) = false) by (apply Z.ltb_ge; lia).
  assert (Hstep : (exists i w, p_pc s = PDetach i /\ at_slot s i w /\ exited w = false) \/ (exists r, p_pc s = PReturned r) \/
    is_Some (parent_step true (s <| rc_now := rc_now s + Z.of_nat d |>))).
  { unfold parent_step. cbn [rc_now p_wake upd eta_race]. rewrite Hd. unfold wait_step, join_step.
    change (p_pc (s <| rc_now := rc_now s + Z.of_nat d |>)) with (p_pc s). cbn [rc_workers upd eta_race].
    destruct (p_pc s) eqn:E; eauto; repeat case_match; eauto 8. }
  destruct Hstep as [(i & w & E & Hw & Hx)|[Hr|Hstep]]; [|by left|].
  - right; right. destruct (par_join s (inv_par s Hi) i E) as (v & Hv & Hc). rewrite Hw in Hv. injection Hv as <-. eauto.
  - right; left. exists d. cbn [schedule rstep]. destruct Hstep as [t ->]. done.
Qed.

Lemma won_holder w : won w = true -> holder w = true.
Proof. unfold won, holder. by destruct (w_pc w). Qed.

(** ** The claims *)

Lemma deadline_fixed udp_port timeout_ms now l s :
  schedule l (softether_connect_parallel_race udp_port true timeout_ms now) = Some s -> rc_deadline s = now + timeout_ms.
Proof.
  apply (schedule_ind (fun s => rc_deadline s = now + timeout_ms)); [|done].
  intros a t t' E Hs. rewrite <- E. destruct a as [d|i o|ok]; cbn in Hs.
  - by injection Hs as <-.
  - destruct (work_moves i o t t' Hs) as (w & _ & w' & _ & _ & (_ & _ & _ & Hd & _)). done.
  - unfold parent_step, wait_step, join_step in Hs. destruct (rc_now t <? p_wake t); [discriminate Hs|].
    destruct (p_pc t); repeat case_match; by simplify_eq.
Qed.

(** NAT-T wins, the others are cancelled before they start. *)
Definition ex_start : race := softether_connect_parallel_race 0 true 1000 0.
Definition ex_win : list act :=
  replicate 4 (Parent true) ++ replicate 2 (Work 0 Succeeds) ++ [Tick 30] ++ replicate 16 (Work 0 Succeeds) ++
  replicate 6 (Parent true) ++ replicate 2 (Work 1 Succeeds) ++ replicate 2 (Work 2 Succeeds) ++ [Tick 200] ++
  replicate 3 (Work 1 Succeeds) ++ replicate 3 (Work 2 Succeeds) ++ replicate 11 (Parent true).
Lemma ex_win_runs : exists s, schedule ex_win ex_start = Some s /\ p_pc s = PReturned 0 /\ rc_freed s = true /\
  p_adopted s = Some (0%nat, Result (Some KTransport) (Some KTls) (Some KTransport) 0 true).
Proof. destruct (schedule ex_win ex_start) as [s|] eqn:E; vm_compute in E; [|discriminate E]. injection E as <-. by eexists. Defined.

(** C26: in every interleaving no object is released twice and no freed block
    is touched; at most one transport wins; once a winner is published its
    index is a slot and its result is complete; the shared blocks are freed
    only when every thread is gone. *)
Theorem race_safe udp_port timeout_ms now l s :
  schedule l (softether_connect_parallel_race udp_port true timeout_ms now) = Some s ->
  rc_fault s = false /\
  (forall i j v w, at_slot s i v -> at_slot s j w -> won v = true -> won w = true -> i = j) /\
  (rc_published s = 1 -> exists i w, winner_of s = Some i /\ at_slot s i w /\ hands_over w) /\
  (rc_freed s = true -> forall i w, at_slot s i w -> created w = true -> exited w = true).
Proof.
  intros Hs. pose proof (race_always _ _ _ _ _ Hs) as [Ha Hb Hp]. split_and!.
  - apply (acc_fault s Ha).
  - intros i j v w Hv Hw E1 E2. apply (arb_unique s Hb i j v w Hv Hw); by apply won_holder.
  - intros E. destruct (winner_found s Hb E) as (i & w & E1 & Hw & Hwon). exists i, w. split_and!; [done..|].
    apply (arb_payload s Hb i w Hw). revert Hwon. unfold won, complete. by destruct (w_pc w).
  - intros E i w. apply (after_joins s Hp). pose proof (par_freed s Hp E). lia.
Qed.

Lemma race_safe_witness : exists s, schedule ex_win ex_start = Some s /\ rc_fault s = false /\ rc_freed s = true.
Proof.
  destruct ex_win_runs as (s & E & _ & F & _). exists s. split; [exact E|].
  split; [apply (race_safe 0 1000 0 ex_win s E)|exact F].
Defined.

(** What is live once every thread is gone: the objects of a winner, and the
    socket of a rendezvous that a failed connect forgot. *)
Lemma live_at_end s i w k : accounted s -> at_slot s i w -> (created w = true -> exited w = true) ->
  (k, i) ∈ rc_live s <-> (won w = true /\ k ∈ cleanup w) \/ (k = KUdp /\ w_udp w = true).
Proof.
  intros Ha Hw Hx. rewrite (acc_live s Ha).
  assert (Hpc : w_pc w = WIdle \/ w_pc w = WExited).
  { destruct (decide (w_pc w = WIdle)) as [|Hi]; [by left|right]. unfold created, exited in Hx.
    rewrite bool_decide_eq_false_2 in Hx by done. specialize (Hx eq_refl). by apply bool_decide_eq_true in Hx. }
  transitivity (k ∈ own w); [split; [intros (v & Hv & Hk); congruence|by exists w]|].
  pose proof (acc_ok s Ha i w Hw) as [_ Hu Ho]. unfold own, held, won, udp_of. destruct Hpc as [E|E]; rewrite E in *.
  - destruct (r_ok (w_result w)); [destruct Ho; [done|discriminate..]|]. destruct (w_udp w); [by specialize (Hu eq_refl)|]. set_solver.
  - destruct (r_ok (w_result w)), (w_udp w); set_solver.
Qed.

(** C5: when the race returns every thread is gone. It returns 0 with the
    result of the one winner, whose objects are live and all its own; or -1,
    only after the whole budget has passed, with nothing published. Nothing
    else is live but the sockets of a rendezvous that a failed connect leaves. *)
Theorem race_result udp_port timeout_ms now l s r :
  schedule l (softether_connect_parallel_race udp_port true timeout_ms now) = Some s -> p_pc s = PReturned r ->
  (forall i w, at_slot s i w -> created w = true -> exited w = true) /\
  (forall i w k, at_slot s i w ->
     (k, i) ∈ rc_live s <-> (p_adopted s = Some (i, w_result w) /\ k ∈ cleanup w) \/ (k = KUdp /\ w_udp w = true)) /\
  match p_adopted s with
  | Some (i, res) => r = 0 /\ exists w, at_slot s i w /\ res = w_result w /\ hands_over w
  | None => r = -1 /\ now + timeout_ms <= rc_now s /\ rc_published s = -1
  end.
Proof.
  intros Hs Hr. pose proof (race_always _ _ _ _ _ Hs) as [Ha Hb Hp].
  assert (Hx : forall i w, at_slot s i w -> created w = true -> exited w = true).
  { apply (after_joins s Hp). rewrite Hr. cbn. lia. }
  assert (Hph : (phase (p_pc s) = 13)%nat) by (by rewrite Hr).
  pose proof (par_adopted s Hp r Hr) as Had. pose proof (par_snapshot s Hp ltac:(lia)) as Hsn.
  split; [done|]. destruct (p_winner s) as [i|] eqn:Ew.
  - destruct Had as [-> Had]. destruct (par_winner s Hp i Ew) as (_ & w & Hw & Hwon).
    assert (Ead : p_adopted s = Some (i, w_result w)) by (rewrite Had, Hsn; unfold winner_snapshot; by rewrite Ew; cbn; rewrite Hw).
    rewrite Ead. split.
    + intros j v k Hv. rewrite (live_at_end s j v k Ha Hv (Hx j v Hv)). apply or_iff_compat_r, and_iff_compat_r. split.
      * intros Hv'. assert (i = j) as -> by (apply (arb_unique s Hb i j w v); auto using won_holder). congruence.
      * intros [= -> _]. congruence.
    + split; [done|]. exists w. split_and!; [done..|]. apply (arb_payload s Hb i w Hw). revert Hwon. unfold won, complete. by destruct (w_pc w).
  - destruct Had as [-> Had]. rewrite Had. pose proof (par_loser s Hp ltac:(lia) Ew) as Hl. split.
    + intros j v k Hv. rewrite (live_at_end s j v k Ha Hv (Hx j v Hv)). apply or_iff_compat_r, and_iff_compat_r. split; [|discriminate 1].
      intros Hwon. assert (E1 : rc_published s = 1) by (apply (arb_published s Hb); eauto). congruence.
    + split_and!; [done| |done]. rewrite <- (deadline_fixed _ _ _ _ _ Hs). apply (par_late s Hp); [lia|done].
Qed.

Lemma race_result_witness : exists s, schedule ex_win ex_start = Some s /\ p_pc s = PReturned 0 /\
  exists w, at_slot s 0%nat w /\ hands_over w.
Proof.
  destruct ex_win_runs as (s & E & R & _ & A). exists s. split; [exact E|]. split; [exact R|].
  destruct (race_result 0 1000 0 ex_win s 0 E R) as (_ & _ & H). rewrite A in H. destruct H as (_ & w & Hw & _ & Hh).
  exists w. exact (conj Hw Hh).
Defined.

(** C32: the threads make a bounded number of steps, some hundred and two for
    every ten milliseconds of the budget; and until the parent has returned
    some thread can make one, perhaps after a sleep. *)
Theorem race_terminates udp_port timeout_ms now l s :
  schedule l (softether_connect_parallel_race udp_port true timeout_ms now) = Some s ->
  (length (filter (fun a => busy a = true) l) <= 101 + 2 * Z.to_nat ((timeout_ms + 9) / 10))%nat /\
  ((exists r, p_pc s = PReturned r) \/ exists d a, busy a = true /\ is_Some (schedule [Tick d; a] s)).
Proof.
  intros Hs. pose proof (race_always _ _ _ _ _ Hs) as Hi. split.
  - pose proof (measure_schedule l _ s (race_begin_inv udp_port timeout_ms now) Hs).
    pose proof (measure_begin udp_port timeout_ms now). lia.
  - destruct (parent_progress s Hi) as [Hr|[[d Hd]|(i & w & Hw & Hc & Hx)]]; [by left|right; by exists d, (Parent true)|right].
    destruct (worker_progress i w s Hw) as [d Hd]; [| |by exists d, (Work i Succeeds)].
    + intros E. unfold created in Hc. by rewrite bool_decide_eq_true_2 in Hc.
    + intros E. unfold exited in Hx. by rewrite bool_decide_eq_true_2 in Hx.
Qed.

Lemma race_terminates_witness : exists s, schedule ex_win ex_start = Some s /\
  (length (filter (fun a => busy a = true) ex_win) <= 301)%nat.
Proof.
  destruct ex_win_runs as (s & E & _). exists s. split; [exact E|]. destruct (race_terminates 0 1000 0 ex_win s E) as [H _].
  apply (Nat.le_trans _ _ _ H), Nat.leb_le. by vm_compute.
Defined.

(** ** The joins without a bound *)

(** The NAT-T thread is in its handshake when the budget ends. *)
Definition stuck : list act :=
  replicate 4 (Parent true) ++ replicate 2 (Work 0 Succeeds) ++ [Tick 30] ++ replicate 9 (Work 0 Succeeds) ++
  [Tick 1000] ++ replicate 6 (Parent true).

Lemma blocked i w a s s' : p_pc s = PDetach i -> at_slot s i w -> exited w = false -> rc_exited s !! i = Some (Some i) ->
  (forall o, a <> Work i o) -> rstep a s = Some s' ->
  p_pc s' = PDetach i /\ at_slot s' i w /\ rc_exited s' !! i = Some (Some i).
Proof.
  intros E Hw Hx He Ha Hs. destruct a as [d|j o|ok]; cbn in Hs.
  - by injection Hs as <-.
  - destruct (work_moves j o s s' Hs) as (v & _ & w' & E1 & _ & (E2 & _ & _ & _ & E3)).
    rewrite E1, E2, E3. split_and!; [done| |done]. rewrite list_lookup_insert_ne; [done|]. intros ->. by apply (Ha o).
  - unfold parent_step, wait_step, join_step, exited_ptr in Hs. rewrite E, He, Hw in Hs. cbn in Hs. rewrite Hx in Hs.
    by destruct (rc_now s <? p_wake s).
Qed.

(** C35: the wait for the threads has no bound. The condition of its loop tests
    the address of the exit flag, which is never NULL, so the parent goes
    straight to [pthread_join]: with a thread still in its handshake at the
    deadline it stays there whatever the other threads do and however much
    time passes. *)
Theorem race_join_unbounded : exists s w,
  schedule stuck (softether_connect_parallel_race 0 true 1000 0) = Some s /\ at_slot s 0%nat w /\ w_pc w = WHandshake /\
  forall l s', (forall o, Work 0 o ∉ l) -> schedule l s = Some s' -> p_pc s' = PDetach 0.
Proof.
  destruct (schedule stuck (softether_connect_parallel_race 0 true 1000 0)) as [s|] eqn:Es; [|by vm_compute in Es].
  assert (Hs : p_pc s = PDetach 0 /\ (exists w, at_slot s 0%nat w /\ w_pc w = WHandshake) /\ rc_exited s !! 0%nat = Some (Some 0%nat)).
  { vm_compute in Es. injection Es as <-. split_and!; [done|by eexists|done]. }
  destruct Hs as (E & (w & Hw & Hpc) & He). exists s, w. split_and!; [done..|]. clear Es.
  assert (Hx : exited w = false) by (unfold exited; rewrite bool_decide_eq_false; congruence). clear Hpc.
  intros l. revert s E Hw He. induction l as [|a l IH]; intros s E Hw He s' Hl Hs; cbn in Hs; [congruence|].
  destruct (rstep a s) as [s1|] eqn:E1; [|discriminate Hs].
  destruct (blocked 0 w a s s1 E Hw Hx He) as (F1 & F2 & F3); [intros o ->; by apply (Hl o); left|done|].
  apply (IH s1 F1 F2 F3 s'); [intros o Ho; apply (Hl o); by right|done].
Qed.
