(* ===== verification/LoginFrame.v ===== *)
(** * What the login leaves alone

    A computation is [framed] by a preorder when every outcome is related to
    its start; loops are framed by induction, whatever they meet. The login is
    framed by [aside]: the links, and what was closed or destroyed, stay, the
    channels are read on, and the state may become [STATE_AUTHENTICATING]. *)
From stdpp Require Import functions strings.
From S2P Require Import Prelude Bytes Ring Pack Crypto Conn ConnInv WorldInv Http LoginPack Login.

(** ** Computations framed by a preorder *)

Section framed.
Context {W : Type} (R : W -> W -> Prop) `{!PreOrder R}.

Definition framed {A} (m : St W A) : Prop := forall w a w', m w = Ok (a, w') -> R w w'.

Lemma framed_ret {A} (a : A) : framed (mret a).
Proof. intros w a' w' [= _ <-]. reflexivity. Qed.
Lemma framed_bind {A B} (m : St W A) (f : A -> St W B) : framed m -> (forall a, framed (f a)) -> framed (m ≫= f).
Proof.
  intros Hm Hf w b w' E. unfold mbind, St_bind in E. destruct (m w) as [| |[a w1]] eqn:E1; try discriminate E.
  transitivity w1; [by eapply Hm|by eapply Hf].
Qed.
Lemma framed_lift {A} (r : res A) : framed (lift r).
Proof. intros w a w' E. unfold lift in E. destruct r; try discriminate E. injection E as _ <-. reflexivity. Qed.
Lemma framed_if {A} (b : bool) (m1 m2 : St W A) : framed m1 -> framed m2 -> framed (if b then m1 else m2).
Proof. by destruct b. Qed.
Lemma framed_gets {A} (f : W -> A) : framed (gets f).
Proof. intros w a w' [= _ <-]. reflexivity. Qed.
Lemma framed_modify f : (forall w, R w (f w)) -> framed (modify f).
Proof. intros Hf w a w' [= _ <-]. apply Hf. Qed.
Lemma framed_err {A} : framed (fun _ => @Err (A * W)).
Proof. intros w a w' E. discriminate E. Qed.
(** One outcome, where the value read before matters. *)
Definition wlp {A} (m : St W A) (Q : A -> W -> Prop) (w : W) : Prop := forall a w', m w = Ok (a, w') -> Q a w'.
Lemma wlp_bind {A B} (m : St W A) (f : A -> St W B) Q w : wlp m (fun a w' => wlp (f a) Q w') w -> wlp (m ≫= f) Q w.
Proof.
  intros Hm b w' E. unfold mbind, St_bind in E. destruct (m w) as [| |[a w1]] eqn:E1; try discriminate E. by eapply (Hm a w1).
Qed.
Lemma wlp_lift {A} (r : res A) (Q : A -> W -> Prop) w : (forall a, r = Ok a -> Q a w) -> wlp (lift r) Q w.
Proof. intros HQ a w' E. unfold lift in E. destruct r; try discriminate E. injection E as <- <-. by apply HQ. Qed.
Lemma wlp_run {A} (m : St W A) (Q : A -> W -> Prop) w a w' : m w = Ok (a, w') -> Q a w' -> wlp m Q w.
Proof. intros E HQ b v Ev. rewrite E in Ev. by injection Ev as <- <-. Qed.
Lemma framed_wlp {A} (m : St W A) w0 w : framed m -> R w0 w -> wlp m (fun _ w' => R w0 w') w.
Proof. intros Hm Hw a w' E. transitivity w; [done|]. by eapply Hm. Qed.
End framed.

Create HintDb framed.
Ltac framed_step :=
  first [ solve [auto with framed nocore] | apply framed_ret; apply _ | apply framed_bind; [apply _| |intros ?] | apply framed_lift; apply _
        | apply framed_if | apply framed_gets; apply _ | apply framed_err
        | progress cbv zeta
        | match goal with |- framed _ (match ?x with _ => _ end) => destruct x end ].
Ltac framed_tac := repeat framed_step.

(** ** The connection *)

(** The event lists a reader can leave behind. *)
Definition read_on (s s' : list rd_event) : Prop := exists n, s' = (rd_next n s).2.

Section frame.
Context {U : Type}.
Implicit Types w : cworld U.

Definition aside w w' : Prop :=
  let c := w_conn w in let c' := w_conn w' in
  c_socket_fd c' = c_socket_fd c /\ c_ssl c' = c_ssl c /\ c_ssl_ctx c' = c_ssl_ctx c /\
  c_additional c' = c_additional c /\ (c_state c' = c_state c \/ c_state c' = STATE_AUTHENTICATING) /\
  w_freed w' = w_freed w /\ w_closed w' = w_closed w /\ (forall ch, rtc read_on (w_in w ch) (w_in w' ch)).
#[global] Instance aside_pre : PreOrder aside.
Proof.
  split; [intros w; split_and!; auto; reflexivity|]. intros w1 w2 w3 (E1&E2&E3&E4&E5&E6&E7&E8) (K1&K2&K3&K4&K5&K6&K7&K8).
  split_and!; try congruence; [destruct K5 as [K5|K5], E5 as [E5|E5]; (left; congruence) || (right; congruence)|]. intros ch. by transitivity (w_in w2 ch).
Qed.

Abbreviation Fr := (framed aside).
Ltac same := split_and!; auto; try reflexivity.

Lemma framed_sys_read ch n : Fr (sys_read ch n).
Proof.
  intros w a w' [= _ <-]. same. intros ch'. cbn.
  destruct (decide (ch' = ch)) as [->|Hn]; [rewrite fn_lookup_insert; apply rtc_once; by exists n|by rewrite fn_lookup_insert_ne].
Qed.
Lemma framed_sys_write ch bs : Fr (sys_write ch bs).
Proof. intros w a w' [= _ <-]. same. Qed.
Lemma framed_deref p : Fr (deref_ssl p).
Proof. intros w a w' E. unfold deref_ssl in E. destruct (decide _); [discriminate E|]. injection E as _ <-. reflexivity. Qed.
Lemma framed_c_rand crand : Fr (c_rand crand).
Proof. intros w a w' [= _ <-]. same. Qed.
Lemma framed_set_rudp f : Fr (modify (fun w => w <| w_rudp := f w |>)).
Proof. apply framed_modify. intros w. same. Qed.
Lemma framed_authenticating : Fr (modify_conn (fun c => c <| c_state := STATE_AUTHENTICATING |>)).
Proof. apply framed_modify. intros w. same. Qed.
Hint Resolve framed_sys_read framed_sys_write framed_deref framed_c_rand framed_set_rudp framed_authenticating : framed.

Lemma framed_ladder k p n : Fr (ssl_read_ladder k p n).
Proof. induction k as [|k IH]; cbn [ssl_read_ladder]; framed_tac. Qed.
Hint Resolve framed_ladder : framed.
Lemma framed_ssl_read p n : Fr (ssl_read p n).
Proof. unfold ssl_read. framed_tac. Qed.
Lemma framed_ssl_write p bs : Fr (ssl_write p bs).
Proof. unfold ssl_write. framed_tac. Qed.
Hint Resolve framed_ssl_read framed_ssl_write : framed.

Lemma framed_read_headers fuel ssl n buf k : Fr (read_headers fuel ssl n buf k).
Proof. revert buf k. induction fuel as [|fuel IH]; intros buf k; cbn [read_headers]; framed_tac. Qed.
Lemma framed_read_body fuel ssl buf off n k : Fr (read_body fuel ssl buf off n k).
Proof. revert buf k. induction fuel as [|fuel IH]; intros buf k; cbn [read_body]; framed_tac. Qed.
Hint Resolve framed_read_headers framed_read_body : framed.
Lemma framed_response stack ssl n : Fr (read_http_response stack ssl n).
Proof. unfold read_http_response. framed_tac. Qed.
Lemma framed_post malloc_ok stack ssl cap text body : Fr (post malloc_ok stack ssl cap text body).
Proof. unfold post. framed_tac. Qed.
Lemma framed_rand_bytes crand n : Fr (rand_bytes crand n).
Proof. induction n as [|n IH]; cbn [rand_bytes]; framed_tac. Qed.
Hint Resolve framed_response framed_post framed_rand_bytes : framed.
Lemma framed_get_conn : Fr get_conn.
Proof. unfold get_conn. framed_tac. Qed.
Lemma framed_rudp : Fr (gets w_rudp).
Proof. framed_tac. Qed.
Hint Resolve framed_get_conn : framed.
Lemma framed_build crand malloc_ok sha1 inet_addr local_port hub user ty secure plain rudp s :
  Fr (build_login_pack crand malloc_ok sha1 inet_addr local_port hub user ty secure plain rudp s).
Proof. unfold build_login_pack. framed_tac. Qed.
End frame.
#[export] Hint Resolve framed_c_rand framed_set_rudp framed_authenticating framed_response framed_post framed_get_conn framed_rudp framed_build : framed.

(** ** The session *)

Definition same_setup (s s' : session) : Prop := s_timeout_ms s' = s_timeout_ms s /\ s_using_nat_t s' = s_using_nat_t s.
#[export] Instance same_setup_pre : PreOrder same_setup.
Proof. split; [by intros s|]. intros s1 s2 s3 [? ?] [? ?]. split; congruence. Qed.

Lemma set_field_setup {A} (r : res A) f s s' : (forall a s, same_setup s (f a s)) -> set_field r f s = Ok s' -> same_setup s s'.
Proof. intros Hf. unfold set_field. destruct r as [| |a]; intros [= <-]; [reflexivity|apply Hf]. Qed.

Ltac field_chain E := repeat match type of E with
  | (set_field ?r ?f ?s ≫= ?k) = Ok ?s' =>
      destruct (set_field r f s) as [| |?s] eqn:?; try discriminate E; rewrite bind_ok in E
  end.
Ltac field_same := repeat match goal with
  | E : set_field _ _ ?s = Ok ?s' |- same_setup _ ?s' =>
      transitivity s; [clear E|eapply set_field_setup; [|exact E]; intros; cbv beta zeta;
        repeat match goal with |- context [if ?b then _ else _] => destruct b end; by split]
  end; try reflexivity.

Lemma welcome_session_setup m s s' : welcome_session m s = Ok s' -> same_setup s s'.
Proof. unfold welcome_session. intros E. field_chain E. field_same. Qed.
Lemma welcome_rudp_setup m s s' : welcome_rudp m s = Ok s' -> same_setup s s'.
Proof.
  unfold welcome_rudp. intros E. destruct (match int_field m _ with Ub => Ub | Err => Ok 1 | Ok v => Ok v end) as [| |v]; try discriminate E.
  rewrite bind_ok in E. destruct (match str_field m _ 64 with Ub => _ | Err => _ | Ok ip => _ end) as [| |s1] eqn:E1; try discriminate E.
  rewrite bind_ok in E. assert (Hs1 : same_setup s s1) by (destruct (str_field m _ 64); try discriminate E1; by injection E1 as <-).
  field_chain E. transitivity s1; [done|]. clear E1 Hs1. unfold rudp_key_field in *. field_chain E. field_same.
Qed.

Section login_frame.
Context {U : Type} `{AccelSetup U}.
Implicit Types w : lworld U.

Definition aside_login w w' : Prop := aside (l_world w) (l_world w') /\ same_setup (l_session w) (l_session w').
#[global] Instance aside_login_pre : PreOrder aside_login.
Proof. split; [intros w; split; reflexivity|]. intros w1 w2 w3 [? ?] [? ?]. split; by etransitivity. Qed.
Abbreviation Fr := (framed aside_login).

Lemma framed_io {A} (m : St (cworld U) A) : framed aside m -> Fr (io m).
Proof.
  intros Hm w a w' E. unfold io in E. destruct (m (l_world w)) as [| |[a' v]] eqn:Em; try discriminate E.
  injection E as _ <-. split; [by eapply Hm|reflexivity].
Qed.
Lemma framed_session f : (forall s, same_setup s (f s)) -> Fr (modify_session f).
Proof. intros Hf. apply framed_modify. intros w. split; [reflexivity|apply Hf]. Qed.
Lemma framed_get_session : Fr get_session.
Proof. unfold get_session. framed_tac. Qed.
Hint Resolve framed_get_session : framed.
Hint Extern 5 (framed aside_login (io _)) => apply framed_io : framed.

Lemma welcome_conn_links m s f : welcome_conn m s = Ok f -> forall c, c_socket_fd (f c) = c_socket_fd c /\ c_ssl (f c) = c_ssl c /\
  c_ssl_ctx (f c) = c_ssl_ctx c /\ c_additional (f c) = c_additional c /\ c_state (f c) = c_state c.
Proof.
  unfold welcome_conn. intros E c. destruct (int_field m "use_compress"), (int_field m "timeout"); try discriminate E; injection E as <-; done.
Qed.

Lemma framed_accept m : Fr (accept_welcome m).
Proof.
  assert (Hconn : forall f, (forall c, c_socket_fd (f c) = c_socket_fd c /\ c_ssl (f c) = c_ssl c /\
    c_ssl_ctx (f c) = c_ssl_ctx c /\ c_additional (f c) = c_additional c /\ c_state (f c) = c_state c) -> framed aside (@modify_conn U f)).
  { intros f Hf. apply framed_modify. intros w. destruct (Hf (w_conn w)) as (?&?&?&?&?). split_and!; auto; reflexivity. }
  assert (Hset : forall s0 s1, same_setup s0 s1 -> framed aside_login (io (modify_conn (fun c => c <| c_rudp_enabled := true |>)))).
  { intros. by apply framed_io, Hconn. }
  intros w. change (wlp (accept_welcome m) (fun _ w' => aside_login w w') w). unfold accept_welcome.
  apply wlp_bind. eapply wlp_run; [done|]. apply wlp_bind, wlp_lift. intros s Es. apply welcome_session_setup in Es.
  apply wlp_bind. eapply wlp_run; [done|]. set (w1 := w <| l_session := s |>).
  assert (H1 : aside_login w w1 /\ l_session w1 = s) by (split; [split; [reflexivity|done]|done]). clearbody w1.
  assert (Hio : forall A (n : St (cworld U) A), framed aside n -> forall Q v, aside_login w v /\ l_session v = s ->
    (forall a v', aside_login w v' /\ l_session v' = s -> Q a v') -> wlp (io n) Q v).
  { intros A n Hn Q v [Hv Hs] HQ a v' E. apply HQ. split; [transitivity v; [done|]; by eapply framed_io|].
    unfold io in E. destruct (n (l_world v)) as [| |[b z]]; try discriminate E. injection E as _ <-. exact Hs. }
  apply wlp_bind, wlp_lift. intros f Ef. apply wlp_bind, (Hio _ _ (Hconn _ (welcome_conn_links _ _ _ Ef))); [done|]. intros _ w2 H2.
  apply wlp_bind, Hio; [framed_tac|done|]. intros c w3 H3. apply wlp_bind, Hio; [apply framed_set_rudp|done|]. intros _ w4 H4.
  apply wlp_bind, wlp_lift. intros u _. apply wlp_bind.
  assert (Hlast : forall w5, aside_login w w5 -> wlp (io (modify_conn (fun c => c <| c_session_established := true |>))) (fun _ w' => aside_login w w') w5).
  { intros w5 H5. apply framed_wlp; [apply _| |done]. by apply framed_io, Hconn. }
  destruct (u =? 0); [eapply wlp_run; [done|]; apply Hlast, H4|].
  apply wlp_bind, wlp_lift. intros s2 Es2. apply welcome_rudp_setup in Es2. apply wlp_bind. eapply wlp_run; [done|].
  destruct H4 as [[H4 H4'] <-]. intros a w6 E6. apply Hlast. transitivity (w4 <| l_session := s2 |>).
  - split; [exact H4|]. by etransitivity.
  - revert E6. by apply framed_io, Hconn.
Qed.
Hint Resolve framed_accept : framed.

Context (crand : nat -> Z) (malloc_ok : Z -> bool) (stack : Z -> list Z) (addr : Z) (sha1 : list Z -> list Z)
        (inet_addr : list Z -> Z) (local_port : Z -> option Z) (http_date : list Z).

Lemma framed_watermark server_ip : Fr (send_vpnconnect_watermark malloc_ok stack addr server_ip).
Proof. unfold send_vpnconnect_watermark. framed_tac. apply framed_session. by intros s. Qed.
Lemma framed_authentication username password :
  Fr (perform_authentication_http crand malloc_ok stack addr sha1 inet_addr local_port http_date username password).
Proof.
  unfold perform_authentication_http. apply framed_bind; [apply _|by apply framed_io, framed_authenticating|intros _].
  apply framed_bind; [apply _|by apply framed_session|intros _]. framed_tac.
Qed.
Lemma framed_create use_tcp : Fr (create_rudp use_tcp).
Proof. unfold create_rudp. framed_tac. Qed.
Hint Resolve framed_watermark framed_authentication framed_create : framed.

Lemma login_frame host username password use_tcp :
  Fr (softether_protocol_login crand malloc_ok stack addr sha1 inet_addr local_port http_date host username password use_tcp).
Proof. unfold softether_protocol_login. framed_tac. Qed.
End login_frame.
