(* ===== verification/Lifecycle.v ===== *)
(** * The life of a session (proto/softether_protocol.c)

    [softether_connect_with_hub_nolock] dials the server, falls back to the
    race of the transports and, after a refused login, to the NAT-T path, logs
    in and sets the session up; [softether_disconnect] tears it down. The
    stages are those of [TcpSocket], [Dial], [Login] and [Additional]; the race
    and the connect of a transport appear by their outcome, in [Transports]
    ([RaceSpec] and [RtConnectSpec] say what they leave behind).

    [nworld] adds to [dworld] the transport the connection owns, with its three
    descriptors, and the fields only this file uses. The mutexes have no
    counterpart: a call runs by itself, but for the cancel flag, which another
    thread may set at any time. *)
From stdpp Require Import functions strings.
From S2P Require Import Prelude Bytes Ring Pack Crypto Conn Channel Tunnel.
From S2P Require Import TcpSocket Http LoginPack Login Dial Additional.

Definition ERR_PROTOCOL_VERSION : Z := 3.
Definition ERR_SESSION : Z := 5.
Definition ERR_DATA_TRANSMISSION : Z := 6.
Definition ERR_UNKNOWN : Z := 99.
Definition DATA_TIMEOUT_MS : Z := 5000.

(** The descriptors of a [rudp_transport_t]: the end of the socket pair that
    the caller uses, the worker's end, the UDP socket. *)
Record transport := Transport { tr_app : Z; tr_worker : Z; tr_udp : Z }.

(** The race and the NAT-T connect: whether one succeeds. *)
Class Transports := { tp_race : nat -> bool; tp_nat_t : nat -> bool }.

(** Starting the accelerator: [rudp_init_client] and [rudp_set_version]. *)
Class AccelStart (U : Type) := {
  st_init_client : list Z -> Z -> list Z -> Z -> Z -> Z -> U -> res (Z * U);
  st_set_version : Z -> U -> U }.

Record nworld {U : Type} := NWorld {
  n_d : dworld U; n_transport : option transport; n_udp_only : bool; n_session_id : Z; n_sequence_num : Z }.
Arguments nworld : clear implicits.
Arguments NWorld {U}.
#[export] Instance eta_nworld {U} : Eta (nworld U) := fun w => NWorld
  (n_d w) (n_transport w) (n_udp_only w) (n_session_id w) (n_sequence_num w).

Section lifecycle.
Context {U : Type} `{Accelerator U} `{AccelSetup U} `{AccelStart U} `{Kernel} `{OpenSSL} `{Transports}.
Context (tick crand : nat -> Z) (malloc_ok : Z -> bool) (stack : Z -> list Z) (addr : Z) (sha1 : list Z -> list Z)
        (inet_addr : list Z -> Z) (local_port : Z -> option Z) (http_date : list Z) (protect : nat -> Z).
Abbreviation M := (St (dworld U)).
Abbreviation N := (St (nworld U)).

(** A computation without the transport. *)
Definition on_d {A} (m : M A) : N A := fun w =>
  match m (n_d w) with Ub => Ub | Err => Err | Ok (a, d) => Ok (a, w <| n_d := d |>) end.
Definition on_login {A} (m : St (lworld U) A) : M A := fun w =>
  match m (d_l w) with Ub => Ub | Err => Err | Ok (a, l) => Ok (a, w <| d_l := l |>) end.
Definition the_conn : N connection := on_d (on_conn get_conn).
Definition set_conn (f : connection -> connection) : N unit := on_d (on_conn (modify_conn f)).
Definition set_session (f : session -> session) : N unit := on_d (on_login (modify_session f)).
Definition set_state (st : softether_state) : N unit := set_conn (fun c => c <| c_state := st |>).

(** The cancel flag at this moment. *)
Definition aborted : N bool := on_d (on_os (sys k_cancel)).

(** ** Teardown *)

Definition close_if (fd : Z) : M unit := when (fd >=? 0) (on_os (sys_close fd)).
Fixpoint close_each (fds : list Z) : M unit :=
  match fds with [] => mret tt | fd :: fds => on_os (sys_close fd) ;; close_each fds end.
Fixpoint free_each (ps : list Z) : M unit :=
  match ps with [] => mret tt | p :: ps => on_tls (ssl_free p) ;; free_each ps end.

Definition take_nat_t_transport : N (option transport) := fun w => Ok (n_transport w, w <| n_transport := None |>).
Definition using_nat_t (b : bool) : N unit := set_session (fun s => s <| s_using_nat_t := b |>).

(** The worker is joined; the three descriptors are closed. *)
Definition rudp_transport_destroy (tr : transport) : N unit :=
  on_d (close_if (tr_worker tr) ;; close_if (tr_app tr) ;; close_if (tr_udp tr)).
Definition drop_transport : N unit :=
  tr ← take_nat_t_transport; match tr with None => mret tt | Some tr => rudp_transport_destroy tr end.
Definition take_rudp_ctx : N unit := on_d (on_conn (modify (fun w => w <| w_rudp := None |>))).

(** [softether_close_additional], with what it closed and destroyed told to
    the system and to the TLS library. *)
Definition close_links : M unit :=
  before ← on_conn (gets (fun w => (len (w_closed w), len (w_freed w))));
  on_conn softether_close_additional ;;
  after ← on_conn (gets (fun w => (w_closed w, w_freed w)));
  close_each (rev (tk (len after.1 - before.1) after.1)) ;;
  free_each (rev (tk (len after.2 - before.2) after.2)).

(** The TLS context of the primary link. *)
Definition retire_primary : N unit :=
  c ← the_conn;
  when (negb (c_ssl c =? 0) && negb (c_ssl_ctx c =? 0)) (
    set_conn (fun c' => c' <| c_ssl := 0 |> <| c_ssl_ctx := if c_ssl_ctx c =? c_ssl c then 0 else c_ssl_ctx c |>) ;;
    on_d (ssl_destroy_ctx (c_ssl c))).

Definition join_additional : N unit := set_conn (fun c => c <| c_additional_connecting := false |>).

Definition softether_disconnect : N unit :=
  c ← the_conn;
  if bool_decide (c_state c = STATE_DISCONNECTED) || bool_decide (c_state c = STATE_DISCONNECTING) then mret tt else
  set_state STATE_DISCONNECTING ;;
  join_additional ;;
  when (c_socket_fd c >=? 0) (
    set_conn (fun c => c <| c_socket_fd := -1 |>) ;; on_d (on_os (sys_close (c_socket_fd c)))) ;;
  on_d close_links ;;
  retire_primary ;;
  drop_transport ;;
  using_nat_t false ;;
  take_rudp_ctx ;;
  set_conn (fun c => c <| c_rudp_enabled := false |> <| c_state := STATE_DISCONNECTED |>) ;;
  modify (fun w => w <| n_session_id := 0 |> <| n_sequence_num := 0 |>).

(** Up to [free]; the fields that are freed with the object stay as they are. *)
Definition softether_destroy : N unit :=
  join_additional ;;
  c ← the_conn;
  when (negb (bool_decide (c_state c = STATE_DISCONNECTED))) softether_disconnect ;;
  drop_transport ;;
  using_nat_t false ;;
  set_session (fun s => s <| s_username := [] |> <| s_password := [] |>) ;;
  set_conn (fun c => c <| c_send_block := None |> <| c_send_block_cap := 0 |>).

(** The blocking calls of the connect and of the data plane are interrupted;
    nothing is closed. *)
Definition softether_force_close_socket : N unit :=
  set_conn (fun c => c <| c_abort_connect := true |>) ;;
  c ← the_conn;
  when (c_socket_fd c >=? 0) (on_d (on_os (note (OShutdown (c_socket_fd c))))) ;;
  tr ← gets n_transport;
  match tr with
  | Some tr => when (tr_app tr >=? 0) (on_d (on_os (note (OShutdown (tr_app tr)))))
  | None => mret tt
  end.

Definition softether_get_state (w : nworld U) : softether_state := c_state (w_conn (l_world (d_l (n_d w)))).

Definition softether_state_string (st : softether_state) : list Z :=
  match st with
  | STATE_DISCONNECTED => str "DISCONNECTED"
  | STATE_CONNECTING => str "CONNECTING"
  | STATE_TLS_HANDSHAKE => str "TLS_HANDSHAKE"
  | STATE_PROTOCOL_HANDSHAKE => str "PROTOCOL_HANDSHAKE"
  | STATE_AUTHENTICATING => str "AUTHENTICATING"
  | STATE_SESSION_SETUP => str "SESSION_SETUP"
  | STATE_CONNECTED => str "CONNECTED"
  | STATE_DISCONNECTING => str "DISCONNECTING"
  end.

Definition softether_error_string (error_code : Z) : list Z :=
  if error_code =? ERR_NONE then str "No error"
  else if error_code =? ERR_TCP_CONNECT then str "TCP connection failed"
  else if error_code =? ERR_TLS_HANDSHAKE then str "TLS handshake failed"
  else if error_code =? ERR_PROTOCOL_VERSION then str "Protocol version mismatch"
  else if error_code =? ERR_AUTHENTICATION then str "Authentication failed"
  else if error_code =? ERR_SESSION then str "Session setup failed"
  else if error_code =? ERR_DATA_TRANSMISSION then str "Data transmission failed"
  else if error_code =? ERR_TIMEOUT then str "Operation timed out"
  else if error_code =? ERR_UNKNOWN then str "Unknown error"
  else str "Undefined error".

(** ** Reaching the server *)

(** The descriptors of a transport that connected. *)
Definition open_transport : M (option transport) :=
  udp ← on_os (sys_socket AF_INET SOCK_DGRAM);
  if udp <? 0 then mret None else
  a ← on_os (sys_socket AF_UNSPEC SOCK_STREAM);
  if a <? 0 then close_if udp ;; mret None else
  b ← on_os (sys_socket AF_UNSPEC SOCK_STREAM);
  if b <? 0 then close_if udp ;; close_if a ;; mret None else
  mret (Some (Transport b a udp)).

Definition adopt_transport (tr : transport) : N unit :=
  modify (fun w => w <| n_transport := Some tr |>) ;;
  using_nat_t true ;;
  set_conn (fun c => c <| c_socket_fd := tr_app tr |>).

(** The winner of the race brings its TLS context along. *)
Definition softether_connect_parallel_race : N Z :=
  won ← on_d (on_os (sys tp_race));
  if negb won then mret (-1) else
  tr ← on_d open_transport;
  match tr with
  | None => mret (-1)
  | Some tr =>
      ctx ← on_d (on_tls (ossl o_calloc));
      if ctx =? 0 then rudp_transport_destroy tr ;; mret (-1) else
      on_d (on_tls (modify (fun t => t <| t_ssl := ctx :: t_ssl t |>))) ;;
      adopt_transport tr ;;
      set_conn (fun c => c <| c_ssl_ctx := ctx |> <| c_ssl := ctx |>) ;;
      mret ERR_NONE
  end.

Definition softether_try_nat_t_connect (resolved_ip : list Z) : N Z :=
  if negb (k_pton AF_INET resolved_ip) then mret ERR_TCP_CONNECT else
  ok ← on_d (on_os (sys tp_nat_t));
  if negb ok then mret ERR_TCP_CONNECT else
  tr ← on_d open_transport;
  match tr with
  | None => mret ERR_TCP_CONNECT
  | Some tr => adopt_transport tr ;; mret ERR_NONE
  end.

Definition has_colon (s : list Z) : bool := existsb (fun c => c =? 58) s.
Definition other_family (resolved_ip : list Z) : Z := if has_colon resolved_ip then AF_INET else AF_INET6.

(** The TCP connect with its second try over the other IP version: whether it
    succeeded, the socket, the address it was made to. *)
Definition dial_both (fuel : nat) (host : list Z) (port timeout_ms : Z) (resolved_ip : list Z) (sock : softether_socket)
  : St os (bool * softether_socket * list Z) :=
  '(r, sock) ← socket_connect_timeout_cancel fuel host port timeout_ms true sock;
  if r =? 0 then mret (true, sock, resolved_ip) else
  ip ← resolve_hostname_family host (other_family resolved_ip) 64;
  match ip with
  | None => mret (false, sock, resolved_ip)
  | Some ip =>
      if bool_decide (ip = resolved_ip) then mret (false, sock, resolved_ip) else
      '(r, sock) ← socket_connect_timeout_cancel fuel ip port timeout_ms true sock;
      mret (if r =? 0 then (true, sock, copy_str 64 ip) else (false, sock, resolved_ip))
  end.

(** The address the socket is connected to, as text. *)
Definition actual_address (sock : softether_socket) (resolved_ip : list Z) : list Z :=
  if bool_decide (sk_addr sock = []) then resolved_ip else
  match k_ntop (sk_family sock) (sk_addr sock) 64 with Some ip => copy_str 64 ip | None => resolved_ip end.

(** TCP and its TLS handshake; [force_nat_t] skips them. *)
Definition connect_tcp (fuel : nat) (force_nat_t : bool) (host : list Z) (port : Z) (resolved_ip : list Z) : M (Z * list Z) :=
  sock ← (if force_nat_t then mret None else on_os (socket_create SOCKET_TYPE_TCP));
  match sock with
  | None => mret (ERR_TCP_CONNECT, resolved_ip)
  | Some sock =>
      s ← the_session;
      '(ok, sock, resolved_ip) ← on_os (dial_both fuel host port (s_timeout_ms s) resolved_ip sock);
      if negb ok then on_os (socket_destroy sock) ;; mret (ERR_TCP_CONNECT, resolved_ip) else
      on_conn (modify_conn (fun c => c <| c_socket_fd := sk_fd sock |>)) ;;
      on_os (socket_destroy (sock <| sk_fd := -1 |>)) ;;
      _ ← on_os (socket_apply_timeout (sk_fd sock) (s_timeout_ms s));
      result ← perform_tls_handshake;
      (if result =? ERR_NONE then mret tt else
       on_os (sys_close (sk_fd sock)) ;; on_conn (modify_conn (fun c => c <| c_socket_fd := -1 |>))) ;;
      mret (result, actual_address sock resolved_ip)
  end.

(** The race after TCP failed, with the check of what it returned. *)
Definition race_after_tcp : N Z :=
  softether_disconnect ;;
  result ← softether_connect_parallel_race;
  c ← the_conn;
  if (result =? ERR_NONE) && ((c_socket_fd c <? 0) || (c_ssl c =? 0))
  then softether_disconnect ;; mret ERR_TCP_CONNECT else mret result.

(** ** The connect *)

(** The caller's description of client and server: an empty string leaves the
    field alone, an address goes to the field of its family. The IPv6 address of
    the server ([server_ip_v6]), which nothing reads, is not kept. *)
Definition put_str (cap : Z) (arg old : list Z) : list Z := if bool_decide (arg = []) then old else copy_str cap arg.
Definition store_client_info (a ci : client_info) : client_info :=
  Client (put_str 128 (ci_product_name a) (ci_product_name ci)) (put_str 32 (ci_product_version a) (ci_product_version ci))
    (ci_product_build a) (put_str 128 (ci_os_name a) (ci_os_name ci)) (put_str 64 (ci_os_version a) (ci_os_version ci))
    (put_str 128 (ci_os_product_id a) (ci_os_product_id ci)) (put_str 128 (ci_host_name a) (ci_host_name ci))
    (if has_colon (ci_ip_address a) then ci_ip_address ci else put_str 64 (ci_ip_address a) (ci_ip_address ci))
    (ci_port a) (put_str 128 (ci_server_host_name a) (ci_server_host_name ci))
    (if has_colon (ci_server_ip_address a) then ci_server_ip_address ci
     else put_str 64 (ci_server_ip_address a) (ci_server_ip_address ci))
    (ci_server_port_reported a)
    (if has_colon (ci_ip_address a) then copy_str 128 (ci_ip_address a) else ci_ip_v6 ci).

Definition default_hub : list Z := str "vpngate".
Definition store_request (a : client_info) (hub_name : list Z) (s : session) : session :=
  s <| s_client := store_client_info a (s_client s) |>
    <| s_hub_name := copy_str 256 (if bool_decide (hub_name = []) then default_hub else hub_name) |>.

Definition store_server (resolved_ip : list Z) (port : Z) (s : session) : session :=
  s <| s_server_ip := copy_str 64 resolved_ip |> <| s_server_port := port |> <| s_is_ipv6 := has_colon resolved_ip |>.

Definition login (host username password : list Z) (use_tcp : bool) : N Z :=
  on_d (on_login (softether_protocol_login crand malloc_ok stack addr sha1 inet_addr local_port http_date
    host username password use_tcp)).

(** A refused login is repeated over NAT-T, after a disconnect. False with the
    result: the handshake over the transport failed, and the connect ends. *)
Definition login_or_nat_t (host username password resolved_ip : list Z) (use_tcp : bool) : N (bool * Z) :=
  result ← login host username password use_tcp;
  s ← on_d the_session;
  if (result =? ERR_NONE) || s_using_nat_t s then mret (true, result) else
  softether_disconnect ;;
  result ← softether_try_nat_t_connect resolved_ip;
  if negb (result =? ERR_NONE) then mret (true, result) else
  c ← the_conn;
  _ ← on_d (on_os (socket_apply_timeout (c_socket_fd c) (s_timeout_ms s)));
  result ← on_d perform_tls_handshake;
  if negb (result =? ERR_NONE) then softether_disconnect ;; mret (false, result) else
  result ← login host username password use_tcp;
  mret (true, result).

(** The accelerator starts when the server offered it with a port and a key. *)
Definition start_accelerator (use_tcp : bool) : N unit :=
  c ← the_conn;
  s ← on_d the_session;
  rudp ← on_d (on_conn (gets w_rudp));
  let disable := set_conn (fun c => c <| c_rudp_enabled := false |>) in
  match rudp with
  | None => mret tt
  | Some u =>
      if use_tcp || negb (c_rudp_enabled c) then mret tt else
      if (s_rudp_server_port s =? 0) || ((s_rudp_server_key_size s =? 0) && (s_rudp_server_key_v2_size s =? 0)) then disable else
      let v2 := (s_rudp_version s >=? 2) && (s_rudp_server_key_v2_size s >? 0) in
      '(r, u) ← lift (st_init_client
        (if v2 then s_rudp_server_key_v2 s else s_rudp_server_key s)
        (if v2 then s_rudp_server_key_v2_size s else s_rudp_server_key_size s)
        (if bool_decide (s_rudp_server_ip s = []) then s_server_ip s else s_rudp_server_ip s)
        (s_rudp_server_port s) (s_rudp_server_cookie s) (s_rudp_client_cookie s) u);
      on_d (on_conn (modify (fun w => w <| w_rudp := Some u |>))) ;;
      if negb (r =? 0) then disable else
      '(_, u) ← lift (ac_poll (st_set_version (s_rudp_version s) u));
      on_d (on_conn (modify (fun w => w <| w_rudp := Some u |>)))
  end.

(** The session's number: the server's, else a random one. *)
Definition choose_session_id : N unit :=
  c ← the_conn;
  s ← on_d the_session;
  when (c_session_established c && negb (s_session_key_32 s =? 0))
    (modify (fun w => w <| n_session_id := s_session_key_32 s |>)) ;;
  id ← gets n_session_id;
  when (id =? 0) (
    r1 ← on_d (on_conn (c_rand crand)); r2 ← on_d (on_conn (c_rand crand));
    modify (fun w => w <| n_session_id := Z.lxor (u32 (Z.shiftl (u32 r1) 16)) (u32 r2) |>)).

(** How many links there may be, and when the next is dialled. *)
Definition schedule_links : N unit :=
  s ← on_d the_session;
  if s_using_nat_t s then set_conn (fun c => c <| c_max_connection := 1 |> <| c_next_connect_time := 0 |>) else
  set_conn (fun c =>
    let m := if (s_server_max_connection s >? 0) && (s_server_max_connection s <? u32 (c_max_connection c))
             then int32 (s_server_max_connection s) else c_max_connection c in
    c <| c_max_connection := if m >? MAX_SE_CONNECTIONS then MAX_SE_CONNECTIONS else m |>) ;;
  now ← on_d (on_conn (softether_tick_ms tick));
  set_conn (fun c => c <| c_next_connect_time := u64 (now + ADDITIONAL_CONNECT_INTERVAL_MS) |>).

(** After the login. *)
Definition set_up_session (use_tcp : bool) : N Z :=
  start_accelerator use_tcp ;;
  set_state STATE_SESSION_SETUP ;;
  choose_session_id ;;
  set_state STATE_CONNECTED ;;
  schedule_links ;;
  c ← the_conn;
  _ ← on_d (on_conn (ssl_has_pending (c_ssl c)));
  if c_socket_fd c <? 0 then softether_disconnect ;; mret ERR_TCP_CONNECT else
  _ ← on_d (on_os (setsockopt (OTimeout (c_socket_fd c) DATA_TIMEOUT_MS)));
  s ← on_d the_session;
  (if s_half_connection s =? 0 then mret tt
   else _ ← on_d (softether_establish_first_additional tick malloc_ok stack addr http_date protect); mret tt) ;;
  mret ERR_NONE.

(** A cancelled connect. *)
Definition call_off : N Z := softether_disconnect ;; mret ERR_TIMEOUT.

(** From the server's address on. *)
Definition log_in (host username password resolved_ip : list Z) (port : Z) (use_tcp : bool) : N Z :=
  abort ← aborted;
  if (abort : bool) then call_off else
  set_session (store_server resolved_ip port) ;;
  '(go, result) ← login_or_nat_t host username password resolved_ip use_tcp;
  if negb go then mret result else
  if negb (result =? ERR_NONE) then softether_disconnect ;; mret result else
  abort ← aborted;
  if (abort : bool) then call_off else set_up_session use_tcp.

Definition softether_connect_with_hub_nolock (fuel : nat) (force_nat_t : bool) (host : list Z) (port : Z)
  (username password hub_name : list Z) (use_tcp : bool) (info : client_info) : N Z :=
  set_conn (fun c => c <| c_abort_connect := false |>) ;;
  c ← the_conn;
  when (c_socket_fd c <? 0) drop_transport ;;
  using_nat_t false ;;
  set_state STATE_CONNECTING ;;
  set_session (store_request info hub_name) ;;
  resolved ← on_d (on_os (resolve_hostname host 64));
  match resolved with
  | None => set_state STATE_DISCONNECTED ;; mret ERR_TCP_CONNECT
  | Some resolved_ip =>
      udp_only ← gets n_udp_only;
      if (udp_only : bool) then
        _ ← softether_connect_parallel_race; log_in host username password resolved_ip port use_tcp
      else
      '(result, resolved_ip) ← on_d (connect_tcp fuel force_nat_t host port resolved_ip);
      abort ← aborted;
      if (abort : bool) then call_off else
      (if result =? ERR_NONE then mret tt else _ ← race_after_tcp; mret tt) ;;
      log_in host username password resolved_ip port use_tcp
  end.

(** The lock around the connect has no counterpart. *)
Definition softether_connect_with_hub := softether_connect_with_hub_nolock.

Definition no_info : client_info := Client [] [] 0 [] [] [] [] [] 0 [] [] 0 [].

Definition softether_connect (fuel : nat) (force_nat_t : bool) (host : list Z) (port : Z) (username password : list Z) : N Z :=
  softether_connect_with_hub fuel force_nat_t host port username password default_hub true no_info.

(** The C passes pointers to the arrays of the connection, which the connect
    copies onto themselves; here the strings are passed by value. *)
Definition softether_reconnect (fuel : nat) (force_nat_t : bool) : N Z :=
  s ← on_d the_session;
  if bool_decide (s_server_ip s = []) || bool_decide (s_username s = []) then mret ERR_UNKNOWN else
  c ← the_conn;
  when (negb (bool_decide (c_state c = STATE_DISCONNECTED))) softether_disconnect ;;
  softether_connect_with_hub fuel force_nat_t (s_server_ip s) (s_server_port s) (s_username s) (s_password s) (s_hub_name s)
    true no_info.

Definition softether_set_auth_type (auth_type : Z) : N unit := set_session (fun s => s <| s_forced_auth_type := auth_type |>).
End lifecycle.
