(* ===== verification/LifecycleInv.v ===== *)
(** * Teardown: what a disconnect releases

    [closings] lists the descriptors a disconnect closes, in order. The steps
    of the teardown on a world spelled out in its parts. *)
From stdpp Require Import functions strings.
From S2P Require Import Prelude Bytes Ring Pack Crypto Conn ConnInv WorldInv Tunnel TunnelInv.
From S2P Require Import TcpSocket TcpSocketSpec Http LoginPack Login LoginInv Dial Additional AdditionalSpec HandshakeSpec Lifecycle.

(** ** The parts of a world *)

Section parts.
Context {U : Type}.
Implicit Types w : nworld U.

Definition n_cw w : cworld U := l_world (d_l (n_d w)).
Definition n_conn w : connection := w_conn (n_cw w).
Definition n_session w : session := l_session (d_l (n_d w)).
Definition n_os w : os := d_os (n_d w).
Definition n_tls w : tls := d_tls (n_d w).

(** The slots hold nothing. *)
Definition slot_empty (ts : tcp_sock) : Prop := ts_active ts = false /\ ts_ssl ts = 0 /\ ts_ssl_ctx ts = 0.

Definition slot_fds (c : connection) : list Z := filter (fun fd => 0 <= fd) (map saved_fd (c_additional c)).
Definition transport_fds (tr : option transport) : list Z :=
  match tr with None => [] | Some tr => fd_list (tr_worker tr) ++ fd_list (tr_app tr) ++ fd_list (tr_udp tr) end.
Definition closings w : list Z := fd_list (c_socket_fd (n_conn w)) ++ slot_fds (n_conn w) ++ transport_fds (n_transport w).

Lemma slots_empty_fds c : Forall slot_empty (c_additional c) -> slot_fds c = [].
Proof. unfold slot_fds. induction 1 as [|ts l [Ha _] _ IH]; [done|]. cbn [map]. unfold saved_fd at 1. rewrite Ha. exact IH. Qed.
Lemma slots_empty_ctxs c : Forall slot_empty (c_additional c) -> ctxs (c_additional c) = [].
Proof. unfold ctxs. induction 1 as [|ts l (_ & _ & E) _ IH]; [done|]. cbn [map]. by rewrite E. Qed.
Lemma owners_cons c : owners c = (if decide (c_ssl c = 0) then [] else [c_ssl c]) ++ ctxs (c_additional c).
Proof.
  unfold owners, ctxs. destruct (decide _) as [E|E]; [rewrite E|]; rewrite filter_cons; [by rewrite decide_False by (intros Hx; by apply Hx)|by rewrite decide_True].
Qed.
End parts.

(** What is open, and which objects are left, after some were released. *)
Definition without (xs ys : list Z) : list Z := filter (fun y => y ∉ xs) ys.
Lemma without_app a b ys : without b (without a ys) = without (a ++ b) ys.
Proof. unfold without. rewrite list_filter_filter. apply list_filter_iff. intros y. rewrite elem_of_app. tauto. Qed.
Lemma without_cons x ys : filter (fun y => y <> x) ys = without [x] ys.
Proof. unfold without. apply list_filter_iff. intros y. by rewrite list_elem_of_singleton. Qed.
Lemma without_none xs ys : (forall y, y ∈ ys -> y ∉ xs) -> without xs ys = ys.
Proof.
  unfold without. induction ys as [|y ys IH]; intros Hy; [done|]. rewrite filter_cons, decide_True by (apply Hy; by left).
  f_equal. apply IH. intros z Hz. apply Hy. by right.
Qed.
Lemma without_all xs ys : (forall y, y ∈ ys -> y ∈ xs) -> without xs ys = [].
Proof.
  unfold without. induction ys as [|y ys IH]; intros Hy; [done|].
  rewrite filter_cons, decide_False by (intros Hn; apply Hn, Hy; by left). apply IH. intros z Hz. apply Hy. by right.
Qed.
Lemma without_nil ys : without [] ys = ys.
Proof. apply without_none. by intros y _ ?%elem_of_nil. Qed.
(** Releasing the first part leaves the rest. *)
Lemma without_part xs ys a b : NoDup ys -> ys ≡ₚ a ++ b -> (forall x, x ∈ xs <-> x ∈ a) -> without xs ys ≡ₚ b.
Proof.
  intros Hn Hp Hx. unfold without. rewrite Hp, filter_app. fold (without xs a) (without xs b).
  rewrite Hp in Hn. apply NoDup_app in Hn as (_ & Hd & _).
  rewrite without_all by (by intros y ?%Hx). rewrite without_none; [done|]. intros y Hy Hxs. by eapply Hd; [apply Hx|].
Qed.

(** ** The calls of the teardown *)

Definition closed_of (fds : list Z) (y y' : os) : Prop := y_log y' = y_log y ++ map OClose fds /\ y_open y' = without fds (y_open y).
Definition freed_of (ps : list Z) (t t' : tls) : Prop :=
  t_ssl t' = without ps (t_ssl t) /\ t_calls t' = t_calls t /\ t_attempts t' = t_attempts t.

Lemma closed_nil y : closed_of [] y y.
Proof. split; [by rewrite app_nil_r|by rewrite without_nil]. Qed.
Lemma closed_app a b y1 y2 y3 : closed_of a y1 y2 -> closed_of b y2 y3 -> closed_of (a ++ b) y1 y3.
Proof. intros [L1 O1] [L2 O2]. split; [by rewrite L2, L1, map_app, app_assoc|by rewrite O2, O1, without_app]. Qed.
Lemma freed_nil t : freed_of [] t t.
Proof. split; [by rewrite without_nil|done]. Qed.
Lemma freed_app a b t1 t2 t3 : freed_of a t1 t2 -> freed_of b t2 t3 -> freed_of (a ++ b) t1 t3.
Proof. intros (L1 & C1 & A1) (L2 & C2 & A2). split; [by rewrite L2, L1, without_app|]. split; congruence. Qed.

Lemma sys_close_closed fd y : wp (TcpSocket.sys_close fd) (fun _ y' => closed_of [fd] y y') y.
Proof. unfold TcpSocket.sys_close. wp_step. apply wp_note. apply wp_modify. split; [done|]. cbn. apply without_cons. Qed.

Section teardown.
Context {U : Type} (good : U -> Prop) `{Hacc : Accelerator U} `{!AcceleratorLaws U good} (F : Prop).
Implicit Types (cw : cworld U) (s : session) (y : os) (t : tls) (pr uo : bool) (tr : option transport).
Abbreviation W cw s y t pr := (DWorld (LWorld cw s) y t pr).
Abbreviation N cw s y t pr tr uo id sn := (NWorld (W cw s y t pr) tr uo id sn).

Lemma wpf_on_conn {A} (m : St (cworld U) A) Q cw s y t pr : wpf F m (fun a cw' => Q a (W cw' s y t pr)) cw -> wpf F (on_conn m) Q (W cw s y t pr).
Proof. unfold wpf, on_conn, io. cbn. by destruct (m cw) as [| |[a cw']]. Qed.
Lemma wpf_on_os {A} (m : St os A) Q cw s y t pr : wp m (fun a y' => Q a (W cw s y' t pr)) y -> wpf F (on_os m) Q (W cw s y t pr).
Proof. unfold wpf, wp, on_os. cbn. by destruct (m y) as [| |[a y']]. Qed.
Lemma wpf_on_tls {A} (m : St tls A) Q cw s y t pr : wp m (fun a t' => Q a (W cw s y t' pr)) t -> wpf F (on_tls m) Q (W cw s y t pr).
Proof. unfold wpf, wp, on_tls. cbn. by destruct (m t) as [| |[a t']]. Qed.
Lemma wpf_on_d {A} (m : St (dworld U) A) Q d tr uo id sn :
  wpf F m (fun a d' => Q a (NWorld d' tr uo id sn)) d -> wpf F (on_d m) Q (NWorld d tr uo id sn).
Proof. unfold wpf, on_d. cbn. by destruct (m d) as [| |[a d']]. Qed.
Lemma wpf_the_conn {B} (f : connection -> St (nworld U) B) Q cw s y t pr tr uo id sn :
  wpf F (f (w_conn cw)) Q (N cw s y t pr tr uo id sn) -> wpf F (the_conn ≫= f) Q (N cw s y t pr tr uo id sn).
Proof. exact (fun x => x). Qed.
Lemma wpf_the_session {B} (f : session -> St (nworld U) B) Q cw s y t pr tr uo id sn :
  wpf F (f s) Q (N cw s y t pr tr uo id sn) -> wpf F (on_d the_session ≫= f) Q (N cw s y t pr tr uo id sn).
Proof. exact (fun x => x). Qed.
Lemma wpf_the_rudp {B} (f : option U -> St (nworld U) B) Q cw s y t pr tr uo id sn :
  wpf F (f (w_rudp cw)) Q (N cw s y t pr tr uo id sn) -> wpf F (on_d (on_conn (gets w_rudp)) ≫= f) Q (N cw s y t pr tr uo id sn).
Proof. exact (fun x => x). Qed.
Lemma wpf_set_conn f Q cw s y t pr tr uo id sn :
  Q tt (N (cw <| w_conn := f (w_conn cw) |>) s y t pr tr uo id sn) -> wpf F (set_conn f) Q (N cw s y t pr tr uo id sn).
Proof. exact (fun x => x). Qed.
Lemma wpf_set_session f Q cw s y t pr tr uo id sn :
  Q tt (N cw (f s) y t pr tr uo id sn) -> wpf F (set_session f) Q (N cw s y t pr tr uo id sn).
Proof. exact (fun x => x). Qed.
Lemma wpf_when {X} (b : bool) (m : St X unit) Q (w : X) : (b = true -> wpf F m Q w) -> (b = false -> Q tt w) -> wpf F (when b m) Q w.
Proof. destruct b; intros Ht Hf; [by apply Ht|by apply Hf]. Qed.

(** Closing a list of descriptors, destroying a list of TLS objects. *)
Definition closes (fds : list Z) (m : St (dworld U) unit) : Prop := forall Q cw s y t pr,
  (forall y', closed_of fds y y' -> Q tt (W cw s y' t pr)) -> wpf F m Q (W cw s y t pr).

Lemma close_one fd : closes [fd] (on_os (TcpSocket.sys_close fd)).
Proof. intros Q cw s y t pr HQ. apply wpf_on_os. eapply wp_mono; [apply sys_close_closed|]. intros [] y' Hy. by apply HQ. Qed.
Lemma closes_nil : closes [] (mret tt).
Proof. intros Q cw s y t pr HQ. apply wpf_ret, HQ, closed_nil. Qed.
Lemma closes_app a b m1 m2 : closes a m1 -> closes b m2 -> closes (a ++ b) (m1 ;; m2).
Proof.
  intros H1 H2 Q cw s y t pr HQ. apply wpf_bind, H1. intros y1 Hy1. apply H2. intros y2 Hy2. by eapply HQ, closed_app.
Qed.
Lemma close_if_closes fd : closes (fd_list fd) (close_if fd).
Proof.
  intros Q cw s y t pr HQ. unfold close_if, fd_list in *. apply wpf_when; intros E.
  - replace (fd <? 0) with false in HQ by lia. by apply (close_one fd).
  - replace (fd <? 0) with true in HQ by lia. apply HQ, closed_nil.
Qed.
Lemma close_each_closes fds : closes fds (close_each fds).
Proof. induction fds as [|fd fds IH]; [apply closes_nil|]. exact (closes_app [fd] fds _ _ (close_one fd) IH). Qed.
Lemma free_each_wp ps Q cw s y t pr : (forall t', freed_of ps t t' -> Q tt (W cw s y t' pr)) -> wpf F (free_each ps) Q (W cw s y t pr).
Proof.
  revert t. induction ps as [|p ps IH]; intros t HQ; cbn [free_each]; [apply wpf_ret, HQ, freed_nil|].
  apply wpf_bind, wpf_on_tls. unfold ssl_free. apply wp_modify, IH. intros t' Ht'. apply HQ.
  apply (freed_app [p] ps _ (t <| t_ssl := filter (fun x => x <> p) (t_ssl t) |>)); [|done]. split; [|done]. cbn. apply without_cons.
Qed.

Lemma drop_wp Q cw s y t pr tr uo id sn :
  (forall y', closed_of (transport_fds tr) y y' -> Q tt (N cw s y' t pr None uo id sn)) -> wpf F drop_transport Q (N cw s y t pr tr uo id sn).
Proof.
  intros HQ. unfold drop_transport. apply wpf_bind. unfold wpf at 1, take_nat_t_transport. cbn [n_transport]. destruct tr as [tr|]; cbn [transport_fds] in HQ.
  - unfold rudp_transport_destroy. apply wpf_on_d.
    apply (closes_app _ _ _ _ (close_if_closes _) (closes_app _ _ _ _ (close_if_closes _) (close_if_closes _))). exact HQ.
  - apply wpf_ret. apply HQ, closed_nil.
Qed.

Lemma tk_rev_prefix {A} (l r : list A) : rev (tk (len (rev l ++ r) - len r) (rev l ++ r)) = l.
Proof. rewrite tk_app_exact by (rewrite !len_app, len_rev; lia). by rewrite rev_involutive. Qed.

(** The additional links, with what the system and the TLS library see. *)
Definition links_closed cw cw' : Prop :=
  world_ok good cw' /\ Forall slot_empty (c_additional (w_conn cw')) /\
  w_conn cw' = (w_conn cw) <| c_additional_connecting := false |> <| c_additional := c_additional (w_conn cw') |>
    <| c_num_additional := 0 |> <| c_additional_failed_count := 0 |> /\
  w_freed cw' = rev (ctxs (c_additional (w_conn cw))) ++ w_freed cw /\ w_rudp cw' = w_rudp cw /\ w_in cw' = w_in cw.

Lemma close_links_wp Q cw s y t pr : world_ok good cw ->
  (forall cw' y' t', links_closed cw cw' -> closed_of (slot_fds (w_conn cw)) y y' -> freed_of (ctxs (c_additional (w_conn cw))) t t' ->
    Q tt (W cw' s y' t' pr)) -> wpf F close_links Q (W cw s y t pr).
Proof.
  intros Hw HQ. unfold close_links. apply wpf_bind, wpf_on_conn. unfold wpf at 1, gets.
  apply wpf_bind, wpf_on_conn. eapply wpf_mono; [apply wpf_wp, (close_additional_wp good cw Hw)|].
  intros [] cw' (Hw' & Hs & Hssl & Hf & Hc & Ec & Er & Ei). apply wpf_bind, wpf_on_conn. unfold wpf at 1, gets.
  cbn [fst snd]. rewrite Hf, Hc, !tk_rev_prefix. apply wpf_bind, close_each_closes. intros y' Hy.
  apply free_each_wp. intros t' Ht. apply HQ; [|done|done]. by split_and!.
Qed.

Lemma conn_unlink freed c x : conn_ok freed c -> conn_ok freed (c <| c_ssl := 0 |> <| c_ssl_ctx := x |>).
Proof.
  intros (Hq & [(Hl & Hs & Hn & Hf & H0) Hc] & Hst & Hfi). split; [exact Hq|]. split; [|by split]. split; [|exact Hc].
  split; [exact Hl|]. split; [exact Hs|]. rewrite owners_cons. cbn [c_ssl c_additional upd]. rewrite decide_True by done.
  rewrite owners_cons in Hn, Hf. apply NoDup_app in Hn as (_ & _ & Hn). apply Forall_app in Hf as [_ Hf]. done.
Qed.

(** A TLS object stands behind the primary link's context. *)
Definition paired (c : connection) : Prop := c_ssl c <> 0 -> c_ssl_ctx c <> 0.

Definition primary (c : connection) : list Z := if decide (c_ssl c = 0) then [] else [c_ssl c].

Definition retired cw cw' : Prop :=
  world_ok good cw' /\ w_rudp cw' = w_rudp cw /\ w_in cw' = w_in cw /\ w_freed cw' = primary (w_conn cw) ++ w_freed cw /\
  exists x, w_conn cw' = (w_conn cw) <| c_ssl := 0 |> <| c_ssl_ctx := x |>.

Lemma retire_wp Q cw s y t pr tr uo id sn : world_ok good cw -> paired (w_conn cw) ->
  (forall cw' t', retired cw cw' -> freed_of (primary (w_conn cw)) t t' -> Q tt (N cw' s y t' pr tr uo id sn)) ->
  wpf F retire_primary Q (N cw s y t pr tr uo id sn).
Proof.
  intros Hw Hp HQ. set (c := w_conn cw) in *. unfold retire_primary. apply wpf_the_conn. fold c. apply wpf_when; intros E; unfold primary in *.
  - assert (Hs : c_ssl c <> 0) by lia. rewrite decide_False in HQ by done.
    set (x := if c_ssl_ctx c =? c_ssl c then 0 else c_ssl_ctx c). set (v := cw <| w_conn := c <| c_ssl := 0 |> <| c_ssl_ctx := x |> |>).
    assert (Hv : world_ok good v) by (apply world_same; [done|]; apply conn_unlink; apply Hw).
    destruct Hw as ((Hq & [(Hl & Hsl & Hn & Hf & H0) Hc] & Hst & Hfi) & Hi & Hg). fold c in Hn, Hf, H0. rewrite owners_cons, decide_False in Hn, Hf by done.
    apply NoDup_cons in Hn as [Hn _]. apply Forall_cons in Hf as [Hf _].
    apply wpf_bind, wpf_set_conn. fold c x v. apply wpf_on_d. unfold ssl_destroy_ctx. apply wpf_bind, wpf_on_conn. unfold ssl_destroy.
    apply wpf_bind. unfold wpf at 1, deref_ssl. rewrite decide_False by done. unfold wpf, modify.
    set (u := v <| w_freed := _ |>).
    assert (Hgo : wpf F (on_tls (ssl_free (c_ssl c))) (fun a d' => Q a (NWorld d' tr uo id sn)) (W u s y t pr)); [|exact Hgo].
    apply wpf_on_tls. unfold ssl_free. apply wp_modify. apply HQ.
    + split; [|split; [done|]; split; [done|]; split; [by unfold primary; rewrite decide_False|by exists x]]. apply world_freed; [done..|]. unfold v. cbn [w_conn upd].
      rewrite owners_cons. cbn [c_ssl c_additional upd]. by rewrite decide_True.
    + split; [|done]. cbn. apply without_cons.
  - assert (Hs : c_ssl c = 0) by (destruct (decide (c_ssl c = 0)); [done|]; specialize (Hp ltac:(done)); lia).
    rewrite decide_True in HQ by done. apply HQ; [|apply freed_nil].
    split; [done|]. split; [done|]. split; [done|]. split; [unfold primary; fold c; by rewrite decide_True|].
    exists (c_ssl_ctx c). fold c. rewrite <- Hs. by destruct c.
Qed.

(** ** The disconnect *)

Definition live_state (st : softether_state) : bool :=
  negb (bool_decide (st = STATE_DISCONNECTED) || bool_decide (st = STATE_DISCONNECTING)).

(** Nothing is held any more. *)
Definition link_free (w : nworld U) : Prop :=
  c_socket_fd (n_conn w) < 0 /\ c_ssl (n_conn w) = 0 /\ Forall slot_empty (c_additional (n_conn w)) /\ n_transport w = None.

(** What a disconnect has released. *)
Record released (w w' : nworld U) : Prop := {
  re_ok : world_ok good (n_cw w'); re_state : c_state (n_conn w') = STATE_DISCONNECTED; re_free : link_free w';
  re_rudp : w_rudp (n_cw w') = None; re_in : w_in (n_cw w') = w_in (n_cw w);
  re_session : n_session w' = (n_session w) <| s_using_nat_t := false |>;
  re_ids : n_session_id w' = 0 /\ n_sequence_num w' = 0; re_uo : n_udp_only w' = n_udp_only w;
  re_freed : w_freed (n_cw w') ≡ₚ owners (n_conn w) ++ w_freed (n_cw w);
  re_closed : closed_of (closings w) (n_os w) (n_os w');
  re_objects : freed_of (owners (n_conn w)) (n_tls w) (n_tls w') }.

Lemma freed_perm a b t t' : a ≡ₚ b -> freed_of a t t' -> freed_of b t t'.
Proof.
  intros Hp (E & ?). split; [|done]. rewrite E. unfold without. apply list_filter_iff. intros y. by rewrite Hp.
Qed.

Lemma disconnect_wp cw s y t pr tr uo id sn : let w := N cw s y t pr tr uo id sn in
  world_ok good cw -> paired (w_conn cw) -> live_state (c_state (w_conn cw)) = true ->
  wpf F softether_disconnect (fun _ w' => released w w') w.
Proof.
  intros w Hw Hp Hl. subst w. unfold softether_disconnect. apply wpf_the_conn.
  apply negb_true_iff in Hl. rewrite Hl. apply wpf_bind, wpf_set_conn, wpf_bind, wpf_set_conn.
  set (v := cw <| w_conn := (w_conn cw) <| c_state := STATE_DISCONNECTING |> <| c_additional_connecting := false |> |>).
  assert (Hv : world_ok good v) by (apply world_same; [done|]; apply Hw).
  assert (Hgo : forall v' y', world_ok good v' -> w_conn v' = (w_conn v) <| c_socket_fd := c_socket_fd (w_conn v') |> ->
    c_socket_fd (w_conn v') < 0 -> w_rudp v' = w_rudp v -> w_in v' = w_in v -> w_freed v' = w_freed v ->
    closed_of (fd_list (c_socket_fd (w_conn cw))) y y' ->
    wpf F (on_d close_links ;; retire_primary ;; drop_transport ;; using_nat_t false ;; take_rudp_ctx ;;
      set_conn (fun c => c <| c_rudp_enabled := false |> <| c_state := STATE_DISCONNECTED |>) ;;
      modify (fun w => w <| n_session_id := 0 |> <| n_sequence_num := 0 |>))
      (fun _ w' => released (N cw s y t pr tr uo id sn) w') (N v' s y' t pr tr uo id sn)).
  { intros v' y1 Hv' Ec Hfd Er Ei Ef Hy1. apply wpf_bind, wpf_on_d, close_links_wp; [done|].
    intros v2 y2 t2 (H2 & Hs2 & Ec2 & Ef2 & Er2 & Ei2) Hy2 Ht2. apply wpf_bind, retire_wp; [done| |].
    { rewrite Ec2, Ec. exact Hp. }
    intros v3 t3 (H3 & Er3 & Ei3 & Ef3 & x & Ec3) Ht3. apply wpf_bind, drop_wp. intros y3 Hy3.
    assert (Ea : c_additional (w_conn v') = c_additional (w_conn cw)) by (by rewrite Ec).
    assert (Es : primary (w_conn v2) = primary (w_conn cw)) by (by rewrite Ec2, Ec).
    assert (Eo : ctxs (c_additional (w_conn cw)) ++ primary (w_conn cw) ≡ₚ owners (w_conn cw)) by (by rewrite owners_cons, Permutation_app_comm).
    apply wpf_bind. unfold using_nat_t. apply wpf_set_session. apply wpf_bind, wpf_on_d, wpf_on_conn. unfold wpf at 1, modify.
    apply wpf_bind, wpf_set_conn. unfold wpf, modify. split; unfold n_conn, n_cw, n_session, n_os, n_tls, link_free; cbn.
    - destruct H3 as (? & ? & ?). by split_and!.
    - done.
    - rewrite Ec3. cbn. split; [by rewrite Ec2|]. split; [done|]. by split.
    - done.
    - by rewrite Ei3, Ei2, Ei.
    - done.
    - done.
    - done.
    - rewrite Ef3, Ef2, Ef, Ea, Es, app_assoc, <- Eo. f_equiv; [|done]. rewrite Permutation_app_comm. by rewrite <- Permutation_rev.
    - unfold closings, n_conn, n_cw. cbn. unfold slot_fds in *. rewrite Ea in Hy2. eapply closed_app; [done|]. by eapply closed_app.
    - eapply freed_perm; [exact Eo|]. rewrite Ea in Ht2. rewrite Es in Ht3. by eapply freed_app. }
  apply wpf_bind, wpf_when; intros Efd.
  - apply wpf_bind, wpf_set_conn, wpf_on_d, close_one. intros y' Hy'. apply Hgo; try done.
    fold v. unfold fd_list. by replace (_ <? 0) with false by lia.
  - apply (Hgo v y); try done; [cbn; lia|]. unfold fd_list. replace (_ <? 0) with true by lia. apply closed_nil.
Qed.

(** A second disconnect changes nothing. *)
Lemma disconnect_idle (w : nworld U) : live_state (c_state (n_conn w)) = false -> softether_disconnect w = Ok (tt, w).
Proof.
  destruct w as [[[cw s] y t pr] tr uo id sn]. intros E%negb_false_iff.
  assert (Hw : wpf False softether_disconnect (fun _ w' => w' = N cw s y t pr tr uo id sn) (N cw s y t pr tr uo id sn)).
  { unfold softether_disconnect. apply wpf_bind. change (wpf False (the_conn) ?P ?w) with (P (w_conn cw) w).
    change (c_state (n_conn (N cw s y t pr tr uo id sn))) with (c_state (w_conn cw)) in E. cbv beta. by rewrite E. }
  unfold wpf in Hw. destruct (softether_disconnect _) as [| |[[] w']]; [done|done|by rewrite Hw].
Qed.
End teardown.
