(* ===== verification/ConnectInv.v ===== *)
(** * The connect keeps account of what it opens

    [account O T w] says which descriptors and TLS objects are alive: those the
    connection can reach, [held] and [owners], and those that were there
    before, [O] and [T]. Every stage of the connect keeps it, so that none is
    lost. [in0] is what the channels held at the start: the stages read on, and
    a fault of one of them is due to bytes that were there. *)
From stdpp Require Import functions strings.
From S2P Require Import Prelude Bytes Ring Pack Crypto Conn ConnInv WorldInv Tunnel TunnelInv.
From S2P Require Import TcpSocket TcpSocketSpec Http HttpSpec LoginPack LoginPackSpec Login LoginInv LoginSpec LoginFrame Dial Additional AdditionalSpec HandshakeSpec.
From S2P Require Import Lifecycle LifecycleInv.

(** The descriptors the connection can reach. *)
Definition held {U} (w : nworld U) : list Z :=
  match n_transport w with Some _ => transport_fds (n_transport w) | None => fd_list (c_socket_fd (n_conn w)) end ++ slot_fds (n_conn w).

(** A transport has its three descriptors; its byte stream is the primary link. *)
Definition transport_ok {U} (w : nworld U) : Prop :=
  match n_transport w with
  | None => True
  | Some tr => 0 <= tr_worker tr /\ 0 <= tr_app tr /\ 0 <= tr_udp tr /\ c_socket_fd (n_conn w) = tr_app tr
  end.

Definition later (in0 in1 : chan -> list rd_event) : Prop := forall ch, rtc read_on (in0 ch) (in1 ch).

Class AccelStartLaws (U : Type) `{AccelStart U} (good : U -> Prop) := {
  st_init_client_good key size ip port sc cc u : good u -> len key = 128 ->
    exists r u', st_init_client key size ip port sc cc u = Ok (r, u') /\ good u';
  st_set_version_good v u : good u -> good (st_set_version v u) }.

Section account.
Context {U : Type} (good : U -> Prop) `{HO : OpenSSL} (in0 : chan -> list rd_event).
Implicit Types w : nworld U.

Record account (O T : list Z) w : Prop := {
  ac_world : world_ok good (n_cw w); ac_session : session_ok (n_session w);
  ac_nodup : NoDup (y_open (n_os w)); ac_fds : y_open (n_os w) ≡ₚ held w ++ O;
  ac_once : NoDup (t_ssl (n_tls w)); ac_objects : t_ssl (n_tls w) ≡ₚ owners (n_conn w) ++ T;
  ac_fresh : fresh_contexts (n_cw w) (n_tls w); ac_paired : paired (n_conn w);
  ac_transport : transport_ok w; ac_in : later in0 (w_in (n_cw w)) }.

Lemma held_free w : link_free w -> held w = [].
Proof.
  intros (Hfd & _ & Hs & Ht). unfold held. rewrite Ht, slots_empty_fds by done. unfold fd_list. by replace (_ <? 0) with true by lia.
Qed.
Lemma owners_free c : c_ssl c = 0 -> Forall slot_empty (c_additional c) -> owners c = [].
Proof. intros E Hs. by rewrite owners_cons, slots_empty_ctxs, decide_True. Qed.

(** Nothing is left but what was there before. *)
Lemma account_free O T w : account O T w -> link_free w -> y_open (n_os w) ≡ₚ O /\ t_ssl (n_tls w) ≡ₚ T.
Proof.
  intros [] Hl. rewrite held_free in ac_fds0 by done. destruct Hl as (_ & E & Hs & _).
  rewrite owners_free in ac_objects0 by done. done.
Qed.

Lemma closings_held w : transport_ok w -> forall fd, fd ∈ closings w <-> fd ∈ held w.
Proof.
  intros Ht fd. unfold closings, held, transport_ok in *. destruct (n_transport w) as [tr|]; cbn [transport_fds].
  - destruct Ht as (_ & Ha & _ & ->). rewrite !elem_of_app. tauto.
  - rewrite !elem_of_app, elem_of_nil. tauto.
Qed.

Lemma fd_list_pos fd : 0 <= fd -> fd_list fd = [fd].
Proof. intros Hf. unfold fd_list. by replace (fd <? 0) with false by lia. Qed.

(** ** Stages *)

Context `{Hacc : Accelerator U} `{!AcceleratorLaws U good} (F : Prop).
Context (O T : list Z).
Abbreviation acc := (account O T).

(** Settings that no invariant reads. *)
Definition plain_conn (f : connection -> connection) : Prop := forall c,
  c_socket_fd (f c) = c_socket_fd c /\ c_ssl (f c) = c_ssl c /\ c_ssl_ctx (f c) = c_ssl_ctx c /\ c_additional (f c) = c_additional c /\
  forall freed, conn_ok freed c -> conn_ok freed (f c).

Definition with_conn f w : nworld U := w <| n_d := (n_d w) <| d_l := (d_l (n_d w)) <| l_world := (n_cw w) <| w_conn := f (n_conn w) |> |> |> |>.
Lemma account_conn f w : plain_conn f -> acc w -> acc (with_conn f w).
Proof.
  intros Hf []. destruct (Hf (n_conn w)) as (E1 & E2 & E3 & E4 & Hok).
  assert (Eo : owners (f (n_conn w)) = owners (n_conn w)) by (unfold owners; by rewrite E2, E4).
  assert (En : n_conn (with_conn f w) = f (n_conn w)) by done.
  split; try done.
  - apply world_same; [done|]. apply Hok, ac_world0.
  - change (n_os (with_conn f w)) with (n_os w). rewrite ac_fds0. unfold held, slot_fds. by rewrite En, E1, E4.
  - change (n_tls (with_conn f w)) with (n_tls w). by rewrite En, Eo.
  - intros n Hn. specialize (ac_fresh0 n Hn). change (w_conn (n_cw (with_conn f w))) with (f (n_conn w)). by rewrite Eo.
  - unfold paired. by rewrite En, E2, E3.
  - unfold transport_ok. by rewrite En, E1.
Qed.

Definition with_session f w : nworld U := w <| n_d := (n_d w) <| d_l := (d_l (n_d w)) <| l_session := f (n_session w) |> |> |>.
Lemma account_session f w : session_ok (f (n_session w)) -> acc w -> acc (with_session f w).
Proof. intros Hf []. by split. Qed.

Lemma disconnect_account w : acc w -> c_state (n_conn w) <> STATE_DISCONNECTING ->
  wpf F softether_disconnect (fun _ w' => acc w' /\ c_state (n_conn w') = STATE_DISCONNECTED /\
    s_timeout_ms (n_session w') = s_timeout_ms (n_session w) /\ n_udp_only w' = n_udp_only w /\
    if live_state (c_state (n_conn w)) then link_free w' else w' = w) w.
Proof.
  intros Ha Hst. destruct (live_state (c_state (n_conn w))) eqn:El.
  - destruct w as [[[cw s] y t pr] tr uo id sn]. destruct Ha. eapply wpf_mono; [by apply (disconnect_wp good)|]. intros [] w' [].
    destruct re_closed as [_ Eop]. destruct re_objects as (Eob & Ec & _).
    assert (Ho0 : owners (n_conn w') = []) by (apply owners_free; apply re_free).
    split; [|split; [done|]; rewrite re_session; by split_and!].
    split; try done.
    + rewrite re_session. revert ac_session0. session_set.
    + rewrite Eop. by apply NoDup_filter.
    + rewrite held_free by done. rewrite Eop. eapply without_part; [done|exact ac_fds0|]. by apply closings_held.
    + rewrite Eob. by apply NoDup_filter.
    + rewrite Ho0, Eob. by eapply without_part.
    + intros n Hn. rewrite Ec in Hn. intros p Hp. destruct (ac_fresh0 n Hn Hp) as (H1 & H2 & H3). fold p in H1, H2, H3. fold (n_conn w'). rewrite Ho0.
      split; [rewrite re_freed, elem_of_app; tauto|]. split; [by intros ?%elem_of_nil|]. rewrite Eob. unfold without.
      rewrite list_elem_of_filter. tauto.
    + intros Hs. by destruct re_free as (_ & ? & _).
    + unfold transport_ok. by destruct re_free as (_ & _ & _ & ->).
    + by rewrite re_in.
  - assert (E : c_state (n_conn w) = STATE_DISCONNECTED).
    { unfold live_state in El. apply negb_false_iff, orb_true_iff in El as [El|El]; by apply bool_decide_eq_true in El. }
    unfold wpf. by rewrite disconnect_idle.
Qed.

(** A context is numbered by its allocation. *)
Hypothesis calloc_new : forall m n, o_calloc m <> 0 -> o_calloc m = o_calloc n -> m = n.
Context `{HK : Kernel} `{!KernelLaws}.

Lemma allocated_new t t' ctx n : allocated t t' ctx -> (t_calls t' <= n)%nat -> o_calloc n <> 0 -> o_calloc n <> ctx.
Proof. intros (m & Hm & ->) Hn Hp E. apply calloc_new in E; [lia|done]. Qed.

(** The way to the server stays. *)
Definition same_path w w' : Prop :=
  n_transport w' = n_transport w /\ c_socket_fd (n_conn w') = c_socket_fd (n_conn w) /\
  c_additional (n_conn w') = c_additional (n_conn w) /\ n_udp_only w' = n_udp_only w.
Lemma held_path w w' : same_path w w' -> held w' = held w.
Proof. intros (E1 & E2 & E3 & _). unfold held, slot_fds. by rewrite E1, E2, E3. Qed.
Lemma transport_path w w' : same_path w w' -> transport_ok w -> transport_ok w'.
Proof. intros (E1 & E2 & _). unfold transport_ok. by rewrite E1, E2. Qed.

Lemma handshake_account w : acc w -> c_ssl (n_conn w) = 0 ->
  wpf F (on_d perform_tls_handshake) (fun r w' => acc w' /\ same_path w w' /\ n_session w' = n_session w /\
    c_state (n_conn w') = (if c_socket_fd (n_conn w) <? 0 then c_state (n_conn w) else STATE_TLS_HANDSHAKE) /\
    (r = ERR_NONE -> c_ssl (n_conn w') <> 0) /\ (r <> ERR_NONE -> c_ssl (n_conn w') = 0)) w.
Proof.
  intros [] Ez. destruct w as [[[cw s] y t pr] tr uo id sn]. apply wpf_on_d.
  eapply wpf_mono; [eapply (wpf_weaken False); [done|]; by apply (handshake_wp good)|].
  intros r d (cw' & y' & t' & -> & Hw' & (st & ctx & ssl & Ec & Est & Er & Ei) & Eo & _ & Hcalls & Hres).
  set (w := NWorld (DWorld (LWorld cw s) y t pr) tr uo id sn) in *. set (w' := NWorld (DWorld (LWorld cw' s) y' t' pr) tr uo id sn).
  assert (En : n_conn w' = (n_conn w) <| c_state := st |> <| c_ssl_ctx := ctx |> <| c_ssl := ssl |>) by exact Ec.
  assert (Hpath : same_path w w') by (unfold same_path; by rewrite En).
  assert (Hsl : forall c, c_additional (n_conn w') = c_additional c -> c_ssl (n_conn w') = c_ssl c -> owners (n_conn w') = owners c) by (intros c E1 E2; unfold owners; by rewrite E1, E2).
  assert (Hst : c_state (n_conn w') = if c_socket_fd (n_conn w) <? 0 then c_state (n_conn w) else STATE_TLS_HANDSHAKE) by (rewrite En; exact Est).
  destruct (decide (r = ERR_NONE)) as [Hr|Hr].
  - destruct Hres as (p & Hp & Hal & Es & Ex & Et & Ef). change (w_conn cw') with (n_conn w') in Es, Ex.
    assert (Eow : owners (n_conn w') = p :: owners (n_conn w)).
    { rewrite !owners_cons, Es, Ez, decide_False, decide_True by done. cbn. by destruct Hpath as (_ & _ & -> & _). }
    split; [|split; [done|]; split; [done|]; split; [done|]; split; [by rewrite Es|done]].
    destruct Hal as (m & Hm & Epm). destruct (ac_fresh0 m ltac:(exact (proj1 Hm)) ltac:(by rewrite <- Epm)) as (Hf1 & Hf2 & Hf3). rewrite <- Epm in Hf1, Hf2, Hf3.
    split; try done.
    + change (n_os w') with y'. by rewrite Eo.
    + change (n_os w') with y'. rewrite Eo, (held_path w) by done. exact ac_fds0.
    + change (n_tls w') with t'. rewrite Et. by constructor.
    + change (n_tls w') with t'. rewrite Et, Eow. cbn. by constructor.
    + intros n Hn q Hq. destruct (ac_fresh0 n ltac:(cbn; cbn in Hn; lia) Hq) as (H1 & H2 & H3). fold q in H1, H2, H3.
      assert (Hne : q <> p) by (eapply allocated_new; [exists m; split; [exact Hm|exact Epm]|exact Hn|done]).
      change (n_cw w') with cw'. rewrite Ef. change (w_conn cw') with (n_conn w'). rewrite Eow. change (n_tls w') with t'. rewrite Et.
      split; [done|]. split; by apply not_elem_of_cons.
    + intros _. by rewrite Ex.
    + by eapply transport_path.
    + change (n_cw w') with cw'. by rewrite Ei.
  - destruct Hres as (_ & Es & Et & Hfr). change (w_conn cw') with (n_conn w') in Es.
    assert (Eow : owners (n_conn w') = owners (n_conn w)) by (apply Hsl; [by destruct Hpath as (_ & _ & -> & _)|by rewrite Ez]).
    split; [|split; [done|]; split; [done|]; split; [done|]; split; [done|by rewrite Es]].
    split; try done.
    + change (n_os w') with y'. by rewrite Eo.
    + change (n_os w') with y'. rewrite Eo, (held_path w) by done. exact ac_fds0.
    + change (n_tls w') with t'. by rewrite Et.
    + change (n_tls w') with t'. by rewrite Et, Eow.
    + intros n Hn q Hq. destruct (ac_fresh0 n ltac:(cbn; cbn in Hn; lia) Hq) as (H1 & H2 & H3). fold q in H1, H2, H3.
      change (w_conn (n_cw w')) with (n_conn w'). rewrite Eow. change (n_tls w') with t'. rewrite Et. split; [|done].
      change (n_cw w') with cw'. destruct Hfr as [[-> _]|(p & Hal & -> & _)]; [done|]. apply not_elem_of_cons. split; [|done].
      by eapply allocated_new.
    + by intros ?.
    + by eapply transport_path.
    + change (n_cw w') with cw'. by rewrite Ei.
Qed.

(** ** The login *)

Context `{HS : AccelSetup U} `{!AccelSetupLaws U good}.
Context (crand : nat -> Z) (malloc_ok : Z -> bool) (stack : Z -> list Z) (addr : Z) (sha1 : list Z -> list Z)
        (inet_addr : list Z -> Z) (local_port : Z -> option Z) (http_date : list Z).
Hypothesis Henv : login_env crand stack addr sha1 http_date.

(** Bytes that make an answer be searched beyond its end lie in a channel. *)
Definition peer_fault : Prop := exists ch s, rtc read_on (in0 ch) s /\ (login_fault (all_data s) \/ unterminated stack (all_data s)).
Hypothesis HF : peer_fault -> F.

Lemma wpf_on_login {A} (m : St (lworld U) A) Q l y t pr :
  wpf F m (fun a l' => Q a (DWorld l' y t pr)) l -> wpf F (on_login m) Q (DWorld l y t pr).
Proof. unfold wpf, on_login. cbn. by destruct (m l) as [| |[a l']]. Qed.
Lemma wpf_framed {X A} (R : X -> X -> Prop) (m : St X A) Q x : framed R m -> wpf F m Q x -> wpf F m (fun a x' => Q a x' /\ R x x') x.
Proof. unfold wpf. intros Hm. destruct (m x) as [| |[a x']] eqn:E; auto. intros HQ. split; [done|]. by eapply Hm. Qed.
Lemma wpf_wlp {X A} (m : St X A) P Q x : wlp m P x -> wpf F m Q x -> wpf F m (fun a x' => Q a x' /\ P a x') x.
Proof. unfold wpf. intros Hm. destruct (m x) as [| |[a x']] eqn:E; auto. Qed.

(** Without a TLS context no login succeeds. *)
Lemma login_linked host user password use_tcp (l : lworld U) : c_ssl (w_conn (l_world l)) = 0 ->
  wlp (softether_protocol_login crand malloc_ok stack addr sha1 inet_addr local_port http_date host user password use_tcp)
    (fun r _ => r <> ERR_NONE) l.
Proof.
  intros E. unfold softether_protocol_login. apply wlp_bind. intros a l1 Ea.
  assert (Hw : wpf False (send_vpnconnect_watermark malloc_ok stack addr host) (fun a _ => a = -1) l).
  { unfold send_vpnconnect_watermark. apply wpf_get_conn. by rewrite E. }
  unfold wpf in Hw. rewrite Ea in Hw. subst a. by eapply wlp_run.
Qed.

Lemma login_account host user password use_tcp w : acc w -> len host <= 800 -> small user -> small password ->
  wpf F (login crand malloc_ok stack addr sha1 inet_addr local_port http_date host user password use_tcp) (fun r w' =>
    acc w' /\ same_path w w' /\ same_setup (n_session w) (n_session w') /\ c_ssl (n_conn w') = c_ssl (n_conn w) /\
    (c_state (n_conn w') = c_state (n_conn w) \/ c_state (n_conn w') = STATE_AUTHENTICATING) /\
    (r = ERR_NONE -> c_ssl (n_conn w) <> 0)) w.
Proof.
  intros [] Hh Hu Hp. destruct w as [[[cw s] y t pr] tr uo id sn]. destruct Henv as [Hr Hst Ha Hs Hd].
  apply wpf_on_d, wpf_on_login.
  set (m := softether_protocol_login crand malloc_ok stack addr sha1 inet_addr local_port http_date host user password use_tcp).
  assert (Hgo : wpf F m (fun _ l' => login_inv good l') (LWorld cw s)).
  { apply (login_keeps_inv good); try done. intros Hf. apply HF. exists (Tls (c_ssl (w_conn cw))), (w_in cw (Tls (c_ssl (w_conn cw)))).
    split; [apply ac_in0|by left]. }
  assert (Hfr : framed aside_login m) by apply login_frame.
  assert (Hlk : wlp m (fun r _ => r = ERR_NONE -> c_ssl (w_conn cw) <> 0) (LWorld cw s)).
  { intros r l' El Er Ez. by destruct (login_linked host user password use_tcp (LWorld cw s) Ez r l' El). }
  eapply wpf_mono; [eapply wpf_wlp; [exact Hlk|eapply wpf_framed; [exact Hfr|exact Hgo]]|].
  intros r [cw' s'] [[[Hw' Hs'] [(E1 & E2 & E3 & E4 & E5 & E6 & _ & E8) Hset]] Hrn]. cbn in E1, E2, E3, E4, E5, E6, E8, Hset, Hw', Hs'.
  set (w := NWorld (DWorld (LWorld cw s) y t pr) tr uo id sn) in *. set (w' := NWorld (DWorld (LWorld cw' s') y t pr) tr uo id sn).
  assert (Hpath : same_path w w') by done.
  assert (Eo : owners (w_conn cw') = owners (w_conn cw)) by (unfold owners; by rewrite E2, E4).
  split; [|done]. split; try done.
  - rewrite (held_path w) by done. exact ac_fds0.
  - change (n_conn w') with (w_conn cw'). by rewrite Eo.
  - intros n Hn q Hq. change (n_cw w') with cw'. rewrite Eo, E6. by apply ac_fresh0.
  - unfold paired. change (n_conn w') with (w_conn cw'). by rewrite E2, E3.
  - by eapply transport_path.
  - intros ch. change (n_cw w') with cw'. by transitivity (w_in cw ch).
Qed.

(** ** A transport *)

Implicit Types (cw : cworld U) (s : session) (y : os) (t : tls) (pr uo : bool) (tr : transport).
Abbreviation W cw s y t pr := (DWorld (LWorld cw s) y t pr).
Abbreviation N cw s y t pr tr uo id sn := (NWorld (W cw s y t pr) tr uo id sn).

Lemma account_os cw s y t pr (tr : option transport) uo id sn y' : acc (N cw s y t pr tr uo id sn) -> NoDup (y_open y') -> y_open y' ≡ₚ y_open y ->
  acc (N cw s y' t pr tr uo id sn).
Proof. intros [] Hn Hp. split; try done. change (y_open y' ≡ₚ held (N cw s y t pr tr uo id sn) ++ O). by rewrite Hp. Qed.
Lemma account_tls cw s y t pr (tr : option transport) uo id sn t' : acc (N cw s y t pr tr uo id sn) -> t_ssl t' = t_ssl t -> (t_calls t <= t_calls t')%nat ->
  acc (N cw s y t' pr tr uo id sn).
Proof.
  intros [] Ht Hc. split; try done.
  - change (NoDup (t_ssl t')). by rewrite Ht.
  - change (t_ssl t' ≡ₚ owners (w_conn cw) ++ T). by rewrite Ht.
  - intros n Hn q Hq. change (t_ssl (n_tls _)) with (t_ssl t'). rewrite Ht. apply ac_fresh0; [cbn; cbn in Hn; lia|done].
Qed.

Definition connected (tr : transport) : Prop := 0 <= tr_worker tr /\ 0 <= tr_app tr /\ 0 <= tr_udp tr.

Lemma account_transport cw s y t pr uo id sn tr y' : acc (N cw s y t pr None uo id sn) -> link_free (N cw s y t pr None uo id sn) ->
  connected tr -> NoDup (y_open y') -> y_open y' ≡ₚ transport_fds (Some tr) ++ y_open y ->
  acc (N (cw <| w_conn := (w_conn cw) <| c_socket_fd := tr_app tr |> |>) (s <| s_using_nat_t := true |>) y' t pr (Some tr) uo id sn).
Proof.
  intros Ha Hl (H1 & H2 & H3) Hn Hp. destruct (account_free _ _ _ Ha Hl) as [Ho _]. destruct Ha. split; try done.
  - revert ac_session0. session_set.
  - change (y_open y' ≡ₚ (transport_fds (Some tr) ++ slot_fds (w_conn cw)) ++ O). rewrite Hp. change (y_open y ≡ₚ O) in Ho.
    rewrite Ho, slots_empty_fds by apply Hl. by rewrite app_nil_r.
Qed.

Lemma account_context cw s y t pr (tr : option transport) uo id sn n t' : let ctx := o_calloc n in acc (N cw s y t pr tr uo id sn) -> c_ssl (w_conn cw) = 0 ->
  ctx <> 0 -> (t_calls t <= n)%nat -> (n < t_calls t')%nat -> t_ssl t' = ctx :: t_ssl t ->
  acc (N (cw <| w_conn := (w_conn cw) <| c_ssl_ctx := ctx |> <| c_ssl := ctx |> |>) s y t' pr tr uo id sn).
Proof.
  intros ctx [] Ez Hne Hn Hn' Et. destruct (ac_fresh0 n Hn Hne) as (Hf1 & Hf2 & Hf3). fold ctx in Hf1, Hf2, Hf3.
  change (ctx ∉ w_freed cw) in Hf1. change (ctx ∉ owners (w_conn cw)) in Hf2. change (ctx ∉ t_ssl t) in Hf3.
  set (c' := (w_conn cw) <| c_ssl_ctx := ctx |> <| c_ssl := ctx |>).
  assert (Eow : owners c' = ctx :: owners (w_conn cw)).
  { rewrite !owners_cons. unfold c'. cbn [c_ssl c_additional upd]. by rewrite Ez, decide_False, decide_True. }
  split; try done.
  - apply world_same; [done|]. apply (conn_primary _ (w_conn cw) ctx (c_state (w_conn cw))); try done. apply ac_world0.
  - change (NoDup (t_ssl t')). rewrite Et. by constructor.
  - change (t_ssl t' ≡ₚ owners c' ++ T). rewrite Et, Eow. cbn. by constructor.
  - intros m Hm q Hq. destruct (ac_fresh0 m ltac:(cbn; cbn in Hm; lia) Hq) as (H1 & H2 & H3). fold q in H1, H2, H3.
    assert (Hqc : q <> ctx) by (apply (allocated_new t t'); [by exists n|exact Hm|done]).
    change ((q ∉ w_freed cw) /\ (q ∉ owners c') /\ (q ∉ t_ssl t')). rewrite Eow, Et. split; [done|]. split; by apply not_elem_of_cons.
  - by intros _.
Qed.

Lemma close_if_owned fd others Q cw s y t pr : owns fd others y -> (forall y', owns (-1) others y' -> Q tt (W cw s y' t pr)) ->
  wpf F (close_if fd) Q (W cw s y t pr).
Proof.
  intros Ho HQ. unfold close_if. apply wpf_when; intros E.
  - apply wpf_on_os. eapply wp_mono; [apply (close_wp fd others); [done|lia]|]. intros [] y' [_ Hy]. by apply HQ.
  - apply HQ. destruct Ho as [? Hp]. split; [done|]. unfold fd_list in *. by replace (fd <? 0) with true in Hp by lia.
Qed.

Lemma owns_weak fd others y : owns fd others y -> 0 <= fd -> owns (-1) (fd :: others) y.
Proof. intros [Hn Hp] Hf. split; [done|]. unfold fd_list in *. by replace (fd <? 0) with false in Hp by lia. Qed.
Lemma owns_none fd others y : owns fd others y -> fd < 0 -> owns (-1) others y.
Proof. intros [Hn Hp] Hf. split; [done|]. unfold fd_list in *. by replace (fd <? 0) with true in Hp by lia. Qed.
Lemma owns_again fd others others' y : owns (-1) others y -> 0 <= fd -> others ≡ₚ fd :: others' -> owns fd others' y.
Proof. intros [Hn Hp] Hf E. split; [done|]. unfold fd_list in *. replace (fd <? 0) with false by lia. cbn in *. by rewrite Hp. Qed.

Lemma socket_owned {B} family type others (f : Z -> St (dworld U) B) Q cw s y t pr : owns (-1) others y ->
  (forall fd y', owns fd others y' -> wpf F (f fd) Q (W cw s y' t pr)) -> wpf F (on_os (sys_socket family type) ≫= f) Q (W cw s y t pr).
Proof.
  intros Ho HQ. apply wpf_bind, wpf_on_os. eapply wp_mono; [by apply (sys_socket_wp family type others)|]. intros fd y' (_ & Hy & _). by apply HQ.
Qed.

Lemma open_transport_wp Q cw s y t pr : NoDup (y_open y) ->
  (forall r y', NoDup (y_open y') -> match r with Some tr => connected tr /\ y_open y' ≡ₚ transport_fds (Some tr) ++ y_open y
    | None => y_open y' ≡ₚ y_open y end -> Q r (W cw s y' t pr)) -> wpf F open_transport Q (W cw s y t pr).
Proof.
  intros Hn HQ. set (B := y_open y) in *. assert (Ho : owns (-1) B y) by done.
  assert (Hnone : forall y', owns (-1) B y' -> Q None (W cw s y' t pr)) by (intros y' [? ?]; by apply HQ).
  unfold open_transport. eapply socket_owned; [done|]. intros udp y1 H1. apply wpf_if; intros Eu.
  { apply wpf_ret, Hnone. eapply owns_none; [done|lia]. }
  assert (H1' := owns_weak _ _ _ H1 ltac:(lia)). eapply socket_owned; [done|]. intros a y2 H2. apply wpf_if; intros Ea.
  { apply wpf_bind. apply (close_if_owned udp B).
    - eapply owns_again; [eapply owns_none; [done|lia]|lia|done].
    - intros y3 H3. by apply wpf_ret, Hnone. }
  assert (H2' := owns_weak _ _ _ H2 ltac:(lia)). eapply socket_owned; [done|]. intros b y3 H3. apply wpf_if; intros Eb.
  { apply wpf_bind. apply (close_if_owned udp (a :: B)).
    - eapply owns_again; [eapply owns_none; [done|lia]|lia|]. apply Permutation_swap.
    - intros y4 H4. apply wpf_bind. apply (close_if_owned a B); [eapply owns_again; [done|lia|done]|].
      intros y5 H5. by apply wpf_ret, Hnone. }
  apply wpf_ret. destruct H3 as [Hn3 Hp3]. apply HQ; [done|]. split; [by split_and!; cbn; lia|].
  rewrite Hp3. cbn [transport_fds tr_worker tr_app tr_udp]. rewrite !fd_list_pos by lia. apply Permutation_swap.
Qed.

Lemma destroy_transport_wp Q B tr cw s y t pr (otr : option transport) uo id sn : NoDup (y_open y) -> y_open y ≡ₚ transport_fds (Some tr) ++ B ->
  connected tr -> (forall y', owns (-1) B y' -> Q tt (N cw s y' t pr otr uo id sn)) ->
  wpf F (rudp_transport_destroy tr) Q (N cw s y t pr otr uo id sn).
Proof.
  intros Hn Hp (H1 & H2 & H3) HQ. cbn [transport_fds] in Hp. rewrite !fd_list_pos in Hp by done. cbn in Hp.
  unfold rudp_transport_destroy. apply wpf_on_d, wpf_bind, (close_if_owned _ (tr_app tr :: tr_udp tr :: B)).
  { by eapply owns_again; [split; [exact Hn|exact Hp]| |]. }
  intros y1 Hy1. apply wpf_bind, (close_if_owned _ (tr_udp tr :: B)); [by eapply owns_again|].
  intros y2 Hy2. apply (close_if_owned _ B); [by eapply owns_again|exact HQ].
Qed.

Context `{HT : Transports}.

(** A transport carries the primary link. *)
Definition carried w : Prop := is_Some (n_transport w) /\ s_using_nat_t (n_session w) = true /\ 0 <= c_socket_fd (n_conn w) /\
  Forall slot_empty (c_additional (n_conn w)).
(** What the stages that reach the server leave alone. *)
Definition same_base w w' : Prop :=
  c_state (n_conn w') = c_state (n_conn w) /\ n_udp_only w' = n_udp_only w /\ s_timeout_ms (n_session w') = s_timeout_ms (n_session w).

Lemma race_account w : acc w -> link_free w ->
  wpf F softether_connect_parallel_race (fun r w' => acc w' /\ same_base w w' /\
    if decide (r = ERR_NONE) then carried w' /\ c_ssl (n_conn w') <> 0
    else link_free w' /\ n_session w' = n_session w) w.
Proof.
  intros Ha Hl. destruct w as [[[cw s] y t pr] tr uo id sn]. assert (tr = None) as -> by apply Hl.
  unfold softether_connect_parallel_race. apply wpf_bind, wpf_on_d, wpf_on_os, wp_sys.
  set (y0 := upd y_calls _ y). assert (H0 : acc (N cw s y0 t pr None uo id sn)) by (by eapply account_os; [exact Ha|apply Ha|]).
  clearbody y0. clear Ha. set (w0 := N cw s y t pr None uo id sn) in *.
  assert (Hfail : forall y' t', NoDup (y_open y') -> y_open y' ≡ₚ y_open y0 -> t_ssl t' = t_ssl t -> (t_calls t <= t_calls t')%nat ->
    acc (N cw s y' t' pr None uo id sn) /\ same_base w0 (N cw s y' t' pr None uo id sn) /\
    link_free (N cw s y' t' pr None uo id sn) /\ n_session (N cw s y' t' pr None uo id sn) = n_session w0).
  { intros y' t' Hn Hp Et Hc. split; [|by split]. eapply account_tls; [|done..]. by eapply account_os. }
  apply wpf_if; intros Ew; [apply wpf_ret; rewrite decide_False by done; apply Hfail; try done; apply H0|].
  apply wpf_bind, wpf_on_d, open_transport_wp; [apply H0|]. intros [tr|] y1 Hn1 Hr.
  2:{ apply wpf_ret. rewrite decide_False by done. by apply Hfail. }
  destruct Hr as [Hc Hp]. apply wpf_bind, wpf_on_d, wpf_on_tls. unfold wp at 1, ossl. set (ctx := o_calloc (t_calls t)). set (t1 := upd t_calls _ t).
  apply wpf_if; intros Ex.
  { apply wpf_bind, (destroy_transport_wp _ (y_open y0)); try done. intros y2 [Hn2 Hp2]. apply wpf_ret.
    rewrite decide_False by done. apply Hfail; try done. unfold t1. cbn. lia. }
  apply wpf_bind, wpf_on_d, wpf_on_tls, wp_modify. set (t2 := upd t_ssl _ t1).
  assert (H1 : acc (N (cw <| w_conn := (w_conn cw) <| c_socket_fd := tr_app tr |> |>) (s <| s_using_nat_t := true |>) y1 t pr (Some tr) uo id sn)).
  { by eapply account_transport. }
  assert (Ez : c_ssl (w_conn cw) = 0) by apply Hl.
  apply (account_context _ _ _ _ _ _ _ _ _ (t_calls t) t2) in H1; [|done|unfold ctx in Ex; lia|lia|unfold t2, t1; cbn; lia|done].
  unfold adopt_transport. apply wpf_bind, wpf_bind. unfold wpf at 1, modify. apply wpf_bind. unfold using_nat_t. apply wpf_set_session, wpf_set_conn, wpf_bind, wpf_set_conn, wpf_ret.
  rewrite decide_True by done. split; [exact H1|]. split; [done|]. split; [|cbn; lia]. split; [done|]. split; [done|]. split; [apply Hc|apply Hl].
Qed.

Lemma nat_t_account ip w : acc w -> link_free w ->
  wpf F (softether_try_nat_t_connect ip) (fun r w' => acc w' /\ same_base w w' /\
    if decide (r = ERR_NONE) then carried w' /\ c_ssl (n_conn w') = 0 else link_free w' /\ n_session w' = n_session w) w.
Proof.
  intros Ha Hl. destruct w as [[[cw s] y t pr] tr uo id sn]. assert (tr = None) as -> by apply Hl.
  unfold softether_try_nat_t_connect. apply wpf_if; intros E; [by apply wpf_ret; rewrite decide_False by done|].
  apply wpf_bind, wpf_on_d, wpf_on_os, wp_sys.
  set (y0 := upd y_calls _ y). assert (H0 : acc (N cw s y0 t pr None uo id sn)) by (by eapply account_os; [exact Ha|apply Ha|]).
  clearbody y0. clear Ha.
  apply wpf_if; intros Ew; [by apply wpf_ret; rewrite decide_False by done|].
  apply wpf_bind, wpf_on_d, open_transport_wp; [apply H0|]. intros [tr|] y1 Hn1 Hr.
  2:{ apply wpf_ret. rewrite decide_False by done. split; [by eapply account_os|done]. }
  destruct Hr as [Hc Hp]. unfold adopt_transport. apply wpf_bind, wpf_bind. unfold wpf at 1, modify.
  apply wpf_bind. unfold using_nat_t. apply wpf_set_session, wpf_set_conn, wpf_ret. rewrite decide_True by done.
  split; [by eapply account_transport|]. split; [done|]. split; [|apply Hl]. split; [done|]. split; [done|]. split; [apply Hc|apply Hl].
Qed.

(** ** TCP *)

Context (polls fuel : nat).
Hypothesis Hpolls : settles polls.

Lemma resolve_family_quiet host family n y : wp (resolve_hostname_family host family n) (fun _ y' => quiet y y') y.
Proof.
  unfold resolve_hostname_family, first_address. wp_step; [by wp_step|]. wp_step; [by wp_step|]. wp_step; [by wp_step|].
  wp_step. apply wp_sys. destruct (k_getaddrinfo _ _ _ _) as [[|best l]|]; try by wp_step. all: by wp_step; wp_step.
Qed.
Lemma resolve_quiet host n y : wp (resolve_hostname host n) (fun _ y' => quiet y y') y.
Proof.
  unfold resolve_hostname, first_address. wp_step; [by wp_step|]. wp_step; [by wp_step|].
  wp_step. apply wp_sys. destruct (k_getaddrinfo _ _ _ _) as [[|best l]|]; try by wp_step. all: by wp_step; wp_step.
Qed.

Lemma dial_once_wp host port ms others sock y : (wait_fuel polls ms <= fuel)%nat -> owns (sk_fd sock) others y ->
  wp (socket_connect_timeout_cancel fuel host port ms true sock)
    (fun '(r, sock') y' => owns (sk_fd sock') others y' /\ (r = 0 -> 0 <= sk_fd sock')) y.
Proof.
  intros Hms Ho. eapply wp_mono; [by apply (connect_wp polls fuel ms true ltac:(done) host port others sock y)|].
  intros [r sock'] y' (tr & [_ Ho'] & _ & Hres). split; [done|]. intros Hr. rewrite decide_True in Hres by done.
  by destruct Hres as (ai & _ & (? & _) & _).
Qed.

Lemma dial_both_wp host port ms ip others sock y : (wait_fuel polls ms <= fuel)%nat -> owns (sk_fd sock) others y ->
  wp (dial_both fuel host port ms ip sock) (fun '(ok, sock', _) y' => owns (sk_fd sock') others y' /\ (ok = true -> 0 <= sk_fd sock')) y.
Proof.
  intros Hms Ho. unfold dial_both. wp_step. eapply wp_mono; [by apply (dial_once_wp host port ms others sock)|]. intros [r sock1] y1 [Ho1 Hr1].
  wp_step; [wp_step; split; [done|intros _; apply Hr1; lia]|].
  wp_step. eapply wp_mono; [apply resolve_family_quiet|]. intros [ip2|] y2 Hq; [|wp_step; split; [by eapply quiet_owns|done]].
  apply (quiet_owns (sk_fd sock1) others) in Hq; [|done]. wp_step; [by wp_step|].
  wp_step. eapply wp_mono; [by apply (dial_once_wp ip2 port ms others sock1)|]. intros [r2 sock2] y3 [Ho3 Hr3]. wp_step.
  destruct (r2 =? 0) eqn:E; (split; [done|]); [intros _; apply Hr3; lia|done].
Qed.

Lemma apply_timeout_open fd ms y : wp (socket_apply_timeout fd ms) (fun _ y' => y_open y' = y_open y) y.
Proof.
  unfold socket_apply_timeout, setsockopt. wp_step; [by wp_step|]. wp_step; [by wp_step|]. wp_step. wp_step. apply wp_note, wp_sys.
  wp_step. apply wp_sys. by wp_step.
Qed.

(** The descriptor of the primary link comes and goes. *)
Lemma account_primary cw s y t pr uo id sn fd y' : acc (N cw s y t pr None uo id sn) -> link_free (N cw s y t pr None uo id sn) ->
  0 <= fd -> owns fd (y_open y) y' -> acc (N (cw <| w_conn := (w_conn cw) <| c_socket_fd := fd |> |>) s y' t pr None uo id sn).
Proof.
  intros Ha Hl Hf [Hn Hp]. destruct (account_free _ _ _ Ha Hl) as [Ho _]. destruct Ha. split; try done.
  change (y_open y' ≡ₚ (fd_list fd ++ slot_fds (w_conn cw)) ++ O). rewrite Hp, slots_empty_fds, app_nil_r by apply Hl.
  change (y_open y ≡ₚ O) in Ho. by rewrite Ho.
Qed.
Lemma account_unlink cw s y t pr uo id sn y' : acc (N cw s y t pr None uo id sn) -> c_ssl (w_conn cw) = 0 ->
  Forall slot_empty (c_additional (w_conn cw)) -> NoDup (y_open y') -> y_open y' ≡ₚ O ->
  acc (N (cw <| w_conn := (w_conn cw) <| c_socket_fd := -1 |> |>) s y' t pr None uo id sn).
Proof.
  intros [] Ez Hs Hn Hp. split; try done. change (y_open y' ≡ₚ ([] ++ slot_fds (w_conn cw)) ++ O). by rewrite slots_empty_fds.
Qed.

Lemma wpf_off_d {A} (m : St (dworld U) A) Q d (tr : option transport) uo id sn :
  wpf F (on_d m) Q (NWorld d tr uo id sn) -> wpf F m (fun a d' => Q a (NWorld d' tr uo id sn)) d.
Proof. unfold wpf, on_d. cbn. by destruct (m d) as [| |[a d']]. Qed.

Definition tcp_post w (r : Z) w' : Prop := acc w' /\ n_session w' = n_session w /\ n_udp_only w' = n_udp_only w /\ n_transport w' = None /\
  (c_state (n_conn w') = c_state (n_conn w) \/ c_state (n_conn w') = STATE_TLS_HANDSHAKE) /\
  if decide (r = ERR_NONE) then c_ssl (n_conn w') <> 0 /\ Forall slot_empty (c_additional (n_conn w')) else link_free w'.

Lemma tcp_account w force host port ip : acc w -> link_free w -> (wait_fuel polls (s_timeout_ms (n_session w)) <= fuel)%nat ->
  wpf F (on_d (connect_tcp fuel force host port ip)) (fun '(r, _) w' => tcp_post w r w') w.
Proof.
  intros Ha Hl Hms. destruct w as [[[cw s] y t pr] tr uo id sn]. assert (tr = None) as -> by apply Hl.
  set (w := N cw s y t pr None uo id sn) in *. change (s_timeout_ms (n_session w)) with (s_timeout_ms s) in Hms.
  assert (Hno : forall y', NoDup (y_open y') -> y_open y' ≡ₚ y_open y -> tcp_post w ERR_TCP_CONNECT (N cw s y' t pr None uo id sn)).
  { intros y' Hn Hp. split; [by eapply account_os|]. split; [done|]. split; [done|]. split; [done|]. split; [by left|]. by rewrite decide_False. }
  apply wpf_on_d. unfold connect_tcp. apply wpf_bind. destruct force; [apply wpf_ret, wpf_ret, Hno; [apply Ha|done]|].
  apply wpf_on_os. eapply wp_mono; [apply create_wp, Ha|]. intros [sock|] y1 [_ Hs]; [|by apply wpf_ret, Hno; apply Hs].
  destruct Hs as (Ho & Hfd & _). apply wpf_bind. change (wpf F the_session ?P (W cw s y1 t pr)) with (P s (W cw s y1 t pr)). cbv beta.
  apply wpf_bind, wpf_on_os. eapply wp_mono; [by apply (dial_both_wp host port (s_timeout_ms s) ip (y_open y) sock)|].
  intros [[ok sock2] ip2] y2 [Ho2 Hok]. apply wpf_if; intros Eok.
  { apply wpf_bind, wpf_on_os. eapply wp_mono; [by apply (when_close_wp _ (y_open y))|]. intros [] y3 [_ [? ?]]. by apply wpf_ret, Hno. }
  specialize (Hok ltac:(by destruct ok)). set (fd := sk_fd sock2) in *.
  apply wpf_bind, wpf_on_conn. change (wpf F (modify_conn ?f) ?P cw) with (P tt (cw <| w_conn := f (w_conn cw) |>)). cbv beta.
  set (v := cw <| w_conn := _ |>). apply wpf_bind, wpf_on_os. change (wp (socket_destroy _) ?P y2) with (P tt y2). cbv beta.
  apply wpf_bind, wpf_on_os. eapply wp_mono; [apply apply_timeout_open|]. intros rt y3 Eo3.
  assert (Ho3 : owns fd (y_open y) y3) by (unfold owns; by rewrite Eo3).
  assert (H3 : acc (N v s y3 t pr None uo id sn)) by (by eapply account_primary).
  assert (Ez : c_ssl (w_conn v) = 0) by apply Hl.
  apply wpf_bind. eapply wpf_mono; [exact (wpf_off_d _ _ _ None uo id sn (handshake_account _ H3 Ez))|].
  intros r [[cw4 s4] y4 t4 pr4] (H4 & (_ & Ef4 & Ea4 & _) & Es4 & Est4 & Hon & Hoff).
  change (c_socket_fd (w_conn cw4) = fd) in Ef4. change (c_additional (w_conn cw4) = c_additional (w_conn cw)) in Ea4. change (s4 = s) in Es4. subst s4.
  change (c_ssl (n_conn _)) with (c_ssl (w_conn cw4)) in Hon, Hoff.
  assert (Est : c_state (w_conn cw4) = STATE_TLS_HANDSHAKE).
  { revert Est4. change (c_socket_fd (n_conn (N v s y3 t pr None uo id sn))) with fd. replace (fd <? 0) with false by lia. done. }
  assert (Hs4 : Forall slot_empty (c_additional (w_conn cw4))) by (rewrite Ea4; apply Hl).
  apply wpf_bind, wpf_if; intros Er.
  - apply wpf_ret, wpf_ret. split; [exact H4|]. split; [done|]. split; [done|]. split; [done|]. split; [by right|].
    rewrite decide_True by lia. split; [apply Hon; lia|done].
  - specialize (Hoff ltac:(lia)). assert (Hp4 : owns fd O y4).
    { split; [apply H4|]. destruct H4. change (y_open y4 ≡ₚ (fd_list (c_socket_fd (w_conn cw4)) ++ slot_fds (w_conn cw4)) ++ O) in ac_fds0.
      by rewrite ac_fds0, Ef4, slots_empty_fds, app_nil_r. }
    apply wpf_bind, wpf_on_os. eapply wp_mono; [by apply (close_wp fd O)|]. intros u y5 [_ [Hn5 Hp5]].
    apply wpf_on_conn. change (wpf F (modify_conn ?f) ?P ?x) with (P tt (x <| w_conn := f (w_conn x) |>)). cbv beta. apply wpf_ret.
    split; [by eapply account_unlink|]. split; [done|]. split; [done|]. split; [done|]. split; [by right|].
    rewrite decide_False by lia. split; [cbn; lia|done].
Qed.

(** ** After the login *)

Lemma account_cw cw cw' s y t pr (tr : option transport) uo id sn id' sn' : acc (N cw s y t pr tr uo id sn) -> world_ok good cw' -> w_conn cw' = w_conn cw ->
  w_freed cw' = w_freed cw -> w_in cw' = w_in cw -> acc (N cw' s y t pr tr uo id' sn').
Proof.
  intros [] Hw Ec Ef Ei.
  assert (En : n_conn (N cw' s y t pr tr uo id' sn') = n_conn (N cw s y t pr tr uo id sn)) by exact Ec.
  split; try done.
  - rewrite ac_fds0. unfold held, slot_fds. by rewrite En.
  - by rewrite En.
  - intros n Hn q Hq. change (n_cw _) with cw'. rewrite Ec, Ef. by apply ac_fresh0.
  - unfold paired. by rewrite En.
  - unfold transport_ok. by rewrite En.
  - change (later in0 (w_in cw')). by rewrite Ei.
Qed.

Context `{HSt : AccelStart U} `{!AccelStartLaws U good}.

Lemma world_rudp cw u : world_ok good cw -> good u -> world_ok good (cw <| w_rudp := Some u |>).
Proof. intros (Hc & Hi & _) Hu. split; [done|]. split; [done|]. by intros ? [= <-]. Qed.

Ltac plain := unfold plain_conn; intros c; split_and!; try done; intros freed Hc; exact Hc.

Lemma account_set f cw s y t pr (tr : option transport) uo id sn : plain_conn f -> acc (N cw s y t pr tr uo id sn) ->
  acc (N (cw <| w_conn := f (w_conn cw) |>) s y t pr tr uo id sn).
Proof. intros Hf Ha. exact (account_conn f _ Hf Ha). Qed.

(** The fields the set-up writes. *)
Definition tuned (c c' : connection) : Prop :=
  c_socket_fd c' = c_socket_fd c /\ c_ssl c' = c_ssl c /\ c_additional c' = c_additional c.

(** What the set-up leaves alone. *)
Definition tunes w w' : Prop := acc w' /\ tuned (n_conn w) (n_conn w') /\ c_state (n_conn w') = c_state (n_conn w) /\
  n_udp_only w' = n_udp_only w /\ n_transport w' = n_transport w /\ n_session w' = n_session w.
Lemma tunes_refl w : acc w -> tunes w w.
Proof. by split. Qed.
Lemma tunes_trans w1 w2 w3 : tunes w1 w2 -> tunes w2 w3 -> tunes w1 w3.
Proof.
  intros (_ & (E1 & E2 & E3) & E4 & E5 & E6 & E7) (Ha & (K1 & K2 & K3) & K4 & K5 & K6 & K7).
  split; [done|]. split; [split_and!; congruence|]. split_and!; congruence.
Qed.

Lemma start_account w use_tcp : acc w -> wpf F (start_accelerator use_tcp) (fun _ w' => tunes w w') w.
Proof.
  intros Ha. destruct w as [[[cw s] y t pr] tr uo id sn]. set (w := N cw s y t pr tr uo id sn) in *. unfold start_accelerator.
  apply wpf_the_conn, wpf_the_session, wpf_the_rudp. cbv zeta.
  assert (Hdis : forall cw', acc (N cw' s y t pr tr uo id sn) -> w_conn cw' = w_conn cw ->
    wpf F (set_conn (fun c => c <| c_rudp_enabled := false |>)) (fun _ w' => tunes w w') (N cw' s y t pr tr uo id sn)).
  { intros cw' Ha' Ec. apply wpf_set_conn. split; [apply account_set; [plain|done]|].
    unfold tuned, n_conn, n_cw. cbn. rewrite Ec. by split_and!. }
  assert (Hend : forall v, v = w -> tunes w v) by (by intros v ->).
  destruct (w_rudp cw) as [u|] eqn:Eu; [|by apply wpf_ret, Hend].
  assert (Hg : good u) by (destruct Ha as [(_ & _ & Hg) _ _ _ _ _ _ _ _ _]; by apply Hg).
  apply wpf_if; intros E1; [by apply wpf_ret, Hend|]. apply wpf_if; intros E2; [by apply Hdis|].
  assert (Hkey : len (if (s_rudp_version s >=? 2) && (s_rudp_server_key_v2_size s >? 0) then s_rudp_server_key_v2 s else s_rudp_server_key s) = 128).
  { assert (Hso : session_ok s) by apply Ha. destruct ((s_rudp_version s >=? 2) && _); apply Hso. }
  apply wpf_bind, wpf_lift. match goal with |- context [st_init_client ?k ?n ?ip ?p ?a ?b u] =>
    destruct (st_init_client_good k n ip p a b u Hg Hkey) as (r & u1 & Er & Hg1) end. rewrite Er. apply wpf_bind, wpf_on_d, wpf_on_conn. unfold wpf at 1, modify.
  assert (H1 : acc (N (cw <| w_rudp := Some u1 |>) s y t pr tr uo id sn)).
  { eapply account_cw; [exact Ha|apply world_rudp; [apply Ha|done]|done..]. }
  apply wpf_if; intros E3; [by apply Hdis|].
  destruct (ac_poll_good (st_set_version (s_rudp_version s) u1) (st_set_version_good _ _ Hg1)) as (u2 & Ep & Hg2).
  apply wpf_bind, wpf_lift. rewrite Ep. apply wpf_on_d, wpf_on_conn. unfold wpf, modify.
  split; [|by split_and!]. eapply account_cw; [exact Ha|apply (world_rudp cw u2); [apply Ha|done]|done..].
Qed.

Context (tick : nat -> Z) (protect : nat -> Z).

Lemma choose_account w : acc w -> wpf F (choose_session_id crand) (fun _ w' => tunes w w') w.
Proof.
  intros Ha. destruct w as [[[cw s] y t pr] tr uo id sn]. set (w := N cw s y t pr tr uo id sn) in *. unfold choose_session_id.
  apply wpf_the_conn, wpf_the_session. apply wpf_bind.
  assert (Hid : forall id', tunes w (N cw s y t pr tr uo id' sn)).
  { intros id'. split; [|done]. eapply account_cw; [exact Ha|apply Ha|done..]. }
  assert (Hrest : forall id', wpf F (id ← gets n_session_id; when (id =? 0) (
    r1 ← on_d (on_conn (c_rand crand)); r2 ← on_d (on_conn (c_rand crand));
    modify (fun w => w <| n_session_id := Z.lxor (u32 (Z.shiftl (u32 r1) 16)) (u32 r2) |>))) (fun _ w' => tunes w w') (N cw s y t pr tr uo id' sn)).
  { intros id'. apply wpf_bind. change (wpf F (gets n_session_id) ?P ?x) with (P (n_session_id x) x). cbv beta.
    apply wpf_when; intros E; [|apply Hid].
    apply wpf_bind, wpf_on_d, wpf_on_conn. change (wpf F (c_rand crand) ?P ?x) with (P (crand (w_rands x)) (x <| w_rands := S (w_rands x) |>)). cbv beta.
    apply wpf_bind, wpf_on_d, wpf_on_conn. change (wpf F (c_rand crand) ?P ?x) with (P (crand (w_rands x)) (x <| w_rands := S (w_rands x) |>)). cbv beta.
    split; [|done]. eapply account_cw; [exact Ha|apply Ha|done..]. }
  apply wpf_when; intros E; [|apply Hrest]. exact (Hrest (s_session_key_32 s)).
Qed.

Lemma schedule_account w : acc w -> wpf F (schedule_links tick) (fun _ w' => tunes w w') w.
Proof.
  intros Ha. destruct w as [[[cw s] y t pr] tr uo id sn]. set (w := N cw s y t pr tr uo id sn) in *. unfold schedule_links.
  apply wpf_the_session. apply wpf_if; intros E.
  { apply wpf_set_conn. split; [|by split_and!].
    apply (account_set (fun c => c <| c_max_connection := 1 |> <| c_next_connect_time := 0 |>)); [plain|done]. }
  apply wpf_bind, wpf_set_conn. match goal with |- context [cw <| w_conn := ?c <| c_max_connection := ?m |> |>] => set (mc := m) end.
  set (v := cw <| w_conn := _ |>).
  assert (Hv : acc (N v s y t pr tr uo id sn)) by (apply (account_set (fun c => c <| c_max_connection := mc |>)); [plain|done]).
  apply wpf_bind, wpf_on_d, wpf_on_conn. change (wpf F (softether_tick_ms tick) ?P ?x) with (P (u64 (tick (w_ticks x))) (x <| w_ticks := S (w_ticks x) |>)).
  cbv beta. set (v2 := v <| w_ticks := _ |>). set (now := u64 _).
  assert (Hv2 : acc (N v2 s y t pr tr uo id sn)) by (eapply account_cw; [exact Hv|apply Hv|done..]).
  apply wpf_set_conn. split; [|by split_and!].
  apply (account_set (fun c => c <| c_next_connect_time := now |>)); [plain|done].
Qed.

(** ** The first additional link *)

Lemma filter_join {A} (P : Z -> Prop) `{forall z, Decision (P z)} (f : A -> Z) l i x x' : l !! i = Some x -> ~ P (f x) -> P (f x') ->
  filter P (map f (<[i:=x']> l)) ≡ₚ f x' :: filter P (map f l).
Proof.
  intros Hi Hx Hx'. pose proof (lookup_lt_Some _ _ _ Hi). rewrite insert_take_drop by done.
  rewrite <- (take_drop_middle l i x) at 3 by done. rewrite !map_app, !filter_app, !map_cons, !filter_cons.
  rewrite decide_True, (decide_False (P := P (f x))) by done. symmetry. apply Permutation_middle.
Qed.

(** What is left is accounted for. *)
Definition balanced w : Prop := world_ok good (n_cw w) /\ NoDup (y_open (n_os w)) /\ y_open (n_os w) ≡ₚ held w ++ O /\
  t_ssl (n_tls w) ≡ₚ owners (n_conn w) ++ T.
Lemma account_balanced w : acc w -> balanced w.
Proof. by intros []. Qed.

Definition established w : Prop := c_state (n_conn w) = STATE_CONNECTED /\ 0 <= c_socket_fd (n_conn w) /\ c_ssl (n_conn w) <> 0.

Lemma first_additional_account w : acc w -> Forall slot_empty (c_additional (n_conn w)) -> established w ->
  wpf F (on_d (softether_establish_first_additional tick malloc_ok stack addr http_date protect)) (fun _ w' => balanced w' /\ established w') w.
Proof.
  intros Ha Hs He. destruct w as [[[cw s] y t pr] tr uo id sn]. set (w := N cw s y t pr tr uo id sn) in *.
  apply wpf_on_d. unfold softether_establish_first_additional. apply wpf_bind.
  assert (Hadd : wpf F (softether_additional_connect tick malloc_ok stack addr http_date protect) (added good cw s y t pr) (W cw s y t pr)).
  { destruct Henv. eapply wpf_weaken; [|apply (additional_wp good); try done; apply Ha]. intros [n Hn]. apply HF.
    exists (Tls (o_calloc n)), (w_in cw (Tls (o_calloc n))). split; [apply Ha|by right]. }
  eapply wpf_mono; [exact Hadd|]. intros r d (cw' & y' & t' & -> & Hw' & _ & Hn' & Hr).
  assert (Hgo : balanced (N cw' s y' t' pr tr uo id sn) /\ established (N cw' s y' t' pr tr uo id sn)).
  { destruct (decide (r = 0)) as [E|E].
    - destruct Hr as (slot & fd & ctx & dir & now & ts & _ & Hts & Ec & Hfd & Hctx & Ey & Ef & Et).
      change (n_conn w) with (w_conn cw) in Hs. destruct (Forall_lookup_1 _ _ _ _ Hs Hts) as (Hts1 & Hts2 & Hts3).
      assert (Esl : slot_fds (w_conn cw') ≡ₚ fd :: slot_fds (w_conn cw)).
      { rewrite Ec. unfold slot_fds, joined. cbn [c_additional upd]. apply (filter_join (fun z => 0 <= z) saved_fd _ _ ts); [done|unfold saved_fd; rewrite Hts1; lia|done]. }
      assert (Eow : owners (w_conn cw') ≡ₚ ctx :: owners (w_conn cw)).
      { rewrite !owners_cons, Ec. unfold joined. cbn [c_ssl c_additional upd]. unfold ctxs.
        rewrite (filter_join (fun z => z <> 0) ts_ssl_ctx _ _ ts); [|done|by intros Hx|done]. symmetry. apply Permutation_middle. }
      split; [|by unfold established, n_conn, n_cw in *; cbn in *; rewrite Ec].
      split; [done|]. split; [done|]. destruct Ha. split.
      + change (y_open y' ≡ₚ held (N cw' s y' t' pr tr uo id sn) ++ O). rewrite Ey. change (y_open y ≡ₚ held w ++ O) in ac_fds0. rewrite ac_fds0.
        unfold held. change (n_conn (N cw' s y' t' pr tr uo id sn)) with (w_conn cw'). change (n_conn w) with (w_conn cw). rewrite Esl.
        replace (c_socket_fd (w_conn cw')) with (c_socket_fd (w_conn cw)) by (by rewrite Ec).
        change (n_transport (N cw' s y' t' pr tr uo id sn)) with tr. change (n_transport w) with tr. by rewrite <- Permutation_middle.
      + change (t_ssl t' ≡ₚ owners (w_conn cw') ++ T). rewrite Et, Eow. change (t_ssl t ≡ₚ owners (w_conn cw) ++ T) in ac_objects0. by rewrite ac_objects0.
    - destruct Hr as (_ & Ey & Et & k & Ec). destruct Ha.
      split; [|by unfold established, n_conn, n_cw in *; cbn in *; rewrite Ec]. split; [done|]. split; [done|].
      split; [|change (t_ssl t' ≡ₚ owners (w_conn cw') ++ T); rewrite Et, Ec; exact ac_objects0].
      change (y_open y' ≡ₚ held (N cw' s y' t' pr tr uo id sn) ++ O). rewrite Ey. unfold held.
      change (n_conn (N cw' s y' t' pr tr uo id sn)) with (w_conn cw'). rewrite Ec. exact ac_fds0. }
  apply wpf_bind, wpf_on_conn. change (wpf F get_conn ?P cw') with (P (w_conn cw') cw'). cbv beta. destruct Hgo as [Hb He'].
  apply wpf_if; intros E; [|by apply wpf_ret]. apply wpf_bind, wpf_on_conn.
  change (wpf F (modify_conn ?f) ?P cw') with (P tt (cw' <| w_conn := f (w_conn cw') |>)). cbv beta. apply wpf_ret. split; [exact Hb|exact He'].
Qed.

Definition gone w : Prop := c_state (n_conn w) = STATE_DISCONNECTED /\ link_free w.

Lemma set_up_account use_tcp w : acc w -> Forall slot_empty (c_additional (n_conn w)) -> c_ssl (n_conn w) <> 0 ->
  wpf F (set_up_session tick crand malloc_ok stack addr http_date protect use_tcp)
    (fun r w' => balanced w' /\ if decide (r = ERR_NONE) then established w' else gone w') w.
Proof.
  intros Ha Hs Hn. unfold set_up_session.
  apply wpf_bind. eapply wpf_mono; [by apply start_account|]. intros _ w1 (H1 & (E1 & E2 & E3) & _). rewrite <- E2 in Hn. rewrite <- E3 in Hs.
  clear E1 E2 E3 Ha w. apply wpf_bind. destruct w1 as [[[cw s] y t pr] tr uo id sn]. apply wpf_set_conn.
  set (w := N _ s y t pr tr uo id sn). assert (Hw : acc w) by (apply (account_set (fun c => c <| c_state := STATE_SESSION_SETUP |>)); [plain|done]).
  change (c_ssl (n_conn w) <> 0) in Hn. change (Forall slot_empty (c_additional (n_conn w))) in Hs. clearbody w. clear H1 cw s y t pr tr uo id sn.
  apply wpf_bind. eapply wpf_mono; [by apply choose_account|]. intros _ w1 (H1 & (E1 & E2 & E3) & _). rewrite <- E2 in Hn. rewrite <- E3 in Hs.
  clear E1 E2 E3 Hw w. apply wpf_bind. destruct w1 as [[[cw s] y t pr] tr uo id sn]. apply wpf_set_conn.
  set (w := N _ s y t pr tr uo id sn). assert (Hw : acc w) by (apply (account_set (fun c => c <| c_state := STATE_CONNECTED |>)); [plain|done]).
  assert (Hst : c_state (n_conn w) = STATE_CONNECTED) by done.
  change (c_ssl (n_conn w) <> 0) in Hn. change (Forall slot_empty (c_additional (n_conn w))) in Hs. clearbody w. clear H1 cw s y t pr tr uo id sn.
  apply wpf_bind. eapply wpf_mono; [by apply schedule_account|]. intros _ w1 (H1 & (E1 & E2 & E3) & E4 & _).
  rewrite <- E2 in Hn. rewrite <- E3 in Hs. rewrite <- E4 in Hst. clear E1 E2 E3 E4 Hw w.
  destruct w1 as [[[cw s] y t pr] tr uo id sn]. apply wpf_the_conn. change (c_ssl (w_conn cw) <> 0) in Hn.
  apply wpf_bind, wpf_on_d, wpf_on_conn. eapply (wpf_mono _ _ (fun _ cw' => exists p, cw' = cw <| w_pending := p |>)).
  { apply wpf_wp. unfold ssl_has_pending. wp_step; [lia|]. wp_step. apply deref_ssl_wp.
    - destruct H1. destruct ac_world0 as ((_ & [(_ & _ & _ & Hf & _) _] & _) & _). rewrite Forall_forall in Hf. apply Hf.
      change (n_conn (N cw s y t pr tr uo id sn)) with (w_conn cw). rewrite owners_cons, decide_False by done. by left.
    - unfold wp, sys_pending. destruct (w_pending cw) as [|b l] eqn:E; [|by eexists]. exists []. rewrite <- E. by destruct cw. }
  intros pd cw2 [p ->]. set (cw2 := cw <| w_pending := p |>).
  assert (H2 : acc (N cw2 s y t pr tr uo id sn)) by (eapply account_cw; [exact H1|apply H1|done..]).
  apply wpf_if; intros Efd.
  { apply wpf_bind. eapply wpf_mono; [apply disconnect_account; [exact H2|]|].
    { change (c_state (n_conn _)) with (c_state (w_conn cw)). change (c_state (w_conn cw) = STATE_CONNECTED) in Hst. by rewrite Hst. }
    intros _ w3 (H3 & Hd & _ & _ & Hfree). apply wpf_ret. split; [by apply account_balanced|]. rewrite decide_False by done. split; [done|].
    change (c_state (n_conn (N cw2 s y t pr tr uo id sn))) with (c_state (w_conn cw)) in Hfree. change (c_state (w_conn cw) = STATE_CONNECTED) in Hst.
    rewrite Hst in Hfree. exact Hfree. }
  apply wpf_bind, wpf_on_d, wpf_on_os. unfold setsockopt. wp_step. apply wp_note, wp_sys. set (y2 := upd y_calls _ _).
  assert (H3 : acc (N cw2 s y2 t pr tr uo id sn)) by (eapply account_os; [exact H2|apply H1|done]).
  assert (He : established (N cw2 s y2 t pr tr uo id sn)) by (split; [exact Hst|]; split; [cbn; lia|exact Hn]).
  apply wpf_the_session, wpf_bind, wpf_if; intros Eh.
  { apply wpf_ret, wpf_ret. rewrite decide_True by done. split; [by apply account_balanced|done]. }
  apply wpf_bind. eapply wpf_mono; [by apply first_additional_account|]. intros rr w4 [H4 He4]. apply wpf_ret, wpf_ret. by rewrite decide_True.
Qed.

(** ** The whole connect *)

(** The connection is closed, or, after a race that was won when TCP had
    failed, says so although it still has its transport. *)
Definition ended w : Prop := c_state (n_conn w) = STATE_DISCONNECTED /\ (link_free w \/ carried w /\ n_udp_only w = false).
Definition underway w : Prop := live_state (c_state (n_conn w)) = true \/ ended w.

Definition outcome (r : Z) w : Prop := balanced w /\ if decide (r = ERR_NONE) then established w else ended w.

Lemma disconnect_ended w : acc w -> underway w -> wpf F softether_disconnect (fun _ w' => acc w' /\ ended w' /\
  s_timeout_ms (n_session w') = s_timeout_ms (n_session w) /\ n_udp_only w' = n_udp_only w /\
  (s_using_nat_t (n_session w) = false -> link_free w') /\ Forall slot_empty (c_additional (n_conn w'))) w.
Proof.
  intros Ha Hu. eapply wpf_mono; [apply disconnect_account; [done|]|].
  { intros E. destruct Hu as [Hl|[Hd _]]; [by rewrite E in Hl|congruence]. }
  intros u w' (H' & Hst & Et & Eu & Hr). split; [done|]. destruct (live_state _) eqn:El.
  - split; [split; [done|by left]|]. split; [done|]. split; [done|]. split; [done|apply Hr].
  - subst w'. destruct Hu as [Hl|He]; [congruence|]. split; [done|]. split; [done|]. split; [done|]. destruct He as [_ [Hf|[Hc _]]].
    + split; [done|apply Hf].
    + split; [|apply Hc]. intros E. destruct Hc as (_ & Hc & _). congruence.
Qed.

Lemma end_with r w : r <> ERR_NONE -> acc w -> underway w -> wpf F (softether_disconnect ;; mret r) outcome w.
Proof.
  intros Hr Ha Hu. apply wpf_bind. eapply wpf_mono; [by apply disconnect_ended|]. intros u w' (H' & He & _). apply wpf_ret.
  split; [by apply account_balanced|]. by rewrite decide_False.
Qed.

Definition same_but_os w w' : Prop :=
  n_conn w' = n_conn w /\ n_session w' = n_session w /\ n_transport w' = n_transport w /\ n_udp_only w' = n_udp_only w.
Lemma underway_os w w' : same_but_os w w' -> underway w -> underway w'.
Proof. intros (E1 & E2 & E3 & E4). unfold underway, ended, carried, link_free. by rewrite E1, E2, E3, E4. Qed.
Lemma aborted_account w : acc w -> wpf F aborted (fun _ w' => acc w' /\ same_but_os w w') w.
Proof.
  intros Ha. destruct w as [[[cw s] y t pr] tr uo id sn]. unfold aborted. apply wpf_on_d, wpf_on_os, wp_sys.
  split; [|done]. by eapply account_os; [exact Ha|apply Ha|].
Qed.

Lemma login_underway w w' : same_path w w' -> same_setup (n_session w) (n_session w') -> c_ssl (n_conn w') = c_ssl (n_conn w) ->
  c_state (n_conn w') = c_state (n_conn w) \/ c_state (n_conn w') = STATE_AUTHENTICATING -> underway w -> underway w'.
Proof.
  intros (E1 & E2 & E3 & E4) [_ E5] E6 Hs. unfold underway, ended, carried, link_free. rewrite E1, E2, E3, E4, E5, E6.
  destruct Hs as [-> | ->]; [done|by left].
Qed.

Lemma login_or_nat_t_account host user password ip use_tcp w : acc w -> underway w -> Forall slot_empty (c_additional (n_conn w)) ->
  len host <= 800 -> small user -> small password ->
  wpf F (login_or_nat_t crand malloc_ok stack addr sha1 inet_addr local_port http_date host user password ip use_tcp) (fun '(go, r) w' =>
    if (go : bool) then acc w' /\ underway w' /\ Forall slot_empty (c_additional (n_conn w')) /\ (r = ERR_NONE -> c_ssl (n_conn w') <> 0)
    else outcome r w') w.
Proof.
  intros Ha Hu Hs Hh Hus Hpw. unfold login_or_nat_t. apply wpf_bind. eapply wpf_mono; [by apply login_account|].
  intros r w1 (H1 & Hp1 & Hset & E1 & Hst1 & Hr1). assert (Hu1 : underway w1) by (by eapply login_underway).
  destruct Hp1 as (_ & _ & Ea1 & _). rewrite <- Ea1 in Hs. rewrite <- E1 in Hr1. clear Ea1 E1 Hst1 Hset Hu Ha w.
  destruct w1 as [[[cw s] y t pr] tr uo id sn]. set (w1 := N cw s y t pr tr uo id sn) in *. apply wpf_the_session.
  apply wpf_if; intros Eg; [by apply wpf_ret|]. apply orb_false_iff in Eg as [_ Enat].
  apply wpf_bind. eapply wpf_mono; [by apply disconnect_ended|]. intros u w2 (H2 & He2 & Et2 & Eu2 & Hf2 & Hs2). specialize (Hf2 Enat).
  apply wpf_bind. eapply wpf_mono; [by apply nat_t_account|]. intros r3 w3 (H3 & (Eb1 & Eb2 & Eb3) & Hr3).
  apply wpf_if; intros E3.
  { apply wpf_ret. rewrite decide_False in Hr3 by lia. destruct Hr3 as [Hf3 _]. split; [done|]. split; [|split; [apply Hf3|lia]].
    right. split; [by rewrite Eb1; apply He2|by left]. }
  rewrite decide_True in Hr3 by lia. destruct Hr3 as [Hc3 Ez3]. destruct w3 as [[[cw3 s3] y3 t3 pr3] tr3 uo3 id3 sn3]. set (w3 := N cw3 s3 y3 t3 pr3 tr3 uo3 id3 sn3) in *.
  apply wpf_the_conn, wpf_bind, wpf_on_d, wpf_on_os.
  assert (Hfd : 0 <= c_socket_fd (w_conn cw3)) by apply Hc3.
  eapply wp_mono; [apply apply_timeout_open|]. intros rt y4 Ey4. set (w4 := N cw3 s3 y4 t3 pr3 tr3 uo3 id3 sn3).
  assert (H4 : acc w4) by (eapply account_os; [exact H3|rewrite Ey4; apply H3|by rewrite Ey4]).
  apply wpf_bind. eapply wpf_mono; [by apply handshake_account|]. intros r5 w5 (H5 & Hp5 & Es5 & Est5 & Hon & Hoff).
  change (c_socket_fd (n_conn w4)) with (c_socket_fd (w_conn cw3)) in Est5. replace (_ <? 0) with false in Est5 by lia.
  assert (Hu5 : underway w5) by (left; by rewrite Est5).
  assert (Hs5 : Forall slot_empty (c_additional (n_conn w5))) by (destruct Hp5 as (_ & _ & -> & _); apply Hc3).
  apply wpf_if; intros E5.
  { apply wpf_bind. eapply wpf_mono; [by apply disconnect_ended|]. intros u6 w6 (H6 & He6 & _). apply wpf_ret.
    split; [by apply account_balanced|]. by rewrite decide_False by lia. }
  apply wpf_bind. eapply wpf_mono; [by apply login_account|].
  intros r6 w6 (H6 & Hp6 & Hset6 & E6 & Hst6 & Hr6). apply wpf_ret. split; [done|]. split; [by eapply login_underway|].
  split; [by destruct Hp6 as (_ & _ & -> & _)|]. rewrite E6. done.
Qed.

Lemma give_up_account w : acc w -> underway w -> wpf F call_off outcome w.
Proof. intros Ha Hu. by apply end_with. Qed.

Section arguments.
Context (host user password : list Z).
Hypothesis Hhost : len host <= 800.
Hypothesis Huser : small user.
Hypothesis Hpass : small password.

Lemma store_server_ok ip port s : session_ok s -> session_ok (store_server ip port s).
Proof. intros []. split; try done. change (len (tk (64 - 1) ip) <= 63). slia. Qed.

Lemma log_in_account ip port use_tcp w : acc w -> underway w -> Forall slot_empty (c_additional (n_conn w)) ->
  wpf F (log_in tick crand malloc_ok stack addr sha1 inet_addr local_port http_date protect host user password ip port use_tcp) outcome w.
Proof.
  intros Ha Hu Hs. unfold log_in. apply wpf_bind. eapply wpf_mono; [by apply aborted_account|]. intros b w1 [H1 Hos].
  assert (Hu1 : underway w1) by (by eapply underway_os). destruct Hos as (E1 & _). rewrite <- E1 in Hs. clear E1 Hu Ha w.
  apply wpf_if; intros _; [by apply give_up_account|]. destruct w1 as [[[cw s] y t pr] tr uo id sn]. apply wpf_bind, wpf_set_session.
  set (w1 := N cw s y t pr tr uo id sn) in *. set (w2 := N cw _ y t pr tr uo id sn).
  assert (H2 : acc w2).
  { apply (account_session (store_server ip port) w1); [|done]. apply store_server_ok, H1. }
  apply wpf_bind. eapply wpf_mono; [by apply login_or_nat_t_account|]. intros [go r] w3 H3.
  apply wpf_if; intros Eg; [destruct go; [done|by apply wpf_ret]|]. destruct go; [|done]. destruct H3 as (H3 & Hu3 & Hs3 & Hr3).
  apply wpf_if; intros Er; [apply end_with; [lia|done..]|].
  apply wpf_bind. eapply wpf_mono; [by apply aborted_account|]. intros b2 w4 [H4 Hos].
  assert (Hu4 : underway w4) by (by eapply underway_os). destruct Hos as (E4 & _). rewrite <- E4 in Hs3, Hr3. specialize (Hr3 ltac:(lia)).
  apply wpf_if; intros _; [by apply give_up_account|].
  eapply wpf_mono; [by apply set_up_account|]. intros r5 w5 [H5 Hr5]. split; [done|]. destruct (decide _); [done|].
  destruct Hr5 as [Hd Hf]. split; [done|by left].
Qed.

Lemma race_after_account w : acc w -> live_state (c_state (n_conn w)) = true -> s_using_nat_t (n_session w) = false -> n_udp_only w = false ->
  wpf F race_after_tcp (fun _ w' => acc w' /\ underway w' /\ Forall slot_empty (c_additional (n_conn w'))) w.
Proof.
  intros Ha Hl Hnat Huo. unfold race_after_tcp. apply wpf_bind. eapply wpf_mono; [apply disconnect_ended; [done|by left]|].
  intros u w1 (H1 & He1 & _ & Eu1 & Hf1 & _). specialize (Hf1 Hnat). apply wpf_bind. eapply wpf_mono; [by apply race_account|].
  intros r w2 (H2 & (Es2 & Eu2 & _) & Hr2). destruct w2 as [[[cw s] y t pr] tr uo id sn]. set (w2 := N cw s y t pr tr uo id sn) in *.
  assert (Hst2 : c_state (n_conn w2) = STATE_DISCONNECTED) by (rewrite Es2; apply He1).
  assert (Hu2 : underway w2 /\ Forall slot_empty (c_additional (n_conn w2))).
  { destruct (decide (r = ERR_NONE)); destruct Hr2 as [Hr2 _].
    - split; [|apply Hr2]. right. split; [done|]. right. split; [done|]. by rewrite Eu2, Eu1.
    - split; [|apply Hr2]. right. split; [done|by left]. }
  destruct Hu2 as [Hu2 Hs2]. apply wpf_the_conn. apply wpf_if; intros E; [|by apply wpf_ret].
  apply wpf_bind. eapply wpf_mono; [by apply disconnect_ended|]. intros u3 w3 (H3 & He3 & _ & _ & _ & Hs3). apply wpf_ret.
  split; [done|]. split; [by right|done].
Qed.

Lemma connect_account force port hub use_tcp info w : acc w -> link_free w -> session_ok (store_request info hub (n_session w)) ->
  (wait_fuel polls (s_timeout_ms (n_session w)) <= fuel)%nat ->
  wpf F (softether_connect_with_hub tick crand malloc_ok stack addr sha1 inet_addr local_port http_date protect fuel force host port user password
    hub use_tcp info) outcome w.
Proof.
  intros Ha Hl Hreq Hms. unfold softether_connect_with_hub, softether_connect_with_hub_nolock.
  destruct w as [[[cw s] y t pr] tr uo id sn]. assert (tr = None) as -> by apply Hl. apply wpf_bind, wpf_set_conn.
  set (cw1 := cw <| w_conn := _ |>). assert (H1 : acc (N cw1 s y t pr None uo id sn)) by (apply (account_set (fun c => c <| c_abort_connect := false |>)); [plain|done]).
  assert (Hl1 : link_free (N cw1 s y t pr None uo id sn)) by exact Hl. clearbody cw1. clear Ha Hl.
  apply wpf_the_conn, wpf_bind. assert (Hfd : c_socket_fd (w_conn cw1) < 0) by apply Hl1. replace (c_socket_fd (w_conn cw1) <? 0) with true by lia.
  change (when true drop_transport) with (@drop_transport U). apply drop_wp. intros y' [_ Ey]. cbn [transport_fds] in Ey. rewrite without_nil in Ey.
  assert (H2 : acc (N cw1 s y' t pr None uo id sn)) by (eapply account_os; [exact H1|rewrite Ey; apply H1|by rewrite Ey]).
  apply wpf_bind. unfold using_nat_t. apply wpf_set_session, wpf_bind. unfold set_state. apply wpf_set_conn, wpf_bind, wpf_set_session.
  set (cw3 := cw1 <| w_conn := _ |>). set (s3 := store_request _ _ _). set (w3 := N cw3 s3 y' t pr None uo id sn).
  assert (H3 : acc w3).
  { apply (account_set (fun c => c <| c_state := STATE_CONNECTING |>)); [plain|].
    assert (Hs3 : session_ok s3) by (change (n_session _) with s in Hreq; destruct Hreq; by split).
    exact (account_session (fun _ => s3) _ Hs3 H2). }
  assert (Hl3 : link_free w3) by exact Hl1.
  apply wpf_bind, wpf_on_d, wpf_on_os. eapply wp_mono; [apply resolve_quiet|]. intros ip y4 [Ey4 _]. set (w4 := N cw3 s3 y4 t pr None uo id sn).
  assert (H4 : acc w4) by (eapply account_os; [exact H3|rewrite Ey4; apply H3|by rewrite Ey4]).
  destruct ip as [ip|]; cycle 1.
  { apply wpf_bind, wpf_set_conn, wpf_ret. split; [|rewrite decide_False by done; split; [done|left; exact Hl1]].
    apply account_balanced, (account_set (fun c => c <| c_state := STATE_DISCONNECTED |>)); [plain|done]. }
  apply wpf_bind. change (wpf F (gets n_udp_only) ?P w4) with (P uo w4). cbv beta. destruct uo.
  { apply wpf_bind. eapply wpf_mono; [by apply race_account|]. intros r w5 (H5 & (Es5 & _) & Hr5). apply log_in_account; [done| |].
    - left. by rewrite Es5.
    - destruct (decide _); apply Hr5. }
  apply wpf_bind. eapply wpf_mono; [by apply tcp_account|]. intros [r ip2] w5 (H5 & Es5 & Eu5 & Et5 & Hst5 & Hr5).
  assert (Hlive : live_state (c_state (n_conn w5)) = true) by (by destruct Hst5 as [-> | ->]).
  apply wpf_bind. eapply wpf_mono; [by apply aborted_account|]. intros b w6 [H6 Hos]. pose proof Hos as (E6 & E6s & _ & E6u).
  rewrite <- E6 in Hlive. apply wpf_if; intros _; [apply give_up_account; [done|by left]|].
  assert (Hs6 : Forall slot_empty (c_additional (n_conn w6))) by (rewrite E6; destruct (decide _); apply Hr5).
  apply wpf_bind, wpf_if; intros E.
  - apply wpf_ret. apply log_in_account; [done|by left|done].
  - apply wpf_bind. eapply wpf_mono; [apply race_after_account; [done|done|by rewrite E6s, Es5|by rewrite E6u, Eu5]|].
    intros r7 w7 (H7 & Hu7 & Hs7). apply wpf_ret. by apply log_in_account.
Qed.
End arguments.
End account.
