(* ===== verification/AccelSession.v ===== *)
(** * The accelerator behind the interfaces of a session

    [AccelLink] gives the data plane its [Accelerator]. Here the context of
    [Accel] is what the login creates and offers ([AccelSetup]) and what the
    connect starts ([AccelStart]), and its lemmas discharge the laws of both:
    the theorems about a login and a connect hold for the real accelerator. *)
From S2P Require Import Prelude Bytes Ring Crypto Fifo Accel AccelInv AccelSpec AccelLink Conn.
From S2P Require Import LoginPack LoginPackSpec Login LoginInv Lifecycle ConnectInv.

Section session.
Context (tick : nat -> Z) (rand : nat -> Z -> bool * list Z) (sys_socket : nat -> Z -> Z) (sys_bind : nat -> bool)
        (sys_getsockname : nat -> option Z) (inet_pton6 inet_pton4 : list Z -> option (list Z)) (alloc : bool).
Hypothesis Hports : ports_ok sys_getsockname.

(** The calls of the login. [before] is the world before the creation, [fuel]
    what the draws of the cookies may use. *)
Definition accel_setup (before : aworld) (fuel : nat) : AccelSetup aworld := {|
  as_create := match rudp_create tick rand sys_socket sys_bind sys_getsockname fuel true before with
               | Ok (true, w) => Some w | _ => None end;
  as_family := rudp_set_udp_family sys_socket sys_bind sys_getsockname;
  as_offer w := Offer (my_key (a_ctx w)) (my_key_v2 (a_ctx w)) (my_cookie (a_ctx w)) (my_port (a_ctx w));
  as_compress b w := w <| a_ctx := rudp_set_compress b (a_ctx w) |> |}.

(** The calls of the connect. The cookies are passed as [uint32_t]. *)
Definition accel_start : AccelStart aworld := {|
  st_init_client key size ip port sc cc :=
    rudp_init_client inet_pton6 inet_pton4 tick sys_socket sys_bind sys_getsockname alloc key size ip port (u32 sc) (u32 cc);
  st_set_version v w := w <| a_ctx := rudp_set_version v (a_ctx w) |> |}.

(** ** The context through these calls *)

Lemma ctx_ok_socket c fd port v6 :
  ctx_ok c -> 0 <= port < 2 ^ 32 -> ctx_ok (c <| udp_fd := fd |> <| my_port := port |> <| is_ipv6 := v6 |>).
Proof.
  intros (Hq & Hk & Hrest) Hp. split; [exact Hq|]. split; [|exact Hrest]. unfold keys_ok in *. keys_reduce. tauto.
Qed.

Lemma total_socket family : total (rudp_create_udp_socket sys_socket sys_bind sys_getsockname family).
Proof.
  intros n Hn w ((Hf & Hc & Hr) & Hi).
  destruct (create_socket_ok sys_socket sys_bind sys_getsockname family w Hports Hf) as (r & w' & fd & port & v6 & -> & Hf' & Hi' & Hp & Ec & _).
  split; [|by rewrite Hi']. split; [done|]. rewrite Ec. split; [|exact Hr]. apply ctx_ok_socket; [done|].
  destruct Hp as [-> |Hp]; [|done]. by apply Hc.
Qed.

Lemma total_family family : total (rudp_set_udp_family sys_socket sys_bind sys_getsockname family).
Proof.
  unfold rudp_set_udp_family. destruct (_ && _); [apply total_ret|]. apply total_get. intros c _.
  destruct (bool_decide _); [apply total_ret|apply total_socket].
Qed.

Lemma set_peer_key_ok key size c : len key = 128 -> ctx_ok c ->
  exists c', set_peer_key key size c = Ok c' /\ ctx_ok c' /\ refcount c' = refcount c.
Proof.
  intros Hl Hc. assert (Hset : forall k, len k = 20 -> ctx_ok (c <| your_key := k |>)).
  { intros k Hk. destruct Hc as (Hq & Hks & Hrest). split; [exact Hq|]. split; [|exact Hrest]. unfold keys_ok in *. keys_reduce. tauto. }
  unfold set_peer_key. destruct (_ >=? RUDP_COMMON_KEY_SIZE_V1); [|by exists c].
  destruct (fetch_safe 0 RUDP_COMMON_KEY_SIZE_V1 key) as [k E]; [done|rewrite Hl; unfold RUDP_COMMON_KEY_SIZE_V1; lia|].
  rewrite E, bind_ok. apply fetch_len in E; [|done]. destruct (_ >=? RUDP_COMMON_KEY_SIZE_V2); [|eexists; split; [done|]; split; [by apply Hset|done]].
  destruct (fetch_safe 0 RUDP_COMMON_KEY_SIZE_V2 key) as [k2 ->]; [done|by rewrite Hl|].
  rewrite bind_ok. eexists. split; [done|]. split; [exact (Hset k E)|done].
Qed.

Lemma init_v2_ok c : alloc = true -> ctx_ok c -> ctx_ok (rudp_init_v2_cipher alloc c).
Proof.
  intros -> (Hq & Hk & Hv & Hrest). split; [exact Hq|]. split; [|split; [|exact Hrest]].
  - unfold keys_ok, rudp_init_v2_cipher in *. cbn [negb]. keys_reduce. split_and!; try apply Hk. intros _. by split.
  - destruct Hv as [Hv|[Hv _]]; [by left|right; by split_and!].
Qed.

Lemma total_init_client key size ip port sc cc : alloc = true -> len key = 128 -> 0 <= cc < 2 ^ 32 ->
  total (rudp_init_client inet_pton6 inet_pton4 tick sys_socket sys_bind sys_getsockname alloc key size ip port sc cc).
Proof.
  intros Ha Hl Hcc. unfold rudp_init_client, init_peer. destruct (peer_of _ _ ip port) as [a|]; [|apply total_ret].
  apply total_get. intros c0 _. apply total_bind; [destruct (bool_decide _); [apply total_ret|apply total_socket]|].
  intros r. destruct (negb _); [apply total_ret|].
  apply total_bind; [apply total_modify|intros _].
  { intros c (Hq & Hk & Hv & _ & Hw). unfold set_peer. cbv zeta.
    split; [|done]. split; [exact Hq|]. split; [exact Hk|]. split; [exact Hv|]. split; [|exact Hw].
    cbn [max_udp_packet_size]. destruct (_ =? _); [by right|by left]. }
  apply total_bind; [apply total_upd; intros c; by apply set_peer_key_ok|intros _].
  apply total_bind; [apply total_modify|intros _].
  { intros c Hc. destruct (_ >=? _); [|done]. split; [by apply init_v2_ok|]. unfold rudp_init_v2_cipher. by rewrite Ha. }
  apply total_bind; [apply total_modify|intros _].
  { intros c (Hq & Hk & Hrest). split; [|done]. split; [exact Hq|]. split; [|exact Hrest]. unfold keys_ok in *. keys_reduce. tauto. }
  apply total_bind; [apply total_tick|]. intros t.
  apply total_bind; [apply total_modify|intros _; apply total_ret]. intros c Hc. split; [exact Hc|done].
Qed.

Lemma set_version_ok v c : ctx_ok c -> ctx_ok (rudp_set_version v c).
Proof.
  intros (Hq & Hk & Hv & Hrest). split; [exact Hq|]. split; [exact Hk|]. split; [|exact Hrest].
  unfold rudp_set_version, version_ok. cbn [version evp_encrypt_ctx evp_decrypt_ctx].
  destruct (_ && v2_cipher_inited c) eqn:E; [|by left]. apply andb_true_iff in E as [_ E].
  right. split; [done|]. by apply Hk.
Qed.

(** ** The laws *)

Lemma accel_setup_laws before fuel : rand_ok rand -> a_freed before = false ->
  Forall (fun d => bytes_ok (d_bytes d)) (a_in before) -> @AccelSetupLaws aworld (accel_setup before fuel) (good 1).
Proof.
  intros Hr Hf Hi. split; cbn [as_create as_family as_offer as_compress accel_setup].
  - intros u. destruct (rudp_create _ _ _ _ _ fuel true before) as [| |[[] w]] eqn:E; try discriminate. intros [= ->].
    destruct (create_keeps tick rand sys_socket sys_bind sys_getsockname fuel true before u) as (Hfu & (Hc & _ & Hr1 & _) & Hin); [done..|].
    split; [done|]. by rewrite Hin.
  - intros f u Hu. pose proof (total_family f 1 ltac:(lia) u Hu) as T.
    destruct (rudp_set_udp_family _ _ _ f u) as [| |[r u']]; [done..|]. by exists r, u'.
  - intros b u ((Hfu & Hc & Hr1) & Hin). split; [|done]. split; [done|]. split; [exact Hc|exact Hr1].
  - intros u ((_ & (_ & Hk & _) & _) & _). destruct Hk as (H1 & _ & _ & _ & H2 & H3 & H4 & _). split; [exact H1|]. split; [exact H2|]. split; [exact H3|exact H4].
Qed.

Lemma accel_start_laws : alloc = true -> @AccelStartLaws aworld accel_start (good 1).
Proof.
  intros Ha. split; cbn [st_init_client st_set_version accel_start].
  - intros key size ip port sc cc u Hu Hl.
    pose proof (total_init_client key size ip port (u32 sc) (u32 cc) Ha Hl ltac:(apply Z.mod_pos_bound; lia) 1 ltac:(lia) u Hu) as T.
    destruct (rudp_init_client _ _ _ _ _ _ _ _ _ _ _ _ _ u) as [| |[r u']]; [done..|]. by exists r, u'.
  - intros v u ((Hfu & Hc & Hr1) & Hin). split; [|done]. split; [done|]. split; [by apply set_version_ok|exact Hr1].
Qed.
End session.
